(* ===== verification/_CoqProject ===== *)
-Q . S2P
Prelude.v
Stuff.v
Pm.v
PmInv.v
PmSteps.v
PmRun.v
PmSpec.v
Virtio.v
VirtioInv.v
Vm.v
VmInv.v
VmTree.v
VmRun.v
VmFree.v
VmPm.v
VmSpec.v
VmKern.v
VmBoot.v
VmWit.v
RegionList.v
P9Msg.v
P9.v
P9Wire.v
P9Ops.v
P9Spec.v
P9Fids.v
P9Follow.v
P9Walk.v
Pipe.v
Hoare.v
Kst.v
Cons.v
ConsSpec.v
Fs.v
FsSys.v
FsInv.v
FsAcct.v
FsSpec.v
FsData.v
Sched.v
SchedInv.v
SchedSpec.v
Spin.v
Handoff.v
HandoffSpec.v
Umem.v
UmemInv.v
UmemRun.v
UmemSafe.v
UmemOps.v
UmemSpec.v
UmemFork.v
Tlb.v
TlbSpec.v
UmemPm.v
Stacks.v
UmemWit.v
TlbWit.v
Arch.v
Gic.v
Trap.v
TrapSpec.v
Start.v
Dev.v
DevSpec.v
DevWit.v
Vio.v
BlkSpec.v
UmemFree.v
Elf.v
Exec.v
Tick.v
ExecStack.v
ExecMem.v
ExecSeg.v
ElfSpec.v
ExecRun.v
ExecSpec.v
ExecWit.v
