(* ===== verification/Prelude.v ===== *)
(** * virt-kernel: a verification of the kernel in [src/src]

    The kernel is a small one for the [virt] machine of QEMU (AArch64, one
    processor): it boots into one task, the shell, whose files come from a 9p
    server on the host.  This library models it as functions on explicit state
    and proves what its parts promise.  This file holds what they share; here
    is how they fit together.

    ** The parts of the program, and the files that model them

    - [pm.rs], physical pages.  [Pm] (the page array, the free lists, buddies,
      references, copy on write), [PmInv], [PmSteps], [PmRun] (the invariant and
      how each operation runs under it), [PmSpec] (the specification as a map of
      blocks, and the theorems).
    - [vm.rs], page tables and the kernel's own pages.  [Vm] (tables as frames of
      a store of words, the windows through which the kernel edits them, mapping,
      walking, freeing, start-up), [VmInv], [VmTree], [VmRun], [VmFree] (the
      tables form a forest; what each operation does to translations), [VmSpec],
      [VmKern], [VmBoot] (the theorems), [VmPm] (the frames come from [Pm]),
      [VmWit] (a small kernel), [RegionList] (the list of regions).
    - [arch.rs] and [vm.rs], the TLB.  The state of [Vm] holds the translations
      the processor remembers; [Tlb] (what the hardware may take in and forget,
      and when nothing in it is stale), [TlbSpec] (theorems), [TlbWit].
    - [virtio.rs], queues and registers.  [Virtio] (code), [VirtioInv] (the queue
      under every interleaving with the device).
    - [p9.rs], the 9p client.  [P9Msg] (the buffer), [P9] (messages), [P9Wire]
      (their encoding), [P9Ops] (the operations), [P9Spec], [P9Fids], [P9Follow],
      [P9Walk] (the fids and the queue across operations).
    - [pipe.rs]: [Pipe].  [cons.rs], [tty.rs], [rtc.rs], [timer.rs]: [Cons],
      [ConsSpec], [Tick].  [stuff.rs]: [Stuff].
    - [fs.rs], files and their system calls.  [Kst] (the state of the kernel
      above memory), [Fs], [FsSys] (code), [FsInv], [FsAcct] (reference counts),
      [FsSpec], [FsData] (theorems).
    - [sched.rs], tasks.  [Sched] (creation, fork, exit, wait, the scheduler),
      [SchedInv], [SchedSpec].  [spin.rs]: [Spin].  [Handoff] (the two sides of a
      switch with the locks that are held across it), [HandoffSpec].  [Stacks]
      ([sched::init]: the kernel stacks).
    - [sched.rs], the memory of tasks.  [Umem] (regions, brk, mmap, fork, copy on
      write), [UmemInv], [UmemRun], [UmemSafe], [UmemOps], [UmemFree] (how they
      run, and when a store of one task is seen by no other), [UmemSpec],
      [UmemFork] (theorems), [UmemPm] (on [Pm]), [UmemWit].
    - [arch.rs], [trap.rs], the assembly.  [Arch] (a processor, its instructions
      and system registers, the code of [_start], of the vectors, of [switch]
      and of [forkret]), [Gic] (the interrupt controller), [Trap], [TrapSpec]
      (entering, leaving, switching), [Start] (from reset to [main]).
    - [elf.rs] and [sched.rs], programs.  [Elf], [Exec] (code), [ElfSpec],
      [ExecStack], [ExecMem], [ExecSeg], [ExecRun] (each step), [ExecSpec]
      (exec, and the first task), [ExecWit].
    - [main.rs], [uart.rs], [timer.rs], [rtc.rs], [virtio.rs], start-up of the
      devices.  [Dev] (code, each register through the page mapped for it),
      [DevSpec], [DevWit].
    - [blk.rs], [rng.rs].  [Vio] (code), [BlkSpec].

    ** How the model is made

    A function of the program is a function in the monad [M S] below: it takes a
    state and returns a value and a state, or one of three faults.  [FPanic] is
    a panic of Rust, [FUB] a read or write outside of the object a pointer came
    from, [FFuel] a loop that was given up.  Integers are in [Z] with their
    width written out ([wadd], [wrap], [+!] for 64 bits) and wrap around as in a
    release build (a debug build panics on overflow); bit operations are those of
    [Z].  Memory is what each part sees of it: frames of words for page
    tables and user memory, a map of words for the kernel's stacks, bytes for
    buffers of devices and for the arguments of system calls.

    Loops that are not structural take fuel.  Where the number of turns has a
    bound in the code it is that bound: the queue size for chains and the used
    ring, the number of frames for lists of pages, the length of a buffer or a
    string.  A task that sleeps is modelled by [others], any function that says
    what the rest of the system does meanwhile, and by [naps], the number of
    sleeps after which the model gives up; theorems either hold for every
    [others] and all [naps], or say how many naps are enough
    ([SchedSpec.exit_wakes_wait], [FsData.pipe_transfer] and
    [Pipe.pipe_calls_return] need none or one, [Tick.nanosleep_bounds] one per
    tick).  [Pm] needs one turn per order or page, [Exec] one per program header.

    What is outside of the program is a parameter: the 9p server ([device] in
    [P9Ops]; for the layers above it the class [P9Api], with [P9Reads] and
    [P9Files] where a proof needs a server that answers reads of an open file
    truthfully), the
    registers and memory traffic of devices ([Mmio], [Gic], [VioDev] with
    [DiskLaws]), what the linker places ([Image], [BootSyms]), what memory holds
    before it is written ([junk]).  Interfaces between parts of the program are
    classes too, with the part below as their instance: [FrameOps] and
    [FrameLaws] (page tables on frames, [VmPm]), [ShareOps] and its laws (user
    memory on shared frames, [UmemPm]), [MmApi] (tasks on user memory),
    [Handlers] (the trap code on what it calls).

    ** What the theorems show

    - Memory: every request to the page allocator matches a step of a map of
      blocks, splitting and joining included; a block is never handed out
      twice.  Mapping, unmapping and freeing change exactly the translations
      they should, from [vm::init] on.  Fork copies, copy on write separates,
      brk and mmap add exactly zeroed pages of one's own.  Whatever the
      processor remembers of the tables and whenever it looks, it uses no stale
      translation, across fork and write faults too, except that permissions
      rewritten in place count from the next switch of the address space on.
      Every task gets a kernel stack of its own.
    - Devices: the entry code reaches [main] with the kernel mapped in both
      halves; the drivers find and start exactly the devices there are; every
      completion of a queue is taken once; what is written to the disk before any
      read is read back; requests to the server are encoded as the protocol says, and the
      operations give back the fids they take, or how many they leave behind.
    - Processes: an exception is not seen by the code it interrupts, a task
      resumes where it was; locks are counted, and in every order of sleeping,
      waking, forking, exiting and scheduling no assertion about them fails and
      a sleeper gets its lock back and every ready task its turn; the calls on
      files and the life of a task keep the file table counting the descriptors
      of the live tasks; a parent is woken by the end of its child, and its
      [wait] returns.
    - Files: a pipe is a queue of bytes while no more than 4096 are unread, a line
      is read as it was edited, [read_all] reads all, sleeping takes the time it
      was asked for as far as that fits a machine word.
    - Programs: [Elf::new] accepts what it should, [exec] leaves exactly the new
      program and its arguments, the first task becomes the shell.

    Where the code does not do what it means to, the theorem says what it does
    ([VmSpec.v2p_pt_spec], [TlbSpec.leaves_global], [FsData.lseek_spec], [Spin.release_keeps_mask],
    [BlkSpec.read_spoils_write] and others).

    ** Not modelled

    Barriers and caches (they change nothing in a model whose memory is
    sequentially consistent and whose TLB is invalidated at once); the floating-point registers, which the
    kernel enables but does not save; the heap ([heap.rs] hands a region to an
    allocator that is not in the repository); printing and its formatting ([print!]
    writes something only in a build with the feature [dbg]); the width of the reference count of a
    page ([usize], which no run of the kernel fills); a 9p request as more than
    one step (the task that waits for the answer is not interleaved with others
    inside [P9Ops]); the
    lock around the state of a driver, as one call runs at a time there ([Spin]
    models the locks themselves, [Handoff] how they pass through a switch,
    [VirtioInv] the queue under interleaving); structures and constants nothing
    uses (the configuration space of the disk, most [ioctl] and [open] flags);
    [main] as one function: its steps are the start-up functions of the parts. *)
From stdpp Require Export base numbers list gmap fin_maps.
From Stdlib Require Export ZArith Lia.

#[export] Set Default Proof Using "Type".

Local Open Scope Z_scope.

Declare Scope krn_scope.
Delimit Scope krn_scope with krn.

(** ** Outcomes

    A Rust function either returns, panics ([panic!], [assert!], [unwrap] on
    the wrong variant, an index out of bounds), or reads or writes through a
    raw pointer outside of the object it came from.  Loops that are not
    structural are modelled with fuel; running out of it is an outcome of its
    own so that no theorem can mistake it for a return. *)
Inductive fault :=
  | FPanic
  | FUB
  | FFuel.

Inductive outcome (A : Type) :=
  | Done (a : A)
  | Fault (f : fault).
Arguments Done {A} a.
Arguments Fault {A} f.

#[export] Instance fault_eq_dec : EqDecision fault.
Proof. solve_decision. Defined.

(** [let? x := m in k]: run [m], stop at a fault, continue with its value. *)
Definition obind {A B} (m : outcome A) (k : A → outcome B) : outcome B :=
  match m with Done a => k a | Fault e => Fault e end.
Notation "'let?' x := m 'in' k" := (obind m (λ x, k))
  (at level 10, x pattern, m at level 100, k at level 200, only parsing) : krn_scope.

(** State passing on top of outcomes, with [let! x := m in k] and [m ;;; k]. *)
Definition M (S A : Type) : Type := S → outcome (A * S).

Definition ret {S A} (a : A) : M S A := λ s, Done (a, s).
Definition bind {S A B} (m : M S A) (k : A → M S B) : M S B := λ s,
  match m s with Done (a, s') => k a s' | Fault e => Fault e end.
Notation "'let!' x := m 'in' k" := (bind m (λ x, k))
  (at level 10, x pattern, m at level 100, k at level 200, only parsing) : krn_scope.
Notation "m ;;; k" := (bind m (λ _, k))
  (at level 100, k at level 200, right associativity, only parsing) : krn_scope.
Open Scope krn_scope.

Section ops.
Context {S : Type}.

Definition get : M S S := λ s, Done (s, s).
Definition put (s : S) : M S unit := λ _, Done (tt, s).
Definition modify (f : S → S) : M S unit := λ s, Done (tt, f s).
Definition gets {A} (f : S → A) : M S A := λ s, Done (f s, s).
Definition fail {A} (e : fault) : M S A := λ _, Fault e.
Definition panic {A} : M S A := fail FPanic.
Definition assert_ (b : bool) : M S unit := if b then ret tt else panic.
Definition unwrap {A} (o : option A) : M S A :=
  match o with Some a => ret a | None => panic end.
Definition lift {A} (o : outcome A) : M S A := λ s,
  match o with Done a => Done (a, s) | Fault e => Fault e end.

(** [for i in l { body(i) }] without early exit. *)
Fixpoint forM {A} (l : list A) (body : A → M S unit) : M S unit :=
  match l with
  | [] => ret tt
  | x :: l' => body x ;;; forM l' body
  end.
End ops.

(** [0..n] as a list of integers. *)
Definition range (lo hi : Z) : list Z := seqZ lo (hi - lo).

(** ** Machine integers

    A [w]-bit unsigned integer is a [Z] in [0, 2^w).  The release profile of
    the crate does not check overflow, so [+], [-], [*] wrap. *)
Definition wrap (w z : Z) : Z := z mod 2 ^ w.
Definition wadd (w a b : Z) : Z := wrap w (a + b).
Definition wsub (w a b : Z) : Z := wrap w (a - b).
Definition wmul (w a b : Z) : Z := wrap w (a * b).
Definition wnot (w a : Z) : Z := Z.lxor a (Z.ones w).
Definition wshl (w a b : Z) : Z := wrap w (Z.shiftl a b).

(** Reading the low [w] bits as a two's complement number, and sign extension
    of an [a]-bit value to [b] bits ([x as i32 as u64] and the like). *)
Definition signed (w z : Z) : Z :=
  let z' := wrap w z in if z' <? 2 ^ (w - 1) then z' else z' - 2 ^ w.
Definition sext (a b z : Z) : Z := wrap b (signed a z).

Definition U16_MAX : Z := 65535.
Definition U32_MAX : Z := 4294967295.

Notation "a +! b" := (wadd 64 a b) (at level 50, left associativity) : krn_scope.
Notation "a -! b" := (wsub 64 a b) (at level 50, left associativity) : krn_scope.
Notation "a *! b" := (wmul 64 a b) (at level 40, left associativity) : krn_scope.

(** Little-endian bytes. *)
Fixpoint le_bytes (n : nat) (z : Z) : list Z :=
  match n with
  | O => []
  | S n' => z mod 256 :: le_bytes n' (z / 256)
  end.

Fixpoint of_le_bytes (bs : list Z) : Z :=
  match bs with
  | [] => 0
  | b :: bs' => b + 256 * of_le_bytes bs'
  end.

Definition is_byte (b : Z) : Prop := (0 ≤ b < 256)%Z.

(** Copying into a slice ([dst[off..off+src.len()].copy_from_slice(src)]). *)
Definition splice {A} (off : nat) (src dst : list A) : list A :=
  take off dst ++ src ++ drop (off + length src) dst.

(** ** Tactics *)

(** Case analysis on the boolean comparisons the models use. *)
Ltac cases_Z :=
  repeat match goal with
  | |- context [Z.eqb ?a ?b] => destruct (Z.eqb_spec a b)
  | |- context [Z.ltb ?a ?b] => destruct (Z.ltb_spec a b)
  | |- context [Z.leb ?a ?b] => destruct (Z.leb_spec a b)
  | H : context [Z.eqb ?a ?b] |- _ => destruct (Z.eqb_spec a b)
  | H : context [Z.ltb ?a ?b] |- _ => destruct (Z.ltb_spec a b)
  | H : context [Z.leb ?a ?b] |- _ => destruct (Z.leb_spec a b)
  end.

(** Unfold one layer of the state monad on the goal. *)
Ltac mred :=
  cbv [obind bind ret get put modify gets fail panic
       assert_ unwrap lift] in *; simpl.

(** Running a sequence one step at a time: [mrun E] consumes the first
    computation of the goal with the equation [E] that says what it returns. *)
Lemma bind_Done {S A B} (m : M S A) (k : A → M S B) s a s' :
  m s = Done (a, s') → bind m k s = k a s'.
Proof. intros E. unfold bind. by rewrite E. Qed.

Lemma bind_assoc {S A B C} (m : M S A) (k : A → M S B) (k' : B → M S C) s :
  bind (bind m k) k' s = bind m (λ a, bind (k a) k') s.
Proof. unfold bind. by destruct (m s) as [[a s']|]. Qed.

Tactic Notation "mrun" uconstr(E) :=
  first [ erewrite bind_Done by (apply E; done) | erewrite bind_Done by (exact E) ].

(** Steps that only look at the state: [ret], [get], [assert_], [unwrap] of a known value. *)
Ltac mstep :=
  match goal with
  | |- context [bind (ret ?x) ?k ?s] => change (bind (ret x) k s) with (k x s)
  | |- context [bind get ?k ?s] => change (bind get k s) with (k s s)
  | |- context [bind (put ?s') ?k ?s] => change (bind (put s') k s) with (k tt s')
  | |- context [bind (unwrap (Some ?x)) ?k ?s] => change (bind (unwrap (Some x)) k s) with (k x s)
  | |- context [bind (assert_ true) ?k ?s] => change (bind (assert_ true) k s) with (k tt s)
  | |- context [bind (gets ?f) ?k ?s] => change (bind (gets f) k s) with (k (f s) s)
  end; cbv beta.

(** [lia] with quotients and remainders. *)
Ltac zdiv := Z.to_euclidean_division_equations; lia.

(** ** Hint databases *)
Create HintDb krn discriminated.
Create Rewrite HintDb krn.

(** ** Lemmas on machine integers *)
Section words.
Lemma wrap_range w z : 0 ≤ w → 0 ≤ wrap w z < 2 ^ w.
Proof. intros. unfold wrap. apply Z.mod_pos_bound. lia. Qed.

Lemma wrap_small w z : 0 ≤ z < 2 ^ w → wrap w z = z.
Proof. apply Z.mod_small. Qed.

Lemma wrap_wrap w z : wrap w (wrap w z) = wrap w z.
Proof. unfold wrap. apply Zmod_mod. Qed.

Lemma wadd_small w a b : 0 ≤ a + b < 2 ^ w → wadd w a b = a + b.
Proof. apply wrap_small. Qed.

Lemma wsub_small w a b : 0 ≤ a - b < 2 ^ w → wsub w a b = a - b.
Proof. apply wrap_small. Qed.

Lemma wmul_small w a b : 0 ≤ a * b < 2 ^ w → wmul w a b = a * b.
Proof. apply wrap_small. Qed.

(** Counters that wrap: the distance between two of them survives. *)
Lemma wadd_wsub w a b : 0 ≤ w → 0 ≤ b < 2 ^ w → wsub w (wadd w a b) a = b.
Proof.
  intros Hw Hb. unfold wsub, wadd, wrap.
  rewrite Zminus_mod_idemp_l. replace (a + b - a) with b by lia.
  by apply Z.mod_small.
Qed.

Lemma wadd_wadd w a b c : wadd w (wadd w a b) c = wadd w a (b + c).
Proof. unfold wadd, wrap. rewrite Zplus_mod_idemp_l. by rewrite Z.add_assoc. Qed.

Lemma wnot_testbit w a i : 0 ≤ i < w → Z.testbit (wnot w a) i = negb (Z.testbit a i).
Proof.
  intros Hi. unfold wnot. rewrite Z.lxor_spec, Z.ones_spec_low by lia.
  by destruct (Z.testbit a i).
Qed.

Lemma bit_testbit b i : 0 ≤ b → Z.testbit (Z.shiftl 1 b) i = bool_decide (i = b).
Proof.
  intros Hb. rewrite Z.shiftl_1_l. case_bool_decide as Hi.
  - subst. by apply Z.pow2_bits_true.
  - by apply Z.pow2_bits_false.
Qed.

(** [x | 1 << b] and [x & !(1 << b)], bit by bit. *)
Lemma setbit_testbit x b i :
  0 ≤ b → Z.testbit (Z.lor x (Z.shiftl 1 b)) i = bool_decide (i = b) || Z.testbit x i.
Proof. intros. rewrite Z.lor_spec, bit_testbit by done. apply orb_comm. Qed.

Lemma clrbit_testbit w x b i :
  0 ≤ b → 0 ≤ i < w →
  Z.testbit (Z.land x (wnot w (Z.shiftl 1 b))) i = negb (bool_decide (i = b)) && Z.testbit x i.
Proof. intros. rewrite Z.land_spec, wnot_testbit, bit_testbit by done. apply andb_comm. Qed.

Lemma land_bit_nonzero x b :
  0 ≤ b → negb (Z.land x (Z.shiftl 1 b) =? 0) = Z.testbit x b.
Proof.
  intros Hb. destruct (Z.testbit x b) eqn:Hx.
  - apply negb_true_iff, Z.eqb_neq. intros E.
    assert (Z.testbit (Z.land x (Z.shiftl 1 b)) b = false) as F by (rewrite E; apply Z.bits_0).
    rewrite Z.land_spec, bit_testbit, Hx in F by done. by rewrite bool_decide_eq_true_2 in F.
  - apply negb_false_iff, Z.eqb_eq, Z.bits_inj_0. intros i.
    rewrite Z.land_spec, bit_testbit by done. case_bool_decide; subst; [by rewrite Hx|].
    apply andb_false_r.
Qed.

Lemma testbit_high w z i : 0 ≤ z < 2 ^ w → w ≤ i → Z.testbit z i = false.
Proof.
  intros [Hz Hlt] Hi. destruct (decide (z = 0)) as [->|Hne]; [apply Z.bits_0|].
  apply Z.bits_above_log2; [done|]. apply Z.lt_le_trans with w; [|done].
  apply Z.log2_lt_pow2; lia.
Qed.

Lemma bounded_of_bits w z :
  0 ≤ w → 0 ≤ z → (∀ i, w ≤ i → Z.testbit z i = false) → z < 2 ^ w.
Proof.
  intros Hw Hz Hb. rewrite (Z.div_mod z (2 ^ w)) by lia.
  assert (Z.shiftr z w = 0) as E.
  { apply Z.bits_inj_0. intros i. destruct (Z.le_gt_cases 0 i) as [Hi|Hi].
    - rewrite Z.shiftr_spec by done. apply Hb. lia.
    - by apply Z.testbit_neg_r. }
  rewrite Z.shiftr_div_pow2 in E by done. rewrite E.
  pose proof (Z.mod_pos_bound z (2 ^ w)). lia.
Qed.

Lemma lor_range w a b : 0 ≤ w → 0 ≤ a < 2 ^ w → 0 ≤ b < 2 ^ w → 0 ≤ Z.lor a b < 2 ^ w.
Proof.
  intros Hw Ha Hb. split; [apply Z.lor_nonneg; lia|].
  apply bounded_of_bits; [done|apply Z.lor_nonneg; lia|].
  intros i Hi. rewrite Z.lor_spec. by rewrite !(testbit_high w).
Qed.

Lemma land_range w a b : 0 ≤ w → 0 ≤ a < 2 ^ w → 0 ≤ b → 0 ≤ Z.land a b < 2 ^ w.
Proof.
  intros Hw Ha Hb. assert (0 ≤ Z.land a b) by (apply Z.land_nonneg; lia).
  split; [done|]. apply bounded_of_bits; [done..|].
  intros i Hi. rewrite Z.land_spec. by rewrite (testbit_high w).
Qed.

Lemma wnot_range w a : 0 ≤ w → 0 ≤ a < 2 ^ w → 0 ≤ wnot w a < 2 ^ w.
Proof.
  intros Hw Ha. unfold wnot.
  assert (0 ≤ Z.ones w < 2 ^ w) as Ho by (rewrite Z.ones_equiv; lia).
  assert (0 ≤ Z.lxor a (Z.ones w)) by (apply Z.lxor_nonneg; lia).
  split; [done|]. apply bounded_of_bits; [done..|].
  intros i Hi. rewrite Z.lxor_spec. by rewrite !(testbit_high w).
Qed.

Lemma pow2_range w b : 0 ≤ b < w → 0 ≤ Z.shiftl 1 b < 2 ^ w.
Proof.
  intros. rewrite Z.shiftl_1_l. split; [lia|]. by apply Z.pow_lt_mono_r; lia.
Qed.
End words.

#[export] Hint Resolve wrap_range lor_range land_range wnot_range pow2_range : krn.
#[export] Hint Rewrite wrap_wrap : krn.

(** ** Little-endian encodings *)
Section little_endian.
Lemma length_le_bytes n z : length (le_bytes n z) = n.
Proof. revert z. induction n; intros; simpl; auto. Qed.

Lemma le_bytes_byte n z : Forall is_byte (le_bytes n z).
Proof.
  revert z. induction n; intros; simpl; constructor; [|done].
  apply Z.mod_pos_bound. lia.
Qed.

Lemma of_le_bytes_le_bytes n z : of_le_bytes (le_bytes n z) = z mod 2 ^ (8 * Z.of_nat n).
Proof.
  revert z. induction n as [|n IH]; intros z; simpl le_bytes; simpl of_le_bytes.
  - by rewrite Z.mod_1_r.
  - rewrite IH. replace (8 * Z.of_nat (S n)) with (8 + 8 * Z.of_nat n) by lia.
    rewrite Z.pow_add_r by lia. change (2 ^ 8) with 256.
    rewrite Z.rem_mul_r by lia. lia.
Qed.

Lemma of_le_bytes_range bs :
  Forall is_byte bs → 0 ≤ of_le_bytes bs < 2 ^ (8 * Z.of_nat (length bs)).
Proof.
  induction 1 as [|b bs Hb _ IH]; simpl of_le_bytes; [done|].
  replace (8 * Z.of_nat (length (b :: bs))) with (8 + 8 * Z.of_nat (length bs)) by (simpl; lia).
  rewrite Z.pow_add_r by lia. change (2 ^ 8) with 256. unfold is_byte in Hb. lia.
Qed.
End little_endian.

#[global] Arguments le_bytes : simpl never.

#[export] Hint Rewrite length_le_bytes : krn.
#[export] Hint Resolve le_bytes_byte : krn.

(** ** Slices *)
Section slices.
Context {A : Type}.
Implicit Types (src dst : list A).

Lemma length_splice off src dst :
  (off + length src ≤ length dst)%nat → length (splice off src dst) = length dst.
Proof. intros. unfold splice. rewrite !length_app, length_take, length_drop. lia. Qed.

Lemma splice_lookup_in off src dst i :
  (off + length src ≤ length dst)%nat → (off ≤ i < off + length src)%nat →
  splice off src dst !! i = src !! (i - off)%nat.
Proof.
  intros Hle Hi. unfold splice.
  rewrite lookup_app_r by (rewrite length_take; lia).
  rewrite lookup_app_l by (rewrite length_take; lia).
  f_equal. rewrite length_take. lia.
Qed.

Lemma splice_lookup_out off src dst i :
  (off + length src ≤ length dst)%nat → (i < off ∨ off + length src ≤ i)%nat →
  splice off src dst !! i = dst !! i.
Proof.
  intros Hle [Hi|Hi]; unfold splice.
  - rewrite lookup_app_l by (rewrite length_take; lia). by apply lookup_take_lt.
  - rewrite lookup_app_r by (rewrite length_take; lia).
    rewrite lookup_app_r by (rewrite length_take; lia).
    rewrite lookup_drop, length_take. f_equal. lia.
Qed.

Lemma splice_prefix off src dst :
  (off ≤ length dst)%nat → take off (splice off src dst) = take off dst.
Proof.
  intros. unfold splice. rewrite take_app_le by (rewrite length_take; lia).
  rewrite take_take. f_equal. lia.
Qed.

Lemma splice_read off src dst :
  (off + length src ≤ length dst)%nat →
  take (length src) (drop off (splice off src dst)) = src.
Proof.
  intros. unfold splice. rewrite drop_app_length' by (rewrite length_take; lia).
  by rewrite take_app_length.
Qed.
End slices.

(** ** Loops *)
Section loops.
Context {S A : Type}.

Lemma forM_nil (body : A → M S unit) s : forM [] body s = Done (tt, s).
Proof. done. Qed.

Lemma forM_cons (body : A → M S unit) x l s s' :
  body x s = Done (tt, s') → forM (x :: l) body s = forM l body s'.
Proof. intros E. simpl. unfold bind. by rewrite E. Qed.

Lemma forM_app (body : A → M S unit) l1 l2 s s' :
  forM l1 body s = Done (tt, s') → forM (l1 ++ l2) body s = forM l2 body s'.
Proof.
  revert s. induction l1 as [|x l1 IH]; intros s; simpl.
  - intros [= ->]. done.
  - unfold bind. destruct (body x s) as [[[] s1]|]; [|done]. apply IH.
Qed.

Lemma forM_app_inv (body : A → M S unit) l1 l2 s s' :
  forM (l1 ++ l2) body s = Done (tt, s') →
  ∃ s1, forM l1 body s = Done (tt, s1) ∧ forM l2 body s1 = Done (tt, s').
Proof.
  revert s. induction l1 as [|x l1 IH]; intros s; simpl; [eauto|].
  unfold bind. destruct (body x s) as [[[] s1]|]; [|done]. apply IH.
Qed.

(** A loop whose body always returns, with an invariant indexed by what is left. *)
Lemma forM_inv (I : list A → S → Prop) (body : A → M S unit) l s :
  I l s →
  (∀ x l' s1, I (x :: l') s1 → ∃ s2, body x s1 = Done (tt, s2) ∧ I l' s2) →
  ∃ s', forM l body s = Done (tt, s') ∧ I [] s'.
Proof.
  intros Hi Hstep. revert s Hi. induction l as [|x l IH]; intros s Hi; [eauto|].
  destruct (Hstep _ _ _ Hi) as (s2 & Eb & Hi2). rewrite (forM_cons _ _ _ _ s2) by done. auto.
Qed.
End loops.

Section ranges.
Lemma range_nil lo hi : hi ≤ lo → range lo hi = [].
Proof. intros. unfold range. apply seqZ_nil. lia. Qed.

Lemma range_cons lo hi : lo < hi → range lo hi = lo :: range (lo + 1) hi.
Proof.
  intros. unfold range. rewrite seqZ_cons by lia. do 2 f_equal; lia.
Qed.

Lemma elem_of_range lo hi x : x ∈ range lo hi ↔ lo ≤ x < hi.
Proof. unfold range. rewrite elem_of_seqZ. lia. Qed.
End ranges.

#[export] Hint Rewrite @elem_of_range : krn.

(** ** Triples

    [triple P m Q]: from a state in [P], [m] returns with [Q], or panics; it
    never reads or writes out of bounds and never runs out of fuel. *)
Definition triple {S A} (P : S → Prop) (m : M S A) (Q : A → S → Prop) : Prop :=
  ∀ s, P s → match m s with Done (a, s') => Q a s' | Fault f => f = FPanic end.

Section triples.
Context {S : Type}.
Implicit Types (P : S → Prop).

Lemma triple_ret {A} P (a : A) (Q : A → S → Prop) : (∀ s, P s → Q a s) → triple P (ret a) Q.
Proof. intros H s Hs. simpl. auto. Qed.

Lemma triple_bind {A B} P (m : M S A) (k : A → M S B) R Q :
  triple P m R → (∀ a, triple (R a) (k a) Q) → triple P (bind m k) Q.
Proof.
  intros Hm Hk s Hs. specialize (Hm s Hs). unfold bind.
  destruct (m s) as [[a s']|f]; [by apply Hk|done].
Qed.

Lemma triple_panic {A} P (Q : A → S → Prop) : triple P panic Q.
Proof. by intros s _. Qed.

Lemma triple_assert P b : triple P (assert_ b) (λ _ s, P s ∧ b = true).
Proof. intros s Hs. by destruct b. Qed.

Lemma triple_unwrap {A} P (o : option A) : triple P (unwrap o) (λ a s, P s ∧ o = Some a).
Proof. intros s Hs. by destruct o. Qed.

Lemma triple_get P : triple P get (λ a s, P s ∧ a = s).
Proof. by intros s Hs. Qed.

Lemma triple_gets {A} P (f : S → A) : triple P (gets f) (λ a s, P s ∧ a = f s).
Proof. by intros s Hs. Qed.

Lemma triple_modify P (f : S → S) : triple P (modify f) (λ _ s, ∃ s0, P s0 ∧ s = f s0).
Proof. intros s Hs. simpl. eauto. Qed.

Lemma triple_conseq {A} P P' (m : M S A) Q Q' :
  triple P' m Q' → (∀ s, P s → P' s) → (∀ a s, Q' a s → Q a s) → triple P m Q.
Proof.
  intros Hm HP HQ s Hs. specialize (Hm s (HP s Hs)). destruct (m s) as [[a s']|]; auto.
Qed.

Lemma triple_if {A} P (b : bool) (m1 m2 : M S A) Q :
  triple (λ s, P s ∧ b = true) m1 Q → triple (λ s, P s ∧ b = false) m2 Q →
  triple P (if b then m1 else m2) Q.
Proof. intros H1 H2 s Hs. destruct b; [apply H1|apply H2]; done. Qed.

Lemma triple_pure {A} P (m : M S A) Q (φ : Prop) :
  (φ → triple P m Q) → triple (λ s, P s ∧ φ) m Q.
Proof. intros H s [Hs Hφ]. by apply H. Qed.

(** A computation that only looks at its argument. *)
Lemma triple_lift {A} P (o : outcome A) :
  (∀ f, o = Fault f → f = FPanic) → triple P (lift o) (λ a s, P s ∧ o = Done a).
Proof. intros Ho s Hs. unfold lift. destruct o; [done|]. by apply Ho. Qed.
End triples.
