(* ===== verification/Stuff.v ===== *)
(** * [stuff.rs]: the 128-bit set and C strings

    [BitSet128] hands out virtqueue descriptors ([virtio.rs]), 9p fids
    ([p9.rs]) and virtual pages ([vm.rs]).  [back] keeps the bits above [len]
    set, which is what lets [full] compare with all ones. *)
From S2P Require Import Prelude.

Local Open Scope Z_scope.

Module BitSet128.
Record t := mk { back : Z; len : Z }.

Definition new (l : Z) : outcome t :=
  if l <=? 128 then
    Done (mk (if l =? 128 then 0 else wshl 128 (wnot 128 0) l) l)
  else Fault FPanic.

Definition set (bs : t) (bit : Z) : outcome t :=
  if bit <? len bs then Done (mk (Z.lor (back bs) (Z.shiftl 1 bit)) (len bs))
  else Fault FPanic.

Definition clr (bs : t) (bit : Z) : outcome t :=
  if bit <? len bs then
    Done (mk (Z.land (back bs) (wnot 128 (Z.shiftl 1 bit))) (len bs))
  else Fault FPanic.

Definition tst (bs : t) (bit : Z) : outcome bool :=
  if bit <? len bs then Done (negb (Z.land (back bs) (Z.shiftl 1 bit) =? 0))
  else Fault FPanic.

Definition full (bs : t) : bool := back bs =? wnot 128 0.

(** [for i in 0..self.len { if !self.tst(i) { return Some(i) } }] from [i], with [k] turns left. *)
Fixpoint first_clr_loop (bs : t) (i : Z) (k : nat) : outcome (option Z) :=
  match k with
  | O => Done None
  | S k' =>
      let? b := tst bs i in
      if b then first_clr_loop bs (i + 1) k' else Done (Some i)
  end.

Definition first_clr (bs : t) : outcome (option Z) :=
  if full bs then Done None else first_clr_loop bs 0 (Z.to_nat (len bs)).

(** The search of [set_nclr]: [f] clear bits seen in a row, [b] the set with
    those bits added. *)
Fixpoint set_nclr_loop (bs : t) (n f b i : Z) (k : nat) : outcome (option (Z * Z)) :=
  match k with
  | O => Done None
  | S k' =>
      let? u := tst bs i in
      let f' := if u then 0 else f + 1 in
      let b' := if u then back bs else Z.lor b (Z.shiftl 1 i) in
      if f' =? n then Done (Some (b', wsub 8 i (wsub 8 n 1)))
      else set_nclr_loop bs n f' b' (i + 1) k'
  end.

Definition set_nclr (bs : t) (n : Z) : outcome (option Z * t) :=
  let? r := set_nclr_loop bs n 0 (back bs) 0 (Z.to_nat (len bs)) in
  match r with
  | Some (b, idx) => Done (Some idx, mk b (len bs))
  | None => Done (None, bs)
  end.

(** ** Specification *)

(** Membership as the callers see it. *)
Definition mem (bs : t) (i : Z) : bool := Z.testbit (back bs) i.

Record wf (bs : t) : Prop := {
  wf_len : 0 ≤ len bs ≤ 128;
  wf_back : 0 ≤ back bs < 2 ^ 128;
  wf_high : ∀ i, len bs ≤ i < 128 → mem bs i = true;
}.

(** All [n] bits from [i] are clear. *)
Definition clear_run (bs : t) (i n : Z) : Prop := ∀ j, i ≤ j < i + n → mem bs j = false.

Lemma new_wf l : 0 ≤ l ≤ 128 → ∃ bs, new l = Done bs ∧ wf bs ∧ len bs = l ∧
  ∀ i, 0 ≤ i < l → mem bs i = false.
Proof.
  intros Hl. unfold new. destruct (Z.leb_spec l 128); [|lia].
  eexists. split; [done|]. destruct (Z.eqb_spec l 128) as [->|Hne].
  - split; [constructor; simpl; intros; try lia|]. split; [done|].
    intros. apply Z.bits_0.
  - assert (∀ i, 0 ≤ i < 128 → Z.testbit (wshl 128 (wnot 128 0) l) i = bool_decide (l ≤ i)) as B.
    { intros i Hi. unfold wshl, wrap. rewrite Z.mod_pow2_bits_low by lia.
      case_bool_decide.
      - rewrite Z.shiftl_spec, wnot_testbit, Z.bits_0 by lia. done.
      - rewrite Z.shiftl_spec, Z.testbit_neg_r by lia. done. }
    split; [constructor; simpl|split; [done|]].
    + lia.
    + unfold wshl. by apply wrap_range.
    + intros i Hi. unfold mem; simpl. rewrite B by lia. apply bool_decide_eq_true; lia.
    + intros i Hi. unfold mem; simpl. rewrite B by lia. apply bool_decide_eq_false. lia.
Qed.

Section wf.
Context (bs : t) (Hwf : wf bs).

Lemma tst_mem i : 0 ≤ i < len bs → tst bs i = Done (mem bs i).
Proof using Type.
  intros Hi. unfold tst. destruct (Z.ltb_spec i (len bs)); [|lia].
  by rewrite land_bit_nonzero by lia.
Qed.

Lemma set_ok i : 0 ≤ i < len bs → ∃ bs', set bs i = Done bs' ∧ wf bs' ∧ len bs' = len bs ∧
  ∀ j, mem bs' j = bool_decide (j = i) || mem bs j.
Proof using Hwf.
  intros Hi. unfold set. destruct (Z.ltb_spec i (len bs)); [|lia].
  eexists. split; [done|]. destruct Hwf as [Hl Hb Hh].
  assert (∀ j, mem (mk (Z.lor (back bs) (Z.shiftl 1 i)) (len bs)) j
               = bool_decide (j = i) || mem bs j) as B.
  { intros j. unfold mem; simpl. apply setbit_testbit. lia. }
  split; [constructor; simpl; try done|done].
  - apply lor_range; [lia|done|apply pow2_range; lia].
  - intros j Hj. rewrite B, Hh by done. apply orb_true_r.
Qed.

Lemma clr_ok i : 0 ≤ i < len bs → ∃ bs', clr bs i = Done bs' ∧ wf bs' ∧ len bs' = len bs ∧
  ∀ j, 0 ≤ j < 128 → mem bs' j = negb (bool_decide (j = i)) && mem bs j.
Proof using Hwf.
  intros Hi. unfold clr. destruct (Z.ltb_spec i (len bs)); [|lia].
  eexists. split; [done|]. destruct Hwf as [Hl Hb Hh].
  assert (∀ j, 0 ≤ j < 128 →
    mem (mk (Z.land (back bs) (wnot 128 (Z.shiftl 1 i))) (len bs)) j
    = negb (bool_decide (j = i)) && mem bs j) as B.
  { intros j Hj. unfold mem; simpl. apply clrbit_testbit; lia. }
  split; [constructor; simpl; try done|done].
  - apply land_range; [lia|done|]. apply wnot_range; [lia|apply pow2_range; lia].
  - intros j Hj. rewrite B, Hh by lia. rewrite bool_decide_eq_false_2 by lia. done.
Qed.

Lemma full_iff : full bs = true ↔ ∀ i, 0 ≤ i < len bs → mem bs i = true.
Proof using Hwf.
  destruct Hwf as [Hl Hb Hh]. unfold full. rewrite Z.eqb_eq. split.
  - intros E i Hi. unfold mem. rewrite E, wnot_testbit, Z.bits_0 by lia. done.
  - intros Hall. apply Z.bits_inj'. intros i Hi.
    destruct (Z.lt_ge_cases i 128).
    + rewrite wnot_testbit, Z.bits_0 by lia. simpl.
      destruct (Z.lt_ge_cases i (len bs)); [apply Hall; lia|apply Hh; lia].
    + rewrite !(testbit_high 128); done.
Qed.

Lemma first_clr_loop_spec i k :
  0 ≤ i → i + Z.of_nat k = len bs →
  ∃ r, first_clr_loop bs i k = Done r ∧
    match r with
    | Some j => i ≤ j < len bs ∧ mem bs j = false ∧ (∀ m, i ≤ m < j → mem bs m = true)
    | None => ∀ m, i ≤ m < len bs → mem bs m = true
    end.
Proof using Hwf.
  revert i. induction k as [|k IH]; intros i Hi Hk; simpl.
  - eexists. split; [done|]. intros m Hm. exfalso. lia.
  - rewrite tst_mem by lia. simpl. destruct (mem bs i) eqn:E.
    + destruct (IH (i + 1)) as (r & -> & Hr); [lia..|]. eexists. split; [done|].
      destruct r as [j|].
      * destruct Hr as (? & ? & Hm). split_and!; [lia..|done|].
        intros m Hm'. destruct (decide (m = i)) as [->|]; [done|]. apply Hm. lia.
      * intros m Hm. destruct (decide (m = i)) as [->|]; [done|]. apply Hr. lia.
    + eexists. split; [done|]. split_and!; [lia..|done|]. intros; lia.
Qed.

(** What [first_clr] answers, on both branches. *)
Lemma first_clr_ok : ∃ r, first_clr bs = Done r ∧
  match r with
  | Some j => 0 ≤ j < len bs ∧ mem bs j = false ∧ (∀ m, 0 ≤ m < j → mem bs m = true)
  | None => ∀ m, 0 ≤ m < len bs → mem bs m = true
  end.
Proof using Hwf.
  unfold first_clr. destruct (full bs) eqn:E.
  - eexists. split; [done|]. simpl. by apply full_iff.
  - pose proof (wf_len _ Hwf). destruct (first_clr_loop_spec 0 (Z.to_nat (len bs))) as (r & -> & Hr);
      [lia..|]. eauto.
Qed.

(** Loop invariant of [set_nclr]: the last [f] bits are clear and are the
    ones [b] adds; the run could not have started earlier. *)
Lemma set_nclr_loop_spec n f b i k :
  1 ≤ n ≤ 128 → 0 ≤ f < n → f ≤ i → i + Z.of_nat k = len bs →
  clear_run bs (i - f) f →
  (∀ j, Z.testbit b j = bool_decide (i - f ≤ j < i) || mem bs j) →
  (∀ j, 0 ≤ j < i - f → ¬ clear_run bs j n) →
  ∃ r, set_nclr_loop bs n f b i k = Done r ∧
    match r with
    | Some (b', j) => 0 ≤ j ∧ j + n ≤ len bs ∧ clear_run bs j n
        ∧ (∀ m, 0 ≤ m < j → ¬ clear_run bs m n)
        ∧ (∀ m, Z.testbit b' m = bool_decide (j ≤ m < j + n) || mem bs m)
    | None => ∀ m, 0 ≤ m → m + n ≤ len bs → ¬ clear_run bs m n
    end.
Proof using Hwf.
  revert f b i. induction k as [|k IH]; intros f b i Hn Hf Hfi Hk Hrun Hb Hfirst; simpl.
  { eexists. split; [done|]. intros m Hm Hmn. apply Hfirst. lia. }
  pose proof (wf_len _ Hwf) as Hlen.
  rewrite tst_mem by lia. simpl. destruct (mem bs i) eqn:E.
  - destruct (Z.eqb_spec 0 n); [lia|].
    apply IH; try lia.
    + intros j Hj. lia.
    + intros j. unfold mem. rewrite bool_decide_eq_false_2 by lia. done.
    + intros j Hj Hc. destruct (Z.lt_ge_cases j (i - f)) as [Hlt|Hge].
      * by apply (Hfirst j); [lia|].
      * assert (mem bs i = false) as F by (apply Hc; lia). congruence.
  - destruct (Z.eqb_spec (f + 1) n) as [Heq|Hne].
    + eexists. split; [done|].
      assert (wsub 8 i (wsub 8 n 1) = i - f) as ->.
      { rewrite (wsub_small 8 n 1) by lia. rewrite wsub_small; lia. }
      split_and!; [lia..| | |].
      * intros j Hj. destruct (decide (j = i)) as [->|]; [done|]. apply Hrun. lia.
      * intros m Hm. apply Hfirst. lia.
      * intros m. rewrite setbit_testbit, Hb by lia.
        rewrite orb_assoc. f_equal. repeat case_bool_decide; try done; lia.
    + apply IH; try lia.
      * intros j Hj. destruct (decide (j = i)) as [->|]; [done|]. apply Hrun. lia.
      * intros j. rewrite setbit_testbit, Hb by lia.
        rewrite orb_assoc. f_equal. repeat case_bool_decide; try done; lia.
      * intros j Hj. apply Hfirst. lia.
Qed.

(** Everything a caller needs from [set_nclr]: the lowest run, exactly
    those bits added, and [None] only when no run exists. *)
Lemma set_nclr_ok n : 1 ≤ n ≤ 128 → ∃ r bs', set_nclr bs n = Done (r, bs') ∧ wf bs' ∧
  len bs' = len bs ∧
  match r with
  | Some j => 0 ≤ j ∧ j + n ≤ len bs ∧ clear_run bs j n
        ∧ (∀ m, 0 ≤ m < j → ¬ clear_run bs m n)
        ∧ (∀ m, mem bs' m = bool_decide (j ≤ m < j + n) || mem bs m)
  | None => bs' = bs ∧ ∀ m, 0 ≤ m → m + n ≤ len bs → ¬ clear_run bs m n
  end.
Proof using Hwf.
  intros Hn. pose proof (wf_len _ Hwf) as Hlen. unfold set_nclr.
  destruct (set_nclr_loop_spec n 0 (back bs) 0 (Z.to_nat (len bs))) as (r & -> & Hr);
    [lia..| | | |].
  { intros j Hj. lia. }
  { intros j. rewrite bool_decide_eq_false_2 by lia. done. }
  { intros j Hj. lia. }
  destruct r as [[b j]|]; simpl; do 2 eexists; (split; [done|]); [|eauto].
  destruct Hr as (Hj & Hjn & Hrun & Hmin & Hb). destruct Hwf as [Hl Hbk Hh].
  split; [constructor; simpl; try done|split; [done|eauto]].
  - assert (0 ≤ b).
    { apply Z.bits_iff_nonneg_ex. exists 128. intros m Hm. rewrite Hb.
      rewrite bool_decide_eq_false_2 by lia. by apply (testbit_high 128); [|lia]. }
    split; [done|]. apply bounded_of_bits; [lia|done|]. intros m Hm. rewrite Hb.
    rewrite bool_decide_eq_false_2 by lia. by apply (testbit_high 128); [|lia].
  - intros m Hm. unfold mem at 1; simpl. rewrite Hb, Hh by done. apply orb_true_r.
Qed.
End wf.
End BitSet128.

(** ** C strings

    [strlen] walks memory from a raw pointer; memory is the list of bytes the
    pointer leads to, and walking past its end is undefined. *)
Fixpoint strlen_from (mem : list Z) (i : nat) : outcome nat :=
  match mem with
  | [] => Fault FUB
  | b :: mem' => if b =? 0 then Done i else strlen_from mem' (S i)
  end.

Definition strlen (mem : list Z) : outcome nat := strlen_from mem 0.

Definition cstr_as_slice (mem : list Z) : outcome (list Z) :=
  let? n := strlen mem in Done (take n mem).

Lemma strlen_from_app s rest i :
  Forall (λ b, b ≠ 0) s → strlen_from (s ++ 0 :: rest) i = Done (i + length s)%nat.
Proof.
  intros Hs. revert i. induction Hs as [|b s Hb _ IH]; intros i; simpl.
  - f_equal. lia.
  - destruct (Z.eqb_spec b 0); [done|]. rewrite IH. f_equal. lia.
Qed.

Lemma cstr_as_slice_app s rest :
  Forall (λ b, b ≠ 0) s → cstr_as_slice (s ++ 0 :: rest) = Done s.
Proof.
  intros Hs. unfold cstr_as_slice, strlen. rewrite strlen_from_app by done. simpl.
  by rewrite take_app_length.
Qed.

(** ** Properties *)

(** [first_clr] finds the lowest free index below the length, and answers
    [None] exactly when all of them are taken; [set] then takes that index and
    no other. *)
Theorem bitset_first_clr (bs : BitSet128.t) :
  BitSet128.wf bs →
  ∃ r, BitSet128.first_clr bs = Done r ∧
    match r with
    | Some j =>
        0 ≤ j < BitSet128.len bs ∧ BitSet128.mem bs j = false ∧
        (∀ m, 0 ≤ m < j → BitSet128.mem bs m = true) ∧
        ∃ bs', BitSet128.set bs j = Done bs' ∧ BitSet128.wf bs' ∧
          ∀ m, BitSet128.mem bs' m = bool_decide (m = j) || BitSet128.mem bs m
    | None => ∀ m, 0 ≤ m < BitSet128.len bs → BitSet128.mem bs m = true
    end.
Proof.
  intros Hwf. destruct (BitSet128.first_clr_ok bs Hwf) as ([j|] & E & Hr); [|by exists None].
  exists (Some j). destruct Hr as (Hj & Hm & Hlow).
  destruct (BitSet128.set_ok bs Hwf j Hj) as (bs' & Es & Hwf' & _ & HM). eauto 10.
Qed.

(** [set_nclr] takes the first run of [n] free indices and exactly those,
    and answers [None], changing nothing, only when no such run exists. *)
Theorem bitset_set_nclr (bs : BitSet128.t) (n : Z) :
  BitSet128.wf bs → 1 ≤ n ≤ 128 →
  ∃ r bs', BitSet128.set_nclr bs n = Done (r, bs') ∧ BitSet128.wf bs' ∧
    BitSet128.len bs' = BitSet128.len bs ∧
    match r with
    | Some j => 0 ≤ j ∧ j + n ≤ BitSet128.len bs ∧ BitSet128.clear_run bs j n
          ∧ (∀ m, 0 ≤ m < j → ¬ BitSet128.clear_run bs m n)
          ∧ (∀ m, BitSet128.mem bs' m = bool_decide (j ≤ m < j + n) || BitSet128.mem bs m)
    | None => bs' = bs ∧ ∀ m, 0 ≤ m → m + n ≤ BitSet128.len bs → ¬ BitSet128.clear_run bs m n
    end.
Proof. intros Hwf Hn. by apply BitSet128.set_nclr_ok. Qed.

Lemma bitset_first_clr_witness :
  ∃ bs r, BitSet128.new 32 = Done bs ∧ BitSet128.wf bs ∧ BitSet128.first_clr bs = Done r.
Proof.
  destruct (BitSet128.new_wf 32) as (bs & E & Hwf & _); [lia|].
  destruct (bitset_first_clr bs Hwf) as (r & Er & _). by exists bs, r.
Defined.

Lemma bitset_set_nclr_witness :
  ∃ bs r bs', BitSet128.new 128 = Done bs ∧ BitSet128.wf bs ∧ BitSet128.set_nclr bs 4 = Done (r, bs').
Proof.
  destruct (BitSet128.new_wf 128) as (bs & E & Hwf & _); [lia|].
  destruct (bitset_set_nclr bs 4 Hwf) as (r & bs' & Er & _); [lia|]. by exists bs, r, bs'.
Defined.
