(* ===== verification/Pm.v ===== *)
(** * [pm.rs]: the buddy allocator for physical pages, as code

    [PAGES] is the array [page_ptr] points to, one [Page] per 4 KiB frame of
    the hard-coded gigabyte; a [*mut Page] into it is the index of its
    element.  The nine free lists are singly linked through [next], exactly as
    in the source, so that splicing a list is a write to the page before.  The
    files [PmInv] and [PmSpec] hold the invariant and the theorems. *)
From S2P Require Import Prelude.

Local Open Scope Z_scope.

Definition KB : Z := 1024.
Definition MB : Z := 1024 * 1024.
Definition GB : Z := 1024 * 1024 * 1024.

Definition align_b (n t : Z) : Z := Z.land n (wnot 64 (wsub 64 t 1)).
Definition align_f (n t : Z) : Z := wadd 64 (align_b (wsub 64 n 1) t) t.

(** ** Pages *)
Inductive Flags := FNone | FUsed | FCow | FMid.

#[export] Instance Flags_eq_dec : EqDecision Flags.
Proof. solve_decision. Defined.

Record Page := mkPage {
  idx : Z;
  ord : nat;
  ref_cnt : Z;
  next : option Z;
  magic : Z;
  flags : Flags;
}.

Definition MAGIC : Z := 0xDEADBEEF.

Definition page_new (i : Z) (o : nat) (rc : Z) : Page := mkPage i o rc None MAGIC FNone.

Definition with_ord (o : nat) (p : Page) : Page :=
  mkPage (idx p) o (ref_cnt p) (next p) (magic p) (flags p).
Definition with_ref (r : Z) (p : Page) : Page :=
  mkPage (idx p) (ord p) r (next p) (magic p) (flags p).
Definition with_next (n : option Z) (p : Page) : Page :=
  mkPage (idx p) (ord p) (ref_cnt p) n (magic p) (flags p).
Definition with_flags (f : Flags) (p : Page) : Page :=
  mkPage (idx p) (ord p) (ref_cnt p) (next p) (magic p) f.

(** [free_lists] keeps the heads of the nine lists; [pages] is the memory
    behind [page_ptr] (empty before [init], when the pointer is null). *)
Record Allocator := mkAllocator {
  free_lists : list (option Z);
  pages : gmap Z Page;
  offt : Z;
  size : Z;
}.

Definition allocator_new : Allocator := mkAllocator (replicate 9 None) ∅ 0 0.

Definition PM := M Allocator.

(** Dereferencing [page_ptr.add(i)]. *)
Definition page_at (i : Z) : PM Page := λ a,
  match pages a !! i with Some p => Done (p, a) | None => Fault FUB end.

Definition upd_page (i : Z) (f : Page → Page) : PM unit := λ a,
  match pages a !! i with
  | Some p => Done (tt, mkAllocator (free_lists a) (<[i := f p]> (pages a)) (offt a) (size a))
  | None => Fault FUB
  end.

(** [free_lists[o].head], with the bounds check of the index. *)
Definition fl_head (o : nat) : PM (option Z) := λ a,
  match free_lists a !! o with Some h => Done (h, a) | None => Fault FPanic end.

Definition fl_set_head (o : nat) (h : option Z) : PM unit := λ a,
  match free_lists a !! o with
  | Some _ => Done (tt, mkAllocator (<[o := h]> (free_lists a)) (pages a) (offt a) (size a))
  | None => Fault FPanic
  end.

Definition page_assert_ok (p : Page) : PM unit := assert_ (magic p =? MAGIC).

Definition page_is_idle (p : Page) : bool := ref_cnt p =? 0.

(** [4096 << (8 - ord)], the length in bytes of a block of that order. *)
Definition page_len (p : Page) : Z := wshl 64 4096 (8 - Z.of_nat (ord p)).

(** ** Free lists *)

(** The [while let Some(nxt) = h.next] loop of [FL::remove]. *)
Fixpoint fl_remove_loop (fuel : nat) (h node : Z) : PM unit :=
  match fuel with
  | O => fail FFuel
  | S fuel' =>
      let! ph := page_at h in
      match next ph with
      | None => panic
      | Some nxt =>
          let! pn := page_at nxt in
          let! nd := page_at node in
          if idx pn =? idx nd then
            upd_page h (with_next (next nd)) ;;;
            upd_page node (with_next None)
          else fl_remove_loop fuel' nxt node
      end
  end.

Definition fl_remove (o : nat) (node : Z) : PM unit :=
  let! head := fl_head o in
  let! h := unwrap head in
  let! ph := page_at h in
  let! nd := page_at node in
  if idx ph =? idx nd then
    fl_set_head o (next ph) ;;;
    upd_page h (with_next None)
  else
    let! fuel := gets (λ a, base.size (pages a)) in
    fl_remove_loop fuel h node.

Definition fl_add (o : nat) (node : Z) : PM unit :=
  let! head := fl_head o in
  upd_page node (with_next head) ;;;
  fl_set_head o (Some node).

Definition fl_rm_first (o : nat) : PM (option Z) :=
  let! head := fl_head o in
  match head with
  | Some h =>
      let! p := page_at h in
      fl_set_head o (next p) ;;;
      ret (Some h)
  | None => ret None
  end.

Definition fl_get_head (o : nat) : PM (option Z) := fl_head o.

(** ** Splitting and joining *)
Definition page_split (self : Z) (order : nat) : PM unit :=
  assert_ (order <? 8)%nat ;;;
  let len := wshl 64 4096 (8 - Z.of_nat order) / 2 in
  let! p := page_at self in
  let p_idx_1 := idx p in
  let p_idx_2 := idx p + len / 4096 in
  fl_remove order self ;;;
  let! ptr1_r := page_at p_idx_1 in
  let! ptr2_r := page_at p_idx_2 in
  page_assert_ok ptr2_r ;;;
  page_assert_ok ptr1_r ;;;
  assert_ (idx ptr1_r =? p_idx_1) ;;;
  assert_ (idx ptr2_r =? p_idx_2) ;;;
  upd_page p_idx_1 (with_ord (order + 1)) ;;;
  upd_page p_idx_2 (with_ord (order + 1)) ;;;
  fl_add (order + 1) p_idx_2 ;;;
  fl_add (order + 1) p_idx_1.

Definition get_buddy (addr : Z) (o : nat) : Z :=
  Z.lxor addr (wshl 64 4096 (8 - Z.of_nat o)).

(** The [loop] of [Page::join]; the order of the page drops on every turn, so
    [S (ord page)] turns are enough. *)
Fixpoint page_join_loop (fuel : nat) (page : Z) : PM unit :=
  match fuel with
  | O => fail FFuel
  | S fuel' =>
      let! p := page_at page in
      if (ord p =? 0)%nat then fl_add (ord p) page
      else
        let addr := idx p * 4096 in
        let b_idx := get_buddy addr (ord p) / 4096 in
        let! buddy := page_at b_idx in
        if negb (ord buddy =? ord p)%nat || negb (page_is_idle buddy) then
          fl_add (ord p) page
        else
          fl_remove (ord p) b_idx ;;;
          let merg := if idx buddy <? idx p then b_idx else page in
          upd_page merg (λ q, with_ord (ord q - 1) q) ;;;
          page_join_loop fuel' merg
  end.

Definition page_join (page : Z) : PM unit :=
  let! p := page_at page in page_join_loop (S (ord p)) page.

Definition page_dup_for_cow (page : Z) : PM unit :=
  let! p := page_at page in
  page_assert_ok p ;;;
  assert_ (0 <? ref_cnt p) ;;;
  upd_page page (λ q, with_flags FCow (with_ref (ref_cnt q + 1) q)).

Definition page_mark_mids (page : Z) : PM unit :=
  let! p := page_at page in
  forM (range 1 (page_len p / 4096)) (λ i,
    upd_page (page + i) (λ q, with_flags FMid (with_ref i q))).

Definition page_unmark_mids (page : Z) : PM unit :=
  let! p := page_at page in
  forM (range 1 (page_len p / 4096)) (λ i,
    upd_page (page + i) (λ q, with_flags FNone (with_ref 0 q))).

Definition page_get_head (page : Z) : PM (option Z) :=
  let! p := page_at page in
  ret (if decide (flags p = FMid) then Some (page - ref_cnt p) else None).

(** ** The allocator *)
Definition allocator_lookup (a : Allocator) (addr : Z) : option Z :=
  if addr <? offt a then None
  else
    let addr' := addr - offt a in
    if size a <=? addr' then None else Some (addr' / 4096).

Definition next_power_of_two (n : Z) : Z := 2 ^ Z.log2_up n.

Definition get_ord (n : Z) : nat :=
  Z.to_nat (wsub 64 8 (wsub 32 (Z.log2 (next_power_of_two (align_f n 4096))) 12)).

Definition allocator_free (addr len : Z) : PM unit :=
  let! a := get in
  let! page := unwrap (allocator_lookup a addr) in
  let! p := page_at page in
  page_assert_ok p ;;;
  assert_ (0 <? ref_cnt p) ;;;
  assert_ (page_len p =? len) ;;;
  upd_page page (with_ref (ref_cnt p - 1)) ;;;
  if 0 <? ref_cnt p - 1 then ret tt
  else
    page_unmark_mids page ;;;
    upd_page page (with_flags FNone) ;;;
    page_join page.

(** [while i < end { self.free(i, 4 * KB); i += 4 * KB; }] *)
Fixpoint free_pages_loop (fuel : nat) (i stop : Z) : PM unit :=
  match fuel with
  | O => if i <? stop then fail FFuel else ret tt
  | S fuel' =>
      if i <? stop then
        allocator_free i (4 * KB) ;;;
        free_pages_loop fuel' (i + 4 * KB) stop
      else ret tt
  end.

Definition init_free_list (k_end : Z) : PM unit :=
  let i := align_f k_end (4 * KB) in
  let! a := get in
  let ram_end := offt a + GB in
  free_pages_loop (Z.to_nat ((ram_end - i) / 4096 + 1)) i ram_end.

Definition init_free_list2 (k_begin : Z) : PM unit :=
  let! a := get in
  let i := offt a in
  let ram_end := align_b k_begin (4 * KB) in
  free_pages_loop (Z.to_nat ((ram_end - i) / 4096 + 1)) i ram_end.

(** The page array after the first loop of [init]: [Page::new(i, 8, 1)] at every index. *)
Definition init_pages (npages : Z) : gmap Z Page :=
  foldr (λ i m, <[i := page_new i 8 1]> m) ∅ (range 0 npages).

Definition allocator_init (k_begin k_end : Z) : PM unit :=
  put (mkAllocator (replicate 9 None) (init_pages (GB / 4096)) 0x40000000 GB) ;;;
  init_free_list k_end.

(** [while t_ord > cur_ord]: [k] is the number of turns left, [t_ord - cur_ord]. *)
Fixpoint split_to_loop (k : nat) (page : Z) (cur_ord : nat) : PM unit :=
  match k with
  | O => ret tt
  | S k' =>
      page_split page cur_ord ;;;
      let! h := fl_get_head (cur_ord + 1) in
      let! page' := unwrap h in
      split_to_loop k' page' (cur_ord + 1)
  end.

Definition split_to (page : Z) (cur_ord t_ord : nat) : PM unit :=
  assert_ (cur_ord <? t_ord)%nat ;;;
  split_to_loop (t_ord - cur_ord) page cur_ord ;;;
  assert_ (negb (cur_ord =? t_ord)%nat).

(** Taking the first block of a list, as [_alloc] does before and after splitting. *)
Definition alloc_take (o : nat) : PM (option Z) :=
  let! first := fl_rm_first o in
  match first with
  | Some h =>
      let! p := page_at h in
      page_assert_ok p ;;;
      upd_page h (with_ref 1) ;;;
      upd_page h (with_next None) ;;;
      ret (Some (idx p * 4096))
  | None => ret None
  end.

(** The search of [_alloc] for a larger block, from order [i] downwards. *)
Fixpoint alloc_loop (o i : nat) : PM unit :=
  let! h := fl_get_head i in
  match h with
  | Some page =>
      let! p := page_at page in
      page_assert_ok p ;;;
      split_to page i o
  | None =>
      match i with
      | O => ret tt
      | S i' => alloc_loop o i'
      end
  end.

Definition allocator__alloc (n : Z) : PM (option Z) :=
  let! a := get in
  if (MB <? n) || (n =? 0) || (size a =? 0) then ret None
  else
    let o := get_ord n in
    let! first := alloc_take o in
    match first with
    | Some p => ret (Some p)
    | None =>
        match o with
        | O => ret None
        | S i => alloc_loop o i ;;; alloc_take o
        end
    end.

Definition allocator_alloc (n : Z) : PM (option Z) :=
  let! r := allocator__alloc n in
  match r with
  | Some off =>
      let! a := get in
      let! page := unwrap (allocator_lookup a (off + offt a)) in
      page_mark_mids page ;;;
      let! p := page_at page in
      assert_ (ref_cnt p =? 1) ;;;
      upd_page page (with_flags FUsed) ;;;
      ret (Some (off + offt a))
  | None => ret None
  end.

Definition idx2addr (a : Allocator) (i : Z) : Z := i * 4096 + offt a.

(** [Ok(())] is [true], [Err(())] is [false]. *)
Definition allocator_dup (addr len : Z) : PM bool :=
  let! a := get in
  match allocator_lookup a addr with
  | None => ret false
  | Some page =>
      let! p := page_at page in
      if ref_cnt p =? 0 then ret false
      else if negb (page_len p =? len) then ret false
      else page_dup_for_cow page ;;; ret true
  end.

(** ** The module's interface (each takes the [ALLOC] lock around the body) *)
Inductive CowAction := Remap | AllocNew.

Definition cow_action (addr len : Z) (f : CowAction → PM unit) : PM unit :=
  let! a := get in
  match allocator_lookup a addr with
  | None => ret tt
  | Some page =>
      let! p := page_at page in
      if negb (bool_decide (flags p = FCow)) then ret tt
      else if negb (page_len p =? len) then ret tt
      else if ref_cnt p =? 1 then
        upd_page page (with_flags FUsed) ;;; f Remap
      else
        upd_page page (λ q, with_ref (ref_cnt q - 1) q) ;;; f AllocNew
  end.

Definition alloc (n : Z) : PM (option Z) := allocator_alloc n.
Definition free (addr len : Z) : PM unit := allocator_free addr len.
Definition dup (addr len : Z) : PM bool := allocator_dup addr len.
Definition init (k_begin k_end : Z) : PM unit := allocator_init k_begin k_end.
Definition free_low (k_begin : Z) : PM unit := init_free_list2 k_begin.

(** ** Running the accessors *)
Section run.
Lemma page_at_run a i p : pages a !! i = Some p → page_at i a = Done (p, a).
Proof. intros E. unfold page_at. by rewrite E. Qed.

Lemma upd_page_run a i p f :
  pages a !! i = Some p →
  upd_page i f a
  = Done (tt, mkAllocator (free_lists a) (<[i := f p]> (pages a)) (offt a) (size a)).
Proof. intros E. unfold upd_page. by rewrite E. Qed.

Lemma fl_set_head_run a o hd h :
  free_lists a !! o = Some hd →
  fl_set_head o h a = Done (tt, mkAllocator (<[o := h]> (free_lists a)) (pages a) (offt a) (size a)).
Proof. intros E. unfold fl_set_head. by rewrite E. Qed.
End run.

(** ** Alignment and sizes *)
Section align.
Lemma land_wnot_ones n k :
  0 ≤ n < 2 ^ 64 → 0 ≤ k < 64 → Z.land n (wnot 64 (Z.ones k)) = 2 ^ k * (n / 2 ^ k).
Proof.
  intros Hn Hk. rewrite Z.mul_comm, <- Z.shiftr_div_pow2, <- Z.shiftl_mul_pow2, <- Z.ldiff_ones_r by lia.
  apply Z.bits_inj'. intros i Hi. rewrite Z.land_spec, Z.ldiff_spec.
  destruct (Z.lt_ge_cases i 64).
  - by rewrite wnot_testbit by lia.
  - rewrite (testbit_high 64 n) by done. done.
Qed.

Lemma align_b_pow2 n k : 0 ≤ n < 2 ^ 64 → 0 ≤ k < 64 → align_b n (2 ^ k) = 2 ^ k * (n / 2 ^ k).
Proof.
  intros Hn Hk. unfold align_b.
  assert (1 ≤ 2 ^ k < 2 ^ 64) by (split; [lia|apply Z.pow_lt_mono_r; lia]).
  rewrite wsub_small by lia. replace (2 ^ k - 1) with (Z.ones k) by (rewrite Z.ones_equiv; lia).
  by apply land_wnot_ones.
Qed.

Lemma align_f_pow2 n k :
  1 ≤ n → 0 ≤ k < 64 → n + 2 ^ k ≤ 2 ^ 64 → align_f n (2 ^ k) = 2 ^ k * ((n - 1) / 2 ^ k + 1).
Proof.
  intros Hn Hk Hlt. unfold align_f. assert (0 < 2 ^ k) by lia.
  rewrite wsub_small by lia. rewrite align_b_pow2 by lia.
  pose proof (Z.mul_div_le (n - 1) (2 ^ k)).
  assert (0 ≤ 2 ^ k * ((n - 1) / 2 ^ k)) by (apply Z.mul_nonneg_nonneg; [lia|apply Z.div_pos; lia]).
  rewrite wadd_small; lia.
Qed.

Lemma align_f_bounds n k :
  1 ≤ n → 0 ≤ k < 64 → n + 2 ^ k ≤ 2 ^ 64 →
  n ≤ align_f n (2 ^ k) < n + 2 ^ k ∧ (2 ^ k | align_f n (2 ^ k)).
Proof.
  intros. rewrite align_f_pow2 by done. split; [|apply Z.divide_factor_l].
  pose proof (Z.div_mod (n - 1) (2 ^ k)). pose proof (Z.mod_pos_bound (n - 1) (2 ^ k)). lia.
Qed.

(** The order [get_ord] picks is the smallest block that holds [n] bytes. *)
Lemma get_ord_spec n :
  1 ≤ n ≤ MB →
  ∃ k, get_ord n = Z.to_nat (8 - k) ∧ 0 ≤ k ≤ 8 ∧ n ≤ 4096 * 2 ^ k ∧ (0 < k → 4096 * 2 ^ (k - 1) < n).
Proof.
  unfold MB. intros Hn. unfold get_ord. change 4096 with (2 ^ 12) at 1.
  rewrite align_f_pow2 by lia. set (m := (n - 1) / 2 ^ 12 + 1).
  assert (1 ≤ m ≤ 256) as Hm by (subst m; change (2 ^ 12) with 4096; zdiv).
  unfold next_power_of_two. exists (Z.log2_up m).
  assert (Z.log2_up (2 ^ 12 * m) = 12 + Z.log2_up m) as ->.
  { rewrite Z.mul_comm. rewrite Z.log2_up_mul_pow2 by lia. lia. }
  assert (0 ≤ Z.log2_up m ≤ 8) as Hl.
  { split; [apply Z.log2_up_nonneg|]. change 8 with (Z.log2_up 256). apply Z.log2_up_le_mono. lia. }
  rewrite Z.log2_pow2 by lia. rewrite (wsub_small 32) by lia.
  rewrite wsub_small by lia. split; [f_equal; lia|]. split; [done|].
  assert (n ≤ 4096 * m ∧ 4096 * (m - 1) < n) as [N1 N2] by (subst m; change (2 ^ 12) with 4096; zdiv).
  clearbody m. destruct (decide (m = 1)) as [->|Hm1]; [change (Z.log2_up 1) with 0; change (2 ^ 0) with 1; lia|].
  destruct (Z.log2_up_spec m) as [S1 S2]; [lia|].
  replace (Z.pred (Z.log2_up m)) with (Z.log2_up m - 1) in S1 by lia. lia.
Qed.
End align.
