(* ===== verification/PmInv.v ===== *)
(** * The invariant of the buddy allocator

    Two ghost objects describe a state of [Pm]: [B], the tiling of the frames
    into aligned power-of-two blocks (head index to order), and [L], the nine
    free lists as lists of head indices.  [wf] ties them to the page array and
    to the linked lists; a set [X] of blocks may be in the hands of the code
    (free, on no list) while it splits or joins. *)
From S2P Require Import Prelude Pm.

Local Open Scope Z_scope.

(** Pages in a block of order [o]. *)
Definition bsz (o : nat) : Z := 2 ^ (8 - Z.of_nat o).

Definition npg (a : Allocator) : Z := size a / 4096.

(** ** Tilings *)
Record tiles (N : Z) (B : gmap Z nat) : Prop := {
  t_ord : ∀ h o, B !! h = Some o → (o ≤ 8)%nat;
  t_align : ∀ h o, B !! h = Some o → (bsz o | h);
  t_in : ∀ h o, B !! h = Some o → 0 ≤ h ∧ h + bsz o ≤ N;
  t_disj : ∀ h1 o1 h2 o2, B !! h1 = Some o1 → B !! h2 = Some o2 → h1 < h2 → h1 + bsz o1 ≤ h2;
  t_cover : ∀ p, 0 ≤ p < N → ∃ h o, B !! h = Some o ∧ h ≤ p < h + bsz o;
}.

Section arith.
Lemma bsz_pos o : (o ≤ 8)%nat → 1 ≤ bsz o ≤ 256.
Proof.
  intros. unfold bsz. split.
  - change 1 with (2 ^ 0). apply Z.pow_le_mono_r; lia.
  - change 256 with (2 ^ 8). apply Z.pow_le_mono_r; lia.
Qed.

Lemma bsz_S o : (o < 8)%nat → bsz o = 2 * bsz (S o).
Proof.
  intros. unfold bsz. rewrite <- Z.pow_succ_r by lia. f_equal. lia.
Qed.

Lemma bsz_divide o1 o2 : (o1 ≤ o2)%nat → (o2 ≤ 8)%nat → (bsz o2 | bsz o1).
Proof.
  intros. exists (2 ^ (Z.of_nat o2 - Z.of_nat o1)). unfold bsz.
  rewrite <- Z.pow_add_r by lia. f_equal. lia.
Qed.

Lemma bsz_divide_256 o : (o ≤ 8)%nat → (bsz o | 256).
Proof. intros. change 256 with (bsz 0). apply bsz_divide; lia. Qed.

Lemma shl_4096 o : (o ≤ 8)%nat → wshl 64 4096 (8 - Z.of_nat o) = 4096 * bsz o.
Proof.
  intros. unfold wshl. rewrite Z.shiftl_mul_pow2 by lia. fold (bsz o).
  pose proof (bsz_pos o). apply wrap_small. lia.
Qed.

Lemma page_len_bsz p : (ord p ≤ 8)%nat → page_len p = 4096 * bsz (ord p).
Proof. apply shl_4096. Qed.

Lemma page_len_div p : (ord p ≤ 8)%nat → page_len p / 4096 = bsz (ord p).
Proof. intros. rewrite page_len_bsz by done. rewrite Z.mul_comm. apply Z.div_mul. lia. Qed.

(** A block's buddy is the other half of the block twice its size. *)
Lemma lxor_pow2 h k :
  0 ≤ k → 0 ≤ h → (2 ^ k | h) →
  (∃ m, h = 2 * 2 ^ k * m ∧ Z.lxor h (2 ^ k) = h + 2 ^ k) ∨
  (∃ m, h = 2 * 2 ^ k * m + 2 ^ k ∧ Z.lxor h (2 ^ k) = h - 2 ^ k).
Proof.
  intros Hk Hh [m ->].
  assert (∀ m', Z.lxor (2 * 2 ^ k * m') (2 ^ k) = 2 * 2 ^ k * m' + 2 ^ k) as E.
  { intros m'. symmetry. apply Z.add_nocarry_lxor, Z.bits_inj_0. intros i.
    rewrite Z.land_spec. destruct (decide (i = k)) as [->|].
    - replace (2 * 2 ^ k * m') with (m' * 2 ^ (k + 1)) by (rewrite Z.pow_add_r; lia).
      rewrite Z.mul_pow2_bits by lia. rewrite Z.testbit_neg_r by lia. done.
    - rewrite Z.pow2_bits_false by done. apply andb_false_r. }
  destruct (Z.Even_or_Odd m) as [[m' ->]|[m' ->]]; [left|right]; exists m'.
  - replace (2 * m' * 2 ^ k) with (2 * 2 ^ k * m') by lia. by rewrite E.
  - replace ((2 * m' + 1) * 2 ^ k) with (2 * 2 ^ k * m' + 2 ^ k) by lia. split; [done|].
    rewrite <- E, Z.lxor_assoc, Z.lxor_nilpotent, Z.lxor_0_r. rewrite E. lia.
Qed.

(** An aligned window of [s] pages that meets an aligned range lies inside it. *)
Lemma window_inside s g m b w :
  0 < s → (s | g) → (s | m) → (s | w) → g ≤ b < g + w → m ≤ b < m + s →
  g ≤ m ∧ m + s ≤ g + w.
Proof.
  intros Hs [x ->] [y ->] [z ->] H1 H2.
  assert (x < y + 1) by (apply (Z.mul_lt_mono_pos_r s); lia).
  assert (y < x + z) by (apply (Z.mul_lt_mono_pos_r s); lia). nia.
Qed.

Lemma get_buddy_idx h o :
  (o ≤ 8)%nat → get_buddy (h * 4096) o / 4096 = Z.lxor h (bsz o).
Proof.
  intros. unfold get_buddy. rewrite shl_4096, (Z.mul_comm 4096) by done.
  change 4096 with (2 ^ 12).
  rewrite <- !Z.shiftl_mul_pow2 by lia. rewrite <- Z.shiftl_lxor.
  rewrite <- Z.shiftr_div_pow2 by lia. rewrite Z.shiftr_shiftl_l by lia.
  by rewrite Z.shiftl_0_r.
Qed.
End arith.

Section tiles.
Context (N : Z) (B : gmap Z nat).

(** The buddy of a block is the head of a block that is not larger. *)
Lemma buddy_head h o b :
  (256 | N) → tiles N B → B !! h = Some o → (0 < o)%nat → b = Z.lxor h (bsz o) →
  0 ≤ b ∧ b + bsz o ≤ N ∧ (bsz o | b) ∧ b ≠ h ∧ (2 * bsz o | Z.min h b) ∧
  Z.max h b = Z.min h b + bsz o ∧ ∃ o', B !! b = Some o' ∧ (o ≤ o')%nat.
Proof.
  intros HN T Hh Ho Eb.
  pose proof (t_ord _ _ T _ _ Hh) as Ho8. pose proof (t_align _ _ T _ _ Hh) as Hal.
  pose proof (t_in _ _ T _ _ Hh) as [Hh0 HhN]. pose proof (bsz_pos o Ho8) as Hs.
  assert (E2 : bsz (o - 1) = 2 * bsz o).
  { rewrite bsz_S by lia. do 2 f_equal. lia. }
  assert (H2N : (2 * bsz o | N)).
  { rewrite <- E2. etrans; [apply bsz_divide_256; lia|done]. }
  assert (0 ≤ b ∧ b + bsz o ≤ N ∧ (bsz o | b) ∧ b ≠ h ∧ (2 * bsz o | Z.min h b)
          ∧ Z.max h b = Z.min h b + bsz o) as (Hb0 & HbN & Hbal & Hbh & Hmin & Hmax).
  { destruct (lxor_pow2 h (8 - Z.of_nat o)) as [(m & Em & Ex)|(m & Em & Ex)];
      [lia|lia|done|..]; fold (bsz o) in Em, Ex; rewrite Ex in Eb; subst b.
    - destruct H2N as [n ->]. assert (m < n) by nia.
      split_and!; [lia|nia|by apply Z.divide_add_r|lia|rewrite Z.min_l by lia|lia].
      exists m. lia.
    - assert (0 ≤ m) by nia.
      split_and!; [nia|lia| |lia|rewrite Z.min_r by lia; exists m; lia|lia].
      apply Z.divide_sub_r; [done|]. exists 1. lia. }
  split_and!; try done.
  destruct (t_cover _ _ T b) as (g & o' & Hg & Hgb); [lia|].
  pose proof (t_ord _ _ T _ _ Hg) as Ho'8. pose proof (t_align _ _ T _ _ Hg) as Hgal.
  destruct (decide (o ≤ o')%nat) as [Hle|Hlt].
  - exists o'. split; [|done]. replace b with g; [done|].
    assert (bsz o' | b) as Hd by (etrans; [apply (bsz_divide o o'); lia|done]).
    pose proof (bsz_pos o' Ho'8).
    destruct (window_inside (bsz o') g b b (bsz o')); done || lia.
  - exfalso. assert (2 * bsz o | bsz o') as Hd.
    { rewrite <- E2. apply bsz_divide; lia. }
    assert (g ≤ Z.min h b ∧ Z.min h b + 2 * bsz o ≤ g + bsz o') as [G1 G2].
    { assert (2 * bsz o | g) by (etrans; eauto).
      apply (window_inside (2 * bsz o) g (Z.min h b) b (bsz o')); done || lia. }
    assert (Z.min h b ≤ h < Z.min h b + 2 * bsz o) by lia.
    destruct (decide (g = h)) as [->|Hne].
    + rewrite Hh in Hg. injection Hg as ->. lia.
    + destruct (Z.lt_ge_cases g h).
      * pose proof (t_disj _ _ T _ _ _ _ Hg Hh). lia.
      * lia.
Qed.

(** Two heads in one block are the same head. *)
Lemma tiles_same h1 o1 h2 o2 p :
  tiles N B → B !! h1 = Some o1 → B !! h2 = Some o2 →
  h1 ≤ p < h1 + bsz o1 → h2 ≤ p < h2 + bsz o2 → h1 = h2.
Proof.
  intros T H1 H2 P1 P2. destruct (Z.lt_trichotomy h1 h2) as [Hlt|[->|Hgt]]; [|done|].
  - pose proof (t_disj _ _ T _ _ _ _ H1 H2 Hlt). lia.
  - pose proof (t_disj _ _ T _ _ _ _ H2 H1 Hgt). lia.
Qed.

Lemma tiles_split h o :
  tiles N B → B !! h = Some o → (o < 8)%nat →
  tiles N (<[h + bsz (S o) := S o]> (<[h := S o]> B)).
Proof.
  intros T Hh Ho. pose proof (bsz_S o Ho) as E. pose proof (bsz_pos (S o)).
  pose proof (t_in _ _ T _ _ Hh) as [Hh0 HhN].
  assert (B !! (h + bsz (S o)) = None) as Hn.
  { destruct (B !! (h + bsz (S o))) as [o'|] eqn:F; [|done]. exfalso.
    pose proof (t_ord _ _ T _ _ F). pose proof (bsz_pos o').
    assert (h = h + bsz (S o)); [|lia].
    eapply (tiles_same _ _ _ _ (h + bsz (S o))); [done|exact Hh|exact F|lia|lia]. }
  assert (∀ g o', <[h + bsz (S o) := S o]> (<[h := S o]> B) !! g = Some o' →
    (g = h ∨ g = h + bsz (S o)) ∧ o' = S o ∨ g ≠ h ∧ g ≠ h + bsz (S o) ∧ B !! g = Some o') as C.
  { intros g o'. rewrite !lookup_insert. repeat case_decide; intros [= <-] || intros HB; subst; auto. }
  assert (∀ g o', g ≠ h → B !! g = Some o' → g + bsz o' ≤ h ∨ h + bsz o ≤ g) as D.
  { intros g o' Hne Hg. destruct (Z.lt_trichotomy g h) as [Hlt|[->|Hgt]]; [|done|].
    - left. by eapply (t_disj _ _ T).
    - right. by eapply (t_disj _ _ T). }
  split.
  - intros g o' Hg. destruct (C _ _ Hg) as [[_ ->]|(_ & _ & Hg')]; [lia|by eapply (t_ord _ _ T)].
  - intros g o' Hg. destruct (C _ _ Hg) as [[Hg' ->]|(_ & _ & Hg')]; [|by eapply (t_align _ _ T)].
    pose proof (t_align _ _ T _ _ Hh) as [x Hx]. destruct Hg' as [->| ->].
    + exists (2 * x). lia.
    + exists (2 * x + 1). lia.
  - intros g o' Hg. destruct (C _ _ Hg) as [[Hg' ->]|(_ & _ & Hg')]; [lia|by eapply (t_in _ _ T)].
  - intros g1 o1 g2 o2 Hg1 Hg2 Hlt.
    destruct (C _ _ Hg1) as [[Hg1' ->]|(N1 & N1' & Hg1')];
    destruct (C _ _ Hg2) as [[Hg2' ->]|(N2 & N2' & Hg2')].
    + lia.
    + destruct (D _ _ N2 Hg2'); [|lia]. pose proof (t_ord _ _ T _ _ Hg2') as Q.
      pose proof (bsz_pos _ Q). lia.
    + destruct (D _ _ N1 Hg1'); [lia|]. lia.
    + by eapply (t_disj _ _ T).
  - intros p Hp. destruct (t_cover _ _ T p Hp) as (g & o' & Hg & Hgp).
    destruct (decide (g = h)) as [->|Hne].
    + rewrite Hh in Hg. injection Hg as <-. destruct (Z.lt_ge_cases p (h + bsz (S o))).
      * exists h, (S o). rewrite lookup_insert_ne, lookup_insert_eq by lia. split; [done|lia].
      * exists (h + bsz (S o)), (S o). rewrite lookup_insert_eq. split; [done|lia].
    + exists g, o'. rewrite !lookup_insert_ne; [done|done|].
      intros <-. by rewrite Hn in Hg.
Qed.

Lemma tiles_merge l o :
  tiles N B → (0 < o)%nat → B !! l = Some o → B !! (l + bsz o) = Some o → (2 * bsz o | l) →
  tiles N (<[l := (o - 1)%nat]> (delete (l + bsz o) B)).
Proof.
  intros T Ho Hl Hr Hal. pose proof (t_ord _ _ T _ _ Hl) as Ho8. pose proof (bsz_pos o Ho8) as Hs.
  assert (E : bsz (o - 1) = 2 * bsz o).
  { rewrite bsz_S by lia. do 2 f_equal. lia. }
  assert (∀ g o', <[l := (o - 1)%nat]> (delete (l + bsz o) B) !! g = Some o' →
    g = l ∧ o' = (o - 1)%nat ∨ g ≠ l ∧ g ≠ l + bsz o ∧ B !! g = Some o') as C.
  { intros g o'. rewrite lookup_insert, lookup_delete.
    repeat case_decide; intros [= <-] || intros HB; subst; auto. }
  split.
  - intros g o' Hg. destruct (C _ _ Hg) as [[_ ->]|(_ & _ & Hg')]; [lia|by eapply (t_ord _ _ T)].
  - intros g o' Hg. destruct (C _ _ Hg) as [[-> ->]|(_ & _ & Hg')];
      [by rewrite E|by eapply (t_align _ _ T)].
  - intros g o' Hg. destruct (C _ _ Hg) as [[-> ->]|(_ & _ & Hg')]; [|by eapply (t_in _ _ T)].
    pose proof (t_in _ _ T _ _ Hl). pose proof (t_in _ _ T _ _ Hr). lia.
  - intros g1 o1 g2 o2 Hg1 Hg2 Hlt.
    destruct (C _ _ Hg1) as [[-> ->]|(N1 & N1' & Hg1')];
    destruct (C _ _ Hg2) as [[-> ->]|(N2 & N2' & Hg2')].
    + lia.
    + pose proof (t_disj _ _ T _ _ _ _ Hl Hg2' Hlt).
      destruct (Z.lt_ge_cases (l + bsz o) g2).
      * pose proof (t_disj _ _ T _ _ _ _ Hr Hg2'). lia.
      * lia.
    + by eapply (t_disj _ _ T _ _ l o).
    + by eapply (t_disj _ _ T).
  - intros p Hp. destruct (t_cover _ _ T p Hp) as (g & o' & Hg & Hgp).
    destruct (decide (g = l)) as [->|Hne]; [|destruct (decide (g = l + bsz o)) as [->|Hne']].
    + exists l, (o - 1)%nat. rewrite lookup_insert_eq. split; [done|]. simplify_eq. lia.
    + exists l, (o - 1)%nat. rewrite lookup_insert_eq. split; [done|]. simplify_eq. lia.
    + exists g, o'. rewrite lookup_insert_ne, lookup_delete_ne by done. done.
Qed.
End tiles.

(** ** Linked lists *)

(** Everything of a page but its link, and only the link. *)
Definition erase (ps : gmap Z Page) : gmap Z Page := with_next None <$> ps.
Definition links (ps : gmap Z Page) : gmap Z (option Z) := next <$> ps.

Fixpoint chain (nx : gmap Z (option Z)) (hd : option Z) (l : list Z) : Prop :=
  match l with
  | [] => hd = None
  | x :: l' => hd = Some x ∧ ∃ n, nx !! x = Some n ∧ chain nx n l'
  end.

Definition fupd (L : nat → list Z) (o : nat) (l : list Z) : nat → list Z :=
  λ o', if decide (o' = o) then l else L o'.

Record lists (nx : gmap Z (option Z)) (fl : list (option Z)) (L : nat → list Z) : Prop := {
  l_len : length fl = 9%nat;
  l_chain : ∀ o hd, fl !! o = Some hd → chain nx hd (L o);
  l_nodup : ∀ o, NoDup (L o);
  l_disj : ∀ o1 o2 x, x ∈ L o1 → x ∈ L o2 → o1 = o2;
}.

Section erase.
Lemma erase_next ps h p n :
  ps !! h = Some p → erase (<[h := with_next n p]> ps) = erase ps.
Proof.
  intros Hp. unfold erase. rewrite fmap_insert. simpl.
  apply insert_id. by rewrite lookup_fmap, Hp.
Qed.

Lemma links_upd ps h p q :
  ps !! h = Some p → next q = next p → links (<[h := q]> ps) = links ps.
Proof.
  intros Hp Hq. unfold links. rewrite fmap_insert. apply insert_id.
  by rewrite lookup_fmap, Hp, Hq.
Qed.

Lemma links_next ps h p n : links (<[h := with_next n p]> ps) = <[h := n]> (links ps).
Proof. unfold links. by rewrite fmap_insert. Qed.

Lemma links_lookup ps h p : ps !! h = Some p → links ps !! h = Some (next p).
Proof. intros Hp. unfold links. by rewrite lookup_fmap, Hp. Qed.

(** Reading a page through [erase]: all fields but [next] agree. *)
Lemma erase_lookup ps ps' h p :
  erase ps = erase ps' → ps !! h = Some p →
  ∃ p', ps' !! h = Some p' ∧ idx p' = idx p ∧ ord p' = ord p ∧ ref_cnt p' = ref_cnt p
        ∧ magic p' = magic p ∧ flags p' = flags p.
Proof.
  intros E Hp. assert (erase ps !! h = Some (with_next None p)) as F.
  { unfold erase. by rewrite lookup_fmap, Hp. }
  rewrite E in F. unfold erase in F. rewrite lookup_fmap in F.
  destruct (ps' !! h) as [p'|]; [|done]. simpl in F. exists p'.
  destruct p, p'; unfold with_next in F; simpl in *. injection F; intros; subst. done.
Qed.
End erase.

Section chain.
Lemma chain_frame nx nx' hd l :
  (∀ x, x ∈ l → nx' !! x = nx !! x) → chain nx hd l → chain nx' hd l.
Proof.
  revert hd. induction l as [|x l IH]; intros hd Hf; simpl; [done|].
  intros (-> & n & Hn & Hc). split; [done|]. exists n. split.
  - rewrite Hf; [done|]. by left.
  - apply IH; [|done]. intros y Hy. apply Hf. by right.
Qed.

Lemma chain_insert nx hd l i n : i ∉ l → chain nx hd l → chain (<[i := n]> nx) hd l.
Proof.
  intros Hi. apply chain_frame. intros x Hx. apply lookup_insert_ne. by intros ->.
Qed.

Lemma chain_dom nx hd l x : chain nx hd l → x ∈ l → is_Some (nx !! x).
Proof.
  revert hd. induction l as [|y l IH]; intros hd Hc Hx; [by apply elem_of_nil in Hx|].
  destruct Hc as (_ & n & Hn & Hc). apply elem_of_cons in Hx as [->|Hx]; [by eexists|eauto].
Qed.

Lemma chain_length nx hd l : NoDup l → chain nx hd l → (length l ≤ base.size nx)%nat.
Proof.
  intros Hnd Hc. rewrite <- (size_list_to_set (C := gset Z) l) by done.
  rewrite <- size_dom. apply subseteq_size. intros x Hx. apply elem_of_list_to_set in Hx.
  apply elem_of_dom. by eapply chain_dom.
Qed.

Lemma fupd_eq L o l : fupd L o l o = l.
Proof. unfold fupd. by rewrite decide_True. Qed.
Lemma fupd_ne L o o' l : o' ≠ o → fupd L o l o' = L o'.
Proof. intros. unfold fupd. by rewrite decide_False. Qed.

Lemma elem_of_fupd L o l o' x : x ∈ fupd L o l o' ↔ (o' = o ∧ x ∈ l) ∨ (o' ≠ o ∧ x ∈ L o').
Proof. unfold fupd. case_decide; naive_solver. Qed.

(** Replacing one list, when the writes to the links stay on it. *)
Lemma lists_upd nx nx' fl L o hd l :
  lists nx fl L → (o < 9)%nat → chain nx' hd l → NoDup l →
  (∀ o' x, o' ≠ o → x ∈ L o' → nx' !! x = nx !! x ∧ x ∉ l) →
  lists nx' (<[o := hd]> fl) (fupd L o l).
Proof.
  intros [Hlen Hch Hnd Hdj] Ho Hc Hl Hf. split.
  - by rewrite length_insert.
  - intros o' hd'. rewrite list_lookup_insert. intros Hx.
    destruct (decide (o' = o)) as [->|Hne].
    + rewrite fupd_eq. rewrite decide_True in Hx by lia. by simplify_eq.
    + rewrite decide_False in Hx by naive_solver. rewrite fupd_ne by done.
      eapply chain_frame; [|by apply Hch]. intros x Hxl. by apply (Hf o').
  - intros o'. destruct (decide (o' = o)) as [->|]; [by rewrite fupd_eq|by rewrite fupd_ne].
  - intros o1 o2 x. rewrite !elem_of_fupd. intros [[-> H1]|[N1 H1]] [[-> H2]|[N2 H2]].
    + done.
    + by destruct (Hf _ _ N2 H2).
    + by destruct (Hf _ _ N1 H1).
    + eauto.
Qed.
End chain.

(** [a'] differs from [a] in links and list heads only. *)
Definition same_meta (a a' : Allocator) : Prop :=
  erase (pages a') = erase (pages a) ∧ offt a' = offt a ∧ size a' = size a.

#[export] Instance same_meta_refl : Reflexive same_meta.
Proof. done. Qed.
#[export] Instance same_meta_trans : Transitive same_meta.
Proof. intros a b c (? & ? & ?) (? & ? & ?). unfold same_meta. split_and!; congruence. Qed.

(** Elements of [l] carry their own index. *)
Definition indexed (ps : gmap Z Page) (l : list Z) : Prop :=
  ∀ x, x ∈ l → ∃ p, ps !! x = Some p ∧ idx p = x.

Section list_ops.
Context (a : Allocator) (L : nat → list Z).
Context (HL : lists (links (pages a)) (free_lists a) L).

Lemma fl_head_run o : (o ≤ 8)%nat → ∃ hd, free_lists a !! o = Some hd ∧ fl_head o a = Done (hd, a)
  ∧ chain (links (pages a)) hd (L o).
Proof using HL.
  intros Ho. destruct (lookup_lt_is_Some_2 (free_lists a) o) as [hd Hhd].
  { rewrite (l_len _ _ _ HL). lia. }
  exists hd. split_and!; [done| |by eapply l_chain]. unfold fl_head. by rewrite Hhd.
Qed.

Lemma fl_add_run o node :
  (o ≤ 8)%nat → (∀ o', node ∉ L o') → is_Some (pages a !! node) →
  ∃ a', fl_add o node a = Done (tt, a') ∧ same_meta a a' ∧
    lists (links (pages a')) (free_lists a') (fupd L o (node :: L o)).
Proof using HL.
  intros Ho Hn [p Hp]. destruct (fl_head_run o Ho) as (hd & Hhd & E & Hc).
  unfold fl_add. unfold bind at 1. rewrite E. unfold bind, upd_page. rewrite Hp.
  unfold fl_set_head. simpl. rewrite Hhd.
  eexists. split; [done|]. split; [split; [by apply erase_next|done]|]. simpl.
  rewrite links_next.
  apply (lists_upd (links (pages a))); [done|lia| | |].
  - split; [done|]. exists hd. rewrite lookup_insert_eq. split; [done|].
    apply chain_insert; [|done]. apply Hn.
  - apply NoDup_cons. split; [apply Hn|by eapply l_nodup].
  - intros o' x Hne Hx. assert (x ≠ node) by (intros ->; by apply (Hn o')).
    rewrite lookup_insert_ne by done. split; [done|]. apply not_elem_of_cons. split; [done|].
    intros Hx'. by apply Hne, (l_disj _ _ _ HL o' o x).
Qed.

Lemma fl_rm_first_run o h l :
  (o ≤ 8)%nat → L o = h :: l →
  ∃ p a', pages a !! h = Some p ∧ fl_rm_first o a = Done (Some h, a') ∧ same_meta a a' ∧
    pages a' = pages a ∧ lists (links (pages a')) (free_lists a') (fupd L o l).
Proof using HL.
  intros Ho El. destruct (fl_head_run o Ho) as (hd & Hhd & E & Hc).
  rewrite El in Hc. destruct Hc as (-> & n & Hn & Hc).
  unfold links in Hn. rewrite lookup_fmap in Hn.
  destruct (pages a !! h) as [p|] eqn:Hp; [|done]. injection Hn as <-.
  exists p. unfold fl_rm_first. unfold bind at 1. rewrite E.
  unfold bind, page_at. rewrite Hp. unfold fl_set_head. rewrite Hhd.
  eexists. split; [done|]. split; [done|]. split; [done|]. split; [done|]. simpl.
  pose proof (l_nodup _ _ _ HL o) as Hnd. rewrite El in Hnd. apply NoDup_cons in Hnd as [Hnd1 Hnd2].
  apply (lists_upd (links (pages a))); [done|lia|done|done|].
  intros o' x Hne Hx. split; [done|]. intros Hx'. apply Hne, (l_disj _ _ _ HL o' o x); [done|].
  rewrite El. by right.
Qed.

Lemma fl_head_nil o : (o ≤ 8)%nat → L o = [] → fl_head o a = Done (None, a).
Proof using HL.
  intros Ho El. destruct (fl_head_run o Ho) as (hd & Hhd & E & Hc). rewrite El in Hc.
  simpl in Hc. by subst.
Qed.

Lemma fl_head_cons o h l : (o ≤ 8)%nat → L o = h :: l → fl_head o a = Done (Some h, a).
Proof using HL.
  intros Ho El. destruct (fl_head_run o Ho) as (hd & Hhd & E & Hc). rewrite El in Hc.
  destruct Hc as [-> _]. done.
Qed.
End list_ops.

Lemma fl_remove_loop_run l1 : ∀ fuel h node l2 a,
  chain (links (pages a)) (Some h) (h :: l1 ++ node :: l2) →
  NoDup (h :: l1 ++ node :: l2) → indexed (pages a) (h :: l1 ++ node :: l2) →
  (length l1 < fuel)%nat →
  ∃ a', fl_remove_loop fuel h node a = Done (tt, a') ∧ same_meta a a' ∧
    free_lists a' = free_lists a ∧ chain (links (pages a')) (Some h) (h :: l1 ++ l2) ∧
    (∀ x, x ∉ h :: l1 ++ node :: l2 → links (pages a') !! x = links (pages a) !! x).
Proof.
  induction l1 as [|y l1 IH]; intros [|fuel] h node l2 a Hc Hnd Hix Hf; simpl in Hf; try lia.
  all: destruct (Hix h) as (ph & Hph & _); [by left|].
  all: destruct Hc as (_ & n & Hn & Hc); rewrite (links_lookup _ _ ph Hph) in Hn; injection Hn as <-.
  all: apply NoDup_cons in Hnd as [Hnh Hnd].
  all: simpl; mrun (page_at_run _ _ _ Hph); destruct Hc as (Hnext & n & Hn & Hc);
    rewrite Hnext.
  - destruct (Hix node) as (pn & Hpn & Hin); [right; by left|].
    rewrite (links_lookup _ _ pn Hpn) in Hn. injection Hn as <-.
    do 2 mrun (page_at_run _ _ _ Hpn). rewrite Z.eqb_refl.
    assert (h ≠ node) by (intros ->; apply Hnh; by left).
    unfold bind, upd_page. rewrite Hph. simpl. rewrite lookup_insert_ne, Hpn by done.
    eexists. split; [done|]. simpl. apply NoDup_cons in Hnd as [Hnn Hnd].
    split; [split; [|done]|split; [done|split]].
    + simpl. rewrite erase_next by (by rewrite lookup_insert_ne). by apply erase_next.
    + split; [done|]. exists (next pn). rewrite !links_next.
      rewrite lookup_insert_ne, lookup_insert_eq by done. split; [done|].
      do 2 (apply chain_insert; [set_solver|]). done.
    + intros x Hx. rewrite !links_next. apply not_elem_of_cons in Hx as [? Hx].
      apply not_elem_of_cons in Hx as [? Hx]. by rewrite !lookup_insert_ne by done.
  - destruct (Hix y) as (py & Hpy & Hiy); [right; by left|].
    destruct (Hix node) as (pn & Hpn & Hin); [set_solver|].
    mrun (page_at_run _ _ _ Hpy). mrun (page_at_run _ _ _ Hpn).
    destruct (Z.eqb_spec (idx py) (idx pn)) as [E|E].
    { exfalso. apply NoDup_cons in Hnd as [Hny _]. apply Hny.
      replace y with node by congruence. set_solver. }
    destruct (IH fuel y node l2 a) as (a' & -> & Hm & Hfl & Hc' & Hfr); [|done|..|].
    + split; [done|]. exists n. done.
    + intros x Hx. apply Hix. by right.
    + simpl in Hf; lia.
    + exists a'. split; [done|]. split; [done|]. split; [done|]. split.
      * split; [done|]. exists (Some y). rewrite Hfr by done. split; [|done].
        by rewrite (links_lookup _ _ ph Hph), Hnext.
      * intros x Hx. apply Hfr. set_solver.
Qed.

Lemma fl_remove_run a L o l1 node l2 :
  lists (links (pages a)) (free_lists a) L → (o ≤ 8)%nat →
  L o = l1 ++ node :: l2 → indexed (pages a) (L o) →
  ∃ a', fl_remove o node a = Done (tt, a') ∧ same_meta a a' ∧
    lists (links (pages a')) (free_lists a') (fupd L o (l1 ++ l2)).
Proof.
  intros HL Ho El Hix. destruct (fl_head_run a L HL o Ho) as (hd & Hhd & E & Hc).
  pose proof (l_nodup _ _ _ HL o) as Hnd. rewrite El in Hc, Hnd, Hix.
  destruct (Hix node) as (pn & Hpn & Hin); [set_solver|].
  unfold fl_remove. unfold bind at 1. rewrite E. destruct l1 as [|h l1].
  - destruct Hc as (-> & n & Hn & Hc). rewrite (links_lookup _ _ pn Hpn) in Hn. injection Hn as <-.
    mstep. do 2 mrun (page_at_run _ _ _ Hpn). rewrite Z.eqb_refl.
    mrun (fl_set_head_run _ _ _ _ Hhd). rewrite (upd_page_run _ _ pn) by done.
    eexists. split; [done|]. split; [split; [by apply erase_next|done]|]. simpl.
    simpl in Hnd. apply NoDup_cons in Hnd as [Hn1 Hn2].
    rewrite links_next. apply (lists_upd (links (pages a))); [done|lia| |done|].
    + by apply chain_insert.
    + intros o' x Hne Hx. assert (x ∉ L o).
      { intros Hx'. apply Hne. by apply (l_disj _ _ _ HL o' o x). }
      rewrite El in *. rewrite lookup_insert_ne by set_solver. set_solver.
  - destruct (Hix h) as (ph & Hph & Hih); [by left|].
    pose proof Hc as Hc0. destruct Hc as (-> & _).
    mstep. mrun (page_at_run _ _ _ Hph). mrun (page_at_run _ _ _ Hpn).
    destruct (Z.eqb_spec (idx ph) (idx pn)) as [E'|E'].
    { exfalso. simpl in Hnd. apply NoDup_cons in Hnd as [Hn1 _]. apply Hn1.
      replace h with node by congruence. set_solver. }
    mstep. destruct (fl_remove_loop_run l1 (base.size (pages a)) h node l2 a) as (a' & -> & Hm & Hfl & Hc' & Hfr);
      try done.
    { pose proof (chain_length _ _ _ Hnd Hc0) as Hlen. unfold links in Hlen.
      rewrite map_size_fmap in Hlen. simpl in Hlen. rewrite length_app in Hlen. simpl in Hlen. lia. }
    exists a'. split; [done|]. split; [done|]. rewrite Hfl.
    rewrite <- (list_insert_id (free_lists a) o (Some h)) by done.
    apply (lists_upd (links (pages a))); [done|lia|done| |].
    + eapply sublist_NoDup; [exact Hnd|]. simpl. apply sublist_skip, sublist_app; [done|]. by apply sublist_cons.
    + intros o' x Hne Hx. assert (x ∉ L o) as Hx'.
      { intros Hx'. apply Hne. by apply (l_disj _ _ _ HL o' o x). }
      rewrite El in Hx'. split; [by apply Hfr|]. set_solver.
Qed.

(** ** The invariant *)

(** An inner page of a block: while the block is allocated it records the
    distance to the head, otherwise it is blank. *)
Definition mid_ok (live : bool) (d : Z) (q : Page) : Prop :=
  if live then ref_cnt q = d ∧ flags q = FMid else ref_cnt q = 0 ∧ flags q = FNone.

Definition block_ok (ps : gmap Z Page) (h : Z) (o : nat) : Prop :=
  ∃ q, ps !! h = Some q ∧ ord q = o ∧ 0 ≤ ref_cnt q ∧ flags q ≠ FMid ∧
    (ref_cnt q = 0 → flags q = FNone) ∧
    ∀ p, h < p < h + bsz o → ∃ m, ps !! p = Some m ∧ mid_ok (0 <? ref_cnt q) (p - h) m.

Definition free_head (ps : gmap Z Page) (h : Z) : Prop := ∃ q, ps !! h = Some q ∧ ref_cnt q = 0.

Record wf (a : Allocator) (B : gmap Z nat) (L : nat → list Z) (X : gset Z) : Prop := {
  wf_size : size a = 4096 * npg a;
  wf_N : (256 | npg a);
  wf_tiles : tiles (npg a) B;
  wf_page : ∀ p, 0 ≤ p < npg a → ∃ q, pages a !! p = Some q ∧ idx q = p ∧ magic q = MAGIC;
  wf_block : ∀ h o, B !! h = Some o → block_ok (pages a) h o;
  wf_lists : lists (links (pages a)) (free_lists a) L;
  wf_free : ∀ o h, h ∈ L o ↔ B !! h = Some o ∧ h ∉ X ∧ free_head (pages a) h;
  wf_held : ∀ h, h ∈ X → is_Some (B !! h) ∧ free_head (pages a) h;
}.

(** What a client sees of a block: its order, reference count and flags while
    it is allocated. *)
Record block := mkBlock { b_ord : nat; b_ref : Z; b_flags : Flags }.

Definition view (ps : gmap Z Page) (B : gmap Z nat) (h : Z) : option block :=
  match B !! h, ps !! h with
  | Some o, Some q => if 0 <? ref_cnt q then Some (mkBlock o (ref_cnt q) (flags q)) else None
  | _, _ => None
  end.

Section frame.
Lemma block_ok_frame ps ps' h o :
  1 ≤ bsz o → (∀ p, h ≤ p < h + bsz o → ps' !! p = ps !! p) → block_ok ps h o → block_ok ps' h o.
Proof.
  intros Ho Hf (q & Hq & H1 & H2 & H3 & H4 & Hm). exists q. rewrite Hf by lia.
  split_and!; try done. intros p Hp. destruct (Hm p Hp) as (m & Hm' & ?). exists m.
  by rewrite Hf by lia.
Qed.

Lemma block_ok_meta ps ps' h o : erase ps = erase ps' → block_ok ps h o → block_ok ps' h o.
Proof.
  intros E (q & Hq & H1 & H2 & H3 & H4 & Hm).
  destruct (erase_lookup _ _ _ _ E Hq) as (q' & Hq' & _ & Eo & Er & _ & Ef).
  exists q'. rewrite Eo, Er, Ef. split_and!; try done.
  intros p Hp. destruct (Hm p Hp) as (m & Hm' & Hok).
  destruct (erase_lookup _ _ _ _ E Hm') as (m' & Hm'' & _ & _ & Er' & _ & Ef').
  exists m'. split; [done|]. unfold mid_ok in *. by rewrite Er', Ef'.
Qed.

Lemma free_head_meta ps ps' h : erase ps = erase ps' → free_head ps h → free_head ps' h.
Proof.
  intros E (q & Hq & Hr). destruct (erase_lookup _ _ _ _ E Hq) as (q' & Hq' & _ & _ & Er & _).
  exists q'. by rewrite Er.
Qed.

Lemma view_meta ps ps' B h : erase ps = erase ps' → view ps' B h = view ps B h.
Proof.
  intros E. unfold view. destruct (B !! h); [|done].
  destruct (ps !! h) as [q|] eqn:Hq.
  - destruct (erase_lookup _ _ _ _ E Hq) as (q' & -> & _ & _ & -> & _ & ->). done.
  - destruct (ps' !! h) as [q'|] eqn:Hq'; [|done].
    destruct (erase_lookup _ _ _ _ (eq_sym E) Hq') as (? & ? & _). congruence.
Qed.

Lemma wf_meta a a' B L L' X X' :
  wf a B L X → same_meta a a' → lists (links (pages a')) (free_lists a') L' →
  (∀ o h, h ∈ L' o ↔ B !! h = Some o ∧ h ∉ X' ∧ free_head (pages a) h) →
  (∀ h, h ∈ X' → is_Some (B !! h) ∧ free_head (pages a) h) →
  wf a' B L' X'.
Proof.
  intros W (E & Eo & Es) HL Hf Hh. assert (npg a' = npg a) as En by (unfold npg; by rewrite Es).
  destruct W as [W1 W2 W3 W4 W5 W6 W7 W8]. split; rewrite ?En; try done.
  - by rewrite Es.
  - intros p Hp. destruct (W4 p Hp) as (q & Hq & Hi & Hm).
    destruct (erase_lookup _ _ _ _ (eq_sym E) Hq) as (q' & Hq' & Ei & _ & _ & Em & _).
    exists q'. rewrite Ei, Em. done.
  - intros h o Hb. apply (block_ok_meta (pages a)); [done|auto].
  - intros o h. rewrite Hf. split; intros (? & ? & ?); split_and!; try done;
      eapply free_head_meta; try done; done.
  - intros h Hx. destruct (Hh h Hx). split; [done|]. by eapply free_head_meta.
Qed.

(** The ghost lists matter pointwise only. *)
Lemma wf_ext a B L L' X : (∀ o, L o = L' o) → wf a B L X → wf a B L' X.
Proof.
  intros E [W1 W2 W3 W4 W5 [WL1 WL2 WL3 WL4] W7 W8]. split; try done.
  - split; try done; intros *; rewrite <- !E; eauto.
  - intros *. by rewrite <- E.
Qed.

Lemma wf_in_range a B L X h o :
  wf a B L X → B !! h = Some o →
  (o ≤ 8)%nat ∧ 1 ≤ bsz o ∧ 0 ≤ h ∧ h + bsz o ≤ npg a ∧ h < npg a.
Proof.
  intros W Hh. pose proof (t_ord _ _ (wf_tiles _ _ _ _ W) _ _ Hh) as Ho.
  pose proof (t_in _ _ (wf_tiles _ _ _ _ W) _ _ Hh). pose proof (bsz_pos o Ho). lia.
Qed.

Lemma wf_indexed a B L X o : wf a B L X → indexed (pages a) (L o).
Proof.
  intros W x Hx. apply (wf_free _ _ _ _ W) in Hx as (Hx & _).
  pose proof (wf_in_range _ _ _ _ _ _ W Hx).
  destruct (wf_page _ _ _ _ W x) as (q & ? & ? & ?); [lia|]. eauto.
Qed.

Lemma wf_ord_le a B L X o h : wf a B L X → h ∈ L o → (o ≤ 8)%nat.
Proof. intros W Hx. apply (wf_free _ _ _ _ W) in Hx as (Hx & _). by eapply wf_in_range. Qed.
End frame.

(** Taking a block off its list and putting one on. *)
Lemma fl_remove_wf a B L X o l1 h l2 :
  wf a B L X → L o = l1 ++ h :: l2 →
  ∃ a', fl_remove o h a = Done (tt, a') ∧ wf a' B (fupd L o (l1 ++ l2)) ({[h]} ∪ X) ∧ same_meta a a'.
Proof.
  intros W El. assert (h ∈ L o) as Hh by (rewrite El; set_solver).
  pose proof (wf_ord_le _ _ _ _ _ _ W Hh) as Ho.
  destruct (fl_remove_run a L o l1 h l2) as (a' & Hr & Hm & Hl);
    [by eapply wf_lists|done|done|by eapply wf_indexed|].
  exists a'. split; [done|]. split; [|done].
  pose proof (l_nodup _ _ _ (wf_lists _ _ _ _ W) o) as Hnd. rewrite El in Hnd.
  pose proof (proj1 (wf_free _ _ _ _ W o h) Hh) as (HB & HX & Hf).
  eapply wf_meta; try done.
  - intros o' x. rewrite elem_of_fupd. destruct (decide (x = h)) as [->|Hne].
    + split; [|set_solver]. intros [[-> Hx]|[Hn Hx]].
      * apply NoDup_app in Hnd as (_ & Hd & Hnd). apply NoDup_cons in Hnd as [Hn _].
        apply elem_of_app in Hx as [Hx|Hx]; [|done]. by destruct (Hd h Hx); left.
      * exfalso. apply (wf_free _ _ _ _ W) in Hx as (Hx & _). congruence.
    + rewrite not_elem_of_union, not_elem_of_singleton.
      assert (x ∈ l1 ++ l2 ↔ x ∈ L o) as Eq by (rewrite El; set_solver).
      pose proof (wf_free _ _ _ _ W o' x) as F. destruct (decide (o' = o)) as [->|].
      * rewrite Eq. naive_solver.
      * naive_solver.
  - intros x. rewrite elem_of_union, elem_of_singleton. intros [->|Hx]; [eauto|].
    by apply (wf_held _ _ _ _ W).
Qed.

Lemma fl_add_wf a B L X o h :
  wf a B L X → h ∈ X → B !! h = Some o →
  ∃ a', fl_add o h a = Done (tt, a') ∧ wf a' B (fupd L o (h :: L o)) (X ∖ {[h]}) ∧ same_meta a a'.
Proof.
  intros W Hx HB. destruct (wf_held _ _ _ _ W h Hx) as [_ Hf].
  pose proof (wf_in_range _ _ _ _ _ _ W HB) as (Ho & _ & Hr & _).
  destruct (fl_add_run a L (wf_lists _ _ _ _ W) o h) as (a' & Hrun & Hm & Hl); [done|..].
  { intros o' Hin. apply (wf_free _ _ _ _ W) in Hin as (_ & Hn & _). done. }
  { destruct Hf as (q & Hq & _). by eexists. }
  exists a'. split; [done|]. split; [|done]. eapply wf_meta; try done.
  - intros o' x. rewrite elem_of_fupd, elem_of_cons, elem_of_difference, elem_of_singleton.
    pose proof (wf_free _ _ _ _ W o' x) as F. destruct (decide (x = h)) as [->|Hne].
    + split; [|naive_solver]. intros [[-> _]|[Hn Hin]]; [naive_solver|].
      apply F in Hin. naive_solver.
    + destruct (decide (o' = o)) as [->|]; naive_solver.
  - intros x Hin. apply elem_of_difference in Hin as [Hin _]. by apply (wf_held _ _ _ _ W).
Qed.

(** ** Coalescing: two free buddies of one order are never both listed. *)
Definition coal (L : nat → list Z) : Prop :=
  ∀ o h, (0 < o)%nat → h ∈ L o → Z.lxor h (bsz o) ∉ L o.

Section coal.
Lemma buddy_inv h s : Z.lxor (Z.lxor h s) s = h.
Proof. by rewrite Z.lxor_assoc, Z.lxor_nilpotent, Z.lxor_0_r. Qed.

Lemma coal_sub L L' : (∀ o h, h ∈ L' o → h ∈ L o) → coal L → coal L'.
Proof. intros Hs Hc o h Ho Hh Hb. by eapply (Hc o h); eauto. Qed.

Lemma coal_remove L o l1 h l2 : L o = l1 ++ h :: l2 → coal L → coal (fupd L o (l1 ++ l2)).
Proof.
  intros El. apply coal_sub. intros o' x. rewrite elem_of_fupd.
  intros [[-> Hx]|[_ Hx]]; [rewrite El; set_solver|done].
Qed.

Lemma coal_add L o h :
  (o ≤ 8)%nat → ((0 < o)%nat → Z.lxor h (bsz o) ∉ L o) → coal L → coal (fupd L o (h :: L o)).
Proof.
  intros Ho8 Hb Hc o' x Ho. rewrite !elem_of_fupd, !elem_of_cons.
  pose proof (bsz_pos o Ho8). intros [[-> [->|Hx]]|[Hn Hx]] [[E [Hy|Hy]]|[Hn' Hy]]; try done.
  - assert (bsz o = 0) as E0; [|lia].
    rewrite <- (Z.lxor_0_l (bsz o)), <- (Z.lxor_nilpotent h), Z.lxor_assoc, Hy. done.
  - by apply Hb.
  - apply (Hb Ho). by rewrite <- Hy, buddy_inv.
  - by apply (Hc o x).
  - by apply (Hc o' x).
Qed.

Lemma fupd_fupd L o l l' o' : fupd (fupd L o l) o l' o' = fupd L o l' o'.
Proof. unfold fupd. by case_decide. Qed.

Lemma coal_ext L L' : (∀ o, L o = L' o) → coal L → coal L'.
Proof. intros E. apply coal_sub. intros o h. by rewrite E. Qed.
End coal.
