(* ===== verification/PmSteps.v ===== *)
(** * Splitting, joining and taking blocks preserve the invariant

    The two ghost moves (a block becomes its two halves, two buddies become
    one block) and, on top of them, the loops of [Page::split],
    [Allocator::split_to], [Page::join] and the marking of inner pages. *)
From S2P Require Import Prelude Pm PmInv.

Local Open Scope Z_scope.

Definition set_pages (a : Allocator) (ps : gmap Z Page) : Allocator :=
  mkAllocator (free_lists a) ps (offt a) (size a).

(** Fields of a page that [wf] relies on besides the link, when the link and
    the identity of the page stay. *)
Definition keeps_id (p q : Page) : Prop :=
  idx q = idx p ∧ magic q = magic p ∧ next q = next p.

(** A general frame: the state changes on the pages of one region only, and
    nowhere in links or identities. *)
Lemma wf_page_upd a (ps : gmap Z Page) p :
  (∀ i q, pages a !! i = Some q → ∃ q', ps !! i = Some q' ∧ keeps_id q q') →
  (∃ q, pages a !! p = Some q ∧ idx q = p ∧ magic q = MAGIC) →
  ∃ q, ps !! p = Some q ∧ idx q = p ∧ magic q = MAGIC.
Proof.
  intros Hk (q & Hq & Hi & Hm). destruct (Hk _ _ Hq) as (q' & Hq' & Ei & Em & _).
  exists q'. rewrite Ei, Em. done.
Qed.

Lemma links_keeps (ps ps' : gmap Z Page) :
  (∀ i q, ps !! i = Some q → ∃ q', ps' !! i = Some q' ∧ keeps_id q q') →
  (∀ i, ps !! i = None → ps' !! i = None) → links ps' = links ps.
Proof.
  intros Hk Hn. apply map_eq. intros i. unfold links. rewrite !lookup_fmap.
  destruct (ps !! i) as [q|] eqn:E; simpl.
  - destruct (Hk _ _ E) as (q' & -> & _ & _ & En). simpl. by rewrite En.
  - by rewrite (Hn _ E).
Qed.

Lemma keeps_insert (ps : gmap Z Page) h p q :
  ps !! h = Some p → keeps_id p q →
  (∀ i x, ps !! i = Some x → ∃ x', <[h := q]> ps !! i = Some x' ∧ keeps_id x x')
  ∧ links (<[h := q]> ps) = links ps.
Proof.
  intros Hp Hk. split.
  - intros i x Hx. destruct (decide (i = h)) as [->|].
    + rewrite lookup_insert_eq. exists q. split; [done|]. by simplify_eq.
    + rewrite lookup_insert_ne by done. by exists x.
  - eapply links_upd; [done|]. by destruct Hk as (_ & _ & ?).
Qed.

(** ** One block becomes two *)
Section split.
Context (a : Allocator) (B : gmap Z nat) (L : nat → list Z) (X : gset Z) (h : Z) (o : nat).
Context (W : wf a B L X) (Hx : h ∈ X) (HB : B !! h = Some o) (Ho : (o < 8)%nat).

Notation r := (h + bsz (S o)).
Definition split_B : gmap Z nat := <[r := S o]> (<[h := S o]> B).

Lemma split_blank : ∃ q1 q2, pages a !! h = Some q1 ∧ pages a !! r = Some q2 ∧
  ref_cnt q1 = 0 ∧ flags q1 = FNone ∧ ord q1 = o ∧ ref_cnt q2 = 0 ∧ flags q2 = FNone ∧
  idx q1 = h ∧ idx q2 = r ∧ magic q1 = MAGIC ∧ magic q2 = MAGIC ∧
  ∀ p, h < p < h + bsz o → ∃ m, pages a !! p = Some m ∧ mid_ok false (p - h) m.
Proof using W Hx HB Ho.
  pose proof (bsz_S o Ho). pose proof (bsz_pos (S o)).
  destruct (wf_held _ _ _ _ W h Hx) as [_ (q1 & Hq1 & Hr1)].
  destruct (wf_block _ _ _ _ W h o HB) as (q & Hq & Hord & _ & _ & Hfl & Hm).
  rewrite Hq1 in Hq. injection Hq as <-. rewrite Hr1 in Hm. simpl in Hm.
  destruct (Hm r) as (q2 & Hq2 & Hr2 & Hf2); [lia|].
  pose proof (wf_in_range _ _ _ _ _ _ W HB).
  destruct (wf_page _ _ _ _ W h) as (q & Hq & I1 & M1); [lia|].
  rewrite Hq1 in Hq. injection Hq as <-.
  destruct (wf_page _ _ _ _ W r) as (q & Hq & I2 & M2); [lia|].
  rewrite Hq2 in Hq. injection Hq as <-.
  exists q1, q2. split_and!; auto.
Qed.

Lemma split_wf q1 q2 :
  pages a !! h = Some q1 → pages a !! r = Some q2 →
  wf (set_pages a (<[r := with_ord (S o) q2]> (<[h := with_ord (S o) q1]> (pages a))))
     split_B L ({[r]} ∪ X)
  ∧ ∀ g, view (<[r := with_ord (S o) q2]> (<[h := with_ord (S o) q1]> (pages a))) split_B g
         = view (pages a) B g.
Proof using W Hx HB Ho.
  intros Hq1 Hq2. pose proof (bsz_S o Ho) as E2. pose proof (bsz_pos (S o)) as Hpos.
  destruct split_blank as (x1 & x2 & Hx1 & Hx2 & R1 & F1 & O1 & R2 & F2 & I1 & I2 & M1 & M2 & Hm).
  rewrite Hq1 in Hx1. injection Hx1 as <-. rewrite Hq2 in Hx2. injection Hx2 as <-.
  pose proof W as [W1 W2 W3 W4 W5 W6 W7 W8].
  destruct (keeps_insert (pages a) h q1 (with_ord (S o) q1)) as [K1 K1l]; [done|done|].
  destruct (keeps_insert (<[h := with_ord (S o) q1]> (pages a)) r q2 (with_ord (S o) q2))
    as [K2 K2l]; [by rewrite lookup_insert_ne by lia|done|].
  assert (B !! r = None) as HrN.
  { destruct (B !! r) as [o'|] eqn:F; [|done]. exfalso.
    pose proof (wf_in_range _ _ _ _ _ _ W F).
    assert (h = r); [|lia]. eapply (tiles_same _ _ _ _ _ _ r); [done|exact HB|exact F|lia..]. }
  assert (∀ g, g ≠ h → g ≠ r →
    <[r := with_ord (S o) q2]> (<[h := with_ord (S o) q1]> (pages a)) !! g = pages a !! g) as Fr.
  { intros g ? ?. by rewrite !lookup_insert_ne by done. }
  assert (∀ g o', split_B !! g = Some o' →
    (g = h ∨ g = r) ∧ o' = S o ∨ g ≠ h ∧ g ≠ r ∧ B !! g = Some o') as C.
  { intros g o'. unfold split_B. rewrite !lookup_insert.
    repeat case_decide; intros [= <-] || intros HB'; subst; auto. }
  split.
  - split; simpl; try done.
    + by apply tiles_split.
    + intros p Hp. eapply (wf_page_upd a); [|by apply W4].
      intros i q Hq. destruct (K1 _ _ Hq) as (q' & Hq' & Hk). destruct (K2 _ _ Hq') as (q'' & ? & Hk').
      exists q''. split; [done|]. unfold keeps_id in *. naive_solver congruence.
    + intros g o' Hg. destruct (C _ _ Hg) as [[[->| ->] ->]|(N1 & N2 & Hg')].
      * exists (with_ord (S o) q1). rewrite lookup_insert_ne, lookup_insert_eq by lia. simpl.
        rewrite R1, F1. split_and!; try done. intros p Hp. rewrite Fr by lia. apply Hm. lia.
      * exists (with_ord (S o) q2). rewrite lookup_insert_eq. simpl. rewrite R2, F2.
        split_and!; try done. intros p Hp. rewrite Fr by lia. destruct (Hm p) as (m & Hm' & ?); [lia|].
        eauto.
      * apply (block_ok_frame (pages a)); [by eapply wf_in_range| |by apply W5].
        pose proof (wf_in_range _ _ _ _ _ _ W Hg') as Rg.
        intros p Hp. apply Fr.
        -- intros ->. apply N1. eapply (tiles_same _ _ _ _ _ _ h); [done|exact Hg'|exact HB|lia..].
        -- intros ->. apply N1. eapply (tiles_same _ _ _ _ _ _ r); [done|exact Hg'|exact HB|lia..].
    + by rewrite K2l, K1l.
    + intros o' g. rewrite not_elem_of_union, not_elem_of_singleton.
      pose proof (W7 o' g) as F. destruct (decide (g = h)) as [->|N1]; [naive_solver|].
      destruct (decide (g = r)) as [->|N2].
      { split; [intros Hin; apply F in Hin; naive_solver congruence|naive_solver]. }
      unfold split_B, free_head. rewrite Fr, !lookup_insert_ne by done. unfold free_head in F.
      naive_solver.
    + intros g. rewrite elem_of_union, elem_of_singleton. unfold split_B, free_head. intros [->|Hg].
      * rewrite !lookup_insert_eq. split; [eauto|]. eexists. split; [done|]. done.
      * destruct (decide (g = r)) as [->|N2].
        { rewrite !lookup_insert_eq. split; [eauto|]. eexists. split; [done|]. done. }
        destruct (W8 g Hg) as [Hb (q & Hq & Hr)].
        rewrite !(lookup_insert_ne _ r) by done. destruct (decide (g = h)) as [->|N1].
        -- rewrite !lookup_insert_eq. split; [eauto|]. eexists. split; [done|]. done.
        -- rewrite !lookup_insert_ne by done. split; [done|]. by exists q.
  - intros g. unfold view, split_B. destruct (decide (g = r)) as [->|N2].
    { rewrite !lookup_insert_eq, HrN. simpl. by rewrite R2. }
    rewrite !(lookup_insert_ne _ r) by done. destruct (decide (g = h)) as [->|N1].
    { rewrite !lookup_insert_eq, HB, Hq1. simpl. by rewrite R1. }
    by rewrite !lookup_insert_ne.
Qed.
End split.

(** ** Two buddies become one *)
Section merge.
Context (a : Allocator) (B : gmap Z nat) (L : nat → list Z) (X : gset Z) (l : Z) (o : nat).
Notation r := (l + bsz o).
Context (W : wf a B L X) (Hxl : l ∈ X) (Hxr : r ∈ X).
Context (HBl : B !! l = Some o) (HBr : B !! r = Some o) (Ho : (0 < o)%nat) (Hal : (2 * bsz o | l)).

Definition merge_B : gmap Z nat := <[l := (o - 1)%nat]> (delete r B).

Lemma held_blank g : g ∈ X → B !! g = Some o → ∃ q, pages a !! g = Some q ∧ ord q = o ∧
  ref_cnt q = 0 ∧ flags q = FNone ∧
  ∀ p, g < p < g + bsz o → ∃ m, pages a !! p = Some m ∧ mid_ok false (p - g) m.
Proof using W.
  intros Hg HBg. destruct (wf_held _ _ _ _ W g Hg) as [_ (q & Hq & Hr)].
  destruct (wf_block _ _ _ _ W g o HBg) as (q' & Hq' & Hord & _ & _ & Hfl & Hm).
  rewrite Hq in Hq'. injection Hq' as <-. rewrite Hr in Hm. exists q. split_and!; auto.
Qed.

Lemma merge_wf ql :
  pages a !! l = Some ql →
  wf (set_pages a (<[l := with_ord (o - 1) ql]> (pages a))) merge_B L (X ∖ {[r]})
  ∧ ∀ g, view (<[l := with_ord (o - 1) ql]> (pages a)) merge_B g = view (pages a) B g.
Proof using W Hxl Hxr HBl HBr Ho Hal.
  intros Hql. pose proof (wf_in_range _ _ _ _ _ _ W HBl) as Rl.
  pose proof (wf_in_range _ _ _ _ _ _ W HBr) as Rr.
  assert (E2 : bsz (o - 1) = 2 * bsz o).
  { rewrite bsz_S by lia. do 2 f_equal. lia. }
  destruct (held_blank l) as (x & Hx & O1 & R1 & F1 & M1); [done..|].
  rewrite Hql in Hx. injection Hx as <-.
  destruct (held_blank r) as (qr & Hqr & O2 & R2 & F2 & M2); [done..|].
  pose proof W as [W1 W2 W3 W4 W5 W6 W7 W8].
  destruct (keeps_insert (pages a) l ql (with_ord (o - 1) ql)) as [K1 K1l]; [done|done|].
  assert (∀ g o', merge_B !! g = Some o' →
    g = l ∧ o' = (o - 1)%nat ∨ g ≠ l ∧ g ≠ r ∧ B !! g = Some o') as C.
  { intros g o'. unfold merge_B. rewrite lookup_insert, lookup_delete.
    repeat case_decide; intros [= <-] || intros HB'; subst; auto. }
  split.
  - split; simpl; try done.
    + by apply tiles_merge.
    + intros p Hp. eapply (wf_page_upd a); [done|by apply W4].
    + intros g o' Hg. destruct (C _ _ Hg) as [[-> ->]|(N1 & N2 & Hg')].
      * exists (with_ord (o - 1) ql). rewrite lookup_insert_eq. simpl. rewrite R1, F1.
        split_and!; try done. intros p Hp. rewrite lookup_insert_ne by lia.
        destruct (Z.lt_trichotomy p r) as [Hlt|[->|Hgt]].
        -- apply M1. lia.
        -- exists qr. done.
        -- destruct (M2 p) as (m & Hm & ?); [lia|]. eauto.
      * apply (block_ok_frame (pages a)); [by eapply wf_in_range| |by apply W5].
        pose proof (wf_in_range _ _ _ _ _ _ W Hg') as Rg.
        intros p Hp. apply lookup_insert_ne. intros <-. apply N1.
        eapply (tiles_same _ _ _ _ _ _ l); [done|exact Hg'|exact HBl|lia..].
    + by rewrite K1l.
    + intros o' g. rewrite elem_of_difference, elem_of_singleton.
      pose proof (W7 o' g) as F. unfold merge_B, free_head in *.
      destruct (decide (g = l)) as [->|N1].
      { rewrite lookup_insert_eq. assert (l ≠ r) by lia. naive_solver. }
      destruct (decide (g = r)) as [->|N2].
      { rewrite lookup_insert_ne, lookup_delete_eq by done. naive_solver. }
      rewrite !lookup_insert_ne, lookup_delete_ne by done. naive_solver.
    + intros g. rewrite elem_of_difference, elem_of_singleton. intros [Hg Hne].
      destruct (W8 g Hg) as [Hb (q & Hq & Hr)]. unfold merge_B, free_head.
      destruct (decide (g = l)) as [->|N1].
      * rewrite !lookup_insert_eq. split; [eauto|]. eexists. split; [done|]. done.
      * rewrite !lookup_insert_ne, lookup_delete_ne by done. eauto.
  - intros g. unfold view, merge_B. destruct (decide (g = l)) as [->|N1].
    { rewrite !lookup_insert_eq, HBl, Hql. simpl. by rewrite R1. }
    rewrite !lookup_insert_ne by done. destruct (decide (g = r)) as [->|N2].
    { rewrite lookup_delete_eq, HBr, Hqr. by rewrite R2. }
    by rewrite lookup_delete_ne.
Qed.
End merge.

(** ** [Page::split] *)
Lemma page_split_run a B L o h l1 l2 :
  wf a B L ∅ → (o < 8)%nat → L o = l1 ++ h :: l2 →
  ∃ a', page_split h o a = Done (tt, a') ∧
    wf a' (split_B B h o) (fupd (fupd L o (l1 ++ l2)) (S o) (h :: (h + bsz (S o)) :: L (S o))) ∅ ∧
    offt a' = offt a ∧ size a' = size a ∧
    ∀ g, view (pages a') (split_B B h o) g = view (pages a) B g.
Proof.
  intros W Ho El. assert (h ∈ L o) as Hh by (rewrite El; set_solver).
  pose proof (proj1 (wf_free _ _ _ _ W o h) Hh) as (HB & _ & Hf).
  pose proof (wf_in_range _ _ _ _ _ _ W HB) as Rh.
  pose proof (bsz_S o Ho) as E2. pose proof (bsz_pos (S o)) as Hpos.
  destruct (wf_page _ _ _ _ W h) as (q & Hq & Hi & Hm); [lia|].
  unfold page_split. replace (o <? 8)%nat with true by (symmetry; by apply Nat.ltb_lt).
  mstep. mrun (page_at_run _ _ _ Hq). rewrite Hi, shl_4096 by lia.
  replace (4096 * bsz o / 2 / 4096) with (bsz (S o)) by (rewrite E2; zdiv).
  destruct (fl_remove_wf a B L ∅ o l1 h l2 W El) as (a1 & E1 & W1 & Hs1).
  mrun E1. set (r := h + bsz (S o)).
  assert (h ∈ ({[h]} ∪ ∅ : gset Z)) as Hx by set_solver.
  destruct (split_blank a1 B _ _ h o W1 Hx HB Ho)
    as (q1 & q2 & Hq1 & Hq2 & R1 & F1 & O1 & R2 & F2 & I1 & I2 & M1 & M2 & _).
  destruct (split_wf a1 B _ _ h o W1 Hx HB Ho q1 q2 Hq1 Hq2) as [W2 V2]. fold r in Hq2, W2, V2, I2.
  mrun (page_at_run _ _ _ Hq1). mrun (page_at_run _ _ _ Hq2).
  unfold page_assert_ok. rewrite M1, M2, I1, I2, !Z.eqb_refl. do 4 mstep.
  replace (o + 1)%nat with (S o) by lia.
  mrun (upd_page_run _ _ _ _ Hq1).
  erewrite bind_Done by (apply (upd_page_run _ _ q2); simpl; rewrite lookup_insert_ne by (subst r; lia); done).
  simpl. change (mkAllocator _ _ _ _) with (set_pages a1 (<[r := with_ord (S o) q2]> (<[h := with_ord (S o) q1]> (pages a1)))).
  destruct (fl_add_wf _ _ _ _ (S o) r W2) as (a3 & E3 & W3 & Hs3);
    [set_solver|by unfold split_B; rewrite lookup_insert_eq|].
  mrun E3.
  destruct (fl_add_wf _ _ _ _ (S o) h W3) as (a4 & E4 & W4 & Hs4).
  { assert (h ≠ r) by (subst r; lia). set_solver. }
  { unfold split_B. rewrite lookup_insert_ne, lookup_insert_eq by (subst r; lia). done. }
  exists a4. split; [done|]. destruct Hs1 as (Er1 & Eo1 & Es1), Hs3 as (Er3 & Eo3 & Es3), Hs4 as (Er4 & Eo4 & Es4).
  split; [|split_and!].
  - replace (∅ : gset Z) with (({[r]} ∪ ({[h]} ∪ ∅)) ∖ {[r]} ∖ {[h]} : gset Z) by set_solver.
    eapply wf_ext; [|exact W4]. intros o'. unfold fupd. repeat case_decide; subst; done || lia.
  - simpl in *. congruence.
  - simpl in *. congruence.
  - intros g. rewrite (view_meta _ _ _ _ (eq_sym Er4)), (view_meta _ _ _ _ (eq_sym Er3)). simpl.
    rewrite V2. by apply view_meta.
Qed.

(** List [o] has a block in front, and is coalesced without it. *)
Definition ready (L : nat → list Z) (o : nat) : Prop := ∃ h l, L o = h :: l ∧ coal (fupd L o l).

Lemma split_coal a B L o h l :
  wf a B L ∅ → (o < 8)%nat → L o = h :: l → coal (fupd L o l) →
  let L' := fupd (fupd L o l) (S o) (h :: (h + bsz (S o)) :: L (S o)) in
  coal (fupd L' (S o) ((h + bsz (S o)) :: L (S o))).
Proof.
  intros W Ho El Hc L'. assert (h ∈ L o) as Hh by (rewrite El; by left).
  pose proof (proj1 (wf_free _ _ _ _ W o h) Hh) as (HB & _).
  assert (Z.lxor (h + bsz (S o)) (bsz (S o)) = h) as E.
  { destruct (lxor_pow2 h (8 - Z.of_nat (S o))) as [(m & Em & Ex)|(m & Em & Ex)].
    - lia.
    - pose proof (wf_in_range _ _ _ _ _ _ W HB). lia.
    - etrans; [apply (bsz_divide o (S o)); lia|]. by apply (t_align _ _ (wf_tiles _ _ _ _ W)).
    - fold (bsz (S o)) in Ex. by rewrite <- Ex, buddy_inv.
    - exfalso. pose proof (t_align _ _ (wf_tiles _ _ _ _ W) _ _ HB) as [n Hn].
      fold (bsz (S o)) in Em. rewrite bsz_S in Hn by lia. pose proof (bsz_pos (S o)).
      assert (2 * n = 2 * m + 1); [|lia]. apply (Z.mul_reg_r _ _ (bsz (S o))); lia. }
  eapply coal_ext; [|apply (coal_add (fupd L o l) (S o) (h + bsz (S o))); [lia| |exact Hc]].
  - intros o'. unfold L', fupd. repeat case_decide; done || lia.
  - intros _. rewrite E, fupd_ne by lia. intros Hin.
    pose proof (l_disj _ _ _ (wf_lists _ _ _ _ W) _ _ _ Hh Hin). lia.
Qed.

(** [Allocator::split_to] leaves a block of the target order in front. *)
Lemma split_to_loop_run k : ∀ a B L cur h l,
  wf a B L ∅ → (cur + k ≤ 8)%nat → L cur = h :: l → coal (fupd L cur l) →
  ∃ a' B' L', split_to_loop k h cur a = Done (tt, a') ∧ wf a' B' L' ∅ ∧
    offt a' = offt a ∧ size a' = size a ∧ ready L' (cur + k) ∧
    ∀ g, view (pages a') B' g = view (pages a) B g.
Proof.
  induction k as [|k IH]; intros a B L cur h l W Hk El Hc.
  - exists a, B, L. split_and!; try done. rewrite Nat.add_0_r. by exists h, l.
  - simpl. destruct (page_split_run a B L cur h [] l W) as (a1 & E1 & W1 & Eo1 & Es1 & V1); [lia|done|].
    mrun E1. replace (cur + 1)%nat with (S cur) by lia. unfold fl_get_head.
    erewrite bind_Done; [|eapply fl_head_cons; [by eapply wf_lists|lia|by rewrite fupd_eq]].
    mstep. destruct (IH a1 _ _ (S cur) h ((h + bsz (S cur)) :: L (S cur)) W1)
      as (a2 & B2 & L2 & E2 & W2 & Eo2 & Es2 & Hne & V2); [lia|by rewrite fupd_eq|apply (split_coal a B L cur h l W); [lia|done..]|].
    exists a2, B2, L2. rewrite E2. split_and!; try done; try congruence.
    by replace (cur + S k)%nat with (S cur + k)%nat by lia.
Qed.

Lemma alloc_loop_found o i a B L h l :
  wf a B L ∅ → (i < o)%nat → (o ≤ 8)%nat → L i = h :: l → coal L →
  ∃ a' B' L', alloc_loop o i a = Done (tt, a') ∧ wf a' B' L' ∅ ∧
    offt a' = offt a ∧ size a' = size a ∧ ready L' o ∧
    ∀ g, view (pages a') B' g = view (pages a) B g.
Proof.
  intros W Hi Ho El Hc. assert (h ∈ L i) as Hh by (rewrite El; by left).
  apply (wf_free _ _ _ _ W) in Hh as (HB & _). pose proof (wf_in_range _ _ _ _ _ _ W HB).
  destruct (wf_page _ _ _ _ W h) as (q & Hq & _ & Hm); [lia|].
  destruct (split_to_loop_run (o - i) a B L i h l W) as (a' & B' & L' & E & W' & Eo & Es & Hne & V);
    [lia|done|by apply (coal_remove L i [] h l)|].
  exists a', B', L'. replace (i + (o - i))%nat with o in Hne by lia. split; [|done].
  destruct i; simpl; unfold fl_get_head;
    (erewrite bind_Done by (eapply fl_head_cons; [by eapply wf_lists|lia|done])); cbv beta iota;
    mrun (page_at_run _ _ _ Hq); unfold page_assert_ok; rewrite Hm, Z.eqb_refl; mstep;
    unfold split_to;
    (replace (_ <? o)%nat with true by (symmetry; by apply Nat.ltb_lt)); mstep;
    mrun E; (replace (_ =? o)%nat with false by (symmetry; apply Nat.eqb_neq; lia)); done.
Qed.

(** The downward search of [_alloc]: nothing happens when all the lists up to
    [i] are empty, otherwise list [o] has a block afterwards. *)
Lemma alloc_loop_run o i : ∀ a B L,
  wf a B L ∅ → coal L → (i < o)%nat → (o ≤ 8)%nat →
  (alloc_loop o i a = Done (tt, a) ∧ ∀ j, (j ≤ i)%nat → L j = []) ∨
  ∃ a' B' L', alloc_loop o i a = Done (tt, a') ∧ wf a' B' L' ∅ ∧
    offt a' = offt a ∧ size a' = size a ∧ ready L' o ∧
    ∀ g, view (pages a') B' g = view (pages a) B g.
Proof.
  induction i as [|i IH]; intros a B L W Hc Hi Ho.
  - destruct (L 0%nat) as [|h l] eqn:El; [left|right; by eapply alloc_loop_found].
    simpl; unfold fl_get_head.
    erewrite bind_Done by (eapply fl_head_nil; [by eapply wf_lists|lia|done]).
    split; [done|]. intros j Hj. by replace j with 0%nat by lia.
  - destruct (L (S i)) as [|h l] eqn:El; [|right; by eapply alloc_loop_found].
    simpl; unfold fl_get_head.
    erewrite bind_Done by (eapply fl_head_nil; [by eapply wf_lists|lia|done]).
    destruct (IH a B L W Hc) as [[E Hall]|H]; [lia|done| |by right]. left. split; [done|].
    intros j Hj. destruct (decide (j = S i)) as [->|]; [done|]. apply Hall. lia.
Qed.

(** ** [Page::join] *)

(** One turn that merges: the buddy leaves its list and the lower half grows. *)
Lemma join_step a B L h o b qb :
  wf a B L {[h]} → coal L → B !! h = Some o → (0 < o)%nat → b = Z.lxor h (bsz o) →
  pages a !! b = Some qb → ord qb = o → ref_cnt qb = 0 →
  let l := if idx qb <? h then b else h in
  ∃ a' B' L', (fl_remove o b ;;; upd_page l (λ q, with_ord (ord q - 1) q)) a = Done (tt, a') ∧
    wf a' B' L' {[l]} ∧ coal L' ∧ B' !! l = Some (o - 1)%nat ∧
    offt a' = offt a ∧ size a' = size a ∧ ∀ g, view (pages a') B' g = view (pages a) B g.
Proof.
  intros W Hc HB Ho Eb Hqb Hob Hr0.
  destruct (buddy_head (npg a) B h o b (wf_N _ _ _ _ W) (wf_tiles _ _ _ _ W) HB)
    as (Hb0 & HbN & Hbal & Hbh & Hmin & Hmax & o' & HBb & Hoo'); [lia|done|].
  destruct (wf_block _ _ _ _ W b o' HBb) as (q' & Hq' & Hob' & _).
  rewrite Hqb in Hq'. injection Hq' as <-. replace o' with o in * by congruence.
  pose proof (wf_in_range _ _ _ _ _ _ W HB) as Rh.
  destruct (wf_page _ _ _ _ W b) as (q' & Hq' & Hib & _); [lia|]. rewrite Hqb in Hq'. injection Hq' as <-.
  assert ((if idx qb <? h then b else h) = Z.min h b) as -> by (rewrite Hib; destruct (Z.ltb_spec b h); lia).
  set (l := Z.min h b). intros l'. subst l'.
  assert (b ∈ L o) as HbL.
  { apply (wf_free _ _ _ _ W). split_and!; [done|set_solver|by exists qb]. }
  apply list_elem_of_split in HbL as (l1 & l2 & El).
  destruct (fl_remove_wf a B L _ o l1 b l2 W El) as (a1 & E1 & W1 & Er1 & Eo1 & Es1).
  assert (l = h ∧ l + bsz o = b ∨ l = b ∧ l + bsz o = h) as Hl by (subst l; lia).
  assert (l ∈ ({[b]} ∪ {[h]} : gset Z) ∧ l + bsz o ∈ ({[b]} ∪ {[h]} : gset Z) ∧ B !! l = Some o
    ∧ B !! (l + bsz o) = Some o ∧ ({[b]} ∪ {[h]}) ∖ {[l + bsz o]} = ({[l]} : gset Z))
    as (X1 & X2 & B1 & B2 & EX).
  { destruct Hl as [[-> ->]|[-> ->]]; split_and!; try done; set_solver. }
  destruct (held_blank a1 B _ _ o W1 l X1 B1) as (ql & Hql & Hol & _).
  destruct (merge_wf a1 B _ _ l o W1 X1 X2 B1 B2) with (ql := ql) as [W2 V2]; [lia|done|done|].
  rewrite EX in W2. mrun E1. rewrite (upd_page_run _ _ _ _ Hql), Hol.
  do 3 eexists. split; [done|]. split; [exact W2|]. split; [by eapply coal_remove|].
  split; [by unfold merge_B; rewrite lookup_insert_eq|].
  split_and!; [done..|]. intros g. simpl. rewrite V2. by apply view_meta.
Qed.

(** Putting the block in hand on its list. *)
Lemma join_stop a B L h o :
  wf a B L {[h]} → coal L → B !! h = Some o → ((0 < o)%nat → Z.lxor h (bsz o) ∉ L o) →
  ∃ a' B' L', fl_add o h a = Done (tt, a') ∧ wf a' B' L' ∅ ∧ coal L' ∧
    offt a' = offt a ∧ size a' = size a ∧ ∀ g, view (pages a') B' g = view (pages a) B g.
Proof.
  intros W Hc HB Hb. destruct (fl_add_wf a B L {[h]} o h W) as (a' & E & W' & Er & Eo & Es); [set_solver|done|].
  replace ({[h]} ∖ {[h]} : gset Z) with (∅ : gset Z) in W' by set_solver.
  do 3 eexists. split; [exact E|]. split; [exact W'|].
  pose proof (wf_in_range _ _ _ _ _ _ W HB). split_and!; try done; [apply coal_add; [lia|done..]|].
  intros g. by apply view_meta.
Qed.

Lemma page_join_loop_run fuel : ∀ a B L h o,
  wf a B L {[h]} → coal L → B !! h = Some o → (o < fuel)%nat →
  ∃ a' B' L', page_join_loop fuel h a = Done (tt, a') ∧ wf a' B' L' ∅ ∧ coal L' ∧
    offt a' = offt a ∧ size a' = size a ∧ ∀ g, view (pages a') B' g = view (pages a) B g.
Proof.
  induction fuel as [|fuel IH]; intros a B L h o W Hc HB Hf; [lia|].
  pose proof (wf_in_range _ _ _ _ _ _ W HB) as Rh.
  destruct (wf_page _ _ _ _ W h) as (q & Hq & Hi & Hm); [lia|].
  destruct (wf_block _ _ _ _ W h o HB) as (q' & Hq' & Ho & _). rewrite Hq in Hq'. injection Hq' as <-.
  pose proof (join_stop a B L h o W Hc HB) as Hstop.
  simpl. mrun (page_at_run _ _ _ Hq). rewrite Ho, Hi.
  destruct (Nat.eqb_spec o 0) as [->|Ho0]; [apply Hstop; lia|].
  rewrite get_buddy_idx by lia. set (b := Z.lxor h (bsz o)).
  destruct (buddy_head (npg a) B h o b (wf_N _ _ _ _ W) (wf_tiles _ _ _ _ W) HB)
    as (_ & _ & _ & _ & _ & _ & o' & HBb & _); [lia|done|].
  destruct (wf_block _ _ _ _ W b o' HBb) as (qb & Hqb & Hob & _).
  mrun (page_at_run _ _ _ Hqb).
  assert (b ∈ L o → ord qb = o ∧ ref_cnt qb = 0) as Hbl.
  { intros (HBb' & _ & x & Hx & Hx0)%(wf_free _ _ _ _ W). rewrite Hqb in Hx. injection Hx as <-. split; congruence. }
  destruct (Nat.eqb_spec (ord qb) o) as [Hob'|Hne]; [|apply Hstop; naive_solver]. unfold page_is_idle.
  destruct (Z.eqb_spec (ref_cnt qb) 0) as [Hr0|Hr0]; [|apply Hstop; naive_solver]. simpl.
  destruct (join_step a B L h o b qb W Hc HB) as (a1 & B1 & L1 & E1 & W1 & Hc1 & HB1 & Eo1 & Es1 & V1); [lia|done..|].
  destruct (IH a1 B1 L1 _ _ W1 Hc1 HB1) as (a2 & B2 & L2 & E2 & W2 & Hc2 & Eo2 & Es2 & V2); [lia|].
  exists a2, B2, L2. split.
  - revert E1. unfold bind. destruct (fl_remove o b a) as [[[] s]|]; [|done]. intros ->. exact E2.
  - split_and!; [done|done|congruence..|]. intros g. by rewrite V2, V1.
Qed.

(** ** Changing the status of one block *)
Lemma wf_retag a B L X h o ps' fl' L' X' :
  wf a B L X → B !! h = Some o →
  (∀ p, ¬ (h ≤ p < h + bsz o) → ps' !! p = pages a !! p) →
  (∀ p, h ≤ p < h + bsz o → ∃ q, ps' !! p = Some q ∧ idx q = p ∧ magic q = MAGIC) →
  block_ok ps' h o → lists (links ps') fl' L' →
  (∀ o' g, g ≠ h → g ∈ L' o' ↔ g ∈ L o') →
  (∀ o', h ∈ L' o' ↔ o' = o ∧ h ∉ X' ∧ free_head ps' h) →
  (∀ g, g ≠ h → g ∈ X' ↔ g ∈ X) → (h ∈ X' → free_head ps' h) →
  wf (mkAllocator fl' ps' (offt a) (size a)) B L' X'
  ∧ ∀ g, g ≠ h → view ps' B g = view (pages a) B g.
Proof.
  intros W HB Hout Hin Hblk Hls HL HLh HX HXh. pose proof W as [W1 W2 W3 W4 W5 W6 W7 W8].
  assert (∀ g o', g ≠ h → B !! g = Some o' → ∀ p, g ≤ p < g + bsz o' → ps' !! p = pages a !! p) as Hg.
  { intros g o' Hne HBg p Hp. apply Hout. intros Hp'. apply Hne.
    by eapply (tiles_same _ _ _ _ _ _ p). }
  assert (∀ g o', g ≠ h → B !! g = Some o' → ps' !! g = pages a !! g) as Hg'.
  { intros g o' Hne HBg. eapply Hg; [done|done|]. pose proof (wf_in_range _ _ _ _ _ _ W HBg). lia. }
  split; [split; simpl; try done|].
  - intros p Hp. destruct (decide (h ≤ p < h + bsz o)); [auto|]. rewrite Hout by done. auto.
  - intros g o' HBg. destruct (decide (g = h)) as [->|Hne]; [by simplify_eq|].
    apply (block_ok_frame (pages a)); [by eapply wf_in_range|by eapply Hg|auto].
  - intros o' g. destruct (decide (g = h)) as [->|Hne].
    + rewrite HLh. naive_solver.
    + rewrite HL, W7, HX by done. unfold free_head.
      split; intros (HBg & ? & Hfr); split_and!; try done; revert Hfr; by rewrite (Hg' g o') by done.
  - intros g Hgx. destruct (decide (g = h)) as [->|Hne]; [eauto|].
    apply HX in Hgx; [|done]. destruct (W8 g Hgx) as [[o' HBg] Hfr]. split; [eauto|].
    revert Hfr. unfold free_head. by rewrite (Hg' g o') by done.
  - intros g Hne. unfold view. destruct (B !! g) as [o'|] eqn:HBg; [|done]. by rewrite (Hg' g o') by done.
Qed.

(** [for i in lo..hi { page.add(i) = f(i, page.add(i)) }] *)
Lemma upd_range_run (f : Z → Page → Page) h lo hi a :
  (∀ i, lo ≤ i < hi → is_Some (pages a !! (h + i))) →
  ∃ ps, forM (range lo hi) (λ i, upd_page (h + i) (f i)) a = Done (tt, set_pages a ps) ∧
    ∀ p, ps !! p = if decide (h + lo ≤ p < h + hi) then f (p - h) <$> pages a !! p else pages a !! p.
Proof.
  remember (Z.to_nat (hi - lo)) as k eqn:Hk. revert lo a Hk.
  induction k as [|k IH]; intros lo a Hk Hs.
  - exists (pages a). rewrite range_nil by lia. split; [by destruct a|].
    intros p. by rewrite decide_False by lia.
  - destruct (Hs lo) as [q Hq]; [lia|]. rewrite range_cons by lia.
    erewrite forM_cons by (by apply upd_page_run).
    destruct (IH (lo + 1) (set_pages a (<[h + lo := f lo q]> (pages a)))) as (ps & E & Hps); [lia|..].
    { intros i Hi. simpl. rewrite lookup_insert_ne by lia. apply Hs. lia. }
    exists ps. split; [exact E|]. intros p. rewrite Hps. simpl.
    destruct (decide (p = h + lo)) as [->|Hne].
    + rewrite decide_False, lookup_insert_eq, decide_True, Hq by lia. simpl. do 2 f_equal. lia.
    + rewrite lookup_insert_ne by done.
      destruct (decide (h + (lo + 1) ≤ p < h + hi)); [rewrite decide_True by lia|rewrite decide_False by lia]; done.
Qed.

(** Rewriting the head and the inner pages of one block, as [alloc] and [free] do. *)
Lemma set_block a B L X h o q qh (ps' : gmap Z Page) fm (rm : Z → Z) :
  wf a B L X → B !! h = Some o → pages a !! h = Some q →
  ps' !! h = Some qh → idx qh = idx q → magic qh = magic q → ord qh = ord q →
  0 ≤ ref_cnt qh → flags qh ≠ FMid → (ref_cnt qh = 0 → flags qh = FNone) →
  (∀ p, p ≠ h → ps' !! p = if decide (h < p < h + bsz o)
     then (λ m, with_flags fm (with_ref (rm (p - h)) m)) <$> pages a !! p else pages a !! p) →
  (∀ d, if 0 <? ref_cnt qh then rm d = d ∧ fm = FMid else rm d = 0 ∧ fm = FNone) →
  (∀ p, ¬ (h ≤ p < h + bsz o) → ps' !! p = pages a !! p) ∧
  (∀ p, h ≤ p < h + bsz o → ∃ x, ps' !! p = Some x ∧ idx x = p ∧ magic x = MAGIC) ∧
  block_ok ps' h o ∧ links ps' = <[h := next qh]> (links (pages a)).
Proof.
  intros W HB Hq Hqh Ei Em Eo Hr Hf Hf0 Hps Hmid.
  pose proof (wf_in_range _ _ _ _ _ _ W HB) as Rh. split_and!.
  - intros p Hp. by rewrite Hps, decide_False by lia.
  - intros p Hp. destruct (wf_page _ _ _ _ W p) as (x & Hx & Ix & Mx); [lia|].
    destruct (decide (p = h)) as [->|Hne].
    + exists qh. rewrite Hq in Hx. injection Hx as <-. split_and!; congruence.
    + rewrite Hps, decide_True, Hx by lia. eexists. split; [done|]. done.
  - destruct (wf_block _ _ _ _ W h o HB) as (q' & Hq' & Ho & _ & _ & _ & Hm).
    rewrite Hq in Hq'. injection Hq' as <-.
    exists qh. split_and!; [done|congruence|done..|]. intros p Hp.
    rewrite Hps, decide_True by lia. destruct (Hm p Hp) as (m & -> & _). eexists. split; [done|].
    specialize (Hmid (p - h)). unfold mid_ok. destruct (0 <? ref_cnt qh); simpl; naive_solver.
  - apply map_eq. intros p. unfold links. rewrite lookup_insert, !lookup_fmap. case_decide as Hp.
    + subst p. by rewrite Hqh.
    + rewrite Hps by done. case_decide; [|done]. by destruct (pages a !! p).
Qed.

(** Rewriting the head of a block that stays allocated. *)
Lemma set_head a B L X h o q qh :
  wf a B L X → B !! h = Some o → pages a !! h = Some q → 0 < ref_cnt q → 0 < ref_cnt qh →
  idx qh = idx q → magic qh = magic q → ord qh = ord q → next qh = next q → flags qh ≠ FMid →
  wf (set_pages a (<[h := qh]> (pages a))) B L X
  ∧ ∀ g, view (<[h := qh]> (pages a)) B g
         = if decide (g = h) then Some (mkBlock o (ref_cnt qh) (flags qh)) else view (pages a) B g.
Proof.
  intros W HB Hq Hr Hr' Ei Em Eo En Hf. pose proof (wf_in_range _ _ _ _ _ _ W HB) as Rh.
  destruct (wf_block _ _ _ _ W h o HB) as (q' & Hq' & Ho & _ & _ & _ & Hm).
  rewrite Hq in Hq'. injection Hq' as <-.
  assert (¬ free_head (<[h := qh]> (pages a)) h) as Hnf.
  { intros (x & Hx & Hx0). rewrite lookup_insert_eq in Hx. injection Hx as <-. lia. }
  assert (∀ o', h ∉ L o') as HhL.
  { intros o' Hin. apply (wf_free _ _ _ _ W) in Hin as (_ & _ & x & Hx & Hx0).
    rewrite Hq in Hx. injection Hx as <-. lia. }
  destruct (wf_retag a B L X h o (<[h := qh]> (pages a)) (free_lists a) L X W HB) as [W' V']; try done.
  - intros p Hp. apply lookup_insert_ne. lia.
  - intros p Hp. destruct (wf_page _ _ _ _ W p) as (x & Hx & Ix & Mx); [lia|].
    destruct (decide (p = h)) as [->|Hne]; [|rewrite lookup_insert_ne by done; eauto].
    rewrite lookup_insert_eq. rewrite Hq in Hx. injection Hx as <-. exists qh. split_and!; congruence.
  - exists qh. rewrite lookup_insert_eq. split_and!; [done|congruence|lia|done|lia|].
    intros p Hp. rewrite lookup_insert_ne by lia. destruct (Hm p Hp) as (m & Hm' & Hok).
    exists m. split; [done|]. revert Hok.
    destruct (Z.ltb_spec 0 (ref_cnt q)), (Z.ltb_spec 0 (ref_cnt qh)); done || lia.
  - rewrite (links_upd _ _ q) by done. by eapply wf_lists.
  - intros o'. split; [by intros ?%HhL|]. by intros (_ & _ & ?%Hnf).
  - intros Hx. destruct (wf_held _ _ _ _ W h Hx) as [_ (x & Hx' & Hx0)].
    rewrite Hq in Hx'. injection Hx' as <-. lia.
  - split; [exact W'|]. intros g. case_decide as Hg; [subst g|by apply V'].
    unfold view. rewrite HB, lookup_insert_eq. by destruct (Z.ltb_spec 0 (ref_cnt qh)); [|lia].
Qed.
