(* ===== verification/PmRun.v ===== *)
(** * [alloc], [free] and [dup] run on well-formed states

    Each lemma says that the operation returns (no panic, no access outside of
    the page array), which result it gives, that the invariant of [PmInv] holds
    again, and what happened to the blocks clients see ([view]). *)
From S2P Require Import Prelude Pm PmInv PmSteps.

Local Open Scope Z_scope.

Definition addr_of (a : Allocator) (h : Z) : Z := h * 4096 + offt a.

Section lookup.
Context (a : Allocator) (B : gmap Z nat) (L : nat → list Z) (X : gset Z) (W : wf a B L X).

Lemma lookup_head h o : B !! h = Some o → allocator_lookup a (addr_of a h) = Some h.
Proof using W.
  intros HB. pose proof (wf_in_range _ _ _ _ _ _ W HB). pose proof (wf_size _ _ _ _ W).
  unfold allocator_lookup, addr_of. destruct (Z.ltb_spec (h * 4096 + offt a) (offt a)); [lia|].
  replace (h * 4096 + offt a - offt a) with (h * 4096) by lia.
  destruct (Z.leb_spec (size a) (h * 4096)); [lia|]. by rewrite Z.div_mul by lia.
Qed.

Lemma view_Some h b : view (pages a) B h = Some b →
  B !! h = Some (b_ord b) ∧ ∃ q, pages a !! h = Some q ∧ ord q = b_ord b ∧
    ref_cnt q = b_ref b ∧ flags q = b_flags b ∧ idx q = h ∧ magic q = MAGIC ∧ 0 < b_ref b.
Proof using W.
  unfold view. destruct (B !! h) as [o|] eqn:HB; [|done].
  destruct (wf_block _ _ _ _ W h o HB) as (q & Hq & Ho & Hr & _). rewrite Hq.
  destruct (Z.ltb_spec 0 (ref_cnt q)); [|done]. intros [= <-]. simpl. split; [done|].
  pose proof (wf_in_range _ _ _ _ _ _ W HB).
  destruct (wf_page _ _ _ _ W h) as (q' & Hq' & Hi & Hm); [lia|].
  rewrite Hq in Hq'. injection Hq' as <-. eauto 10.
Qed.
End lookup.

(** ** Allocation *)
Section take.
Context (a : Allocator) (B : gmap Z nat) (L : nat → list Z) (W : wf a B L ∅).

Lemma alloc_take_nil o : (o ≤ 8)%nat → L o = [] → alloc_take o a = Done (None, a).
Proof using W.
  intros Ho El. assert (fl_rm_first o a = Done (None, a)) as E.
  { unfold fl_rm_first.
    erewrite bind_Done by (eapply fl_head_nil; [by eapply wf_lists|done|done]). done. }
  unfold alloc_take. by mrun E.
Qed.

Lemma alloc_take_cons o h l :
  L o = h :: l →
  ∃ q fl', pages a !! h = Some q ∧
    lists (links (<[h := with_next None (with_ref 1 q)]> (pages a))) fl' (fupd L o l) ∧
    alloc_take o a = Done (Some (h * 4096),
      mkAllocator fl' (<[h := with_next None (with_ref 1 q)]> (pages a)) (offt a) (size a)).
Proof using W.
  intros El. assert (h ∈ L o) as Hh by (rewrite El; by left).
  pose proof (wf_ord_le _ _ _ _ _ _ W Hh) as Ho.
  destruct (fl_rm_first_run a L (wf_lists _ _ _ _ W) o h l Ho El)
    as (q & a1 & Hq & E1 & (_ & Eo & Es) & Ep & HL).
  exists q, (free_lists a1).
  pose proof (proj1 (wf_free _ _ _ _ W o h) Hh) as (HB & _).
  pose proof (wf_in_range _ _ _ _ _ _ W HB).
  destruct (wf_page _ _ _ _ W h) as (q' & Hq' & Hi & Hm); [lia|].
  rewrite Hq in Hq'. injection Hq' as <-.
  split; [done|]. split.
  - assert (∀ o', h ∉ fupd L o l o') as Hnin.
    { intros o'. rewrite elem_of_fupd. pose proof (l_nodup _ _ _ (wf_lists _ _ _ _ W) o) as Hnd.
      rewrite El in Hnd. apply NoDup_cons in Hnd as [Hnd _]. intros [[-> Hin]|[Hne Hin]]; [done|].
      by apply Hne, (l_disj _ _ _ (wf_lists _ _ _ _ W) o' o h). }
    destruct HL as [H1 H2 H3 H4]. split; try done.
    intros o' hd Hhd. rewrite links_next. apply chain_insert; [done|]. rewrite <- Ep. eauto.
  - unfold alloc_take. mrun E1. cbv beta iota. rewrite <- Ep in Hq.
    mrun (page_at_run _ _ _ Hq). unfold page_assert_ok. rewrite Hm, Z.eqb_refl. mstep.
    mrun (upd_page_run _ _ _ _ Hq).
    erewrite bind_Done by (apply (upd_page_run _ _ (with_ref 1 q)); simpl; by rewrite lookup_insert_eq).
    unfold ret. simpl. rewrite insert_insert_eq, Hi, Eo, Es, Ep. done.
Qed.

(** [alloc] after [_alloc] returned the front block [h] of list [o]: mark the
    inner pages, check the count, set the flag. *)
Lemma take_finish o h l q fl' :
  L o = h :: l → pages a !! h = Some q →
  lists (links (<[h := with_next None (with_ref 1 q)]> (pages a))) fl' (fupd L o l) →
  let a1 := mkAllocator fl' (<[h := with_next None (with_ref 1 q)]> (pages a)) (offt a) (size a) in
  ∃ a', (page_mark_mids h ;;; let! p := page_at h in assert_ (ref_cnt p =? 1) ;;;
         upd_page h (with_flags FUsed)) a1 = Done (tt, a') ∧
    wf a' B (fupd L o l) ∅ ∧ offt a' = offt a ∧ size a' = size a ∧
    ∀ g, view (pages a') B g = if decide (g = h) then Some (mkBlock o 1 FUsed) else view (pages a) B g.
Proof using W.
  intros El Hq HL a1. assert (h ∈ L o) as Hh by (rewrite El; by left).
  pose proof (proj1 (wf_free _ _ _ _ W o h) Hh) as (HB & _ & Hfree).
  pose proof (wf_in_range _ _ _ _ _ _ W HB) as Rh.
  destruct (wf_block _ _ _ _ W h o HB) as (q' & Hq' & Ho & _ & _ & Hfl & Hm).
  rewrite Hq in Hq'. injection Hq' as <-.
  assert (pages a1 !! h = Some (with_next None (with_ref 1 q))) as Hq1 by (simpl; by rewrite lookup_insert_eq).
  assert (∀ p, h < p < h + bsz o → is_Some (pages a1 !! p)) as Hs.
  { intros p Hp. simpl. rewrite lookup_insert_ne by lia. destruct (Hm p Hp) as (m & -> & _). eauto. }
  destruct (upd_range_run (λ i q, with_flags FMid (with_ref i q)) h 1 (bsz o) a1) as (ps & Er & Hps).
  { intros i Hi. apply Hs. lia. }
  assert (page_mark_mids h a1 = Done (tt, set_pages a1 ps)) as Emm.
  { unfold page_mark_mids. mrun (page_at_run _ _ _ Hq1).
    rewrite page_len_div by (simpl; lia). simpl. rewrite Ho. exact Er. }
  assert (ps !! h = Some (with_next None (with_ref 1 q))) as Hpsh.
  { rewrite Hps, decide_False by lia. exact Hq1. }
  set (ps' := <[h := with_flags FUsed (with_next None (with_ref 1 q))]> ps).
  exists (mkAllocator fl' ps' (offt a) (size a)). split.
  { mrun Emm. erewrite bind_Done by (by apply page_at_run). simpl.
    rewrite bind_Done with (a := tt) (s' := set_pages a1 ps) by done.
    by rewrite (upd_page_run _ _ (with_next None (with_ref 1 q))). }
  assert (ps' !! h = Some (with_flags FUsed (with_next None (with_ref 1 q)))) as Hph
    by (unfold ps'; by rewrite lookup_insert_eq).
  destruct (set_block a B L ∅ h o q (with_flags FUsed (with_next None (with_ref 1 q))) ps' FMid id)
    as (Hout & Hin & Hblk & Hlk); try done.
  { intros p Hne. unfold ps'. rewrite lookup_insert_ne, Hps by done. simpl.
    rewrite lookup_insert_ne by done. repeat case_decide; done || lia. }
  pose proof (l_nodup _ _ _ (wf_lists _ _ _ _ W) o) as Hnd. rewrite El in Hnd.
  apply NoDup_cons in Hnd as [Hnl _].
  destruct (wf_retag a B L ∅ h o ps' fl' (fupd L o l) ∅ W HB) as [W' V']; try done.
  - rewrite Hlk. simpl. by rewrite <- links_next with (p := with_ref 1 q).
  - intros o' g Hne. rewrite elem_of_fupd. destruct (decide (o' = o)) as [->|]; [|naive_solver].
    rewrite El, elem_of_cons. naive_solver.
  - intros o'. split.
    + rewrite elem_of_fupd. intros [[-> Hin']|[Hne Hin']]; [done|].
      exfalso. by apply Hne, (l_disj _ _ _ (wf_lists _ _ _ _ W) o' o h).
    + intros (_ & _ & x & Hx & Hr). rewrite Hph in Hx. by injection Hx as <-.
  - split; [exact W'|]. split; [done|]. split; [done|]. intros g. case_decide as Hg; [subst g|by apply V'].
    unfold view. simpl. by rewrite HB, Hph.
Qed.
End take.

(** What [_alloc] does to find a block: on success list [get_ord n] has one. *)
Lemma find_block_run a B L n :
  wf a B L ∅ → coal L → 1 ≤ n ≤ MB → size a ≠ 0 →
  (allocator__alloc n a = Done (None, a) ∧ ∀ j, (j ≤ get_ord n)%nat → L j = []) ∨
  ∃ a1 B1 L1 h l, wf a1 B1 L1 ∅ ∧ L1 (get_ord n) = h :: l ∧
    coal (fupd L1 (get_ord n) l) ∧ offt a1 = offt a ∧ size a1 = size a ∧
    (∀ g, view (pages a1) B1 g = view (pages a) B g) ∧
    allocator__alloc n a = alloc_take (get_ord n) a1.
Proof.
  intros W Hc Hn Hs. destruct (get_ord_spec n Hn) as (k & Ek & Hk & _).
  assert (get_ord n ≤ 8)%nat as Ho by lia. unfold allocator__alloc. mstep.
  replace ((MB <? n) || (n =? 0) || (size a =? 0)) with false by (symmetry; cases_Z; simpl; lia || done).
  destruct (L (get_ord n)) as [|h l] eqn:El.
  - mrun (alloc_take_nil a B L W (get_ord n) Ho El). cbv beta iota.
    destruct (get_ord n) as [|i] eqn:Eo.
    { left. split; [done|]. intros j Hj. by replace j with 0%nat by lia. }
    destruct (alloc_loop_run (S i) i a B L W Hc) as [[E Hall]|(a1 & B1 & L1 & E & W1 & Eo1 & Es1 & (h & l & El1 & Hc1) & V1)];
      [lia|done| |].
    + left. mrun E. rewrite (alloc_take_nil a B L W) by done. split; [done|].
      intros j Hj. destruct (decide (j = S i)) as [->|]; [done|]. apply Hall. lia.
    + right. mrun E. exists a1, B1, L1, h, l. done.
  - right. exists a, B, L, h, l. split_and!; try done; [by apply (coal_remove L _ [] h l)|].
    destruct (alloc_take_cons a B L W _ _ _ El) as (q & fl' & _ & _ & E). by mrun E.
Qed.

Lemma alloc_run a B L n :
  wf a B L ∅ → coal L → 1 ≤ n ≤ MB → size a ≠ 0 →
  (allocator_alloc n a = Done (None, a) ∧ ∀ j, (j ≤ get_ord n)%nat → L j = []) ∨
  ∃ a' B' L' h, allocator_alloc n a = Done (Some (addr_of a h), a') ∧ wf a' B' L' ∅ ∧ coal L' ∧
    offt a' = offt a ∧ size a' = size a ∧ B' !! h = Some (get_ord n) ∧ view (pages a) B h = None ∧
    ∀ g, view (pages a') B' g = if decide (g = h) then Some (mkBlock (get_ord n) 1 FUsed)
                                else view (pages a) B g.
Proof.
  intros W Hc Hn Hs.
  destruct (find_block_run a B L n W Hc Hn Hs) as [[E Hall]|(a1 & B1 & L1 & h & l & W1 & El & Hc1 & Eo & Es & V1 & E)].
  { left. split; [|done]. unfold allocator_alloc. by mrun E. }
  right. assert (h ∈ L1 (get_ord n)) as Hh by (rewrite El; by left).
  pose proof (proj1 (wf_free _ _ _ _ W1 _ _) Hh) as (HB & _ & x & Hx & Hx0).
  destruct (alloc_take_cons a1 B1 L1 W1 _ _ _ El) as (q & fl' & Hq & HL & Et).
  destruct (take_finish a1 B1 L1 W1 _ _ _ q fl' El Hq HL) as (a' & Ef & W' & Eo' & Es' & V').
  exists a', B1, (fupd L1 (get_ord n) l), h. split_and!; try done; try congruence.
  - unfold allocator_alloc. rewrite <- E in Et. mrun Et. cbv beta iota. mstep. simpl offt.
    pose proof (lookup_head a1 B1 L1 ∅ W1 h _ HB) as Hlk. unfold allocator_lookup, addr_of in Hlk.
    unfold allocator_lookup. simpl. rewrite Hlk. mstep.
    revert Ef. unfold bind. destruct (page_mark_mids h _) as [[[] s1]|]; [|done]. cbv beta iota.
    destruct (page_at h s1) as [[p s2]|]; [|done]. destruct (assert_ _ s2) as [[[] s3]|]; [|done].
    intros ->. unfold ret, addr_of. by rewrite Eo.
  - rewrite <- V1. unfold view. rewrite HB, Hx. by rewrite Hx0.
  - intros g. rewrite V'. case_decide; [done|]. by rewrite V1.
Qed.

(** ** Freeing *)

(** The last reference goes: the block is stripped and is in hand for [join]. *)
Lemma strip_run a B L h o q :
  wf a B L ∅ → B !! h = Some o → pages a !! h = Some q → ref_cnt q = 1 →
  let a1 := set_pages a (<[h := with_ref 0 q]> (pages a)) in
  ∃ a', (page_unmark_mids h ;;; upd_page h (with_flags FNone)) a1 = Done (tt, a') ∧
    wf a' B L {[h]} ∧ offt a' = offt a ∧ size a' = size a ∧
    ∀ g, view (pages a') B g = if decide (g = h) then None else view (pages a) B g.
Proof.
  intros W HB Hq Hr a1. pose proof (wf_in_range _ _ _ _ _ _ W HB) as Rh.
  destruct (wf_block _ _ _ _ W h o HB) as (q' & Hq' & Ho & _ & _ & _ & Hm).
  rewrite Hq in Hq'. injection Hq' as <-.
  assert (pages a1 !! h = Some (with_ref 0 q)) as Hq1 by (simpl; by rewrite lookup_insert_eq).
  destruct (upd_range_run (λ _ q, with_flags FNone (with_ref 0 q)) h 1 (bsz o) a1) as (ps & Er & Hps).
  { intros i Hi. simpl. rewrite lookup_insert_ne by lia.
    destruct (Hm (h + i)) as (m & -> & _); [lia|eauto]. }
  assert (page_unmark_mids h a1 = Done (tt, set_pages a1 ps)) as Emm.
  { unfold page_unmark_mids. mrun (page_at_run _ _ _ Hq1).
    rewrite page_len_div by (simpl; lia). simpl. rewrite Ho. exact Er. }
  assert (ps !! h = Some (with_ref 0 q)) as Hpsh by (by rewrite Hps, decide_False by lia).
  set (qh := with_flags FNone (with_ref 0 q)). set (ps' := <[h := qh]> ps).
  exists (mkAllocator (free_lists a) ps' (offt a) (size a)). split.
  { mrun Emm. by rewrite (upd_page_run _ _ (with_ref 0 q)). }
  assert (ps' !! h = Some qh) as Hph by (unfold ps'; by rewrite lookup_insert_eq).
  destruct (set_block a B L ∅ h o q qh ps' FNone (λ _, 0)) as (Hout & Hin & Hblk & Hlk); try done.
  { intros p Hne. unfold ps'. rewrite lookup_insert_ne, Hps by done. simpl.
    rewrite lookup_insert_ne by done. repeat case_decide; done || lia. }
  assert (∀ o', h ∉ L o') as HhL.
  { intros o' Hin'. apply (wf_free _ _ _ _ W) in Hin' as (_ & _ & x & Hx & Hx0).
    rewrite Hq in Hx. injection Hx as <-. lia. }
  destruct (wf_retag a B L ∅ h o ps' (free_lists a) L {[h]} W HB) as [W' V']; try done.
  - rewrite Hlk. rewrite insert_id; [by eapply wf_lists|]. apply (links_lookup _ _ _ Hq).
  - intros o'. split; [by intros ?%HhL|]. intros (_ & Hn & _). set_solver.
  - set_solver.
  - intros _. by exists qh.
  - split; [exact W'|]. split; [done|]. split; [done|]. intros g. case_decide as Hg; [subst g|by apply V'].
    unfold view. simpl. by rewrite HB, Hph.
Qed.

Definition drop_ref (b : block) : option block :=
  if 1 <? b_ref b then Some (mkBlock (b_ord b) (b_ref b - 1) (b_flags b)) else None.

Lemma free_run a B L h b :
  wf a B L ∅ → coal L → view (pages a) B h = Some b →
  ∃ a' B' L', allocator_free (addr_of a h) (4096 * bsz (b_ord b)) a = Done (tt, a') ∧
    wf a' B' L' ∅ ∧ coal L' ∧ offt a' = offt a ∧ size a' = size a ∧
    ∀ g, view (pages a') B' g = if decide (g = h) then drop_ref b else view (pages a) B g.
Proof.
  intros W Hc Hv. destruct (view_Some a B L ∅ W h b Hv) as (HB & q & Hq & Ho & Hr & Hf & Hi & Hm & Hpos).
  pose proof (wf_in_range _ _ _ _ _ _ W HB) as Rh.
  unfold allocator_free. mstep. rewrite (lookup_head a B L ∅ W h _ HB). mstep.
  mrun (page_at_run _ _ _ Hq). unfold page_assert_ok. rewrite Hm, Z.eqb_refl. mstep.
  destruct (Z.ltb_spec 0 (ref_cnt q)); [|lia]. mstep.
  rewrite page_len_bsz, Ho, Z.eqb_refl by lia. mstep.
  mrun (upd_page_run _ _ _ _ Hq). unfold drop_ref.
  destruct (Z.ltb_spec 0 (ref_cnt q - 1)), (Z.ltb_spec 1 (b_ref b)); try lia.
  - destruct (wf_block _ _ _ _ W h _ HB) as (q' & Hq' & _ & _ & Hnm & _).
    rewrite Hq in Hq'. injection Hq' as <-.
    destruct (set_head a B L ∅ h _ q (with_ref (ref_cnt q - 1) q) W HB Hq) as [W' V']; try done.
    exists (set_pages a (<[h := with_ref (ref_cnt q - 1) q]> (pages a))), B, L.
    split_and!; try done. intros g. rewrite V'. simpl. by rewrite Hr, Hf.
  - assert (ref_cnt q = 1) as E1 by lia. rewrite E1.
    destruct (strip_run a B L h _ q W HB Hq E1) as (a2 & E2 & W2 & Eo2 & Es2 & V2).
    destruct (wf_block _ _ _ _ W2 h _ HB) as (q2 & Hq2 & Ho2 & _).
    destruct (page_join_loop_run (S (b_ord b)) a2 B L h _ W2 Hc HB) as (a3 & B3 & L3 & E3 & W3 & Hc3 & Eo3 & Es3 & V3);
      [lia|].
    exists a3, B3, L3. split_and!; try done; try congruence.
    + revert E2. unfold set_pages. unfold bind. change (1 - 1) with 0.
      destruct (page_unmark_mids h _) as [[[] s]|]; [|done]. intros ->.
      unfold page_join. mrun (page_at_run _ _ _ Hq2). by rewrite Ho2.
    + intros g. by rewrite V3, V2.
Qed.

(** ** Sharing *)
Lemma dup_run a B L h b :
  wf a B L ∅ → view (pages a) B h = Some b →
  ∃ a', allocator_dup (addr_of a h) (4096 * bsz (b_ord b)) a = Done (true, a') ∧
    wf a' B L ∅ ∧ offt a' = offt a ∧ size a' = size a ∧
    ∀ g, view (pages a') B g = if decide (g = h) then Some (mkBlock (b_ord b) (b_ref b + 1) FCow)
                               else view (pages a) B g.
Proof.
  intros W Hv. destruct (view_Some a B L ∅ W h b Hv) as (HB & q & Hq & Ho & Hr & Hf & Hi & Hm & Hpos).
  pose proof (wf_in_range _ _ _ _ _ _ W HB) as Rh.
  unfold allocator_dup. mstep. rewrite (lookup_head a B L ∅ W h _ HB).
  mrun (page_at_run _ _ _ Hq). destruct (Z.eqb_spec (ref_cnt q) 0); [lia|].
  rewrite page_len_bsz, Ho, Z.eqb_refl by lia. cbv beta iota delta [negb]. unfold page_dup_for_cow.
  set (qh := with_flags FCow (with_ref (ref_cnt q + 1) q)).
  destruct (set_head a B L ∅ h _ q qh W HB Hq) as [W' V']; try done; [simpl; lia..|].
  exists (set_pages a (<[h := qh]> (pages a))). split; [|split_and!; try done].
  - unfold bind. rewrite (page_at_run _ _ _ Hq). unfold page_assert_ok. rewrite Hm, Z.eqb_refl.
    simpl. destruct (Z.ltb_spec 0 (ref_cnt q)); [|lia]. simpl. by rewrite (upd_page_run _ _ _ _ Hq).
  - intros g. rewrite V'. simpl. by rewrite Hr.
Qed.
