(* ===== verification/PmSpec.v ===== *)
(** * The buddy allocator meets its specification

    The abstract state is the map [U] of allocated blocks (head frame to
    order, reference count, flags); [Abs] relates it to a concrete state
    through the invariant of [PmInv].  The theorems give [init], [free_low],
    [alloc], [free], [dup] and [cow_action] on every branch. *)
From S2P Require Import Prelude Pm PmInv PmSteps PmRun.

Local Open Scope Z_scope.

Definition Abs (a : Allocator) (U : gmap Z block) : Prop :=
  ∃ B L, wf a B L ∅ ∧ coal L ∧ ∀ h, U !! h = view (pages a) B h.

(** Frame [p] belongs to an allocated block. *)
Definition covered (U : gmap Z block) (p : Z) : Prop :=
  ∃ h b, U !! h = Some b ∧ h ≤ p < h + bsz (b_ord b).

(** ** What the invariant says about frames *)
Section frames.
Context (a : Allocator) (B : gmap Z nat) (L : nat → list Z) (U : gmap Z block).
Context (W : wf a B L ∅) (V : ∀ h, U !! h = view (pages a) B h).

(** A block is allocated or on the list of its order. *)
Lemma used_or_free h o : B !! h = Some o →
  (∃ b, U !! h = Some b ∧ b_ord b = o) ∨ (U !! h = None ∧ h ∈ L o).
Proof using W V.
  intros HB. destruct (wf_block _ _ _ _ W h o HB) as (q & Hq & Ho & Hr & _).
  rewrite V. unfold view. rewrite HB, Hq. destruct (Z.ltb_spec 0 (ref_cnt q)); [left; eauto|].
  right. split; [done|]. apply (wf_free _ _ _ _ W). split_and!; [done|set_solver|].
  exists q. split; [done|lia].
Qed.

Lemma U_block h b : U !! h = Some b → B !! h = Some (b_ord b).
Proof using W V. rewrite V. intros Hv. by apply (view_Some a B L ∅ W) in Hv as [? _]. Qed.

Lemma free_uncovered h o p : B !! h = Some o → h ∈ L o → h ≤ p < h + bsz o → ¬ covered U p.
Proof using W V.
  intros HB Hin Hp (g & b & Hg & Hgp).
  assert (g = h) as ->.
  { eapply (tiles_same _ B g _ h _ p (wf_tiles _ _ _ _ W)); eauto using U_block. }
  destruct (used_or_free h o HB) as [(b' & Hb' & _)|[Hn _]]; [|congruence].
  apply (wf_free _ _ _ _ W) in Hin as (_ & _ & q & Hq & Hr).
  rewrite V in Hb'. unfold view in Hb'. by rewrite HB, Hq, Hr in Hb'.
Qed.

(** Every frame outside of the allocated blocks has a zero count. *)
Lemma uncovered_idle p : 0 ≤ p < npg a → ¬ covered U p →
  ∃ q, pages a !! p = Some q ∧ ref_cnt q = 0 ∧ magic q = MAGIC.
Proof using W V.
  intros Hp Hn. destruct (t_cover _ _ (wf_tiles _ _ _ _ W) p Hp) as (h & o & HB & Hhp).
  destruct (wf_page _ _ _ _ W p Hp) as (q & Hq & _ & Hm). exists q. split; [done|]. split; [|done].
  destruct (used_or_free h o HB) as [(b & Hb & Ho)|[_ Hin]].
  { exfalso. apply Hn. exists h, b. by rewrite Ho. }
  apply (wf_free _ _ _ _ W) in Hin as (_ & _ & q' & Hq' & Hr).
  destruct (wf_block _ _ _ _ W h o HB) as (q2 & Hq2 & _ & _ & _ & _ & Hmid).
  rewrite Hq' in Hq2. injection Hq2 as <-. destruct (decide (p = h)) as [->|Hne]; [congruence|].
  destruct (Hmid p) as (m & Hm' & Hok); [lia|]. rewrite Hr in Hok. destruct Hok. congruence.
Qed.

(** The buddy of a block smaller than an aligned window around it is in the window. *)
Lemma buddy_in_window h j o w :
  (o < j)%nat → B !! h = Some j → w ≤ h < w + bsz o → (bsz o | w) →
  w ≤ Z.lxor h (bsz j) < w + bsz o ∧ ∃ j', B !! Z.lxor h (bsz j) = Some j' ∧ (j ≤ j')%nat.
Proof using W.
  intros Hj HB Hh Hal. pose proof (t_ord _ _ (wf_tiles _ _ _ _ W) _ _ HB) as Hj8.
  destruct (buddy_head (npg a) B h j _ (wf_N _ _ _ _ W) (wf_tiles _ _ _ _ W) HB ltac:(lia) eq_refl)
    as (_ & _ & _ & Hbh & Hmin & Hmax & Hj'). split; [|done].
  assert (bsz (j - 1) = 2 * bsz j) as E by (rewrite bsz_S by lia; do 2 f_equal; lia).
  assert (2 * bsz j | bsz o) as Hd by (rewrite <- E; apply bsz_divide; lia).
  pose proof (bsz_pos j Hj8).
  destruct (window_inside (2 * bsz j) w (Z.min h (Z.lxor h (bsz j))) h (bsz o)); try done; try lia.
  by etrans.
Qed.

Lemma window_free h j o w :
  (∀ p, w ≤ p < w + bsz o → ¬ covered U p) → B !! h = Some j → w ≤ h < w + bsz o → h ∈ L j.
Proof using W V.
  intros Hfree HB Hh. destruct (used_or_free h j HB) as [(b & Hb & Eb)|[_ Hin]]; [|done].
  destruct (Hfree h Hh). exists h, b. rewrite Eb. split; [done|].
  pose proof (wf_in_range _ _ _ _ _ _ W HB). lia.
Qed.

(** With coalesced lists, an aligned window of free frames lies in one free
    block at least as large. *)
Lemma window_block o w :
  coal L → (o ≤ 8)%nat → 0 ≤ w → (bsz o | w) → w + bsz o ≤ npg a →
  (∀ p, w ≤ p < w + bsz o → ¬ covered U p) → ∃ j, (j ≤ o)%nat ∧ L j ≠ [].
Proof using W V.
  intros Hc Ho Hw Hal HN Hfree. pose proof (bsz_pos o Ho) as Hs.
  assert (∀ j h, (j ≤ 8)%nat → (o < j)%nat → B !! h = Some j → w ≤ h < w + bsz o → False) as Hno.
  { intros j. remember (8 - j)%nat as k eqn:Hk. revert j Hk.
    induction k as [k IH] using lt_wf_ind. intros j Hk h Hj8 Hj HB Hh.
    destruct (buddy_in_window h j o w) as (Hb & j' & HBb & Hjj'); [done..|].
    pose proof (t_ord _ _ (wf_tiles _ _ _ _ W) _ _ HBb).
    destruct (decide (j' = j)) as [->|Hne]; [|by eapply (IH (8 - j')%nat); eauto; lia].
    apply (Hc j h); [lia|by eapply window_free|by eapply window_free]. }
  destruct (t_cover _ _ (wf_tiles _ _ _ _ W) w) as (h & j & HB & Hhw); [lia|].
  pose proof (t_ord _ _ (wf_tiles _ _ _ _ W) _ _ HB) as Hj8. destruct (decide (j ≤ o)%nat) as [Hle|Hgt].
  - exists j. split; [done|]. destruct (used_or_free h j HB) as [(b & Hb & Eb)|[_ Hin]].
    + exfalso. apply (Hfree w); [lia|]. exists h, b. by rewrite Eb.
    + intros El. rewrite El in Hin. set_solver.
  - exfalso. apply (Hno j h); [done|lia|done|]. pose proof (bsz_pos j Hj8).
    destruct (window_inside (bsz j) h w w (bsz j)); try done; try lia; [by apply (t_align _ _ (wf_tiles _ _ _ _ W))|].
    etrans; [|done]. apply bsz_divide; lia.
Qed.
End frames.

(** ** Boot: the page array, then one [free] per frame outside of the kernel *)
Section boot.
Lemma foldr_pages l p (P : gmap Z Page) :
  foldr (λ i m, <[i := page_new i 8 1]> m) P l !! p
  = if decide (p ∈ l) then Some (page_new p 8 1) else P !! p.
Proof.
  induction l as [|i l IH]; cbn [foldr]; [by rewrite decide_False by set_solver|].
  destruct (decide (p = i)) as [->|Hne].
  - rewrite lookup_insert_eq, decide_True by (by left). done.
  - rewrite lookup_insert_ne, IH by done.
    destruct (decide (p ∈ l)); [rewrite decide_True by (by right)|rewrite decide_False by set_solver]; done.
Qed.

Lemma init_pages_lookup n p :
  init_pages n !! p = if decide (0 ≤ p < n) then Some (page_new p 8 1) else None.
Proof.
  unfold init_pages. rewrite foldr_pages, lookup_empty.
  destruct (decide (p ∈ _)) as [Hp|Hp]; rewrite elem_of_range in Hp.
  - by rewrite decide_True by lia.
  - by rewrite decide_False by lia.
Qed.

Context (o s N : Z).
Let a0 := mkAllocator (replicate 9 None) (init_pages N) o s.
Let B0 : gmap Z nat := (λ _, 8%nat) <$> init_pages N.

Lemma B0_lookup h : B0 !! h = if decide (0 ≤ h < N) then Some 8%nat else None.
Proof. unfold B0. rewrite lookup_fmap, init_pages_lookup. by case_decide. Qed.

Lemma B0_inv h k : B0 !! h = Some k → k = 8%nat ∧ 0 ≤ h < N.
Proof. rewrite B0_lookup. case_decide; naive_solver. Qed.

Lemma tiles0 : tiles N B0.
Proof.
  assert (bsz 8 = 1) as E by done.
  split.
  - by intros h k [-> _]%B0_inv.
  - intros h k [-> _]%B0_inv. rewrite E. apply Z.divide_1_l.
  - intros h k [-> ?]%B0_inv. lia.
  - intros h1 k1 h2 k2 [-> _]%B0_inv _. lia.
  - intros p Hp. exists p, 8%nat. rewrite B0_lookup, decide_True by done. split; [done|lia].
Qed.

Lemma view0 h : view (pages a0) B0 h = if decide (0 ≤ h < N) then Some (mkBlock 8 1 FNone) else None.
Proof.
  unfold view. rewrite B0_lookup. simpl. rewrite init_pages_lookup. by case_decide.
Qed.

Context (HN : (256 | N)) (Hs : s = 4096 * N).

Lemma npg0 : npg a0 = N.
Proof using Hs. unfold npg. simpl. rewrite Hs, Z.mul_comm. by apply Z.div_mul. Qed.

Lemma wf0 : wf a0 B0 (λ _, []) ∅.
Proof using HN Hs.
  assert (∀ h k, B0 !! h = Some k → pages a0 !! h = Some (page_new h 8 1)) as Hp.
  { intros h k [_ Hh]%B0_inv. simpl. by rewrite init_pages_lookup, decide_True. }
  split.
  - by rewrite npg0.
  - by rewrite npg0.
  - rewrite npg0. apply tiles0.
  - rewrite npg0. intros p Hin. simpl. rewrite init_pages_lookup, decide_True by done. by eexists.
  - intros h k HB. pose proof (B0_inv h k HB) as [-> _].
    exists (page_new h 8 1). split_and!; try done; [by eapply Hp|]. change (bsz 8) with 1. intros p Hin. lia.
  - split; [done| |constructor|set_solver]. intros k hd Hk.
    by apply lookup_replicate in Hk as [-> _].
  - intros k h. split; [set_solver|]. intros (HB & _ & q & Hq & Hr).
    rewrite (Hp h k HB) in Hq. by injection Hq as <-.
  - set_solver.
Qed.

End boot.

(** The loop of [init_free_list] gives back the frames from [k] to [m]. *)
Lemma free_pages_run fuel : ∀ a B L k m,
  wf a B L ∅ → coal L → k ≤ m → m - k ≤ Z.of_nat fuel →
  (∀ h, k ≤ h < m → view (pages a) B h = Some (mkBlock 8 1 FNone)) →
  ∃ a' B' L', free_pages_loop fuel (addr_of a k) (addr_of a m) a = Done (tt, a') ∧
    wf a' B' L' ∅ ∧ coal L' ∧ offt a' = offt a ∧ size a' = size a ∧
    ∀ h, view (pages a') B' h = if decide (k ≤ h < m) then None else view (pages a) B h.
Proof.
  induction fuel as [|fuel IH]; intros a B L k m W Hc Hkm Hf Hv.
  - exists a, B, L. simpl. rewrite (proj2 (Z.ltb_ge _ _)) by (unfold addr_of; lia).
    split_and!; try done. intros h. by rewrite decide_False by lia.
  - simpl. unfold addr_of at 1 2. destruct (Z.ltb_spec (k * 4096 + offt a) (m * 4096 + offt a)).
    + destruct (free_run a B L k (mkBlock 8 1 FNone) W Hc) as (a1 & B1 & L1 & E1 & W1 & Hc1 & Eo1 & Es1 & V1);
        [apply Hv; lia|].
      change (4 * KB) with (4096 * bsz 8). mrun E1.
      destruct (IH a1 B1 L1 (k + 1) m W1 Hc1) as (a2 & B2 & L2 & E2 & W2 & Hc2 & Eo2 & Es2 & V2); [lia..| |].
      { intros h Hh. rewrite V1, decide_False by lia. apply Hv. lia. }
      exists a2, B2, L2. split_and!; try done; try congruence.
      * rewrite <- E2. unfold addr_of. rewrite Eo1. f_equal; change (4096 * bsz 8) with 4096; lia.
      * intros h. rewrite V2, V1. repeat case_decide; done || lia.
    + exists a, B, L. split_and!; try done. intros h. by rewrite decide_False by lia.
Qed.

(** ** The abstract state as a map *)
Definition U_of (ps : gmap Z Page) (B : gmap Z nat) : gmap Z block :=
  map_imap (λ h _, view ps B h) B.

Section abs.
Lemma U_of_lookup ps B h : U_of ps B !! h = view ps B h.
Proof.
  unfold U_of. rewrite map_lookup_imap. destruct (B !! h) eqn:E; [done|].
  simpl. unfold view. by rewrite E.
Qed.

Lemma Abs_update a a' B B' L' U h b :
  wf a' B' L' ∅ → coal L' → (∀ g, U !! g = view (pages a) B g) →
  (∀ g, view (pages a') B' g = if decide (g = h) then Some b else view (pages a) B g) →
  Abs a' (<[h := b]> U).
Proof.
  intros W Hc HU V. exists B', L'. split_and!; [done..|]. intros g. rewrite V, lookup_insert.
  repeat case_decide; subst; done.
Qed.

Lemma Abs_size a U : Abs a U → size a = 4096 * npg a.
Proof. intros (B & L & W & _). by eapply wf_size. Qed.

Lemma head_covered a U h b : Abs a U → U !! h = Some b → covered U h.
Proof.
  intros (B & L & W & _ & V) Hb. exists h, b. split; [done|].
  pose proof (wf_in_range _ _ _ _ _ _ W (U_block a B L U W V h b Hb)). lia.
Qed.

Lemma lookup_frame a U p : Abs a U → 0 ≤ p < npg a → allocator_lookup a (addr_of a p) = Some p.
Proof.
  intros HA Hp. pose proof (Abs_size a U HA). unfold allocator_lookup, addr_of.
  destruct (Z.ltb_spec (p * 4096 + offt a) (offt a)); [lia|].
  replace (p * 4096 + offt a - offt a) with (p * 4096) by lia.
  destruct (Z.leb_spec (size a) (p * 4096)); [lia|]. by rewrite Z.div_mul by lia.
Qed.

Lemma alloc_abs a U n :
  Abs a U → 1 ≤ n ≤ MB → size a ≠ 0 →
  (alloc n a = Done (None, a) ∧
   ∀ w, 0 ≤ w → (bsz (get_ord n) | w) → w + bsz (get_ord n) ≤ npg a →
        ¬ ∀ p, w ≤ p < w + bsz (get_ord n) → ¬ covered U p) ∨
  ∃ a' h, alloc n a = Done (Some (addr_of a h), a') ∧
    Abs a' (<[h := mkBlock (get_ord n) 1 FUsed]> U) ∧ offt a' = offt a ∧ size a' = size a ∧
    0 ≤ h ∧ h + bsz (get_ord n) ≤ npg a ∧ (bsz (get_ord n) | h) ∧ U !! h = None ∧
    ∀ p, h ≤ p < h + bsz (get_ord n) → ¬ covered U p.
Proof.
  intros (B & L & W & Hc & V) Hn Hs. destruct (get_ord_spec n Hn) as (k & Ek & Hk & _).
  destruct (alloc_run a B L n W Hc Hn Hs)
    as [[E Hall]|(a' & B' & L' & h & E & W' & Hc' & Eo & Es & HB & Vn & V')]; [left|right].
  - split; [done|]. intros w Hw Hal HN Hfree.
    destruct (window_block a B L U W V (get_ord n) w) as (j & Hj & Hne); [done|lia|done..|].
    by apply Hne, Hall.
  - exists a', h. pose proof (wf_in_range _ _ _ _ _ _ W' HB) as (_ & _ & R1 & R2).
    assert (npg a' = npg a) as En by (unfold npg; by rewrite Es).
    assert (Abs a' (<[h := mkBlock (get_ord n) 1 FUsed]> U)) as HA by (by eapply Abs_update).
    split_and!; try done; try lia; [by apply (t_align _ _ (wf_tiles _ _ _ _ W'))|by rewrite V|].
    intros p Hp (g & b & Hg & Hgp). destruct (decide (g = h)) as [->|Hne]; [rewrite V in Hg; congruence|].
    apply Hne. rewrite V in Hg. assert (view (pages a') B' g = Some b) as Hg' by (by rewrite V', decide_False).
    apply (view_Some a' B' L' ∅ W') in Hg' as [HBg _].
    by eapply (tiles_same _ B' g _ h _ p (wf_tiles _ _ _ _ W')).
Qed.

Lemma free_abs a U h b :
  Abs a U → U !! h = Some b →
  ∃ a', free (addr_of a h) (4096 * bsz (b_ord b)) a = Done (tt, a') ∧
    offt a' = offt a ∧ size a' = size a ∧ Abs a' (partial_alter (λ _, drop_ref b) h U).
Proof.
  intros (B & L & W & Hc & V) Hb. rewrite V in Hb.
  destruct (free_run a B L h b W Hc Hb) as (a' & B' & L' & E & W' & Hc' & Eo & Es & V').
  exists a'. split_and!; try done. exists B', L'. split_and!; try done. intros g.
  rewrite V'. case_decide as Hg; [subst; by rewrite lookup_partial_alter_eq|].
  by rewrite lookup_partial_alter_ne.
Qed.

Lemma init_abs k_begin k_end a :
  0x40000000 ≤ k_end ≤ 0x80000000 →
  let first := (align_f k_end 4096 - 0x40000000) / 4096 in
  ∃ a' U, init k_begin k_end a = Done (tt, a') ∧ offt a' = 0x40000000 ∧ size a' = GB ∧
    k_end ≤ addr_of a' first < k_end + 4096 ∧ Abs a' U ∧
    ∀ h, U !! h = if decide (0 ≤ h < first) then Some (mkBlock 8 1 FNone) else None.
Proof.
  intros Hk first. unfold init, allocator_init. remember (GB / 4096) as N eqn:EN.
  assert (N = 262144) as EN' by (by rewrite EN). clear EN.
  set (a0 := mkAllocator (replicate 9 None) (init_pages N) 0x40000000 GB).
  pose proof (align_f_bounds k_end 12) as Hal. change (2 ^ 12) with 4096 in Hal.
  destruct Hal as [Hal [z Hz]]; [lia..|].
  assert (first = z - 262144 ∧ 0 ≤ first ≤ N) as [Ez Hf] by (subst first; rewrite Hz; zdiv).
  assert (wf a0 ((λ _, 8%nat) <$> init_pages N) (λ _, []) ∅) as W
    by (apply wf0; [exists 1024; lia|unfold GB; lia]).
  destruct (free_pages_run (Z.to_nat (N - first + 1)) a0 _ _ first N W)
    as (a' & B' & L' & E & W' & Hc' & Eo & Es & V'); [intros o h _ Hin; by apply elem_of_nil in Hin|lia|lia| |].
  { intros h Hh. unfold a0. rewrite view0, decide_True by lia. done. }
  exists a', (U_of (pages a') B'). split_and!; try done.
  - mstep. unfold init_free_list. mstep. simpl offt.
    rewrite <- E. change (4 * KB) with 4096. unfold addr_of. simpl offt.
    f_equal; [f_equal; rewrite Hz; unfold GB; zdiv|rewrite Hz; lia|unfold GB; lia].
  - unfold addr_of. rewrite Eo. simpl. lia.
  - unfold addr_of. rewrite Eo. simpl. lia.
  - exists B', L'. split_and!; try done. intros h. apply U_of_lookup.
  - intros h. rewrite U_of_lookup, V'. unfold a0. rewrite view0. repeat case_decide; done || lia.
Qed.
End abs.

(** ** The specification as a transition system on allocated blocks *)
Inductive req :=
  | RAlloc (n : Z)
  | RFree (h : Z)
  | RDup (h : Z).

(** [N] is the number of frames.  An allocation may take any aligned place
    that is free, and may fail only when there is none. *)
Inductive spec_step (N : Z) : gmap Z block → req → gmap Z block → Prop :=
  | spec_alloc U n h :
      1 ≤ n ≤ MB → 0 ≤ h → h + bsz (get_ord n) ≤ N → (bsz (get_ord n) | h) →
      (∀ p, h ≤ p < h + bsz (get_ord n) → ¬ covered U p) →
      spec_step N U (RAlloc n) (<[h := mkBlock (get_ord n) 1 FUsed]> U)
  | spec_alloc_full U n :
      1 ≤ n ≤ MB →
      (∀ w, 0 ≤ w → (bsz (get_ord n) | w) → w + bsz (get_ord n) ≤ N →
            ¬ ∀ p, w ≤ p < w + bsz (get_ord n) → ¬ covered U p) →
      spec_step N U (RAlloc n) U
  | spec_free U h b :
      U !! h = Some b → spec_step N U (RFree h) (partial_alter (λ _, drop_ref b) h U)
  | spec_dup U h b :
      U !! h = Some b → spec_step N U (RDup h) (<[h := mkBlock (b_ord b) (b_ref b + 1) FCow]> U).

Inductive spec_steps (N : Z) : gmap Z block → list req → gmap Z block → Prop :=
  | spec_nil U : spec_steps N U [] U
  | spec_cons U r U1 rs U2 :
      spec_step N U r U1 → spec_steps N U1 rs U2 → spec_steps N U (r :: rs) U2.

(** Running the requests against the code; a block is named by its head frame
    and its length is the one the page table entry of its owner records. *)
Definition serve (r : req) : PM unit :=
  match r with
  | RAlloc n => let! _ := alloc n in ret tt
  | RFree h => let! a := get in let! p := page_at h in free (addr_of a h) (page_len p)
  | RDup h => let! a := get in let! p := page_at h in
      let! ok := dup (addr_of a h) (page_len p) in assert_ ok
  end.

(** A client may ask for a block of up to a megabyte, and may free or share
    the blocks it holds. *)
Definition allowed (U : gmap Z block) (r : req) : Prop :=
  match r with
  | RAlloc n => 1 ≤ n ≤ MB
  | RFree h | RDup h => is_Some (U !! h)
  end.

Section refine.
Lemma dup_abs a U h b :
  Abs a U → U !! h = Some b →
  ∃ a', dup (addr_of a h) (4096 * bsz (b_ord b)) a = Done (true, a') ∧ offt a' = offt a ∧
    size a' = size a ∧ Abs a' (<[h := mkBlock (b_ord b) (b_ref b + 1) FCow]> U).
Proof.
  intros (B & L & W & Hc & V) Hb. rewrite V in Hb.
  destruct (dup_run a B L h b W Hb) as (a' & E & W' & Eo & Es & V').
  exists a'. split_and!; try done. by eapply Abs_update.
Qed.

Lemma head_page a U h b :
  Abs a U → U !! h = Some b → ∃ p, page_at h a = Done (p, a) ∧ page_len p = 4096 * bsz (b_ord b).
Proof.
  intros (B & L & W & Hc & V) Hb. rewrite V in Hb.
  destruct (view_Some a B L ∅ W h b Hb) as (HB & q & Hq & Ho & _).
  exists q. split; [by apply page_at_run|]. pose proof (wf_in_range _ _ _ _ _ _ W HB).
  rewrite page_len_bsz by lia. by rewrite Ho.
Qed.

Lemma serve_step a U r :
  Abs a U → size a ≠ 0 → allowed U r →
  ∃ a' U', serve r a = Done (tt, a') ∧ Abs a' U' ∧ size a' = size a ∧ spec_step (npg a) U r U'.
Proof.
  intros HA Hs Hr. destruct r as [n|h|h]; simpl in Hr.
  - destruct (alloc_abs a U n HA Hr Hs)
      as [[E Hfull]|(a' & h & E & HA' & Eo & Es & H1 & H2 & H3 & H4 & H5)].
    + exists a, U. split_and!; try done; [simpl; by mrun E|by constructor].
    + eexists a', _. split_and!; try done; [simpl; by mrun E|by constructor].
  - destruct Hr as [b Hb]. destruct (head_page a U h b HA Hb) as (p & Ep & El).
    destruct (free_abs a U h b HA Hb) as (a' & E & Eo & Es & HA').
    eexists a', _. split_and!; try done; [|by constructor]. simpl. mstep. mrun Ep. by rewrite El.
  - destruct Hr as [b Hb]. destruct (head_page a U h b HA Hb) as (p & Ep & El).
    destruct (dup_abs a U h b HA Hb) as (a' & E & Eo & Es & HA').
    eexists a', _. split_and!; try done; [|by constructor]. simpl. mstep. mrun Ep. rewrite El. by mrun E.
Qed.
End refine.

(** C1: the refinement of the allocator: from a state that represents the
    allocated blocks [U], a request that its client may make is served without
    a panic and without an access outside of the page array, and the new state
    represents blocks reached by one step of the specification. *)
Theorem pm_refines (a : Allocator) (U : gmap Z block) (r : req) :
  Abs a U → size a ≠ 0 → allowed U r →
  ∃ a' U', serve r a = Done (tt, a') ∧ Abs a' U' ∧ size a' = size a ∧ spec_step (npg a) U r U'.
Proof. apply serve_step. Qed.

(** C2: what [alloc] promises: for every size up to a megabyte it returns
    either the address of an aligned block of the smallest sufficient order
    that shares no frame with a live block and is recorded with one reference,
    or, leaving the state alone, nothing, and then no aligned run of that many
    frames is free. *)
Theorem alloc_spec (a : Allocator) (U : gmap Z block) (n : Z) :
  Abs a U → 1 ≤ n ≤ MB → size a ≠ 0 →
  (alloc n a = Done (None, a) ∧
   ∀ w, 0 ≤ w → (bsz (get_ord n) | w) → w + bsz (get_ord n) ≤ npg a →
        ¬ ∀ p, w ≤ p < w + bsz (get_ord n) → ¬ covered U p) ∨
  ∃ a' h, alloc n a = Done (Some (addr_of a h), a') ∧
    Abs a' (<[h := mkBlock (get_ord n) 1 FUsed]> U) ∧ offt a' = offt a ∧ size a' = size a ∧
    0 ≤ h ∧ h + bsz (get_ord n) ≤ npg a ∧ (bsz (get_ord n) | h) ∧ U !! h = None ∧
    ∀ p, h ≤ p < h + bsz (get_ord n) → ¬ covered U p.
Proof. apply alloc_abs. Qed.

(** [free] of a live block with its length drops one reference; the last
    one gives the frames back and the lists are coalesced again. *)
Theorem free_spec (a : Allocator) (U : gmap Z block) (h : Z) (b : block) :
  Abs a U → U !! h = Some b →
  ∃ a', free (addr_of a h) (4096 * bsz (b_ord b)) a = Done (tt, a') ∧
    offt a' = offt a ∧ size a' = size a ∧
    Abs a' (if 1 <? b_ref b then <[h := mkBlock (b_ord b) (b_ref b - 1) (b_flags b)]> U
            else delete h U).
Proof.
  intros HA Hb. destruct (free_abs a U h b HA Hb) as (a' & E & Eo & Es & HA').
  exists a'. split_and!; try done. revert HA'. unfold drop_ref. by destruct (1 <? b_ref b).
Qed.

(** [free] panics, instead of corrupting the lists, on an address outside
    of memory, on a frame of no live block (a double free) and on a live block
    with the wrong length. *)
Theorem free_rejects (a : Allocator) (U : gmap Z block) (addr len : Z) :
  Abs a U →
  (allocator_lookup a addr = None ∨
   (∃ p, addr = addr_of a p ∧ 0 ≤ p < npg a ∧ ¬ covered U p) ∨
   (∃ h b, addr = addr_of a h ∧ U !! h = Some b ∧ len ≠ 4096 * bsz (b_ord b))) →
  free addr len a = Fault FPanic.
Proof.
  intros HA Hcase. unfold free, allocator_free. mstep.
  destruct Hcase as [->|[(p & -> & Hp & Hn)|(h & b & -> & Hb & Hlen)]]; [done|..].
  - rewrite (lookup_frame a U p HA Hp). mstep. destruct HA as (B & L & W & Hc & V).
    destruct (uncovered_idle a B L U W V p Hp Hn) as (q & Hq & Hr & Hm).
    mrun (page_at_run _ _ _ Hq). unfold page_assert_ok. by rewrite Hm, Hr.
  - destruct (head_page a U h b HA Hb) as (q & Eq & El). destruct HA as (B & L & W & Hc & V).
    pose proof (U_block a B L U W V h b Hb) as HB. rewrite (lookup_head a B L ∅ W h _ HB). mstep.
    mrun Eq. rewrite V in Hb. destruct (view_Some a B L ∅ W h b Hb) as (_ & q' & Hq & _ & Hr & _ & _ & Hm & Hpos).
    unfold page_at in Eq. rewrite Hq in Eq. injection Eq as <-.
    unfold page_assert_ok. rewrite Hm, El. simpl. mstep.
    rewrite (proj2 (Z.ltb_lt _ _)) by lia. mstep. by rewrite (proj2 (Z.eqb_neq _ _)).
Qed.

(** Two live blocks never share a frame, and each is aligned to its size
    inside memory with at least one reference. *)
Theorem live_apart (a : Allocator) (U : gmap Z block) (h1 h2 : Z) (b1 b2 : block) :
  Abs a U → U !! h1 = Some b1 → U !! h2 = Some b2 →
  (0 ≤ h1 ∧ h1 + bsz (b_ord b1) ≤ npg a ∧ (bsz (b_ord b1) | h1) ∧ 0 < b_ref b1) ∧
  (h1 ≠ h2 → h1 + bsz (b_ord b1) ≤ h2 ∨ h2 + bsz (b_ord b2) ≤ h1).
Proof.
  intros (B & L & W & Hc & V) H1 H2.
  pose proof (U_block a B L U W V h1 b1 H1) as B1. pose proof (U_block a B L U W V h2 b2 H2) as B2.
  pose proof (wf_tiles _ _ _ _ W) as T. rewrite V in H1. split.
  - destruct (t_in _ _ T _ _ B1). apply (view_Some a B L ∅ W) in H1 as (_ & q & _ & _ & _ & _ & _ & _ & Hpos).
    split_and!; try done. by apply (t_align _ _ T).
  - intros Hne. destruct (Z.lt_ge_cases h1 h2); [left|right]; eapply (t_disj _ _ T); eauto; lia.
Qed.

(** [init] gives every frame from the end of the kernel to the end of the
    gigabyte to the free lists, keeps the frames below it allocated, and
    establishes the invariant. *)
Theorem init_spec (k_begin k_end : Z) (a : Allocator) :
  0x40000000 ≤ k_end ≤ 0x80000000 →
  let first := (align_f k_end 4096 - 0x40000000) / 4096 in
  ∃ a' U, init k_begin k_end a = Done (tt, a') ∧ offt a' = 0x40000000 ∧ size a' = GB ∧
    k_end ≤ addr_of a' first < k_end + 4096 ∧ Abs a' U ∧
    ∀ h, U !! h = if decide (0 ≤ h < first) then Some (mkBlock 8 1 FNone) else None.
Proof. apply init_abs. Qed.

Lemma free_low_abs (a : Allocator) (U : gmap Z block) (k_begin : Z) :
  Abs a U → (4096 | offt a) → 0 ≤ offt a ≤ k_begin → k_begin < 2 ^ 64 →
  let m := (k_begin - offt a) / 4096 in
  (∀ h, 0 ≤ h < m → U !! h = Some (mkBlock 8 1 FNone)) →
  ∃ a', free_low k_begin a = Done (tt, a') ∧ offt a' = offt a ∧ size a' = size a ∧
    Abs a' (filter (λ hb, ¬ (0 ≤ hb.1 < m)) U).
Proof.
  intros (B & L & W & Hc & V) [z Hz] Ho Hk m HU.
  destruct (free_pages_run (Z.to_nat (m + 1)) a B L 0 m W Hc) as (a' & B' & L' & E & W' & Hc' & Eo' & Es' & V').
  { apply Z.div_pos; lia. }
  { lia. }
  { intros h Hh. by rewrite <- V, HU. }
  exists a'. split_and!; [|done|done|].
  - unfold free_low, init_free_list2. mstep. rewrite <- E.
    change (4 * KB) with (2 ^ 12). rewrite align_b_pow2 by lia. change (2 ^ 12) with 4096.
    assert (4096 * (k_begin / 4096) = m * 4096 + offt a) as -> by (subst m; rewrite Hz; zdiv).
    unfold addr_of. f_equal. f_equal. clearbody m. clear HU E. zdiv.
  - exists B', L'. split_and!; try done. intros h. rewrite V', map_lookup_filter, <- V.
    destruct (U !! h) as [b|] eqn:Eb; simpl; [|by case_decide].
    destruct (decide (0 ≤ h < m)) as [Hin|Hout].
    + rewrite option_guard_False by naive_solver. done.
    + rewrite option_guard_True by naive_solver. done.
Qed.

(** [free_low], called once the boot page tables are gone, gives back the
    frames below the kernel's first page, which [init] had left allocated. *)
Theorem free_low_spec (a : Allocator) (U : gmap Z block) (k_begin : Z) :
  Abs a U → (4096 | offt a) → 0 ≤ offt a ≤ k_begin → k_begin < 2 ^ 64 →
  let m := (k_begin - offt a) / 4096 in
  (∀ h, 0 ≤ h < m → U !! h = Some (mkBlock 8 1 FNone)) →
  ∃ a', free_low k_begin a = Done (tt, a') ∧
    Abs a' (filter (λ hb, ¬ (0 ≤ hb.1 < m)) U).
Proof.
  intros HA Ho Hk Hk2 m HU. destruct (free_low_abs a U k_begin HA Ho Hk Hk2 HU) as (a' & E & _ & _ & HA').
  by exists a'.
Qed.

(** Allocating a block and freeing it brings back exactly the blocks that
    were live before. *)
Theorem alloc_free_roundtrip (a a' : Allocator) (U : gmap Z block) (n p : Z) :
  Abs a U → 1 ≤ n ≤ MB → size a ≠ 0 → alloc n a = Done (Some p, a') →
  ∃ a'', free p (4096 * bsz (get_ord n)) a' = Done (tt, a'') ∧ Abs a'' U.
Proof.
  intros HA Hn Hs E. destruct (alloc_abs a U n HA Hn Hs) as [[E' _]|(a1 & h & E' & HA' & Eo & Es & H)].
  { rewrite E in E'. done. }
  rewrite E in E'. injection E' as -> ->. destruct H as (_ & _ & _ & Hnone & _).
  destruct (free_abs a1 _ h (mkBlock (get_ord n) 1 FUsed) HA') as (a2 & E2 & _ & _ & HA2);
    [by rewrite lookup_insert_eq|].
  exists a2. split; [by unfold addr_of in *; rewrite Eo in E2|].
  revert HA2. unfold drop_ref. simpl. intros HA2.
  replace U with (delete h (<[h := mkBlock (get_ord n) 1 FUsed]> U)); [done|].
  by apply delete_insert_id.
Qed.

(** Sharing: [dup] on a live block adds a reference and marks it
    copy-on-write; on a frame of no live block and on a wrong length it
    returns an error and changes nothing. *)
Theorem dup_spec (a : Allocator) (U : gmap Z block) (h len : Z) :
  Abs a U → 0 ≤ h < npg a → (¬ covered U h ∨ is_Some (U !! h)) →
  match U !! h with
  | Some b =>
      if len =? 4096 * bsz (b_ord b) then
        ∃ a', dup (addr_of a h) len a = Done (true, a') ∧
          Abs a' (<[h := mkBlock (b_ord b) (b_ref b + 1) FCow]> U)
      else dup (addr_of a h) len a = Done (false, a)
  | None => dup (addr_of a h) len a = Done (false, a)
  end.
Proof.
  intros HA Hh Hcase. destruct (U !! h) as [b|] eqn:Hb.
  - destruct (Z.eqb_spec len (4096 * bsz (b_ord b))) as [->|Hne].
    + destruct (dup_abs a U h b HA Hb) as (a' & E & _ & _ & HA'). eauto.
    + destruct (head_page a U h b HA Hb) as (q & Eq & El).
      unfold dup, allocator_dup. mstep. rewrite (lookup_frame a U h HA Hh). mrun Eq.
      destruct (ref_cnt q =? 0); [done|]. rewrite El. by rewrite (proj2 (Z.eqb_neq _ _)).
  - destruct Hcase as [Hn|[b Hb']]; [|done]. pose proof HA as (B & L & W & Hc & V).
    destruct (uncovered_idle a B L U W V h Hh Hn) as (q & Hq & Hr & _).
    unfold dup, allocator_dup. mstep. rewrite (lookup_frame a U h HA Hh).
    mrun (page_at_run _ _ _ Hq). by rewrite Hr.
Qed.

(** [cow_action] on a live block: the last holder of a copy-on-write block
    keeps it and is told to remap it, any other holder gives up its reference
    and is told to allocate a copy, and a block that is not shared is left
    alone; the callback runs on a state that represents the new blocks. *)
Theorem cow_action_spec (a : Allocator) (U : gmap Z block) (h : Z) (b : block) (f : CowAction → PM unit) :
  Abs a U → U !! h = Some b →
  let run := cow_action (addr_of a h) (4096 * bsz (b_ord b)) f a in
  (b_flags b ≠ FCow → run = Done (tt, a)) ∧
  (b_flags b = FCow → b_ref b = 1 →
   ∃ a', Abs a' (<[h := mkBlock (b_ord b) 1 FUsed]> U) ∧ run = f Remap a') ∧
  (b_flags b = FCow → b_ref b ≠ 1 →
   ∃ a', Abs a' (<[h := mkBlock (b_ord b) (b_ref b - 1) FCow]> U) ∧ run = f AllocNew a').
Proof.
  intros HA Hb run. destruct (head_page a U h b HA Hb) as (q & Eq & El).
  destruct HA as (B & L & W & Hc & V). pose proof (U_block a B L U W V h b Hb) as HB.
  rewrite V in Hb. destruct (view_Some a B L ∅ W h b Hb) as (_ & q' & Hq & Ho & Hr & Hf & _ & Hm & Hpos).
  unfold page_at in Eq. rewrite Hq in Eq. injection Eq as ->.
  assert (run = if negb (bool_decide (b_flags b = FCow)) then Done (tt, a)
          else if b_ref b =? 1 then f Remap (set_pages a (<[h := with_flags FUsed q]> (pages a)))
          else f AllocNew (set_pages a (<[h := with_ref (b_ref b - 1) q]> (pages a)))) as Erun.
  { unfold run, cow_action. mstep. rewrite (lookup_head a B L ∅ W h _ HB).
    mrun (page_at_run _ _ _ Hq). rewrite Hf, El, Z.eqb_refl, Hr. simpl.
    destruct (negb _); [done|]. destruct (b_ref b =? 1); mrun (upd_page_run _ _ _ _ Hq); [done|simpl; by rewrite Hr]. }
  rewrite Erun. split_and!; [intros; by rewrite bool_decide_eq_false_2|intros Ef E1..];
    rewrite bool_decide_eq_true_2 by done.
  - rewrite E1. eexists. split; [|done].
    destruct (set_head a B L ∅ h _ q (with_flags FUsed q) W HB Hq) as [W' V']; try done; [simpl; lia..|].
    eapply Abs_update; try done. intros g. rewrite V'. simpl. by rewrite Hr, E1.
  - rewrite (proj2 (Z.eqb_neq _ _)) by done. eexists. split; [|done].
    destruct (set_head a B L ∅ h _ q (with_ref (b_ref b - 1) q) W HB Hq) as [W' V']; try done; [simpl; try lia..|].
    { simpl. by rewrite Hf, Ef. }
    eapply Abs_update; try done. intros g. rewrite V'. simpl. by rewrite Hf, Ef.
Qed.

(** The order [alloc] picks is the smallest whose block holds the request
    (order [o] is [4096 << (8 - o)] bytes), for every size it accepts; a size of
    zero or of more than a megabyte is refused without a change. *)
Theorem get_ord_minimal (n : Z) (a : Allocator) :
  (1 ≤ n ≤ MB →
   (get_ord n ≤ 8)%nat ∧ n ≤ 4096 * bsz (get_ord n) ∧
   ∀ o, (o ≤ 8)%nat → n ≤ 4096 * bsz o → (o ≤ get_ord n)%nat) ∧
  (n = 0 ∨ MB < n → alloc n a = Done (None, a)).
Proof.
  split.
  - intros Hn. destruct (get_ord_spec n Hn) as (k & -> & Hk & Hle & Hmin).
    unfold bsz. replace (8 - Z.of_nat (Z.to_nat (8 - k))) with k by lia. split_and!; [lia|done|].
    intros o Ho Hno. destruct (decide (o ≤ Z.to_nat (8 - k))%nat) as [|Hgt]; [done|]. exfalso.
    assert (2 ^ (8 - Z.of_nat o) ≤ 2 ^ (k - 1)) by (apply Z.pow_le_mono_r; lia). lia.
  - intros Hn. unfold alloc, allocator_alloc, allocator__alloc, bind, get, ret.
    destruct Hn as [->|Hn]; [by rewrite orb_true_r|]. by rewrite (proj2 (Z.ltb_lt _ _) Hn).
Qed.

(** ** Witnesses: the state [init] leaves when the kernel ends in its first page *)
Section witnesses.
Lemma booted :
  ∃ a U, Abs a U ∧ size a = GB ∧ npg a = 262144 ∧ offt a = 0x40000000 ∧
    U !! 0 = Some (mkBlock 8 1 FNone) ∧ ∀ p, covered U p → p = 0.
Proof.
  destruct (init_abs 0x40000000 0x40001000 allocator_new) as (a & U & _ & Eo & Es & _ & HA & HU); [lia|].
  change ((align_f 0x40001000 4096 - 0x40000000) / 4096) with 1 in HU.
  exists a, U. split; [done|]. split; [done|]. split; [unfold npg; by rewrite Es|].
  split; [done|]. split.
  - rewrite HU. by rewrite decide_True by lia.
  - intros p (h & b & Hb & Hp). rewrite HU in Hb. case_decide; [|done]. injection Hb as <-.
    change (bsz (b_ord (mkBlock 8 1 FNone))) with 1 in Hp. lia.
Qed.
End witnesses.

Lemma pm_refines_witness :
  ∃ a U a' U', Abs a U ∧ serve (RDup 0) a = Done (tt, a') ∧ Abs a' U'.
Proof.
  destruct booted as (a & U & HA & Hs & _ & _ & H0 & _).
  destruct (pm_refines a U (RDup 0) HA) as (a' & U' & E & HA' & _).
  - by rewrite Hs.
  - by exists (mkBlock 8 1 FNone).
  - by exists a, U, a', U'.
Defined.

Lemma alloc_spec_witness :
  ∃ a U a' h, Abs a U ∧ alloc 8192 a = Done (Some (addr_of a h), a') ∧
    Abs a' (<[h := mkBlock 7 1 FUsed]> U).
Proof.
  destruct booted as (a & U & HA & Hs & HN & _ & _ & Hc).
  destruct (alloc_spec a U 8192 HA) as [[_ Hfull]|(a' & h & E & HA' & _)].
  - done.
  - by rewrite Hs.
  - exfalso. change (bsz (get_ord 8192)) with 2 in Hfull.
    apply (Hfull 2); [lia|by exists 1|lia|]. intros p Hp Hin%Hc. lia.
  - by exists a, U, a', h.
Defined.

Lemma free_spec_witness :
  ∃ a U a', Abs a U ∧ U !! 0 = Some (mkBlock 8 1 FNone) ∧
    free (addr_of a 0) 4096 a = Done (tt, a') ∧ Abs a' (delete 0 U).
Proof.
  destruct booted as (a & U & HA & Hs & HN & _ & H0 & _).
  destruct (free_spec a U 0 _ HA H0) as (a' & E & _ & _ & HA'). by exists a, U, a'.
Defined.

Lemma free_rejects_witness :
  ∃ a U, Abs a U ∧ ¬ covered U 5 ∧ free (addr_of a 5) 4096 a = Fault FPanic.
Proof.
  destruct booted as (a & U & HA & Hs & HN & _ & _ & Hc).
  assert (¬ covered U 5) as Hn by (by intros ?%Hc).
  exists a, U. split_and!; [done..|]. apply (free_rejects a U (addr_of a 5) 4096 HA).
  right. left. exists 5. split_and!; done || lia.
Defined.

Lemma live_apart_witness :
  ∃ a U h b, Abs a U ∧ U !! 0 = Some (mkBlock 8 1 FNone) ∧ U !! h = Some b ∧ h ≠ 0 ∧ 0 + bsz 8 ≤ h.
Proof.
  destruct booted as (a & U & HA & Hs & HN & _ & H0 & Hc).
  destruct (alloc_abs a U 4096 HA) as [[_ Hfull]|(a' & h & E & HA' & _ & _ & Hh & _ & _ & Hnone & _)].
  - done.
  - by rewrite Hs.
  - exfalso. apply (Hfull 1); [done|by exists 1|by rewrite HN|].
    change (bsz (get_ord 4096)) with 1. intros p Hp Hin%Hc. lia.
  - assert (h ≠ 0) as Hne by congruence.
    assert (<[h := mkBlock 8 1 FUsed]> U !! 0 = Some (mkBlock 8 1 FNone)) as H0'
      by (by rewrite lookup_insert_ne).
    exists a', (<[h := mkBlock 8 1 FUsed]> U), h, (mkBlock 8 1 FUsed).
    split_and!; try done; [by rewrite lookup_insert_eq|].
    destruct (live_apart a' _ 0 h _ _ HA' H0' (lookup_insert_eq _ _ _)) as [_ Hap].
    change (bsz 8) with 1 in *. simpl in Hap. lia.
Defined.

Lemma init_spec_witness :
  ∃ a' U, init 0x40000000 0x40001000 allocator_new = Done (tt, a') ∧ Abs a' U ∧ U !! 1 = None.
Proof.
  destruct (init_spec 0x40000000 0x40001000 allocator_new) as (a & U & E & _ & _ & _ & HA & HU); [lia|].
  change ((align_f 0x40001000 4096 - 0x40000000) / 4096) with 1 in HU.
  exists a, U. split; [exact E|]. split; [exact HA|]. rewrite HU. by rewrite decide_False by lia.
Defined.

Lemma free_low_spec_witness :
  ∃ a U a' U', Abs a U ∧ U !! 0 = Some (mkBlock 8 1 FNone) ∧
    free_low 0x40001800 a = Done (tt, a') ∧ Abs a' U' ∧ U' !! 0 = None.
Proof.
  destruct booted as (a & U & HA & Hs & HN & Ho & H0 & Hc).
  assert ((0x40001800 - offt a) / 4096 = 1) as E1 by (by rewrite Ho).
  destruct (free_low_spec a U 0x40001800 HA) as (a' & E & HA').
  - rewrite Ho. by exists 0x40000.
  - lia.
  - lia.
  - rewrite E1. intros h Hh. by replace h with 0 by lia.
  - eexists a, U, a', _. split_and!; try done. rewrite E1. apply map_lookup_filter_None.
    right. intros b _ Hn. apply Hn. simpl. lia.
Defined.

Lemma alloc_free_roundtrip_witness :
  ∃ a U a' p, Abs a U ∧ alloc 8192 a = Done (Some p, a') ∧
    ∃ a'', free p 8192 a' = Done (tt, a'') ∧ Abs a'' U.
Proof.
  destruct booted as (a & U & HA & Hs & HN & _ & _ & Hc).
  destruct (alloc_abs a U 8192 HA) as [[_ Hfull]|(a' & h & E & _)].
  - done.
  - by rewrite Hs.
  - exfalso. change (bsz (get_ord 8192)) with 2 in Hfull.
    apply (Hfull 2); [lia|by exists 1|lia|]. intros p Hp Hin%Hc. lia.
  - exists a, U, a', (addr_of a h). split_and!; [done..|].
    apply (alloc_free_roundtrip a a' U 8192 (addr_of a h) HA); [done|by rewrite Hs|done].
Defined.

Lemma dup_spec_witness :
  ∃ a U a', Abs a U ∧ dup (addr_of a 0) 4096 a = Done (true, a') ∧
    Abs a' (<[0 := mkBlock 8 2 FCow]> U).
Proof.
  destruct booted as (a & U & HA & Hs & HN & _ & H0 & _).
  assert (0 ≤ 0 < npg a) as Hin by (rewrite HN; lia).
  pose proof (dup_spec a U 0 4096 HA Hin (or_intror (ex_intro _ _ H0))) as H. rewrite H0 in H.
  simpl in H. destruct H as (a' & E & HA'). by exists a, U, a'.
Defined.

Lemma cow_action_spec_witness :
  ∃ a U a', Abs a U ∧ U !! 0 = Some (mkBlock 8 2 FCow) ∧
    cow_action (addr_of a 0) 4096 (λ _, ret tt) a = Done (tt, a') ∧
    Abs a' (<[0 := mkBlock 8 1 FCow]> U).
Proof.
  destruct booted as (a & U & HA & Hs & HN & _ & H0 & _).
  destruct (dup_abs a U 0 _ HA H0) as (a1 & _ & _ & _ & HA1). simpl in HA1.
  set (U1 := <[0 := mkBlock 8 2 FCow]> U) in *.
  assert (U1 !! 0 = Some (mkBlock 8 2 FCow)) as H1 by (unfold U1; by rewrite lookup_insert_eq).
  destruct (cow_action_spec a1 U1 0 _ (λ _, ret tt) HA1 H1) as (_ & _ & H).
  destruct H as (a2 & HA2 & E); [done|done|]. by exists a1, U1, a2.
Defined.

Lemma get_ord_minimal_witness : get_ord 10000 = 6%nat ∧ 10000 ≤ 4096 * bsz (get_ord 10000).
Proof. split; [done|]. apply (proj1 (get_ord_minimal 10000 allocator_new)). done. Defined.
