(* ===== verification/Virtio.v ===== *)
(** * [virtio.rs]: the split virtqueue of the MMIO transport, as code

    [Q] is the driver's half of a queue of [N] descriptors: the descriptor
    table, the two rings it shares with the device, the set of descriptors in
    use and a word of driver data per descriptor.  [submit] is the sequence
    every 9p request runs ([p9.rs]).  The invariant and the interleaving with
    the device are in [VirtioInv]. *)
From S2P Require Import Prelude Stuff.

Local Open Scope Z_scope.

(** ** Data *)
Record VqDesc := mkDesc { d_addr : Z; d_len : Z; d_flags : Z; d_next : Z }.

Definition F_NEXT : Z := 1.
Definition F_WRITE : Z := 2.
Definition F_INDIRECT : Z := 4.

Definition set_next (i : Z) (d : VqDesc) : VqDesc :=
  mkDesc (d_addr d) (d_len d) (Z.lor (d_flags d) F_NEXT) i.
Definition get_next (d : VqDesc) : option Z :=
  if Z.land (d_flags d) F_NEXT =? 0 then None else Some (d_next d).
Definition set_writable (d : VqDesc) : VqDesc :=
  mkDesc (d_addr d) (d_len d) (Z.lor (d_flags d) F_WRITE) (d_next d).
Definition set_len (l : Z) (d : VqDesc) : VqDesc := mkDesc (d_addr d) l (d_flags d) (d_next d).
(** [set_data] after [vm::v2p(data).unwrap()] gave the physical address. *)
Definition set_addr (p : Z) (d : VqDesc) : VqDesc := mkDesc p (d_len d) (d_flags d) (d_next d).
Definition desc_zeroed : VqDesc := mkDesc 0 0 0 0.

Record VqAvail := mkAvail { av_flags : Z; av_idx : Z; av_ring : list Z; used_event : Z }.
Record VqUsedElem := mkElem { ue_id : Z; ue_len : Z }.
Record VqUsed := mkUsed { us_flags : Z; us_idx : Z; us_ring : list VqUsedElem; avail_event : Z }.

Definition avail_zeroed (n : nat) : VqAvail := mkAvail 0 0 (replicate n 0) 0.
Definition used_zeroed (n : nat) : VqUsed := mkUsed 0 0 (replicate n (mkElem 0 0)) 0.

Record Q := mkQ {
  desc : list VqDesc;
  avail : VqAvail;
  used : VqUsed;
  desc_bs : BitSet128.t;
  desc_data : list Z;
  used_pos : Z;
}.

(** [x[i]] and [x[i] = v] on an array, with the bounds check. *)
Definition idx_get {A} (l : list A) (i : Z) : outcome A :=
  match l !! Z.to_nat i with Some x => Done x | None => Fault FPanic end.
Definition idx_set {A} (l : list A) (i : Z) (x : A) : outcome (list A) :=
  match l !! Z.to_nat i with Some _ => Done (<[Z.to_nat i := x]> l) | None => Fault FPanic end.

Section queue.
Context (N : Z).

Definition q_new : outcome Q :=
  let? bs := BitSet128.new (wrap 8 N) in
  let n := Z.to_nat N in
  Done (mkQ (replicate n desc_zeroed) (avail_zeroed n) (used_zeroed n) bs (replicate n 0) 0).

Definition QM := M Q.

Definition get_desc (i : Z) : QM VqDesc := λ q, let? d := idx_get (desc q) i in Done (d, q).

(** [get_desc_mut(i)] and a chain of setters on it. *)
Definition upd_desc (i : Z) (f : VqDesc → VqDesc) : QM unit := λ q,
  let? d := idx_get (desc q) i in
  let? ds := idx_set (desc q) i (f d) in
  Done (tt, mkQ ds (avail q) (used q) (desc_bs q) (desc_data q) (used_pos q)).

Definition set_desc_data (i data : Z) : QM unit := λ q,
  let? dd := idx_set (desc_data q) i data in
  Done (tt, mkQ (desc q) (avail q) (used q) (desc_bs q) dd (used_pos q)).

Definition bs_upd (f : BitSet128.t → outcome BitSet128.t) : QM unit := λ q,
  let? bs := f (desc_bs q) in
  Done (tt, mkQ (desc q) (avail q) (used q) bs (desc_data q) (used_pos q)).

Definition alloc_desc : QM (option Z) :=
  let! q := get in
  let! r := lift (BitSet128.first_clr (desc_bs q)) in
  match r with
  | Some f =>
      bs_upd (λ bs, BitSet128.set bs f) ;;;
      set_desc_data f 0 ;;;
      ret (Some f)
  | None => ret None
  end.

(** The [while let Some(nidx) = d.get_next()] loop of [free_desc], entered
    with [i]; the assertion stops it after [N] turns. *)
Fixpoint free_desc_loop (fuel : nat) (i : Z) (d : VqDesc) : QM unit :=
  match fuel with
  | O => fail FFuel
  | S fuel' =>
      match get_next d with
      | None => ret tt
      | Some nidx =>
          assert_ (i <? N) ;;;
          let! q := get in
          let! b := lift (BitSet128.tst (desc_bs q) (wrap 8 nidx)) in
          assert_ b ;;;
          bs_upd (λ bs, BitSet128.clr bs (wrap 8 nidx)) ;;;
          let! d' := get_desc nidx in
          free_desc_loop fuel' (i + 1) d'
      end
  end.

Definition free_desc (hidx : Z) : QM unit :=
  bs_upd (λ bs, BitSet128.clr bs (wrap 8 hidx)) ;;;
  let! d := get_desc hidx in
  free_desc_loop (S (Z.to_nat N)) 1 d.

Definition pop_used : QM unit :=
  let! q := get in
  let! u := lift (idx_get (us_ring (used q)) (used_pos q mod N)) in
  free_desc (ue_id u) ;;;
  modify (λ q, mkQ (desc q) (avail q) (used q) (desc_bs q) (desc_data q) (wadd 16 (used_pos q) 1)).

Definition peek_used : QM (option (VqDesc * Z)) :=
  let! q := get in
  if used_pos q =? us_idx (used q) then ret None
  else
    let! u := lift (idx_get (us_ring (used q)) (used_pos q mod N)) in
    let! data := lift (idx_get (desc_data q) (ue_id u mod N)) in
    let! d := get_desc (ue_id u) in
    ret (Some (d, data)).

Fixpoint get_desc_tail_loop (fuel : nat) (i tail : Z) (d : VqDesc) : QM Z :=
  match fuel with
  | O => fail FFuel
  | S fuel' =>
      match get_next d with
      | None => ret tail
      | Some nidx =>
          assert_ (i <? N) ;;;
          let! d' := get_desc nidx in
          get_desc_tail_loop fuel' (i + 1) nidx d'
      end
  end.

Definition get_desc_tail (hidx : Z) : QM Z :=
  let! d := get_desc hidx in get_desc_tail_loop (S (Z.to_nat N)) 1 hidx d.

Definition add_avail (head : Z) : QM Z := λ q,
  let used_idx := us_idx (used q) in
  let av := avail q in
  let? ring := idx_set (av_ring av) (av_idx av mod N) head in
  Done (used_idx,
    mkQ (desc q) (mkAvail (av_flags av) (wadd 16 (av_idx av) 1) ring (used_event av))
        (used q) (desc_bs q) (desc_data q) (used_pos q)).

Definition q_len : Z := wrap 32 N.

(** [(p & 0xffff_ffff) as u32, (p >> 32) as u32] *)
Definition area_paddr (p : Z) : Z * Z :=
  (wrap 32 (Z.land p 0xffffffff), wrap 32 (Z.shiftr p 32)).

(** What each operation of [p9.rs] does to hand a request of [tlen] bytes and
    room for [rlen] bytes to the device, up to the doorbell: two descriptors,
    chained, the second one writable, then the head on the available ring.
    [set_desc_data] is skipped by the two requests made before interrupts
    are on ([data = None]). *)
Definition submit (paddr tlen rlen : Z) (data : option Z) : QM Z :=
  let! r1 := alloc_desc in let! d1 := unwrap r1 in
  let! r2 := alloc_desc in let! d2 := unwrap r2 in
  upd_desc d1 (λ d, set_len tlen (set_addr paddr (set_next d2 d))) ;;;
  upd_desc d2 (λ d, set_addr paddr (set_len rlen (set_writable d))) ;;;
  match data with Some w => set_desc_data d1 w | None => ret tt end ;;;
  let! _ := add_avail d1 in
  ret d1.

(** The loop of [p9::irq_handle]: take every completion, and give the words
    that [wakeup] is called with. *)
Fixpoint irq_drain (fuel : nat) : QM (list Z) :=
  let! r := peek_used in
  match r with
  | None => ret []
  | Some (_, data) =>
      match fuel with
      | O => fail FFuel
      | S fuel' =>
          pop_used ;;;
          let! ws := irq_drain fuel' in
          ret (if data =? 0 then ws else data :: ws)
      end
  end.
End queue.

(** ** Registers

    The device behind the register file is not part of the program: [Mmio]
    is what the driver may do with it. *)
Class Mmio (R : Type) := {
  reg_read : R → Z → Z;
  reg_write : R → Z → Z → R;
}.

Definition MAGICVALUE : Z := 0x000.
Definition VERSION : Z := 0x004.
Definition DEVICEID : Z := 0x008.
Definition DEVICEFEATURESSEL : Z := 0x014.
Definition DRIVERFEATURES : Z := 0x020.
Definition DRIVERFEATURESSEL : Z := 0x024.
Definition QUEUESEL : Z := 0x030.
Definition QUEUENUMMAX : Z := 0x034.
Definition QUEUENUM : Z := 0x038.
Definition QUEUEREADY : Z := 0x044.
Definition QUEUENOTIFY : Z := 0x050.
Definition INTERRUPTSTATUS : Z := 0x060.
Definition INTERRUPTACK : Z := 0x064.
Definition STATUS : Z := 0x070.
Definition QUEUEDESCLOW : Z := 0x080.
Definition QUEUEDESCHIGH : Z := 0x084.
Definition QUEUEDRIVERLOW : Z := 0x090.
Definition QUEUEDRIVERHIGH : Z := 0x094.
Definition QUEUEDEVICELOW : Z := 0x0a0.
Definition QUEUEDEVICEHIGH : Z := 0x0a4.

Definition ACKNOWLEDGE : Z := 1.
Definition DRIVER : Z := 2.
Definition FEATURES_OK : Z := 8.
Definition DRIVER_OK : Z := 4.

Section regs.
Context {R : Type} `{Mmio R}.

Definition wr (off v : Z) : M R unit := modify (λ r, reg_write r off v).
Definition rd (off : Z) : M R Z := gets (λ r, reg_read r off).

Definition select_q (pos : Z) : M R unit := wr QUEUESEL pos.
Definition get_qlen_max (qpos : Z) : M R Z := select_q qpos ;;; rd QUEUENUMMAX.
Definition set_ready (qpos : Z) : M R unit := select_q qpos ;;; wr QUEUEREADY 1.
Definition notify_q (qpos : Z) : M R unit := select_q qpos ;;; wr QUEUENOTIFY qpos.
Definition get_irq_status : M R Z := rd INTERRUPTSTATUS.
Definition irq_ack (v : Z) : M R unit := wr INTERRUPTACK v.
Definition set_desc_area (p : Z * Z) : M R unit := wr QUEUEDESCLOW p.1 ;;; wr QUEUEDESCHIGH p.2.
Definition set_used_area (p : Z * Z) : M R unit := wr QUEUEDEVICELOW p.1 ;;; wr QUEUEDEVICEHIGH p.2.
Definition set_avail_area (p : Z * Z) : M R unit := wr QUEUEDRIVERLOW p.1 ;;; wr QUEUEDRIVERHIGH p.2.
Definition set_q_len (qpos len : Z) : M R unit :=
  select_q qpos ;;;
  let! qlen_max := get_qlen_max qpos in
  assert_ (len <=? qlen_max) ;;;
  wr QUEUENUM len.

Definition init_dev_common (features : Z) : M R unit :=
  wr STATUS 0 ;;;
  let! status := rd STATUS in
  wr STATUS (Z.lor status ACKNOWLEDGE) ;;;
  wr STATUS (Z.lor status DRIVER) ;;;
  wr DEVICEFEATURESSEL 0 ;;;
  wr DRIVERFEATURESSEL 0 ;;;
  wr DRIVERFEATURES features ;;;
  let! status := rd STATUS in
  wr STATUS (Z.lor status FEATURES_OK) ;;;
  let! status := rd STATUS in
  if Z.land status FEATURES_OK =? 0 then panic else ret tt.
End regs.
