(* ===== verification/VirtioInv.v ===== *)
(** * The virtqueue under every interleaving of driver and device

    The driver submits requests and takes completions; the device fetches
    heads from the available ring and completes them in any order.  [qinv]
    says who owns each descriptor pair; [qstep] interleaves the four actions. *)
From S2P Require Import Prelude Stuff Virtio.

Local Open Scope Z_scope.

(** ** Rings indexed by 16-bit counters *)
Definition ring_ok {A} (N : Z) (ring : list A) (pos : Z) (l : list A) : Prop :=
  ∀ j x, l !! j = Some x → ring !! Z.to_nat ((pos + Z.of_nat j) mod N) = Some x.

Section ring.
Context {A : Type} (N : Z) (HN : 0 < N) (HD : (N | 65536)).
Implicit Types (ring l : list A).

Lemma wrap16_mod z : wrap 16 z mod N = z mod N.
Proof using HN HD.
  unfold wrap. change (2 ^ 16) with 65536. symmetry. apply Znumtheory.Zmod_div_mod; [done|lia|done].
Qed.

Lemma ring_pos_mod ring p p' l : p mod N = p' mod N → ring_ok N ring p l → ring_ok N ring p' l.
Proof using HN.
  intros E H j x Hj. rewrite <- (H j x Hj). do 2 f_equal.
  rewrite Zplus_mod, <- E, <- Zplus_mod. done.
Qed.

Lemma ring_pop ring p x l : ring_ok N ring p (x :: l) → ring_ok N ring (wadd 16 p 1) l.
Proof using HN HD.
  intros H. apply (ring_pos_mod ring (p + 1)); [unfold wadd; by rewrite wrap16_mod|].
  intros j y Hj. rewrite <- (H (S j) y Hj). do 3 f_equal. lia.
Qed.

Lemma ring_head ring p x l : ring_ok N ring p (x :: l) → ring !! Z.to_nat (p mod N) = Some x.
Proof using Type. intros H. rewrite <- (H 0%nat x eq_refl). do 3 f_equal. lia. Qed.

Lemma ring_push ring p k x l :
  ring_ok N ring p l → length ring = Z.to_nat N → Z.of_nat (length l) < N →
  k = (p + Z.of_nat (length l)) mod N →
  ring_ok N (<[Z.to_nat k := x]> ring) p (l ++ [x]).
Proof using HN.
  intros H Hlen Hlt -> j y Hj. pose proof (Z.mod_pos_bound (p + Z.of_nat (length l)) N HN).
  destruct (decide (j < length l)%nat) as [Hj'|Hj'].
  - rewrite lookup_app_l in Hj by done. rewrite list_lookup_insert_ne; [by apply H|].
    intros E. apply Z2Nat.inj in E; [|lia|apply Z.mod_pos_bound; lia].
    assert ((Z.of_nat (length l) - Z.of_nat j) mod N = 0) as E0.
    { replace (Z.of_nat (length l) - Z.of_nat j)
        with ((p + Z.of_nat (length l)) - (p + Z.of_nat j)) by lia.
      rewrite Zminus_mod, E, Z.sub_diag. apply Z.mod_0_l. lia. }
    rewrite Z.mod_small in E0 by lia. lia.
  - rewrite lookup_app_r in Hj by lia. destruct (j - length l)%nat as [|m] eqn:Em; [|done].
    injection Hj as <-. replace j with (length l) by lia.
    rewrite list_lookup_insert_eq; [done|]. lia.
Qed.

Lemma ring_nil ring p : ring_ok N ring p [].
Proof. by intros j x. Qed.
End ring.

(** ** Who owns what

    [W i] is the word the submitter of head [i] stored with it.  [A]: heads on the available ring the device has not fetched; [I]: heads the
    device holds; [V]: heads on the used ring the driver has not taken. *)
Section inv.
Context (N : Z).

Record qinv (q : Q) (dev_pos : Z) (A I V : list Z) (W : Z → Z) : Prop := {
  qi_desc : length (desc q) = Z.to_nat N;
  qi_data : length (desc_data q) = Z.to_nat N;
  qi_aring : length (av_ring (avail q)) = Z.to_nat N;
  qi_uring : length (us_ring (used q)) = Z.to_nat N;
  qi_bs : BitSet128.wf (desc_bs q) ∧ BitSet128.len (desc_bs q) = N;
  (** descriptors are taken and returned in pairs *)
  qi_pair : ∀ i, 0 ≤ i < N → Z.even i = true →
    BitSet128.mem (desc_bs q) (i + 1) = BitSet128.mem (desc_bs q) i;
  (** an even descriptor only ever chains to its neighbour, an odd one never chains *)
  qi_even : ∀ i d, 0 ≤ i < N → Z.even i = true → desc q !! Z.to_nat i = Some d →
    (d_flags d = 0 ∧ BitSet128.mem (desc_bs q) i = false) ∨ (d_flags d = F_NEXT ∧ d_next d = i + 1);
  qi_odd : ∀ i d, 0 ≤ i < N → Z.even i = false → desc q !! Z.to_nat i = Some d →
    d_flags d = 0 ∨ d_flags d = F_WRITE;
  qi_nodup : NoDup (A ++ I ++ V);
  qi_own : ∀ i, i ∈ A ++ I ++ V ↔ 0 ≤ i < N ∧ Z.even i = true ∧ BitSet128.mem (desc_bs q) i = true;
  (** the driver's word of each head in flight is the one its owner left there *)
  qi_word : ∀ i, i ∈ A ++ I ++ V → desc_data q !! Z.to_nat i = Some (W i);
  qi_avail : ring_ok N (av_ring (avail q)) dev_pos A;
  qi_apos : av_idx (avail q) = wrap 16 (dev_pos + Z.of_nat (length A));
  qi_used : ring_ok N (ue_id <$> us_ring (used q)) (used_pos q) V;
  qi_upos : us_idx (used q) = wrap 16 (used_pos q + Z.of_nat (length V));
  qi_upos_range : 0 ≤ used_pos q < 65536;
  qi_dpos_range : 0 ≤ dev_pos < 65536;
}.

Context (HN : 2 ≤ N ≤ 128) (HD : (N | 65536)) (H2 : (2 | N)).

Lemma even_lt i : i < N → Z.even i = true → i + 1 < N.
Proof using H2. intros Hi He. clear HN HD. destruct H2 as [m ->]. apply Z.even_spec in He as [k ->]. lia. Qed.

(** At most half of the ring is ever in use. *)
Lemma heads_bound (l : list Z) :
  NoDup l → (∀ i, i ∈ l → 0 ≤ i < N ∧ Z.even i = true) → 2 * Z.of_nat (length l) ≤ N.
Proof using HN H2.
  intros Hnd Hin. destruct H2 as [m Hm].
  assert (l ⊆+ (λ k, 2 * k) <$> seqZ 0 m) as Hsub.
  { apply NoDup_submseteq; [done|]. intros i Hi. destruct (Hin i Hi) as [Hr He].
    apply Z.even_spec in He as [k ->]. apply list_elem_of_fmap. exists k. split; [done|].
    apply elem_of_seqZ. lia. }
  apply submseteq_length in Hsub. rewrite length_fmap, length_seqZ in Hsub. lia.
Qed.

Lemma qinv_bound q p A I V W :
  qinv q p A I V W → 2 * Z.of_nat (length A + length I + length V) ≤ N.
Proof using HN H2.
  intros Q0. rewrite <- Nat.add_assoc, <- !length_app.
  apply heads_bound; [by eapply qi_nodup|]. intros i Hi. apply (qi_own _ _ _ _ _ _ Q0) in Hi. naive_solver.
Qed.

(** ** Allocating a pair *)
Definition with_bs (bs : BitSet128.t) (dd : list Z) (q : Q) : Q :=
  mkQ (desc q) (avail q) (used q) bs dd (used_pos q).

Lemma idx_set_ok {X} (l : list X) i x :
  0 ≤ i < Z.of_nat (length l) → idx_set l i x = Done (<[Z.to_nat i := x]> l).
Proof using Type.
  intros Hi. unfold idx_set. destruct (lookup_lt_is_Some_2 l (Z.to_nat i)) as [y ->]; [lia|done].
Qed.

Lemma idx_get_ok {X} (l : list X) i x : l !! Z.to_nat i = Some x → idx_get l i = Done x.
Proof using Type. intros E. unfold idx_get. by rewrite E. Qed.

Lemma alloc_desc_run q j :
  BitSet128.wf (desc_bs q) → BitSet128.len (desc_bs q) = N → length (desc_data q) = Z.to_nat N →
  0 ≤ j < N → BitSet128.mem (desc_bs q) j = false →
  (∀ m, 0 ≤ m < j → BitSet128.mem (desc_bs q) m = true) →
  ∃ bs', alloc_desc q = Done (Some j, with_bs bs' (<[Z.to_nat j := 0]> (desc_data q)) q) ∧
    BitSet128.wf bs' ∧ BitSet128.len bs' = N ∧
    ∀ k, BitSet128.mem bs' k = bool_decide (k = j) || BitSet128.mem (desc_bs q) k.
Proof using HN.
  intros Hwf Hlen Hdd Hj Hmj Hlow. destruct (BitSet128.first_clr_ok _ Hwf) as (r & Er & Hr).
  destruct r as [j'|]; [|exfalso; rewrite Hr in Hmj by lia; done].
  assert (j' = j) as ->.
  { destruct Hr as (Hj' & Hm' & Hlow'). destruct (Z.lt_trichotomy j j') as [Hlt|[->|Hgt]]; [|done|].
    - rewrite Hlow' in Hmj by lia. done.
    - rewrite Hlow in Hm' by lia. done. }
  destruct (BitSet128.set_ok _ Hwf j) as (bs' & Es & Hwf' & Hl' & Hm'); [lia|].
  exists bs'. split; [|split_and!; [done|congruence|done]].
  unfold alloc_desc, bs_upd, set_desc_data, lift, bind, get, ret. rewrite Er, Es. simpl.
  by rewrite idx_set_ok by lia.
Qed.

Lemma alloc_desc_full q :
  BitSet128.wf (desc_bs q) → BitSet128.len (desc_bs q) = N →
  (∀ m, 0 ≤ m < N → BitSet128.mem (desc_bs q) m = true) → alloc_desc q = Done (None, q).
Proof using HN.
  intros Hwf Hlen Hall. destruct (BitSet128.first_clr_ok _ Hwf) as (r & Er & Hr).
  unfold alloc_desc, lift, bind, get. rewrite Er.
  destruct r as [j|]; [|done]. destruct Hr as (Hj & Hm & _). rewrite Hall in Hm by lia. done.
Qed.

(** The lowest free descriptor of a paired queue is even, and its neighbour is free. *)
Lemma lowest_even q p A I V W j :
  qinv q p A I V W → 0 ≤ j < N → BitSet128.mem (desc_bs q) j = false →
  (∀ m, 0 ≤ m < j → BitSet128.mem (desc_bs q) m = true) →
  Z.even j = true ∧ j + 1 < N ∧ BitSet128.mem (desc_bs q) (j + 1) = false.
Proof using HN H2.
  intros Q0 Hj Hm Hlow. assert (Z.even j = true) as He.
  { destruct (Z.even j) eqn:E; [done|]. exfalso.
    assert (1 ≤ j) by (destruct (decide (j = 0)) as [->|]; [done|lia]).
    assert (Z.even (j - 1) = true) as E' by (rewrite Z.even_sub, E; done).
    pose proof (qi_pair _ _ _ _ _ _ Q0 (j - 1) ltac:(lia) E') as Hp.
    replace (j - 1 + 1) with j in Hp by lia. rewrite Hm, Hlow in Hp by lia. done. }
  split_and!; [done| |].
  - apply even_lt; [lia|done].
  - by rewrite (qi_pair _ _ _ _ _ _ Q0).
Qed.

(** ** Submitting *)
Definition req_desc (paddr tlen j : Z) (d : VqDesc) : VqDesc :=
  mkDesc paddr tlen (Z.lor (d_flags d) F_NEXT) (j + 1).
Definition resp_desc (paddr rlen : Z) (d : VqDesc) : VqDesc :=
  mkDesc paddr rlen (Z.lor (d_flags d) F_WRITE) (d_next d).

Definition submitted (q : Q) (bs : BitSet128.t) (j paddr tlen rlen w : Z) (e o : VqDesc) : Q :=
  mkQ (<[Z.to_nat (j + 1) := resp_desc paddr rlen o]> (<[Z.to_nat j := req_desc paddr tlen j e]> (desc q)))
      (mkAvail (av_flags (avail q)) (wadd 16 (av_idx (avail q)) 1)
               (<[Z.to_nat (av_idx (avail q) mod N) := j]> (av_ring (avail q))) (used_event (avail q)))
      (used q) bs
      (<[Z.to_nat j := w]> (<[Z.to_nat (j + 1) := 0]> (<[Z.to_nat j := 0]> (desc_data q)))) (used_pos q).

Lemma submit_run q p A I V W j e o paddr tlen rlen w :
  qinv q p A I V W → 0 ≤ j < N → BitSet128.mem (desc_bs q) j = false →
  (∀ m, 0 ≤ m < j → BitSet128.mem (desc_bs q) m = true) →
  desc q !! Z.to_nat j = Some e → desc q !! Z.to_nat (j + 1) = Some o →
  ∃ bs, submit N paddr tlen rlen (Some w) q = Done (j, submitted q bs j paddr tlen rlen w e o) ∧
    BitSet128.wf bs ∧ BitSet128.len bs = N ∧
    ∀ k, BitSet128.mem bs k = bool_decide (k = j ∨ k = j + 1) || BitSet128.mem (desc_bs q) k.
Proof using HN H2.
  intros Q0 Hj Hm Hlow He Ho.
  destruct (lowest_even q p A I V W j Q0 Hj Hm Hlow) as (_ & Hj1 & Hm1).
  destruct (qi_bs _ _ _ _ _ _ Q0) as [Hwf Hlen]. pose proof (qi_data _ _ _ _ _ _ Q0) as Hdd.
  destruct (alloc_desc_run q j Hwf Hlen Hdd Hj Hm Hlow) as (bs1 & E1 & Hwf1 & Hl1 & M1).
  destruct (alloc_desc_run (with_bs bs1 (<[Z.to_nat j := 0]> (desc_data q)) q) (j + 1) Hwf1 Hl1)
    as (bs2 & E2 & Hwf2 & Hl2 & M2).
  { simpl. by rewrite length_insert. }
  { lia. }
  { simpl. rewrite M1, Hm1. by rewrite bool_decide_eq_false_2 by lia. }
  { intros m Hmm. simpl. rewrite M1. case_bool_decide; [done|]. apply Hlow. lia. }
  exists bs2. split; [|split_and!; [done..|]].
  - unfold submit. mrun E1. mstep. mrun E2. mstep.
    pose proof (qi_desc _ _ _ _ _ _ Q0) as Hds. pose proof (qi_aring _ _ _ _ _ _ Q0) as Har.
    pose proof (Z.mod_pos_bound (av_idx (avail q)) N ltac:(lia)).
    unfold upd_desc, set_desc_data, add_avail, bind, ret, obind. simpl.
    rewrite (idx_get_ok _ _ _ He), idx_set_ok by lia. simpl.
    rewrite (idx_get_ok _ _ o) by (rewrite list_lookup_insert_ne by lia; done).
    rewrite idx_set_ok by (rewrite length_insert; lia). simpl.
    rewrite idx_set_ok by (rewrite !length_insert; lia). simpl.
    by rewrite idx_set_ok by lia.
  - intros k. rewrite M2. simpl. rewrite M1. repeat case_bool_decide; done || lia.
Qed.

Definition wset (W : Z → Z) (j w : Z) : Z → Z := λ i, if decide (i = j) then w else W i.

Lemma submit_inv q p A I V W j e o bs paddr tlen rlen w :
  qinv q p A I V W → 0 ≤ j < N → j + 1 < N → Z.even j = true →
  BitSet128.mem (desc_bs q) j = false →
  desc q !! Z.to_nat j = Some e → desc q !! Z.to_nat (j + 1) = Some o →
  BitSet128.wf bs → BitSet128.len bs = N →
  (∀ k, BitSet128.mem bs k = bool_decide (k = j ∨ k = j + 1) || BitSet128.mem (desc_bs q) k) →
  qinv (submitted q bs j paddr tlen rlen w e o) p (A ++ [j]) I V (wset W j w).
Proof using HN HD H2.
  intros Q0 Hj Hj1 Hev Hm He Ho Hwf Hl HM.
  pose proof (qinv_bound q p A I V W Q0) as Hb. pose proof Q0 as [I1 I2 I3 I4 I5 I6 I7 I8 I9 I10 I11 I12 I13 I14 I15 I16 I17].
  assert (j ∉ A ++ I ++ V) as Hnin by (rewrite I10; intros (_ & _ & ?); congruence).
  assert (∀ i, i ∈ (A ++ [j]) ++ I ++ V ↔ i = j ∨ i ∈ A ++ I ++ V) as Hel by (intros; set_solver).
  assert (Z.even (j + 1) = false) as Hodd by (by rewrite Z.even_add, Hev).
  assert (∀ i, 0 ≤ i < N → Z.even i = true → i ≠ j + 1) as Hne by (intros i _ Hi ->; congruence).
  split; simpl; rewrite ?length_insert; try done.
  - intros i Hi Hie. rewrite !HM, (I6 i Hi Hie).
    assert (i + 1 ≠ j) by (intros E; rewrite <- E, Z.even_add, Hie in Hev; done).
    pose proof (Hne i Hi Hie). repeat case_bool_decide; done || lia.
  - intros i d Hi Hie Hd. rewrite list_lookup_insert_ne in Hd by (pose proof (Hne i Hi Hie); lia).
    destruct (decide (i = j)) as [->|Hij].
    + rewrite list_lookup_insert_eq in Hd by lia. injection Hd as <-. right. simpl. split; [|done].
      destruct (I7 j e Hi Hie He) as [[-> _]|[-> _]]; done.
    + rewrite list_lookup_insert_ne in Hd by lia. rewrite HM, bool_decide_eq_false_2; [by eapply I7|].
      intros [?|?]; [lia|]. by eapply (Hne i).
  - intros i d Hi Hie Hd. destruct (decide (i = j + 1)) as [->|Hij].
    + rewrite list_lookup_insert_eq in Hd by (rewrite length_insert; lia). injection Hd as <-. right. simpl.
      destruct (I8 (j + 1) o Hi Hie Ho) as [->| ->]; done.
    + rewrite !list_lookup_insert_ne in Hd; [by eapply I8|..]; [|lia].
      intros E. apply Z2Nat.inj in E; [|lia..]. subst. congruence.
  - rewrite <- app_assoc. apply (NoDup_Permutation_proper (j :: A ++ I ++ V)).
    + apply Permutation_middle.
    + by constructor.
  - intros i. rewrite Hel, I10, HM. split.
    + intros [->|(? & ? & ->)]; [|by rewrite orb_true_r]. by rewrite bool_decide_eq_true_2 by auto.
    + intros (Hi & Hie & Hmi). destruct (decide (i = j)); [by left|right]. split; [done|]. split; [done|].
      rewrite bool_decide_eq_false_2 in Hmi; [simpl in Hmi; done|]. intros [?|?]; [done|]. by eapply (Hne i).
  - intros i Hi. apply Hel in Hi as [->|Hi].
    + unfold wset. rewrite decide_True by done. apply list_lookup_insert_eq. rewrite !length_insert. lia.
    + pose proof (proj1 (I10 i) Hi) as (Hir & Hie & Him).
      assert (i ≠ j) by congruence. pose proof (Hne i Hir Hie).
      unfold wset. rewrite decide_False by done. rewrite !list_lookup_insert_ne by lia. by apply I11.
  - apply ring_push; try done; try lia. rewrite I13. rewrite wrap16_mod by (done || lia). done.
  - rewrite I13, length_app. simpl. unfold wadd, wrap. rewrite Zplus_mod_idemp_l. f_equal. lia.
Qed.

(** ** Taking a completion *)
Lemma free_desc_run q p A I V W h :
  qinv q p A I V W → h ∈ A ++ I ++ V →
  ∃ bs, free_desc N h q = Done (tt, with_bs bs (desc_data q) q) ∧
    BitSet128.wf bs ∧ BitSet128.len bs = N ∧
    ∀ k, 0 ≤ k < 128 → BitSet128.mem bs k
      = negb (bool_decide (k = h ∨ k = h + 1)) && BitSet128.mem (desc_bs q) k.
Proof using HN H2.
  intros Q0 Hh. pose proof (proj1 (qi_own _ _ _ _ _ _ Q0 h) Hh) as (Hr & Hev & Hm).
  destruct (qi_bs _ _ _ _ _ _ Q0) as [Hwf Hlen]. pose proof (qi_desc _ _ _ _ _ _ Q0) as Hds.
  assert (h + 1 < N) as Hr1 by (apply even_lt; [lia|done]).
  destruct (lookup_lt_is_Some_2 (desc q) (Z.to_nat h)) as [e He]; [lia|].
  destruct (lookup_lt_is_Some_2 (desc q) (Z.to_nat (h + 1))) as [o Ho]; [lia|].
  destruct (qi_even _ _ _ _ _ _ Q0 h e Hr Hev He) as [[_ ?]|[Hf Hn]]; [congruence|].
  assert (get_next e = Some (h + 1)) as Ge by (unfold get_next; by rewrite Hf, Hn).
  assert (get_next o = None) as Go.
  { unfold get_next. destruct (qi_odd _ _ _ _ _ _ Q0 (h + 1) o) as [-> | ->]; [lia| |done..].
    by rewrite Z.even_add, Hev. }
  destruct (BitSet128.clr_ok _ Hwf h) as (bs1 & E1 & Hwf1 & Hl1 & M1); [lia|].
  destruct (BitSet128.clr_ok _ Hwf1 (h + 1)) as (bs2 & E2 & Hwf2 & Hl2 & M2); [lia|].
  exists bs2. split; [|split_and!; [done|congruence|]].
  - unfold free_desc, bs_upd, get_desc, bind, obind. rewrite wrap_small, E1 by lia.
    simpl. rewrite (idx_get_ok _ _ _ He). replace (Z.to_nat N) with (S (Z.to_nat (N - 1))) by lia.
    simpl. rewrite Ge. rewrite (proj2 (Z.ltb_lt 1 N)) by lia. unfold assert_, bind, ret, get, lift. simpl.
    rewrite wrap_small by lia. rewrite BitSet128.tst_mem, M1, (qi_pair _ _ _ _ _ _ Q0), Hm by (done || lia).
    rewrite bool_decide_eq_false_2 by lia. simpl. unfold bs_upd, get_desc, obind. simpl. rewrite E2. simpl. rewrite (idx_get_ok _ _ _ Ho).
    by rewrite Go.
  - intros k Hk. rewrite M2, M1 by done. repeat case_bool_decide; simpl; done || lia.
Qed.

Definition popped (q : Q) (bs : BitSet128.t) : Q :=
  mkQ (desc q) (avail q) (used q) bs (desc_data q) (wadd 16 (used_pos q) 1).

Lemma used_elem q p A I h V W :
  qinv q p A I (h :: V) W → ∃ u, us_ring (used q) !! Z.to_nat (used_pos q mod N) = Some u ∧ ue_id u = h.
Proof using Type.
  intros Q0. pose proof (ring_head N _ _ _ _ (qi_used _ _ _ _ _ _ Q0)) as Hu.
  apply list_lookup_fmap_Some in Hu as (u & -> & Hu). eauto.
Qed.

Lemma pop_used_run q p A I h V W :
  qinv q p A I (h :: V) W →
  ∃ bs, pop_used N q = Done (tt, popped q bs) ∧ qinv (popped q bs) p A I V W.
Proof using HN HD H2.
  intros Q0. destruct (used_elem q p A I h V W Q0) as (u & Hu & Eu).
  assert (h ∈ A ++ I ++ h :: V) as Hh by set_solver.
  destruct (free_desc_run q p A I (h :: V) W h Q0 Hh) as (bs & Ef & Hwf & Hl & HM).
  exists bs. split.
  { unfold pop_used. mstep. unfold lift at 1, bind at 1. rewrite (idx_get_ok _ _ _ Hu), Eu. by mrun Ef. }
  pose proof (proj1 (qi_own _ _ _ _ _ _ Q0 h) Hh) as (Hr & Hev & Hm).
  pose proof (qinv_bound q p A I (h :: V) W Q0) as Hb.
  destruct Q0 as [I1 I2 I3 I4 I5 I6 I7 I8 I9 I10 I11 I12 I13 I14 I15 I16 I17].
  assert (∀ i, 0 ≤ i < N → Z.even i = true → i ≠ h + 1) as Hne.
  { intros i _ Hi ->. by rewrite Z.even_add, Hev in Hi. }
  assert (NoDup (A ++ I ++ V) ∧ h ∉ A ++ I ++ V) as [Hnd Hnin].
  { assert (NoDup (h :: A ++ I ++ V)) as H%NoDup_cons; [|naive_solver].
    eapply NoDup_Permutation_proper; [|exact I9]. rewrite !app_assoc. apply Permutation_middle. }
  split; simpl; try done.
  - intros i Hi Hie. pose proof (Hne i Hi Hie). pose proof (even_lt i (proj2 Hi) Hie).
    rewrite !HM by lia. rewrite (I6 i Hi Hie).
    assert (i + 1 ≠ h) by (intros E; rewrite <- E, Z.even_add, Hie in Hev; done).
    repeat case_bool_decide; simpl; done || lia.
  - intros i d Hi Hie Hd. rewrite HM by lia. destruct (I7 i d Hi Hie Hd) as [[? ->]|?]; [left|by right].
    by rewrite andb_false_r.
  - intros i. split.
    + intros Hi. assert (i ≠ h) by congruence. assert (i ∈ A ++ I ++ h :: V) as Hi' by set_solver.
      pose proof (proj1 (I10 i) Hi') as (? & Hie & ?). split; [done|]. split; [done|]. rewrite HM by lia.
      rewrite bool_decide_eq_false_2; [done|]. intros [?|?]; [done|]. by eapply (Hne i).
    + intros (Hi & Hie & Hmi). rewrite HM in Hmi by lia. apply andb_true_iff in Hmi as [Hn Hmi].
      apply negb_true_iff, bool_decide_eq_false in Hn.
      assert (i ∈ A ++ I ++ h :: V) as Hi' by (by apply I10). set_solver.
  - intros i Hi. apply I11. set_solver.
  - eapply ring_pop; [lia|done|exact I14].
  - rewrite I15. simpl length. unfold wadd, wrap. rewrite Zplus_mod_idemp_l. f_equal. lia.
  - by apply wrap_range.
Qed.

Lemma peek_used_run q p A I V W :
  qinv q p A I V W →
  ∃ d, peek_used N q = Done (match V with [] => None | h :: _ => Some (d, W h) end, q).
Proof using HN HD H2.
  intros Q0. unfold peek_used. pose proof (qi_upos _ _ _ _ _ _ Q0) as Hu.
  pose proof (qi_upos_range _ _ _ _ _ _ Q0) as Hr. destruct V as [|h V].
  - exists desc_zeroed. mstep. simpl in Hu. rewrite Hu, Z.add_0_r, wrap_small, Z.eqb_refl by done. done.
  - pose proof (qinv_bound _ _ _ _ _ _ Q0) as Hb. simpl length in *.
    destruct (used_elem q p A I h V W Q0) as (u & Hui & Eu).
    assert (h ∈ A ++ I ++ h :: V) as Hh by set_solver.
    pose proof (proj1 (qi_own _ _ _ _ _ _ Q0 h) Hh) as (Hhr & _).
    pose proof (qi_word _ _ _ _ _ _ Q0 h Hh) as Hw.
    destruct (lookup_lt_is_Some_2 (desc q) (Z.to_nat h)) as [d Hd].
    { rewrite (qi_desc _ _ _ _ _ _ Q0). lia. }
    exists d. mstep. destruct (Z.eqb_spec (used_pos q) (us_idx (used q))) as [E|_].
    { exfalso. rewrite Hu in E. unfold wrap in E. change (2 ^ 16) with 65536 in E.
      clear HD H2. zdiv. }
    unfold lift, bind, get_desc, obind, ret.
    rewrite (idx_get_ok _ _ _ Hui), Eu, Z.mod_small by lia.
    by rewrite (idx_get_ok _ _ _ Hw), (idx_get_ok _ _ _ Hd).
Qed.

(** [irq_handle] takes all the completions there are, in order. *)
Lemma irq_drain_run V : ∀ fuel q p A I W,
  qinv q p A I V W → (length V ≤ fuel)%nat →
  ∃ q', irq_drain N fuel q = Done (filter (λ w, w ≠ 0) (W <$> V), q') ∧ qinv q' p A I [] W.
Proof using HN HD H2.
  induction V as [|h V IH]; intros fuel q p A I W Q0 Hf;
    destruct (peek_used_run _ _ _ _ _ _ Q0) as [d Ed]; cbv beta iota in Ed.
  - exists q. split; [|done]. destruct fuel; simpl; by mrun Ed.
  - destruct fuel as [|fuel]; [simpl in Hf; lia|]. destruct (pop_used_run _ _ _ _ _ _ _ Q0) as (bs & Ep & Q1).
    destruct (IH fuel _ _ _ _ _ Q1) as (q' & E & Q'); [simpl in Hf; lia|].
    exists q'. split; [|done]. cbn [irq_drain]. mrun Ed. cbv beta iota. mrun Ep. mrun E. unfold ret.
    rewrite fmap_cons, filter_cons. destruct (Z.eqb_spec (W h) 0) as [->|]; case_decide; done.
Qed.

(** ** The device *)
Definition dev_complete (h l : Z) (q : Q) : Q :=
  let u := used q in
  mkQ (desc q) (avail q)
      (mkUsed (us_flags u) (wadd 16 (us_idx u) 1)
              (<[Z.to_nat (us_idx u mod N) := mkElem h l]> (us_ring u)) (avail_event u))
      (desc_bs q) (desc_data q) (used_pos q).

Lemma fetch_inv q p h A I V W :
  qinv q p (h :: A) I V W → qinv q (wadd 16 p 1) A (h :: I) V W.
Proof using HN HD.
  intros [I1 I2 I3 I4 I5 I6 I7 I8 I9 I10 I11 I12 I13 I14 I15 I16 I17].
  assert ((h :: A) ++ I ++ V ≡ₚ A ++ (h :: I) ++ V) as HP by (simpl; apply Permutation_middle).
  split; try done.
  - by rewrite <- HP.
  - intros i. by rewrite <- HP, I10.
  - intros i. rewrite <- HP. apply I11.
  - eapply ring_pop; [lia|done|exact I12].
  - rewrite I13. simpl length. unfold wadd, wrap. rewrite Zplus_mod_idemp_l. f_equal. lia.
  - by apply wrap_range.
Qed.

Lemma complete_inv q p A I1 h I2 V W l :
  qinv q p A (I1 ++ h :: I2) V W → qinv (dev_complete h l q) p A (I1 ++ I2) (V ++ [h]) W.
Proof using HN HD H2.
  intros Q0. pose proof (qinv_bound _ _ _ _ _ _ Q0) as Hb. rewrite length_app in Hb. simpl in Hb.
  destruct Q0 as [J1 J2 J3 J4 J5 J6 J7 J8 J9 J10 J11 J12 J13 J14 J15 J16 J17].
  assert (A ++ (I1 ++ h :: I2) ++ V ≡ₚ A ++ (I1 ++ I2) ++ (V ++ [h])) as HP.
  { apply Permutation_app_head. rewrite <- Permutation_middle, <- Permutation_cons_append.
    simpl. apply Permutation_middle. }
  split; simpl; rewrite ?length_insert; try done.
  - by rewrite <- HP.
  - intros i. by rewrite <- HP, J10.
  - intros i. rewrite <- HP. apply J11.
  - rewrite list_fmap_insert. simpl. apply ring_push; try done; try lia; [by rewrite length_fmap|].
    rewrite J15. by rewrite wrap16_mod by (done || lia).
  - rewrite J15, length_app. simpl. unfold wadd, wrap. rewrite Zplus_mod_idemp_l. f_equal. lia.
Qed.

Lemma new_inv q : q_new N = Done q → qinv q 0 [] [] [] (λ _, 0).
Proof using HN HD H2.
  unfold q_new. rewrite wrap_small by lia. destruct (BitSet128.new_wf N) as (bs & -> & Hwf & Hl & Hm); [lia|].
  intros [= <-]. split; simpl; rewrite ?length_replicate; try done; try lia.
  - intros i Hi He. rewrite (Hm i Hi). apply Hm. pose proof (even_lt i (proj2 Hi) He). lia.
  - intros i d Hi _ Hd. apply lookup_replicate in Hd as [-> _]. left. by rewrite Hm.
  - intros i d Hi _ Hd. apply lookup_replicate in Hd as [-> _]. by left.
  - constructor.
  - intros i. split; [set_solver|]. intros (Hi & _ & Him). rewrite Hm in Him; done.
  - intros i. set_solver.
Qed.

(** ** Interleavings *)
Record sys := mkSys { s_q : Q; s_pos : Z; s_fly : list Z }.

Inductive label := LSubmit (w : Z) | LFetch | LComplete | LTake (w : Z).

(** The driver's two actions are the code; the device's two are what the
    transport lets a device do: fetch the next available head, complete any
    head it holds. *)
Inductive qstep : sys → label → sys → Prop :=
  | st_submit q pos I paddr tlen rlen w h q' :
      submit N paddr tlen rlen (Some w) q = Done (h, q') →
      qstep (mkSys q pos I) (LSubmit w) (mkSys q' pos I)
  | st_fetch q pos I h :
      pos ≠ av_idx (avail q) → av_ring (avail q) !! Z.to_nat (pos mod N) = Some h →
      qstep (mkSys q pos I) LFetch (mkSys q (wadd 16 pos 1) (h :: I))
  | st_complete q pos I1 h I2 l :
      qstep (mkSys q pos (I1 ++ h :: I2)) LComplete (mkSys (dev_complete h l q) pos (I1 ++ I2))
  | st_take q pos I d w q' :
      peek_used N q = Done (Some (d, w), q) → pop_used N q = Done (tt, q') →
      qstep (mkSys q pos I) (LTake w) (mkSys q' pos I).

Inductive qsteps (s0 : sys) : list label → sys → Prop :=
  | qs_nil : qsteps s0 [] s0
  | qs_snoc t s1 l s2 : qsteps s0 t s1 → qstep s1 l s2 → qsteps s0 (t ++ [l]) s2.

Definition submitted_words (t : list label) : list Z :=
  omap (λ l, match l with LSubmit w => Some w | _ => None end) t.
Definition taken_words (t : list label) : list Z :=
  omap (λ l, match l with LTake w => Some w | _ => None end) t.

Lemma submit_dec q p A I V W paddr tlen rlen w :
  qinv q p A I V W →
  (∃ j q', submit N paddr tlen rlen (Some w) q = Done (j, q') ∧ j ∉ A ++ I ++ V ∧
     qinv q' p (A ++ [j]) I V (wset W j w) ∧
     (∃ n, desc q' !! Z.to_nat j = Some (mkDesc paddr tlen F_NEXT (j + 1)) ∧
           desc q' !! Z.to_nat (j + 1) = Some (mkDesc paddr rlen F_WRITE n)) ∧
     ∀ i, i ≠ Z.to_nat j → i ≠ Z.to_nat (j + 1) → desc q' !! i = desc q !! i) ∨
  (2 * Z.of_nat (length (A ++ I ++ V)) = N ∧ submit N paddr tlen rlen (Some w) q = Fault FPanic).
Proof using HN HD H2.
  intros Q0. destruct (qi_bs _ _ _ _ _ _ Q0) as [Hwf Hlen].
  destruct (BitSet128.first_clr_ok _ Hwf) as ([j|] & Er & Hr).
  - left. destruct Hr as (Hj & Hm & Hlow). rewrite Hlen in Hj.
    destruct (lowest_even _ _ _ _ _ _ j Q0 Hj Hm Hlow) as (Hev & Hj1 & Hm1).
    pose proof (qi_desc _ _ _ _ _ _ Q0) as Hds.
    destruct (lookup_lt_is_Some_2 (desc q) (Z.to_nat j)) as [e He]; [lia|].
    destruct (lookup_lt_is_Some_2 (desc q) (Z.to_nat (j + 1))) as [o Ho]; [lia|].
    destruct (submit_run _ _ _ _ _ _ j e o paddr tlen rlen w Q0 Hj Hm Hlow He Ho) as (bs & E & Hwf' & Hl' & HM).
    do 2 eexists. split; [exact E|]. split; [|split; [by eapply submit_inv|split]].
    + rewrite (qi_own _ _ _ _ _ _ Q0). intros (_ & _ & ?). congruence.
    + exists (d_next o). simpl. split.
      * rewrite list_lookup_insert_ne, list_lookup_insert_eq by lia. unfold req_desc.
        destruct (qi_even _ _ _ _ _ _ Q0 j e Hj Hev He) as [[-> _]|[-> _]]; done.
      * rewrite list_lookup_insert_eq by (rewrite length_insert; lia). unfold resp_desc.
        destruct (qi_odd _ _ _ _ _ _ Q0 (j + 1) o) as [-> | ->]; [lia| |done..]. by rewrite Z.even_add, Hev.
    + intros i H1 H3. simpl. by rewrite !list_lookup_insert_ne by done.
  - right. rewrite Hlen in Hr. split.
    + apply Z.le_antisymm; [pose proof (qinv_bound _ _ _ _ _ _ Q0); rewrite !length_app; lia|].
      destruct H2 as [m Hm]. assert ((λ k, 2 * k) <$> seqZ 0 m ⊆+ A ++ I ++ V) as Hsub.
      { apply NoDup_submseteq; [apply NoDup_fmap_2; [intros ???; lia|apply NoDup_seqZ]|].
        intros i (k & -> & Hk%elem_of_seqZ)%list_elem_of_fmap. apply (qi_own _ _ _ _ _ _ Q0).
        split; [lia|]. split; [by rewrite Z.even_mul|]. apply Hr. lia. }
      apply submseteq_length in Hsub. rewrite length_fmap, length_seqZ in Hsub. lia.
    + unfold submit. by mrun (alloc_desc_full q Hwf Hlen Hr).
Qed.

Lemma qstep_inv q pos I l q' pos' I' A V W :
  qstep (mkSys q pos I) l (mkSys q' pos' I') → qinv q pos A I V W →
  ∃ A' V' W', qinv q' pos' A' I' V' W' ∧
    submitted_words [l] ++ (W <$> A ++ I ++ V) ≡ₚ taken_words [l] ++ (W' <$> A' ++ I' ++ V').
Proof using HN HD H2.
  intros Hst Q0. inversion Hst as [? ? ? pa tl rl w h ? E|? ? ? h Hne Hr|? ? I1 h I2 len|? ? ? d w ? Ep Eq]; subst.
  - destruct (submit_dec _ _ _ _ _ _ pa tl rl w Q0) as [(j & q2 & E' & Hnin & Q1 & _)|[_ E']]; [|congruence].
    rewrite E in E'. injection E' as -> ->. do 3 eexists. split; [exact Q1|]. simpl.
    rewrite <- app_assoc. simpl. rewrite <- (Permutation_middle A). simpl. unfold wset at 1.
    rewrite decide_True by done. constructor. erewrite list_fmap_ext; [done|].
    intros i x Hx. unfold wset. rewrite decide_False; [done|]. intros ->. by eapply Hnin, list_elem_of_lookup_2.
  - pose proof (qinv_bound _ _ _ _ _ _ Q0) as Hb. destruct A as [|h' A].
    + exfalso. apply Hne. rewrite (qi_apos _ _ _ _ _ _ Q0). simpl.
      pose proof (qi_dpos_range _ _ _ _ _ _ Q0). rewrite wrap_small; lia.
    + rewrite (ring_head N _ _ _ _ (qi_avail _ _ _ _ _ _ Q0)) in Hr. injection Hr as ->.
      do 3 eexists. split; [by apply fetch_inv|]. simpl. by rewrite <- Permutation_middle.
  - do 3 eexists. split; [by apply complete_inv|]. simpl. apply fmap_Permutation.
    apply Permutation_app_head. rewrite <- Permutation_middle, <- Permutation_cons_append.
    simpl. apply Permutation_middle.
  - destruct (peek_used_run _ _ _ _ _ _ Q0) as [d' Ed]. rewrite Ep in Ed.
    destruct V as [|h V]; [done|]. injection Ed as <- ->.
    destruct (pop_used_run _ _ _ _ _ _ _ Q0) as (bs & E & Q1). rewrite Eq in E. injection E as ->.
    do 3 eexists. split; [exact Q1|]. simpl. by rewrite !app_assoc, <- Permutation_middle.
Qed.
End inv.

Lemma qsteps_inv N q0 t s :
  2 ≤ N ≤ 128 → (N | 65536) → (2 | N) → q_new N = Done q0 → qsteps N (mkSys q0 0 []) t s →
  ∃ A V W, qinv N (s_q s) (s_pos s) A (s_fly s) V W ∧
    submitted_words t ≡ₚ taken_words t ++ (W <$> A ++ s_fly s ++ V).
Proof.
  intros HN HD H2 Hq. induction 1 as [|t s1 l s2 Hs (A & V & W & Q1 & HP) Hst].
  - exists [], [], (λ _, 0). split; [by apply new_inv|done].
  - destruct s1 as [q1 p1 I1], s2 as [q2 p2 I2]. simpl in Q1, HP.
    destruct (qstep_inv N HN HD H2 _ _ _ _ _ _ _ _ _ _ Hst Q1) as (A' & V' & W' & Q2 & HP').
    exists A', V', W'. split; [done|]. unfold submitted_words, taken_words in *. simpl.
    rewrite !omap_app, HP, <- !app_assoc. apply Permutation_app_head. rewrite <- HP'.
    apply Permutation_app_comm.
Qed.

(** ** Properties *)

(** C3: exactly-once completion: however driver and device interleave, in a
    queue of a power-of-two size up to 128 the words of the completions taken
    so far together with the words of the heads still in flight are exactly
    the words submitted, no descriptor pair is in flight twice, and no ring
    slot is overwritten before the other side has read it. *)
Theorem queue_exactly_once (N : Z) (q0 : Q) (t : list label) (s : sys) :
  2 ≤ N ≤ 128 → (N | 65536) → (2 | N) → q_new N = Done q0 → qsteps N (mkSys q0 0 []) t s →
  ∃ A V W, qinv N (s_q s) (s_pos s) A (s_fly s) V W ∧
    submitted_words t ≡ₚ taken_words t ++ (W <$> A ++ s_fly s ++ V).
Proof. apply qsteps_inv. Qed.

(** Submitting a request: it takes a pair of descriptors that is not in
    flight, chains the device-readable one to the writable one with the two
    lengths, publishes the head behind the pending ones and touches no other
    descriptor; it panics exactly when every pair is in flight. *)
Theorem submit_spec (N : Z) (q : Q) (p : Z) (A I V : list Z) (W : Z → Z) (paddr tlen rlen w : Z) :
  2 ≤ N ≤ 128 → (N | 65536) → (2 | N) → qinv N q p A I V W →
  (∃ j q', submit N paddr tlen rlen (Some w) q = Done (j, q') ∧ j ∉ A ++ I ++ V ∧
     qinv N q' p (A ++ [j]) I V (wset W j w) ∧
     (∃ n, desc q' !! Z.to_nat j = Some (mkDesc paddr tlen F_NEXT (j + 1)) ∧
           desc q' !! Z.to_nat (j + 1) = Some (mkDesc paddr rlen F_WRITE n)) ∧
     ∀ i, i ≠ Z.to_nat j → i ≠ Z.to_nat (j + 1) → desc q' !! i = desc q !! i) ∨
  (2 * Z.of_nat (length (A ++ I ++ V)) = N ∧ submit N paddr tlen rlen (Some w) q = Fault FPanic).
Proof. intros. by apply submit_dec. Qed.

(** The interrupt handler's loop terminates without a fault within [N]
    turns, wakes the owner of every completion on the used ring in order, and
    returns their descriptors. *)
Theorem irq_drain_spec (N : Z) (q : Q) (p : Z) (A I V : list Z) (W : Z → Z) :
  2 ≤ N ≤ 128 → (N | 65536) → (2 | N) → qinv N q p A I V W →
  ∃ q', irq_drain N (Z.to_nat N) q = Done (filter (λ w, w ≠ 0) (W <$> V), q') ∧
    qinv N q' p A I [] W.
Proof.
  intros HN HD H2 Q0. apply irq_drain_run; try done.
  pose proof (qinv_bound N HN H2 _ _ _ _ _ _ Q0). lia.
Qed.

(** The device reset handshake: if the status register reads back what was
    written, [init_dev_common] does not panic, but the status it leaves has
    lost the [ACKNOWLEDGE] bit, since [DRIVER] is added to the value read
    before it was set. *)
Theorem init_dev_common_status (R : Type) `{Mmio R} (features : Z) (r : R) :
  (∀ r v, reg_read (reg_write r STATUS v) STATUS = v) →
  (∀ r off v, off ≠ STATUS → reg_read (reg_write r off v) STATUS = reg_read r STATUS) →
  ∃ r', init_dev_common features r = Done (tt, r') ∧
    reg_read r' STATUS = Z.lor DRIVER FEATURES_OK ∧ Z.land (reg_read r' STATUS) ACKNOWLEDGE = 0.
Proof.
  intros Hs Ho. eexists. unfold init_dev_common, wr, rd, modify, gets, bind. rewrite !Hs.
  rewrite !(Ho _ DRIVERFEATURES), !(Ho _ DRIVERFEATURESSEL), !(Ho _ DEVICEFEATURESSEL), !Hs by done.
  split; done.
Qed.

(** ** Witnesses: the 32-entry queue of the 9p driver *)
Section witnesses.
Lemma n32 : 2 ≤ 32 ≤ 128 ∧ (32 | 65536) ∧ (2 | 32).
Proof. split; [lia|]. split; [by exists 2048|by exists 16]. Qed.

Definition q32 : Q :=
  match q_new 32 with Done q => q | Fault _ => mkQ [] (avail_zeroed 0) (used_zeroed 0) (BitSet128.mk 0 0) [] 0 end.

Lemma q32_inv : qinv 32 q32 0 [] [] [] (λ _, 0).
Proof. destruct n32 as (? & ? & ?). by apply new_inv. Qed.
End witnesses.

Lemma queue_exactly_once_witness :
  ∃ t s, qsteps 32 (mkSys q32 0 []) t s ∧ submitted_words t = [77] ∧
    ∃ A V W, qinv 32 (s_q s) (s_pos s) A (s_fly s) V W ∧
      submitted_words t ≡ₚ taken_words t ++ (W <$> A ++ s_fly s ++ V).
Proof.
  destruct n32 as (H1 & H2 & H3).
  destruct (submit 32 4096 10 20 (Some 77) q32) as [[h q']|] eqn:E; [|by vm_compute in E].
  exists [LSubmit 77], (mkSys q' 0 []).
  assert (qsteps 32 (mkSys q32 0 []) [LSubmit 77] (mkSys q' 0 [])) as Hs.
  { apply (qs_snoc 32 _ [] _ _ _ (qs_nil 32 _)). by eapply st_submit. }
  split; [done|]. split; [done|]. by apply (queue_exactly_once 32 q32).
Defined.

Lemma submit_spec_witness :
  ∃ j q', submit 32 4096 10 20 (Some 77) q32 = Done (j, q') ∧ qinv 32 q' 0 [j] [] [] (wset (λ _, 0) j 77).
Proof.
  destruct n32 as (H1 & H2 & H3).
  destruct (submit_spec 32 q32 0 [] [] [] (λ _, 0) 4096 10 20 77 H1 H2 H3 q32_inv)
    as [(j & q' & E & _ & Q' & _)|[E _]]; [by exists j, q'|done].
Defined.

Lemma irq_drain_spec_witness :
  ∃ q', irq_drain 32 32 q32 = Done ([], q') ∧ qinv 32 q' 0 [] [] [] (λ _, 0).
Proof.
  destruct n32 as (H1 & H2 & H3). apply (irq_drain_spec 32 q32 0 [] [] [] (λ _, 0) H1 H2 H3 q32_inv).
Defined.

#[local] Instance plain_regs : Mmio (Z → Z) :=
  { reg_read r off := r off; reg_write r off v := λ o, if o =? off then v else r o }.

Lemma init_dev_common_status_witness :
  ∃ r', init_dev_common 0 (λ _ : Z, 0) = Done (tt, r') ∧ reg_read r' STATUS = 10.
Proof.
  destruct (init_dev_common_status (Z → Z) 0 (λ _, 0)) as (r' & E & Es & _).
  - intros r v. done.
  - intros r off v Hne. cbv [reg_read reg_write plain_regs]. destruct (Z.eqb_spec STATUS off); [by destruct Hne|done].
  - exists r'. split; [exact E|]. by rewrite Es.
Defined.
