(* ===== verification/Vm.v ===== *)
(** * [vm.rs]: page tables, windows and kernel virtual memory, as code

    Physical memory is a store of 64-bit words addressed by frame and index;
    a page table is a frame of it, and so are the statics [PT] and
    [FIXED_L1..3] of the kernel image.  A table is reached either directly
    (the boot mapping at [VOFFT]) or through a window: a page of the range at
    [0xffff_ffff_fff0_0000] whose entry of [FIXED_L3] a [PmWrap] has pointed at
    the frame.  Reading through a window therefore reads [FIXED_L3] first, so a
    window that is reused too early shows up as an access to the wrong frame.

    The page allocator is used through the interface [FrameOps]; [VmInv] states
    what it promises and [VmPm] shows that [pm.rs] keeps the promise.  The
    TLB is a list of remembered translations; barriers and the locks around the
    statics are left out. *)
From S2P Require Import Prelude Stuff Pm.

Local Open Scope Z_scope.

(** ** Permissions of a leaf entry *)
Definition PR_PW_PX_UX : Z := 0.
Definition PR_PW_UR_UW_UX1 : Z := Z.shiftl 1 6.
Definition PR_PX_UX : Z := Z.shiftl 2 6.
Definition PR_PX_UR_UX : Z := Z.shiftl 3 6.
Definition PR_PW_UX : Z := Z.shiftl 1 53.
Definition PR_PW_UR_UW_UX2 : Z := Z.lor (Z.shiftl 1 53) (Z.shiftl 1 6).
Definition PR_UX : Z := Z.lor (Z.shiftl 1 53) (Z.shiftl 2 6).
Definition PR_UR_UX : Z := Z.lor (Z.shiftl 1 53) (Z.shiftl 3 6).
Definition PR_PW_PX : Z := Z.shiftl 1 54.
Definition PR_PW_UR_UW1 : Z := Z.lor (Z.shiftl 1 54) (Z.shiftl 1 6).
Definition PR_PX : Z := Z.lor (Z.shiftl 1 54) (Z.shiftl 2 6).
Definition PR_PX_UR : Z := Z.lor (Z.shiftl 1 54) (Z.shiftl 3 6).
Definition PR_PW : Z := Z.lor (Z.shiftl 1 54) (Z.shiftl 1 53).
Definition PR_PW_UR_UW2 : Z := Z.lor PR_PW (Z.shiftl 1 6).
Definition PR : Z := Z.lor PR_PW (Z.shiftl 2 6).
Definition PR_UR : Z := Z.lor PR_PW (Z.shiftl 3 6).

Definition PHY_MASK : Z := 0x0000fffffffff000.
Definition VOFFT : Z := 0xffff000000000000.

(** ** Virtual addresses *)
Definition vaddr_offt (v : Z) : Z := Z.land v 0xfff.
Definition vaddr_l0 (v : Z) : Z := Z.land (Z.shiftr v 39) 0x1ff.
Definition vaddr_l1 (v : Z) : Z := Z.land (Z.shiftr v 30) 0x1ff.
Definition vaddr_l2 (v : Z) : Z := Z.land (Z.shiftr v 21) 0x1ff.
Definition vaddr_l3 (v : Z) : Z := Z.land (Z.shiftr v 12) 0x1ff.

Inductive Error :=
  | EExists (v : Z)
  | EAlloc
  | EInval.

(** ** Regions of virtual pages *)
Record Region := mkRegion { r_start : Z; r_bs : BitSet128.t }.

Definition region_new (start : Z) : outcome Region :=
  let? bs := BitSet128.new 128 in Done (mkRegion start bs).

Definition region_is_full (r : Region) : bool := BitSet128.full (r_bs r).

Definition region_alloc (r : Region) (n : Z) : outcome (option Z * Region) :=
  if region_is_full r || (4 <? n) then Done (None, r)
  else
    let? (o, bs) := BitSet128.set_nclr (r_bs r) (wrap 8 n) in
    match o with
    | Some i => Done (Some (i *! 4096 +! r_start r), mkRegion (r_start r) bs)
    | None => Done (None, mkRegion (r_start r) bs)
    end.

Definition region_free_inner (r : Region) (addr : Z) : outcome (option Region) :=
  if r_start r <=? addr then
    let local := addr - r_start r in
    let bit := local / 4096 in
    if 128 <=? bit then Done None
    else
      let? b := BitSet128.tst (r_bs r) bit in
      if b then let? bs := BitSet128.clr (r_bs r) bit in Done (Some (mkRegion (r_start r) bs))
      else Fault FPanic
  else Done None.

Definition region_free_1 (r : Region) (addr : Z) : outcome Region :=
  let? o := region_free_inner r addr in
  match o with Some r' => Done r' | None => Fault FPanic end.

(** ** Interfaces *)

(** What [vm.rs] calls of [pm.rs]: [alloc(4096)], [free(p, 4096)] and [free_low]. *)
Class FrameOps (F : Type) := {
  fr_alloc : M F (option Z);
  fr_free : Z → M F unit;
  fr_free_low : Z → M F unit;
}.

(** The kernel image: physical addresses of the static tables, the section
    ends the linker provides, and what memory holds before it is written. *)
Class Image := {
  im_pt : Z;
  im_l1 : Z;
  im_l2 : Z;
  im_l3 : Z;
  text_end : Z;
  data_end : Z;
  rodata_end : Z;
  bss_end : Z;
  user_end : Z;
  junk : Z → Z → Z;
}.

(** What the processor remembers of the tables: a translation it has used, for
    the address space [te_asid] or, when the entry has bit 11 clear, for all. *)
Record Tlbe := mkTlbe { te_asid : Z; te_global : bool; te_page : Z; te_ent : Z }.

(** The bits of an address that [tlbi vaae1] looks at: bits 12 to 55. *)
Definition tlb_page (v : Z) : Z := Z.land (Z.shiftr v 12) (Z.ones 44).

Definition flush_page (v : Z) (l : list Tlbe) : list Tlbe :=
  List.filter (λ t, negb (te_page t =? tlb_page v)) l.

Record VSt (F : Type) := mkVSt {
  mem : gmap (Z * Z) Z;
  frames : F;
  fixed : Region;
  regions : Region;
  tlb : list Tlbe;
}.
Arguments mkVSt {F} _ _ _ _ _.
Arguments mem {F} _.
Arguments frames {F} _.
Arguments fixed {F} _.
Arguments regions {F} _.
Arguments tlb {F} _.

Section vm.
Context {im : Image} {F : Type} {fo : FrameOps F}.

Definition VM := M (VSt F).

Definition word (s : VSt F) (p i : Z) : Z := default (junk p i) (mem s !! (p, i)).

Definition set_word (p i x : Z) (s : VSt F) : VSt F :=
  mkVSt (<[(p, i) := x]> (mem s)) (frames s) (fixed s) (regions s) (tlb s).
Definition set_fixed (r : Region) (s : VSt F) : VSt F :=
  mkVSt (mem s) (frames s) r (regions s) (tlb s).
Definition set_regions (r : Region) (s : VSt F) : VSt F :=
  mkVSt (mem s) (frames s) (fixed s) r (tlb s).
Definition set_tlb (l : list Tlbe) (s : VSt F) : VSt F :=
  mkVSt (mem s) (frames s) (fixed s) (regions s) l.

Definition on_frames {A} (m : M F A) : VM A := λ s,
  match m (frames s) with
  | Done (a, f) => Done (a, mkVSt (mem s) f (fixed s) (regions s) (tlb s))
  | Fault e => Fault e
  end.

(** ** The TLB *)

(** [mov x0, asid; lsl x0, x0, #48; tlbi aside1, x0]: what is remembered for
    this address space alone. *)
Definition tlbi_aside1 (asid : Z) : VM unit :=
  let x0 := wshl 64 asid 48 in
  modify (λ s, set_tlb (List.filter (λ t, te_global t || negb (te_asid t =? Z.shiftr x0 48)) (tlb s)) s).

(** [tlbi vaae1, v >> 12]: a page, in every address space. *)
Definition tlbi_vaee1 (v : Z) : VM unit :=
  modify (λ s, set_tlb (flush_page v (tlb s)) s).

(** [tlbi VMALLE1]: everything. *)
Definition tlbi_vmalle1 : VM unit := modify (set_tlb []).

(** A [&mut [u64]] of 512 entries. *)
Inductive Slice :=
  | Phys (p : Z)
  | Win (v : Z).

(** The frame behind a slice. *)
Definition frame_of (s : VSt F) (sl : Slice) : Z :=
  match sl with
  | Phys p => p
  | Win v => Z.land (word s im_l3 (vaddr_l3 v)) PHY_MASK
  end.

Definition pt_get (sl : Slice) (i : Z) : VM Z :=
  assert_ (i <? 512) ;;;
  gets (λ s, word s (frame_of s sl) i).

Definition pt_set (sl : Slice) (i x : Z) : VM unit :=
  assert_ (i <? 512) ;;;
  modify (λ s, set_word (frame_of s sl) i x s).

Definition zero_pt (sl : Slice) : VM unit :=
  forM (range 0 512) (λ i, pt_set sl i 0).

(** ** Windows *)
Definition pm_wrap_new (pm perms : Z) (zero : bool) : VM (Error + Z) :=
  let pm := Z.land pm PHY_MASK in
  if pm <? 0x40000000 then ret (inl EInval)
  else
    let! s := get in
    let! (o, r) := lift (region_alloc (fixed s) 1) in
    modify (set_fixed r) ;;;
    match o with
    | Some v =>
        modify (set_word im_l3 (vaddr_l3 v) (Z.lor (Z.lor pm perms) 0x403)) ;;;
        tlbi_vaee1 v ;;;
        (if zero then zero_pt (Win v) else ret tt) ;;;
        ret (inr v)
    | None => ret (inl EAlloc)
    end.

(** [Drop for PmWrap]. *)
Definition pm_wrap_drop (v : Z) : VM unit :=
  let! s := get in
  let! r := lift (region_free_1 (fixed s) v) in
  modify (set_fixed r).

(** ** Building tables *)

(** The boot-time variant: tables are written through the mapping at [VOFFT]. *)
Definition pt_alloc_if_0 (idx : Z) (pt : Slice) : VM Slice :=
  let! nxt := pt_get pt idx in
  let! nxt :=
    if nxt =? 0 then
      let! o := on_frames fr_alloc in
      match o with
      | Some ptr =>
          zero_pt (Phys ptr) ;;;
          pt_set pt idx (Z.lor ptr 3) ;;;
          ret (Z.lor ptr 3)
      | None => panic
      end
    else ret nxt in
  ret (Phys (Z.land nxt PHY_MASK)).

Definition pt_alloc_if_0_2 (idx : Z) (pt : Slice) (new_cb : Slice → VM unit) : VM (Error + Z) :=
  let! nxt := pt_get pt idx in
  let! (nxt, new) :=
    if nxt =? 0 then
      let! o := on_frames fr_alloc in
      match o with
      | Some ptr => pt_set pt idx (Z.lor ptr 3) ;;; ret (ptr, true)
      | None => panic
      end
    else ret (nxt, false) in
  let! r := pm_wrap_new nxt PR_PW new in
  (if new then match r with inr v => new_cb (Win v) | inl _ => ret tt end else ret tt) ;;;
  ret r.

Definition region_perms (vaddr : Z) : Z :=
  if vaddr <? text_end then PR_PX
  else if (text_end <=? vaddr) && (vaddr <? data_end) then PR_PW
  else if (data_end <=? vaddr) && (vaddr <? rodata_end) then PR
  else if (rodata_end <=? vaddr) && (vaddr <? bss_end) then PR_PW
  else if (bss_end <=? vaddr) && (vaddr <? user_end) then PR_PW_UR_UW_UX2
  else 0.

(** The [while i < k_end] loops, one turn per block. *)
Fixpoint use_4k_loop (fuel : nat) (l0_pt : Slice) (i k_end : Z) : VM unit :=
  if i <? k_end then
    match fuel with
    | O => fail FFuel
    | S fuel' =>
        let v := i +! VOFFT in
        let! l1_pt := pt_alloc_if_0 (vaddr_l0 v) l0_pt in
        let! l2_pt := pt_alloc_if_0 (vaddr_l1 v) l1_pt in
        let! l3_pt := pt_alloc_if_0 (vaddr_l2 v) l2_pt in
        pt_set l3_pt (vaddr_l3 v) (Z.lor (Z.lor i (region_perms (i +! VOFFT))) 0x403) ;;;
        use_4k_loop fuel' l0_pt (i +! 4 *! KB) k_end
    end
  else ret tt.

Definition use_4k_blocks (l0_pt : Slice) (k_begin k_end : Z) : VM unit :=
  let k_begin := align_b k_begin (4 * KB) in
  let k_end := align_f k_end (4 * KB) in
  use_4k_loop (Z.to_nat ((k_end - k_begin) / (4 * KB))) l0_pt k_begin k_end.

Fixpoint use_2mb_loop (fuel : nat) (l0_pt : Slice) (i k_end : Z) : VM unit :=
  if i <? k_end then
    match fuel with
    | O => fail FFuel
    | S fuel' =>
        let v := i +! VOFFT in
        let! l1_pt := pt_alloc_if_0 (vaddr_l0 v) l0_pt in
        let! l2_pt := pt_alloc_if_0 (vaddr_l1 v) l1_pt in
        pt_set l2_pt (vaddr_l2 v) (Z.lor i 0x401) ;;;
        use_2mb_loop fuel' l0_pt (i +! 2 *! MB) k_end
    end
  else ret tt.

Definition use_2mb_blocks (l0_pt : Slice) (k_begin k_end : Z) : VM unit :=
  let k_begin := align_b k_begin (2 * MB) in
  let k_end := align_f k_end (2 * MB) in
  use_2mb_loop (Z.to_nat ((k_end - k_begin) / (2 * MB))) l0_pt k_begin k_end.

Fixpoint use_gb_loop (fuel : nat) (l0_pt : Slice) (i k_end : Z) : VM unit :=
  if i <? k_end then
    match fuel with
    | O => fail FFuel
    | S fuel' =>
        let v := i +! VOFFT in
        let! l1_pt := pt_alloc_if_0 (vaddr_l0 v) l0_pt in
        pt_set l1_pt (vaddr_l1 v) (Z.lor i 0x401) ;;;
        use_gb_loop fuel' l0_pt (i +! GB) k_end
    end
  else ret tt.

Definition use_gb_blocks (l0_pt : Slice) (k_begin k_end : Z) : VM unit :=
  let k_begin := align_b k_begin GB in
  let k_end := align_f k_end GB in
  use_gb_loop (Z.to_nat ((k_end - k_begin) / GB)) l0_pt k_begin k_end.

(** ** Mapping, translating, unmapping *)
Definition map_v2p_4k_inner (l0_pt : Slice) (v p perms : Z) (overw : bool)
    (ncb : Slice → VM unit) : VM (Error + Z) :=
  let! r1 := pt_alloc_if_0_2 (vaddr_l0 v) l0_pt ncb in
  match r1 with inl _ => ret (inl EAlloc) | inr l1_pt =>
  let! r2 := pt_alloc_if_0_2 (vaddr_l1 v) (Win l1_pt) ncb in
  match r2 with inl _ => pm_wrap_drop l1_pt ;;; ret (inl EAlloc) | inr l2_pt =>
  let! r3 := pt_alloc_if_0_2 (vaddr_l2 v) (Win l2_pt) ncb in
  match r3 with
  | inl _ => pm_wrap_drop l2_pt ;;; pm_wrap_drop l1_pt ;;; ret (inl EAlloc)
  | inr l3_pt =>
  let! old := pt_get (Win l3_pt) (vaddr_l3 v) in
  let overwritten := negb (old =? 0) in
  let! r :=
    if overwritten && negb overw then ret (inl (EExists v))
    else
      pt_set (Win l3_pt) (vaddr_l3 v) (Z.lor (Z.lor p perms) 0x403) ;;;
      tlbi_vaee1 v ;;;
      ret (if overwritten then inl (EExists v) else inr v) in
  pm_wrap_drop l3_pt ;;; pm_wrap_drop l2_pt ;;; pm_wrap_drop l1_pt ;;;
  ret r
  end end end.

Definition map_v2p_4k (v p perms : Z) : VM (Error + Z) :=
  map_v2p_4k_inner (Phys im_pt) v p perms false (λ _, ret tt).

Definition map_v2p_4k2 (v p perms : Z) : VM (Error + Z) :=
  map_v2p_4k_inner (Phys im_pt) v p perms false (λ _, ret tt).

Definition walk_to_l3 (l0_pt : Slice) (v : Z) : VM (Error + Z) :=
  let! e1 := pt_get l0_pt (vaddr_l0 v) in
  if e1 =? 0 then ret (inl EInval) else
  let! r1 := pm_wrap_new e1 PR false in
  match r1 with inl e => ret (inl e) | inr l1_pt =>
  let! e2 := pt_get (Win l1_pt) (vaddr_l1 v) in
  if e2 =? 0 then pm_wrap_drop l1_pt ;;; ret (inl EInval) else
  let! r2 := pm_wrap_new e2 PR false in
  match r2 with inl e => pm_wrap_drop l1_pt ;;; ret (inl e) | inr l2_pt =>
  let! e3 := pt_get (Win l2_pt) (vaddr_l2 v) in
  if e3 =? 0 then pm_wrap_drop l2_pt ;;; pm_wrap_drop l1_pt ;;; ret (inl EInval) else
  let! r3 := pm_wrap_new e3 PR_PW false in
  pm_wrap_drop l2_pt ;;; pm_wrap_drop l1_pt ;;;
  ret r3
  end end.

(** [cb] receives the pointer to the leaf entry. *)
Definition v2p_pt (l0_pt : Slice) (v : Z) (cb : option (Slice → Z → VM unit)) : VM (Error + Z) :=
  let! r := walk_to_l3 l0_pt v in
  match r with
  | inl e => ret (inl e)
  | inr l3_pt =>
      match cb with Some f => f (Win l3_pt) (vaddr_l3 v) | None => ret tt end ;;;
      let! e := pt_get (Win l3_pt) (vaddr_l3 v) in
      pm_wrap_drop l3_pt ;;;
      ret (inr (Z.lor (Z.land e PHY_MASK) (Z.land v 0xfff)))
  end.

Definition v2p (v : Z) : VM (Error + Z) := v2p_pt (Phys im_pt) v None.

Definition unmap_4k_inner (l0_pt : Slice) (v : Z) : VM (Error + unit) :=
  let! r := walk_to_l3 l0_pt v in
  match r with
  | inl e => ret (inl e)
  | inr l3_pt =>
      pt_set (Win l3_pt) (vaddr_l3 v) 0 ;;;
      tlbi_vaee1 v ;;;
      pm_wrap_drop l3_pt ;;;
      ret (inr tt)
  end.

Definition unmap_4k (v : Z) : VM (Error + unit) := unmap_4k_inner (Phys im_pt) v.

(** ** Giving a tree back *)

(** [for i in 0..pt.len() { body? }]. *)
Fixpoint try_for (l : list Z) (body : Z → VM (unit + unit)) : VM (unit + unit) :=
  match l with
  | [] => ret (inr tt)
  | i :: l' =>
      let! r := body i in
      match r with inl e => ret (inl e) | inr _ => try_for l' body end
  end.

(** [down] is [3 - level]. *)
Fixpoint free_walk (down : nat) (pt : Slice) : VM (unit + unit) :=
  match down with
  | S down' =>
      try_for (range 0 512) (λ i,
        let! e := pt_get pt i in
        let paddr := Z.land e PHY_MASK in
        if 0x40000000 <=? paddr then
          let! r := pm_wrap_new paddr PR false in
          match r with
          | inl _ => ret (inl tt)
          | inr w =>
              let! r := free_walk down' (Win w) in
              match r with
              | inl e => pm_wrap_drop w ;;; ret (inl e)
              | inr _ => on_frames (fr_free paddr) ;;; pm_wrap_drop w ;;; ret (inr tt)
              end
          end
        else ret (inr tt))
  | O =>
      try_for (range 0 512) (λ i,
        let! e := pt_get pt i in
        let paddr := Z.land e PHY_MASK in
        if (0x40000000 <=? paddr) && (0 <? Z.land e 3) then
          on_frames (fr_free paddr) ;;; ret (inr tt)
        else ret (inr tt))
  end.

Definition free_pt (pm_pt : Z) : VM unit :=
  let! r := pm_wrap_new pm_pt PR false in
  match r with
  | inl _ => panic
  | inr w =>
      let! r := free_walk 3 (Win w) in
      match r with
      | inl _ => panic
      | inr _ => on_frames (fr_free pm_pt) ;;; pm_wrap_drop w
      end
  end.

(** ** Start-up and the kernel's own virtual memory *)
Definition init_regions (start_p : Z) : VM unit :=
  modify (λ s, set_regions (mkRegion (align_f start_p (4 * KB) +! VOFFT) (r_bs (regions s))) s) ;;;
  modify (λ s, set_fixed (mkRegion 0xfffffffffff00000 (r_bs (fixed s))) s).

Definition init (k_begin k_end : Z) : VM unit :=
  use_4k_blocks (Phys im_pt) k_begin k_end ;;;
  let v := wnot 64 0 in
  pt_set (Phys im_pt) (vaddr_l0 v) (Z.lor im_l1 3) ;;;
  pt_set (Phys im_l1) (vaddr_l1 v) (Z.lor im_l2 3) ;;;
  pt_set (Phys im_l2) (vaddr_l2 v) (Z.lor im_l3 3) ;;;
  tlbi_vmalle1 ;;;
  on_frames (fr_free_low k_begin) ;;;
  init_regions k_end.

Definition alloc (n : Z) : VM (option Z) :=
  let! s := get in
  let! (o, r) := lift (region_alloc (regions s) n) in
  modify (set_regions r) ;;;
  ret o.

Definition free_4k (v : Z) : VM unit :=
  let! s := get in
  let! r := lift (region_free_1 (regions s) v) in
  modify (set_regions r) ;;;
  let! u := unmap_4k v in
  match u with inl _ => panic | inr _ => ret tt end.

Definition free (addr n : Z) : VM unit :=
  forM (range 0 n) (λ i, free_4k (addr +! i *! 4 *! KB)).

(** The loop of [map] and [map2], with the early return of [?]. *)
Fixpoint map_loop (mapper : Z → Z → Z → VM (Error + Z)) (l : list Z) (v p perms : Z) : VM (Error + unit) :=
  match l with
  | [] => ret (inr tt)
  | i :: l' =>
      let! r := mapper (v +! i *! 4 *! KB) (p +! i *! 4 *! KB) perms in
      match r with inl e => ret (inl e) | inr _ => map_loop mapper l' v p perms end
  end.

(** The deferred [free] runs on the way out of a failed loop only. *)
Definition map (p n perms : Z) : VM (Error + Z) :=
  let! o := alloc n in
  match o with
  | Some v =>
      let! r := map_loop map_v2p_4k (range 0 n) v p perms in
      match r with
      | inl e => free v n ;;; ret (inl e)
      | inr _ => ret (inr v)
      end
  | None => ret (inl EAlloc)
  end.

Definition map2 (p n perms : Z) : VM (Error + Z) :=
  let! o := alloc n in
  match o with
  | Some v =>
      let! r := map_loop map_v2p_4k2 (range 0 n) v p perms in
      match r with
      | inl e => free v n ;;; ret (inl e)
      | inr _ => ret (inr v)
      end
  | None => ret (inl EAlloc)
  end.
End vm.

Arguments VM F : clear implicits.
