(* ===== verification/VmInv.v ===== *)
(** * Invariants of the page tables and of the windows onto them

    [Wins s W]: exactly the windows in [W] are taken, each showing the frame
    [W] says.  [forest s T]: the tables are trees; [T] gives every table frame
    the root and the path of indices that lead to it, so no table is reachable
    twice.  [FrameLaws] is what the page allocator promises. *)
From S2P Require Import Prelude Stuff Pm Vm.

Local Open Scope Z_scope.

(** ** Entries *)
Definition frame_ok (p : Z) : Prop := 0x40000000 ≤ p ∧ Z.land p PHY_MASK = p.

(** Bits that a permission may use: none of the address. *)
Definition perms_ok (perms : Z) : Prop := Z.land perms PHY_MASK = 0.

Section entries.
Lemma land_mask_idem e : Z.land (Z.land e PHY_MASK) PHY_MASK = Z.land e PHY_MASK.
Proof. by rewrite <- Z.land_assoc. Qed.

Lemma leaf_frame p perms :
  perms_ok perms → Z.land (Z.lor (Z.lor p perms) 0x403) PHY_MASK = Z.land p PHY_MASK.
Proof.
  intros Hp. rewrite !Z.land_lor_distr_l, Hp. change (Z.land 0x403 PHY_MASK) with 0.
  by rewrite !Z.lor_0_r.
Qed.

Lemma table_frame p : Z.land (Z.lor p 3) PHY_MASK = Z.land p PHY_MASK.
Proof. rewrite Z.land_lor_distr_l. change (Z.land 3 PHY_MASK) with 0. by rewrite Z.lor_0_r. Qed.

Lemma lor_ne0 a b : b ≠ 0 → Z.lor a b ≠ 0.
Proof. intros Hb E. by apply Z.lor_eq_0_iff in E as [_ ?]. Qed.

Lemma idx9 v k : 0 ≤ Z.land (Z.shiftr v k) 0x1ff < 512.
Proof. change 0x1ff with (Z.ones 9). rewrite Z.land_ones by lia. by apply Z.mod_pos_bound. Qed.

Lemma l0_range v : 0 ≤ vaddr_l0 v < 512.
Proof. apply idx9. Qed.
Lemma l1_range v : 0 ≤ vaddr_l1 v < 512.
Proof. apply idx9. Qed.
Lemma l2_range v : 0 ≤ vaddr_l2 v < 512.
Proof. apply idx9. Qed.
Lemma l3_range v : 0 ≤ vaddr_l3 v < 512.
Proof. apply idx9. Qed.
End entries.

#[export] Hint Resolve l0_range l1_range l2_range l3_range : krn.

(** ** What the page allocator promises

    [owns f G]: [G] maps the live one-page frames to their reference counts;
    [room f n]: at least [n] more frames can be handed out; [low f k]: the
    frames below [k] are still held since boot; [busy f p]: the frame belongs
    to a live block of some size. *)
Class FrameLaws (F : Type) `{FrameOps F} := {
  owns : F → gmap Z Z → Prop;
  room : F → nat → Prop;
  low : F → Z → Prop;
  busy : F → Z → Prop;
  owns_busy f G p n : owns f G → G !! p = Some n → busy f p;
  owns_frame f G p n : owns f G → G !! p = Some n → frame_ok p ∧ 0 < n;
  room_less f n : room f (S n) → room f n;
  fr_alloc_law f G n : owns f G → room f (S n) →
    ∃ p f', fr_alloc f = Done (Some p, f') ∧ G !! p = None ∧ owns f' (<[p := 1]> G) ∧ room f' n ∧
      (∀ k, low f k → low f' k) ∧ ¬ busy f p ∧ ∀ q, busy f q → busy f' q;
  low_held f G k p : owns f G → low f k → frame_ok p → p < align_b k 4096 → is_Some (G !! p);
  fr_free_low_law f G k : owns f G → low f k →
    ∃ f', fr_free_low k f = Done (tt, f') ∧ owns f' (filter (λ pn, align_b k 4096 ≤ pn.1) G) ∧
      ∀ m, room f m → room f' m;
  fr_free_law f G p n : owns f G → G !! p = Some n →
    ∃ f', fr_free p f = Done (tt, f') ∧
      owns f' (if 1 <? n then <[p := n - 1]> G else delete p G) ∧ ∀ m, room f m → room f' m;
}.

Section windows.
Context {im : Image} {F : Type} {fo : FrameOps F}.
Implicit Types (s : VSt F) (W : gmap Z Z).

Definition waddr (i : Z) : Z := 0xfffffffffff00000 + i * 4096.

Record Wins s W : Prop := {
  w_start : r_start (fixed s) = 0xfffffffffff00000;
  w_wf : BitSet128.wf (r_bs (fixed s));
  w_len : BitSet128.len (r_bs (fixed s)) = 128;
  w_bits : ∀ i, 0 ≤ i < 128 → BitSet128.mem (r_bs (fixed s)) i = bool_decide (is_Some (W !! i));
  w_dom : ∀ i e, W !! i = Some e →
    0 ≤ i < 128 ∧ Z.land (word s im_l3 (256 + i)) PHY_MASK = e;
}.

(** The entries of [FIXED_L3] that windows use. *)
Definition win_entry (p i : Z) : Prop := p = im_l3 ∧ 256 ≤ i < 384.

(** Nothing changed but windows. *)
Definition quiet s s' : Prop :=
  (∀ p i, ¬ win_entry p i → word s' p i = word s p i) ∧
  frames s' = frames s ∧ regions s' = regions s.

#[export] Instance quiet_preorder : PreOrder quiet.
Proof.
  split; [by intros s|]. intros s1 s2 s3 (A1 & B1 & C1) (A2 & B2 & C2).
  split_and!; [|congruence..]. intros p i Hn. by rewrite A2, A1.
Qed.

Lemma l3_waddr i : 0 ≤ i < 128 → vaddr_l3 (waddr i) = 256 + i.
Proof.
  intros Hi. unfold vaddr_l3, waddr. change 0x1ff with (Z.ones 9).
  rewrite Z.land_ones, Z.shiftr_div_pow2 by lia. change (2 ^ 12) with 4096. change (2 ^ 9) with 512.
  zdiv.
Qed.

Lemma word_set s p i x q j :
  word (set_word p i x s) q j = if decide (q = p ∧ j = i) then x else word s q j.
Proof.
  unfold word, set_word; simpl. case_decide as Hd.
  - destruct Hd as [-> ->]. by rewrite lookup_insert_eq.
  - rewrite lookup_insert_ne; [done|]. intros [= -> ->]. by apply Hd.
Qed.

(** A slice that is known to show frame [p]. *)
Definition shows W (sl : Slice) (p : Z) : Prop :=
  sl = Phys p ∨ ∃ i, sl = Win (waddr i) ∧ W !! i = Some p.

Lemma shows_frame s W sl p : Wins s W → shows W sl p → frame_of s sl = p.
Proof.
  intros HW [->|(i & -> & Hi)]; [done|]. destruct (w_dom _ _ HW _ _ Hi) as [Hr <-].
  simpl. by rewrite l3_waddr.
Qed.

Lemma shows_mono W W' sl p : W ⊆ W' → shows W sl p → shows W' sl p.
Proof.
  intros Hs [->|(i & -> & Hi)]; [by left|]. right. exists i. split; [done|].
  by eapply lookup_weaken.
Qed.

Lemma shows_insert W i q : shows (<[i := q]> W) (Win (waddr i)) q.
Proof. right. exists i. split; [done|apply lookup_insert_eq]. Qed.

Lemma pt_get_run s W sl p i :
  Wins s W → shows W sl p → 0 ≤ i < 512 → pt_get sl i s = Done (word s p i, s).
Proof.
  intros HW Hs Hi. unfold pt_get. rewrite (proj2 (Z.ltb_lt _ _)) by lia. mstep.
  unfold gets. by rewrite (shows_frame _ _ _ _ HW Hs).
Qed.

Lemma pt_set_run s W sl p i x :
  Wins s W → shows W sl p → 0 ≤ i < 512 → pt_set sl i x s = Done (tt, set_word p i x s).
Proof.
  intros HW Hs Hi. unfold pt_set. rewrite (proj2 (Z.ltb_lt _ _)) by lia. mstep.
  unfold modify. by rewrite (shows_frame _ _ _ _ HW Hs).
Qed.

(** Writes outside of the window entries leave the windows alone. *)
Lemma Wins_set s W p i x : Wins s W → ¬ win_entry p i → Wins (set_word p i x s) W.
Proof.
  intros [H1 H2 H3 H4 H5] Hn. split; try done. intros j e Hj.
  destruct (H5 j e Hj) as [Hr <-]. split; [done|]. rewrite word_set, decide_False; [done|].
  intros [<- <-]. apply Hn. split; [done|lia].
Qed.

Lemma Wins_mem s W f r : Wins s W → Wins (mkVSt (mem s) f (fixed s) r (tlb s)) W.
Proof. intros [H1 H2 H3 H4 H5]. by split. Qed.

Lemma Wins_tlb s W l : Wins s W → Wins (set_tlb l s) W.
Proof. intros [H1 H2 H3 H4 H5]. by split. Qed.

Lemma tlbi_run v s : tlbi_vaee1 v s = Done (tt, set_tlb (flush_page v (tlb s)) s).
Proof. done. Qed.

Lemma tlbi_all_run s : tlbi_vmalle1 s = Done (tt, set_tlb [] s).
Proof. done. Qed.

Lemma quiet_tlb s l : quiet s (set_tlb l s).
Proof. done. Qed.

Lemma room_left W :
  (∀ i e, W !! i = Some e → 0 ≤ i < 128) → (base.size W < 128)%nat → ∃ i, 0 ≤ i < 128 ∧ W !! i = None.
Proof.
  intros Hd Hs. destruct (decide (Forall (λ i, is_Some (W !! i)) (seqZ 0 128))) as [Ha|Hn].
  - exfalso. rewrite <- size_dom in Hs.
    assert (list_to_set (seqZ 0 128) ⊆ dom W) as Hsub.
    { intros i Hi. rewrite elem_of_list_to_set in Hi. apply elem_of_dom.
      by eapply (proj1 (Forall_forall _ _)) in Ha. }
    apply subseteq_size in Hsub. rewrite size_list_to_set, length_seqZ in Hsub by apply NoDup_seqZ. lia.
  - apply not_Forall_Exists, Exists_exists in Hn; [|apply _]. destruct Hn as (i & Hi & Hn).
    apply elem_of_seqZ in Hi. exists i. split; [lia|]. by apply eq_None_not_Some.
Qed.

(** Taking a window. *)
Lemma region_alloc_1 s W :
  Wins s W → (base.size W < 128)%nat →
  ∃ i r, region_alloc (fixed s) 1 = Done (Some (waddr i), r) ∧ 0 ≤ i < 128 ∧ W !! i = None ∧
    ∀ x, Wins (set_word im_l3 (256 + i) x (set_fixed r s)) (<[i := Z.land x PHY_MASK]> W).
Proof.
  intros [H1 H2 H3 H4 H5] Hs.
  destruct (room_left W) as (k & Hk & Hkn); [intros i e Hi; by apply (H5 i e)|done|].
  assert (BitSet128.mem (r_bs (fixed s)) k = false) as Hkf.
  { rewrite H4 by done. apply bool_decide_eq_false_2. rewrite Hkn. by intros [? ?]. }
  assert (region_is_full (fixed s) = false) as Hf.
  { unfold region_is_full. apply not_true_iff_false. rewrite BitSet128.full_iff by done.
    intros Ha. rewrite Ha in Hkf by lia. done. }
  unfold region_alloc. rewrite Hf. simpl orb. change (4 <? 1) with false. cbn iota.
  change (wrap 8 1) with 1.
  destruct (BitSet128.set_nclr_ok (r_bs (fixed s)) H2 1) as (r & bs' & E & Hwf' & Hl' & Hr); [lia|].
  rewrite E. unfold obind. cbv beta iota. destruct r as [i|].
  2: { exfalso. destruct Hr as [_ Hr]. apply (Hr k); [lia..|]. intros j Hj. by replace j with k by lia. }
  destruct Hr as (Hi0 & Hi1 & Hc & _ & Hm). rewrite H3 in *.
  assert (W !! i = None) as HWi.
  { specialize (Hc i ltac:(lia)). rewrite H4 in Hc by lia. apply bool_decide_eq_false in Hc.
    by apply eq_None_not_Some. }
  assert (i *! 4096 +! r_start (fixed s) = waddr i) as ->.
  { rewrite H1. unfold waddr. rewrite wmul_small by lia. rewrite wadd_small; lia. }
  eexists i, _. split_and!; [done|lia|lia|done|]. intros x. split; simpl; try done; [|].
  - intros j Hj. rewrite Hm, H4 by done. rewrite lookup_insert. case_decide; subst.
    + rewrite bool_decide_eq_true_2 by lia. symmetry. by apply bool_decide_eq_true_2.
    + rewrite bool_decide_eq_false_2 by lia. done.
  - intros j e. rewrite lookup_insert. case_decide as Hd; [intros [= <-]; subst|intros Hj].
    + split; [lia|]. by rewrite word_set, decide_True.
    + destruct (H5 j e Hj) as [Hr <-]. split; [done|]. rewrite word_set, decide_False by lia. done.
Qed.

Lemma wrap_new_run s W e perms :
  Wins s W → (base.size W < 128)%nat → 0x40000000 ≤ Z.land e PHY_MASK → perms_ok perms →
  ∃ i s', 0 ≤ i < 128 ∧ W !! i = None ∧
    (∀ zero, pm_wrap_new e perms zero s =
       ((if zero then zero_pt (Win (waddr i)) else ret tt) ;;; ret (inr (waddr i))) s') ∧
    Wins s' (<[i := Z.land e PHY_MASK]> W) ∧ quiet s s'.
Proof.
  intros HW Hs He Hp. destruct (region_alloc_1 s W HW Hs) as (i & r & E & Hi & Hn & Hw).
  specialize (Hw (Z.lor (Z.lor (Z.land e PHY_MASK) perms) 0x403)).
  rewrite leaf_frame, land_mask_idem in Hw by done.
  eexists i, _. split_and!; [lia|lia|done| | |].
  - intros zero. unfold pm_wrap_new. rewrite (proj2 (Z.ltb_ge _ _) He). mstep.
    unfold lift, bind, tlbi_vaee1, modify. rewrite E, l3_waddr by done. done.
  - by apply Wins_tlb.
  - etrans; [|apply quiet_tlb]. split_and!; try done. intros p j Hne. rewrite word_set, decide_False; [done|].
    intros [-> ->]. apply Hne. split; [done|lia].
Qed.

(** Giving a window back. *)
Lemma wrap_drop_run s W i e :
  Wins s W → W !! i = Some e →
  ∃ s', pm_wrap_drop (waddr i) s = Done (tt, s') ∧ Wins s' (delete i W) ∧ quiet s s' ∧
    mem s' = mem s.
Proof.
  intros [H1 H2 H3 H4 H5] Hi. destruct (H5 i e Hi) as [Hr _].
  unfold pm_wrap_drop. mstep. unfold region_free_1, region_free_inner.
  rewrite H1, (proj2 (Z.leb_le _ _)) by (unfold waddr; lia).
  replace ((waddr i - 0xfffffffffff00000) / 4096) with i by (unfold waddr; zdiv).
  rewrite (proj2 (Z.leb_gt _ _)) by lia.
  rewrite BitSet128.tst_mem, H4 by (done || lia). rewrite bool_decide_eq_true_2 by (by rewrite Hi).
  destruct (BitSet128.clr_ok (r_bs (fixed s)) H2 i) as (bs & E & Hwf & Hl & Hm); [lia|].
  unfold obind. rewrite E. eexists. split; [done|]. split; [|done].
  split; simpl; try done; [by rewrite Hl| |].
  - intros j Hj. rewrite Hm by lia. rewrite H4 by done. rewrite lookup_delete. case_decide; subst.
    + rewrite bool_decide_eq_true_2 by done. symmetry. by apply bool_decide_eq_false_2; intros [? ?].
    + by rewrite bool_decide_eq_false_2 by lia.
  - intros j e' Hj. apply lookup_delete_Some in Hj as [_ Hj]. by apply H5.
Qed.

Lemma wrap_drop_tlb v s s' l : pm_wrap_drop v s = Done (tt, s') → pm_wrap_drop v (set_tlb l s) = Done (tt, set_tlb l s').
Proof.
  unfold pm_wrap_drop, bind, get, lift. simpl. destruct (region_free_1 (fixed s) v) as [r|]; [|done]. by intros [= <-].
Qed.

(** Clearing a frame. *)
Lemma zero_pt_gen (P : VSt F → Prop) sl p s :
  (∀ s1, P s1 → frame_of s1 sl = p) → (∀ s1 i, P s1 → P (set_word p i 0 s1)) → P s →
  ∃ s', zero_pt sl s = Done (tt, s') ∧ P s' ∧ frames s' = frames s ∧ regions s' = regions s ∧
    fixed s' = fixed s ∧
    ∀ q j, word s' q j = if decide (q = p ∧ 0 ≤ j < 512) then 0 else word s q j.
Proof.
  intros Hfr Hset. unfold zero_pt.
  assert (∀ k s1 lo, 0 ≤ lo → k = Z.to_nat (512 - lo) → P s1 → ∃ s',
    forM (range lo 512) (λ i, pt_set sl i 0) s1 = Done (tt, s') ∧ P s' ∧
    frames s' = frames s1 ∧ regions s' = regions s1 ∧ fixed s' = fixed s1 ∧
    ∀ q j, word s' q j = if decide (q = p ∧ lo ≤ j < 512) then 0 else word s1 q j) as L; [|by eapply L].
  induction k as [|k IH]; intros s1 lo Hlo Hk HP1.
  - rewrite range_nil by lia. exists s1. split_and!; try done. intros q j. by rewrite decide_False by lia.
  - rewrite range_cons by lia.
    assert (pt_set sl lo 0 s1 = Done (tt, set_word p lo 0 s1)) as E.
    { unfold pt_set. rewrite (proj2 (Z.ltb_lt _ _)) by lia. mstep. unfold modify. by rewrite Hfr. }
    rewrite (forM_cons (λ i, pt_set sl i 0) lo _ _ _ E).
    destruct (IH (set_word p lo 0 s1) (lo + 1)) as (s' & E' & HW' & Ef & Er & Ex & Hw); [lia|lia|by apply Hset|].
    exists s'. split_and!; try done. intros q j. rewrite Hw, word_set.
    repeat case_decide; done || lia.
Qed.

Lemma zero_pt_run s W sl p :
  Wins s W → shows W sl p → p ≠ im_l3 →
  ∃ s', zero_pt sl s = Done (tt, s') ∧ Wins s' W ∧ frames s' = frames s ∧ regions s' = regions s ∧
    ∀ q j, word s' q j = if decide (q = p ∧ 0 ≤ j < 512) then 0 else word s q j.
Proof.
  intros HW Hs Hp.
  destruct (zero_pt_gen (λ s1, Wins s1 W) sl p s) as (s' & E & HW' & Ef & Er & _ & Hw); [| |done|].
  - intros s1 HW1. by eapply shows_frame.
  - intros s1 i HW1. apply Wins_set; [done|]. by intros [-> _].
  - by exists s'.
Qed.
End windows.
