(* ===== verification/VmTree.v ===== *)
(** * The tables as a forest: walking, growing and writing leaves *)
From S2P Require Import Prelude Stuff Pm Vm VmInv.

Local Open Scope Z_scope.

Section tree.
Context {im : Image} {F : Type} {fo : FrameOps F} {fl : FrameLaws F}.
Implicit Types (s : VSt F) (W G : gmap Z Z) (T : gmap Z (Z * list Z)).

(** The tables are trees. *)
Record trees s T : Prop := {
  fo_len p r path : T !! p = Some (r, path) → (length path ≤ 3)%nat;
  fo_root p r : T !! p = Some (r, []) → p = r;
  fo_child p r path i :
    T !! p = Some (r, path) → (length path < 3)%nat → 0 ≤ i < 512 → word s p i ≠ 0 →
    T !! Z.land (word s p i) PHY_MASK = Some (r, path ++ [i]);
  fo_parent q r path i :
    T !! q = Some (r, path ++ [i]) →
    ∃ p, T !! p = Some (r, path) ∧ 0 ≤ i < 512 ∧ word s p i ≠ 0 ∧ Z.land (word s p i) PHY_MASK = q;
}.

(** And the table of the windows is where [init] puts it. *)
Record forest s T : Prop := {
  fo_trees :> trees s T;
  fo_win : T !! im_l3 = Some (im_pt, [511; 511; 511]);
}.

Record Inv s T W G : Prop := {
  inv_wins : Wins s W;
  inv_forest : forest s T;
  inv_owns : owns (frames s) G;
  inv_live : ∀ p x, T !! p = Some x → is_Some (G !! p);
}.

(** ** What the hardware walk finds *)
Definition child s (p i : Z) : option Z :=
  if word s p i =? 0 then None else Some (Z.land (word s p i) PHY_MASK).

Definition walk s (r v : Z) : option Z :=
  t1 ← child s r (vaddr_l0 v); t2 ← child s t1 (vaddr_l1 v); child s t2 (vaddr_l2 v).

Definition translate s (r v : Z) : option Z :=
  t3 ← walk s r v; let e := word s t3 (vaddr_l3 v) in if e =? 0 then None else Some e.

Definition vpath (v : Z) : list Z := [vaddr_l0 v; vaddr_l1 v; vaddr_l2 v].

(** The pages the windows live in. *)
Definition win_page (r v : Z) : Prop := r = im_pt ∧ vpath v = [511; 511; 511].

(** Two addresses in the same page. *)
Definition same_page (v v' : Z) : Prop := vpath v = vpath v' ∧ vaddr_l3 v = vaddr_l3 v'.

Lemma child_T s T p r path i q :
  trees s T → T !! p = Some (r, path) → (length path < 3)%nat → 0 ≤ i < 512 →
  child s p i = Some q → T !! q = Some (r, path ++ [i]).
Proof.
  intros HF Hp Hl Hi. unfold child. destruct (Z.eqb_spec (word s p i) 0); [done|].
  intros [= <-]. by eapply fo_child.
Qed.

Lemma parent_child s T q r path i :
  trees s T → T !! q = Some (r, path ++ [i]) → ∃ p, T !! p = Some (r, path) ∧ child s p i = Some q.
Proof.
  intros HF Hq. destruct (fo_parent _ _ HF _ _ _ _ Hq) as (p & Hp & _ & Hne & <-).
  exists p. split; [done|]. unfold child. by destruct (Z.eqb_spec (word s p i) 0).
Qed.

Lemma walk_T s T r v t :
  trees s T → T !! r = Some (r, []) → walk s r v = Some t ↔ T !! t = Some (r, vpath v).
Proof.
  intros HF Hr. unfold walk, vpath. split.
  - intros Hw. destruct (child s r (vaddr_l0 v)) as [t1|] eqn:E1; [simpl in Hw|done].
    destruct (child s t1 (vaddr_l1 v)) as [t2|] eqn:E2; [simpl in Hw|done]. rename Hw into E3.
    pose proof (child_T _ _ _ _ [] _ _ HF Hr ltac:(simpl; lia) (idx9 _ _) E1) as HT1.
    pose proof (child_T _ _ _ _ [_] _ _ HF HT1 ltac:(simpl; lia) (idx9 _ _) E2) as HT2.
    exact (child_T _ _ _ _ [_; _] _ _ HF HT2 ltac:(simpl; lia) (idx9 _ _) E3).
  - intros Ht. change [?a; ?b; ?c] with ([a; b] ++ [c]) in Ht.
    destruct (parent_child _ _ _ _ _ _ HF Ht) as (t2 & Ht2 & E3).
    change ([?a; ?b]) with ([a] ++ [b]) in Ht2. destruct (parent_child _ _ _ _ _ _ HF Ht2) as (t1 & Ht1 & E2).
    change [?a] with ([] ++ [a]) in Ht1. destruct (parent_child _ _ _ _ _ _ HF Ht1) as (t0 & Ht0 & E1).
    apply (fo_root _ _ HF) in Ht0 as ->. by rewrite E1; simpl; rewrite E2; simpl.
Qed.

Lemma win_walk s T r v : forest s T → T !! r = Some (r, []) → walk s r v = Some im_l3 → win_page r v.
Proof.
  intros HF Hr Hw. apply (walk_T _ _ _ _ _ HF Hr) in Hw. rewrite (fo_win _ _ HF) in Hw.
  split; congruence.
Qed.

(** ** Growing the forest *)

(** Tables may be added; entries that were there stay. *)
Definition extends s T s' T' : Prop :=
  T ⊆ T' ∧
  (∀ t r path i, T !! t = Some (r, path) → 0 ≤ i < 512 → ¬ win_entry t i →
     word s t i ≠ 0 ∨ length path = 3%nat → word s' t i = word s t i) ∧
  (∀ t r path i, T !! t = None → T' !! t = Some (r, path) → length path = 3%nat → 0 ≤ i < 512 →
     word s' t i = 0).

Lemma extends_trans_gen s1 T1 s2 T2 s3 T3 :
  (∀ t x, T1 !! t = None → T2 !! t = Some x → t ≠ im_l3) →
  extends s1 T1 s2 T2 → extends s2 T2 s3 T3 → extends s1 T1 s3 T3.
Proof.
  intros Hnw (S1 & A1 & B1) (S2 & A2 & B2). split; [by etrans|]. split.
  - intros t r path i Ht Hi Hw Hor. pose proof (A1 _ _ _ _ Ht Hi Hw Hor) as E1.
    rewrite <- E1. eapply A2; [by eapply lookup_weaken|done..|]. by rewrite E1.
  - intros t r path i Ht Ht3 Hl Hi. destruct (T2 !! t) as [[r' path']|] eqn:Ht2; [|by eapply B2].
    pose proof (lookup_weaken _ _ _ _ Ht2 S2) as Ht3'. rewrite Ht3 in Ht3'. injection Ht3' as <- <-.
    rewrite <- (B1 _ _ _ _ Ht Ht2 Hl Hi). eapply A2; [done|done| |by right].
    intros [-> _]. by eapply Hnw.
Qed.

Lemma extends_trans s1 T1 s2 T2 s3 T3 :
  forest s1 T1 → extends s1 T1 s2 T2 → extends s2 T2 s3 T3 → extends s1 T1 s3 T3.
Proof.
  intros HF. apply extends_trans_gen. intros t x Ht _ ->. by rewrite (fo_win _ _ HF) in Ht.
Qed.

Lemma extends_quiet s T s' : quiet s s' → extends s T s' T.
Proof.
  intros (Hq & _). split; [done|]. split; [intros; by apply Hq|].
  intros t r path i E1 E2. by rewrite E1 in E2.
Qed.

Lemma extends_child s T s' T' p r path i q :
  forest s T → extends s T s' T' → T !! p = Some (r, path) → (length path < 3)%nat → 0 ≤ i < 512 →
  child s p i = Some q → child s' p i = Some q.
Proof.
  intros HF (_ & A & _) Hp Hl Hi. unfold child.
  destruct (Z.eqb_spec (word s p i) 0) as [|Hne]; [done|].
  rewrite (A _ _ _ _ Hp Hi); [by destruct (Z.eqb_spec (word s p i) 0)| |by left].
  intros [-> _]. rewrite (fo_win _ _ HF) in Hp. injection Hp as <- <-. simpl in Hl. lia.
Qed.

(** Growing changes no translation. *)
Lemma extends_translate_gen s T s' T' r v :
  trees s T → trees s' T' → extends s T s' T' → T !! r = Some (r, []) → walk s' r v ≠ Some im_l3 →
  translate s' r v = translate s r v.
Proof.
  intros HF HF' He Hr Hnw. pose proof He as (Hs & A & B).
  assert (T' !! r = Some (r, [])) as Hr' by (by eapply lookup_weaken).
  assert (∀ t0, walk s r v = Some t0 → walk s' r v = Some t0) as Hmono.
  { intros t0 E. apply (walk_T _ _ _ _ _ HF Hr) in E. apply (walk_T _ _ _ _ _ HF' Hr').
    by eapply lookup_weaken. }
  unfold translate. destruct (walk s' r v) as [t|] eqn:E'.
  - pose proof E' as Et. apply (walk_T _ _ _ _ _ HF' Hr') in Et.
    assert (t ≠ im_l3) as Hne by congruence.
    destruct (T !! t) as [[r1 path1]|] eqn:Ht.
    + pose proof (lookup_weaken _ _ _ _ Ht Hs) as Et'. rewrite Et in Et'. injection Et' as <- <-.
      rewrite (proj2 (walk_T _ _ _ _ _ HF Hr) Ht). simpl.
      rewrite (A _ _ _ _ Ht (l3_range v)); [done|by intros [? _]|by right].
    + simpl. rewrite (B _ _ _ _ Ht Et); [|done|apply idx9]. rewrite Z.eqb_refl.
      destruct (walk s r v) as [t0|] eqn:E; [|done]. exfalso.
      pose proof (Hmono t0 eq_refl) as [= ->]. apply (walk_T _ _ _ _ _ HF Hr) in E. congruence.
  - destruct (walk s r v) as [t0|] eqn:E; [|done]. by specialize (Hmono t0 eq_refl).
Qed.

Lemma extends_translate s T s' T' r v :
  forest s T → forest s' T' → extends s T s' T' → T !! r = Some (r, []) → ¬ win_page r v →
  translate s' r v = translate s r v.
Proof.
  intros HF HF' He Hr Hnw. apply (extends_translate_gen s T s' T'); try done; [apply HF|apply HF'|].
  intros E. eapply Hnw, win_walk; [exact HF'| |exact E]. eapply lookup_weaken; [done|apply He].
Qed.

(** Data stays: frames that are in use and are no table are as they were; and
    no tree is added. *)
Definition keeps s T s' T' : Prop :=
  (∀ p, busy (frames s) p → T !! p = None →
    busy (frames s') p ∧ T' !! p = None ∧ ∀ j, word s' p j = word s p j) ∧
  ∀ q r, T' !! q = Some (r, []) → T !! q = Some (r, []).

Lemma keeps_trans s1 T1 s2 T2 s3 T3 : keeps s1 T1 s2 T2 → keeps s2 T2 s3 T3 → keeps s1 T1 s3 T3.
Proof.
  intros [K1 R1] [K2 R2]. split; [|by auto]. intros p Hb Hp.
  destruct (K1 p Hb Hp) as (Hb2 & Hp2 & E1). destruct (K2 p Hb2 Hp2) as (Hb3 & Hp3 & E2).
  split_and!; [done..|]. intros j. by rewrite E2.
Qed.

Lemma keeps_quiet s T s' : T !! im_l3 ≠ None → quiet s s' → keeps s T s' T.
Proof.
  intros Hw (Hq & Ef & _). split; [|done]. intros p Hb Hp. split_and!; [by rewrite Ef|done|].
  intros j. apply Hq. by intros [-> _].
Qed.

(** ** Preservation *)

(** The forest looks only at the entries of its inner tables. *)
Lemma trees_agree s T s' :
  trees s T →
  (∀ p r path i, T !! p = Some (r, path) → (length path < 3)%nat → 0 ≤ i < 512 → word s' p i = word s p i) →
  trees s' T.
Proof.
  intros [F1 F2 F3 F4] Ha. split; try done.
  - intros p r path i Hp Hl Hi. rewrite (Ha _ _ _ _ Hp Hl Hi). by apply F3.
  - intros q r path i Hq. destruct (F4 _ _ _ _ Hq) as (p & Hp & Hi & Hne & E). exists p.
    pose proof (F1 _ _ _ Hq) as Hl. rewrite length_app in Hl. simpl in Hl.
    by rewrite (Ha _ _ _ _ Hp) by (done || lia).
Qed.

Lemma forest_agree s T s' :
  forest s T →
  (∀ p r path i, T !! p = Some (r, path) → (length path < 3)%nat → 0 ≤ i < 512 → word s' p i = word s p i) →
  forest s' T.
Proof. intros [F1 F2] Ha. split; [by eapply trees_agree|done]. Qed.

Lemma inner_not_win s T p r path i :
  forest s T → T !! p = Some (r, path) → (length path < 3)%nat → ¬ win_entry p i.
Proof.
  intros HF Hp Hl [-> _]. rewrite (fo_win _ _ HF) in Hp. injection Hp as <- <-. simpl in Hl. lia.
Qed.

Lemma Inv_quiet s T W G s' W' : Inv s T W G → quiet s s' → Wins s' W' → Inv s' T W' G.
Proof.
  intros [I1 I2 I3 I4] (Hq & Ef & Er) HW. split; [done| |by rewrite Ef|done].
  eapply forest_agree; [done|]. intros p r path i Hp Hl Hi. by eapply Hq, inner_not_win.
Qed.

Lemma Inv_tlb s T W G l : Inv s T W G → Inv (set_tlb l s) T W G.
Proof. intros HI. eapply Inv_quiet; [done|apply quiet_tlb|by apply Wins_tlb, HI]. Qed.

(** Writing a leaf. *)
Lemma Inv_leaf s T W G t r path i x :
  Inv s T W G → T !! t = Some (r, path) → length path = 3%nat → ¬ win_entry t i →
  Inv (set_word t i x s) T W G.
Proof.
  intros [I1 I2 I3 I4] Ht Hl Hn. split; [by apply Wins_set| |done|done].
  eapply forest_agree; [done|]. intros p r' path' j Hp Hl' Hj.
  rewrite word_set, decide_False; [done|]. intros [-> _]. rewrite Ht in Hp. injection Hp as <- <-. lia.
Qed.

Lemma translate_leaf s T r t v i x r' v' :
  trees s T → T !! r = Some (r, []) → T !! r' = Some (r', []) →
  walk s r v = Some t → i = vaddr_l3 v →
  translate (set_word t i x s) r' v' =
    if decide (r' = r ∧ same_page v' v) then (if x =? 0 then None else Some x) else translate s r' v'.
Proof.
  intros HF Hr Hr' Ht ->. apply (walk_T _ _ _ _ _ HF Hr) in Ht as HT.
  assert (trees (set_word t (vaddr_l3 v) x s) T) as HF'.
  { eapply trees_agree; [done|]. intros p r1 path1 j Hp Hl1 Hj.
    rewrite word_set, decide_False; [done|]. intros [-> _]. rewrite HT in Hp. injection Hp as <- <-.
    simpl in Hl1. lia. }
  assert (walk (set_word t (vaddr_l3 v) x s) r' v' = walk s r' v') as Ew.
  { apply option_eq. intros t'. by rewrite (walk_T _ _ _ _ _ HF Hr'), (walk_T _ _ _ _ _ HF' Hr'). }
  unfold translate. rewrite Ew. destruct (walk s r' v') as [t'|] eqn:E.
  - cbn [mbind option_bind]. apply (walk_T _ _ _ _ _ HF Hr') in E. rewrite word_set.
    destruct (decide (r' = r ∧ same_page v' v)) as [(-> & Hp & Hl)|Hd].
    + rewrite decide_True; [done|]. rewrite <- Hp in HT.
      apply (walk_T _ _ _ _ _ HF Hr) in HT, E. rewrite E in HT. by injection HT as ->.
    + rewrite decide_False; [done|]. intros [-> El]. rewrite HT in E.
      apply Hd. split; [congruence|]. split; [congruence|done].
  - rewrite decide_False; [done|]. intros (-> & Hp & _).
    rewrite <- Hp in HT. apply (walk_T _ _ _ _ _ HF Hr) in HT. congruence.
Qed.
End tree.
