(* ===== verification/VmRun.v ===== *)
(** * Running the page-table operations of [vm.rs] *)
From S2P Require Import Prelude Stuff Pm Vm VmInv VmTree.

Local Open Scope Z_scope.

Section grow.
Context {im : Image} {F : Type} {fo : FrameOps F} {fl : FrameLaws F}.
Implicit Types (s : VSt F) (W G : gmap Z Z) (T : gmap Z (Z * list Z)).

(** Hanging a cleared table below an empty entry. *)
Lemma trees_grow s T s' p r path idx q :
  trees s T → T !! p = Some (r, path) → (length path < 3)%nat → 0 ≤ idx < 512 → word s p idx = 0 →
  T !! q = None → Z.land q PHY_MASK = q →
  (∀ t r path i, T !! t = Some (r, path) → (length path < 3)%nat → 0 ≤ i < 512 →
     word s' t i = if decide (t = p ∧ i = idx) then Z.lor q 3 else word s t i) →
  (∀ i, 0 ≤ i < 512 → word s' q i = 0) →
  trees s' (<[q := (r, path ++ [idx])]> T).
Proof.
  intros HF Hp Hl Hidx H0 Hq Hqm Hin Hz. assert (p ≠ q) as Hpq by congruence.
  assert (Z.lor q 3 ≠ 0) as Hne by (by apply lor_ne0). split.
  - intros t r1 path1. rewrite lookup_insert. case_decide; [|by apply (fo_len _ _ HF)].
    intros [= <- <-]. rewrite length_app. simpl. lia.
  - intros t r1. rewrite lookup_insert. case_decide; [|by apply (fo_root _ _ HF)].
    intros [= _ E]. by destruct path.
  - intros t r1 path1 i. rewrite lookup_insert. case_decide as Hd.
    + intros [= <- <-] Hl1 Hi Hn. subst t. by rewrite Hz in Hn.
    + intros Ht Hl1 Hi Hn. rewrite (Hin _ _ _ _ Ht Hl1 Hi) in *.
      destruct (decide (t = p ∧ i = idx)) as [[-> ->]|Hd2].
      * rewrite table_frame, Hqm, lookup_insert_eq. congruence.
      * pose proof (fo_child _ _ HF _ _ _ _ Ht Hl1 Hi Hn). rewrite lookup_insert_ne by congruence. done.
  - intros t r1 path1 i. rewrite lookup_insert. case_decide as Hd.
    + intros [= <- E]. apply app_inj_tail in E as [<- <-]. subst t. exists p.
      rewrite lookup_insert_ne by done. rewrite (Hin _ _ _ _ Hp Hl Hidx), decide_True by done.
      rewrite table_frame, Hqm. done.
    + intros Ht. destruct (fo_parent _ _ HF _ _ _ _ Ht) as (p1 & Hp1 & Hi1 & Hn1 & E1).
      pose proof (fo_len _ _ HF _ _ _ Ht) as Hlen. rewrite length_app in Hlen. simpl in Hlen.
      exists p1. rewrite lookup_insert_ne by congruence.
      rewrite (Hin _ _ _ _ Hp1) by (done || lia). rewrite decide_False; [done|]. intros [-> ->]. done.
Qed.

Lemma extends_grow s T s' p r path idx q :
  T !! p = Some (r, path) → (length path < 3)%nat → word s p idx = 0 → T !! q = None → q ≠ im_l3 →
  (∀ t i, 0 ≤ i < 512 → ¬ win_entry t i → word s' t i =
     if decide (t = q) then 0 else if decide (t = p ∧ i = idx) then Z.lor q 3 else word s t i) →
  extends s T s' (<[q := (r, path ++ [idx])]> T).
Proof.
  intros Hp Hl H0 Hq Hqi Hw. split_and!.
  - by apply insert_subseteq.
  - intros t r1 path1 i Ht Hi Hnw Hor. rewrite Hw, decide_False by (done || congruence).
    rewrite decide_False; [done|]. intros [-> ->]. destruct Hor as [?|Hl1]; [done|].
    rewrite Hp in Ht. injection Ht as <- <-. lia.
  - intros t r1 path1 i Ht. rewrite lookup_insert. case_decide as Hd; [|congruence].
    intros _ _ Hi. subst t. rewrite Hw, decide_True; [done..|]. by intros [? _].
Qed.

Lemma forest_grow s T s' p r path idx q :
  forest s T → T !! p = Some (r, path) → (length path < 3)%nat → 0 ≤ idx < 512 → word s p idx = 0 →
  T !! q = None → Z.land q PHY_MASK = q →
  (∀ t i, 0 ≤ i < 512 → ¬ win_entry t i → word s' t i =
     if decide (t = q) then 0 else if decide (t = p ∧ i = idx) then Z.lor q 3 else word s t i) →
  forest s' (<[q := (r, path ++ [idx])]> T) ∧ extends s T s' (<[q := (r, path ++ [idx])]> T).
Proof.
  intros HF Hp Hl Hidx H0 Hq Hqm Hw.
  assert (q ≠ im_l3) as Hqi by (intros ->; by rewrite (fo_win _ _ HF) in Hq).
  split; [split|by apply (extends_grow s T s' p)].
  - apply (trees_grow s T s' p); try done.
    + apply HF.
    + intros t r1 path1 i Ht Hl1 Hi. rewrite Hw, decide_False; [done|congruence|done|].
      by eapply inner_not_win.
    + intros i Hi. rewrite Hw, decide_True; [done..|]. by intros [? _].
  - rewrite lookup_insert_ne by done. apply (fo_win _ _ HF).
Qed.

Lemma PR_PW_ok : perms_ok PR_PW.
Proof. done. Qed.
Lemma PR_ok : perms_ok PR.
Proof. done. Qed.

Lemma Inv_frame s T W G p x : Inv s T W G → T !! p = Some x → frame_ok p.
Proof. intros [_ _ I3 I4] Hp. destruct (I4 _ _ Hp) as [n Hn]. by destruct (owns_frame _ _ _ _ I3 Hn). Qed.

(** [pt_alloc_if_0_2] returns a window onto the child table, which it adds if
    there was none. *)
Lemma pt_alloc_if_0_2_run s T W G sl p r path idx n :
  Inv s T W G → shows W sl p → T !! p = Some (r, path) → (length path < 3)%nat → 0 ≤ idx < 512 →
  (base.size W < 128)%nat → room (frames s) (S n) →
  ∃ i q s' T' G',
    pt_alloc_if_0_2 idx sl (λ _, ret tt) s = Done (inr (waddr i), s') ∧
    W !! i = None ∧ Inv s' T' (<[i := q]> W) G' ∧ extends s T s' T' ∧
    T' !! q = Some (r, path ++ [idx]) ∧ G ⊆ G' ∧ regions s' = regions s ∧
    room (frames s') n ∧ keeps s T s' T'.
Proof.
  intros HI Hs Hp Hl Hi Hsz Hroom. pose proof HI as [I1 I2 I3 I4].
  unfold pt_alloc_if_0_2. mrun (pt_get_run _ _ _ _ _ I1 Hs Hi).
  destruct (Z.eqb_spec (word s p idx) 0) as [E0|Hne].
  - destruct (fr_alloc_law _ _ n I3 Hroom) as (q & f & Ea & HGq & Hown & Hroom' & _ & Hnb & Hbusy).
    assert (frame_ok q) as [Hq1 Hq2] by (eapply owns_frame; [exact Hown|apply lookup_insert_eq]).
    assert (T !! q = None) as HTq.
    { destruct (T !! q) eqn:E; [|done]. destruct (I4 _ _ E). congruence. }
    assert (q ≠ im_l3) as Hqi by (intros ->; by rewrite (fo_win _ _ I2) in HTq).
    set (s1 := mkVSt (mem s) f (fixed s) (regions s) (tlb s)).
    assert (Wins s1 W) as W1 by (by apply Wins_mem).
    assert (Wins (set_word p idx (Z.lor q 3) s1) W) as W2
      by (apply Wins_set; [done|by eapply inner_not_win]).
    destruct (wrap_new_run _ W q PR_PW W2 Hsz) as (i & s3 & Hi3 & HWi & Enew & W3 & Q3);
      [by rewrite Hq2|apply PR_PW_ok|].
    rewrite Hq2 in W3.
    destruct (zero_pt_run s3 _ (Win (waddr i)) q W3) as (s4 & Ez & W4 & Ef4 & Er4 & Hw4);
      [apply shows_insert|done|].
    destruct (forest_grow s T s4 p r path idx q) as [HF' HE']; try done.
    { intros t j Hj Hnw. rewrite Hw4. destruct (decide (t = q)) as [->|Htq].
      - by rewrite decide_True.
      - rewrite decide_False by (by intros [? _]). destruct Q3 as [Q3 _]. rewrite Q3, word_set by done.
        done. }
    exists i, q, s4, (<[q := (r, path ++ [idx])]> T), (<[q := 1]> G).
    assert (frames s4 = f) as Ef by (rewrite Ef4; destruct Q3 as (_ & -> & _); done).
    split_and!; try done.
    + unfold on_frames, bind. rewrite Ea. fold s1. unfold lift.
      rewrite (pt_set_run s1 W sl p idx _ W1 Hs Hi). simpl. rewrite Enew.
      unfold bind. rewrite Ez. done.
    + split; [done|done|by rewrite Ef|]. intros t x. rewrite !lookup_insert. case_decide; [done|]. apply I4.
    + by rewrite lookup_insert_eq.
    + by apply insert_subseteq.
    + rewrite Er4. destruct Q3 as (_ & _ & ->). done.
    + by rewrite Ef.
    + split; cycle 1.
      { intros t r' Ht. rewrite lookup_insert in Ht. case_decide; [|done]. injection Ht as _ Ht. by destruct path. }
      intros t Hb Ht. assert (t ≠ q) as Htq by (by intros ->). split_and!.
      * rewrite Ef. by apply Hbusy.
      * by rewrite lookup_insert_ne.
      * intros j. rewrite Hw4, decide_False by (by intros [? _]). destruct Q3 as [Q3 _].
        rewrite Q3 by (intros [-> _]; by rewrite (fo_win _ _ I2) in Ht).
        rewrite word_set, decide_False; [done|]. intros [-> _]. by rewrite Hp in Ht.
  - pose proof (fo_child _ _ I2 _ _ _ _ Hp Hl Hi Hne) as Hc.
    destruct (Inv_frame _ _ _ _ _ _ HI Hc) as [Hq1 _].
    destruct (wrap_new_run s W (word s p idx) PR_PW I1 Hsz Hq1 PR_PW_ok)
      as (i & s3 & Hi3 & HWi & Enew & W3 & Q3).
    exists i, (Z.land (word s p idx) PHY_MASK), s3, T, G. split_and!; try done.
    + mstep. unfold bind. rewrite Enew. done.
    + by eapply Inv_quiet.
    + by apply extends_quiet.
    + by destruct Q3 as (_ & _ & ->).
    + apply room_less. by destruct Q3 as (_ & -> & _).
    + apply keeps_quiet; [by rewrite (fo_win _ _ I2)|done].
Qed.

Lemma Inv_drop s T W G i e :
  Inv s T W G → W !! i = Some e →
  ∃ s', pm_wrap_drop (waddr i) s = Done (tt, s') ∧ Inv s' T (delete i W) G ∧ quiet s s'.
Proof.
  intros HI Hi. destruct (wrap_drop_run _ _ _ _ (inv_wins _ _ _ _ HI) Hi) as (s' & E & HW & Q & _).
  exists s'. split_and!; try done. by eapply Inv_quiet.
Qed.

(** Dropping the window taken last. *)
Lemma Inv_pop s T W G i e :
  Inv s T (<[i := e]> W) G → W !! i = None →
  ∃ s', pm_wrap_drop (waddr i) s = Done (tt, s') ∧ Inv s' T W G ∧ quiet s s'.
Proof.
  intros HI Hi. destruct (Inv_drop _ _ _ _ i e HI) as (s' & E & HI' & Q); [apply lookup_insert_eq|].
  exists s'. rewrite delete_insert_id in HI' by done. done.
Qed.

Lemma translate_quiet s T W G s' r v :
  Inv s T W G → quiet s s' → T !! r = Some (r, []) → ¬ win_page r v → translate s' r v = translate s r v.
Proof.
  intros HI Q Hr Hn. apply (extends_translate s T s' T); try done.
  - apply (inv_forest _ _ _ _ HI).
  - eapply forest_agree; [apply (inv_forest _ _ _ _ HI)|]. intros p r1 path1 i Hp Hl Hi. apply Q.
    eapply inner_not_win; [apply (inv_forest _ _ _ _ HI)|done..].
  - by apply extends_quiet.
Qed.

(** The tables on the way to [v], with windows onto all three. *)
Lemma map_tables_run s T W G sl r v n :
  Inv s T W G → shows W sl r → T !! r = Some (r, []) →
  (base.size W + 3 ≤ 128)%nat → room (frames s) (3 + n) →
  ∃ i1 q1 s1 i2 q2 s2 i3 q3 s3 T' G',
    pt_alloc_if_0_2 (vaddr_l0 v) sl (λ _, ret tt) s = Done (inr (waddr i1), s1) ∧
    pt_alloc_if_0_2 (vaddr_l1 v) (Win (waddr i1)) (λ _, ret tt) s1 = Done (inr (waddr i2), s2) ∧
    pt_alloc_if_0_2 (vaddr_l2 v) (Win (waddr i2)) (λ _, ret tt) s2 = Done (inr (waddr i3), s3) ∧
    W !! i1 = None ∧ <[i1 := q1]> W !! i2 = None ∧ <[i2 := q2]> (<[i1 := q1]> W) !! i3 = None ∧
    Inv s3 T' (<[i3 := q3]> (<[i2 := q2]> (<[i1 := q1]> W))) G' ∧
    walk s3 r v = Some q3 ∧ extends s T s3 T' ∧ G ⊆ G' ∧ regions s3 = regions s ∧ room (frames s3) n ∧
    keeps s T s3 T'.
Proof.
  intros HI Hs Hr Hsz Hroom.
  destruct (pt_alloc_if_0_2_run s T W G sl r r [] (vaddr_l0 v) (2 + n) HI)
    as (i1 & q1 & s1 & T1 & G1 & E1 & Hi1 & HI1 & X1 & Ht1 & Hg1 & Er1 & Rm1 & K1);
    [done|done|simpl; lia|apply l0_range|lia|done|].
  simpl app in Ht1.
  destruct (pt_alloc_if_0_2_run s1 T1 _ G1 (Win (waddr i1)) q1 r [vaddr_l0 v] (vaddr_l1 v) (1 + n) HI1)
    as (i2 & q2 & s2 & T2 & G2 & E2 & Hi2 & HI2 & X2 & Ht2 & Hg2 & Er2 & Rm2 & K2);
    [apply shows_insert|done|simpl; lia|apply l1_range|rewrite map_size_insert_None by done; lia|done|].
  simpl app in Ht2.
  destruct (pt_alloc_if_0_2_run s2 T2 _ G2 (Win (waddr i2)) q2 r [vaddr_l0 v; vaddr_l1 v] (vaddr_l2 v) n HI2)
    as (i3 & q3 & s3 & T3 & G3 & E3 & Hi3 & HI3 & X3 & Ht3 & Hg3 & Er3 & Rm3 & K3);
    [apply shows_insert|done|simpl; lia|apply l2_range|rewrite !map_size_insert_None by done; lia|done|].
  assert (extends s T s3 T3) as X.
  { eapply extends_trans; [apply (inv_forest _ _ _ _ HI)|exact X1|].
    eapply extends_trans; [apply (inv_forest _ _ _ _ HI1)|exact X2|exact X3]. }
  exists i1, q1, s1, i2, q2, s2, i3, q3, s3, T3, G3. split_and!; try done.
  - eapply walk_T; [apply (inv_forest _ _ _ _ HI3)|eapply lookup_weaken; [exact Hr|apply X]|exact Ht3].
  - by do 2 (etrans; [eassumption|]).
  - congruence.
  - eapply keeps_trans; [eassumption|]. by eapply keeps_trans.
Qed.

(** Dropping the three of them. *)
Lemma drop3_run s T W G i1 q1 i2 q2 i3 q3 {A} (k : VM F A) :
  Inv s T (<[i3 := q3]> (<[i2 := q2]> (<[i1 := q1]> W))) G →
  W !! i1 = None → <[i1 := q1]> W !! i2 = None → <[i2 := q2]> (<[i1 := q1]> W) !! i3 = None →
  ∃ s', (pm_wrap_drop (waddr i3) ;;; pm_wrap_drop (waddr i2) ;;; pm_wrap_drop (waddr i1) ;;; k) s = k s' ∧
    Inv s' T W G ∧ quiet s s'.
Proof.
  intros HI H1 H2 H3. destruct (Inv_pop _ _ _ _ _ _ HI H3) as (s1 & E1 & HI1 & Q1).
  destruct (Inv_pop _ _ _ _ _ _ HI1 H2) as (s2 & E2 & HI2 & Q2).
  destruct (Inv_pop _ _ _ _ _ _ HI2 H1) as (s3 & E3 & HI3 & Q3).
  exists s3. split; [by mrun E1; mrun E2; mrun E3|]. split; [done|]. by do 2 (etrans; [eassumption|]).
Qed.

Lemma map_inner_run s T W G sl r v p perms overw n :
  Inv s T W G → shows W sl r → T !! r = Some (r, []) → ¬ win_page r v →
  (base.size W + 3 ≤ 128)%nat → room (frames s) (3 + n) →
  let x := Z.lor (Z.lor p perms) 0x403 in
  ∃ s' T' G',
    map_v2p_4k_inner sl v p perms overw (λ _, ret tt) s =
      Done (match translate s r v with None => inr v | Some _ => inl (EExists v) end, s') ∧
    Inv s' T' W G' ∧ T ⊆ T' ∧ G ⊆ G' ∧ regions s' = regions s ∧ room (frames s') n ∧
    translate s' r v = match translate s r v with Some e => Some (if overw then x else e) | None => Some x end ∧
    (∀ r' v', T !! r' = Some (r', []) → ¬ win_page r' v' → ¬ (r' = r ∧ same_page v' v) →
      translate s' r' v' = translate s r' v') ∧ keeps s T s' T'.
Proof.
  intros HI Hs Hr Hnw Hsz Hroom x.
  destruct (map_tables_run s T W G sl r v n HI Hs Hr Hsz Hroom) as (i1 & q1 & s1 & i2 & q2 & s2 & i3 & q3 & s3
    & T' & G' & E1 & E2 & E3 & Hi1 & Hi2 & Hi3 & HI3 & Hw & X & Hg & Er & Rm & K).
  pose proof (inv_forest _ _ _ _ HI) as HF. pose proof (inv_forest _ _ _ _ HI3) as HF3.
  assert (T ⊆ T') as HTT by apply X.
  assert (T' !! r = Some (r, [])) as Hr3 by (by eapply lookup_weaken).
  assert (∀ r' v', T !! r' = Some (r', []) → ¬ win_page r' v' → translate s3 r' v' = translate s r' v') as Htr
    by (intros; by apply (extends_translate s T s3 T')).
  assert (translate s r v = if word s3 q3 (vaddr_l3 v) =? 0 then None else Some (word s3 q3 (vaddr_l3 v))) as Etr
    by (rewrite <- Htr by done; unfold translate; by rewrite Hw).
  assert (¬ win_entry q3 (vaddr_l3 v)) as Hne by (intros [-> _]; by eapply Hnw, win_walk).
  pose proof (proj1 (walk_T _ _ _ _ _ HF3 Hr3) Hw) as HT3.
  assert (Inv (set_word q3 (vaddr_l3 v) x s3) T' (<[i3 := q3]> (<[i2 := q2]> (<[i1 := q1]> W))) G') as HI4
    by (by eapply Inv_leaf).
  assert (x =? 0 = false) as Hx by (apply Z.eqb_neq; by apply lor_ne0).
  unfold map_v2p_4k_inner. mrun E1. cbv iota. mrun E2. cbv iota. mrun E3. cbv iota.
  mrun (pt_get_run _ _ _ _ _ (inv_wins _ _ _ _ HI3) (shows_insert _ i3 q3) (l3_range v)).
  destruct (negb (word s3 q3 (vaddr_l3 v) =? 0) && negb overw) eqn:Eb.
  - apply andb_true_iff in Eb as [Eb1 Eb2]. apply negb_true_iff in Eb1, Eb2. rewrite Eb1 in Etr. subst overw.
    mstep. destruct (drop3_run s3 T' W G' i1 q1 i2 q2 i3 q3 (ret (inl (EExists v) : Error + Z)) HI3 Hi1 Hi2 Hi3)
      as (s' & E & HI' & Q).
    assert (T' !! im_l3 ≠ None) as Hwin by by rewrite (fo_win _ _ HF3).
    pose proof (keeps_quiet s3 T' s' Hwin Q) as K3.
    exists s', T', G'. rewrite Etr, E. destruct Q as (Qw & Qf & Qr). split_and!; try done; try congruence.
    + rewrite <- Etr, <- Htr by done. by eapply translate_quiet.
    + intros r' v' Hr' Hnw' _. rewrite <- Htr by done. eapply translate_quiet; try done. by eapply lookup_weaken.
    + by eapply keeps_trans.
  - rewrite bind_assoc. mrun (pt_set_run _ _ _ _ _ x (inv_wins _ _ _ _ HI3) (shows_insert _ i3 q3) (l3_range v)).
    rewrite bind_assoc. mrun tlbi_run.
    match goal with |- context [set_tlb ?l ?u] => pose proof (Inv_tlb u _ _ _ l HI4) as HI4l end.
    mstep. match goal with |- context [ret ?res] =>
      destruct (drop3_run _ T' W G' i1 q1 i2 q2 i3 q3 (ret res) HI4l Hi1 Hi2 Hi3) as (s' & E & HI' & Q) end.
    change (quiet (set_word q3 (vaddr_l3 v) x s3) s') in Q.
    exists s', T', G'. rewrite E. pose proof Q as (Qw & Qf & Qr). split_and!; try done.
    + rewrite Etr. by destruct (word s3 q3 (vaddr_l3 v) =? 0).
    + rewrite Qr. done.
    + by rewrite Qf.
    + rewrite (translate_quiet _ _ _ _ _ r v HI4 Q Hr3 Hnw), (translate_leaf s3 T' r q3 v) by (done || apply HF3).
      rewrite decide_True, Hx, Etr by done. destruct (word s3 q3 (vaddr_l3 v) =? 0); [done|].
      by destruct overw.
    + intros r' v' Hr' Hnw' Hd. assert (T' !! r' = Some (r', [])) as Hr'3 by (by eapply lookup_weaken).
      rewrite (translate_quiet _ _ _ _ _ r' v' HI4 Q Hr'3 Hnw'), (translate_leaf s3 T' r q3 v) by (done || apply HF3).
      rewrite decide_False by done. by apply Htr.
    + assert (T' !! im_l3 ≠ None) as Hwin by by rewrite (fo_win _ _ HF3).
      eapply keeps_trans; [exact K|]. eapply keeps_trans; [|by apply keeps_quiet].
      split; [|done]. intros t Hb Ht. split_and!; [done..|]. intros j. rewrite word_set, decide_False; [done|].
      intros [-> _]. by rewrite HT3 in Ht.
Qed.

(** A read-only window onto an existing table. *)
Lemma wrap_table_run s T W G e perms x :
  Inv s T W G → T !! Z.land e PHY_MASK = Some x → (base.size W < 128)%nat → perms_ok perms →
  ∃ i s', pm_wrap_new e perms false s = Done (inr (waddr i), s') ∧ W !! i = None ∧
    Inv s' T (<[i := Z.land e PHY_MASK]> W) G ∧ quiet s s'.
Proof.
  intros HI Hx Hsz Hp. destruct (Inv_frame _ _ _ _ _ _ HI Hx) as [Hf _].
  destruct (wrap_new_run s W e perms (inv_wins _ _ _ _ HI) Hsz Hf Hp) as (i & s' & _ & Hi & E & HW & Q).
  exists i, s'. split_and!; [by rewrite E|done|by eapply Inv_quiet|done].
Qed.

Lemma quiet_word s T s' p r path i :
  forest s T → quiet s s' → T !! p = Some (r, path) → (length path < 3)%nat → word s' p i = word s p i.
Proof. intros HF [Q _] Hp Hl. by eapply Q, inner_not_win. Qed.

Lemma walk_to_l3_run s T W G sl r v :
  Inv s T W G → shows W sl r → T !! r = Some (r, []) → (base.size W + 3 ≤ 128)%nat →
  match walk s r v with
  | None => ∃ s', walk_to_l3 sl v s = Done (inl EInval, s') ∧ Inv s' T W G ∧ quiet s s'
  | Some t => ∃ i s', walk_to_l3 sl v s = Done (inr (waddr i), s') ∧ W !! i = None ∧
      Inv s' T (<[i := t]> W) G ∧ quiet s s'
  end.
Proof.
  intros HI Hs Hr Hsz. pose proof (inv_forest _ _ _ _ HI) as HF.
  unfold walk, walk_to_l3, child. mrun (pt_get_run _ _ _ _ _ (inv_wins _ _ _ _ HI) Hs (l0_range v)).
  destruct (Z.eqb_spec (word s r (vaddr_l0 v)) 0) as [_|N1]; [by exists s|].
  pose proof (fo_child _ _ HF _ _ _ _ Hr ltac:(simpl; lia) (l0_range v) N1) as HT1. simpl app in HT1.
  destruct (wrap_table_run s T W G _ PR _ HI HT1 ltac:(lia) PR_ok) as (i1 & s1 & E1 & Hi1 & HI1 & Q1).
  mrun E1. cbn [mbind option_bind]. cbv iota beta. set (t1 := Z.land (word s r (vaddr_l0 v)) PHY_MASK) in *.
  mrun (pt_get_run _ _ _ _ _ (inv_wins _ _ _ _ HI1) (shows_insert _ i1 t1) (l1_range v)).
  rewrite (quiet_word s T s1 t1 r _ _ HF Q1 HT1) by (simpl; lia).
  destruct (Z.eqb_spec (word s t1 (vaddr_l1 v)) 0) as [_|N2].
  { destruct (Inv_pop _ _ _ _ _ _ HI1 Hi1) as (s2 & E2 & HI2 & Q2). simpl. exists s2.
    split_and!; [by mrun E2|done|by etrans]. }
  pose proof (fo_child _ _ HF _ _ _ _ HT1 ltac:(simpl; lia) (l1_range v) N2) as HT2. simpl app in HT2.
  destruct (wrap_table_run s1 T _ G _ PR _ HI1 HT2) as (i2 & s2 & E2 & Hi2 & HI2 & Q2);
    [rewrite map_size_insert_None by done; lia|apply PR_ok|].
  mrun E2. cbn [mbind option_bind]. cbv iota beta. set (t2 := Z.land (word s t1 (vaddr_l1 v)) PHY_MASK) in *.
  mrun (pt_get_run _ _ _ _ _ (inv_wins _ _ _ _ HI2) (shows_insert _ i2 t2) (l2_range v)).
  assert (quiet s s2) as Q12 by (by etrans).
  rewrite (quiet_word s T s2 t2 r _ _ HF Q12 HT2) by (simpl; lia).
  destruct (Z.eqb_spec (word s t2 (vaddr_l2 v)) 0) as [_|N3].
  { destruct (Inv_pop _ _ _ _ _ _ HI2 Hi2) as (s3 & E3 & HI3 & Q3).
    destruct (Inv_pop _ _ _ _ _ _ HI3 Hi1) as (s4 & E4 & HI4 & Q4). simpl. exists s4.
    split_and!; [by mrun E3; mrun E4|done|by do 2 (etrans; [eassumption|])]. }
  pose proof (fo_child _ _ HF _ _ _ _ HT2 ltac:(simpl; lia) (l2_range v) N3) as HT3. simpl app in HT3.
  destruct (wrap_table_run s2 T _ G _ PR_PW _ HI2 HT3) as (i3 & s3 & E3 & Hi3 & HI3 & Q3);
    [rewrite !map_size_insert_None by done; lia|apply PR_PW_ok|].
  set (t3 := Z.land (word s t2 (vaddr_l2 v)) PHY_MASK) in *. simpl.
  apply lookup_insert_None in Hi3 as [Hi3 N32]. apply lookup_insert_None in Hi3 as [Hi3 N31].
  apply lookup_insert_None in Hi2 as [Hi2 N21].
  rewrite insert_insert_ne in HI3 by done.
  destruct (Inv_pop _ _ _ _ _ _ HI3) as (s4 & E4 & HI4 & Q4); [by rewrite !lookup_insert_ne by done|].
  rewrite insert_insert_ne in HI4 by done.
  destruct (Inv_pop _ _ _ _ _ _ HI4) as (s5 & E5 & HI5 & Q5); [by rewrite !lookup_insert_ne by done|].
  exists i3, s5. split_and!; [by mrun E3; mrun E4; mrun E5|done|done|].
  by do 3 (etrans; [eassumption|]).
Qed.
End grow.
