(* ===== verification/VmFree.v ===== *)
(** * [free_pt]: giving a whole tree of tables back *)
From S2P Require Import Prelude Stuff Pm Vm VmInv VmTree VmRun.

Local Open Scope Z_scope.

(** ** Freeing a list of frames *)
Definition occ (p : Z) (l : list Z) : Z := Z.of_nat (count_occ Z.eq_dec l p).

(** The reference counts after one reference per occurrence is dropped. *)
Definition release (l : list Z) (G : gmap Z Z) : gmap Z Z :=
  map_imap (λ p n, if n <=? occ p l then None else Some (n - occ p l)) G.

Section release.
Context {F : Type} {fo : FrameOps F} {fl : FrameLaws F}.

Lemma release_lookup l G p :
  release l G !! p = n ← G !! p; if n <=? occ p l then None else Some (n - occ p l).
Proof. unfold release. rewrite map_lookup_imap. by destruct (G !! p). Qed.

Lemma occ_cons p q l : occ p (q :: l) = (if decide (q = p) then 1 else 0) + occ p l.
Proof. unfold occ. simpl. destruct (Z.eq_dec q p), (decide (q = p)); try done; lia. Qed.

Lemma release_cons p l G n :
  G !! p = Some n → 0 < n →
  release l (if 1 <? n then <[p := n - 1]> G else delete p G) = release (p :: l) G.
Proof.
  intros Hp Hn. apply map_eq. intros q. rewrite !release_lookup, occ_cons.
  assert (0 ≤ occ q l) by (unfold occ; lia). destruct (decide (p = q)) as [->|Hne].
  - rewrite Hp. destruct (Z.ltb_spec 1 n); [rewrite lookup_insert_eq|rewrite lookup_delete_eq]; simpl;
      cases_Z; try done; try lia. f_equal. lia.
  - rewrite Z.add_0_l. by destruct (1 <? n); [rewrite lookup_insert_ne|rewrite lookup_delete_ne].
Qed.

Lemma free_list_run (f : F) G l :
  owns f G → (∀ p, p ∈ l → ∃ n, G !! p = Some n ∧ occ p l ≤ n) →
  ∃ f', forM l fr_free f = Done (tt, f') ∧ owns f' (release l G) ∧ ∀ m, room f m → room f' m.
Proof.
  revert f G. induction l as [|p l IH]; intros f G Ho Hc.
  - exists f. split_and!; [done| |done]. replace (release [] G) with G; [done|].
    apply map_eq. intros q. rewrite release_lookup. destruct (G !! q) as [n|] eqn:E; [|done].
    simpl. destruct (owns_frame _ _ _ _ Ho E). change (occ q []) with 0.
    rewrite (proj2 (Z.leb_gt _ _)) by lia. f_equal. lia.
  - destruct (Hc p) as (n & Hp & Hn); [left|].
    destruct (owns_frame _ _ _ _ Ho Hp) as [_ Hpos].
    destruct (fr_free_law _ _ _ _ Ho Hp) as (f1 & E1 & Ho1 & Hr1).
    destruct (IH f1 _ Ho1) as (f' & E' & Ho' & Hr').
    { intros q Hq. destruct (Hc q) as (m & Hm & Hle); [by right|]. rewrite occ_cons in Hle, Hn.
      rewrite decide_True in Hn by done.
      destruct (decide (p = q)) as [->|Hne].
      - rewrite Hp in Hm. injection Hm as <-.
        assert (0 < occ q l) by (unfold occ; pose proof (proj1 (count_occ_In Z.eq_dec l q)
          (proj1 (list_elem_of_In _ _) Hq)); lia).
        rewrite (proj2 (Z.ltb_lt _ _)) by lia. rewrite lookup_insert_eq. eexists. split; [done|lia].
      - exists m. split; [|lia]. by destruct (1 <? n); [rewrite lookup_insert_ne|rewrite lookup_delete_ne]. }
    exists f'. rewrite (release_cons p l G n Hp Hpos) in Ho'. split_and!; [|done|auto].
    rewrite (forM_cons _ _ _ _ f1) by done. done.
Qed.
End release.

(** ** The frames of a tree *)
Section free_walk.
Context {im : Image} {F : Type} {fo : FrameOps F} {fl : FrameLaws F}.
Implicit Types (s : VSt F) (W G : gmap Z Z) (T : gmap Z (Z * list Z)).

(** The frames below a table, children before their table: the tables and,
    at the last level, the pages that are mapped. *)
Fixpoint tree_frames (down : nat) s (p : Z) : list Z :=
  match down with
  | S d => flat_map (λ i,
      let q := Z.land (word s p i) PHY_MASK in
      if 0x40000000 <=? q then tree_frames d s q ++ [q] else []) (range 0 512)
  | O => flat_map (λ i,
      let q := Z.land (word s p i) PHY_MASK in
      if (0x40000000 <=? q) && (0 <? Z.land (word s p i) 3) then [q] else []) (range 0 512)
  end.

Lemma try_for_run (P : VSt F → Prop) (g : Z → list Z) (body : Z → VM F (unit + unit)) l :
  (∀ i s f', i ∈ l → P s → forM (g i) fr_free (frames s) = Done (tt, f') →
     ∃ s', body i s = Done (inr tt, s') ∧ P s' ∧ frames s' = f') →
  ∀ s f', P s → forM (flat_map g l) fr_free (frames s) = Done (tt, f') →
  ∃ s', try_for l body s = Done (inr tt, s') ∧ P s' ∧ frames s' = f'.
Proof.
  induction l as [|i l IH]; intros Hb s f' HP Hf; simpl in Hf.
  - injection Hf as <-. by exists s.
  - apply forM_app_inv in Hf as (f1 & Hf1 & Hf2).
    destruct (Hb i s f1) as (s1 & E1 & HP1 & <-); [left|done|done|].
    destruct (IH ltac:(intros; apply Hb; [by right|done|done]) s1 f' HP1 Hf2) as (s' & E' & HP' & Ef).
    exists s'. split_and!; [|done|done]. simpl. unfold bind. by rewrite E1.
Qed.

(** The state between two turns of the walk: the tables as at the start. *)
Definition walking s0 W s : Prop :=
  Wins s W ∧ (∀ p i, ¬ win_entry p i → word s p i = word s0 p i) ∧ regions s = regions s0.

Lemma on_frames_run s {A} (m : M F A) a f :
  m (frames s) = Done (a, f) → on_frames m s = Done (a, mkVSt (mem s) f (fixed s) (regions s) (tlb s)).
Proof. intros E. unfold on_frames. by rewrite E. Qed.

Lemma walking_frames s0 W s f : walking s0 W s → walking s0 W (mkVSt (mem s) f (fixed s) (regions s) (tlb s)).
Proof. intros (HW & Hw & Hr). split; [by apply Wins_mem|done]. Qed.

Lemma walking_quiet s0 W s W' s' : walking s0 W s → quiet s s' → Wins s' W' → walking s0 W' s'.
Proof.
  intros (HW & Hw & Hr) (Q & Qf & Qr) HW'. split_and!; [done| |congruence].
  intros p i Hn. by rewrite Q, Hw.
Qed.

(** [free_walk] frees exactly [tree_frames], in that order. *)
Lemma free_walk_run s0 T r down : forest s0 T → r ≠ im_pt →
  ∀ p path W sl s f', T !! p = Some (r, path) → (length path + down = 3)%nat →
  shows W sl p → (base.size W + down ≤ 128)%nat → walking s0 W s →
  forM (tree_frames down s0 p) fr_free (frames s) = Done (tt, f') →
  ∃ s', free_walk down sl s = Done (inr tt, s') ∧ walking s0 W s' ∧ frames s' = f'.
Proof.
  intros HF Hr. assert (∀ p path i, T !! p = Some (r, path) → ¬ win_entry p i) as Hnw.
  { intros p path i Hp [-> _]. rewrite (fo_win _ _ HF) in Hp. congruence. }
  induction down as [|down IH]; intros p path W sl s f' Hp Hl Hs Hsz Hwk Hf; cbn [tree_frames free_walk] in *.
  - eapply (try_for_run (walking s0 W)); [|done|exact Hf].
    intros i s1 f1 Hi Hw1 Hf1. apply elem_of_range in Hi. pose proof Hw1 as (HW1 & Hwd & _).
    mrun (pt_get_run _ _ _ _ _ HW1 Hs Hi). rewrite (Hwd p i) by eauto.
    cbv beta in Hf1. set (q := Z.land (word s0 p i) PHY_MASK) in *.
    destruct ((0x40000000 <=? q) && (0 <? Z.land (word s0 p i) 3)).
    + destruct (fr_free q (frames s1)) as [[[] f2]|] eqn:E; simpl in Hf1; unfold bind in Hf1;
        rewrite E in Hf1; [|done]. injection Hf1 as <-.
      eexists. split; [by mrun (on_frames_run _ _ _ _ E)|]. split; [by apply walking_frames|done].
    + injection Hf1 as <-. by exists s1.
  - eapply (try_for_run (walking s0 W)); [|done|exact Hf].
    intros i s1 f1 Hi Hw1 Hf1. apply elem_of_range in Hi. pose proof Hw1 as (HW1 & Hwd & _).
    mrun (pt_get_run _ _ _ _ _ HW1 Hs Hi). rewrite (Hwd p i) by eauto. cbv beta in Hf1.
    destruct (Z.leb_spec 0x40000000 (Z.land (word s0 p i) PHY_MASK)) as [Hge|];
      [|injection Hf1 as <-; by exists s1].
    assert (word s0 p i ≠ 0) as Hne by (intros E; rewrite E in Hge; by compute in Hge).
    pose proof (fo_child _ _ HF _ _ _ _ Hp ltac:(lia) Hi Hne) as Hq.
    set (q := Z.land (word s0 p i) PHY_MASK) in *.
    assert (Z.land q PHY_MASK = q) as Eq by apply land_mask_idem.
    destruct (wrap_new_run s1 W q PR HW1 ltac:(lia)) as (j & s2 & _ & Hj & E2 & HW2 & Q2);
      [by rewrite Eq|apply PR_ok|]. rewrite Eq in HW2. specialize (E2 false).
    apply forM_app_inv in Hf1 as (f2 & Hf2 & Hf3). simpl in Hf3. unfold bind in Hf3.
    destruct (fr_free q f2) as [[[] f3]|] eqn:Ef; [|done]. injection Hf3 as <-.
    destruct (IH q _ (<[j := q]> W) (Win (waddr j)) s2 f2 Hq) as (s3 & E3 & Hw3 & <-).
    + rewrite length_app. simpl. lia.
    + apply shows_insert.
    + rewrite map_size_insert_None by done. lia.
    + by eapply walking_quiet.
    + destruct Q2 as (_ & -> & _). done.
    + pose proof (walking_frames _ _ _ f3 Hw3) as Hw4. set (s4 := mkVSt _ f3 _ _ _) in Hw4.
      destruct (wrap_drop_run s4 _ j q (proj1 Hw4)) as (s5 & E5 & HW5 & Q5 & _); [apply lookup_insert_eq|].
      rewrite delete_insert_id in HW5 by done. exists s5. split_and!.
      * mrun E2. cbv iota beta. mrun E3. cbv iota beta. mrun (on_frames_run _ _ _ _ Ef). fold s4. by mrun E5.
      * by eapply walking_quiet.
      * by destruct Q5 as (_ & -> & _).
Qed.
End free_walk.
