(* ===== verification/VmPm.v ===== *)
(** * [pm.rs] keeps what [vm.rs] relies on

    The allocator of [Pm] as an instance of the interface [FrameLaws]. *)
From S2P Require Import Prelude Pm PmInv PmSteps PmRun PmSpec Vm VmInv.

Local Open Scope Z_scope.

#[export] Instance pm_frame_ops : FrameOps Allocator := {
  fr_alloc := Pm.alloc 4096;
  fr_free p := Pm.free p 4096;
  fr_free_low := Pm.free_low;
}.

(** The gigabyte the allocator manages. *)
Definition pm_ready (a : Allocator) : Prop := size a = GB ∧ offt a = 0x40000000.

Definition pm_owns (a : Allocator) (G : gmap Z Z) : Prop :=
  pm_ready a ∧ ∃ U, Abs a U ∧
    ∀ p n, G !! p = Some n ↔ ∃ h fg, p = addr_of a h ∧ U !! h = Some (mkBlock 8 n fg).

(** Frames nobody holds. *)
Definition idle (a : Allocator) (p : Z) : Prop :=
  0 ≤ p < npg a ∧ ∃ q, pages a !! p = Some q ∧ ref_cnt q = 0.

(** Frames of a live block. *)
Definition pm_busy (a : Allocator) (p : Z) : Prop := ∃ h, p = addr_of a h ∧ 0 ≤ h < npg a ∧ ¬ idle a h.

Definition pm_room (a : Allocator) (n : nat) : Prop :=
  ∃ S : gset Z, (n ≤ base.size S)%nat ∧ ∀ p, p ∈ S → idle a p.

(** The frames below [k] as [init] left them. *)
Definition pm_low (a : Allocator) (k : Z) : Prop :=
  0x40000000 ≤ k < 2 ^ 64 ∧
  ∀ h, 0 ≤ h < (k - 0x40000000) / 4096 →
    0 ≤ h < npg a ∧ ∃ q, pages a !! h = Some q ∧ ref_cnt q = 1 ∧ flags q = FNone ∧ ord q = 8%nat.

Section pm.
Implicit Types (a : Allocator) (U : gmap Z block) (G : gmap Z Z).

Lemma block_facts a U h b :
  Abs a U → U !! h = Some b → 0 ≤ h ∧ h + bsz (b_ord b) ≤ npg a ∧ 0 < b_ref b.
Proof.
  intros (B & L & W & Hc & V) Hb. pose proof (U_block a B L U W V h b Hb) as HB.
  pose proof (wf_in_range _ _ _ _ _ _ W HB). rewrite V in Hb.
  destruct (view_Some a B L ∅ W h b Hb) as (_ & q & _ & _ & _ & _ & _ & _ & Hpos).
  split_and!; lia || done.
Qed.

Lemma idle_iff a U p : Abs a U → 0 ≤ p < npg a → idle a p ↔ ¬ covered U p.
Proof.
  intros (B & L & W & Hc & V) Hp. split.
  - intros (_ & q & Hq & Hr) (h & b & Hb & Hhp).
    pose proof (U_block a B L U W V h b Hb) as HB. rewrite V in Hb.
    destruct (view_Some a B L ∅ W h b Hb) as (_ & q' & Hq' & _ & Hr' & _ & _ & _ & Hpos).
    destruct (decide (p = h)) as [->|Hne]; [rewrite Hq in Hq'; injection Hq' as <-; lia|].
    destruct (wf_block _ _ _ _ W h _ HB) as (q2 & Hq2 & _ & _ & _ & _ & Hm).
    rewrite Hq' in Hq2. injection Hq2 as <-. destruct (Hm p) as (m & Hm' & Hok); [lia|].
    rewrite Hq in Hm'. injection Hm' as <-. rewrite (proj2 (Z.ltb_lt _ _)) in Hok by lia.
    destruct Hok. lia.
  - intros Hn. destruct (uncovered_idle a B L U W V p Hp Hn) as (q & Hq & Hr & _). split; eauto.
Qed.

Lemma pm_busy_iff a U p : Abs a U → pm_busy a p ↔ ∃ h, p = addr_of a h ∧ 0 ≤ h < npg a ∧ covered U h.
Proof.
  intros HA. pose proof HA as (B & L & W & Hc & V).
  assert (∀ h, 0 ≤ h < npg a → ¬ idle a h ↔ covered U h) as E.
  { intros h Hh. rewrite (idle_iff a U h HA Hh). split; [|tauto]. intros Hn.
    destruct (decide (covered U h)) as [|Hd]; [done|]. by destruct Hn. }
  unfold pm_busy. split; intros (h & -> & Hh & Hx); exists h; (split; [done|split; [done|]]); by apply (E h Hh).
Qed.

Lemma addr_frame a h : pm_ready a → 0 ≤ h < npg a → frame_ok (addr_of a h).
Proof.
  intros [Es Eo] Hh. unfold npg in Hh. rewrite Es in Hh. change (GB / 4096) with 262144 in Hh.
  unfold addr_of. rewrite Eo. split; [lia|].
  replace (h * 4096 + 0x40000000) with (Z.shiftl (h + 262144) 12)
    by (rewrite Z.shiftl_mul_pow2 by lia; change (2 ^ 12) with 4096; lia).
  change PHY_MASK with (Z.shiftl (Z.ones 36) 12).
  rewrite <- Z.shiftl_land, Z.land_ones, Z.mod_small by lia. done.
Qed.

Lemma pm_owns_frame a G p n : pm_owns a G → G !! p = Some n → frame_ok p ∧ 0 < n.
Proof.
  intros (Hr & U & HA & HG) (h & fg & -> & Hh)%HG. destruct (block_facts a U h _ HA Hh) as (H1 & H2 & H3).
  change (bsz (b_ord (mkBlock 8 n fg))) with 1 in H2. simpl in H3. split; [|done].
  apply addr_frame; [done|lia].
Qed.

Lemma pm_owns_busy a G p n : pm_owns a G → G !! p = Some n → pm_busy a p.
Proof.
  intros (Hr & U & HA & HG) (h & fg & -> & Hh)%HG. destruct (block_facts a U h _ HA Hh) as (H1 & H2 & _).
  change (bsz (b_ord (mkBlock 8 n fg))) with 1 in H2. apply (pm_busy_iff a U _ HA). exists h.
  split_and!; [done|lia..|]. exists h, (mkBlock 8 n fg). split; [done|]. change (bsz (b_ord _)) with 1. lia.
Qed.

Lemma covered_insert U h b p :
  b_ord b = 8%nat → covered (<[h := b]> U) p → p = h ∨ covered U p.
Proof.
  intros Hb (g & c & Hg & Hp). rewrite lookup_insert in Hg. case_decide as Hd.
  - injection Hg as <-. rewrite Hb in Hp. change (bsz 8) with 1 in Hp. left. lia.
  - right. by exists g, c.
Qed.

Lemma boot_block a U h :
  Abs a U → U !! h = Some (mkBlock 8 1 FNone) ↔
  0 ≤ h < npg a ∧ ∃ q, pages a !! h = Some q ∧ ref_cnt q = 1 ∧ flags q = FNone ∧ ord q = 8%nat.
Proof.
  intros HA. pose proof HA as (B & L & W & Hc & V). split.
  - intros Hh. destruct (block_facts a U h _ HA Hh) as (H1 & H2 & _). change (bsz _) with 1 in H2.
    split; [lia|]. rewrite V in Hh. destruct (view_Some a B L ∅ W h _ Hh) as (_ & q & Hq & Ho & Hr & Hf & _).
    by exists q.
  - intros (Hh & q & Hq & Hr & Hf & Ho).
    destruct (t_cover _ _ (wf_tiles _ _ _ _ W) h Hh) as (g & o & HB & Hg).
    destruct (wf_block _ _ _ _ W g o HB) as (q2 & Hq2 & Ho2 & _ & _ & _ & Hm).
    destruct (decide (h = g)) as [->|Hne].
    + rewrite Hq in Hq2. injection Hq2 as <-. rewrite V. unfold view. rewrite HB, Hq, Hr.
      simpl. do 2 f_equal; congruence.
    + destruct (Hm h) as (m & Hm' & Hok); [lia|]. rewrite Hq in Hm'. injection Hm' as <-.
      unfold mid_ok in Hok. destruct (0 <? ref_cnt q2); destruct Hok; congruence || lia.
Qed.

Lemma pm_low_iff a U k : Abs a U →
  pm_low a k ↔ 0x40000000 ≤ k < 2 ^ 64 ∧
    ∀ h, 0 ≤ h < (k - 0x40000000) / 4096 → U !! h = Some (mkBlock 8 1 FNone).
Proof. intros HA. unfold pm_low. by setoid_rewrite (boot_block a U _ HA). Qed.

Lemma pm_low_held a G k p :
  pm_owns a G → pm_low a k → frame_ok p → p < align_b k 4096 → is_Some (G !! p).
Proof.
  intros ([Es Eo] & U & HA & HG) Hlow [Hp1 Hp2] Hlt. apply (pm_low_iff a U k HA) in Hlow as [Hk Hlow].
  change 4096 with (2 ^ 12) in Hlt. rewrite align_b_pow2 in Hlt by lia. change (2 ^ 12) with 4096 in Hlt.
  assert (p mod 4096 = 0) as Hmod.
  { rewrite <- Hp2. change PHY_MASK with (Z.shiftl (Z.ones 36) 12). change 4096 with (2 ^ 12).
    rewrite <- Z.land_ones, <- Z.land_assoc by lia. by rewrite Z.land_0_r. }
  exists 1. apply HG. exists ((p - 0x40000000) / 4096), FNone. split.
  - unfold addr_of. rewrite Eo. zdiv.
  - apply Hlow. zdiv.
Qed.

Lemma pm_alloc_law a G n :
  pm_owns a G → pm_room a (S n) →
  ∃ p a', Pm.alloc 4096 a = Done (Some p, a') ∧ G !! p = None ∧ pm_owns a' (<[p := 1]> G) ∧ pm_room a' n ∧
    (∀ k, pm_low a k → pm_low a' k) ∧ ¬ pm_busy a p ∧ ∀ q, pm_busy a q → pm_busy a' q.
Proof.
  intros (Hr & U & HA & HG) (S & HS & Hid).
  destruct (alloc_abs a U 4096 HA) as [[_ Hfull]|(a' & h & E & HA' & Eo & Es & Hh & HhN & _ & Hn & Hfree)];
    [done|destruct Hr as [-> _]; done|exfalso|].
  - destruct (size_pos_elem_of S) as [p Hp]; [lia|]. pose proof (Hid p Hp) as [Hpr _].
    change (bsz (get_ord 4096)) with 1 in Hfull.
    apply (Hfull p); [lia|apply Z.divide_1_l|lia|]. intros x Hx. replace x with p by lia.
    apply (idle_iff a U p HA Hpr), Hid, Hp.
  - change (get_ord 4096) with 8%nat in *. change (bsz 8) with 1 in *.
    assert (pm_ready a') as Hr' by (destruct Hr; split; congruence).
    assert (∀ x, addr_of a' x = addr_of a x) as Ea by (intros x; unfold addr_of; by rewrite Eo).
    exists (addr_of a h), a'. split_and!; [done| | | | | |].
    + destruct (G !! addr_of a h) as [m|] eqn:Em; [|done]. apply HG in Em as (h' & fg & Eh & Hh').
      assert (h' = h) as -> by (unfold addr_of in Eh; lia). congruence.
    + split; [done|]. eexists. split; [exact HA'|]. intros p m. rewrite lookup_insert_Some. setoid_rewrite Ea.
      setoid_rewrite lookup_insert_Some. split.
      * intros [[<- <-]|[Hne (h' & fg & -> & Hh')%HG]]; [by exists h, FUsed; eauto|].
        exists h', fg. split; [done|]. right. split; [congruence|done].
      * intros (h' & fg & -> & [[<- [= <- <-]]|[Hne Hh']]); [by left|]. right.
        split; [unfold addr_of; lia|]. apply HG. eauto.
    + exists (S ∖ {[h]}). split.
      * rewrite size_difference_alt.
        assert (base.size (S ∩ {[h]}) ≤ base.size ({[h]} : gset Z))%nat as Hle by (apply subseteq_size; set_solver).
        rewrite size_singleton in Hle. lia.
      * intros p [Hp Hne]%elem_of_difference. apply Hid in Hp as Hpi. pose proof Hpi as [Hpr _].
        assert (npg a' = npg a) as En by (unfold npg; by rewrite Es).
        apply (idle_iff a' _ p HA'); [by rewrite En|]. intros [->|Hc]%covered_insert; [set_solver| |done].
        by apply (idle_iff a U p HA Hpr) in Hpi.
    + intros k. rewrite (pm_low_iff a U k HA), (pm_low_iff a' _ k HA'). intros [Hk Hl].
      split; [done|]. intros g Hg. rewrite lookup_insert_ne by (intros ->; specialize (Hl g Hg); congruence).
      by apply Hl.
    + rewrite (pm_busy_iff a U _ HA). intros (h' & Eh & _ & Hc). assert (h' = h) as -> by (unfold addr_of in Eh; lia).
      apply (Hfree h); [lia|done].
    + intros q. rewrite (pm_busy_iff a U _ HA), (pm_busy_iff a' _ _ HA'). setoid_rewrite Ea.
      unfold npg. rewrite Es. intros (h' & -> & Hr1 & Hc). exists h'. split_and!; [done|lia..|].
      destruct Hc as (g & b & Hg & Hgh). exists g, b. split; [|done]. rewrite lookup_insert_ne; [done|]. congruence.
Qed.

Lemma pm_free_low_law a G k :
  pm_owns a G → pm_low a k →
  ∃ a', Pm.free_low k a = Done (tt, a') ∧ pm_owns a' (filter (λ pn, align_b k 4096 ≤ pn.1) G) ∧
    ∀ m, pm_room a m → pm_room a' m.
Proof.
  intros (Hr & U & HA & HG) Hlow. pose proof Hr as [Es Eo].
  apply (pm_low_iff a U k HA) in Hlow as [Hk Hlow].
  destruct (free_low_abs a U k HA) as (a' & E & Eo' & Es' & HA');
    [rewrite Eo; by exists 0x40000|lia|lia|by rewrite Eo|].
  assert (∀ x, addr_of a' x = addr_of a x) as Ea by (intros x; unfold addr_of; by rewrite Eo').
  exists a'. split; [done|]. split; cycle 1.
  { intros m (S & HS & Hid). exists S. split; [done|]. intros q Hq. pose proof (Hid q Hq) as [Hqr _].
    apply (idle_iff a' _ q HA'); [unfold npg; by rewrite Es'|]. intros (g & b & Hg & Hgq).
    apply map_lookup_filter_Some in Hg as [Hg _].
    apply (proj1 (idle_iff a U q HA Hqr)); [by apply Hid|]. by exists g, b. }
  split; [split; congruence|]. eexists. split; [exact HA'|].
  intros p n. setoid_rewrite Ea. rewrite map_lookup_filter_Some. setoid_rewrite map_lookup_filter_Some. simpl.
  change 4096 with (2 ^ 12). rewrite align_b_pow2 by lia. change (2 ^ 12) with 4096. rewrite Eo. split.
  - intros [(h & fg & -> & Hh)%HG Hle]. exists h, fg. split_and!; [done|done|].
    unfold addr_of in Hle. rewrite Eo in Hle. intros [Hh0 Hh1]. zdiv.
  - intros (h & fg & -> & Hh & Hn). split; [apply HG; eauto|].
    destruct (block_facts a U h _ HA Hh) as (H1 & _). unfold addr_of. rewrite Eo. zdiv.
Qed.

Lemma covered_drop U h b p :
  U !! h = Some b → covered (partial_alter (λ _, drop_ref b) h U) p → covered U p.
Proof.
  intros Hb (g & c & Hg & Hp). destruct (decide (g = h)) as [->|Hne].
  - rewrite lookup_partial_alter_eq in Hg. exists h, b. split; [done|].
    unfold drop_ref in Hg. destruct (1 <? b_ref b); [|done]. by injection Hg as <-.
  - rewrite lookup_partial_alter_ne in Hg by done. by exists g, c.
Qed.

Lemma pm_free_law a G p n :
  pm_owns a G → G !! p = Some n →
  ∃ a', Pm.free p 4096 a = Done (tt, a') ∧
    pm_owns a' (if 1 <? n then <[p := n - 1]> G else delete p G) ∧ ∀ m, pm_room a m → pm_room a' m.
Proof.
  intros (Hr & U & HA & HG) Hp. apply HG in Hp as (h & fg & -> & Hh).
  destruct (free_abs a U h _ HA Hh) as (a' & E & Eo & Es & HA').
  assert (∀ x, addr_of a' x = addr_of a x) as Ea by (intros x; unfold addr_of; by rewrite Eo).
  assert (npg a' = npg a) as En by (unfold npg; by rewrite Es).
  exists a'. split_and!; [exact E| |].
  - split; [destruct Hr; split; congruence|]. eexists. split; [exact HA'|]. intros p m. setoid_rewrite Ea.
    unfold drop_ref. simpl b_ref. simpl b_ord. simpl b_flags.
    transitivity (if decide (p = addr_of a h) then 1 < n ∧ m = n - 1 else G !! p = Some m).
    + destruct (Z.ltb_spec 1 n); case_decide; subst.
      * rewrite lookup_insert_eq. naive_solver.
      * by rewrite lookup_insert_ne.
      * rewrite lookup_delete_eq. naive_solver lia.
      * by rewrite lookup_delete_ne.
    + case_decide as Hd.
      * subst p. split.
        -- intros [Hn ->]. exists h, fg. split; [done|]. rewrite lookup_partial_alter_eq.
           by rewrite (proj2 (Z.ltb_lt _ _)).
        -- intros (h' & fg' & Eh & Hh'). assert (h' = h) as -> by (unfold addr_of in Eh; lia).
           rewrite lookup_partial_alter_eq in Hh'. destruct (Z.ltb_spec 1 n); [|done]. by injection Hh'.
      * rewrite HG. split; intros (h' & fg' & -> & Hh'); exists h', fg'; (split; [done|]);
          rewrite lookup_partial_alter_ne in *; done || congruence.
  - intros m (S & HS & Hid). exists S. split; [done|]. intros q Hq. pose proof (Hid q Hq) as [Hqr _].
    apply (idle_iff a' _ q HA'); [by rewrite En|]. intros Hc%(covered_drop U h _ q Hh).
    by apply (idle_iff a U q HA Hqr) in Hc; [|apply Hid].
Qed.
End pm.

#[export] Program Instance pm_frame_laws : FrameLaws Allocator := {
  owns := pm_owns;
  room := pm_room;
  low := pm_low;
  busy := pm_busy;
  owns_busy := pm_owns_busy;
  owns_frame := pm_owns_frame;
  fr_alloc_law := pm_alloc_law;
  low_held := pm_low_held;
  fr_free_low_law := pm_free_low_law;
  fr_free_law := pm_free_law;
}.
Next Obligation. intros a n (S & HS & Hid). exists S. split; [lia|done]. Qed.
