(* ===== verification/VmSpec.v ===== *)
(** * The page tables meet their specification

    What the hardware finds at an address is [translate s r v]: the leaf entry
    of the tree with root [r], if there is one.  The theorems say how each
    operation of [vm.rs] changes it, for this address and for every other
    address of every tree, and that no window stays behind. *)
From S2P Require Import Prelude Stuff Pm PmInv PmRun PmSpec Vm VmInv VmTree VmRun VmFree VmPm.

Local Open Scope Z_scope.

(** ** Page numbers *)

(** The page number that the four indices encode. *)
Definition vpn (v : Z) : Z := (v / 4096) mod 2 ^ 36.

Section pages.
Lemma idx_div v k : 0 ≤ k → Z.land (Z.shiftr v k) 0x1ff = (v / 2 ^ k) mod 512.
Proof. intros. change 0x1ff with (Z.ones 9). by rewrite Z.land_ones, Z.shiftr_div_pow2 by lia. Qed.

Lemma vpn_indices v :
  vpn v = ((vaddr_l0 v * 512 + vaddr_l1 v) * 512 + vaddr_l2 v) * 512 + vaddr_l3 v.
Proof.
  unfold vpn, vaddr_l0, vaddr_l1, vaddr_l2, vaddr_l3. rewrite !idx_div by lia.
  change (2 ^ 36) with (512 * (512 * (512 * 512))).
  change (2 ^ 39) with (4096 * (512 * (512 * 512))). change (2 ^ 30) with (4096 * (512 * 512)).
  change (2 ^ 21) with (4096 * 512). change (2 ^ 12) with 4096.
  rewrite <- !Z.div_div by lia. rewrite !(Z.rem_mul_r _ 512) by lia. lia.
Qed.

(** An address is its page number and its offset. *)
Lemma vaddr_split v : v mod 2 ^ 48 = vpn v * 4096 + vaddr_offt v.
Proof.
  unfold vpn, vaddr_offt. change 0xfff with (Z.ones 12). rewrite Z.land_ones by lia.
  change (2 ^ 12) with 4096. change (2 ^ 48) with (4096 * 2 ^ 36). rewrite Z.rem_mul_r by lia. lia.
Qed.

Lemma same_page_vpn v v' : same_page v v' ↔ vpn v = vpn v'.
Proof.
  rewrite !vpn_indices. pose proof (l0_range v). pose proof (l0_range v').
  pose proof (l1_range v). pose proof (l1_range v'). pose proof (l2_range v). pose proof (l2_range v').
  pose proof (l3_range v). pose proof (l3_range v'). unfold same_page, vpath. split.
  - intros [[= -> -> ->] ->]. done.
  - intros E. assert (vaddr_l0 v = vaddr_l0 v' ∧ vaddr_l1 v = vaddr_l1 v' ∧ vaddr_l2 v = vaddr_l2 v'
      ∧ vaddr_l3 v = vaddr_l3 v') as (-> & -> & -> & ->) by lia. done.
Qed.

Lemma low_not_win {im : Image} r v : vpn v < 511 * 2 ^ 27 → ¬ win_page r v.
Proof.
  intros Hv [_ Hp]. rewrite vpn_indices in Hv. injection Hp as E0 E1 E2.
  pose proof (l3_range v). lia.
Qed.
End pages.

Section spec.
Context {im : Image} {F : Type} {fo : FrameOps F} {fl : FrameLaws F}.
Implicit Types (s : VSt F) (W G : gmap Z Z) (T : gmap Z (Z * list Z)).

(** Nothing is mapped or unmapped except possibly at [v] in the tree of [r]. *)
Definition others_same T s s' (r v : Z) : Prop :=
  ∀ r' v', T !! r' = Some (r', []) → ¬ win_page r' v' → ¬ (r' = r ∧ vpn v' = vpn v) →
    translate s' r' v' = translate s r' v'.

(** C4: mapping a page: with three windows and three frames left,
    [map_v2p_4k_inner] returns; an unmapped page becomes mapped to the frame with
    the permissions, a mapped one is reported and replaced only on request, no
    other page of any tree changes, the tables stay a forest, and every
    window taken on the way is given back. *)
Theorem map_page_spec s T W G sl (r v p perms : Z) (overw : bool) :
  Inv s T W G → shows W sl r → T !! r = Some (r, []) → ¬ win_page r v →
  (base.size W + 3 ≤ 128)%nat → room (frames s) 3 →
  let x := Z.lor (Z.lor p perms) 0x403 in
  ∃ s' T' G', Inv s' T' W G' ∧ T ⊆ T' ∧ others_same T s s' r v ∧
    match translate s r v with
    | None => map_v2p_4k_inner sl v p perms overw (λ _, ret tt) s = Done (inr v, s') ∧
        translate s' r v = Some x
    | Some e => map_v2p_4k_inner sl v p perms overw (λ _, ret tt) s = Done (inl (EExists v), s') ∧
        translate s' r v = Some (if overw then x else e)
    end.
Proof.
  intros HI Hs Hr Hnw Hsz Hroom x.
  destruct (map_inner_run s T W G sl r v p perms overw 0 HI Hs Hr Hnw Hsz Hroom)
    as (s' & T' & G' & E & HI' & HT & HG & Er & _ & Ht & Ho).
  exists s', T', G'. split_and!; [done|done| |by destruct (translate s r v)].
  intros r' v' Hr' Hnw' Hd. apply Ho; [done|done|]. by rewrite same_page_vpn.
Qed.

Lemma unmap_run s T W G sl r v :
  Inv s T W G → shows W sl r → T !! r = Some (r, []) → ¬ win_page r v → (base.size W + 3 ≤ 128)%nat →
  ∃ s', Inv s' T W G ∧ others_same T s s' r v ∧ translate s' r v = None ∧
    frames s' = frames s ∧ regions s' = regions s ∧
    unmap_4k_inner sl v s = Done (match walk s r v with Some _ => inr tt | None => inl EInval end, s').
Proof.
  intros HI Hs Hr Hnw Hsz. pose proof (walk_to_l3_run s T W G sl r v HI Hs Hr Hsz) as Hw.
  pose proof (inv_forest _ _ _ _ HI) as HF. unfold unmap_4k_inner.
  destruct (walk s r v) as [t|] eqn:Ew.
  - destruct Hw as (i & s1 & E1 & Hi & HI1 & Q1). mrun E1. cbv iota beta.
    mrun (pt_set_run _ _ _ _ _ 0 (inv_wins _ _ _ _ HI1) (shows_insert _ i t) (l3_range v)).
    pose proof (inv_forest _ _ _ _ HI1) as HF1. pose proof (proj1 (walk_T _ _ _ _ _ HF Hr) Ew) as HT.
    assert (walk s1 r v = Some t) as Ew1 by (by apply (walk_T _ _ _ _ _ HF1 Hr)).
    assert (¬ win_entry t (vaddr_l3 v)) as Hne by (intros [-> _]; by eapply Hnw, win_walk).
    assert (Inv (set_word t (vaddr_l3 v) 0 s1) T (<[i := t]> W) G) as HI2 by (by eapply Inv_leaf).
    mrun tlbi_run. match goal with |- context [set_tlb ?l ?u] => pose proof (Inv_tlb u _ _ _ l HI2) as HI2l end.
    destruct (Inv_pop _ _ _ _ _ _ HI2l Hi) as (s3 & E3 & HI3 & Q3). exists s3.
    change (quiet (set_word t (vaddr_l3 v) 0 s1) s3) in Q3.
    assert (∀ r' v', T !! r' = Some (r', []) → ¬ win_page r' v' →
      translate s3 r' v' = if decide (r' = r ∧ vpn v' = vpn v) then None else translate s r' v') as Htr.
    { intros r' v' Hr' Hnw'. rewrite (translate_quiet _ _ _ _ _ r' v' HI2 Q3 Hr' Hnw').
      rewrite (translate_leaf s1 T r t v _ 0 r' v' HF1 Hr Hr' Ew1 eq_refl), Z.eqb_refl.
      rewrite (translate_quiet _ _ _ _ _ r' v' HI Q1 Hr' Hnw').
      destruct (decide (r' = r ∧ same_page v' v)) as [Hd|Hd]; rewrite same_page_vpn in Hd.
      - by rewrite decide_True. - by rewrite decide_False. }
    split_and!; [done| | | | |by mrun E3].
    + intros r' v' Hr' Hnw' Hd. rewrite Htr by done. by rewrite decide_False.
    + rewrite Htr by done. by rewrite decide_True.
    + destruct Q3 as (_ & -> & _), Q1 as (_ & <- & _). done.
    + destruct Q3 as (_ & _ & ->), Q1 as (_ & _ & <-). done.
  - destruct Hw as (s1 & E1 & HI1 & Q1). exists s1.
    assert (∀ r' v', T !! r' = Some (r', []) → ¬ win_page r' v' → translate s1 r' v' = translate s r' v') as Htr
      by (intros; by eapply translate_quiet).
    split_and!; [done|by intros r' v' Hr' Hnw' _; apply Htr| |apply Q1|apply Q1|by mrun E1].
    rewrite Htr by done. unfold translate. by rewrite Ew.
Qed.

(** Unmapping a page: afterwards nothing is mapped there, no other page of
    any tree changes, and the answer tells whether there was a table for it. *)
Theorem unmap_page_spec s T W G sl (r v : Z) :
  Inv s T W G → shows W sl r → T !! r = Some (r, []) → ¬ win_page r v → (base.size W + 3 ≤ 128)%nat →
  ∃ s', Inv s' T W G ∧ others_same T s s' r v ∧ translate s' r v = None ∧
    unmap_4k_inner sl v s = Done (match walk s r v with Some _ => inr tt | None => inl EInval end, s').
Proof.
  intros HI Hs Hr Hnw Hsz.
  destruct (unmap_run s T W G sl r v HI Hs Hr Hnw Hsz) as (s' & HI' & Ho & Ht & _ & _ & E). by exists s'.
Qed.

(** Translating: [v2p_pt] returns the frame of the leaf entry with the
    offset of the address, [Inval] when a table is missing on the way, and, with
    the tables there and the leaf entry empty, the bare offset as if it were a
    physical address.  It changes nothing but windows, which it gives back. *)
Theorem v2p_pt_spec s T W G sl (r v : Z) :
  Inv s T W G → shows W sl r → T !! r = Some (r, []) → ¬ win_page r v → (base.size W + 3 ≤ 128)%nat →
  ∃ s', Inv s' T W G ∧ quiet s s' ∧
    v2p_pt sl v None s = Done (match translate s r v, walk s r v with
      | Some e, _ => inr (Z.lor (Z.land e PHY_MASK) (Z.land v 0xfff))
      | None, Some _ => inr (Z.land v 0xfff)
      | None, None => inl EInval
      end, s').
Proof.
  intros HI Hs Hr Hnw Hsz. pose proof (walk_to_l3_run s T W G sl r v HI Hs Hr Hsz) as Hw.
  unfold v2p_pt, translate. destruct (walk s r v) as [t|] eqn:Ew.
  - destruct Hw as (i & s1 & E1 & Hi & HI1 & Q1). mrun E1. cbv iota beta. mstep.
    mrun (pt_get_run _ _ _ _ _ (inv_wins _ _ _ _ HI1) (shows_insert _ i t) (l3_range v)).
    destruct (Inv_pop _ _ _ _ _ _ HI1 Hi) as (s3 & E3 & HI3 & Q3). exists s3.
    assert (word s1 t (vaddr_l3 v) = word s t (vaddr_l3 v)) as ->.
    { apply Q1. intros [-> _]. eapply Hnw, win_walk; [apply (inv_forest _ _ _ _ HI)|done..]. }
    split_and!; [done|by etrans|]. mrun E3. cbn [mbind option_bind].
    destruct (Z.eqb_spec (word s t (vaddr_l3 v)) 0) as [->|]; [|done]. by rewrite Z.land_0_l, Z.lor_0_l.
  - destruct Hw as (s1 & E1 & HI1 & Q1). exists s1. split_and!; [done|done|by mrun E1].
Qed.

(** C8: giving back a process's tables: when the allocator holds a reference
    for every occurrence of a frame in the tree, [free_pt] returns, drops
    exactly one reference for each table and each mapped page, the root last,
    and leaves memory and the windows as they were. *)
Theorem free_pt_spec s T W G (r : Z) :
  Inv s T W G → T !! r = Some (r, []) → r ≠ im_pt → (base.size W + 4 ≤ 128)%nat →
  let l := tree_frames 3 s r ++ [r] in
  (∀ p, p ∈ l → ∃ n, G !! p = Some n ∧ occ p l ≤ n) →
  ∃ s', free_pt r s = Done (tt, s') ∧ Wins s' W ∧ owns (frames s') (release l G) ∧
    ∀ p i, ¬ win_entry p i → word s' p i = word s p i.
Proof.
  intros HI Hr Hne Hsz l Hl. pose proof HI as [I1 I2 I3 I4].
  destruct (free_list_run _ _ l I3 Hl) as (f' & Ef & Ho & _).
  apply forM_app_inv in Ef as (f1 & Ef1 & Ef2). cbn [forM] in Ef2. unfold bind in Ef2.
  destruct (fr_free r f1) as [[[] f2]|] eqn:E2; [|done]. injection Ef2 as ->.
  destruct (Inv_frame _ _ _ _ _ _ HI Hr) as [Hf1 Hf2].
  destruct (wrap_new_run s W r PR I1 ltac:(lia)) as (j & s1 & _ & Hj & E1 & HW1 & Q1);
    [by rewrite Hf2|apply PR_ok|]. rewrite Hf2 in HW1. specialize (E1 false).
  destruct (free_walk_run s T r 3 I2 Hne r [] (<[j := r]> W) (Win (waddr j)) s1 f1)
    as (s2 & E3 & Hwk & <-); [done|done|apply shows_insert|rewrite map_size_insert_None by done; lia| | |].
  { eapply walking_quiet; [|exact Q1|exact HW1]. by split_and!. }
  { by destruct Q1 as (_ & -> & _). }
  pose proof (walking_frames _ _ _ f' Hwk) as Hw4. set (s4 := mkVSt _ f' _ _ _) in Hw4.
  destruct (wrap_drop_run s4 _ j r (proj1 Hw4)) as (s5 & E5 & HW5 & Q5 & _); [apply lookup_insert_eq|].
  rewrite delete_insert_id in HW5 by done.
  destruct (walking_quiet _ _ _ _ _ Hw4 Q5 HW5) as (_ & Hword & _).
  exists s5. split_and!; [|done|by destruct Q5 as (_ & -> & _)|done].
  unfold free_pt. mrun E1. cbv iota beta. mrun E3. cbv iota beta. mrun (on_frames_run _ _ _ _ E2). exact E5.
Qed.
End spec.
