(* ===== verification/VmKern.v ===== *)
(** * [vm::map] and [vm::free]: the kernel's own virtual pages

    [REGIONS] hands out runs of up to four pages above the kernel image; [map]
    points them at physical memory and [free] takes them back. *)
From S2P Require Import Prelude Stuff Pm PmInv PmRun PmSpec Vm VmInv VmTree VmRun VmFree VmPm VmSpec.

Local Open Scope Z_scope.

Section kern.
Context {im : Image} {F : Type} {fo : FrameOps F} {fl : FrameLaws F}.
Implicit Types (s : VSt F) (W G : gmap Z Z) (T : gmap Z (Z * list Z)).

Definition kpage s (i : Z) : Z := r_start (regions s) + i * 4096.
Definition kbit s (i : Z) : bool := BitSet128.mem (r_bs (regions s)) i.

(** A page that is not taken is not mapped. *)
Record KInv s T W G : Prop := {
  k_inv : Inv s T W G;
  k_root : T !! im_pt = Some (im_pt, []);
  k_lo : VOFFT ≤ r_start (regions s);
  k_hi : r_start (regions s) + 128 * 4096 ≤ VOFFT + 2 ^ 38;
  k_al : r_start (regions s) mod 4096 = 0;
  k_wf : BitSet128.wf (r_bs (regions s));
  k_len : BitSet128.len (r_bs (regions s)) = 128;
  k_clear : ∀ i, 0 ≤ i < 128 → kbit s i = false → translate s im_pt (kpage s i) = None;
}.

(** Addresses in the half gigabyte-scaled range above [VOFFT]. *)
Definition klow (v : Z) : Prop := VOFFT ≤ v ≤ VOFFT + 2 ^ 38.

Lemma vpn_klow v : klow v → vpn v = (v - VOFFT) / 4096.
Proof.
  unfold klow, vpn, VOFFT. intros Hv.
  replace (v / 4096) with ((v - 0xffff000000000000) / 4096 + 0xffff * 2 ^ 36) by zdiv.
  rewrite Z.mod_add by lia. apply Z.mod_small. zdiv.
Qed.

Lemma vpn_step v i : klow v → klow (v + i * 4096) → vpn (v + i * 4096) = vpn v + i.
Proof. intros H1 H2. rewrite !vpn_klow by done. unfold klow, VOFFT in *. zdiv. Qed.

Lemma klow_not_win v : klow v → ¬ win_page im_pt v.
Proof. intros Hv. apply low_not_win. rewrite vpn_klow by done. unfold klow, VOFFT in *. zdiv. Qed.

(** Outside of the pages [v + i * 4096] of the kernel's tree, nothing changes. *)
Definition others_same_n T s s' (v k n : Z) : Prop :=
  ∀ r' v', T !! r' = Some (r', []) → ¬ win_page r' v' →
    ¬ (r' = im_pt ∧ ∃ i, k ≤ i < n ∧ vpn v' = vpn (v + i * 4096)) → translate s' r' v' = translate s r' v'.

Lemma page_arith v i : klow (v + i * 4096) → 0 ≤ v → 0 ≤ i ≤ 128 →
  v +! i *! 4 *! KB = v + i * 4096.
Proof.
  intros Hv Hv0 Hi. rewrite (wmul_small 64 i 4) by lia. unfold KB.
  rewrite (wmul_small 64 (i * 4) 1024) by lia. unfold klow, VOFFT in Hv. rewrite wadd_small by lia. lia.
Qed.

Lemma map_loop_run W v p perms n m q : ∀ k s T G,
  Inv s T W G → T !! im_pt = Some (im_pt, []) → (base.size W + 3 ≤ 128)%nat →
  room (frames s) (3 * m + q) → 0 ≤ k → k + Z.of_nat m = n → n ≤ 128 →
  klow v → klow (v + n * 4096) → 0 ≤ p → p + n * 4096 < 2 ^ 64 →
  (∀ i, k ≤ i < n → translate s im_pt (v + i * 4096) = None) →
  ∃ s' T' G', map_loop map_v2p_4k (range k n) v p perms s = Done (inr tt, s') ∧
    Inv s' T' W G' ∧ T ⊆ T' ∧ room (frames s') q ∧ regions s' = regions s ∧
    (∀ i, k ≤ i < n → translate s' im_pt (v + i * 4096) = Some (Z.lor (Z.lor (p + i * 4096) perms) 0x403)) ∧
    others_same_n T s s' v k n.
Proof.
  induction m as [|m IH]; intros k s T G HI Hr Hsz Hroom Hk0 Hk Hn Hv Hvn Hp Hpn Hun.
  - rewrite range_nil by lia. exists s, T, G. split_and!; try done. intros i Hi. lia.
  - rewrite range_cons by lia. cbn [map_loop].
    assert (∀ i, 0 ≤ i ≤ n → klow (v + i * 4096)) as Hkl by (unfold klow in *; lia).
    rewrite page_arith by (unfold klow, VOFFT in *; lia).
    assert (p +! k *! 4 *! KB = p + k * 4096) as ->.
    { rewrite (wmul_small 64 k 4) by lia. unfold KB. rewrite (wmul_small 64 (k * 4) 1024) by lia.
      rewrite wadd_small by lia. lia. }
    replace (3 * S m + q)%nat with (3 + (3 * m + q))%nat in Hroom by lia.
    destruct (map_inner_run s T W G (Phys im_pt) im_pt (v + k * 4096) (p + k * 4096) perms false (3 * m + q) HI)
      as (s1 & T1 & G1 & E1 & HI1 & HT1 & _ & Er1 & Rm1 & Ht1 & Ho1 & _);
      [by left|done|apply klow_not_win, Hkl; lia|done|done|].
    rewrite Hun in E1, Ht1 by lia. unfold map_v2p_4k at 1. mrun E1. cbv iota beta.
    destruct (IH (k + 1) s1 T1 G1) as (s' & T' & G' & E' & HI' & HT' & Rm' & Er' & Ht' & Ho');
      try done; try lia; [by eapply lookup_weaken| |].
    { intros i Hi. rewrite Ho1; [apply Hun; lia|done|apply klow_not_win, Hkl; lia|].
      rewrite same_page_vpn, !vpn_step by (done || (apply Hkl; lia)). lia. }
    exists s', T', G'. split_and!; [done|done|by etrans|done|congruence| |].
    + intros i Hi. destruct (decide (i = k)) as [->|Hne]; [|apply Ht'; lia].
      rewrite Ho'; [done|by eapply lookup_weaken|apply klow_not_win, Hkl; lia|].
      intros [_ (j & Hj & Ej)]. rewrite !vpn_step in Ej by (done || (apply Hkl; lia)). lia.
    + intros r' v' Hr' Hnw Hd. rewrite Ho'; [|by eapply lookup_weaken|done|].
      * apply Ho1; [done|done|]. rewrite same_page_vpn. intros [-> Ev]. apply Hd. split; [done|].
        exists k. split; [lia|done].
      * intros [-> (j & Hj & Ej)]. apply Hd. split; [done|]. exists j. split; [lia|done].
Qed.

(** Taking [n] pages of the region. *)
Lemma region_alloc_run s T W G n :
  KInv s T W G → 1 ≤ n ≤ 4 →
  (alloc n s = Done (None, s) ∧ ∀ j, 0 ≤ j → j + n ≤ 128 → ¬ BitSet128.clear_run (r_bs (regions s)) j n) ∨
  ∃ j r, alloc n s = Done (Some (kpage s j), set_regions r s) ∧ 0 ≤ j ∧ j + n ≤ 128 ∧
    BitSet128.clear_run (r_bs (regions s)) j n ∧
    (∀ m, 0 ≤ m < j → ¬ BitSet128.clear_run (r_bs (regions s)) m n) ∧ r_start r = r_start (regions s) ∧
    BitSet128.wf (r_bs r) ∧ BitSet128.len (r_bs r) = 128 ∧
    ∀ i, BitSet128.mem (r_bs r) i = bool_decide (j ≤ i < j + n) || kbit s i.
Proof.
  intros [_ _ Hlo Hhi _ Hwf Hlen _] Hn. unfold alloc. mstep. unfold region_alloc.
  rewrite (proj2 (Z.ltb_ge _ _)) by lia. rewrite orb_false_r. unfold region_is_full.
  destruct (BitSet128.full (r_bs (regions s))) eqn:Ef.
  - left. pose proof (proj1 (BitSet128.full_iff _ Hwf) Ef) as Hall.
    split; [by destruct s|]. intros j Hj Hjn Hc. specialize (Hc j ltac:(lia)). by rewrite Hall in Hc by lia.
  - rewrite wrap_small by lia.
    destruct (BitSet128.set_nclr_ok _ Hwf n) as (o & bs & E & Hwf' & Hl' & Ho); [lia|]. unfold obind.
    rewrite E. cbv iota beta. destruct o as [j|].
    + right. destruct Ho as (Hj & Hjn & Hc & Hmin & Hm). rewrite Hlen in *.
      exists j, (mkRegion (r_start (regions s)) bs). split_and!; try done.
      unfold kpage, VOFFT in *. rewrite wmul_small by lia. rewrite wadd_small by lia.
      rewrite Z.add_comm. done.
    + left. destruct Ho as [-> Ho]. rewrite Hlen in *. split; [|done]. destruct s as [? ? ? [? ?]]. done.
Qed.

Lemma set_regions_inv s T W G r : Inv s T W G → Inv (set_regions r s) T W G.
Proof.
  intros [I1 I2 I3 I4]. split; [by apply Wins_mem| |done|done]. by eapply forest_agree.
Qed.

Lemma map_run s T W G p n perms q :
  KInv s T W G → 1 ≤ n ≤ 4 → (base.size W + 3 ≤ 128)%nat → room (frames s) (3 * Z.to_nat n + q) →
  0 ≤ p → p + n * 4096 < 2 ^ 64 →
  (map p n perms s = Done (inl EAlloc, s) ∧
   ∀ j, 0 ≤ j → j + n ≤ 128 → ¬ BitSet128.clear_run (r_bs (regions s)) j n) ∨
  ∃ j s' T' G', map p n perms s = Done (inr (kpage s j), s') ∧ 0 ≤ j ∧ j + n ≤ 128 ∧
    BitSet128.clear_run (r_bs (regions s)) j n ∧
    (∀ m, 0 ≤ m < j → ¬ BitSet128.clear_run (r_bs (regions s)) m n) ∧ KInv s' T' W G' ∧ T ⊆ T' ∧ room (frames s') q ∧
    r_start (regions s') = r_start (regions s) ∧
    (∀ i, kbit s' i = bool_decide (j ≤ i < j + n) || kbit s i) ∧
    (∀ i, 0 ≤ i < n →
       translate s' im_pt (kpage s (j + i)) = Some (Z.lor (Z.lor (p + i * 4096) perms) 0x403)) ∧
    others_same_n T s s' (kpage s j) 0 n.
Proof.
  intros HK Hn Hsz Hroom Hp Hpn. pose proof HK as [HI Hr Hlo Hhi Hal Hwf Hlen Hcl]. unfold map.
  destruct (region_alloc_run s T W G n HK Hn) as [[E Hno]|(j & r & E & Hj & Hjn & Hc & Hmin & Est & Hwf' & Hl' & Hm)].
  { left. split; [by mrun E|done]. }
  right. mrun E. cbv iota beta. set (s1 := set_regions r s).
  assert (∀ i, 0 ≤ i ≤ 128 → klow (kpage s i)) as Hkl by (unfold klow, kpage; lia).
  assert (∀ i, kpage s j + i * 4096 = kpage s (j + i)) as Ekp by (unfold kpage; lia).
  destruct (map_loop_run W (kpage s j) p perms n (Z.to_nat n) q 0 s1 T G)
    as (s' & T' & G' & E' & HI' & HT' & Rm' & Er' & Ht' & Ho'); try done; try lia.
  { by apply set_regions_inv. }
  { apply Hkl. lia. }
  { rewrite Ekp. apply Hkl. lia. }
  { intros i Hi. rewrite Ekp. change (translate s im_pt (kpage s (j + i)) = None).
    apply Hcl; [lia|]. apply Hc. lia. }
  exists j, s', T', G'. assert (∀ i, kbit s' i = bool_decide (j ≤ i < j + n) || kbit s i) as Hbit
    by (intros i; unfold kbit at 1; rewrite Er'; apply Hm).
  assert (r_start (regions s') = r_start (regions s)) as Es by (by rewrite Er').
  split_and!; try done.
  - by mrun E'.
  - split; try done; try (by rewrite Es); try (by rewrite Er'); [by eapply lookup_weaken|].
    intros i Hi Hb. rewrite Hbit in Hb. apply orb_false_iff in Hb as [Hb1 Hb2].
    apply bool_decide_eq_false in Hb1. replace (kpage s' i) with (kpage s i) by (unfold kpage; by rewrite Es).
    rewrite Ho'; [by apply Hcl|done|apply klow_not_win, Hkl; lia|].
    intros [_ (a & Ha & Ea)]. rewrite Ekp in Ea. rewrite !vpn_klow in Ea by (apply Hkl; lia).
    unfold kpage in Ea. zdiv.
  - intros i Hi. rewrite <- Ekp. by apply Ht'.
Qed.

Lemma translate_walk s r v e : translate s r v = Some e → is_Some (walk s r v).
Proof. unfold translate. by destruct (walk s r v). Qed.

Lemma free_4k_run s T W G j :
  KInv s T W G → (base.size W + 3 ≤ 128)%nat → 0 ≤ j < 128 → kbit s j = true →
  is_Some (translate s im_pt (kpage s j)) →
  ∃ s', free_4k (kpage s j) s = Done (tt, s') ∧ KInv s' T W G ∧ frames s' = frames s ∧
    r_start (regions s') = r_start (regions s) ∧
    (∀ i, 0 ≤ i < 128 → kbit s' i = negb (bool_decide (i = j)) && kbit s i) ∧
    others_same T s s' im_pt (kpage s j).
Proof.
  intros [HI Hr Hlo Hhi Hal Hwf Hlen Hcl] Hsz Hj Hb [e Ht]. unfold kbit in Hb. unfold free_4k. mstep.
  assert (∀ i, 0 ≤ i ≤ 128 → klow (kpage s i)) as Hkl by (unfold klow, kpage; lia).
  destruct (BitSet128.clr_ok _ Hwf j) as (bs & Ec & Hwf' & Hl' & Hm); [lia|].
  assert (region_free_1 (regions s) (kpage s j) = Done (mkRegion (r_start (regions s)) bs)) as Ef.
  { unfold region_free_1, region_free_inner, kpage. rewrite (proj2 (Z.leb_le _ _)) by lia.
    replace (r_start (regions s) + j * 4096 - r_start (regions s)) with (j * 4096) by lia.
    rewrite Z.div_mul by lia. rewrite (proj2 (Z.leb_gt _ _)) by lia.
    rewrite BitSet128.tst_mem, Hb by lia. unfold obind. by rewrite Ec. }
  unfold lift. unfold bind at 1. rewrite Ef. unfold bind at 1, modify.
  set (s1 := set_regions _ s).
  destruct (unmap_run s1 T W G (Phys im_pt) im_pt (kpage s j)) as (s' & HI' & Ho & Hn & Efr & Er & E);
    [by apply set_regions_inv|by left|done|apply klow_not_win, Hkl; lia|done|].
  destruct (translate_walk s im_pt (kpage s j) e Ht) as [t Hw].
  change (walk s1 im_pt (kpage s j)) with (walk s im_pt (kpage s j)) in E. rewrite Hw in E.
  assert (∀ i, 0 ≤ i < 128 → kbit s' i = negb (bool_decide (i = j)) && kbit s i) as Hbit
    by (intros i Hi; unfold kbit at 1; rewrite Er; apply Hm; lia).
  exists s'. split_and!; [unfold unmap_4k; by mrun E| |done|by rewrite Er|done|done].
  split; try done; try (by rewrite Er); [rewrite Er; simpl; by rewrite Hl'|].
  intros i Hi Hbi. rewrite Hbit in Hbi by done.
  replace (kpage s' i) with (kpage s i) by (unfold kpage; by rewrite Er).
  destruct (decide (i = j)) as [->|Hne]; [done|].
  rewrite bool_decide_eq_false_2 in Hbi by done. simpl in Hbi.
  rewrite Ho; [by apply Hcl|done|apply klow_not_win, Hkl; lia|].
  rewrite !vpn_klow by (apply Hkl; lia). unfold kpage. intros [_ Hv]. zdiv.
Qed.

Lemma kfree_run W T G j n m : ∀ k s,
  KInv s T W G → (base.size W + 3 ≤ 128)%nat → 0 ≤ k → k + Z.of_nat m = n → 0 ≤ j → j + n ≤ 128 →
  (∀ i, k ≤ i < n → kbit s (j + i) = true ∧ is_Some (translate s im_pt (kpage s (j + i)))) →
  ∃ s', forM (range k n) (λ i, free_4k (kpage s j +! i *! 4 *! KB)) s = Done (tt, s') ∧ KInv s' T W G ∧
    r_start (regions s') = r_start (regions s) ∧
    (∀ i, 0 ≤ i < 128 → kbit s' i = negb (bool_decide (j + k ≤ i < j + n)) && kbit s i) ∧
    others_same_n T s s' (kpage s j) k n.
Proof.
  induction m as [|m IH]; intros k s HK Hsz Hk0 Hk Hj Hjn Hpre.
  - rewrite range_nil by lia. exists s. split_and!; try done. intros i Hi. by rewrite bool_decide_eq_false_2 by lia.
  - rewrite range_cons by lia. pose proof (k_lo _ _ _ _ HK). pose proof (k_hi _ _ _ _ HK).
    assert (∀ i, 0 ≤ i ≤ 128 → klow (kpage s i)) as Hkl by (unfold klow, kpage; lia).
    assert (∀ i, kpage s j + i * 4096 = kpage s (j + i)) as Ekp by (unfold kpage; lia).
    destruct (Hpre k) as [Hb Ht]; [lia|].
    destruct (free_4k_run s T W G (j + k) HK Hsz) as (s1 & E1 & HK1 & Ef1 & Es1 & Hb1 & Ho1); [lia|done|done|].
    assert (∀ i, kpage s1 i = kpage s i) as Ekp1 by (intros i; unfold kpage; by rewrite Es1).
    destruct (IH (k + 1) s1) as (s' & E' & HK' & Es' & Hb' & Ho'); try done; try lia.
    { intros i Hi. destruct (Hpre i) as [Hbi Hti]; [lia|]. rewrite Hb1 by lia.
      rewrite bool_decide_eq_false_2 by lia. split; [done|]. rewrite Ekp1, Ho1; [done|apply HK| |].
      - apply klow_not_win, Hkl. lia.
      - rewrite !vpn_klow by (apply Hkl; lia). unfold kpage. intros [_ Hv]. zdiv. }
    rewrite Ekp1 in E'. exists s'. split_and!; [|done|congruence| |].
    + rewrite (forM_cons (λ i, free_4k (kpage s j +! i *! 4 *! KB)) k _ _ s1); [done|]. cbv beta.
      rewrite page_arith, Ekp by (try rewrite Ekp; try apply Hkl; unfold kpage, VOFFT in *; lia). done.
    + intros i Hi. rewrite Hb', Hb1 by done. repeat case_bool_decide; simpl; try done; lia.
    + intros r' v' Hr' Hnw Hd. rewrite Ho'; [|done|done|].
      * apply Ho1; [done|done|]. rewrite <- Ekp. intros [-> Ev]. apply Hd. split; [done|]. exists k. split; [lia|done].
      * rewrite Ekp1. intros [-> (a & Ha & Ea)]. apply Hd. split; [done|]. exists a. split; [lia|done].
Qed.

(** C9: [vm::map].  More than four pages are refused, whatever is free, and
    nothing changes.  For one to four pages, with enough frames for new tables
    and three windows left, it takes the first run of virtual pages that is free
    and maps exactly these, in order, to consecutive frames with the
    permissions; it then fails, changing nothing, only when no such run exists. *)
Theorem kmap_spec s T W G (p n perms : Z) :
  KInv s T W G → 1 ≤ n →
  (4 < n → map p n perms s = Done (inl EAlloc, s)) ∧
  (n ≤ 4 → (base.size W + 3 ≤ 128)%nat → room (frames s) (3 * Z.to_nat n) → 0 ≤ p → p + n * 4096 < 2 ^ 64 →
   (map p n perms s = Done (inl EAlloc, s) ∧
    ∀ j, 0 ≤ j → j + n ≤ 128 → ¬ BitSet128.clear_run (r_bs (regions s)) j n) ∨
   ∃ j s' T' G', map p n perms s = Done (inr (kpage s j), s') ∧ 0 ≤ j ∧ j + n ≤ 128 ∧
     BitSet128.clear_run (r_bs (regions s)) j n ∧
     (∀ m, 0 ≤ m < j → ¬ BitSet128.clear_run (r_bs (regions s)) m n) ∧ KInv s' T' W G' ∧ T ⊆ T' ∧
     r_start (regions s') = r_start (regions s) ∧
     (∀ i, kbit s' i = bool_decide (j ≤ i < j + n) || kbit s i) ∧
     (∀ i, 0 ≤ i < n →
        translate s' im_pt (kpage s (j + i)) = Some (Z.lor (Z.lor (p + i * 4096) perms) 0x403)) ∧
     others_same_n T s s' (kpage s j) 0 n).
Proof.
  intros HK Hn. split.
  - intros H4. assert (alloc n s = Done (None, s)) as E.
    { unfold alloc, region_alloc, bind, get, lift. rewrite (proj2 (Z.ltb_lt _ _) H4), orb_true_r. by destruct s. }
    unfold map. by rewrite (bind_Done _ _ _ _ _ E).
  - intros H4 Hsz Hroom Hp Hpn.
    destruct (map_run s T W G p n perms 0 HK (conj Hn H4) Hsz ltac:(by rewrite Nat.add_0_r) Hp Hpn)
      as [?|(j & s' & T' & G' & E & H1 & H2 & H3 & H5 & H6 & H7 & _ & H8)]; [by left|right].
    by exists j, s', T', G'.
Qed.

(** C38: [vm::map] and then [vm::free] of what it returned: the pages of the
    region and every translation of every tree are as before. *)
Theorem kmap_free_roundtrip s T W G (p n perms v : Z) s1 :
  KInv s T W G → 1 ≤ n ≤ 4 → (base.size W + 3 ≤ 128)%nat → room (frames s) (3 * Z.to_nat n) →
  0 ≤ p → p + n * 4096 < 2 ^ 64 → map p n perms s = Done (inr v, s1) →
  ∃ s2 T' G', free v n s1 = Done (tt, s2) ∧ KInv s2 T' W G' ∧ T ⊆ T' ∧
    (∀ i, 0 ≤ i < 128 → kbit s2 i = kbit s i) ∧
    ∀ r' v', T !! r' = Some (r', []) → ¬ win_page r' v' → translate s2 r' v' = translate s r' v'.
Proof.
  intros HK Hn Hsz Hroom Hp Hpn E. pose proof (k_lo _ _ _ _ HK). pose proof (k_hi _ _ _ _ HK).
  destruct (map_run s T W G p n perms 0 HK Hn Hsz ltac:(by rewrite Nat.add_0_r) Hp Hpn)
    as [[E' _]|(j & s' & T' & G' & E' & Hj & Hjn & Hc & _ & HK' & HT & _ & Es & Hb & Ht & Ho)];
    rewrite E in E'; [done|]. injection E' as -> ->.
  assert (∀ i, 0 ≤ i ≤ 128 → klow (kpage s i)) as Hkl by (unfold klow, kpage; lia).
  assert (∀ i, kpage s' i = kpage s i) as Ekp by (intros i; unfold kpage; by rewrite Es).
  destruct (kfree_run W T' G' j n (Z.to_nat n) 0 s') as (s2 & E2 & HK2 & Es2 & Hb2 & Ho2); try done; try lia.
  { intros i Hi. rewrite Hb, bool_decide_eq_true_2 by lia. split; [done|]. by rewrite Ekp, Ht. }
  rewrite Ekp in E2. exists s2, T', G'. split_and!; [exact E2|done|done| |].
  - intros i Hi. rewrite Hb2, Hb by done. rewrite Z.add_0_r. case_bool_decide as Hd; [|done].
    simpl. symmetry. apply Hc. lia.
  - intros r' v' Hr' Hnw.
    destruct (decide (r' = im_pt ∧ (vpn (kpage s j) ≤ vpn v' < vpn (kpage s j) + n))) as [[-> Hin]|Hout].
    + assert (same_page v' (kpage s (j + (vpn v' - vpn (kpage s j))))) as Hsp.
      { rewrite same_page_vpn. set (i := vpn v' - _).
        replace (kpage s (j + i)) with (kpage s j + i * 4096) by (unfold kpage; lia).
        rewrite vpn_step; [subst i; lia|apply Hkl; lia|]. unfold klow, kpage. subst i. lia. }
      set (i := vpn v' - vpn (kpage s j)) in *.
      assert (∀ s0 : VSt F, translate s0 im_pt v' = translate s0 im_pt (kpage s (j + i))) as Esp.
      { intros s0. destruct Hsp as [Hp1 Hp2]. unfold translate, walk. injection Hp1 as -> -> ->. by rewrite Hp2. }
      rewrite !Esp. rewrite (k_clear _ _ _ _ HK (j + i)); [|lia|apply Hc; lia].
      rewrite <- (Ekp (j + i)). replace (kpage s' (j + i)) with (kpage s2 (j + i)) by (unfold kpage; by rewrite Es2).
      apply (k_clear _ _ _ _ HK2); [lia|]. rewrite Hb2 by lia. by rewrite bool_decide_eq_true_2 by lia.
    + rewrite Ho2; [|by eapply lookup_weaken|done|]; [apply Ho; [done|done|]|].
      all: try rewrite Ekp; intros [-> (i & Hi & Ei)]; apply Hout; split; [done|];
        rewrite vpn_step in Ei; [lia|apply Hkl; lia|]; unfold klow, kpage in *; lia.
Qed.
End kern.
