(* ===== verification/VmBoot.v ===== *)
(** * [vm::init]: the kernel's own mapping

    At boot the tables are built through the direct mapping, from frames the
    allocator hands out; [init] then hangs the static tables of the windows
    below the last entry and gives the frames below the kernel back. *)
From S2P Require Import Prelude Stuff Pm PmInv PmRun PmSpec Vm VmInv VmTree VmRun VmFree VmPm VmSpec VmKern.

Local Open Scope Z_scope.

Section boot.
Context {im : Image} {F : Type} {fo : FrameOps F} {fl : FrameLaws F}.
Implicit Types (s : VSt F) (W G : gmap Z Z) (T : gmap Z (Z * list Z)).

(** While the direct tables are built: trees of live frames above [k], none of
    them the table of the windows. *)
Record BInv (k : Z) s T G : Prop := {
  b_trees : trees s T;
  b_root : T !! im_pt = Some (im_pt, []);
  b_owns : owns (frames s) G;
  b_low : low (frames s) k;
  b_live : ∀ t x, T !! t = Some x → is_Some (G !! t) ∧ align_b k 4096 ≤ t;
  b_nowin : T !! im_l3 = None;
  b_win : is_Some (G !! im_l3);
}.

Lemma pt_get_phys p i s : 0 ≤ i < 512 → pt_get (Phys p) i s = Done (word s p i, s).
Proof. intros Hi. unfold pt_get. by rewrite (proj2 (Z.ltb_lt _ _)) by lia. Qed.

Lemma pt_set_phys p i x s : 0 ≤ i < 512 → pt_set (Phys p) i x s = Done (tt, set_word p i x s).
Proof. intros Hi. unfold pt_set. by rewrite (proj2 (Z.ltb_lt _ _)) by lia. Qed.

Lemma pt_alloc_if_0_run k s T G p r path idx n :
  BInv k s T G → T !! p = Some (r, path) → (length path < 3)%nat → 0 ≤ idx < 512 →
  room (frames s) (S n) →
  ∃ q s' T' G', pt_alloc_if_0 idx (Phys p) s = Done (Phys q, s') ∧ BInv k s' T' G' ∧
    T' !! q = Some (r, path ++ [idx]) ∧ extends s T s' T' ∧ G ⊆ G' ∧
    (∀ t x, T !! t = None → T' !! t = Some x → G !! t = None) ∧
    fixed s' = fixed s ∧ regions s' = regions s ∧ room (frames s') n ∧
    ∀ t i, is_Some (G !! t) → ¬ (t = p ∧ i = idx) → word s' t i = word s t i.
Proof.
  intros HB Hp Hl Hi Hroom. pose proof HB as [HF Hr Ho Hlow Hlive Hnw Hw]. unfold pt_alloc_if_0.
  mrun (pt_get_phys p idx s Hi). destruct (Z.eqb_spec (word s p idx) 0) as [E0|Hne].
  - destruct (fr_alloc_law _ _ n Ho Hroom) as (q & f & Ea & HGq & Hown & Hroom' & Hlow' & _).
    assert (frame_ok q) as Hfq by (eapply owns_frame; [exact Hown|apply lookup_insert_eq]).
    pose proof Hfq as [Hq1 Hq2].
    assert (T !! q = None) as HTq.
    { destruct (T !! q) eqn:E; [|done]. destruct (Hlive _ _ E) as [[? ?] _]. congruence. }
    assert (q ≠ im_l3) as Hqi by (intros ->; rewrite HGq in Hw; by destruct Hw).
    assert (p ≠ q) as Hpq by congruence.
    assert (align_b k 4096 ≤ q) as Hqk.
    { destruct (Z.le_gt_cases (align_b k 4096) q) as [|Hlt]; [done|].
      destruct (low_held _ _ k q Ho Hlow Hfq Hlt). congruence. }
    set (s1 := mkVSt (mem s) f (fixed s) (regions s) (tlb s)).
    destruct (zero_pt_gen (λ _, True) (Phys q) q s1) as (s2 & E2 & _ & Ef2 & Er2 & Ex2 & Hw2); [done..|].
    assert (∀ t i, word (set_word p idx (Z.lor q 3) s2) t i =
      if decide (t = p ∧ i = idx) then Z.lor q 3 else if decide (t = q ∧ 0 ≤ i < 512) then 0 else word s t i) as Hw3
      by (intros t i; by rewrite word_set, Hw2).
    exists q, (set_word p idx (Z.lor q 3) s2), (<[q := (r, path ++ [idx])]> T), (<[q := 1]> G).
    assert (frames (set_word p idx (Z.lor q 3) s2) = f) as Ef by exact Ef2.
    split_and!; try done; try (by rewrite Ef).
    + rewrite bind_assoc. mrun (on_frames_run _ _ _ _ Ea). fold s1. cbv iota beta.
      rewrite bind_assoc. mrun E2. rewrite bind_assoc. mrun (pt_set_phys p idx (Z.lor q 3) s2 Hi). mstep.
      unfold ret. by rewrite table_frame, Hq2.
    + split; try (by rewrite Ef).
      * apply (trees_grow s T _ p); try done.
        -- intros t r1 path1 i Ht _ Hi1. rewrite Hw3. destruct (decide (t = p ∧ i = idx)); [done|].
           by rewrite decide_False by (intros [-> _]; congruence).
        -- intros i Hi1. rewrite Hw3, decide_False by naive_solver. by rewrite decide_True.
      * rewrite lookup_insert_ne by congruence. done.
      * rewrite Ef. auto.
      * intros t x. rewrite !lookup_insert. case_decide; [subst; by eauto|]. apply Hlive.
      * by rewrite lookup_insert_ne.
      * by rewrite lookup_insert_ne.
    + by rewrite lookup_insert_eq.
    + apply (extends_grow s T _ p); try done. intros t i Hi1 _. rewrite Hw3.
      destruct (decide (t = q)) as [->|]; [by rewrite decide_False, decide_True by naive_solver|].
      case_decide; [done|]. by rewrite decide_False by naive_solver.
    + by apply insert_subseteq.
    + intros t x Ht. rewrite lookup_insert. case_decide; congruence.
    + intros t i Ht Hd. rewrite Hw3, decide_False by done. rewrite decide_False; [done|].
      intros [-> _]. rewrite HGq in Ht. by destruct Ht.
  - exists (Z.land (word s p idx) PHY_MASK), s, T, G.
    split_and!; try done; [by eapply fo_child|by apply extends_quiet|congruence|by apply room_less].
Qed.

(** Words that building the way to [v] leaves alone: live frames that are not
    tables yet, and the other entries of the root. *)
Definition aside T G (v t i : Z) : Prop :=
  is_Some (G !! t) ∧ (T !! t = None ∨ (t = im_pt ∧ i ≠ vaddr_l0 v)).

Lemma aside_step T G T' G' v t i :
  T ⊆ T' → G ⊆ G' → (∀ t x, T !! t = None → T' !! t = Some x → G !! t = None) →
  aside T G v t i → aside T' G' v t i.
Proof.
  intros HT HG Hnew [[n Hn] Hor]. split; [exists n; by eapply lookup_weaken|].
  destruct Hor as [Hnone|Hroot]; [|by right]. left. destruct (T' !! t) eqn:E; [|done].
  rewrite (Hnew _ _ Hnone E) in Hn. done.
Qed.

Lemma aside_not T G v t i q r x path :
  T !! im_pt = Some (im_pt, []) → T !! q = Some (r, x :: path) → aside T G v t i → t ≠ q.
Proof. intros Hr Hq [_ [Hn|[-> _]]]; congruence. Qed.

Lemma boot_tables_run k s T G v n :
  BInv k s T G → room (frames s) (3 + n) →
  ∃ q1 q2 q3 s1 s2 s3 T' G',
    pt_alloc_if_0 (vaddr_l0 v) (Phys im_pt) s = Done (Phys q1, s1) ∧
    pt_alloc_if_0 (vaddr_l1 v) (Phys q1) s1 = Done (Phys q2, s2) ∧
    pt_alloc_if_0 (vaddr_l2 v) (Phys q2) s2 = Done (Phys q3, s3) ∧
    BInv k s3 T' G' ∧ T' !! q3 = Some (im_pt, vpath v) ∧ extends s T s3 T' ∧ G ⊆ G' ∧
    (∀ t i, aside T G v t i → aside T' G' v t i ∧ word s3 t i = word s t i) ∧
    fixed s3 = fixed s ∧ regions s3 = regions s ∧ room (frames s3) n.
Proof.
  intros HB Hroom. pose proof (b_root _ _ _ _ HB) as Hr.
  destruct (pt_alloc_if_0_run k s T G im_pt im_pt [] (vaddr_l0 v) (2 + n) HB Hr)
    as (q1 & s1 & T1 & G1 & E1 & HB1 & Hq1 & X1 & HG1 & N1 & Fx1 & Rg1 & Rm1 & Hw1);
    [simpl; lia|apply l0_range|done|]. simpl app in Hq1.
  destruct (pt_alloc_if_0_run k s1 T1 G1 q1 im_pt [vaddr_l0 v] (vaddr_l1 v) (1 + n) HB1 Hq1)
    as (q2 & s2 & T2 & G2 & E2 & HB2 & Hq2 & X2 & HG2 & N2 & Fx2 & Rg2 & Rm2 & Hw2);
    [simpl; lia|apply l1_range|done|]. simpl app in Hq2.
  destruct (pt_alloc_if_0_run k s2 T2 G2 q2 im_pt [vaddr_l0 v; vaddr_l1 v] (vaddr_l2 v) n HB2 Hq2)
    as (q3 & s3 & T3 & G3 & E3 & HB3 & Hq3 & X3 & HG3 & N3 & Fx3 & Rg3 & Rm3 & Hw3);
    [simpl; lia|apply l2_range|done|]. simpl app in Hq3.
  assert (∀ t x s' T' G', BInv k s' T' G' → T' !! t = Some x → t ≠ im_l3) as Hnw
    by (intros t x s' T' G' HB' Ht ->; by rewrite (b_nowin _ _ _ _ HB') in Ht).
  exists q1, q2, q3, s1, s2, s3, T3, G3. split_and!; try done; try congruence.
  - eapply extends_trans_gen; [|exact X1|]; [eauto|]. eapply extends_trans_gen; [|exact X2|exact X3]. eauto.
  - by do 2 (etrans; [eassumption|]).
  - intros t i Ha.
    assert (aside T1 G1 v t i) as Ha1 by (eapply aside_step; [apply X1|done|done|done]).
    assert (aside T2 G2 v t i) as Ha2 by (eapply aside_step; [apply X2|done|done|done]).
    assert (aside T3 G3 v t i) as Ha3 by (eapply aside_step; [apply X3|done|done|done]).
    split; [done|]. rewrite Hw3, Hw2, Hw1; [done|apply Ha| |apply Ha1| |apply Ha2|].
    + intros [-> ->]. destruct Ha as [_ [Hn|[_ Hn]]]; congruence.
    + intros [-> _]. eapply (aside_not T1 G1); [apply HB1|exact Hq1|exact Ha1|done].
    + intros [-> _]. eapply (aside_not T2 G2); [apply HB2|exact Hq2|exact Ha2|done].
Qed.

(** One page of the identity map. *)
Definition kleaf (a : Z) : Z := Z.lor (Z.lor a (region_perms (a +! VOFFT))) 0x403.

Lemma use_4k_loop_run k hi n m : ∀ lo s T G,
  BInv k s T G → room (frames s) (3 * m + n) → lo + Z.of_nat m = hi → 0 ≤ lo → hi ≤ 2 ^ 26 →
  ∃ s' T' G', use_4k_loop m (Phys im_pt) (lo * 4096) (hi * 4096) s = Done (tt, s') ∧ BInv k s' T' G' ∧
    (∀ v, translate s' im_pt v =
       if decide (lo ≤ vpn v < hi) then Some (kleaf (vpn v * 4096)) else translate s im_pt v) ∧
    (∀ t i, aside T G VOFFT t i → aside T' G' VOFFT t i ∧ word s' t i = word s t i) ∧
    fixed s' = fixed s ∧ regions s' = regions s ∧ G ⊆ G' ∧ room (frames s') n.
Proof.
  induction m as [|m IH]; intros lo s T G HB Hroom Hlo H0 Hhi; cbn [use_4k_loop].
  - rewrite (proj2 (Z.ltb_ge _ _)) by lia. exists s, T, G. split_and!; try done.
    intros v. by rewrite decide_False by lia.
  - rewrite (proj2 (Z.ltb_lt _ _)) by lia. set (v := lo * 4096 +! VOFFT).
    assert (v = VOFFT + lo * 4096) as Ev by (subst v; unfold VOFFT; rewrite wadd_small by lia; lia).
    assert (klow v) as Hkv by (rewrite Ev; unfold klow, VOFFT; lia).
    assert (vpn v = lo) as Evpn by (rewrite vpn_klow, Ev by done; unfold VOFFT; zdiv).
    assert (vaddr_l0 v = vaddr_l0 VOFFT) as El0.
    { pose proof (vpn_indices v) as Ei. rewrite Evpn in Ei. change (vaddr_l0 VOFFT) with 0.
      pose proof (l0_range v). pose proof (l1_range v). pose proof (l2_range v). pose proof (l3_range v). lia. }
    replace (3 * S m + n)%nat with (3 + (3 * m + n))%nat in Hroom by lia.
    destruct (boot_tables_run k s T G v (3 * m + n) HB Hroom) as (q1 & q2 & q3 & s1 & s2 & s3 & T1 & G1
      & E1 & E2 & E3 & HB3 & Hq3 & X & HG1 & Has & Fx & Rg & Rm).
    mrun E1. mrun E2. mrun E3. mrun (pt_set_phys q3 (vaddr_l3 v) (kleaf (lo * 4096)) s3 (l3_range v)).
    set (s4 := set_word q3 (vaddr_l3 v) (kleaf (lo * 4096)) s3).
    pose proof HB3 as [HF3 Hr3 Ho3 Hlow3 Hlive3 Hnw3 Hw3].
    assert (BInv k s4 T1 G1) as HB4.
    { split; try done. eapply trees_agree; [exact HF3|]. intros p r1 path1 j Hp Hl Hj. subst s4.
      rewrite word_set, decide_False; [done|]. intros [-> _]. rewrite Hq3 in Hp. injection Hp as <- <-.
      simpl in Hl. lia. }
    assert (walk s3 im_pt v = Some q3) as Hwk by (by apply (walk_T _ _ _ _ _ HF3 Hr3)).
    assert (lo * 4096 +! 4 *! KB = (lo + 1) * 4096) as ->.
    { change (4 *! KB) with 4096. rewrite wadd_small by lia. lia. }
    destruct (IH (lo + 1) s4 T1 G1 HB4) as (s' & T' & G' & E' & HB' & Ht' & Has' & Fx' & Rg' & HG' & Rm'); try done; try lia.
    exists s', T', G'. split_and!; [done|done| | |rewrite Fx'; exact Fx|rewrite Rg'; exact Rg|by etrans|done].
    + intros v'. rewrite Ht'. destruct (decide (lo + 1 ≤ vpn v' < hi)) as [|Hd];
        [by rewrite decide_True by lia|]. subst s4.
      rewrite (translate_leaf s3 T1 im_pt q3 v) by done.
      rewrite (proj2 (Z.eqb_neq (kleaf (lo * 4096)) 0)) by (by apply lor_ne0).
      destruct (decide (im_pt = im_pt ∧ same_page v' v)) as [[_ Hsp]|Hsp]; rewrite same_page_vpn, Evpn in Hsp.
      * rewrite decide_True by lia. by rewrite Hsp.
      * rewrite decide_False by naive_solver lia. apply (extends_translate_gen s T s3 T1); try done; [apply HB|apply HB|].
        rewrite (walk_T _ _ _ _ _ HF3 Hr3). congruence.
    + intros t i Ha. destruct (Has t i) as [Ha1 Ew]; [unfold aside in *; by rewrite El0|].
      destruct (Has' t i) as [Ha' Ew']; [unfold aside in *; by rewrite <- El0|]. split; [done|].
      rewrite Ew'. subst s4. rewrite word_set, decide_False; [done|]. intros [-> _].
      by eapply (aside_not T1 G1 v); [exact Hr3|exact Hq3|exact Ha1|].
Qed.

(** What [init] starts from: zeroed static tables inside the kernel image,
    whose frames are held, and empty regions. *)
Record Boot (k : Z) s G : Prop := {
  bo_owns : owns (frames s) G;
  bo_low : low (frames s) k;
  bo_static : ∀ t, t ∈ [im_pt; im_l1; im_l2; im_l3] →
    is_Some (G !! t) ∧ align_b k 4096 ≤ t ∧ ∀ i, 0 ≤ i < 512 → word s t i = 0;
  bo_distinct : NoDup [im_pt; im_l1; im_l2; im_l3];
  bo_fixed : BitSet128.new 128 = Done (r_bs (fixed s));
  bo_regions : BitSet128.new 128 = Done (r_bs (regions s));
}.

Lemma boot_BInv k s G : Boot k s G → BInv k s {[im_pt := (im_pt, [])]} G.
Proof.
  intros [Ho Hl Hs Hd _ _]. apply NoDup_cons in Hd as [Hpt _].
  assert (im_pt ∈ [im_pt; im_l1; im_l2; im_l3]) as Hin by left. split; try done.
  - split.
    + intros p r path. rewrite lookup_singleton_Some. intros [_ [= _ <-]]. simpl. lia.
    + intros p r. rewrite lookup_singleton_Some. naive_solver.
    + intros p r path i. rewrite lookup_singleton_Some. intros [<- _] _ Hi Hne.
      destruct (Hs im_pt Hin) as (_ & _ & Hz). by rewrite Hz in Hne.
    + intros q r path i. rewrite lookup_singleton_Some. intros [_ [= _ E]]. by destruct path.
  - by rewrite lookup_singleton_eq.
  - intros t x. rewrite lookup_singleton_Some. intros [<- _]. by destruct (Hs im_pt Hin) as (? & ? & _).
  - rewrite lookup_singleton_ne; [done|]. intros E. apply Hpt. rewrite E. set_solver.
  - apply (Hs im_l3). set_solver.
Qed.

(** Hanging a zeroed static table. *)
Lemma hang_static s T p r path idx q :
  trees s T → T !! p = Some (r, path) → (length path < 3)%nat → 0 ≤ idx < 512 → word s p idx = 0 →
  T !! q = None → frame_ok q → (∀ i, 0 ≤ i < 512 → word s q i = 0) →
  trees (set_word p idx (Z.lor q 3) s) (<[q := (r, path ++ [idx])]> T).
Proof.
  intros HF Hp Hl Hi H0 Hq [_ Hqm] Hz. apply (trees_grow s T _ p); try done.
  - intros t r1 path1 i Ht Hl1 Hi1. by rewrite word_set.
  - intros i Hi1. rewrite word_set, decide_False by naive_solver congruence. by apply Hz.
Qed.

(** The three of them: the tables of the windows below the last entry. *)
Lemma hang_windows k s T G :
  BInv k s T G → NoDup [im_pt; im_l1; im_l2; im_l3] → word s im_pt 511 = 0 →
  (∀ t, t ∈ [im_l1; im_l2; im_l3] →
     T !! t = None ∧ frame_ok t ∧ ∀ i, 0 ≤ i < 512 → word s t i = 0) →
  let s' := set_word im_l2 511 (Z.lor im_l3 3) (set_word im_l1 511 (Z.lor im_l2 3)
              (set_word im_pt 511 (Z.lor im_l1 3) s)) in
  let T' := <[im_l3 := (im_pt, [511; 511; 511])]> (<[im_l2 := (im_pt, [511; 511])]>
              (<[im_l1 := (im_pt, [511])]> T)) in
  forest s' T' ∧ ∀ v, ¬ win_page im_pt v → translate s' im_pt v = translate s im_pt v.
Proof.
  intros HB Hd H0 Hst s' T'. pose proof HB as [HF Hr _ _ _ _ _].
  destruct (Hst im_l1) as (N1 & F1 & Z1); [set_solver|]. destruct (Hst im_l2) as (N2 & F2 & Z2); [set_solver|].
  destruct (Hst im_l3) as (N3 & F3 & Z3); [set_solver|].
  assert (im_pt ≠ im_l1 ∧ im_pt ≠ im_l2 ∧ im_pt ≠ im_l3 ∧ im_l1 ≠ im_l2 ∧ im_l1 ≠ im_l3 ∧ im_l2 ≠ im_l3)
    as (D1 & D2 & D3 & D4 & D5 & D6).
  { repeat (apply NoDup_cons in Hd as [?Hn Hd]). set_solver. }
  pose proof (hang_static s T im_pt im_pt [] 511 im_l1 HF Hr ltac:(simpl; lia) ltac:(lia) H0 N1 F1 Z1) as HF1.
  simpl app in HF1.
  assert (trees (set_word im_l1 511 (Z.lor im_l2 3) (set_word im_pt 511 (Z.lor im_l1 3) s))
    (<[im_l2 := (im_pt, [511] ++ [511])]> (<[im_l1 := (im_pt, [511])]> T))) as HF2.
  { apply hang_static; try done; try lia.
    - apply lookup_insert_eq.
    - simpl. lia.
    - rewrite word_set, decide_False by naive_solver. by apply Z1.
    - by rewrite lookup_insert_ne.
    - intros i Hi. rewrite word_set, decide_False by naive_solver. by apply Z2. }
  simpl app in HF2.
  assert (trees s' T') as HF3.
  { subst s' T'. change ([511; 511; 511]) with ([511; 511] ++ [511]). apply hang_static; try done; try lia.
    - apply lookup_insert_eq.
    - simpl. lia.
    - rewrite !word_set, !decide_False by naive_solver. by apply Z2.
    - by rewrite !lookup_insert_ne.
    - intros i Hi. rewrite !word_set, !decide_False by naive_solver. by apply Z3. }
  split; [split; [done|apply lookup_insert_eq]|]. intros v Hnw.
  assert (T' !! im_pt = Some (im_pt, [])) as Hr' by (subst T'; by rewrite !lookup_insert_ne).
  assert (∀ t, T' !! t = Some (im_pt, vpath v) ↔ T !! t = Some (im_pt, vpath v)) as HTT.
  { intros t. subst T'. rewrite !lookup_insert. repeat case_decide; subst; try done.
    - split; [|by rewrite N3]. intros [= E1 E2 E3]. exfalso. apply Hnw. split; [done|]. unfold vpath. congruence.
    - by rewrite N2.
    - by rewrite N1. }
  assert (walk s' im_pt v = walk s im_pt v) as Ew.
  { apply option_eq. intros t. by rewrite (walk_T _ _ _ _ _ HF Hr), (walk_T _ _ _ _ _ HF3 Hr'), HTT. }
  unfold translate. rewrite Ew. destruct (walk s im_pt v) as [t|] eqn:E; [|done].
  apply (walk_T _ _ _ _ _ HF Hr) in E. cbn [mbind option_bind].
  replace (word s' t (vaddr_l3 v)) with (word s t (vaddr_l3 v)); [done|].
  subst s'. rewrite !word_set, !decide_False; [done|intros [-> _]..];
    first [congruence|by rewrite Hr in E].
Qed.

(** ** The whole of [init] *)
Lemma bits_empty bs : BitSet128.new 128 = Done bs →
  BitSet128.wf bs ∧ BitSet128.len bs = 128 ∧ ∀ i, 0 ≤ i < 128 → BitSet128.mem bs i = false.
Proof.
  intros E. destruct (BitSet128.new_wf 128) as (bs' & E' & Hwf & Hl & Hm); [lia|].
  rewrite E in E'. by injection E' as <-.
Qed.

Lemma boot_unmapped k s G v : Boot k s G → translate s im_pt v = None.
Proof.
  intros HB. unfold translate, walk, child.
  destruct (bo_static _ _ _ HB im_pt) as (_ & _ & Hz); [set_solver|].
  by rewrite (Hz (vaddr_l0 v) (l0_range v)).
Qed.

Lemma init_regions_run s k_end :
  init_regions k_end s = Done (tt, mkVSt (mem s) (frames s) (mkRegion 0xfffffffffff00000 (r_bs (fixed s)))
    (mkRegion (align_f k_end (4 * KB) +! VOFFT) (r_bs (regions s))) (tlb s)).
Proof. done. Qed.

(** The end state of [init], given the forest and the allocator. *)
Lemma init_end s T G k_end hi :
  forest s T → T !! im_pt = Some (im_pt, []) → owns (frames s) G →
  (∀ t x, T !! t = Some x → is_Some (G !! t)) →
  BitSet128.new 128 = Done (r_bs (fixed s)) → BitSet128.new 128 = Done (r_bs (regions s)) →
  align_f k_end 4096 = hi * 4096 → 0 ≤ hi ≤ 2 ^ 20 →
  (∀ v, ¬ win_page im_pt v → hi ≤ vpn v → translate s im_pt v = None) →
  ∃ s', init_regions k_end s = Done (tt, s') ∧ KInv s' T ∅ G ∧ mem s' = mem s ∧ frames s' = frames s ∧ tlb s' = tlb s ∧
    ∀ i, 0 ≤ i < 128 → kbit s' i = false.
Proof.
  intros HF Hr Ho Hlive Ef Er Eal Hhi Hun. eexists. split; [apply init_regions_run|].
  change (4 * KB) with 4096. rewrite Eal. rewrite wadd_small by (unfold VOFFT; lia).
  destruct (bits_empty _ Ef) as (Wf & Lf & Mf). destruct (bits_empty _ Er) as (Wr & Lr & Mr).
  assert (∀ i, 0 ≤ i < 128 → klow (hi * 4096 + VOFFT + i * 4096)) as Hkl by (unfold klow, VOFFT; lia).
  set (s' := mkVSt _ _ _ _ _).
  assert (Wins s' ∅) as HW.
  { split; [done|exact Wf|exact Lf| |by intros i e []%lookup_empty_Some].
    intros i Hi. simpl. rewrite Mf by done. symmetry. apply bool_decide_eq_false_2. by intros [? []%lookup_empty_Some]. }
  split_and!; [|done|done|done|exact Mr].
  split; [|done|simpl; unfold VOFFT; lia|simpl; unfold VOFFT; lia|simpl; unfold VOFFT; zdiv|exact Wr|exact Lr|].
  - split; [exact HW|by eapply forest_agree|exact Ho|exact Hlive].
  - intros i Hi _. subst s'. unfold kpage. simpl.
    match goal with |- translate ?s2 _ _ = _ => change (translate s2 im_pt) with (translate s im_pt) end.
    apply Hun; [by apply klow_not_win, Hkl|]. rewrite vpn_klow by (by apply Hkl). unfold VOFFT. zdiv.
Qed.

Lemma init_run s G (k_begin k_end : Z) (n : nat) :
  0x40000000 ≤ k_begin ≤ k_end → k_end ≤ 0x80000000 →
  let lo := k_begin / 4096 in
  let hi := align_f k_end 4096 / 4096 in
  Boot k_begin s G → room (frames s) (3 * Z.to_nat (hi - lo) + n) →
  ∃ s' T G', init k_begin k_end s = Done (tt, s') ∧ room (frames s') n ∧
    KInv s' T ∅ (filter (λ pn, align_b k_begin 4096 ≤ pn.1) G') ∧ G ⊆ G' ∧
    (∀ i, 0 ≤ i < 128 → kbit s' i = false) ∧ tlb s' = [] ∧
    ∀ v, ¬ win_page im_pt v →
      translate s' im_pt v = if decide (lo ≤ vpn v < hi) then Some (kleaf (vpn v * 4096)) else None.
Proof.
  intros Hk He lo hi HB Hroom. pose proof (boot_BInv _ _ _ HB) as HB0.
  destruct (align_f_bounds k_end 12) as [Hal [z Hz]]; [lia..|]. change (2 ^ 12) with 4096 in Hal, Hz.
  assert (hi = z) as Ehi by (subst hi; rewrite Hz; by apply Z.div_mul). rewrite <- Ehi in Hz.
  assert (align_b k_begin 4096 = lo * 4096) as Elo
    by (change 4096 with (2 ^ 12) at 1; rewrite align_b_pow2 by lia; change (2 ^ 12) with 4096; subst lo; lia).
  assert (0 ≤ lo ≤ hi ∧ hi ≤ 2 ^ 20) as (Hlo & Hhi) by (clearbody hi; subst lo; zdiv).
  destruct (use_4k_loop_run k_begin hi n (Z.to_nat (hi - lo)) lo s _ G HB0 Hroom)
    as (s1 & T1 & G1 & E1 & HB1 & Ht1 & Has1 & Fx1 & Rg1 & HG1 & Rm1); [lia..|].
  pose proof (bo_distinct _ _ _ HB) as Hd. pose proof HB1 as [HF1 Hr1 Ho1 Hlow1 Hlive1 Hnw1 Hw1].
  assert (∀ t, t ∈ [im_l1; im_l2; im_l3] → T1 !! t = None ∧ frame_ok t ∧
    (∀ i, 0 ≤ i < 512 → word s1 t i = 0) ∧ is_Some (G1 !! t) ∧ align_b k_begin 4096 ≤ t) as Hst.
  { intros t Ht. destruct (bo_static _ _ _ HB t) as ([m Hm] & Hge & Hz0); [set_solver|].
    assert (t ≠ im_pt) as Hne by (apply NoDup_cons in Hd as [Hn _]; set_solver).
    assert (∀ i, aside T1 G1 VOFFT t i ∧ word s1 t i = word s t i) as Ha.
    { intros i. apply Has1. split; [eauto|]. left. by rewrite lookup_singleton_ne. }
    destruct (Ha 0) as [[Hg [Hn|[? _]]] _]; [|done]. split_and!; [done| | |done|done].
    - eapply owns_frame; [exact (bo_owns _ _ _ HB)|exact Hm].
    - intros i Hi. destruct (Ha i) as [_ ->]. by apply Hz0. }
  assert (word s1 im_pt 511 = 0) as H0.
  { destruct (bo_static _ _ _ HB im_pt) as (Hg & _ & Hz0); [set_solver|].
    destruct (Has1 im_pt 511) as [_ ->]; [|by apply Hz0]. split; [done|]. by right. }
  destruct (hang_windows k_begin s1 T1 G1 HB1 Hd H0) as [HF4 Ht4].
  { intros t Ht. destruct (Hst t Ht) as (? & ? & ? & _). done. }
  set (s4 := set_word im_l2 _ _ _) in HF4, Ht4. set (T4 := <[im_l3 := _]> _) in HF4.
  destruct (fr_free_low_law (frames s4) G1 k_begin Ho1 Hlow1) as (f5 & E5 & Ho5 & Rm5).
  set (s5 := mkVSt (mem s4) f5 (fixed s4) (regions s4) []).
  assert (∀ v, ¬ win_page im_pt v → translate s5 im_pt v =
    if decide (lo ≤ vpn v < hi) then Some (kleaf (vpn v * 4096)) else None) as Ht5.
  { intros v Hnw. change (translate s5 im_pt v) with (translate s4 im_pt v).
    rewrite Ht4, Ht1, (boot_unmapped k_begin s G v HB) by done. done. }
  destruct (init_end s5 T4 (filter (λ pn, align_b k_begin 4096 ≤ pn.1) G1) k_end hi)
    as (s6 & E6 & HK & Em & Efr & El & Hbits); [by eapply forest_agree| |done| | | |done|lia| |].
  { subst T4. apply NoDup_cons in Hd as [Hn _]. rewrite !lookup_insert_ne by set_solver. done. }
  { intros t x Ht. assert (is_Some (G1 !! t) ∧ align_b k_begin 4096 ≤ t) as [[m Hm] Hge].
    { subst T4. rewrite !lookup_insert in Ht. repeat case_decide; subst;
        [apply (Hst im_l3); set_solver|apply (Hst im_l2); set_solver|apply (Hst im_l1); set_solver|by eapply Hlive1]. }
    exists m. by apply map_lookup_filter_Some. }
  { change (fixed s5) with (fixed s1). rewrite Fx1. apply HB. }
  { change (regions s5) with (regions s1). rewrite Rg1. apply HB. }
  { intros v Hnw Hv. rewrite Ht5 by done. by rewrite decide_False by lia. }
  exists s6, T4, G1. split_and!; [|rewrite Efr; by apply Rm5|done|done|done|done|].
  - unfold init, use_4k_blocks. change (4 * KB) with 4096. rewrite Elo, Hz.
    replace ((hi * 4096 - lo * 4096) / 4096) with (hi - lo) by (clearbody hi lo; zdiv).
    mrun E1. mrun (pt_set_phys im_pt 511 (Z.lor im_l1 3) s1 ltac:(lia)).
    mrun (pt_set_phys im_l1 511 (Z.lor im_l2 3) _ ltac:(lia)).
    mrun (pt_set_phys im_l2 511 (Z.lor im_l3 3) _ ltac:(lia)). fold s4.
    mrun tlbi_all_run. mrun (on_frames_run (set_tlb [] s4) (fr_free_low k_begin) tt f5 E5). exact E6.
  - intros v Hnw. rewrite <- Ht5 by done. unfold translate, walk, child, word. by rewrite Em.
Qed.

(** C7: [vm::init]: from the boot state and with three frames per page of the
    kernel, it returns in the state every other theorem starts from: the kernel's
    tree maps exactly the pages of the image, each to itself with the
    permissions of its section, the windows, the region above the image and the
    TLB are empty, and the frames below the image are given back. *)
Theorem vm_init_spec s G (k_begin k_end : Z) (n : nat) :
  0x40000000 ≤ k_begin ≤ k_end → k_end ≤ 0x80000000 →
  let lo := k_begin / 4096 in
  let hi := align_f k_end 4096 / 4096 in
  Boot k_begin s G → room (frames s) (3 * Z.to_nat (hi - lo) + n) →
  ∃ s' T G', init k_begin k_end s = Done (tt, s') ∧ room (frames s') n ∧
    KInv s' T ∅ (filter (λ pn, align_b k_begin 4096 ≤ pn.1) G') ∧ G ⊆ G' ∧
    (∀ i, 0 ≤ i < 128 → kbit s' i = false) ∧ tlb s' = [] ∧
    ∀ v, ¬ win_page im_pt v →
      translate s' im_pt v = if decide (lo ≤ vpn v < hi) then Some (kleaf (vpn v * 4096)) else None.
Proof. apply init_run. Qed.
End boot.
