(* ===== verification/VmWit.v ===== *)
(** * The page-table theorems at work on the state [init] leaves *)
From S2P Require Import Prelude Stuff Pm PmInv PmRun PmSpec Vm VmInv VmTree VmRun VmFree VmPm VmSpec VmKern VmBoot.

Local Open Scope Z_scope.

(** A kernel image of four frames, holding the four static tables. *)
#[local] Instance tiny_image : Image := {|
  im_pt := 0x40000000;
  im_l1 := 0x40001000;
  im_l2 := 0x40002000;
  im_l3 := 0x40003000;
  text_end := VOFFT + 0x40001000;
  data_end := VOFFT + 0x40002000;
  rodata_end := VOFFT + 0x40003000;
  bss_end := VOFFT + 0x40004000;
  user_end := VOFFT + 0x40004000;
  junk := λ _ _, 0;
|}.

Definition tiny_boot (a : Allocator) : VSt Allocator :=
  mkVSt ∅ a (mkRegion 0 (BitSet128.mk 0 128)) (mkRegion 0 (BitSet128.mk 0 128)) [].

Definition tiny_G : gmap Z Z :=
  <[0x40000000 := 1]> (<[0x40001000 := 1]> (<[0x40002000 := 1]> (<[0x40003000 := 1]> ∅))).

Section tiny.
Lemma tiny_owns :
  ∃ a, pm_owns a tiny_G ∧ pm_low a 0x40000000 ∧ ∀ n, Z.of_nat n ≤ 262140 → pm_room a n.
Proof.
  destruct (init_abs 0x40000000 0x40004000 allocator_new) as (a & U & _ & Eo & Es & _ & HA & HU); [lia|].
  change ((align_f 0x40004000 4096 - 0x40000000) / 4096) with 4 in HU.
  exists a. split_and!.
  - split; [done|]. exists U. split; [done|]. intros p n. unfold addr_of. rewrite Eo. unfold tiny_G.
    rewrite !lookup_insert_Some, lookup_empty. setoid_rewrite HU. split.
    + intros Hp. exists ((p - 0x40000000) / 4096), FNone.
      assert ((p = 0x40000000 ∨ p = 0x40001000 ∨ p = 0x40002000 ∨ p = 0x40003000) ∧ n = 1) as [Hp' ->]
        by naive_solver.
      destruct Hp' as [->|[->|[->| ->]]]; done.
    + intros (h & fg & -> & Hh). case_decide as Hd; [|done]. injection Hh as <- <-.
      assert (h = 0 ∨ h = 1 ∨ h = 2 ∨ h = 3) as [->|[->|[->| ->]]] by lia; simpl; naive_solver lia.
  - split; [lia|]. intros h Hh. change ((0x40000000 - 0x40000000) / 4096) with 0 in Hh. lia.
  - intros n Hn. exists (list_to_set (seqZ 4 (Z.of_nat n))). split.
    + rewrite size_list_to_set by apply NoDup_seqZ. rewrite length_seqZ. lia.
    + intros p Hp. apply elem_of_list_to_set, elem_of_seqZ in Hp.
      assert (npg a = 262144) as En by (unfold npg; by rewrite Es).
      apply (idle_iff a U p HA); [lia|]. intros (h & b & Hb & Hhp). rewrite HU in Hb. case_decide; [|done].
      injection Hb as <-. change (bsz _) with 1 in Hhp. lia.
Qed.

Lemma tiny_Boot : ∃ a, Boot 0x40000000 (tiny_boot a) tiny_G ∧ ∀ n, Z.of_nat n ≤ 262140 → pm_room a n.
Proof.
  destruct tiny_owns as (a & Ho & Hl & Hr). exists a. split; [|done]. split; [exact Ho|exact Hl| | |done|done].
  - intros t Ht. change (t ∈ [0x40000000; 0x40001000; 0x40002000; 0x40003000]) in Ht.
    change (align_b 0x40000000 4096) with 0x40000000. split_and!; [| |done].
    + unfold tiny_G. rewrite !elem_of_cons in Ht. destruct Ht as [->|[->|[->|[->|Ht]]]]; [by eexists..|].
      by apply elem_of_nil in Ht.
    + rewrite !elem_of_cons, elem_of_nil in Ht. lia.
  - change (NoDup [0x40000000; 0x40001000; 0x40002000; 0x40003000]).
    repeat (apply NoDup_cons; split; [rewrite ?elem_of_cons, ?elem_of_nil; lia|]). apply NoDup_nil_2.
Qed.

Lemma tiny_kernel_room n : Z.of_nat n ≤ 262000 →
  ∃ (s : VSt Allocator) T G, KInv s T ∅ G ∧ room (frames s) n ∧ ∀ i, 0 ≤ i < 128 → kbit s i = false.
Proof.
  intros Hn. destruct tiny_Boot as (a & HB & Hr).
  destruct (init_run (tiny_boot a) tiny_G 0x40000000 0x40004000 n) as (s & T & G & _ & Rm & HK & _ & Hb & _);
    [lia|lia|exact HB|apply Hr; change (Z.to_nat _) with 4%nat; lia|].
  eexists s, T, _. split; [exact HK|]. split; [exact Rm|exact Hb].
Qed.

Lemma tiny_kernel :
  ∃ (s : VSt Allocator) T G, KInv s T ∅ G ∧ room (frames s) 88 ∧ ∀ i, 0 ≤ i < 128 → kbit s i = false.
Proof. by apply tiny_kernel_room. Qed.
End tiny.

Lemma vm_init_spec_witness :
  ∃ a s' T G, init 0x40000000 0x40004000 (tiny_boot a) = Done (tt, s') ∧ KInv s' T ∅ G ∧
    translate s' im_pt (VOFFT + 0x40001000) = Some (kleaf 0x40001000).
Proof.
  destruct tiny_Boot as (a & HB & Hr).
  destruct (vm_init_spec (tiny_boot a) tiny_G 0x40000000 0x40004000 88) as (s & T & G & E & _ & HK & _ & _ & _ & Ht);
    [lia|lia|exact HB|by apply Hr|].
  eexists a, s, T, _. split; [exact E|]. split; [exact HK|]. rewrite Ht; [done|].
  intros [_ Hp]. vm_compute in Hp. discriminate Hp.
Defined.

Lemma room_drop {F} `{FrameLaws F} (f : F) m n : room f (m + n) → room f n.
Proof. induction m as [|m IH]; [done|]. intros Hn. apply IH. by apply room_less. Qed.

Lemma tiny_room (s : VSt Allocator) : room (frames s) 88 → room (frames s) 3 ∧ room (frames s) 6.
Proof. intros Hr. split; [by apply (room_drop _ 85 3)|by apply (room_drop _ 82 6)]. Qed.

Lemma kmap_spec_witness :
  ∃ (s s' : VSt Allocator) T' G', map 0x9000000 2 PR_PW s = Done (inr (kpage s 0), s') ∧ KInv s' T' ∅ G' ∧
    translate s' im_pt (kpage s 1) = Some (Z.lor (Z.lor 0x9001000 PR_PW) 0x403).
Proof.
  destruct tiny_kernel as (s & T & G & HK & Hr & Hb).
  destruct (kmap_spec s T ∅ G 0x9000000 2 PR_PW HK) as [_ Hmap]; [lia|].
  destruct Hmap as [[_ Hno]|(j & s' & T' & G' & E & Hj & Hjn & _ & Hmin & HK' & _ & _ & _ & Ht & _)];
    [lia|rewrite map_size_empty; lia| |lia|lia| |].
  - by apply tiny_room.
  - exfalso. apply (Hno 0); [lia|lia|]. intros i Hi. apply Hb. lia.
  - assert (j = 0) as ->.
    { destruct (Z.le_gt_cases j 0) as [|Hgt]; [lia|]. exfalso. apply (Hmin 0); [lia|]. intros i Hi. apply Hb. lia. }
    exists s, s', T', G'. split; [exact E|]. split; [exact HK'|]. exact (Ht 1 ltac:(lia)).
Defined.

Lemma kmap_free_roundtrip_witness :
  ∃ (s s1 s2 : VSt Allocator) v T G, map 0x9000000 2 PR_PW s = Done (inr v, s1) ∧
    free v 2 s1 = Done (tt, s2) ∧ KInv s2 T ∅ G.
Proof.
  destruct tiny_kernel as (s & T & G & HK & Hr & Hb).
  destruct (map_run s T ∅ G 0x9000000 2 PR_PW 0 HK) as [[_ Hno]|(j & s1 & T' & G' & E & _)];
    [lia|rewrite map_size_empty; lia|by apply tiny_room|lia|lia| |].
  - exfalso. apply (Hno 0); [lia|lia|]. intros i Hi. apply Hb. lia.
  - destruct (kmap_free_roundtrip s T ∅ G 0x9000000 2 PR_PW (kpage s j) s1 HK) as (s2 & T2 & G2 & E2 & HK2 & _);
      [lia|rewrite map_size_empty; lia|by apply tiny_room|lia|lia|exact E|].
    exists s, s1, s2, (kpage s j), T2, G2. split; [exact E|]. split; [exact E2|exact HK2].
Defined.

(** A fresh user tree, as a task gets one: a frame, cleared through a window. *)
Section user.
Context {im : Image} {F : Type} {fo : FrameOps F} {fl : FrameLaws F}.
Implicit Types (s : VSt F) (W G : gmap Z Z) (T : gmap Z (Z * list Z)).

Definition new_root : VM F Z :=
  let! o := on_frames fr_alloc in
  match o with
  | Some p =>
      let! r := pm_wrap_new p PR_PW true in
      match r with inr w => pm_wrap_drop w ;;; ret p | inl _ => panic end
  | None => panic
  end.

Lemma new_root_run s T W G n :
  Inv s T W G → (base.size W < 128)%nat → room (frames s) (S n) →
  ∃ r s', new_root s = Done (r, s') ∧ T !! r = None ∧ Inv s' (<[r := (r, [])]> T) W (<[r := 1]> G) ∧
    room (frames s') n ∧ regions s' = regions s ∧
    (∀ t j, t ≠ r → ¬ win_entry t j → word s' t j = word s t j) ∧ ∀ i, 0 ≤ i < 512 → word s' r i = 0.
Proof.
  intros [I1 I2 I3 I4] Hsz Hroom.
  destruct (fr_alloc_law _ _ n I3 Hroom) as (q & f & Ea & HGq & Hown & Hroom' & _).
  assert (frame_ok q) as [Hq1 Hq2] by (eapply owns_frame; [exact Hown|apply lookup_insert_eq]).
  assert (T !! q = None) as HTq.
  { destruct (T !! q) eqn:E; [|done]. destruct (I4 _ _ E). congruence. }
  assert (q ≠ im_l3) as Hqi by (intros ->; by rewrite (fo_win _ _ I2) in HTq).
  set (s1 := mkVSt (mem s) f (fixed s) (regions s) (tlb s)).
  assert (Wins s1 W) as W1 by (by apply Wins_mem).
  destruct (wrap_new_run _ W q PR_PW W1 Hsz) as (i & s3 & Hi3 & HWi & Enew & W3 & Q3);
    [by rewrite Hq2|apply PR_PW_ok|]. rewrite Hq2 in W3.
  destruct (zero_pt_run s3 _ (Win (waddr i)) q W3) as (s4 & Ez & W4 & Ef4 & Er4 & Hw4); [apply shows_insert|done|].
  destruct (wrap_drop_run s4 _ i q W4) as (s5 & E5 & W5 & Q5 & Em5); [apply lookup_insert_eq|].
  rewrite delete_insert_id in W5 by done.
  assert (∀ t j, ¬ win_entry t j → word s5 t j = if decide (t = q ∧ 0 ≤ j < 512) then 0 else word s t j) as Hw5.
  { intros t j Hn. destruct Q5 as [-> _]; [|done]. rewrite Hw4. case_decide; [done|]. by destruct Q3 as [-> _]. }
  exists q, s5. split_and!; [| done| | | | |].
  - unfold new_root. mrun (on_frames_run _ _ _ _ Ea). fold s1. cbv iota beta.
    unfold bind at 1. rewrite (Enew true). unfold bind at 1. rewrite Ez. unfold ret. cbv iota beta. by mrun E5.
  - assert (frames s5 = f) as Ef by (destruct Q5 as (_ & -> & _); rewrite Ef4; by destruct Q3 as (_ & -> & _)).
    split; [done| |by rewrite Ef|].
    + split; [|rewrite lookup_insert_ne by done; apply I2]. split.
      * intros p r path. rewrite lookup_insert. case_decide; [intros [= <- <-]; simpl; lia|apply (fo_len _ _ I2)].
      * intros p r. rewrite lookup_insert. case_decide; [by intros [= <-]|apply (fo_root _ _ I2)].
      * intros p r path j. rewrite lookup_insert. case_decide as Hd; intros Hp Hl Hj Hne.
        { subst p. rewrite Hw5, decide_True in Hne by (done || by intros [? _]). done. }
        rewrite Hw5, decide_False in * by (by eapply inner_not_win || naive_solver).
        pose proof (fo_child _ _ I2 _ _ _ _ Hp Hl Hj Hne). rewrite lookup_insert_ne by congruence. done.
      * intros p r path j. rewrite lookup_insert. case_decide as Hd; intros Hp.
        { injection Hp as _ E. by destruct path. }
        destruct (fo_parent _ _ I2 _ _ _ _ Hp) as (p1 & Hp1 & Hj & Hne & E1). exists p1.
        pose proof (fo_len _ _ I2 _ _ _ Hp) as Hlen. rewrite length_app in Hlen. simpl in Hlen.
        rewrite lookup_insert_ne by congruence.
        rewrite Hw5, decide_False by (first [eapply inner_not_win; [exact I2|exact Hp1|lia] | naive_solver]). done.
    + intros t x. rewrite !lookup_insert. case_decide; [done|]. apply I4.
  - destruct Q5 as (_ & -> & _). rewrite Ef4. by destruct Q3 as (_ & -> & _).
  - destruct Q5 as (_ & _ & ->). rewrite Er4. by destruct Q3 as (_ & _ & ->).
  - intros t j Hne Hn. rewrite Hw5 by done. by rewrite decide_False by naive_solver.
  - intros j Hj. rewrite Hw5, decide_True; [done..|]. by intros [? _].
Qed.

Lemma empty_tree s d p : (∀ i, 0 ≤ i < 512 → word s p i = 0) → tree_frames (S d) s p = [].
Proof.
  intros Hz. cbn [tree_frames].
  assert (∀ l, (∀ i, i ∈ l → 0 ≤ i < 512) → flat_map (λ i, let q := Z.land (word s p i) PHY_MASK in
    if 0x40000000 <=? q then tree_frames d s q ++ [q] else []) l = []) as L.
  { induction l as [|i l IH]; intros Hl; [done|]. cbn [flat_map]. rewrite Hz by (apply Hl; left).
    rewrite Z.land_0_l. cbv zeta. change (0x40000000 <=? 0) with false. cbn [app]. apply IH. intros j Hj. apply Hl. by right. }
  apply L. intros i Hi. by apply elem_of_range in Hi.
Qed.
End user.

Lemma tiny_user :
  ∃ (s : VSt Allocator) T G r, Inv s T ∅ G ∧ T !! r = Some (r, []) ∧ r ≠ im_pt ∧ G !! r = Some 1 ∧
    room (frames s) 3 ∧ ∀ i, 0 ≤ i < 512 → word s r i = 0.
Proof.
  destruct tiny_kernel as (s & T & G & HK & Hr & _). apply tiny_room in Hr as [_ Hr].
  destruct (new_root_run s T ∅ G 5 (k_inv _ _ _ _ HK)) as (r & s' & _ & Hn & HI & Rm & _ & _ & Hz);
    [rewrite map_size_empty; lia|done|].
  exists s', (<[r := (r, [])]> T), (<[r := 1]> G), r. split_and!; [done| | | | |done].
  - by rewrite lookup_insert_eq.
  - intros ->. by rewrite (k_root _ _ _ _ HK) in Hn.
  - by rewrite lookup_insert_eq.
  - by do 2 apply room_less.
Qed.

Lemma user_not_win r v : r ≠ im_pt → ¬ win_page r v.
Proof. by intros Hr [? _]. Qed.

Lemma map_page_spec_witness :
  ∃ (s s' : VSt Allocator) r, map_v2p_4k_inner (Phys r) 0x1000 0x40100000 PR_PW_UR_UW1 false (λ _, ret tt) s =
      Done (inr 0x1000, s') ∧
    translate s' r 0x1000 = Some (Z.lor (Z.lor 0x40100000 PR_PW_UR_UW1) 0x403).
Proof.
  destruct tiny_user as (s & T & G & r & HI & Hr & Hne & _ & Rm & Hz).
  destruct (map_page_spec s T ∅ G (Phys r) r 0x1000 0x40100000 PR_PW_UR_UW1 false HI) as (s' & T' & G' & _ & _ & _ & H);
    [by left|done|by apply user_not_win|rewrite map_size_empty; lia|done|].
  assert (translate s r 0x1000 = None) as E
    by (unfold translate, walk, child; rewrite (Hz (vaddr_l0 0x1000)); [done|apply l0_range]).
  rewrite E in H. exists s, s', r. exact H.
Defined.

Lemma unmap_page_spec_witness :
  ∃ (s s' : VSt Allocator) r, unmap_4k_inner (Phys r) 0x1000 s = Done (inl EInval, s') ∧ translate s' r 0x1000 = None.
Proof.
  destruct tiny_user as (s & T & G & r & HI & Hr & Hne & _ & Rm & Hz).
  destruct (unmap_page_spec s T ∅ G (Phys r) r 0x1000 HI) as (s' & _ & _ & Ht & E);
    [by left|done|by apply user_not_win|rewrite map_size_empty; lia|].
  assert (walk s r 0x1000 = None) as Ew
    by (unfold walk, child; rewrite (Hz (vaddr_l0 0x1000)); [done|apply l0_range]).
  rewrite Ew in E. exists s, s', r. split; [exact E|exact Ht].
Defined.

Lemma v2p_pt_spec_witness :
  ∃ (s s' : VSt Allocator) r, v2p_pt (Phys r) 0x1234 None s = Done (inl EInval, s') ∧ quiet s s'.
Proof.
  destruct tiny_user as (s & T & G & r & HI & Hr & Hne & _ & Rm & Hz).
  destruct (v2p_pt_spec s T ∅ G (Phys r) r 0x1234 HI) as (s' & _ & Q & E);
    [by left|done|by apply user_not_win|rewrite map_size_empty; lia|].
  assert (walk s r 0x1234 = None) as Ew
    by (unfold walk, child; rewrite (Hz (vaddr_l0 0x1234)); [done|apply l0_range]).
  unfold translate in E. rewrite Ew in E. exists s, s', r. split; [exact E|exact Q].
Defined.

Lemma free_pt_spec_witness :
  ∃ (s s' : VSt Allocator) G r, G !! r = Some 1 ∧ free_pt r s = Done (tt, s') ∧ owns (frames s') (release [r] G).
Proof.
  destruct tiny_user as (s & T & G & r & HI & Hr & Hne & HG & Rm & Hz).
  pose proof (empty_tree s 2 r Hz) as Et.
  destruct (free_pt_spec s T ∅ G r HI Hr Hne) as (s' & E & _ & Ho & _).
  - rewrite map_size_empty. lia.
  - rewrite Et. cbn [app]. intros p Hp. apply list_elem_of_singleton in Hp as ->. exists 1. split; [exact HG|].
    rewrite occ_cons, decide_True by done. done.
  - rewrite Et in Ho. cbn [app] in Ho. exists s, s', G, r. split; [exact HG|]. split; [exact E|exact Ho].
Defined.
