(* ===== verification/RegionList.v ===== *)
(** * [vm.rs]: regions as a linked list

    A region points to the next one; [append] walks to the last and points it
    at the other list.  The regions are the nodes of a store, so that a region
    that is reached by two lists is one node.  Nothing of the kernel calls
    [append] yet: [Region::alloc] looks at its own bit set only. *)
From S2P Require Import Prelude Stuff Vm.

Local Open Scope Z_scope.

(** A region with its pointer [nxt]. *)
Record Node := mkNode { nd_region : Region; nd_nxt : option Z }.

Notation Store := (gmap Z Node).
Definition LM := M Store.

Definition deref (p : Z) : LM Node := λ st,
  match st !! p with Some x => Done (x, st) | None => Fault FUB end.

Definition region_nxt (p : Z) : LM (option Z) :=
  let! x := deref p in
  ret (nd_nxt x).

(** The loop of [append]; [fuel] bounds the nodes it passes. *)
Fixpoint last_region (fuel : nat) (last : Z) : LM Z :=
  match fuel with
  | O => fail FFuel
  | S f =>
      let! o := region_nxt last in
      match o with
      | Some nxt => last_region f nxt
      | None => ret last
      end
  end.

(** [NonNull::new] of a reference is never [None]. *)
Definition append (fuel : nat) (self other : Z) : LM unit :=
  let! last := last_region fuel self in
  let! x := deref last in
  modify <[last := mkNode (nd_region x) (Some other)]>.

(** The nodes from [p] to [q] along [nxt]. *)
Fixpoint segment (st : Store) (o : option Z) (l : list Z) (q : option Z) : Prop :=
  match l with
  | [] => o = q
  | p :: l' => o = Some p ∧ ∃ x, st !! p = Some x ∧ segment st (nd_nxt x) l' q
  end.
Definition chain (st : Store) (p : Z) (l : list Z) : Prop := segment st (Some p) l None.

Lemma segment_app st o l l' q :
  segment st o (l ++ l') q ↔ ∃ r, segment st o l r ∧ segment st r l' q.
Proof.
  revert o; induction l as [|p l IH]; intros o; simpl; [naive_solver|].
  split.
  - intros (-> & x & Hx & (r & ? & ?)%IH); naive_solver.
  - intros (r & (-> & x & Hx & ?) & ?). split; [done|]. exists x. split; [done|]. apply IH. eauto.
Qed.

Lemma segment_frame st o l q k x : k ∉ l → segment st o l q → segment (<[k := x]> st) o l q.
Proof.
  revert o; induction l as [|p l IH]; intros o; simpl; [done|].
  intros [? ?]%not_elem_of_cons (-> & y & Hy & Hl). split; [done|]. exists y.
  rewrite lookup_insert_ne by congruence. auto.
Qed.

Lemma last_region_run st o l q x fuel :
  segment st o l (Some q) → st !! q = Some x → nd_nxt x = None → (length l < fuel)%nat →
  ∀ p, o = Some p → last_region fuel p st = Done (q, st).
Proof.
  intros Hl Hq Hn. revert o fuel Hl.
  induction l as [|a l IH]; intros o fuel Hl Hf p ->; destruct fuel as [|f]; simpl in *; try lia.
  - injection Hl as ->. unfold region_nxt, bind, deref. rewrite Hq. simpl. by rewrite Hn.
  - destruct Hl as ([= <-] & y & Hy & Hl). unfold region_nxt, bind, deref. rewrite Hy. simpl.
    destruct (nd_nxt y) as [b|] eqn:Eb.
    + eapply IH; eauto; lia.
    + destruct l; simpl in Hl; naive_solver.
Qed.

Lemma chain_split st p l : chain st p l → ∃ l0 q x, l = l0 ++ [q] ∧ segment st (Some p) l0 (Some q) ∧
  st !! q = Some x ∧ nd_nxt x = None.
Proof.
  unfold chain. destruct l as [|a l] using rev_ind; [done|]. clear IHl.
  rewrite segment_app. intros (r & ? & ?). simpl in *. naive_solver.
Qed.

(** [append] of a list to a list it shares no node with returns after as many
    turns as the first has nodes; the first list is then the two one after the
    other, the second is as it was, every other list that did not end with the
    first is too, and no bit set has changed. *)
Theorem append_spec st p l q l' fuel :
  chain st p l → NoDup l → chain st q l' → l ## l' → (length l ≤ fuel)%nat →
  ∃ st', append fuel p q st = Done (tt, st') ∧
    chain st' p (l ++ l') ∧ chain st' q l' ∧
    (∀ r m, chain st r m → m ## l → chain st' r m) ∧
    nd_region <$> st' = nd_region <$> st.
Proof.
  intros (l0 & z & x & -> & Hl0 & Hz & Hx)%chain_split Hnd Hq Hd Hf.
  assert (z ∉ l0) as Hzl by (apply NoDup_app in Hnd as (_ & H & _); intros Hin; apply (H z Hin); set_solver).
  assert (z ∉ l') as Hzl' by (intros Hin; apply (Hd z); set_solver).
  rewrite length_app in Hf. simpl in Hf.
  eexists. split; [|split; [|split; [|split]]].
  - unfold append, bind at 1. erewrite last_region_run by (eauto; lia).
    unfold bind, deref. rewrite Hz. reflexivity.
  - unfold chain. rewrite <- app_assoc, segment_app. exists (Some z). split; [by apply segment_frame|].
    simpl. split; [done|]. eexists. rewrite lookup_insert_eq. split; [done|]. by apply segment_frame.
  - by apply segment_frame.
  - intros r m Hm Hdm. apply segment_frame; [|done]. intros Hin. apply (Hdm z); set_solver.
  - rewrite fmap_insert. simpl. apply insert_id. by rewrite lookup_fmap, Hz.
Qed.

Lemma last_region_cycle st o l fuel :
  ∀ p, segment st (Some p) l o → o = Some p → l ≠ [] →
  ∀ a m m', m ++ a :: m' = l → last_region fuel a st = Fault FFuel.
Proof.
  intros p Hl -> Hne. induction fuel as [|f IH]; intros a m m' E; [done|].
  subst l. simpl. unfold region_nxt, bind, deref.
  pose proof Hl as H. apply segment_app in H as (r & H1 & H2). simpl in H2.
  destruct H2 as (-> & x & Hx & H2). rewrite Hx. simpl.
  destruct m' as [|b m']; simpl in H2.
  - rewrite H2. destruct m as [|c m]; simpl in *.
    + injection H1 as ->. by eapply (IH a []).
    + destruct H1 as ([= ->] & _). by eapply (IH c []).
  - destruct H2 as (-> & _). eapply (IH b (m ++ [a])). by rewrite <- app_assoc.
Qed.

(** A list that is appended to itself has no end any more: a further [append]
    to it never returns. *)
Theorem append_self_loops st p l fuel :
  chain st p l → NoDup l → (length l ≤ fuel)%nat →
  ∃ st', append fuel p p st = Done (tt, st') ∧ ∀ n q, append n p q st' = Fault FFuel.
Proof.
  intros (l0 & z & x & -> & Hl0 & Hz & Hx)%chain_split Hnd Hf.
  assert (z ∉ l0) as Hzl by (apply NoDup_app in Hnd as (_ & H & _); intros Hin; apply (H z Hin); set_solver).
  rewrite length_app in Hf. simpl in Hf.
  eexists. split.
  { unfold append, bind at 1. erewrite last_region_run by (eauto; lia).
    unfold bind, deref. rewrite Hz. reflexivity. }
  intros n q. set (st' := <[z := _]> st).
  assert (segment st' (Some p) (l0 ++ [z]) (Some p)) as Hc.
  { rewrite segment_app. exists (Some z). split; [by apply segment_frame|].
    simpl. split; [done|]. eexists. unfold st'. by rewrite lookup_insert_eq. }
  assert (∃ m', p :: m' = l0 ++ [z]) as [m' E].
  { destruct l0 as [|b l0]; simpl in *; [injection Hl0 as ->|destruct Hl0 as ([= <-] & _)]; eauto. }
  unfold append, bind. by erewrite (last_region_cycle _ _ _ n p Hc eq_refl ltac:(by destruct l0) p [] m' E).
Qed.

Definition node (start : Z) (o : option Z) : Node := mkNode (mkRegion start (BitSet128.mk 0 128)) o.
Definition two_lists : Store := <[1 := node 0 (Some 2)]> (<[2 := node 524288 None]> {[3 := node 1048576 None]}).

Lemma append_spec_witness : ∃ st', append 2 1 3 two_lists = Done (tt, st') ∧ chain st' 1 [1; 2; 3].
Proof.
  destruct (append_spec two_lists 1 [1; 2] 3 [3] 2) as (st' & ? & ? & _); [..|eauto].
  - repeat (split; [reflexivity|]; eexists; split; [vm_compute; reflexivity|]). reflexivity.
  - by apply (bool_decide_unpack _); vm_compute.
  - repeat (split; [reflexivity|]; eexists; split; [vm_compute; reflexivity|]). reflexivity.
  - set_solver.
  - simpl; lia.
Defined.
