(* ===== verification/P9Msg.v ===== *)
(** * [p9.rs]: the message buffer and the 9p wire format

    [Msg] is the cursor over a fixed buffer the client builds requests in and
    parses replies from.  [wire] is the reference encoding of a request:
    [size[4] type[1] tag[2]] and the body, little endian. *)
From S2P Require Import Prelude.

Local Open Scope Z_scope.

Record Msg := mkMsg { buf : list Z; pos : nat }.

Definition MM := M Msg.

Definition msg_new (capacity : nat) : Msg := mkMsg (replicate capacity 0x69) 0.

(** [read_u8], [read_u16], [read_u32], [read_u64] for [n = 1, 2, 4, 8]. *)
Definition read_n (n : nat) : MM (option Z) := λ m,
  if (length (buf m) <? pos m + n)%nat then Done (None, m)
  else Done (Some (of_le_bytes (take n (drop (pos m) (buf m)))), mkMsg (buf m) (pos m + n)).

Definition read_u8 : MM (option Z) := read_n 1.
Definition read_u16 : MM (option Z) := read_n 2.
Definition read_u32 : MM (option Z) := read_n 4.
Definition read_u64 : MM (option Z) := read_n 8.

(** [str::from_utf8]: well-formed byte sequences (Unicode, table 3-7). *)
Definition cont (b : Z) : bool := (0x80 <=? b) && (b <=? 0xBF).
Definition in_rg (lo hi b : Z) : bool := (lo <=? b) && (b <=? hi).

Fixpoint utf8_valid (bs : list Z) : bool :=
  match bs with
  | [] => true
  | b0 :: r0 =>
      if b0 <=? 0x7F then utf8_valid r0
      else match r0 with
      | [] => false
      | b1 :: r1 =>
          if in_rg 0xC2 0xDF b0 then cont b1 && utf8_valid r1
          else match r1 with
          | [] => false
          | b2 :: r2 =>
              if in_rg 0xE0 0xEF b0 then
                in_rg (if b0 =? 0xE0 then 0xA0 else 0x80) (if b0 =? 0xED then 0x9F else 0xBF) b1
                && cont b2 && utf8_valid r2
              else match r2 with
              | [] => false
              | b3 :: r3 =>
                  in_rg 0xF0 0xF4 b0
                  && in_rg (if b0 =? 0xF0 then 0x90 else 0x80) (if b0 =? 0xF4 then 0x8F else 0xBF) b1
                  && cont b2 && cont b3 && utf8_valid r3
              end
          end
      end
  end.

(** The cursor stays in front of the characters, as in the source. *)
Definition read_str : MM (option (list Z)) :=
  let! r := read_u16 in
  let! len := unwrap r in
  let! m := get in
  if (length (buf m) <? pos m + Z.to_nat len)%nat then ret None
  else
    let s := take (Z.to_nat len) (drop (pos m) (buf m)) in
    ret (if utf8_valid s then Some s else None).

Definition write_slice (s : list Z) : MM unit := λ m,
  if (length (buf m) <? pos m + length s)%nat then Fault FPanic
  else Done (tt, mkMsg (splice (pos m) s (buf m)) (pos m + length s)).

Definition write_u8 (v : Z) : MM unit := write_slice [v].
Definition write_u16 (v : Z) : MM unit := write_slice (le_bytes 2 v).
Definition write_u32 (v : Z) : MM unit := write_slice (le_bytes 4 v).
Definition write_u64 (v : Z) : MM unit := write_slice (le_bytes 8 v).
Definition write_str (s : list Z) : MM unit :=
  write_u16 (wrap 16 (Z.of_nat (length s))) ;;; write_slice s.

Definition seek (p : nat) : MM unit := λ m,
  if (p <=? length (buf m))%nat then Done (tt, mkMsg (buf m) p) else Fault FPanic.
Definition tell : MM nat := gets pos.
Definition skip (n : nat) : MM unit := λ m, seek (pos m + n) m.

(** ** The wire format *)
Definition str (s : list Z) : list Z := le_bytes 2 (Z.of_nat (length s)) ++ s.

Definition wire (op tag : Z) (body : list Z) : list Z :=
  le_bytes 4 (7 + Z.of_nat (length body)) ++ [op] ++ le_bytes 2 tag ++ body.

(** ** Writing from the cursor on *)
Section writes.
Lemma write_slice_run pre rest s :
  (length s ≤ length rest)%nat →
  write_slice s (mkMsg (pre ++ rest) (length pre))
  = Done (tt, mkMsg ((pre ++ s) ++ drop (length s) rest) (length (pre ++ s))).
Proof.
  intros Hs. unfold write_slice. simpl. rewrite !length_app.
  destruct (Nat.ltb_spec (length pre + length rest) (length pre + length s)); [lia|].
  do 3 f_equal. unfold splice. rewrite take_app_length, drop_app_add, <- app_assoc. done.
Qed.

(** A write followed by the rest of the program, when the buffer has room. *)
Lemma write_slice_bind {A} pre rest s (k : unit → MM A) :
  (length s ≤ length rest)%nat →
  bind (write_slice s) k (mkMsg (pre ++ rest) (length pre))
  = k tt (mkMsg ((pre ++ s) ++ drop (length s) rest) (length (pre ++ s))).
Proof. intros Hs. by erewrite bind_Done by (by apply write_slice_run). Qed.

Lemma write_str_run pre rest s :
  Z.of_nat (length s) < 65536 → (2 + length s ≤ length rest)%nat →
  write_str s (mkMsg (pre ++ rest) (length pre))
  = Done (tt, mkMsg ((pre ++ str s) ++ drop (2 + length s) rest) (length (pre ++ str s))).
Proof.
  intros Hl Hs. unfold write_str, write_u16. rewrite wrap_small by lia.
  rewrite write_slice_bind by (rewrite length_le_bytes; lia).
  rewrite write_slice_run by (rewrite length_drop, length_le_bytes; lia).
  unfold str. rewrite length_le_bytes, drop_drop, <- !app_assoc. done.
Qed.

Lemma write_str_bind {A} pre rest s (k : unit → MM A) :
  Z.of_nat (length s) < 65536 → (2 + length s ≤ length rest)%nat →
  bind (write_str s) k (mkMsg (pre ++ rest) (length pre))
  = k tt (mkMsg ((pre ++ str s) ++ drop (2 + length s) rest) (length (pre ++ str s))).
Proof. intros. by erewrite bind_Done by (by apply write_str_run). Qed.

Lemma length_str s : length (str s) = (2 + length s)%nat.
Proof. unfold str. by rewrite length_app, length_le_bytes. Qed.

Lemma length_wire op tag body : length (wire op tag body) = (7 + length body)%nat.
Proof. unfold wire. rewrite !length_app, !length_le_bytes. simpl. lia. Qed.
End writes.

(** ** Reading *)
Section reads.
Lemma read_n_run n pre x rest :
  (0 < n)%nat → 0 ≤ x < 2 ^ (8 * Z.of_nat n) →
  read_n n (mkMsg (pre ++ le_bytes n x ++ rest) (length pre))
  = Done (Some x, mkMsg (pre ++ le_bytes n x ++ rest) (length pre + n)).
Proof.
  intros Hn Hx. unfold read_n. simpl. rewrite !length_app, length_le_bytes.
  destruct (Nat.ltb_spec (length pre + (n + length rest)) (length pre + n)); [lia|].
  rewrite drop_app_length, take_app_le, take_ge by (rewrite length_le_bytes; lia).
  by rewrite of_le_bytes_le_bytes, Z.mod_small.
Qed.

Lemma read_n_short n m : (length (buf m) < pos m + n)%nat → read_n n m = Done (None, m).
Proof. intros H. unfold read_n. by rewrite (proj2 (Nat.ltb_lt _ _)). Qed.

Lemma read_str_run pre s rest :
  Z.of_nat (length s) < 65536 →
  read_str (mkMsg (pre ++ str s ++ rest) (length pre))
  = Done (if utf8_valid s then Some s else None, mkMsg (pre ++ str s ++ rest) (length pre + 2)).
Proof.
  intros Hs. unfold read_str, str, read_u16. rewrite <- !app_assoc.
  erewrite bind_Done by (apply (read_n_run 2 pre (Z.of_nat (length s)) (s ++ rest)); [lia|simpl; lia]).
  mstep. mstep. cbn [pos buf].
  rewrite !length_app, length_le_bytes, Nat2Z.id.
  destruct (Nat.ltb_spec (length pre + (2 + (length s + length rest))) (length pre + 2 + length s)); [lia|].
  rewrite drop_app_add, drop_app_length' by (by rewrite length_le_bytes).
  by rewrite take_app_length.
Qed.
End reads.

(** ** Properties *)

(** The buffer's integer accessors are inverse: in a buffer with room, what
    [write_u8], [write_u16], [write_u32] and [write_u64] store is what the
    matching read returns, the cursor moves by the width, and no other byte of
    the buffer changes. *)
Theorem msg_int_roundtrip (n : nat) (v : Z) (m : Msg) :
  (0 < n)%nat → 0 ≤ v < 2 ^ (8 * Z.of_nat n) → (pos m + n ≤ length (buf m))%nat →
  ∃ m', write_slice (le_bytes n v) m = Done (tt, m') ∧ pos m' = (pos m + n)%nat ∧
    length (buf m') = length (buf m) ∧
    (∀ i, (i < pos m ∨ pos m + n ≤ i)%nat → buf m' !! i = buf m !! i) ∧
    read_n n (mkMsg (buf m') (pos m)) = Done (Some v, m').
Proof.
  destruct m as [b p]. simpl. intros Hn Hv Hp. eexists. unfold write_slice. simpl.
  rewrite length_le_bytes, (proj2 (Nat.ltb_ge _ _)) by lia. split; [done|]. simpl.
  split; [done|]. split; [apply length_splice; rewrite length_le_bytes; lia|]. split.
  - intros i Hi. apply splice_lookup_out; rewrite length_le_bytes; lia.
  - assert (length (take p b) = p) as Hl by (rewrite length_take; lia).
    pose proof (read_n_run n (take p b) v (drop (p + n) b) Hn Hv) as H. rewrite Hl in H.
    unfold splice. rewrite length_le_bytes. exact H.
Qed.

(** Strings too: a valid UTF-8 string of fewer than 65536 bytes written
    with [write_str] is what [read_str] returns at the same place. *)
Theorem msg_str_roundtrip (s : list Z) (m : Msg) :
  utf8_valid s = true → Z.of_nat (length s) < 65536 → (pos m + 2 + length s ≤ length (buf m))%nat →
  ∃ m', write_str s m = Done (tt, m') ∧ pos m' = (pos m + 2 + length s)%nat ∧
    ∃ m'', read_str (mkMsg (buf m') (pos m)) = Done (Some s, m'') ∧ buf m'' = buf m'.
Proof.
  destruct m as [b p]. simpl. intros Hv Hs Hp. assert (length (take p b) = p) as Hl by (rewrite length_take; lia).
  pose proof (write_str_run (take p b) (drop p b) s Hs) as Hw.
  rewrite take_drop, Hl in Hw. eexists. split; [apply Hw; rewrite length_drop; lia|]. simpl.
  rewrite length_app, length_str, Hl. split; [lia|]. eexists.
  pose proof (read_str_run (take p b) s (drop (2 + length s) (drop p b)) Hs) as Hr.
  rewrite Hl, Hv in Hr. rewrite <- app_assoc. split; [exact Hr|done].
Qed.

Lemma msg_int_roundtrip_witness :
  ∃ m', write_u32 0xDEADBEEF (msg_new 11) = Done (tt, m') ∧
    read_u32 (mkMsg (buf m') 0) = Done (Some 0xDEADBEEF, m').
Proof.
  destruct (msg_int_roundtrip 4 0xDEADBEEF (msg_new 11)) as (m' & E & _ & _ & _ & Er).
  - lia.
  - done.
  - simpl. lia.
  - by exists m'.
Defined.

Lemma msg_str_roundtrip_witness :
  ∃ m' m'', write_str [0x2e; 0xC3; 0xA9] (msg_new 8) = Done (tt, m') ∧
    read_str (mkMsg (buf m') 0) = Done (Some [0x2e; 0xC3; 0xA9], m'').
Proof.
  destruct (msg_str_roundtrip [0x2e; 0xC3; 0xA9] (msg_new 8)) as (m' & E & _ & m'' & Er & _).
  - done.
  - simpl. lia.
  - simpl. lia.
  - by exists m', m''.
Defined.
