(* ===== verification/P9.v ===== *)
(** * [p9.rs]: the 9p client, as code

    One record holds what the functions of [p9.rs] share: the driver state
    behind the lock [P9L] (queue, fids, tag, root qid), the table [FILES], and
    the device.  The device (the 9p server and the virtio transport) is not
    part of the program: [device] gives its reply to a request and [Mmio] its
    registers.  [transact] is the body every operation repeats between
    building a request and parsing the reply. *)
From S2P Require Import Prelude Stuff Virtio VirtioInv P9Msg.

Local Open Scope Z_scope.

(** ** Data *)
Inductive QIDKind := DIR | APPEND | EXCL | MOUNT | AUTH | TMP | SYMLINK | LINK | FILE | DONT.

#[export] Instance QIDKind_eq_dec : EqDecision QIDKind.
Proof. solve_decision. Defined.

Definition qid_code (k : QIDKind) : Z :=
  match k with
  | DIR => 0x80 | APPEND => 0x40 | EXCL => 0x20 | MOUNT => 0x10 | AUTH => 0x08
  | TMP => 0x04 | SYMLINK => 0x02 | LINK => 0x01 | FILE => 0x00 | DONT => 0xff
  end.

Definition qid_try_from (v : Z) : option QIDKind :=
  if v =? 0x0 then Some FILE else if v =? 0x01 then Some LINK else if v =? 0x02 then Some SYMLINK
  else if v =? 0x04 then Some TMP else if v =? 0x08 then Some AUTH else if v =? 0x10 then Some MOUNT
  else if v =? 0x20 then Some EXCL else if v =? 0x40 then Some APPEND else if v =? 0x80 then Some DIR
  else None.

Record QID := mkQID { q_kind : QIDKind; version : Z; path : Z }.
Definition qid_new : QID := mkQID DIR 0 0.

Inductive Op :=
  | TLERROR | RLERROR | TSTATFS | RSTATFS | TLOPEN | RLOPEN | TLCREATE | RLCREATE | TSYMLINK
  | RSYMLINK | TMKNOD | RMKNOD | TRENAME | RRENAME | TREADLINK | RREADLINK | TGETATTR | RGETATTR
  | TSETATTR | RSETATTR | TXATTRWALK | RXATTRWALK | TXATTRCREATE | RXATTRCREATE | TREADDIR
  | RREADDIR | TFSYNC | RFSYNC | TLOCK | RLOCK | TGETLOCK | RGETLOCK | TLINK | RLINK | TMKDIR
  | RMKDIR | TRENAMEAT | RRENAMEAT | TUNLINKAT | RUNLINKAT | TVERSION | RVERSION | TAUTH | RAUTH
  | TATTACH | RATTACH | TERROR | RERROR | TFLUSH | RFLUSH | TWALK | RWALK | TOPEN | ROPEN | TCREATE
  | RCREATE | TREAD | RREAD | TWRITE | RWRITE | TCLUNK | RCLUNK | TREMOVE | RREMOVE | TSTAT | RSTAT
  | TWSTAT | RWSTAT.

Definition op_code (o : Op) : Z :=
  match o with
  | TLERROR => 6 | RLERROR => 7 | TSTATFS => 8 | RSTATFS => 9 | TLOPEN => 12 | RLOPEN => 13
  | TLCREATE => 14 | RLCREATE => 15 | TSYMLINK => 16 | RSYMLINK => 17 | TMKNOD => 18 | RMKNOD => 19
  | TRENAME => 20 | RRENAME => 21 | TREADLINK => 22 | RREADLINK => 23 | TGETATTR => 24
  | RGETATTR => 25 | TSETATTR => 26 | RSETATTR => 27 | TXATTRWALK => 30 | RXATTRWALK => 31
  | TXATTRCREATE => 32 | RXATTRCREATE => 33 | TREADDIR => 40 | RREADDIR => 41 | TFSYNC => 50
  | RFSYNC => 51 | TLOCK => 52 | RLOCK => 53 | TGETLOCK => 54 | RGETLOCK => 55 | TLINK => 70
  | RLINK => 71 | TMKDIR => 72 | RMKDIR => 73 | TRENAMEAT => 74 | RRENAMEAT => 75 | TUNLINKAT => 76
  | RUNLINKAT => 77 | TVERSION => 100 | RVERSION => 101 | TAUTH => 102 | RAUTH => 103
  | TATTACH => 104 | RATTACH => 105 | TERROR => 106 | RERROR => 107 | TFLUSH => 108 | RFLUSH => 109
  | TWALK => 110 | RWALK => 111 | TOPEN => 112 | ROPEN => 113 | TCREATE => 114 | RCREATE => 115
  | TREAD => 116 | RREAD => 117 | TWRITE => 118 | RWRITE => 119 | TCLUNK => 120 | RCLUNK => 121
  | TREMOVE => 122 | RREMOVE => 123 | TSTAT => 124 | RSTAT => 125 | TWSTAT => 126 | RWSTAT => 127
  end.

Record Stat := mkStat {
  st_kind : Z; st_dev : Z; st_qid : QID; st_mode : Z; st_atime : Z; st_mtime : Z; st_len : Z;
}.

Definition stat_dont_touch : Stat :=
  mkStat (wnot 16 0) (wnot 32 0) (mkQID DONT (wnot 32 0) (wnot 64 0))
         (wnot 32 0) (wnot 32 0) (wnot 32 0) (wnot 64 0).

Record File := mkFile { f_fid : Z; f_iou : Z; f_qid : QID; f_st : option Stat }.
Definition file_zeroed : File := mkFile 0 0 qid_new None.

(** ** Open flags: the enum [O] with the values the compiler gives it *)
Module O.
Inductive t :=
  | RDONLY | WRONLY | RDWR | NOACCESS | CREATE | EXCL | NOCTTY | TRUNC | APPEND | NONBLOCK
  | DSYNC | FASYNC | DIRECT | LARGEFILE | DIRECTORY | NOFOLLOW | NOATIME | CLOEXEC | SYNC.

Definition code (o : t) : Z :=
  match o with
  | RDONLY => 0 | WRONLY => 1 | RDWR => 2 | NOACCESS => 3 | CREATE => 100 | EXCL => 200
  | NOCTTY => 400 | TRUNC => 1000 | APPEND => 2000 | NONBLOCK => 4000 | DSYNC => 10000
  | FASYNC => 20000 | DIRECT => 40000 | LARGEFILE => 100000 | DIRECTORY => 200000
  | NOFOLLOW => 400000 | NOATIME => 1000000 | CLOEXEC => 2000000 | SYNC => 4000000
  end.
End O.

(** The [match] of [o2p9o] on bit [i] of the flags ([fs::O] names the bits). *)
Definition o2p9o_bit (i : Z) : O.t :=
  if i =? 0 then O.WRONLY else if i =? 1 then O.RDWR else if i =? 6 then O.CREATE
  else if i =? 7 then O.EXCL else if i =? 8 then O.NOCTTY else if i =? 9 then O.TRUNC
  else if i =? 10 then O.APPEND else if i =? 11 then O.NONBLOCK else if i =? 12 then O.DSYNC
  else if i =? 13 then O.FASYNC else if i =? 14 then O.DIRECTORY else if i =? 15 then O.NOFOLLOW
  else if i =? 16 then O.DIRECT else if i =? 17 then O.LARGEFILE else if i =? 18 then O.NOATIME
  else if i =? 19 then O.CLOEXEC else if i =? 20 then O.SYNC else O.RDONLY.

Definition o2p9o (o : Z) : Z :=
  foldl (λ acc i, Z.lor acc (O.code (if Z.testbit o i then o2p9o_bit i else O.RDONLY)))
        0 (range 0 23).

(** ** Requests

    One constructor per request the client sends, with the fields the code
    writes, and the program of writes that builds it. *)
Inductive treq :=
  | Tversion (msize : Z) (ver : list Z)
  | Tattach (tag fid afid : Z) (uname aname : list Z) (n_uname : Z)
  | Twalk (tag fid newfid : Z) (wnames : list (list Z))
  | Topen (tag fid mode : Z)
  | Tcreate (tag fid : Z) (name : list Z) (perm mode : Z)
  | Tmkdir (tag fid : Z) (name : list Z) (mode gid : Z)
  | Tread (tag fid offset count : Z)
  | Twrite (tag fid offset : Z) (data : list Z)
  | Treaddir (tag fid offset count : Z)
  | Tclunk (tag fid : Z)
  | Tremove (tag fid : Z)
  | Tstat (tag fid : Z)
  | Twstat (tag fid : Z) (st : Stat)
  | Treadlink (tag fid : Z)
  | Tsymlink (tag fid : Z) (name target : list Z) (gid : Z)
  | Trename (tag fid dfid : Z) (name : list Z)
  | Tlink (tag dfid fid : Z) (name : list Z).

Definition nlen (s : list Z) : nat := length s.

Fixpoint strlens (wnames : list (list Z)) : nat :=
  match wnames with [] => 0 | w :: ws => (2 + length w) + strlens ws end.

(** [tlen], [rlen] and the capacity of the buffer, as each operation computes them. *)
Definition tlen (r : treq) : nat :=
  match r with
  | Tversion _ ver => 4 + 1 + 2 + 4 + 2 + nlen ver
  | Tattach _ _ _ u a _ => 4 + 1 + 2 + 4 + 4 + (2 + nlen u) + (2 + nlen a) + 4
  | Twalk _ _ _ ws => 4 + 1 + 2 + 4 + 4 + 2 + strlens ws
  | Topen _ _ _ => 4 + 1 + 2 + 4 + 4
  | Tcreate _ _ n _ _ => 4 + 1 + 2 + 4 + 2 + nlen n + 4 + 1 + 2
  | Tmkdir _ _ n _ _ => 4 + 1 + 2 + 4 + 2 + nlen n + 4 + 4
  | Tread _ _ _ _ => 4 + 1 + 2 + 4 + 8 + 4
  | Twrite _ _ _ d => 4 + 1 + 2 + 4 + 8 + 4 + nlen d
  | Treaddir _ _ _ _ => 4 + 1 + 2 + 4 + 8 + 4
  | Tclunk _ _ => 11
  | Tremove _ _ => 4 + 1 + 2 + 4
  | Tstat _ _ => 4 + 1 + 2 + 4
  | Twstat _ _ _ =>
      4 + 1 + 2 + 4 + 2 + 2 + 2 + 4 + 13 + 4 + 4 + 4 + 8 + 2 + 2 + 2 + 2 + 2 + 4 + 4 + 4
  | Treadlink _ _ => 4 + 1 + 2 + 4
  | Tsymlink _ _ n t _ => 4 + 1 + 2 + 4 + 2 + nlen n + 2 + nlen t + 4
  | Trename _ _ _ n => 4 + 1 + 2 + 4 + 4 + 2 + nlen n
  | Tlink _ _ _ n => 4 + 1 + 2 + 4 + 4 + 2 + nlen n
  end.

Definition rlen (r : treq) : nat :=
  match r with
  | Tversion _ ver => 4 + 1 + 2 + 4 + 2 + nlen ver
  | Tattach _ _ _ _ _ _ => 20
  | Twalk _ _ _ ws => 4 + 1 + 2 + 2 + 13 * length ws
  | Topen _ _ _ => 4 + 1 + 2 + 13 + 4
  | Tcreate _ _ _ _ _ => 4 + 1 + 2 + 13 + 4
  | Tmkdir _ _ _ _ _ => 4 + 1 + 2 + 13
  | Tread _ _ _ n => 4 + 1 + 2 + 4 + 8 + 4 + Z.to_nat n
  | Twrite _ _ _ d => 4 + 1 + 2 + 4 + 8 + 4 + nlen d
  | Treaddir _ _ _ n => 4 + 1 + 2 + 4 + Z.to_nat n
  | Tclunk _ _ => 7
  | Tremove _ _ => 4 + 1 + 2 + 4
  | Tstat _ _ => 4 + 1 + 2 + 2 + 2 + 2 + 4 + 13 + 4 + 4 + 4 + 8 + 256
  | Twstat _ _ _ => 4 + 1 + 2 + 4 + 13
  | Treadlink _ _ => 4 + 1 + 2 + 1024
  | Tsymlink _ _ _ _ _ => 4 + 1 + 2 + 13
  | Trename _ _ _ _ => 4 + 1 + 2
  | Tlink _ _ _ _ => 4 + 1 + 2 + 13
  end.

Definition capacity (r : treq) : nat :=
  match r with
  | Tattach _ _ _ _ _ _ => 4 + 1 + 2 + 4 + 4 + 2 + 2 + 4 + 4
  | _ => Nat.max (tlen r) (rlen r)
  end.

Definition hdr (len op tag : Z) : MM unit := write_u32 len ;;; write_u8 op ;;; write_u16 tag.

(** [let len = msg.tell(); msg.seek(0); msg.write_u32(len)] *)
Definition patch_len : MM unit := let! len := tell in seek 0 ;;; write_u32 (Z.of_nat len).

Fixpoint write_strs (l : list (list Z)) : MM unit :=
  match l with [] => ret tt | s :: l' => write_str s ;;; write_strs l' end.

Definition build (r : treq) : MM unit :=
  let l := wrap 32 (Z.of_nat (tlen r)) in
  match r with
  | Tversion msize ver =>
      hdr l (op_code TVERSION) 0 ;;; write_u32 msize ;;; write_str ver
  | Tattach tag fid afid u a n =>
      hdr 0 (op_code TATTACH) tag ;;; write_u32 fid ;;; write_u32 afid ;;;
      write_str u ;;; write_str a ;;; write_u32 n ;;; patch_len
  | Twalk tag fid newfid ws =>
      hdr l (op_code TWALK) tag ;;; write_u32 fid ;;; write_u32 newfid ;;;
      write_u16 (wrap 16 (Z.of_nat (length ws))) ;;; write_strs ws
  | Topen tag fid mode =>
      hdr 0 (op_code TOPEN) tag ;;; write_u32 fid ;;; write_u32 mode ;;; patch_len
  | Tcreate tag fid name perm mode =>
      hdr l (op_code TCREATE) tag ;;; write_u32 fid ;;; write_str name ;;; write_u32 perm ;;;
      write_u8 (wrap 8 mode) ;;; write_u16 0
  | Tmkdir tag fid name mode gid =>
      hdr l (op_code TMKDIR) tag ;;; write_u32 fid ;;; write_str name ;;; write_u32 mode ;;; write_u32 gid
  | Tread tag fid offset count =>
      hdr 0 (op_code TREAD) tag ;;; write_u32 fid ;;; write_u64 offset ;;; write_u32 count ;;; patch_len
  | Twrite tag fid offset data =>
      hdr 0 (op_code TWRITE) tag ;;; write_u32 fid ;;; write_u64 offset ;;;
      write_u32 (wrap 32 (Z.of_nat (nlen data))) ;;; write_slice data ;;; patch_len
  | Treaddir tag fid offset count =>
      hdr l (op_code TREADDIR) tag ;;; write_u32 fid ;;; write_u64 offset ;;; write_u32 count
  | Tclunk tag fid => hdr l (op_code TCLUNK) tag ;;; write_u32 fid
  | Tremove tag fid => hdr l (op_code TREMOVE) tag ;;; write_u32 fid
  | Tstat tag fid => hdr l (op_code TSTAT) tag ;;; write_u32 fid
  | Twstat tag fid st =>
      hdr l (op_code TWSTAT) tag ;;; write_u32 fid ;;; write_u16 0 ;;;
      write_u16 (wsub 16 (wrap 16 (Z.of_nat (tlen r))) 9) ;;;
      write_u16 (st_kind st) ;;; write_u32 (st_dev st) ;;;
      write_u8 (qid_code (q_kind (st_qid st))) ;;; write_u32 (version (st_qid st)) ;;;
      write_u64 (path (st_qid st)) ;;;
      write_u32 (st_mode st) ;;; write_u32 (st_atime st) ;;; write_u32 (st_mtime st) ;;;
      write_u64 (st_len st) ;;;
      write_u16 0 ;;; write_u16 0 ;;; write_u16 0 ;;; write_u16 0 ;;; write_u16 0 ;;;
      write_u32 (wnot 32 0) ;;; write_u32 (wnot 32 0) ;;; write_u32 (wnot 32 0)
  | Treadlink tag fid => hdr l (op_code TREADLINK) tag ;;; write_u32 fid
  | Tsymlink tag fid name target gid =>
      hdr l (op_code TSYMLINK) tag ;;; write_u32 fid ;;; write_str name ;;; write_str target ;;; write_u32 gid
  | Trename tag fid dfid name =>
      hdr l (op_code TRENAME) tag ;;; write_u32 fid ;;; write_u32 dfid ;;; write_str name
  | Tlink tag dfid fid name =>
      hdr l (op_code TLINK) tag ;;; write_u32 dfid ;;; write_u32 fid ;;; write_str name
  end.
