(* ===== verification/P9Wire.v ===== *)
(** * Every request of the 9p client is well-formed on the wire

    [body] gives the fields of each request in the order of the protocol; the
    theorem compares the bytes the write sequences of [P9.build] leave in the
    buffer with the reference encoding [wire]. *)
From S2P Require Import Prelude P9Msg P9.

Local Open Scope Z_scope.

Definition u16 (z : Z) : list Z := le_bytes 2 z.
Definition u32 (z : Z) : list Z := le_bytes 4 z.
Definition u64 (z : Z) : list Z := le_bytes 8 z.

Definition req_op (r : treq) : Op :=
  match r with
  | Tversion _ _ => TVERSION | Tattach _ _ _ _ _ _ => TATTACH | Twalk _ _ _ _ => TWALK
  | Topen _ _ _ => TOPEN | Tcreate _ _ _ _ _ => TCREATE | Tmkdir _ _ _ _ _ => TMKDIR
  | Tread _ _ _ _ => TREAD | Twrite _ _ _ _ => TWRITE | Treaddir _ _ _ _ => TREADDIR
  | Tclunk _ _ => TCLUNK | Tremove _ _ => TREMOVE | Tstat _ _ => TSTAT | Twstat _ _ _ => TWSTAT
  | Treadlink _ _ => TREADLINK | Tsymlink _ _ _ _ _ => TSYMLINK | Trename _ _ _ _ => TRENAME
  | Tlink _ _ _ _ => TLINK
  end.

Definition req_tag (r : treq) : Z :=
  match r with
  | Tversion _ _ => 0
  | Tattach t _ _ _ _ _ | Twalk t _ _ _ | Topen t _ _ | Tcreate t _ _ _ _ | Tmkdir t _ _ _ _
  | Tread t _ _ _ | Twrite t _ _ _ | Treaddir t _ _ _ | Tclunk t _ | Tremove t _ | Tstat t _
  | Twstat t _ _ | Treadlink t _ | Tsymlink t _ _ _ _ | Trename t _ _ _ | Tlink t _ _ _ => t
  end.

Definition wstat_body (st : Stat) : list Z :=
  u16 (st_kind st) ++ u32 (st_dev st)
  ++ [qid_code (q_kind (st_qid st))] ++ u32 (version (st_qid st)) ++ u64 (path (st_qid st))
  ++ u32 (st_mode st) ++ u32 (st_atime st) ++ u32 (st_mtime st) ++ u64 (st_len st)
  ++ str [] ++ str [] ++ str [] ++ str [] ++ str []
  ++ u32 (wnot 32 0) ++ u32 (wnot 32 0) ++ u32 (wnot 32 0).

Definition body (r : treq) : list Z :=
  match r with
  | Tversion msize ver => u32 msize ++ str ver
  | Tattach _ fid afid u a n => u32 fid ++ u32 afid ++ str u ++ str a ++ u32 n
  | Twalk _ fid newfid ws => u32 fid ++ u32 newfid ++ u16 (Z.of_nat (length ws)) ++ concat (map str ws)
  | Topen _ fid mode => u32 fid ++ u32 mode
  | Tcreate _ fid name perm mode => u32 fid ++ str name ++ u32 perm ++ [wrap 8 mode] ++ str []
  | Tmkdir _ fid name mode gid => u32 fid ++ str name ++ u32 mode ++ u32 gid
  | Tread _ fid off count => u32 fid ++ u64 off ++ u32 count
  | Twrite _ fid off data => u32 fid ++ u64 off ++ u32 (Z.of_nat (length data)) ++ data
  | Treaddir _ fid off count => u32 fid ++ u64 off ++ u32 count
  | Tclunk _ fid | Tremove _ fid | Tstat _ fid | Treadlink _ fid => u32 fid
  | Twstat _ fid st => u32 fid ++ u16 0 ++ u16 67 ++ wstat_body st
  | Tsymlink _ fid name target gid => u32 fid ++ str name ++ str target ++ u32 gid
  | Trename _ fid dfid name => u32 fid ++ u32 dfid ++ str name
  | Tlink _ dfid fid name => u32 dfid ++ u32 fid ++ str name
  end.

(** The names in a request; the protocol counts their bytes in 16 bits. *)
Definition names (r : treq) : list (list Z) :=
  match r with
  | Tversion _ ver => [ver]
  | Tattach _ _ _ u a _ => [u; a]
  | Twalk _ _ _ ws => ws
  | Tcreate _ _ n _ _ | Tmkdir _ _ n _ _ | Trename _ _ _ n | Tlink _ _ _ n => [n]
  | Tsymlink _ _ n t _ => [n; t]
  | _ => []
  end.

Definition encodable (r : treq) : Prop :=
  Forall (λ s, Z.of_nat (length s) < 65536) (names r) ∧
  Z.of_nat (tlen r) < 2 ^ 32 ∧
  match r with
  | Twalk _ _ _ ws => Z.of_nat (length ws) < 65536
  | Tattach _ _ _ u a _ => (length u + length a ≤ 4)%nat
  | _ => True
  end.

Section encode.

Lemma concat_strlens ws : length (concat (map str ws)) = strlens ws.
Proof. induction ws as [|w ws IH]; [done|]. cbn [map concat strlens]. by rewrite length_app, length_str, IH. Qed.

Lemma length_body r : (7 + length (body r))%nat = tlen r.
Proof.
  destruct r; cbn [body tlen]; unfold wstat_body, u16, u32, u64, nlen;
    repeat first [rewrite length_app | rewrite length_le_bytes | rewrite length_str | rewrite concat_strlens];
    cbn [length]; lia.
Qed.

(** [emits w bs]: [w] appends [bs] at the cursor of any buffer with room. *)
Definition emits (w : MM unit) (bs : list Z) : Prop :=
  ∀ pre rest, (length bs ≤ length rest)%nat →
    w (mkMsg (pre ++ rest) (length pre))
    = Done (tt, mkMsg ((pre ++ bs) ++ drop (length bs) rest) (length (pre ++ bs))).

(** The same, and at the end the length of all that was written overwrites the first four bytes. *)
Definition emits_patched (w : MM unit) (bs : list Z) : Prop :=
  ∀ pre rest, (length bs ≤ length rest)%nat → (4 ≤ length (pre ++ bs))%nat →
    ∃ p, w (mkMsg (pre ++ rest) (length pre))
    = Done (tt, mkMsg (le_bytes 4 (Z.of_nat (length (pre ++ bs)))
                       ++ drop 4 (pre ++ bs) ++ drop (length bs) rest) p).

Lemma emits_slice bs : emits (write_slice bs) bs.
Proof. intros pre rest. apply write_slice_run. Qed.

Lemma emits_str s : Z.of_nat (length s) < 65536 → emits (write_str s) (str s).
Proof. intros Hs pre rest Hl. rewrite length_str in *. by apply write_str_run. Qed.

Lemma emits_bind w1 w2 b1 b2 : emits w1 b1 → emits w2 b2 → emits (w1 ;;; w2) (b1 ++ b2).
Proof.
  intros H1 H2 pre rest Hl. rewrite length_app in Hl. erewrite bind_Done by (apply H1; lia).
  rewrite H2 by (rewrite length_drop; lia). by rewrite drop_drop, (length_app b1 b2), <- !app_assoc.
Qed.

Lemma patched_bind w1 w2 b1 b2 :
  emits w1 b1 → emits_patched w2 b2 → emits_patched (w1 ;;; w2) (b1 ++ b2).
Proof.
  intros H1 H2 pre rest Hl H4. rewrite length_app in Hl. erewrite bind_Done by (apply H1; lia).
  destruct (H2 (pre ++ b1) (drop (length b1) rest)) as [p ->];
    [rewrite length_drop; lia|by rewrite <- app_assoc|].
  exists p. by rewrite drop_drop, (length_app b1 b2), <- !app_assoc.
Qed.

Lemma patched_len : emits_patched patch_len [].
Proof.
  intros pre rest _ H4. rewrite app_nil_r in *. exists 4%nat. unfold patch_len, tell. mstep.
  unfold seek, write_u32, bind. cbn [buf pos length]. simpl (0 <=? _)%nat. cbv iota.
  pose proof (emits_slice (le_bytes 4 (Z.of_nat (length pre))) [] (pre ++ rest)) as E.
  rewrite length_le_bytes, length_app in E. cbn [app length] in E. rewrite E by lia.
  rewrite length_le_bytes. by rewrite drop_app_le by lia.
Qed.

Lemma patched_last w b : emits w b → emits_patched (w ;;; patch_len) b.
Proof. intros H. rewrite <- (app_nil_r b). by apply patched_bind; [|apply patched_len]. Qed.

Lemma emits_strs ws :
  Forall (λ s, Z.of_nat (length s) < 65536) ws → emits (write_strs ws) (concat (map str ws)).
Proof.
  induction 1 as [|w ws Hw _ IH]; cbn [write_strs concat map].
  - intros pre rest _. by rewrite !app_nil_r.
  - by apply emits_bind; [apply emits_str|].
Qed.

Lemma emits_hdr len op tag : emits (hdr len op tag) (u32 len ++ [op] ++ u16 tag).
Proof. unfold hdr. repeat apply emits_bind; apply emits_slice. Qed.
End encode.

Ltac emit :=
  repeat first [ apply patched_last | apply emits_hdr | apply emits_slice
               | apply emits_strs; assumption | apply emits_str; (lia || assumption)
               | apply emits_bind | apply patched_bind ].

Definition patched (r : treq) : bool :=
  match r with Tattach _ _ _ _ _ _ | Topen _ _ _ | Tread _ _ _ _ | Twrite _ _ _ _ => true | _ => false end.

(** What the write sequence of each request leaves behind the header. *)
Lemma build_emits r :
  encodable r →
  let h := u32 (if patched r then 0 else Z.of_nat (tlen r)) ++ [op_code (req_op r)] ++ u16 (req_tag r) in
  if patched r then emits_patched (build r) (h ++ body r) else emits (build r) (h ++ body r).
Proof.
  intros (Hn & Hl & Hx). unfold build. rewrite (wrap_small 32) by lia.
  destruct r; cbn [patched names req_op req_tag body] in *; rewrite ?Forall_cons in Hn; destruct_and?.
  all: try (emit; done).
  - rewrite (wrap_small 16) by lia. emit.
  - cbn [tlen] in Hl. unfold nlen in *. rewrite (wrap_small 32 (Z.of_nat (length data))) by lia. emit.
Qed.

Lemma tlen_capacity r : encodable r → (tlen r ≤ capacity r)%nat.
Proof.
  intros (_ & _ & Hx). destruct r; cbn [capacity]; try lia. cbn [tlen]. unfold nlen. lia.
Qed.

Lemma build_run r :
  encodable r →
  ∃ m, build r (msg_new (capacity r)) = Done (tt, m) ∧
    buf m = wire (op_code (req_op r)) (req_tag r) (body r) ++ replicate (capacity r - tlen r) 0x69.
Proof.
  intros He. pose proof (build_emits r He) as Hb. cbv zeta in Hb.
  set (h := u32 (if patched r then 0 else Z.of_nat (tlen r)) ++ [op_code (req_op r)] ++ u16 (req_tag r)) in *.
  assert (length h = 7%nat) as Hh by (subst h; unfold u32, u16; by rewrite !length_app, !length_le_bytes).
  assert (length (h ++ body r) = tlen r) as Hl by (rewrite length_app, Hh; apply length_body).
  pose proof (tlen_capacity r He) as Hc.
  unfold wire. rewrite <- (Nat2Z.inj_add 7), length_body, <- drop_replicate.
  destruct (patched r) eqn:Ep.
  - destruct (Hb [] (replicate (capacity r) 0x69)) as [p E]; [rewrite length_replicate; lia| |].
    { cbn [app]. rewrite Hl, <- length_body. lia. }
    eexists. split; [exact E|]. cbn [buf app]. rewrite Hl. subst h. unfold u32, u16.
    rewrite <- !app_assoc, drop_app_length' by (by rewrite length_le_bytes). done.
  - eexists. split; [apply (Hb []); rewrite length_replicate; lia|]. cbn [buf app]. rewrite Hl.
    subst h. unfold u32, u16. by rewrite <- !app_assoc.
Qed.

(** C5: every request the client sends is well-formed: for all field values
    whose strings fit the protocol's 16-bit lengths, the write sequence returns
    without overflowing its buffer and leaves exactly the reference encoding,
    with the right total length in the first field, and that length is the one
    the device is told. *)
Theorem requests_on_wire (r : treq) :
  encodable r →
  ∃ m, build r (msg_new (capacity r)) = Done (tt, m) ∧
    take (tlen r) (buf m) = wire (op_code (req_op r)) (req_tag r) (body r) ∧
    length (buf m) = capacity r ∧ of_le_bytes (take 4 (buf m)) = Z.of_nat (tlen r).
Proof.
  intros He. destruct (build_run r He) as (m & E & Hb). exists m. rewrite Hb.
  assert (length (wire (op_code (req_op r)) (req_tag r) (body r)) = tlen r) as Hl
    by (rewrite length_wire; apply length_body).
  pose proof (tlen_capacity r He) as Hc.
  split_and!; [done|by rewrite take_app_length'|by rewrite length_app, Hl, length_replicate; lia|].
  unfold wire. rewrite <- (Nat2Z.inj_add 7), length_body, <- app_assoc, take_app_length'
    by (by rewrite length_le_bytes).
  rewrite of_le_bytes_le_bytes. apply Z.mod_small. destruct He as (_ & ? & _). simpl. lia.
Qed.

Lemma requests_on_wire_witness :
  ∃ m, build (Twalk 7 0 3 [[100; 105; 114]; [120]]) (msg_new 35) = Done (tt, m) ∧
    take 25 (buf m) = wire 110 7 (body (Twalk 7 0 3 [[100; 105; 114]; [120]])).
Proof.
  destruct (requests_on_wire (Twalk 7 0 3 [[100; 105; 114]; [120]])) as (m & E & Ew & _).
  - split; [repeat constructor|]. split; [done|]. done.
  - by exists m.
Defined.

