(* ===== verification/P9Ops.v ===== *)
(** * [p9.rs]: the operations of the 9p client, as code

    [PSt] collects the state the operations share.  A [Result<T, ()>] is an
    [option T].  An operation that sleeps for its reply gives the lock away;
    here the device answers before anything else runs, and [VirtioInv] covers
    the queue under every interleaving. *)
From S2P Require Import Prelude Stuff Pm Virtio VirtioInv P9Msg P9.

Local Open Scope Z_scope.

Definition QSIZE : Z := 32.

Record PSt (D : Type) := mkPSt {
  p_q : Q;
  fid_bs : BitSet128.t;
  p_tag : Z;
  root_qid : QID;
  has_regs : bool;
  files : list File;
  dev : D;
  dev_pos : Z;
}.
Arguments mkPSt {D}.
Arguments p_q {D}.
Arguments fid_bs {D}.
Arguments p_tag {D}.
Arguments root_qid {D}.
Arguments has_regs {D}.
Arguments files {D}.
Arguments dev {D}.
Arguments dev_pos {D}.

(** The fields of [fs::Stat] that [File::stat] and [stat_inner] fill in. *)
Record FsStat := mkFsStat {
  fst_dev : Z; fst_size : Z; fst_atime : Z; fst_mtime : Z; fst_mode : Z;
  fst_uid : Z; fst_gid : Z; fst_nlink : Z; fst_blocks : Z; fst_blksize : Z; fst_ctime : Z;
}.

Definition fill_stat (s : Stat) : FsStat :=
  mkFsStat (st_dev s) (signed 64 (st_len s)) (st_atime s) (st_mtime s) (st_mode s) 1000 1000
           (if decide (q_kind (st_qid s) = DIR) then 2 else 1)
           (Z.quot (signed 64 (align_f (st_len s) 4096)) 4096) 4096 0.

(** [path.split('/').filter(|s| !s.is_empty()).collect()] *)
Fixpoint split_on (sep : Z) (s acc : list Z) : list (list Z) :=
  match s with
  | [] => [acc]
  | c :: s' => if c =? sep then acc :: split_on sep s' [] else split_on sep s' (acc ++ [c])
  end.

Definition path_to_wnames (path : list Z) : list (list Z) :=
  filter (λ w, w ≠ []) (split_on 47 path []).

(** [if wnames.len() > 1 { &wnames[0..wnames.len() - 1] } else { &["."] }] *)
Definition dir_wnames (wnames : list (list Z)) : list (list Z) :=
  if (1 <? length wnames)%nat then take (length wnames - 1) wnames else [[46]].

(** Parsing a qid at the cursor. *)
Definition read_qid : MM QID :=
  let! k := read_u8 in let! kb := unwrap k in let! kind := unwrap (qid_try_from kb) in
  let! v := read_u32 in let! ver := unwrap v in
  let! p := read_u64 in let! pth := unwrap p in
  ret (mkQID kind ver pth).

Definition resp_kind : MM Z := seek 4 ;;; let! k := read_u8 in unwrap k.

Fixpoint skips (n : nat) : MM unit :=
  match n with O => ret tt | S n' => skip 13 ;;; skips n' end.

(** ** [getdents64]: from 9p directory entries to Linux ones *)

(** [memcpy!] of [n] bytes out of a slice, then moving the slice on. *)
Definition copy_out (n : nat) (l : list Z) : outcome (list Z * list Z) :=
  if (n <=? length l)%nat then Done (take n l, drop n l) else Fault FUB.

(** [memcpy!] of bytes to the front of a slice with [room] bytes, then moving it on. *)
Definition copy_in (bs : list Z) (room : nat) (out : list Z) : outcome (nat * list Z) :=
  if (length bs <=? room)%nat then Done ((room - length bs)%nat, out ++ bs) else Fault FUB.

(** [wbuf[0] = b; wbuf = &mut wbuf[1..]] *)
Definition put_byte (b : Z) (room : nat) (out : list Z) : outcome (nat * list Z) :=
  if (1 <=? room)%nat then Done ((room - 1)%nat, out ++ [b]) else Fault FPanic.

(** The [while rbuf.len() > 0] loop; [out] is what was written, [room] what is
    left of the caller's buffer.  Every turn takes at least 24 bytes. *)
Fixpoint dents_loop (fuel : nat) (offt : Z) (rbuf : list Z) (room : nat) (out : list Z)
    (reclens dent_off : Z) : outcome (list Z * Z * Z) :=
  match rbuf, fuel with
  | [], _ => Done (out, reclens, dent_off)
  | _, O => Fault FFuel
  | _, S fuel' =>
      let? rbuf := if (5 <=? length rbuf)%nat then Done (drop 5 rbuf) else Fault FPanic in
      let? (ino, rbuf) := copy_out 8 rbuf in
      let? (off, rbuf) := copy_out 8 rbuf in
      let? (dt, rbuf) := match rbuf with b :: r => Done (b, r) | [] => Fault FPanic end in
      let? (nl, rbuf) := copy_out 2 rbuf in
      let name_len := of_le_bytes nl in
      let reclen := wrap 16 (8 + 8 + 3 + name_len + 1) in
      let? (room, out) := copy_in (le_bytes 8 (of_le_bytes ino)) room out in
      let? (room, out) := copy_in (le_bytes 8 offt) room out in
      let? (room, out) := copy_in (le_bytes 2 reclen) room out in
      let? (room, out) := put_byte dt room out in
      let? (name, rbuf) := copy_out (Z.to_nat name_len) rbuf in
      let? (room, out) := copy_in name room out in
      let? (room, out) := put_byte 0 room out in
      dents_loop fuel' offt rbuf room out (reclens + reclen) (of_le_bytes off)
  end.

Section ops.
Context {D : Type} `{Mmio D}.

(** The device: the reply it writes for a request into [room] bytes; what
    [vm::v2p] says of the buffer; the addresses of the buffer and of the [Msg]. *)
Context (device : D → list Z → nat → D * list Z).
Context (v2p : Z → option Z) (buf_ptr self_ptr : Z).

Definition PM9 := M (PSt D).

Definition on_q {A} (m : QM A) : PM9 A := λ s,
  match m (p_q s) with
  | Done (a, q) => Done (a, mkPSt q (fid_bs s) (p_tag s) (root_qid s) (has_regs s) (files s) (dev s) (dev_pos s))
  | Fault f => Fault f
  end.

Definition on_regs {A} (m : M D A) : PM9 A := λ s,
  match m (dev s) with
  | Done (a, d) => Done (a, mkPSt (p_q s) (fid_bs s) (p_tag s) (root_qid s) (has_regs s) (files s) d (dev_pos s))
  | Fault f => Fault f
  end.

Definition set_fids (bs : BitSet128.t) : PM9 unit :=
  modify (λ s, mkPSt (p_q s) bs (p_tag s) (root_qid s) (has_regs s) (files s) (dev s) (dev_pos s)).
Definition set_tag (t : Z) : PM9 unit :=
  modify (λ s, mkPSt (p_q s) (fid_bs s) t (root_qid s) (has_regs s) (files s) (dev s) (dev_pos s)).
Definition set_root (q : QID) : PM9 unit :=
  modify (λ s, mkPSt (p_q s) (fid_bs s) (p_tag s) q (has_regs s) (files s) (dev s) (dev_pos s)).
Definition set_regs : PM9 unit :=
  modify (λ s, mkPSt (p_q s) (fid_bs s) (p_tag s) (root_qid s) true (files s) (dev s) (dev_pos s)).

(** [FILES.as_mut()[i]], with the bounds check. *)
Definition set_file (i : Z) (f : File) : PM9 unit := λ s,
  let? fs := idx_set (files s) i f in
  Done (tt, mkPSt (p_q s) (fid_bs s) (p_tag s) (root_qid s) (has_regs s) fs (dev s) (dev_pos s)).
Definition get_file (i : Z) : PM9 File := λ s, let? f := idx_get (files s) i in Done (f, s).

Definition msg {A} (p : MM A) (m : Msg) : PM9 (A * Msg) := lift (p m).

(** ** [P9] *)
Definition alloc_fid : PM9 (option Z) :=
  let! s := get in
  let! r := lift (BitSet128.first_clr (fid_bs s)) in
  match r with
  | Some i => let! bs := lift (BitSet128.set (fid_bs s) i) in set_fids bs ;;; ret (Some i)
  | None => ret None
  end.

Definition fid_is_ok (fid : Z) : PM9 bool :=
  let! s := get in
  if fid <? BitSet128.len (fid_bs s) then lift (BitSet128.tst (fid_bs s) (wrap 8 fid)) else ret false.

Definition free_fid (fid : Z) : PM9 unit :=
  let! ok := fid_is_ok fid in
  assert_ ok ;;;
  let! s := get in
  let! bs := lift (BitSet128.clr (fid_bs s) (wrap 8 fid)) in
  set_fids bs.

Definition next_tag : PM9 Z :=
  let! s := get in set_tag (wadd 16 (p_tag s) 1) ;;; ret (p_tag s).

(** ** One request and its reply *)

(** The device's turn: it fetches the head, reads the request through the
    first descriptor, writes its reply through the second one (the same
    buffer) and completes the chain.  A descriptor longer than the buffer
    would make it read or write somebody else's memory. *)
Definition device_turn (b : list Z) : PM9 (list Z) := λ s,
  let q := p_q s in
  let? h := idx_get (av_ring (avail q)) (dev_pos s mod QSIZE) in
  let? d1 := idx_get (desc q) h in
  let? d2 := match get_next d1 with Some n => idx_get (desc q) n | None => Fault FUB end in
  let n1 := Z.to_nat (d_len d1) in
  let n2 := Z.to_nat (d_len d2) in
  if (length b <? n1)%nat || (length b <? n2)%nat then Fault FUB else
  let '(d', reply) := device (dev s) (take n1 b) n2 in
  let reply' := take n2 reply in
  Done (splice 0 reply' b,
    mkPSt (dev_complete QSIZE h (Z.of_nat (length reply')) q) (fid_bs s) (p_tag s) (root_qid s)
          (has_regs s) (files s) d' (wadd 16 (dev_pos s) 1)).

Definition irq_handle : PM9 (list Z) :=
  let! s := get in
  assert_ (has_regs s) ;;;
  let! irq_status := on_regs get_irq_status in
  if 0 <? Z.land irq_status 2 then panic
  else
    let! woken := on_q (irq_drain QSIZE (Z.to_nat QSIZE)) in
    on_regs (irq_ack irq_status) ;;;
    ret woken.

(** Two descriptors, the doorbell, and sleep until the interrupt handler wakes
    the owner of the message. *)
Definition transact (r : treq) (m : Msg) : PM9 Msg :=
  let! pa := unwrap (v2p buf_ptr) in
  let! _ := on_q (submit QSIZE pa (wrap 32 (Z.of_nat (tlen r))) (wrap 32 (Z.of_nat (rlen r))) (Some self_ptr)) in
  let! s := get in
  assert_ (has_regs s) ;;;
  on_regs (set_ready 0) ;;;
  on_regs (notify_q 0) ;;;
  let! b := device_turn (buf m) in
  let! woken := irq_handle in
  if decide (self_ptr ∈ woken) then ret (mkMsg b (pos m)) else fail FFuel.

(** Building the request, the round trip, and the kind of the reply. *)
Definition call (r : treq) : PM9 (Z * Msg) :=
  let! (_, m) := msg (build r) (msg_new (capacity r)) in
  let! m := transact r m in
  msg resp_kind m.

(** ** [mod ops] *)
Definition walk_inner (wnames : list (list Z)) : PM9 (option (Z * QID)) :=
  let! tag := next_tag in
  let! f := alloc_fid in let! fid := unwrap f in
  let! (k, m) := call (Twalk tag 0 fid wnames) in
  if negb (k =? op_code RWALK) then free_fid fid ;;; ret None
  else
    let! (n, m) := msg (seek 7 ;;; let! n := read_u16 in unwrap n) m in
    if negb (n =? Z.of_nat (length wnames)) then free_fid fid ;;; ret None
    else if n =? 0 then ret (Some (fid, qid_new))
    else
      let! (qid, _) := msg (skips (Z.to_nat n - 1) ;;; read_qid) m in
      ret (Some (fid, qid)).

Definition walk (path : list Z) : PM9 (option (Z * QID)) :=
  if (length path =? 0)%nat then ret None
  else
    let wnames := path_to_wnames path in
    if U16_MAX <? Z.of_nat (length wnames) then ret None else walk_inner wnames.

Definition open_fid (fid mode : Z) : PM9 (option (QID * Z)) :=
  let! ok := fid_is_ok fid in
  if negb ok then ret None
  else
    let! tag := next_tag in
    let! (k, m) := call (Topen tag fid mode) in
    if negb (k =? op_code ROPEN) then ret None
    else
      let! (r, _) := msg (seek 7 ;;; let! qid := read_qid in
                           let! i := read_u32 in let! iou := unwrap i in ret (qid, iou)) m in
      ret (Some r).

Definition remove_fid (fid : Z) : PM9 (option unit) :=
  let! ok := fid_is_ok fid in
  if negb ok then ret None
  else
    let! tag := next_tag in
    let! (_, m) := msg (build (Tremove tag fid)) (msg_new (capacity (Tremove tag fid))) in
    let! m := transact (Tremove tag fid) m in
    free_fid fid ;;;
    let! (k, _) := msg (let! k := resp_kind in seek 11 ;;; ret k) m in
    if negb (k =? op_code RREMOVE) then ret None else ret (Some tt).

(** [RWBuf::R(len)] or [RWBuf::W(data)]. *)
Inductive RWBuf := R (len : nat) | W (data : list Z).

Definition rw_len (b : RWBuf) : nat := match b with R n => n | W d => length d end.

(** The result is the count and, for a read, the bytes copied out. *)
Definition rw (fid : Z) (b : RWBuf) (offt : Z) : PM9 (option (Z * list Z)) :=
  let! ok := fid_is_ok fid in
  if negb ok then ret None
  else if U16_MAX <? Z.of_nat (rw_len b) then ret None
  else
    let! tag := next_tag in
    let! (k, m) := call (match b with
                          | R n => Tread tag fid offt (wrap 32 (Z.of_nat n))
                          | W d => Twrite tag fid offt d
                          end) in
    let want := match b with R _ => RREAD | W _ => RWRITE end in
    if negb (k =? op_code want) then ret None
    else
      let! (n, m) := msg (seek 7 ;;; let! n := read_u32 in unwrap n) m in
      match b with
      | R len =>
          assert_ (Z.to_nat n <=? len)%nat ;;;
          assert_ (pos m + Z.to_nat n <=? length (buf m))%nat ;;;
          ret (Some (n, take (Z.to_nat n) (drop (pos m) (buf m))))
      | W _ => ret (Some (n, []))
      end.

Definition read_fid (fid : Z) (len : nat) (offt : Z) : PM9 (option (Z * list Z)) := rw fid (R len) offt.
Definition write_fid (fid : Z) (data : list Z) (offt : Z) : PM9 (option (Z * list Z)) := rw fid (W data) offt.

Definition clunk_inner (fid : Z) : PM9 (option unit) :=
  let! ok := fid_is_ok fid in
  if negb ok then ret None
  else
    let! tag := next_tag in
    let! (_, m) := msg (build (Tclunk tag fid)) (msg_new (capacity (Tclunk tag fid))) in
    let! m := transact (Tclunk tag fid) m in
    free_fid fid ;;;
    let! (k, _) := msg resp_kind m in
    if negb (k =? op_code RCLUNK) then ret None else ret (Some tt).

Definition clunk (fid : Z) : PM9 (option unit) := clunk_inner fid.

(** [create], [mkdir], [symlink], [rename] and [link] start by walking to the
    directory of the path.  [def] is the deferred [clunk_inner(dir_fid)]. *)
Definition with_dir {A} (path : list Z) (k : Z → list Z → PM9 (option A)) : PM9 (option A) :=
  let wnames := path_to_wnames path in
  if (length wnames <? 1)%nat then ret None
  else
    let! w := walk_inner (dir_wnames wnames) in
    match w with
    | None => ret None
    | Some (dir_fid, _) =>
        let! name := unwrap (wnames !! (length wnames - 1)%nat) in
        k dir_fid name
    end.

(** Run the deferred clunk and return [r]. *)
Definition undefer {A} (dir_fid : Z) (r : option A) : PM9 (option A) :=
  let! _ := clunk_inner dir_fid in ret r.

Definition create (path : list Z) (perm mode gid : Z) : PM9 (option (Z * QID * Z)) :=
  with_dir path (λ dir_fid name,
    let! tag := next_tag in
    let! (k, m) := call (Tcreate tag dir_fid name 511 mode) in
    if negb (k =? op_code RCREATE) then undefer dir_fid None
    else
      let! (r, _) := msg (seek 7 ;;; let! qid := read_qid in
                          let! i := read_u32 in let! iou := unwrap i in ret (qid, iou)) m in
      ret (Some (dir_fid, r.1, r.2))).

Definition mkdir_op (path : list Z) (mode gid : Z) : PM9 (option QID) :=
  with_dir path (λ dir_fid name,
    let! tag := next_tag in
    let! (k, m) := call (Tmkdir tag dir_fid name mode gid) in
    if negb (k =? op_code RMKDIR) then undefer dir_fid None
    else
      let! (qid, _) := msg (seek 7 ;;; read_qid) m in
      undefer dir_fid (Some qid)).

Definition symlink_op (linkname path : list Z) : PM9 (option unit) :=
  with_dir path (λ dir_fid name,
    let! tag := next_tag in
    let! (k, _) := call (Tsymlink tag dir_fid name linkname 0) in
    undefer dir_fid (if k =? op_code RSYMLINK then Some tt else None)).

Definition rename_op (fid : Z) (path : list Z) : PM9 (option unit) :=
  with_dir path (λ dir_fid name,
    let! tag := next_tag in
    let! (k, _) := call (Trename tag fid dir_fid name) in
    undefer dir_fid (if k =? op_code RRENAME then Some tt else None)).

Definition link_op (fid : Z) (path : list Z) : PM9 (option unit) :=
  with_dir path (λ dir_fid name,
    let! tag := next_tag in
    let! (k, _) := call (Tlink tag dir_fid fid name) in
    undefer dir_fid (if k =? op_code RLINK then Some tt else None)).

Definition readdir (fid : Z) (len : nat) (offt : Z) : PM9 (option (list Z)) :=
  let! ok := fid_is_ok fid in
  if negb ok then ret None
  else if U16_MAX <? Z.of_nat len then ret None
  else
    let! tag := next_tag in
    let! (k, m) := call (Treaddir tag fid offt (wrap 32 (Z.of_nat len))) in
    if negb (k =? op_code RREADDIR) then ret None
    else
      let! (n, m) := msg (seek 7 ;;; let! n := read_u32 in unwrap n) m in
      assert_ (Z.to_nat n <=? len)%nat ;;;
      assert_ (pos m + Z.to_nat n <=? length (buf m))%nat ;;;
      ret (Some (take (Z.to_nat n) (drop (pos m) (buf m)))).

(** The file type bits for a qid; the other kinds are [todo!()]. *)
Definition mode_bits (k : QIDKind) : option Z :=
  match k with
  | DIR => Some 0x4000 | SYMLINK => Some 0xA000 | LINK | FILE => Some 0x8000 | _ => None
  end.

Definition parse_stat : MM Stat :=
  seek 11 ;;;
  let! r := read_u16 in let! kind := unwrap r in
  let! r := read_u32 in let! dv := unwrap r in
  let! qid := read_qid in
  let! r := read_u32 in let! mode := unwrap r in
  let! bits := unwrap (mode_bits (q_kind qid)) in
  let! r := read_u32 in let! atime := unwrap r in
  let! r := read_u32 in let! mtime := unwrap r in
  let! r := read_u64 in let! len := unwrap r in
  ret (mkStat kind dv qid (Z.lor mode bits) atime mtime len).

Definition stat_fid (fid : Z) : PM9 (option Stat) :=
  let! ok := fid_is_ok fid in
  if negb ok then ret None
  else
    let! tag := next_tag in
    let! (k, m) := call (Tstat tag fid) in
    if negb (k =? op_code RSTAT) then ret None
    else let! (st, _) := msg parse_stat m in ret (Some st).

Definition wstat (fid : Z) (st : Stat) : PM9 (option unit) :=
  let! ok := fid_is_ok fid in
  if negb ok then ret None
  else
    let! tag := next_tag in
    let! (k, _) := call (Twstat tag fid st) in
    ret (if k =? op_code RWSTAT then Some tt else None).

Definition readlink_fid (fid : Z) : PM9 (option (list Z)) :=
  let! ok := fid_is_ok fid in
  if negb ok then ret None
  else
    let! tag := next_tag in
    let! (k, m) := call (Treadlink tag fid) in
    if negb (k =? op_code RREADLINK) then ret None
    else let! (s, _) := msg (seek 7 ;;; let! s := read_str in unwrap s) m in ret (Some s).

(** ** Start-up: polled requests *)
Definition transact_poll (r : treq) (m : Msg) : PM9 Msg :=
  let! pa := unwrap (v2p buf_ptr) in
  let! old := gets (λ s, us_idx (used (p_q s))) in
  let! _ := on_q (submit QSIZE pa (wrap 32 (Z.of_nat (tlen r))) (wrap 32 (Z.of_nat (rlen r))) None) in
  let! s := get in
  assert_ (has_regs s) ;;;
  on_regs (set_ready 0) ;;;
  on_regs (notify_q 0) ;;;
  let! b := device_turn (buf m) in
  let! s := get in
  if us_idx (used (p_q s)) =? old then fail FFuel
  else
    on_q (pop_used QSIZE) ;;;
    let! irq_s := on_regs get_irq_status in
    on_regs (irq_ack irq_s) ;;;
    ret (mkMsg b (pos m)).

(** "9P2000.L" *)
Definition VERSION_STR : list Z := [57; 80; 50; 48; 48; 48; 46; 76].

Definition set_version : PM9 unit :=
  let r := Tversion U16_MAX VERSION_STR in
  let! (_, m) := msg (build r) (msg_new (capacity r)) in
  let! m := transact_poll r m in
  let! (k, m) := msg resp_kind m in
  let! (rv, _) := msg (seek 11 ;;; let! s := read_str in unwrap s) m in
  assert_ ((k =? op_code RVERSION) && bool_decide (rv = VERSION_STR)).

Definition attach : PM9 unit :=
  let! tag := next_tag in
  let r := Tattach tag 0 (wnot 32 0) [114; 111; 111; 116] [] 0 in
  let! (_, m) := msg (build r) (msg_new (capacity r)) in
  let! m := transact_poll r m in
  let! (k, m) := msg resp_kind m in
  assert_ (k =? op_code RATTACH) ;;;
  let! (q, _) := msg (seek 7 ;;; read_qid) m in
  set_root q.

Definition p9_init (used_pa avail_pa desc_pa : Z) : PM9 unit :=
  let! s := get in
  if has_regs s then ret tt
  else
    set_regs ;;;
    let! f := alloc_fid in
    let! _ := unwrap f in
    on_regs (init_dev_common 0) ;;;
    on_regs (set_q_len 0 (q_len QSIZE)) ;;;
    on_regs (set_used_area (area_paddr used_pa)) ;;;
    on_regs (set_avail_area (area_paddr avail_pa)) ;;;
    on_regs (set_desc_area (area_paddr desc_pa)) ;;;
    let! status := on_regs (rd STATUS) in
    on_regs (wr STATUS (Z.lor status DRIVER_OK)) ;;;
    set_version ;;;
    attach.

(** ** [impl File] *)
Definition file_read (f : File) (len : nat) (offt : Z) : PM9 (option (Z * list Z)) :=
  read_fid (f_fid f) (Nat.min (Z.to_nat (f_iou f)) len) offt.

Definition file_write (f : File) (data : list Z) (offt : Z) : PM9 (option (Z * list Z)) :=
  write_fid (f_fid f) (take (Nat.min (Z.to_nat (f_iou f)) (length data)) data) offt.

Definition file_close (i : Z) : PM9 (option unit) :=
  let! f := get_file i in
  let! r := clunk (f_fid f) in
  let! _ := unwrap r in
  set_file i (mkFile (f_fid f) (f_iou f) (f_qid f) None) ;;;
  ret (Some tt).

Definition get_size (f : File) : Z := match f_st f with Some st => st_len st | None => 0 end.

Definition file_stat (f : File) : option FsStat := fill_stat <$> f_st f.

Definition getdents64 (f : File) (len : nat) (offt : Z) : PM9 (option (list Z * Z * Z)) :=
  let! r := readdir (f_fid f) len offt in
  match r with
  | Some rbuf =>
      let! res := lift (dents_loop (length rbuf) offt rbuf len [] 0 0) in ret (Some res)
  | None => ret None
  end.

(** ** The interface to [fs.rs] *)
Definition truncate (path : list Z) (size : Z) : PM9 (option unit) :=
  let! w := walk path in
  match w with
  | Some (fid, _) =>
      let st := stat_dont_touch in
      let! res := wstat fid (mkStat (st_kind st) (st_dev st) (st_qid st) (st_mode st)
                                    (st_atime st) (st_mtime st) size) in
      let! c := clunk fid in
      let! _ := unwrap c in
      ret res
  | None => ret None
  end.

(** Each turn follows one link; the loop has no bound of its own. *)
Fixpoint follow_loop (fuel : nat) (target : list Z) : PM9 (option Z) :=
  match fuel with
  | O => fail FFuel
  | S fuel' =>
      let! w := walk target in
      match w with
      | Some (fid, qid) =>
          if decide (q_kind qid = SYMLINK) then
            let! t := readlink_fid fid in
            match t with
            | None => ret None
            | Some target' =>
                let! c := clunk fid in
                let! _ := unwrap c in
                follow_loop fuel' target'
            end
          else ret (Some fid)
      | None => ret None
      end
  end.

Definition follow_sym (fuel : nat) (fid : Z) : PM9 (option Z) :=
  let! t := readlink_fid fid in
  match t with Some target => follow_loop fuel target | None => ret None end.

Definition follow_fid (fuel : nat) (fid : Z) (qid : QID) : PM9 (option Z) :=
  if decide (q_kind qid = SYMLINK) then
    let! real := follow_sym fuel fid in
    let! c := clunk fid in
    let! _ := unwrap c in
    ret real
  else ret (Some fid).

(** [if follow { follow_fid(fid, &qid)? } else { fid }] *)
Definition follow_if (fuel : nat) (follow : bool) (fid : Z) (qid : QID) : PM9 (option Z) :=
  if follow then follow_fid fuel fid qid else ret (Some fid).

Definition link (fuel : nat) (from to : list Z) (follow : bool) : PM9 (option unit) :=
  let! w := walk from in
  match w with
  | None => ret None
  | Some (fid, qid) =>
      let! f := follow_if fuel follow fid qid in
      match f with
      | None => ret None
      | Some fid =>
          let! res := link_op fid to in
          let! c := clunk fid in
          let! _ := unwrap c in
          ret res
      end
  end.

Definition mkdir (path : list Z) (mode : Z) : PM9 (option unit) :=
  let! r := mkdir_op path mode 0 in ret (match r with Some _ => Some tt | None => None end).

Definition exists_path (path : list Z) : PM9 bool :=
  let! w := walk path in
  match w with
  | Some (fid, _) => let! c := clunk fid in let! _ := unwrap c in ret true
  | None => ret false
  end.

Definition symlink (linkname path : list Z) : PM9 (option unit) := symlink_op linkname path.

Definition rename (from to : list Z) : PM9 (option unit) :=
  let! w := walk from in
  match w with Some (fid, _) => rename_op fid to | None => ret None end.

Definition readlink (path : list Z) : PM9 (option (list Z)) :=
  let! w := walk path in
  match w with Some (fid, _) => readlink_fid fid | None => ret None end.

Definition remove (path : list Z) : PM9 (option unit) :=
  let! w := walk path in
  match w with Some (fid, _) => remove_fid fid | None => ret None end.

(** [file.fid = fid; file.iou = iou; file.qid = qid; file.st = ops::stat(fid).ok()] *)
Definition install (fid iou : Z) (qid : QID) : PM9 (option Z) :=
  let! f := get_file fid in
  let! st := stat_fid fid in
  set_file fid (mkFile fid iou qid st) ;;;
  ret (Some fid).

(** The returned [&'static mut File] is the index of the entry in [FILES]. *)
Definition open (fuel : nat) (path : list Z) (flags : Z) : PM9 (option Z) :=
  let mode := o2p9o flags in
  let follow := Z.land flags 0x8000 =? 0 in
  let! w := walk path in
  match w with
  | Some (fid, qid) =>
      let! f := follow_if fuel follow fid qid in
      match f with
      | None => ret None
      | Some fid =>
          let! o := open_fid fid mode in
          match o with
          | Some (qid, iou) => install fid iou qid
          | None => let! c := clunk fid in let! _ := unwrap c in ret None
          end
      end
  | None =>
      if negb (Z.land flags 0x40 =? 0) then
        let! c := create path 777 mode 0 in
        match c with
        | Some (fid, qid, iou) => install fid iou qid
        | None => ret None
        end
      else ret None
  end.

Definition stat_inner (fid : Z) : PM9 (option FsStat) :=
  let! st := stat_fid fid in ret (fill_stat <$> st).

Definition stat (fuel : nat) (path : list Z) (follow : bool) : PM9 (option FsStat) :=
  let! w := walk path in
  match w with
  | None => ret None
  | Some (fid, qid) =>
      let! f := follow_if fuel follow fid qid in
      match f with
      | None => ret None
      | Some fid =>
          let! res := stat_inner fid in
          let! c := clunk fid in
          let! _ := unwrap c in
          ret res
      end
  end.
End ops.
