(* ===== verification/P9Spec.v ===== *)
(** * The 9p client keeps its queue and its fids

    [pinv] is the invariant between operations: nothing is in flight on the
    queue and the fid set is well formed.  The triples follow the set of fids
    in use through every operation, whatever the device answers. *)
From S2P Require Import Prelude Stuff Pm Virtio VirtioInv P9Msg P9 P9Wire P9Ops.

Local Open Scope Z_scope.

(** ** Message programs fault only by a panic and keep the size of the buffer *)
Definition safe {A} (p : MM A) : Prop :=
  ∀ m, match p m with Done (_, m') => length (buf m') = length (buf m) | Fault f => f = FPanic end.

Section safe.
Lemma safe_ret {A} (a : A) : safe (ret a).
Proof. by intros m. Qed.

Lemma safe_bind {A B} (p : MM A) (k : A → MM B) : safe p → (∀ a, safe (k a)) → safe (bind p k).
Proof.
  intros Hp Hk m. specialize (Hp m). unfold bind. destruct (p m) as [[a m']|f]; [|done].
  specialize (Hk a m'). destruct (k a m') as [[b m'']|f]; [congruence|done].
Qed.

Lemma safe_unwrap {A} (o : option A) : safe (unwrap o).
Proof. intros m. by destruct o. Qed.

Lemma safe_gets {A} (g : Msg → A) : safe (gets g).
Proof. by intros m. Qed.

Lemma safe_get : safe get.
Proof. by intros m. Qed.

Lemma safe_read n : safe (read_n n).
Proof. intros m. unfold read_n. by destruct (_ <? _)%nat. Qed.

Lemma safe_slice bs : safe (write_slice bs).
Proof.
  intros m. unfold write_slice. destruct (Nat.ltb_spec (length (buf m)) (pos m + length bs)); [done|].
  simpl. by apply length_splice.
Qed.

Lemma safe_seek n : safe (seek n).
Proof. intros m. unfold seek. by destruct (_ <=? _)%nat. Qed.

Lemma safe_skip n : safe (skip n).
Proof. intros m. apply (safe_seek (pos m + n)). Qed.

Lemma safe_if {A} (b : bool) (p1 p2 : MM A) : safe p1 → safe p2 → safe (if b then p1 else p2).
Proof. by destruct b. Qed.
End safe.

Ltac msafe :=
  repeat first [ apply safe_bind; [|intros ?] | apply safe_ret | apply safe_unwrap | apply safe_gets
               | apply safe_get | apply safe_read | apply safe_slice | apply safe_seek | apply safe_skip
               | apply safe_if ].

Section programs.
Lemma safe_str s : safe (write_str s).
Proof. unfold write_str, write_u16. msafe. Qed.

Lemma safe_strs ws : safe (write_strs ws).
Proof. induction ws; simpl; msafe; done. Qed.

Lemma safe_hdr len op tag : safe (hdr len op tag).
Proof. unfold hdr, write_u32, write_u8, write_u16. msafe. Qed.

Lemma safe_patch : safe patch_len.
Proof. unfold patch_len, tell, write_u32. msafe. Qed.

Lemma safe_build r : safe (build r).
Proof.
  unfold build, write_u8, write_u16, write_u32, write_u64.
  destruct r; repeat first [ apply safe_hdr | apply safe_strs | apply safe_str | apply safe_patch | progress msafe ].
Qed.

Lemma safe_read_str : safe read_str.
Proof. unfold read_str, read_u16. msafe. Qed.

Lemma safe_qid : safe read_qid.
Proof. unfold read_qid, read_u8, read_u32, read_u64. msafe. Qed.

Lemma safe_kind : safe resp_kind.
Proof. unfold resp_kind, read_u8. msafe. Qed.

Lemma safe_skips n : safe (skips n).
Proof. induction n; simpl; msafe; done. Qed.

Lemma safe_parse_stat : safe parse_stat.
Proof. unfold parse_stat, read_u16, read_u32, read_u64. repeat first [apply safe_qid | progress msafe]. Qed.
End programs.

(** ** The state between operations *)
Record pinv {D} (s : PSt D) : Prop := {
  pi_q : ∃ W, qinv QSIZE (p_q s) (dev_pos s) [] [] [] W;
  pi_fids : BitSet128.wf (fid_bs s);
  pi_len : BitSet128.len (fid_bs s) = 128;
  pi_regs : has_regs s = true;
  pi_files : length (files s) = 128%nat;
}.

(** What a round trip leaves alone. *)
Definition core {D} (s : PSt D) : BitSet128.t * Z * QID * bool * list File :=
  (fid_bs s, p_tag s, root_qid s, has_regs s, files s).

Definition doorbell {D} `{Mmio D} (d : D) : D :=
  reg_write (reg_write (reg_write (reg_write d QUEUESEL 0) QUEUEREADY 1) QUEUESEL 0) QUEUENOTIFY 0.

(** The 32-bit length field of a descriptor. *)
Definition wl (n : nat) : nat := Z.to_nat (wrap 32 (Z.of_nat n)).

Lemma wl_le n : (wl n ≤ n)%nat.
Proof. unfold wl, wrap. pose proof (Z.mod_le (Z.of_nat n) (2 ^ 32)). lia. Qed.

Lemma wl_small n : Z.of_nat n < 2 ^ 32 → wl n = n.
Proof. intros. unfold wl. rewrite wrap_small by lia. lia. Qed.

Lemma qs_ok : 2 ≤ QSIZE ≤ 128 ∧ (QSIZE | 65536) ∧ (2 | QSIZE).
Proof. apply n32. Qed.

Section round_trip.
Context {D : Type} `{Mmio D}.
Context (device : D → list Z → nat → D * list Z).
Context (v2p : Z → option Z) (buf_ptr self_ptr : Z) (Hself : self_ptr ≠ 0).

Lemma pinv_core (s s' : PSt D) W :
  pinv s → core s' = core s → qinv QSIZE (p_q s') (dev_pos s') [] [] [] W → pinv s'.
Proof using Type.
  intros [_ H1 H2 H3 H4] [= E1 E2 E3 E4 E5] Q0. split; [by exists W|congruence..].
Qed.

(** The submission, seen from the device. *)
Lemma submit_idle (s : PSt D) pa t r w :
  pinv s →
  ∃ j q' W' n, submit QSIZE pa t r (Some w) (p_q s) = Done (j, q') ∧
    qinv QSIZE q' (dev_pos s) [j] [] [] W' ∧ W' j = w ∧
    av_ring (avail q') !! Z.to_nat (dev_pos s mod QSIZE) = Some j ∧
    desc q' !! Z.to_nat j = Some (mkDesc pa t F_NEXT (j + 1)) ∧
    desc q' !! Z.to_nat (j + 1) = Some (mkDesc pa r F_WRITE n).
Proof using Type.
  intros [[W Q0] _ _ _ _]. destruct qs_ok as (B1 & B2 & B3).
  destruct (submit_dec QSIZE B1 B2 B3 _ _ _ _ _ _ pa t r w Q0)
    as [(j & q' & E & _ & Q1 & (n & Hd1 & Hd2) & _)|[Hfull _]]; [|done].
  exists j, q', (wset W j w), n. split_and!; try done.
  - unfold wset. by rewrite decide_True.
  - eapply ring_head. by eapply qi_avail.
Qed.

Lemma transact_run (s : PSt D) r m pa d' reply :
  pinv s → v2p buf_ptr = Some pa → (tlen r ≤ length (buf m))%nat → (rlen r ≤ length (buf m))%nat →
  device (doorbell (dev s)) (take (wl (tlen r)) (buf m)) (wl (rlen r)) = (d', reply) →
  let irq := reg_read d' INTERRUPTSTATUS in
  if 0 <? Z.land irq 2 then transact device v2p buf_ptr self_ptr r m s = Fault FPanic
  else ∃ s', transact device v2p buf_ptr self_ptr r m s
             = Done (mkMsg (splice 0 (take (wl (rlen r)) reply) (buf m)) (pos m), s') ∧
       pinv s' ∧ core s' = core s ∧ dev s' = reg_write d' INTERRUPTACK irq.
Proof using Hself.
  intros Hp Hv Hbt Hbr Hdev irq. destruct qs_ok as (B1 & B2 & B3).
  destruct (submit_idle s pa (wrap 32 (Z.of_nat (tlen r))) (wrap 32 (Z.of_nat (rlen r))) self_ptr Hp)
    as (j & q' & W' & n & Es & Q1 & HW & Hring & Hd1 & Hd2).
  pose proof (wl_le (tlen r)). pose proof (wl_le (rlen r)).
  pose proof (complete_inv QSIZE B1 B2 B3 _ _ _ [] j [] [] W' (Z.of_nat (length (take (wl (rlen r)) reply)))
    (fetch_inv QSIZE B1 B2 _ _ _ _ _ _ _ Q1)) as Q2. simpl in Q2.
  destruct (irq_drain_run QSIZE B1 B2 B3 _ (Z.to_nat QSIZE) _ _ _ _ _ Q2) as (q'' & Ed & Q3); [simpl; lia|].
  assert (filter (λ w, w ≠ 0) (W' <$> [j]) = [self_ptr]) as Ew.
  { simpl. rewrite HW, filter_cons_True, filter_nil by done. done. }
  rewrite Ew in Ed.
  assert (transact device v2p buf_ptr self_ptr r m s =
    if 0 <? Z.land irq 2 then Fault FPanic else
    Done (mkMsg (splice 0 (take (wl (rlen r)) reply) (buf m)) (pos m),
      mkPSt q'' (fid_bs s) (p_tag s) (root_qid s) (has_regs s) (files s)
            (reg_write d' INTERRUPTACK irq) (wadd 16 (dev_pos s) 1))) as E.
  { unfold transact. rewrite Hv. mstep. unfold on_q at 1, bind at 1. rewrite Es.
    mstep. simpl has_regs. rewrite (pi_regs s Hp). mstep. unfold bind at 1, on_regs at 1. simpl.
    unfold bind at 1, on_regs at 1. simpl. unfold bind at 1, device_turn. simpl.
    fold (doorbell (dev s)). unfold idx_get. rewrite Hring. simpl. rewrite Hd1. simpl. rewrite Hd2. simpl.
    fold (wl (tlen r)) (wl (rlen r)). rewrite !(proj2 (Nat.ltb_ge _ _)) by lia. rewrite Hdev. simpl. unfold bind at 1, irq_handle.
    set (drain := irq_drain QSIZE (Z.to_nat QSIZE)) in *. clearbody drain. mstep. simpl has_regs. mstep. unfold bind at 1, on_regs at 1. simpl. fold irq.
    destruct (0 <? Z.land irq 2); [done|]. unfold bind at 1, on_q. simpl p_q. rewrite Ed. simpl.
    rewrite decide_True by set_solver. done. }
  destruct (0 <? Z.land irq 2); [done|]. eexists. split; [exact E|].
  split; [|done]. by eapply pinv_core.
Qed.
End round_trip.
