(* ===== verification/P9Fids.v ===== *)
(** * Fids: no operation of the 9p client loses or invents one

    Triples for the operations of [P9Ops]: the state [St F T] has the set [F]
    of fids in use, the file table [T] and an idle queue.  They hold for every
    device: a reply can only make an operation fail or panic. *)
From S2P Require Import Prelude Stuff Pm Virtio VirtioInv P9Msg P9 P9Wire P9Ops P9Spec.

Local Open Scope Z_scope.

Definition fids {D} (s : PSt D) : gset Z :=
  list_to_set (filter (λ i, BitSet128.mem (fid_bs s) i = true) (seqZ 0 128)).

Definition St {D} (F : gset Z) (T : list File) (s : PSt D) : Prop :=
  pinv s ∧ fids s = F ∧ files s = T.

Section base.
Context {D : Type} `{Mmio D}.
Implicit Types (s : PSt D) (F : gset Z) (T : list File).

Lemma elem_of_fids s i : i ∈ fids s ↔ 0 ≤ i < 128 ∧ BitSet128.mem (fid_bs s) i = true.
Proof using Type. unfold fids. rewrite elem_of_list_to_set, list_elem_of_filter, elem_of_seqZ. naive_solver lia. Qed.

Lemma fids_core s s' : core s' = core s → fids s' = fids s ∧ files s' = files s.
Proof using Type. intros [= E1 E2 E3 E4 E5]. unfold fids. by rewrite E1. Qed.

(** Changing only the fid set. *)
Lemma St_fids F F' T s bs :
  St F T s → BitSet128.wf bs → BitSet128.len bs = 128 →
  (∀ i, i ∈ F' ↔ 0 ≤ i < 128 ∧ BitSet128.mem bs i = true) →
  St F' T (mkPSt (p_q s) bs (p_tag s) (root_qid s) (has_regs s) (files s) (dev s) (dev_pos s)).
Proof using Type.
  intros ([Hq Hw Hl Hr Hf] & _ & HT) Hw' Hl' HF. split; [by split|]. split; [|done].
  apply set_eq. intros i. by rewrite elem_of_fids, HF.
Qed.

Lemma alloc_fid_triple F T :
  triple (St F T) (alloc_fid (D := D)) (λ r s,
    match r with
    | Some i => i ∉ F ∧ 0 ≤ i < 128 ∧ St ({[i]} ∪ F) T s
    | None => St F T s ∧ ∀ i, 0 ≤ i < 128 → i ∈ F
    end).
Proof using Type.
  intros s Hst. pose proof Hst as (Hp & HF & HT). pose proof (pi_len s Hp) as Hlen.
  destruct (BitSet128.first_clr_ok _ (pi_fids s Hp)) as (r & Er & Hr).
  unfold alloc_fid. mstep. unfold lift at 1, bind at 1. rewrite Er. destruct r as [i|].
  - destruct Hr as (Hi & Hm & _). rewrite Hlen in Hi.
    destruct (BitSet128.set_ok _ (pi_fids s Hp) i) as (bs & Es & Hw & Hl & HM); [lia|].
    unfold lift, bind. rewrite Es. simpl. split; [|split; [done|]].
    + rewrite <- HF, elem_of_fids. intros [_ ?]. congruence.
    + eapply St_fids; [done|done|congruence|]. intros j. rewrite HM, orb_true_iff, bool_decide_eq_true.
      rewrite elem_of_union, elem_of_singleton, <- HF, elem_of_fids. naive_solver.
  - simpl. split; [done|]. intros i Hi. rewrite <- HF, elem_of_fids. split; [done|]. apply Hr. lia.
Qed.

Lemma fid_is_ok_triple F T fid :
  0 ≤ fid → triple (St F T) (fid_is_ok (D := D) fid) (λ b s, St F T s ∧ b = bool_decide (fid ∈ F)).
Proof using Type.
  intros Hfid s Hst. pose proof Hst as (Hp & HF & HT). pose proof (pi_len s Hp) as Hlen.
  unfold fid_is_ok. mstep. rewrite Hlen. destruct (Z.ltb_spec fid 128).
  - rewrite wrap_small by lia. unfold lift. rewrite BitSet128.tst_mem by lia. split; [done|].
    destruct (BitSet128.mem _ _) eqn:E; symmetry.
    + apply bool_decide_eq_true. rewrite <- HF. by apply elem_of_fids.
    + apply bool_decide_eq_false. rewrite <- HF, elem_of_fids. intros [_ ?]. congruence.
  - simpl. split; [done|]. symmetry. apply bool_decide_eq_false. rewrite <- HF, elem_of_fids. lia.
Qed.

Lemma free_fid_triple F T fid :
  0 ≤ fid → triple (St F T) (free_fid (D := D) fid) (λ _ s, fid ∈ F ∧ St (F ∖ {[fid]}) T s).
Proof using Type.
  intros Hfid. unfold free_fid. eapply triple_bind; [by apply fid_is_ok_triple|]. intros b.
  eapply triple_bind; [apply triple_assert|]. intros _ s ((Hst & Eb) & ->).
  symmetry in Eb. apply bool_decide_eq_true in Eb. pose proof Hst as (Hp & HF & HT).
  pose proof (pi_len s Hp) as Hlen. rewrite <- HF in Eb. apply elem_of_fids in Eb as [Hr Hm].
  destruct (BitSet128.clr_ok _ (pi_fids s Hp) fid) as (bs & Es & Hw & Hl & HM); [lia|].
  mstep. rewrite wrap_small by lia. unfold lift, bind. rewrite Es. simpl. split.
  - rewrite <- HF. by apply elem_of_fids.
  - eapply St_fids; [done|done|congruence|]. intros j.
    rewrite elem_of_difference, elem_of_singleton, <- HF, elem_of_fids. split.
    + intros [[Hj Hmj] Hne]. split; [done|]. rewrite HM by done. by rewrite bool_decide_eq_false_2.
    + intros [Hj Hmj]. rewrite HM in Hmj by done. apply andb_true_iff in Hmj as [Hn Hmj].
      apply negb_true_iff, bool_decide_eq_false in Hn. done.
Qed.

Lemma next_tag_triple F T : triple (St F T) (next_tag (D := D)) (λ _ s, St F T s).
Proof using Type.
  intros s ([H1 H2 H3 H4 H5] & HF & HT). simpl. split; [by split|]. done.
Qed.

Lemma msg_triple {A} P (p : MM A) m :
  safe p → triple P (msg (D := D) p m) (λ r s, P s ∧ length (buf r.2) = length (buf m)).
Proof using Type.
  intros Hp s Hs. specialize (Hp m). unfold msg, lift. by destruct (p m) as [[a m']|].
Qed.

Definition ordinary (r : treq) : Prop := match r with Tattach _ _ _ _ _ _ => False | _ => True end.

Lemma capacity_ok r : ordinary r → (tlen r ≤ capacity r ∧ rlen r ≤ capacity r)%nat.
Proof using Type. destruct r; cbn [ordinary capacity]; intros; try done; lia. Qed.

Context (device : D → list Z → nat → D * list Z).
Context (v2p : Z → option Z) (buf_ptr self_ptr : Z).
Context (Hself : self_ptr ≠ 0).

Lemma transact_triple F T r m :
  (tlen r ≤ length (buf m))%nat → (rlen r ≤ length (buf m))%nat →
  triple (St F T) (transact device v2p buf_ptr self_ptr r m) (λ _ s, St F T s).
Proof using Hself.
  intros Ht Hr s (Hp & HF & HT). destruct (v2p buf_ptr) as [pa|] eqn:Hv; [|by unfold transact; rewrite Hv].
  destruct (device (doorbell (dev s)) (take (wl (tlen r)) (buf m)) (wl (rlen r))) as [d' reply] eqn:Hd.
  pose proof (transact_run device v2p buf_ptr self_ptr Hself s r m pa d' reply Hp Hv Ht Hr Hd) as E.
  cbv zeta in E. destruct (0 <? _); [by rewrite E|]. destruct E as (s' & -> & Hp' & Hc & _).
  destruct (fids_core _ _ Hc) as [E1 E2]. split; [done|]. split; congruence.
Qed.

Lemma call_triple F T r :
  ordinary r → triple (St F T) (call device v2p buf_ptr self_ptr r) (λ _ s, St F T s).
Proof using Hself.
  intros Ho. destruct (capacity_ok r Ho) as [H1 H2]. unfold call.
  eapply triple_bind; [apply msg_triple, safe_build|]. intros [u m]. apply triple_pure. intros Hl.
  simpl in Hl. rewrite length_replicate in Hl.
  eapply triple_bind; [apply transact_triple; lia|]. intros m'.
  eapply triple_conseq; [apply msg_triple, safe_kind|done|naive_solver].
Qed.

(** ** The requests *)
Notation WALK := (walk_inner device v2p buf_ptr self_ptr).
Notation CLUNK := (clunk_inner device v2p buf_ptr self_ptr).

Definition new_fid {A} (F : gset Z) (T : list File) (fid_of : A → Z) (r : option A) (s : PSt D) : Prop :=
  match r with
  | Some a => fid_of a ∉ F ∧ 0 ≤ fid_of a < 128 ∧ St ({[fid_of a]} ∪ F) T s
  | None => St F T s
  end.

(** Giving back the fid just taken. *)
Lemma unalloc_triple {A} F T fid (r : A) :
  0 ≤ fid → fid ∉ F →
  triple (St ({[fid]} ∪ F) T) (free_fid (D := D) fid ;;; ret r) (λ r' s, St F T s ∧ r' = r).
Proof using All.
  intros Hfid Hn. eapply triple_bind; [by apply free_fid_triple|]. intros u. apply triple_ret.
  intros s [_ Hst]. replace (({[fid]} ∪ F) ∖ {[fid]}) with F in Hst by set_solver. done.
Qed.

Lemma walk_inner_triple F T ws : triple (St F T) (WALK ws) (new_fid F T fst).
Proof using All.
  unfold walk_inner. eapply triple_bind; [apply next_tag_triple|]. intros tag.
  eapply triple_bind; [apply alloc_fid_triple|]. intros r.
  eapply triple_bind; [apply triple_unwrap|]. intros fid. apply triple_pure. intros ->.
  intros s (Hn & Hr & Hst). simpl in Hn, Hr, Hst. revert s Hst. change (triple (St ({[fid]} ∪ F) T)
    (let! (k, m) := call device v2p buf_ptr self_ptr (Twalk tag 0 fid ws) in
     if negb (k =? op_code RWALK) then free_fid fid ;;; ret None
     else
       let! (n, m) := msg (seek 7 ;;; let! n := read_u16 in unwrap n) m in
       if negb (n =? Z.of_nat (length ws)) then free_fid fid ;;; ret None
       else if n =? 0 then ret (Some (fid, qid_new))
       else
         let! (qid, _) := msg (skips (Z.to_nat n - 1) ;;; read_qid) m in
         ret (Some (fid, qid))) (new_fid F T fst)).
  assert (triple (St ({[fid]} ∪ F) T) (free_fid (D := D) fid ;;; ret None) (new_fid (A := Z * QID) F T fst)) as Hfree.
  { eapply triple_conseq; [apply (unalloc_triple F T fid None); lia || done|done|]. by intros r s' [? ->]. }
  eapply triple_bind; [by apply call_triple|]. intros [k m].
  destruct (negb (k =? _)); [exact Hfree|].
  eapply triple_bind; [apply msg_triple; unfold read_u16; msafe|]. intros [n m']. apply triple_pure. intros _.
  destruct (negb _); [exact Hfree|]. destruct (n =? 0); [by apply triple_ret|].
  eapply triple_bind; [apply msg_triple, safe_bind; [apply safe_skips|intros; apply safe_qid]|].
  intros [qid m'']. apply triple_ret. intros s [Hst _]. done.
Qed.

Lemma walk_triple F T path :
  triple (St F T) (walk device v2p buf_ptr self_ptr path) (new_fid F T fst).
Proof using All.
  unfold walk. destruct (_ =? _)%nat; [by apply triple_ret|].
  destruct (U16_MAX <? _); [by apply triple_ret|]. apply walk_inner_triple.
Qed.

(** [clunk] on a fid in use takes it out, whatever the reply; on any other it fails. *)
Lemma clunk_triple F T fid :
  0 ≤ fid →
  triple (St F T) (CLUNK fid) (λ r s, if decide (fid ∈ F) then St (F ∖ {[fid]}) T s else St F T s ∧ r = None).
Proof using All.
  intros Hfid. unfold clunk_inner. eapply triple_bind; [by apply fid_is_ok_triple|]. intros b.
  apply triple_pure. intros ->. destruct (decide (fid ∈ F)) as [Hin|Hn].
  - rewrite bool_decide_eq_true_2 by done. cbn [negb].
    eapply triple_bind; [apply next_tag_triple|]. intros tag.
    eapply triple_bind; [apply msg_triple, safe_build|]. intros [u m]. apply triple_pure. intros Hl. simpl in Hl.
    eapply triple_bind; [apply transact_triple; cbn [tlen rlen snd]; rewrite Hl; simpl; lia|]. intros m'.
    eapply triple_bind; [by apply free_fid_triple|]. intros v.
    eapply triple_bind; [apply msg_triple, safe_kind|]. intros [k m''].
    apply triple_if; apply triple_ret; naive_solver.
  - rewrite bool_decide_eq_false_2 by done. by apply triple_ret.
Qed.

(** One step of an operation that leaves fids and files alone. *)
Ltac same_step :=
  lazymatch goal with
  | |- triple _ (ret _) _ => apply triple_ret
  | |- triple _ (if ?b then _ else _) _ => destruct b
  | |- triple _ (bind next_tag _) _ => eapply triple_bind; [apply next_tag_triple|intros ?]
  | |- triple _ (bind (call _ _ _ _ _) _) _ => eapply triple_bind; [by apply call_triple|intros [? ?]]
  | |- triple _ (bind (msg _ _) _) _ =>
      eapply triple_bind; [apply msg_triple|intros [? ?]; apply triple_pure; intros _]
  | |- triple _ (bind (assert_ _) _) _ =>
      eapply triple_bind; [apply triple_assert|intros ?; apply triple_pure; intros _]
  | |- triple _ (bind (fid_is_ok _) _) _ =>
      eapply triple_bind; [by apply fid_is_ok_triple|intros ?; apply triple_pure; intros _]
  end.

Ltac same := unfold read_u8, read_u16, read_u32, read_u64; repeat same_step; try done; try (repeat first
  [apply safe_qid | apply safe_read_str | apply safe_parse_stat | progress msafe]).

Lemma open_fid_triple F T fid mode :
  0 ≤ fid → triple (St F T) (open_fid device v2p buf_ptr self_ptr fid mode) (λ _ s, St F T s).
Proof using All. intros Hfid. unfold open_fid. same. Qed.

Lemma rw_triple F T fid b offt :
  0 ≤ fid → triple (St F T) (rw device v2p buf_ptr self_ptr fid b offt) (λ _ s, St F T s).
Proof using All. intros Hfid. unfold rw. destruct b; same. Qed.

Lemma readdir_triple F T fid len offt :
  0 ≤ fid → triple (St F T) (readdir device v2p buf_ptr self_ptr fid len offt) (λ _ s, St F T s).
Proof using All. intros Hfid. unfold readdir. same. Qed.

Lemma stat_fid_triple F T fid :
  0 ≤ fid → triple (St F T) (stat_fid device v2p buf_ptr self_ptr fid) (λ _ s, St F T s).
Proof using All. intros Hfid. unfold stat_fid. same. Qed.

Lemma wstat_triple F T fid st :
  0 ≤ fid → triple (St F T) (wstat device v2p buf_ptr self_ptr fid st) (λ _ s, St F T s).
Proof using All. intros Hfid. unfold wstat. same. Qed.

Lemma readlink_fid_triple F T fid :
  0 ≤ fid → triple (St F T) (readlink_fid device v2p buf_ptr self_ptr fid) (λ _ s, St F T s).
Proof using All. intros Hfid. unfold readlink_fid. same. Qed.

Lemma remove_fid_triple F T fid :
  0 ≤ fid → fid ∈ F →
  triple (St F T) (remove_fid device v2p buf_ptr self_ptr fid) (λ _ s, St (F ∖ {[fid]}) T s).
Proof using All.
  intros Hfid Hin. unfold remove_fid. eapply triple_bind; [by apply fid_is_ok_triple|]. intros b.
  apply triple_pure. intros ->. rewrite bool_decide_eq_true_2 by done. cbn [negb].
  eapply triple_bind; [apply next_tag_triple|]. intros tag.
  eapply triple_bind; [apply msg_triple, safe_build|]. intros [u m]. apply triple_pure. intros Hl. simpl in Hl.
  eapply triple_bind; [apply transact_triple; cbn [tlen rlen snd]; rewrite Hl; simpl; lia|]. intros m'.
  eapply triple_bind; [by apply free_fid_triple|]. intros v s [_ Hst]. revert s Hst.
  change (triple (St (F ∖ {[fid]}) T)
    (let! (k, _) := msg (let! k := resp_kind in seek 11 ;;; ret k) m' in
     if negb (k =? op_code RREMOVE) then ret None else ret (Some tt)) (λ _ s, St (F ∖ {[fid]}) T s)).
  same.
Qed.

(** The deferred clunk of the directory. *)
Lemma undefer_triple {A} F T fid (r : option A) :
  0 ≤ fid → fid ∉ F →
  triple (St ({[fid]} ∪ F) T) (undefer device v2p buf_ptr self_ptr fid r) (λ r' s, St F T s ∧ r' = r).
Proof using All.
  intros Hfid Hn. unfold undefer. eapply triple_bind; [by apply clunk_triple|]. intros c. apply triple_ret.
  intros s. rewrite decide_True by set_solver. intros Hst.
  replace (({[fid]} ∪ F) ∖ {[fid]}) with F in Hst by set_solver. done.
Qed.

Lemma with_dir_triple {A} F T path (k : Z → list Z → PM9 (D := D) (option A)) (Q : option A → PSt D → Prop) :
  (∀ s, St F T s → Q None s) →
  (∀ fid name, 0 ≤ fid < 128 → fid ∉ F → triple (St ({[fid]} ∪ F) T) (k fid name) Q) →
  triple (St F T) (with_dir device v2p buf_ptr self_ptr path k) Q.
Proof using All.
  intros HN Hk. unfold with_dir. destruct (_ <? _)%nat; [by apply triple_ret|].
  eapply triple_bind; [apply walk_inner_triple|]. intros [[fid qid]|]; [|by apply triple_ret].
  intros s (Hn & Hr & Hst). simpl in Hn, Hr, Hst. revert s Hst. eapply triple_bind; [apply triple_unwrap|]. intros name.
  apply triple_pure. intros _. by apply Hk.
Qed.

Lemma undefer_same {A} F T fid (r : option A) :
  0 ≤ fid < 128 → fid ∉ F →
  triple (St ({[fid]} ∪ F) T) (undefer device v2p buf_ptr self_ptr fid r) (λ _ s, St F T s).
Proof using All.
  intros Hr Hn. eapply triple_conseq; [apply undefer_triple; lia || done|done|naive_solver].
Qed.

Lemma create_triple F T path perm mode gid :
  triple (St F T) (create device v2p buf_ptr self_ptr path perm mode gid) (new_fid F T (λ r, r.1.1)).
Proof using All.
  apply with_dir_triple; [done|]. intros fid name Hr Hn. same.
  - eapply triple_conseq; [apply undefer_triple; lia || done|done|]. by intros r s [? ->].
Qed.

Lemma mkdir_op_triple F T path mode gid :
  triple (St F T) (mkdir_op device v2p buf_ptr self_ptr path mode gid) (λ _ s, St F T s).
Proof using All. apply with_dir_triple; [done|]. intros fid name Hr Hn. same; by apply undefer_same. Qed.

Lemma symlink_op_triple F T linkname path :
  triple (St F T) (symlink_op device v2p buf_ptr self_ptr linkname path) (λ _ s, St F T s).
Proof using All. apply with_dir_triple; [done|]. intros fid name Hr Hn. same; by apply undefer_same. Qed.

Lemma rename_op_triple F T fid path :
  triple (St F T) (rename_op device v2p buf_ptr self_ptr fid path) (λ _ s, St F T s).
Proof using All. apply with_dir_triple; [done|]. intros dfid name Hr Hn. same; by apply undefer_same. Qed.

Lemma link_op_triple F T fid path :
  triple (St F T) (link_op device v2p buf_ptr self_ptr fid path) (λ _ s, St F T s).
Proof using All. apply with_dir_triple; [done|]. intros dfid name Hr Hn. same; by apply undefer_same. Qed.

(** ** The interface to [fs.rs] *)

(** [clunk(fid).unwrap()] of the fid an operation walked to. *)
Lemma clunk_unwrap {A} F T fid (r : A) :
  0 ≤ fid < 128 → fid ∉ F →
  triple (St ({[fid]} ∪ F) T)
    (let! c := clunk device v2p buf_ptr self_ptr fid in let! _ := unwrap c in ret r) (λ r' s, St F T s ∧ r' = r).
Proof using All.
  intros Hr Hn. eapply triple_bind; [apply clunk_triple; lia|]. intros c.
  eapply triple_bind; [apply triple_unwrap|]. intros u. apply triple_ret. intros s [Hst _].
  rewrite decide_True in Hst by set_solver.
  replace (({[fid]} ∪ F) ∖ {[fid]}) with F in Hst by set_solver. done.
Qed.

(** Walk, use the fid, clunk it: the shape of most operations. *)
Lemma walk_use_clunk {A} F T path (none : A) (k : Z → QID → PM9 (D := D) A) :
  (∀ fid qid, 0 ≤ fid < 128 → fid ∉ F → triple (St ({[fid]} ∪ F) T) (k fid qid) (λ _ s, St F T s)) →
  triple (St F T)
    (let! w := walk device v2p buf_ptr self_ptr path in
     match w with Some (fid, qid) => k fid qid | None => ret none end) (λ _ s, St F T s).
Proof using All.
  intros Hk. eapply triple_bind; [apply walk_triple|]. intros [[fid qid]|]; [|by apply triple_ret].
  intros s (Hn & Hr & Hst). by apply Hk.
Qed.

Lemma then_clunk {A} F T fid (m : PM9 (D := D) A) :
  0 ≤ fid < 128 → fid ∉ F →
  triple (St ({[fid]} ∪ F) T) m (λ _ s, St ({[fid]} ∪ F) T s) →
  triple (St ({[fid]} ∪ F) T)
    (let! res := m in let! c := clunk device v2p buf_ptr self_ptr fid in let! _ := unwrap c in ret res)
    (λ _ s, St F T s).
Proof using All.
  intros Hr Hn Hm. eapply triple_bind; [exact Hm|]. intros res.
  eapply triple_conseq; [by apply clunk_unwrap|done|naive_solver].
Qed.

Lemma truncate_triple F T path sz :
  triple (St F T) (truncate device v2p buf_ptr self_ptr path sz) (λ _ s, St F T s).
Proof using All.
  apply walk_use_clunk. intros fid qid Hr Hn.
  apply then_clunk; [done..|]. apply wstat_triple. lia.
Qed.

Lemma exists_triple F T path :
  triple (St F T) (exists_path device v2p buf_ptr self_ptr path) (λ _ s, St F T s).
Proof using All.
  apply walk_use_clunk. intros fid qid Hr Hn.
  eapply triple_conseq; [by apply clunk_unwrap|done|naive_solver].
Qed.

Lemma stat_triple F T fuel path :
  triple (St F T) (stat device v2p buf_ptr self_ptr fuel path false) (λ _ s, St F T s).
Proof using All.
  apply walk_use_clunk. intros fid qid Hr Hn. apply then_clunk; [done..|].
  unfold stat_inner. eapply triple_bind; [apply stat_fid_triple; lia|]. intros st. by apply triple_ret.
Qed.

Lemma link_triple F T fuel from to :
  triple (St F T) (link device v2p buf_ptr self_ptr fuel from to false) (λ _ s, St F T s).
Proof using All.
  apply walk_use_clunk. intros fid qid Hr Hn. apply then_clunk; [done..|].
  apply link_op_triple.
Qed.

Lemma remove_triple F T path :
  triple (St F T) (remove device v2p buf_ptr self_ptr path) (λ _ s, St F T s).
Proof using All.
  apply walk_use_clunk. intros fid qid Hr Hn.
  eapply triple_conseq; [apply (remove_fid_triple ({[fid]} ∪ F)); [lia|set_solver]|done|]. intros r s Hst.
  replace (({[fid]} ∪ F) ∖ {[fid]}) with F in Hst by set_solver. done.
Qed.

Lemma mkdir_triple F T path mode :
  triple (St F T) (mkdir device v2p buf_ptr self_ptr path mode) (λ _ s, St F T s).
Proof using All.
  unfold mkdir. eapply triple_bind; [apply mkdir_op_triple|]. intros r. by apply triple_ret.
Qed.

(** [rename] and [readlink] keep the fid they walked to. *)
Lemma rename_triple F T from to :
  triple (St F T) (rename device v2p buf_ptr self_ptr from to) (λ r s,
    (r = None ∧ St F T s) ∨ ∃ fid, fid ∉ F ∧ St ({[fid]} ∪ F) T s).
Proof using All.
  unfold rename. eapply triple_bind; [apply walk_triple|]. intros [[fid qid]|]; [|apply triple_ret; by left].
  intros s (Hn & Hr & Hst). simpl in Hn, Hr, Hst. revert s Hst.
  eapply triple_conseq; [apply rename_op_triple|done|]. intros r s Hst. right. by exists fid.
Qed.

Lemma readlink_triple F T path :
  triple (St F T) (readlink device v2p buf_ptr self_ptr path) (λ r s,
    (r = None ∧ St F T s) ∨ ∃ fid, fid ∉ F ∧ St ({[fid]} ∪ F) T s).
Proof using All.
  unfold readlink. eapply triple_bind; [apply walk_triple|]. intros [[fid qid]|]; [|apply triple_ret; by left].
  intros s (Hn & Hr & Hst). simpl in Hn, Hr, Hst. revert s Hst.
  eapply triple_conseq; [apply readlink_fid_triple; lia|done|]. intros r s Hst. right. by exists fid.
Qed.

(** Filling in the file table entry of a fid. *)
Lemma install_triple F T fid iou qid :
  0 ≤ fid < 128 →
  triple (St F T) (install device v2p buf_ptr self_ptr fid iou qid) (λ r s,
    r = Some fid ∧ ∃ st, St F (<[Z.to_nat fid := mkFile fid iou qid st]> T) s).
Proof using All.
  intros Hr. unfold install. eapply (triple_bind _ _ _ (λ _, St F T)).
  { intros s Hst. unfold get_file, idx_get. pose proof Hst as ([_ _ _ _ Hl] & _ & _).
    by destruct (files s !! Z.to_nat fid). }
  intros f. eapply triple_bind; [apply stat_fid_triple; lia|]. intros st.
  eapply (triple_bind _ _ _ (λ _, St F (<[Z.to_nat fid := mkFile fid iou qid st]> T))).
  - intros s ([H1 H2 H3 H4 H5] & HF & HT). unfold set_file. rewrite idx_set_ok by lia. simpl.
    split; [split; try done; simpl; by rewrite length_insert|]. split; [done|]. by rewrite HT.
  - intros u. apply triple_ret. eauto.
Qed.

Definition opened F T (r : option Z) (s : PSt D) : Prop :=
  match r with
  | Some fid => fid ∉ F ∧ 0 ≤ fid < 128 ∧
      ∃ f, f_fid f = fid ∧ St ({[fid]} ∪ F) (<[Z.to_nat fid := f]> T) s
  | None => St F T s
  end.

Lemma install_opened F T fid iou qid :
  0 ≤ fid < 128 → fid ∉ F →
  triple (St ({[fid]} ∪ F) T) (install device v2p buf_ptr self_ptr fid iou qid) (opened F T).
Proof using All.
  intros Hr Hn. eapply triple_conseq; [by apply install_triple|done|].
  intros r s (-> & st & Hst). split; [done|]. split; [done|]. by exists (mkFile fid iou qid st).
Qed.

(** [open] without following links (the flag bit for [O_NOFOLLOW] is set). *)
Lemma open_triple F T fuel path flags :
  Z.land flags 0x8000 ≠ 0 →
  triple (St F T) (open device v2p buf_ptr self_ptr fuel path flags) (opened F T).
Proof using All.
  intros Hfl. unfold open. rewrite (proj2 (Z.eqb_neq _ _)) by done. cbn [follow_if].
  eapply triple_bind; [apply walk_triple|]. intros [[fid qid]|].
  - intros s (Hn & Hr & Hst). simpl in Hn, Hr, Hst. revert s Hst.
    change (triple (St ({[fid]} ∪ F) T)
      (let! o := open_fid device v2p buf_ptr self_ptr fid (o2p9o flags) in
       match o with
       | Some (qid, iou) => install device v2p buf_ptr self_ptr fid iou qid
       | None => let! c := clunk device v2p buf_ptr self_ptr fid in let! _ := unwrap c in ret None
       end) (opened F T)).
    eapply triple_bind; [apply open_fid_triple; lia|]. intros [[qid' iou]|]; [by apply install_opened|].
    eapply triple_conseq; [by apply (clunk_unwrap F T fid None)|done|]. by intros r s [? ->].
  - destruct (negb _); [|by apply triple_ret].
    eapply triple_bind; [apply create_triple|]. intros [[[fid qid] iou]|]; [|by apply triple_ret].
    intros s (Hn & Hr & Hst). simpl in *. by apply (install_opened F T fid iou qid Hr Hn).
Qed.
End base.
