(* ===== verification/P9Follow.v ===== *)
(** * Following links: the fids of the operations that do

    [follow_sym] walks from link to link for as long as the server names
    another one, so these operations may also run for ever ([FFuel]).  When
    reading a link fails on the way, the fid of that link stays in use. *)
From S2P Require Import Prelude Stuff Pm Virtio VirtioInv P9Msg P9 P9Wire P9Ops P9Spec P9Fids.

Local Open Scope Z_scope.

(** [triple], but a run may also be given up. *)
Definition ftriple {S A} (P : S → Prop) (m : M S A) (Q : A → S → Prop) : Prop :=
  ∀ s, P s → match m s with Done (a, s') => Q a s' | Fault f => f = FPanic ∨ f = FFuel end.

Section ftriples.
Context {S : Type}.
Implicit Types (P : S → Prop).

Lemma ftriple_of {A} P (m : M S A) Q : triple P m Q → ftriple P m Q.
Proof. intros H s Hs. specialize (H s Hs). destruct (m s) as [[a s']|f]; auto. Qed.

Lemma ftriple_bind {A B} P (m : M S A) (k : A → M S B) R Q :
  ftriple P m R → (∀ a, ftriple (R a) (k a) Q) → ftriple P (bind m k) Q.
Proof.
  intros Hm Hk s Hs. specialize (Hm s Hs). unfold bind. destruct (m s) as [[a s']|f]; [by apply Hk|done].
Qed.

Lemma ftriple_ret {A} P (a : A) (Q : A → S → Prop) : (∀ s, P s → Q a s) → ftriple P (ret a) Q.
Proof. intros H s Hs. by apply H. Qed.

Lemma ftriple_conseq {A} P P' (m : M S A) Q Q' :
  ftriple P' m Q' → (∀ s, P s → P' s) → (∀ a s, Q' a s → Q a s) → ftriple P m Q.
Proof. intros Hm HP HQ s Hs. specialize (Hm s (HP s Hs)). destruct (m s) as [[a s']|]; auto. Qed.
End ftriples.

Section follow.
Context {D : Type} `{Mmio D}.
Context (device : D → list Z → nat → D * list Z).
Context (v2p : Z → option Z) (buf_ptr self_ptr : Z) (Hself : self_ptr ≠ 0).
Implicit Types (s : PSt D) (F : gset Z) (T : list File).

(** At most one new fid. *)
Definition at_most_one F T s : Prop := St F T s ∨ ∃ fid, fid ∉ F ∧ St ({[fid]} ∪ F) T s.

(** A fid of one's own, or a failure that may have lost one. *)
Definition got_fid F T (r : option Z) s : Prop :=
  match r with
  | Some fid => 0 ≤ fid < 128 ∧ fid ∉ F ∧ St ({[fid]} ∪ F) T s
  | None => at_most_one F T s
  end.

Lemma clunk_held {A} F T fid (r : A) :
  0 ≤ fid → fid ∈ F →
  ftriple (St F T) (let! c := clunk device v2p buf_ptr self_ptr fid in let! _ := unwrap c in ret r)
    (λ r' s, St (F ∖ {[fid]}) T s ∧ r' = r).
Proof using Hself.
  intros Hr HF. apply ftriple_of. eapply triple_bind; [by apply clunk_triple|]. intros c.
  eapply triple_bind; [apply triple_unwrap|]. intros u. apply triple_ret. intros s [Hst _]. by rewrite decide_True in Hst.
Qed.

Lemma follow_loop_triple F T fuel : ∀ target,
  ftriple (St F T) (follow_loop device v2p buf_ptr self_ptr fuel target) (got_fid F T).
Proof using Hself.
  induction fuel as [|fuel IH]; intros target; cbn [follow_loop]; [intros s _; by right|].
  eapply ftriple_bind; [by apply ftriple_of, walk_triple|]. intros [[fid qid]|]; [|apply ftriple_ret; by left].
  intros s (Hn & Hr & Hst). simpl in Hn, Hr, Hst. revert s Hst.
  destruct (decide (q_kind qid = SYMLINK)); [|apply ftriple_ret; by intros].
  eapply ftriple_bind; [apply ftriple_of, readlink_fid_triple; [done|lia]|]. intros [target'|]; [|apply ftriple_ret; right; by exists fid].
  assert (∀ A (k : PM9 (D := D) A) s, bind (clunk device v2p buf_ptr self_ptr fid) (λ c, bind (unwrap c) (λ _, k)) s =
    bind (bind (clunk device v2p buf_ptr self_ptr fid) (λ c, bind (unwrap c) (λ _, ret tt))) (λ _, k) s) as Hassoc.
  { intros A k s. unfold bind. destruct (clunk _ _ _ _ _ s) as [[[u|] s']|]; done. }
  intros s Hst. rewrite Hassoc. revert s Hst. eapply ftriple_bind; [apply clunk_held; [lia|set_solver]|]. intros u.
  replace (({[fid]} ∪ F) ∖ {[fid]}) with F by set_solver.
  eapply ftriple_conseq; [apply IH|by intros s [Hst _]|done].
Qed.

Lemma follow_fid_triple F T fuel fid qid :
  0 ≤ fid < 128 → fid ∉ F →
  ftriple (St ({[fid]} ∪ F) T) (follow_fid device v2p buf_ptr self_ptr fuel fid qid) (got_fid F T).
Proof using Hself.
  intros Hr Hn. unfold follow_fid. destruct (decide (q_kind qid = SYMLINK)); [|apply ftriple_ret; by intros].
  eapply (ftriple_bind _ _ _ (got_fid ({[fid]} ∪ F) T)).
  { unfold follow_sym. eapply ftriple_bind; [apply ftriple_of, readlink_fid_triple; [done|lia]|].
    intros [target|]; [apply follow_loop_triple|apply ftriple_ret; by left]. }
  intros [real|].
  - intros s (Hr1 & Hn1 & Hst). revert s Hst. eapply ftriple_conseq; [apply (clunk_held ({[real]} ∪ ({[fid]} ∪ F))); [lia|set_solver]|done|].
    intros r s [Hst ->]. split_and!; [lia|lia|set_solver|].
    by replace ({[real]} ∪ F) with (({[real]} ∪ ({[fid]} ∪ F)) ∖ {[fid]}) by set_solver.
  - intros s [Hst|(x & Hx & Hst)]; revert s Hst.
    + eapply ftriple_conseq; [apply (clunk_held ({[fid]} ∪ F)); [lia|set_solver]|done|]. intros r s [Hst ->]. left.
      by replace F with (({[fid]} ∪ F) ∖ {[fid]}) by set_solver.
    + eapply ftriple_conseq; [apply (clunk_held ({[x]} ∪ ({[fid]} ∪ F))); [lia|set_solver]|done|]. intros r s [Hst ->]. right.
      exists x. split; [set_solver|]. by replace ({[x]} ∪ F) with (({[x]} ∪ ({[fid]} ∪ F)) ∖ {[fid]}) by set_solver.
Qed.

(** Walk, follow, use the fid, clunk it. *)
Lemma follow_use_clunk {A} F T fuel path (m : Z → PM9 (D := D) (option A)) :
  (∀ fid, 0 ≤ fid < 128 → fid ∉ F → triple (St ({[fid]} ∪ F) T) (m fid) (λ _, St ({[fid]} ∪ F) T)) →
  ftriple (St F T)
    (let! w := walk device v2p buf_ptr self_ptr path in
     match w with
     | Some (fid, qid) =>
         let! f := follow_if device v2p buf_ptr self_ptr fuel true fid qid in
         match f with
         | Some fid =>
             let! res := m fid in
             let! c := clunk device v2p buf_ptr self_ptr fid in
             let! _ := unwrap c in
             ret res
         | None => ret None
         end
     | None => ret None
     end)
    (λ r s, St F T s ∨ r = None ∧ at_most_one F T s).
Proof using Hself.
  intros Hm. eapply ftriple_bind; [by apply ftriple_of, walk_triple|]. intros [[fid qid]|]; [|apply ftriple_ret; by left].
  intros s (Hn & Hr & Hst). simpl in Hn, Hr, Hst. revert s Hst. unfold follow_if.
  eapply ftriple_bind; [by apply follow_fid_triple|]. intros [real|].
  - intros s (Hr1 & Hn1 & Hst). revert s Hst. apply ftriple_of.
    eapply triple_conseq; [apply then_clunk; [done..|by apply Hm]|done|by left].
  - apply ftriple_ret. by right.
Qed.

Lemma link_follow_triple F T fuel from to :
  ftriple (St F T) (link device v2p buf_ptr self_ptr fuel from to true) (λ r s, St F T s ∨ r = None ∧ at_most_one F T s).
Proof using Hself. apply follow_use_clunk. intros fid Hr Hn. by apply link_op_triple. Qed.

Lemma stat_follow_triple F T fuel path :
  ftriple (St F T) (stat device v2p buf_ptr self_ptr fuel path true) (λ r s, St F T s ∨ r = None ∧ at_most_one F T s).
Proof using Hself.
  apply follow_use_clunk. intros fid Hr Hn. unfold stat_inner.
  eapply triple_bind; [apply stat_fid_triple; [done|lia]|]. intros st. by apply triple_ret.
Qed.
End follow.
