(* ===== verification/P9Walk.v ===== *)
(** * Properties of the 9p client: replies, fids, directory entries *)
From S2P Require Import Prelude Stuff Pm Virtio VirtioInv P9Msg P9 P9Wire P9Ops P9Spec P9Fids P9Follow.

Local Open Scope Z_scope.

(** ** Replies on the wire *)
Definition enc_qid (q : QID) : list Z := [qid_code (q_kind q)] ++ u32 (version q) ++ u64 (path q).

Definition qid_ok (q : QID) : Prop :=
  q_kind q ≠ DONT ∧ 0 ≤ version q < 2 ^ 32 ∧ 0 ≤ path q < 2 ^ 64.

Definition rwalk (size tag : Z) (qids : list QID) : list Z :=
  u32 size ++ [op_code RWALK] ++ u16 tag ++ u16 (Z.of_nat (length qids)) ++ concat (map enc_qid qids).

Section parse.
Lemma byte_le b : 0 ≤ b < 256 → [b] = le_bytes 1 b.
Proof. intros Hb. unfold le_bytes. by rewrite Z.mod_small. Qed.

Lemma qid_kind_roundtrip k : k ≠ DONT → qid_try_from (qid_code k) = Some k.
Proof. by destruct k. Qed.

Lemma qid_code_byte k : 0 ≤ qid_code k < 256.
Proof. destruct k; simpl; lia. Qed.

Lemma length_enc_qid q : length (enc_qid q) = 13%nat.
Proof. unfold enc_qid, u32, u64. by rewrite !length_app, !length_le_bytes. Qed.

Lemma length_enc_qids qs : length (concat (map enc_qid qs)) = (13 * length qs)%nat.
Proof.
  induction qs as [|q qs IH]; [done|]. cbn [map concat length]. rewrite length_app, length_enc_qid, IH. lia.
Qed.

Lemma read_at {A} n pre x rest p (k : option Z → MM A) :
  (0 < n)%nat → 0 ≤ x < 2 ^ (8 * Z.of_nat n) → p = length pre →
  bind (read_n n) k (mkMsg (pre ++ le_bytes n x ++ rest) p)
  = k (Some x) (mkMsg (pre ++ le_bytes n x ++ rest) (p + n)).
Proof. intros Hn Hx ->. by erewrite bind_Done by (by apply read_n_run). Qed.

Lemma read_qid_run pre q rest :
  qid_ok q →
  read_qid (mkMsg (pre ++ enc_qid q ++ rest) (length pre))
  = Done (q, mkMsg (pre ++ enc_qid q ++ rest) (length pre + 13)).
Proof.
  intros (Hk & Hv & Hp). unfold read_qid, enc_qid, u32, u64, read_u8, read_u32, read_u64.
  rewrite byte_le by apply qid_code_byte. rewrite <- !app_assoc.
  rewrite read_at by (lia || apply qid_code_byte || done). mstep. rewrite qid_kind_roundtrip by done. mstep.
  rewrite (app_assoc pre). rewrite read_at by (rewrite ?length_app, ?length_le_bytes; (simpl; lia) || done). mstep.
  rewrite (app_assoc (pre ++ _)).
  rewrite read_at by (rewrite ?length_app, ?length_le_bytes; (simpl; lia) || done). mstep.
  unfold ret. rewrite <- !app_assoc. do 2 f_equal; [by destruct q|]. f_equal. lia.
Qed.

Lemma skips_run k : ∀ m, (pos m + 13 * k ≤ length (buf m))%nat →
  skips k m = Done (tt, mkMsg (buf m) (pos m + 13 * k)).
Proof.
  induction k as [|k IH]; intros [b p] Hl; cbn [skips].
  - unfold ret. do 3 f_equal. simpl. lia.
  - unfold skip, seek, bind. simpl in *. rewrite (proj2 (Nat.leb_le _ _)) by lia.
    rewrite IH by (simpl; lia). simpl. do 3 f_equal. lia.
Qed.
End parse.

Section walk.
Context {D : Type} `{Mmio D}.
Context (device : D → list Z → nat → D * list Z).
Context (v2p : Z → option Z) (buf_ptr self_ptr pa : Z).
Context (Hself : self_ptr ≠ 0) (Hv : v2p buf_ptr = Some pa).

Lemma alloc_fid_run (s : PSt D) fid :
  pinv s → BitSet128.first_clr (fid_bs s) = Done (Some fid) →
  ∃ s', alloc_fid s = Done (Some fid, s') ∧ St ({[fid]} ∪ fids s) (files s) s' ∧
    dev s' = dev s ∧ p_tag s' = p_tag s ∧ 0 ≤ fid < 128.
Proof using Type.
  intros Hp Ef. pose proof (alloc_fid_triple (fids s) (files s) s (conj Hp (conj eq_refl eq_refl))) as Ht.
  unfold alloc_fid in *. revert Ht. mstep. unfold lift at 1, bind at 1. rewrite Ef.
  destruct (BitSet128.first_clr_ok _ (pi_fids s Hp)) as (r & Er & Hr). rewrite Ef in Er. injection Er as <-.
  destruct Hr as (Hi & _). destruct (BitSet128.set_ok _ (pi_fids s Hp) fid Hi) as (bs & Es & _).
  unfold lift, bind. rewrite Es. simpl. intros (_ & Hr & Hst). eexists. split; [done|]. split; [exact Hst|]. done.
Qed.

(** The round trip of a request whose buffer is the reference encoding. *)
Lemma call_run (s : PSt D) r d' reply k :
  pinv s → ordinary r → encodable r → Z.of_nat (rlen r) < 2 ^ 32 → (length reply ≤ rlen r)%nat →
  device (doorbell (dev s)) (wire (op_code (req_op r)) (req_tag r) (body r)) (rlen r) = (d', reply) →
  Z.land (reg_read d' INTERRUPTSTATUS) 2 = 0 →
  reply !! 4%nat = Some k → 0 ≤ k < 256 →
  ∃ s' pad, call device v2p buf_ptr self_ptr r s = Done ((k, mkMsg (reply ++ pad) 5), s') ∧
    pinv s' ∧ core s' = core s.
Proof using Hself Hv.
  intros Hp Ho He Hrl Hlen Hdev Hirq Hk Hkb. destruct (build_run r He) as (m & Eb & Hb).
  destruct (capacity_ok r Ho) as [Hc1 Hc2].
  assert (length (wire (op_code (req_op r)) (req_tag r) (body r)) = tlen r) as Hlw
    by (rewrite length_wire; apply length_body).
  assert (length (buf m) = capacity r) as Hl by (rewrite Hb, length_app, Hlw, length_replicate; lia).
  destruct He as (_ & Ht & _).
  pose proof (transact_run device v2p buf_ptr self_ptr Hself s r m pa d' reply Hp Hv) as E.
  rewrite (wl_small (tlen r)), (wl_small (rlen r)) in E by done. rewrite Hl in E.
  specialize (E Hc1 Hc2). rewrite Hb, take_app_length' in E by done. specialize (E Hdev).
  cbv zeta in E. rewrite Hirq in E. simpl in E. destruct E as (s' & E & Hp' & Hc' & _).
  exists s', (drop (length reply) (wire (op_code (req_op r)) (req_tag r) (body r) ++ replicate (capacity r - tlen r) 0x69)).
  split; [|done]. unfold call, msg, lift, bind. rewrite Eb. rewrite E.
  unfold splice. rewrite take_0, take_ge by lia. cbn [app Nat.add].
  set (pad := drop (length reply) _). pose proof (lookup_lt_Some _ _ _ Hk) as H5.
  unfold resp_kind, seek, read_u8, bind. cbn [buf pos].
  rewrite (proj2 (Nat.leb_le _ _)) by (rewrite length_app; lia).
  assert (reply ++ pad = take 4 reply ++ le_bytes 1 k ++ (drop 5 reply ++ pad)) as Esp.
  { rewrite <- (byte_le k Hkb), !app_assoc. f_equal. rewrite <- app_assoc. symmetry. by apply take_drop_middle. }
  assert (length (take 4 reply) = 4%nat) as Hl4 by (rewrite length_take; lia).
  pose proof (read_n_run 1 (take 4 reply) k (drop 5 reply ++ pad) ltac:(lia) Hkb) as Er.
  rewrite <- Esp, Hl4 in Er. rewrite Er. done.
Qed.

Lemma fids_St (s : PSt D) F T : St F T s → pinv s ∧ fids s = F ∧ files s = T.
Proof using Type. done. Qed.

(** The parse of an [Rwalk] that names one qid per path element. *)
Lemma rwalk_parse size tag qs q pad :
  Z.of_nat (length qs) + 1 < 65536 → qid_ok q →
  let b := rwalk size tag (qs ++ [q]) ++ pad in
  (seek 7 ;;; let! n := read_u16 in unwrap n) (mkMsg b 5) = Done (Z.of_nat (length qs + 1), mkMsg b 9) ∧
  ∃ m, (skips (length qs) ;;; read_qid) (mkMsg b 9) = Done (q, m).
Proof using Type.
  intros Hn Hq b.
  set (h := u32 size ++ [op_code RWALK] ++ u16 tag).
  assert (length h = 7%nat) as Hh by (unfold h, u32, u16; by rewrite !length_app, !length_le_bytes).
  set (body := concat (map enc_qid (qs ++ [q]))).
  assert (b = h ++ le_bytes 2 (Z.of_nat (length qs + 1)) ++ (body ++ pad)) as Eb.
  { unfold b, rwalk, h, body, u16, u32. rewrite length_app. cbn [length]. by rewrite <- !app_assoc. }
  assert (length (le_bytes 2 (Z.of_nat (length qs + 1))) = 2%nat) as H2 by apply length_le_bytes.
  clearbody b. subst b. split.
  - unfold seek, bind at 1. cbn [buf]. rewrite (proj2 (Nat.leb_le _ _)) by (rewrite length_app; lia).
    unfold read_u16. rewrite read_at by (simpl; lia). done.
  - assert (concat (map enc_qid qs) ++ enc_qid q = body) as Ebd.
    { unfold body. rewrite map_app, concat_app. cbn [map concat]. by rewrite app_nil_r. }
    eexists. erewrite bind_Done; [|apply skips_run; cbn [pos buf]; rewrite !length_app, <- Ebd, length_app,
      length_enc_qids, length_enc_qid; lia]. cbn [pos buf].
    pose proof (read_qid_run ((h ++ le_bytes 2 (Z.of_nat (length qs + 1))) ++ concat (map enc_qid qs)) q pad Hq) as Er.
    rewrite !length_app, Hh, H2, length_enc_qids in Er. rewrite <- Ebd. rewrite <- !app_assoc in *. exact Er.
Qed.

Lemma walk_ok_run (s : PSt D) ws fid d' size tag qs q :
  let r := Twalk (p_tag s) 0 fid ws in
  pinv s → BitSet128.first_clr (fid_bs s) = Done (Some fid) → encodable r →
  length ws = (length qs + 1)%nat → qid_ok q →
  device (doorbell (dev s)) (wire (op_code TWALK) (p_tag s) (body r)) (rlen r)
    = (d', rwalk size tag (qs ++ [q])) →
  Z.land (reg_read d' INTERRUPTSTATUS) 2 = 0 →
  ∃ s', walk_inner device v2p buf_ptr self_ptr ws s = Done (Some (fid, q), s') ∧
    pinv s' ∧ fids s' = {[fid]} ∪ fids s ∧ files s' = files s.
Proof using Hself Hv.
  intros r Hp Ef He Hlen Hq Hdev Hirq. unfold walk_inner.
  set (s0 := mkPSt (p_q s) (fid_bs s) (wadd 16 (p_tag s) 1) (root_qid s) (has_regs s) (files s) (dev s) (dev_pos s)).
  assert (next_tag s = Done (p_tag s, s0)) as Et by done. mrun Et.
  assert (pinv s0) as Hp0 by (destruct Hp; by split).
  destruct (alloc_fid_run s0 fid Hp0 Ef) as (s1 & Ea & (Hp1 & HF1 & HT1) & Ed1 & _ & Hr). mrun Ea. mstep.
  assert (Z.of_nat (length ws) < 65536) as Hws by apply He.
  assert (length (rwalk size tag (qs ++ [q])) = rlen r) as Hlr.
  { unfold rwalk, u16, u32. rewrite !length_app, !length_le_bytes, length_enc_qids, length_app. cbn. lia. }
  destruct (call_run s1 r d' (rwalk size tag (qs ++ [q])) (op_code RWALK))
    as (s2 & pad & Ec & Hp2 & Hc2); try done.
  { unfold r; cbn [rlen]. lia. }
  { lia. }
  { by rewrite Ed1. }
  fold r. mrun Ec. cbv beta iota. rewrite Z.eqb_refl. cbv beta iota delta [negb].
  destruct (rwalk_parse size tag qs q pad ltac:(lia) Hq) as [E1 [m E2]].
  unfold msg, lift, bind at 1. rewrite E1. cbv beta iota. rewrite Hlen, Z.eqb_refl.
  destruct (Z.eqb_spec (Z.of_nat (length qs + 1)) 0); [lia|]. unfold bind at 1.
  replace (Z.to_nat (Z.of_nat (length qs + 1)) - 1)%nat with (length qs) by lia. rewrite E2.
  eexists. split; [done|]. destruct (fids_core _ _ Hc2) as [E3 E4]. split; [done|]. split; [by rewrite E3, HF1|by rewrite E4, HT1].
Qed.
End walk.

(** ** Directory entries *)
Record dent := mkDent { de_ty : Z; de_ver : Z; de_ino : Z; de_off : Z; de_dt : Z; de_name : list Z }.

(** As the server sends it: [qid[13] offset[8] type[1] name[s]]. *)
Definition enc_dent (d : dent) : list Z :=
  ([de_ty d] ++ u32 (de_ver d)) ++ u64 (de_ino d) ++ u64 (de_off d) ++ [de_dt d] ++ str (de_name d).

(** As [getdents64] returns it: [d_ino d_off d_reclen d_type d_name 0]. *)
Definition linux_dent (offt : Z) (d : dent) : list Z :=
  u64 (de_ino d) ++ u64 offt ++ u16 (20 + Z.of_nat (length (de_name d))) ++ [de_dt d] ++ de_name d ++ [0].

Definition dent_ok (d : dent) : Prop :=
  0 ≤ de_ino d < 2 ^ 64 ∧ 0 ≤ de_off d < 2 ^ 64 ∧ Z.of_nat (length (de_name d)) < 65516.

Section dents.
Lemma length_enc_dent d : length (enc_dent d) = (24 + length (de_name d))%nat.
Proof. unfold enc_dent, u32, u64. rewrite !length_app, !length_le_bytes, length_str. cbn. lia. Qed.

Lemma length_linux_dent offt d : length (linux_dent offt d) = (20 + length (de_name d))%nat.
Proof. unfold linux_dent, u16, u64. rewrite !length_app, !length_le_bytes. cbn. lia. Qed.

Lemma copy_out_app n l1 l2 : length l1 = n → copy_out n (l1 ++ l2) = Done (l1, l2).
Proof.
  intros Hl. unfold copy_out. rewrite (proj2 (Nat.leb_le _ _)) by (rewrite length_app; lia).
  by rewrite take_app_length', drop_app_length'.
Qed.

Lemma copy_in_ok bs room out :
  (length bs ≤ room)%nat → copy_in bs room out = Done ((room - length bs)%nat, out ++ bs).
Proof. intros Hl. unfold copy_in. by rewrite (proj2 (Nat.leb_le _ _)). Qed.

Lemma put_byte_ok b room out : (1 ≤ room)%nat → put_byte b room out = Done ((room - 1)%nat, out ++ [b]).
Proof. intros Hl. unfold put_byte. by rewrite (proj2 (Nat.leb_le _ _)). Qed.

Lemma of_le_small n x : 0 ≤ x < 2 ^ (8 * Z.of_nat n) → of_le_bytes (le_bytes n x) = x.
Proof. intros. rewrite of_le_bytes_le_bytes. by apply Z.mod_small. Qed.

(** One turn of the loop. *)
Lemma dents_step fuel offt d rest room out rl dof :
  dent_ok d → (length (linux_dent offt d) ≤ room)%nat →
  dents_loop (S fuel) offt (enc_dent d ++ rest) room out rl dof
  = dents_loop fuel offt rest (room - length (linux_dent offt d)) (out ++ linux_dent offt d)
      (rl + (20 + Z.of_nat (length (de_name d)))) (de_off d).
Proof.
  intros (Hi & Ho & Hn) Hroom. rewrite length_linux_dent in Hroom.
  assert (∃ b r, enc_dent d ++ rest = b :: r) as (b & r & Eb) by (unfold enc_dent; simpl; eauto).
  rewrite Eb. cbn [dents_loop]. rewrite <- Eb. clear b r Eb. unfold enc_dent, u32, u64.
  rewrite (proj2 (Nat.leb_le _ _)) by (rewrite !length_app, !length_le_bytes; cbn; lia). rewrite <- app_assoc.
  rewrite drop_app_length' by (rewrite length_app, length_le_bytes; done). cbn [obind].
  rewrite <- !app_assoc. rewrite copy_out_app by apply length_le_bytes. cbn [obind].
  rewrite copy_out_app by apply length_le_bytes. cbn [obind app].
  unfold str. rewrite <- app_assoc. rewrite copy_out_app by apply length_le_bytes. cbn [obind].
  rewrite !of_le_small by (simpl; lia).
  rewrite (wrap_small 16) by lia.
  rewrite copy_in_ok by (rewrite length_le_bytes; lia). cbn [obind].
  rewrite copy_in_ok by (rewrite !length_le_bytes; lia). cbn [obind].
  rewrite copy_in_ok by (rewrite !length_le_bytes; lia). cbn [obind].
  rewrite put_byte_ok by (rewrite !length_le_bytes; lia). cbn [obind].
  rewrite copy_out_app by lia. cbn [obind].
  rewrite copy_in_ok by (rewrite !length_le_bytes; lia). cbn [obind].
  rewrite put_byte_ok by (rewrite !length_le_bytes; lia). cbn [obind].
  rewrite !length_le_bytes, length_linux_dent. unfold linux_dent, u64, u16.
  rewrite <- !app_assoc. cbn [app].
  replace (8 + 8 + 3 + Z.of_nat (length (de_name d)) + 1) with (20 + Z.of_nat (length (de_name d))) by lia.
  f_equal. lia.
Qed.

Definition total (offt : Z) (ds : list dent) : nat := length (concat (map (linux_dent offt) ds)).

Lemma dents_run offt ds : ∀ fuel room out rl dof,
  Forall dent_ok ds → (total offt ds ≤ room)%nat → (length ds ≤ fuel)%nat →
  dents_loop fuel offt (concat (map enc_dent ds)) room out rl dof
  = Done (out ++ concat (map (linux_dent offt) ds), rl + Z.of_nat (total offt ds),
          from_option de_off dof (last ds)).
Proof.
  unfold total. induction ds as [|d ds IH]; intros fuel room out rl dof Hok Hroom Hf; cbn [map concat length] in *.
  - destruct fuel; simpl; rewrite app_nil_r; do 3 f_equal; lia.
  - apply Forall_cons in Hok as [Hd Hok]. rewrite length_app in Hroom. destruct fuel as [|fuel]; [lia|].
    rewrite dents_step by (done || lia). rewrite IH by (done || lia).
    rewrite <- app_assoc, length_app, length_linux_dent. do 2 f_equal.
    + f_equal. lia.
    + rewrite last_cons. by destruct (last ds).
Qed.

Lemma total_le offt ds : (total offt ds ≤ length (concat (map enc_dent ds)))%nat.
Proof.
  unfold total. induction ds as [|d ds IH]; cbn [map concat]; [lia|].
  rewrite !length_app, length_enc_dent, length_linux_dent. lia.
Qed.

Lemma count_le ds : (length ds ≤ length (concat (map enc_dent ds)))%nat.
Proof.
  induction ds as [|d ds IH]; cbn [map concat length]; [lia|]. rewrite length_app, length_enc_dent. lia.
Qed.
End dents.

(** ** Sequences of file system operations *)
Inductive fsop :=
  | OpTruncate (p : list Z) (size : Z)
  | OpExists (p : list Z)
  | OpStat (p : list Z) (follow : bool)
  | OpLink (from to : list Z) (follow : bool)
  | OpRemove (p : list Z)
  | OpMkdir (p : list Z) (mode : Z)
  | OpSymlink (target p : list Z)
  | OpRename (from to : list Z)
  | OpReadlink (p : list Z).

(** How many fids an operation may leave behind: [rename] and [readlink]
    always one, and following links one when it fails. *)
Definition leaves (o : fsop) (ok : bool) : nat :=
  match o with
  | OpRename _ _ | OpReadlink _ => 1
  | OpStat _ true | OpLink _ _ true => if ok then 0 else 1
  | _ => 0
  end.

Definition follows (o : fsop) : bool :=
  match o with OpStat _ f => f | OpLink _ _ f => f | _ => false end.

Section grown.
Context {D : Type}.

(** The fids in use are those of [F] and at most [k] more. *)
Definition grown (F : gset Z) (T : list File) (k : nat) (s : PSt D) : Prop :=
  ∃ G, St G T s ∧ F ⊆ G ∧ (base.size (G ∖ F) ≤ k)%nat.

Definition op_post (F : gset Z) (T : list File) (o : fsop) (ok : bool) (s : PSt D) : Prop := grown F T (leaves o ok) s.

Lemma grown_same F T s : St F T s → grown F T 0 s.
Proof using Type. intros Hst. exists F. split; [done|]. split; [done|]. by rewrite difference_diag_L, size_empty. Qed.

Lemma grown_le F T k k' s : (k ≤ k')%nat → grown F T k s → grown F T k' s.
Proof using Type. intros Hk (G & ? & ? & ?). exists G. split_and!; [done|done|lia]. Qed.

Lemma grown_one F T s : at_most_one F T s → grown F T 1 s.
Proof using Type.
  intros [Hst|(fid & Hn & Hst)]; [by apply (grown_le _ _ 0), grown_same; [lia|]|].
  exists ({[fid]} ∪ F). split_and!; [done|set_solver|].
  replace (({[fid]} ∪ F) ∖ F) with ({[fid]} : gset Z) by set_solver. by rewrite size_singleton.
Qed.

(** The fault of an operation: a panic, or links without an end. *)
Definition op_triple (b : bool) {A} (P : PSt D → Prop) (m : PM9 (D := D) A) (Q : A → PSt D → Prop) : Prop :=
  ∀ s, P s → match m s with Done (a, s') => Q a s' | Fault f => f = FPanic ∨ f = FFuel ∧ b = true end.

Lemma op_triple_ret {A B} b P (m : PM9 (D := D) A) (g : A → B) Q Q' :
  (if b : bool then ftriple P m Q else triple P m Q) → (∀ a s, Q a s → Q' (g a) s) →
  op_triple b P (let! r := m in ret (g r)) Q'.
Proof using Type.
  intros Hm HQ s Hs. unfold bind. destruct b; specialize (Hm s Hs); destruct (m s) as [[a s']|f]; try (by apply HQ); naive_solver.
Qed.

End grown.

Section claims.
Context {D : Type} `{Mmio D}.
Context (device : D → list Z → nat → D * list Z).
Context (v2p : Z → option Z) (buf_ptr self_ptr : Z) (fuel : nat).

(** Whether the operation succeeded. *)
Definition run_fsop (o : fsop) : PM9 (D := D) bool :=
  match o with
  | OpTruncate p size => let! r := truncate device v2p buf_ptr self_ptr p size in ret (bool_decide (is_Some r))
  | OpExists p => exists_path device v2p buf_ptr self_ptr p
  | OpStat p f => let! r := stat device v2p buf_ptr self_ptr fuel p f in ret (bool_decide (is_Some r))
  | OpLink p t f => let! r := link device v2p buf_ptr self_ptr fuel p t f in ret (bool_decide (is_Some r))
  | OpRemove p => let! r := remove device v2p buf_ptr self_ptr p in ret (bool_decide (is_Some r))
  | OpMkdir p mode => let! r := mkdir device v2p buf_ptr self_ptr p mode in ret (bool_decide (is_Some r))
  | OpSymlink t p => let! r := symlink device v2p buf_ptr self_ptr t p in ret (bool_decide (is_Some r))
  | OpRename p t => let! r := rename device v2p buf_ptr self_ptr p t in ret (bool_decide (is_Some r))
  | OpReadlink p => let! r := readlink device v2p buf_ptr self_ptr p in ret (bool_decide (is_Some r))
  end.

(** A sequence of operations, with the fids they may have left in all. *)
Fixpoint run_fsops (l : list fsop) : PM9 (D := D) nat :=
  match l with
  | [] => ret 0%nat
  | o :: l' => let! ok := run_fsop o in let! k := run_fsops l' in ret (leaves o ok + k)%nat
  end.

Lemma run_fsop_ok F T o : self_ptr ≠ 0 → op_triple (follows o) (St F T) (run_fsop o) (op_post F T o).
Proof using Type.
  intros Hself. unfold op_post. destruct o as [p z|p|p [|]|p t [|]|p|p mode|t p|p t|p]; cbn [run_fsop leaves follows].
  2:{ intros s Hs. pose proof (exists_triple device v2p buf_ptr self_ptr Hself F T p s Hs) as Ht.
      destruct (exists_path _ _ _ _ p s) as [[a s']|]; [by apply grown_same|by left]. }
  all: eapply op_triple_ret; cbv iota.
  1: by apply truncate_triple. 2: by apply stat_follow_triple. 3: by apply stat_triple. 4: by apply link_follow_triple.
  5: by apply link_triple. 6: by apply remove_triple. 7: by apply mkdir_triple. 8: by apply symlink_op_triple.
  9: by apply rename_triple. 10: by apply readlink_triple.
  all: intros r s; simpl; try (intros Hst; by apply grown_same).
  1, 2: intros [Hst|[-> Hst]]; [apply (grown_le _ _ 0); [lia|by apply grown_same]|by apply grown_one].
  all: intros [[-> Hst]|Hst]; apply grown_one; [by left|by right].
Qed.

Lemma run_fsops_ok T l : self_ptr ≠ 0 → ∀ F,
  op_triple (existsb follows l) (St F T) (run_fsops l) (λ k s, grown F T k s).
Proof using Type.
  intros Hself. induction l as [|o l IH]; intros F s Hs; cbn [run_fsops existsb]; [by apply grown_same|].
  unfold bind. pose proof (run_fsop_ok F T o Hself s Hs) as Ho. destruct (run_fsop o s) as [[ok s1]|f];
    [|destruct Ho as [->|[-> Hb]]; [by left|right; by rewrite Hb]].
  destruct Ho as (G & Hst & HF & Hk). specialize (IH G s1 Hst).
  destruct (run_fsops l s1) as [[k s2]|f].
  - destruct IH as (G2 & Hst2 & HG & Hk2). exists G2. split_and!; [done|set_solver|].
    replace (G2 ∖ F) with ((G2 ∖ G) ∪ (G ∖ F)); [rewrite size_union; [lia|set_solver]|].
    apply set_eq. intros x. rewrite elem_of_union, !elem_of_difference. destruct (decide (x ∈ G)); set_solver.
  - destruct IH as [->|[-> Hb]]; [by left|right]. by rewrite Hb, orb_true_r.
Qed.
End claims.

(** C6: fids are balanced: whatever the server answers, any sequence of the
    operations on paths keeps the open files and an idle queue and takes back
    the fids it uses, except that [rename] and [readlink] leave one each, and
    [stat] and [link] that follow links may leave one when they fail; without
    those it ends with exactly the fids it started with.  The only other
    outcomes are a panic and, when links are followed, a chain of links without
    an end (never an access outside of the message buffer or an endless wait). *)
Theorem fs_ops_balanced (D : Type) `{Mmio D} (device : D → list Z → nat → D * list Z)
    (v2p : Z → option Z) (buf_ptr self_ptr : Z) (fuel : nat) (l : list fsop) (s : PSt D) :
  self_ptr ≠ 0 → pinv s →
  match run_fsops device v2p buf_ptr self_ptr fuel l s with
  | Done (k, s') => pinv s' ∧ files s' = files s ∧ fids s ⊆ fids s' ∧ (base.size (fids s' ∖ fids s) ≤ k)%nat ∧
      (k = 0%nat → fids s' = fids s)
  | Fault f => f = FPanic ∨ f = FFuel ∧ existsb follows l = true
  end.
Proof.
  intros Hself Hp. pose proof (run_fsops_ok device v2p buf_ptr self_ptr fuel (files s) l Hself (fids s) s) as Ht.
  specialize (Ht (conj Hp (conj eq_refl eq_refl))). destruct (run_fsops _ _ _ _ _ l s) as [[k s']|f]; [|done].
  destruct Ht as (G & (Hp' & <- & HT) & HF & Hk). split_and!; [done..|]. intros ->.
  apply Nat.le_0_r, size_empty_inv in Hk. apply set_eq. intros x. specialize (Hk x).
  rewrite elem_of_difference, elem_of_empty in Hk. specialize (HF x). destruct (decide (x ∈ fids s)); tauto.
Qed.

(** C28: Opening a path without following links: success takes exactly one new
    fid, which is also the index of the file table entry that now holds it, and
    changes no other entry; failure leaves fids and table as they were. *)
Theorem open_spec (D : Type) `{Mmio D} (device : D → list Z → nat → D * list Z)
    (v2p : Z → option Z) (buf_ptr self_ptr : Z) (fuel : nat) (p : list Z) (flags : Z) (s : PSt D) :
  self_ptr ≠ 0 → Z.land flags 0x8000 ≠ 0 → pinv s →
  match open device v2p buf_ptr self_ptr fuel p flags s with
  | Done (Some fid, s') =>
      fid ∉ fids s ∧ 0 ≤ fid < 128 ∧ pinv s' ∧ fids s' = {[fid]} ∪ fids s ∧
      ∃ f, f_fid f = fid ∧ files s' = <[Z.to_nat fid := f]> (files s)
  | Done (None, s') => pinv s' ∧ fids s' = fids s ∧ files s' = files s
  | Fault f => f = FPanic
  end.
Proof.
  intros Hself Hfl Hp.
  pose proof (open_triple device v2p buf_ptr self_ptr Hself (fids s) (files s) fuel p flags Hfl s) as Ht.
  specialize (Ht (conj Hp (conj eq_refl eq_refl))).
  destruct (open _ _ _ _ _ _ _ s) as [[[fid|] s']|]; try done.
  destruct Ht as (? & ? & f & ? & ? & ? & ?). split_and!; try done; eauto; lia.
Qed.

(** [rename] and [readlink] leak: when they succeed, the fid they walked
    to is still in use afterwards, and nothing in the file table holds it. *)
Theorem rename_readlink_leak (D : Type) `{Mmio D} (device : D → list Z → nat → D * list Z)
    (v2p : Z → option Z) (buf_ptr self_ptr : Z) (from to : list Z) (s : PSt D) :
  self_ptr ≠ 0 → pinv s →
  (∀ s', rename device v2p buf_ptr self_ptr from to s = Done (Some tt, s') →
     ∃ fid, fid ∉ fids s ∧ fids s' = {[fid]} ∪ fids s ∧ files s' = files s) ∧
  (∀ t s', readlink device v2p buf_ptr self_ptr from s = Done (Some t, s') →
     ∃ fid, fid ∉ fids s ∧ fids s' = {[fid]} ∪ fids s ∧ files s' = files s).
Proof.
  intros Hself Hp. assert (St (fids s) (files s) s) as Hst by done. split.
  - intros s' E. pose proof (rename_triple device v2p buf_ptr self_ptr Hself _ _ from to s Hst) as Ht.
    rewrite E in Ht. destruct Ht as [[? _]|(fid & Hn & _ & HF & HT)]; [done|eauto].
  - intros t s' E. pose proof (readlink_triple device v2p buf_ptr self_ptr Hself _ _ from s Hst) as Ht.
    rewrite E in Ht. destruct Ht as [[? _]|(fid & Hn & _ & HF & HT)]; [done|eauto].
Qed.

(** A walk the server accepts: if the reply is an [Rwalk] with one qid per
    name, [walk_inner] returns the lowest free fid and the last qid, takes that
    fid, and the request the server saw is the reference encoding. *)
Theorem walk_accepted (D : Type) `{Mmio D} (device : D → list Z → nat → D * list Z)
    (v2p : Z → option Z) (buf_ptr self_ptr pa : Z) (s : PSt D) (ws : list (list Z)) (fid : Z) (d' : D)
    (size tag : Z) (qs : list QID) (q : QID) :
  self_ptr ≠ 0 → v2p buf_ptr = Some pa → pinv s →
  BitSet128.first_clr (fid_bs s) = Done (Some fid) →
  encodable (Twalk (p_tag s) 0 fid ws) → length ws = (length qs + 1)%nat → qid_ok q →
  device (doorbell (dev s))
         (wire (op_code TWALK) (p_tag s) (body (Twalk (p_tag s) 0 fid ws))) (9 + 13 * length ws)%nat
    = (d', rwalk size tag (qs ++ [q])) →
  Z.land (reg_read d' INTERRUPTSTATUS) 2 = 0 →
  ∃ s', walk_inner device v2p buf_ptr self_ptr ws s = Done (Some (fid, q), s') ∧
    pinv s' ∧ fids s' = {[fid]} ∪ fids s ∧ files s' = files s.
Proof. intros. by eapply walk_ok_run. Qed.

(** [getdents64]'s conversion: a reply made of well-formed 9p entries is
    turned, without a fault and without running out of the caller's buffer,
    into the Linux entries in order, the byte count and the offset of the last
    entry; every [d_off] holds the offset of the request. *)
Theorem getdents_converts (offt : Z) (ds : list dent) (room : nat) :
  Forall dent_ok ds → (length (concat (map enc_dent ds)) ≤ room)%nat →
  let rbuf := concat (map enc_dent ds) in
  dents_loop (length rbuf) offt rbuf room [] 0 0
  = Done (concat (map (linux_dent offt) ds), Z.of_nat (length (concat (map (linux_dent offt) ds))),
          from_option de_off 0 (last ds)).
Proof.
  intros Hok Hroom rbuf. pose proof (total_le offt ds). pose proof (count_le ds).
  unfold rbuf. rewrite dents_run by (done || lia). done.
Qed.

(** The open flags: each of the fifteen flags from [CREAT] to [SYNC] is a
    single bit, but none of them is translated to a single bit, because the
    octal constants of the protocol are written in decimal. *)
Theorem o2p9o_not_bits (i : Z) :
  6 ≤ i ≤ 20 → ¬ ∃ k, 0 ≤ k ∧ o2p9o (2 ^ i) = 2 ^ k.
Proof.
  intros Hi (k & Hk & E).
  assert (Z.log2 (o2p9o (2 ^ i)) = k) as Hl by (rewrite E; by apply Z.log2_pow2).
  assert (i ∈ range 6 21) as Hin by (apply elem_of_range; lia).
  assert (Forall (λ i, 2 ^ Z.log2 (o2p9o (2 ^ i)) ≠ o2p9o (2 ^ i)) (range 6 21)) as Hall
    by (refine (bool_decide_unpack _ _); vm_compute; exact I).
  rewrite Forall_forall in Hall. apply (Hall i Hin). by rewrite Hl.
Qed.

(** ** Witnesses: a server that refuses every request, and one that accepts walks *)
#[local] Instance quiet : Mmio unit := { reg_read _ _ := 0; reg_write r _ _ := r }.

Definition refusing (_ : unit) (_ : list Z) (_ : nat) : unit * list Z :=
  (tt, u32 11 ++ [op_code RLERROR] ++ u16 0 ++ u32 2).

(** An [Rwalk] to one file, an [Rreadlink] of "a", and success for anything else that asks. *)
Definition accepting (_ : unit) (req : list Z) (room : nat) : unit * list Z :=
  match req !! 4%nat with
  | Some 110 => (tt, rwalk 22 0 [mkQID FILE 1 42])
  | Some 22 => (tt, u32 10 ++ [op_code RREADLINK] ++ u16 0 ++ str [97])
  | Some 112 => (tt, u32 24 ++ [op_code ROPEN] ++ u16 0 ++ enc_qid (mkQID FILE 1 42) ++ u32 4096)
  | Some k => (tt, u32 7 ++ [k + 1] ++ u16 0)
  | None => (tt, [])
  end.

Definition fids0 : BitSet128.t := BitSet128.mk 1 128.

Definition ready0 : PSt unit := mkPSt q32 fids0 0 qid_new true (replicate 128 file_zeroed) tt 0.

Section start.
Lemma ready0_inv : pinv ready0.
Proof.
  split; [exists (λ _, 0); apply q32_inv| |done..]. split; simpl; [lia|lia|]. intros i Hi. lia.
Qed.
End start.

Lemma fs_ops_balanced_witness :
  ∃ s', run_fsops accepting Some 4096 8 1 [OpExists [97]; OpLink [97] [98] true; OpRemove [97]] ready0 = Done (0%nat, s') ∧
    fids s' = fids ready0.
Proof.
  pose proof (fs_ops_balanced unit accepting Some 4096 8 1 [OpExists [97]; OpLink [97] [98] true; OpRemove [97]] ready0) as Hb.
  destruct (run_fsops accepting Some 4096 8 1 [OpExists [97]; OpLink [97] [98] true; OpRemove [97]] ready0) as [[k s']|f] eqn:E.
  - assert (k = 0%nat) as -> by (vm_compute in E; congruence). exists s'. split; [done|]. apply Hb; [done|apply ready0_inv|done].
  - exfalso. vm_compute in E. discriminate.
Defined.

Lemma open_spec_witness :
  ∃ r s', open refusing Some 4096 8 0 [97] 0x8000 ready0 = Done (r, s') ∧ r = None ∧ fids s' = fids ready0.
Proof.
  pose proof (open_spec unit refusing Some 4096 8 0 [97] 0x8000 ready0) as Hb.
  destruct (open refusing Some 4096 8 0 [97] 0x8000 ready0) as [[[fid|] s']|f] eqn:E.
  - exfalso. vm_compute in E. discriminate.
  - exists None, s'. split; [done|]. split; [done|]. apply Hb; [done|done|apply ready0_inv].
  - exfalso. vm_compute in E. discriminate.
Defined.

Lemma rename_readlink_leak_witness :
  ∃ t s' fid, readlink accepting Some 4096 8 [97] ready0 = Done (Some t, s') ∧
    fid ∉ fids ready0 ∧ fids s' = {[fid]} ∪ fids ready0.
Proof.
  destruct (rename_readlink_leak unit accepting Some 4096 8 [97] [98] ready0) as [_ Hl];
    [done|apply ready0_inv|].
  destruct (readlink accepting Some 4096 8 [97] ready0) as [[[t|] s']|f] eqn:E.
  - destruct (Hl t s' eq_refl) as (fid & H1 & H2 & _). exists t, s', fid.
    split; [reflexivity|]. split; [exact H1|exact H2].
  - exfalso. vm_compute in E. discriminate.
  - exfalso. vm_compute in E. discriminate.
Defined.

Lemma walk_accepted_witness :
  ∃ s', walk_inner accepting Some 4096 8 [[97]] ready0 = Done (Some (1, mkQID FILE 1 42), s') ∧
    fids s' = {[1]} ∪ fids ready0.
Proof.
  destruct (walk_accepted unit accepting Some 4096 8 4096 ready0 [[97]] 1 tt 22 0 [] (mkQID FILE 1 42))
    as (s' & E & _ & HF & _).
  - lia.
  - reflexivity.
  - apply ready0_inv.
  - vm_compute. reflexivity.
  - split; [repeat constructor|]. split; vm_compute; reflexivity.
  - reflexivity.
  - split; [discriminate|]. simpl. lia.
  - vm_compute. reflexivity.
  - reflexivity.
  - exists s'. split; [exact E|exact HF].
Defined.

Lemma getdents_converts_witness :
  dents_loop 25 0 (enc_dent (mkDent 0 1 42 7 8 [97])) 100 [] 0 0
  = Done (linux_dent 0 (mkDent 0 1 42 7 8 [97]), 21, 7).
Proof.
  pose proof (getdents_converts 0 [mkDent 0 1 42 7 8 [97]] 100) as E. apply E.
  - repeat constructor; simpl; lia.
  - vm_compute. lia.
Defined.

Lemma o2p9o_not_bits_witness : o2p9o (2 ^ 9) = 1000 ∧ ¬ ∃ k, 0 ≤ k ∧ o2p9o (2 ^ 9) = 2 ^ k.
Proof. split; [done|]. apply (o2p9o_not_bits 9). lia. Defined.
