(* ===== verification/Pipe.v ===== *)
(** * [pipe.rs]: the pipe, as code and against a queue

    The buffer is a ring of 4096 bytes; [rpos] and [wpos] are free-running
    64-bit counters.  [write] and [read] hold the pipe's lock except while they
    sleep, so each is modelled as the run up to its next sleep ([WSleep],
    [RSleep]) and the run from there ([write_resume], [read_resume]). *)
From S2P Require Import Prelude.

Local Open Scope Z_scope.

Module Pipe.
Record t := mk {
  readers : Z;
  writers : Z;
  rpos : Z;
  wpos : Z;
  empty : bool;
  full : bool;
  nonblock : bool;
  buf : list Z;
}.

Definition new (nonblock : bool) : t := mk 1 0 0 0 true false nonblock (replicate 4096 0).

Definition buf_len (p : t) : Z := Z.of_nat (length (buf p)).

Definition get_w_pos (p : t) : Z := wpos p mod buf_len p.
Definition get_r_pos (p : t) : Z := rpos p mod buf_len p.

(** A slice of the buffer: its first index and its length. *)
Definition get_write_space (p : t) : option (Z * Z) * option (Z * Z) :=
  if full p then (None, None)
  else
    let r := get_r_pos p in
    let w := get_w_pos p in
    if r <=? w then (Some (w, buf_len p - w), Some (0, r)) else (Some (w, r - w), None).

Definition get_read_space (p : t) : option (Z * Z) * option (Z * Z) :=
  if empty p then (None, None)
  else
    let r := get_r_pos p in
    let w := get_w_pos p in
    if w <=? r then (Some (r, buf_len p - r), Some (0, w)) else (Some (r, w - r), None).

(** [a[0..min].copy_from_slice(&buf[0..min])] and the update of [wpos]. *)
Definition put_part (p : t) (a : Z * Z) (src : list Z) : t * list Z :=
  let n := Nat.min (length src) (Z.to_nat (snd a)) in
  (mk (readers p) (writers p) (rpos p) (wpos p +! Z.of_nat n) (empty p) (full p) (nonblock p)
      (splice (Z.to_nat (fst a)) (take n src) (buf p)),
   drop n src).

(** The copy of [write_inner], in one or two parts. *)
Definition put_parts (p : t) (src : list Z) : t :=
  let '(a, b) := get_write_space p in
  match a with
  | Some a =>
      let '(p1, rest) := put_part p a src in
      match b with
      | Some b => if (0 <? length rest)%nat then fst (put_part p1 b rest) else p1
      | None => p1
      end
  | None => p
  end.

Definition write_inner (p : t) (src : list Z) : Z * t :=
  let wpoz := wpos p in
  let p1 := put_parts p src in
  let written := wpos p1 -! wpoz in
  (written,
   mk (readers p1) (writers p1) (rpos p1) (wpos p1)
      (if 0 <? written then false else empty p1)
      (if wpos p1 =? rpos p1 then true else full p1) (nonblock p1) (buf p1)).

(** [buf[0..min].copy_from_slice(&a[0..min])] and the update of [rpos]. *)
Definition get_part (p : t) (a : Z * Z) (k : nat) : t * list Z :=
  let n := Nat.min k (Z.to_nat (snd a)) in
  (mk (readers p) (writers p) (rpos p +! Z.of_nat n) (wpos p) (empty p) (full p) (nonblock p) (buf p),
   take n (drop (Z.to_nat (fst a)) (buf p))).

(** The copy of [read_inner]: [k] is the length of the destination; the bytes
    copied are returned. *)
Definition get_parts (p : t) (k : nat) : t * list Z :=
  let '(a, b) := get_read_space p in
  match a with
  | Some a =>
      let '(p1, x) := get_part p a k in
      match b with
      | Some b =>
          if (0 <? k - length x)%nat
          then let '(p2, y) := get_part p1 b (k - length x) in (p2, x ++ y)
          else (p1, x)
      | None => (p1, x)
      end
  | None => (p, [])
  end.

Definition read_inner (p : t) (k : nat) : list Z * t :=
  let rpoz := rpos p in
  let '(p1, got) := get_parts p k in
  let rd := rpos p1 -! rpoz in
  (got,
   mk (readers p1) (writers p1) (rpos p1) (wpos p1)
      (if wpos p1 =? rpos p1 then true else empty p1)
      (if 0 <? rd then false else full p1) (nonblock p1) (buf p1)).

(** ** Calls, with the tasks they wake *)
Inductive chan := CRpos | CWpos.

Inductive wres :=
  | WDone (n : Z)
  | WSleep (rest : list Z).

Inductive rres :=
  | RDone (bytes : list Z)
  | RSleep (k : nat) (got : list Z).

Definition PipeM := M (t * list chan).

Definition the_pipe : PipeM t := gets fst.
Definition set_pipe (p : t) : PipeM unit := modify (λ s, (p, snd s)).
Definition wakeup (c : chan) : PipeM unit := modify (λ s, (fst s, snd s ++ [c])).

Definition write_end (src : list Z) : PipeM wres :=
  let! p := the_pipe in
  (if negb (readers p =? 0) then wakeup CRpos else ret tt) ;;;
  ret (WDone (Z.of_nat (length src))).

Fixpoint write_loop (fuel : nat) (src : list Z) : PipeM wres :=
  match fuel with
  | O => fail FFuel
  | S fuel' =>
      let! p := the_pipe in
      if readers p =? 0 then write_end src
      else
        let '(n, p') := write_inner p src in
        set_pipe p' ;;;
        if n =? Z.of_nat (length src) then write_end src
        else
          let rest := drop (Z.to_nat n) src in
          (if 0 <? n then wakeup CRpos else ret tt) ;;;
          if full p' then ret (WSleep rest) else write_loop fuel' rest
  end.

Definition write (src : list Z) : PipeM wres := write_loop (S (length src)) src.

(** Back from the sleep. *)
Definition write_resume (rest : list Z) : PipeM wres :=
  let! p := the_pipe in
  if readers p =? 0 then write_end rest
  else if full p then ret (WSleep rest)
  else write_loop (S (length rest)) rest.

Definition read_end (got : list Z) : PipeM rres :=
  let! p := the_pipe in
  (if negb (writers p =? 0) then wakeup CWpos else ret tt) ;;;
  ret (RDone got).

Fixpoint read_loop (fuel : nat) (k : nat) (got : list Z) : PipeM rres :=
  match fuel with
  | O => fail FFuel
  | S fuel' =>
      let! p := the_pipe in
      let '(x, p') := read_inner p k in
      set_pipe p' ;;;
      let got := got ++ x in
      if writers p' =? 0 then read_end got
      else if (length x =? k)%nat then read_end got
      else
        (if (0 <? length x)%nat then wakeup CWpos else ret tt) ;;;
        if empty p' then ret (RSleep (k - length x) got) else read_loop fuel' (k - length x) got
  end.

Definition read (k : nat) : PipeM rres := read_loop (S k) k [].

Definition read_resume (k : nat) (got : list Z) : PipeM rres :=
  let! p := the_pipe in
  if writers p =? 0 then read_end got
  else if empty p then ret (RSleep k got)
  else read_loop (S k) k got.

Definition set_counts (r w : Z) (p : t) : t :=
  mk r w (rpos p) (wpos p) (empty p) (full p) (nonblock p) (buf p).

Definition close (reader : bool) : PipeM unit :=
  let! p := the_pipe in
  set_pipe (if reader then set_counts (readers p -! 1) (writers p) p
            else set_counts (readers p) (writers p -! 1) p) ;;;
  wakeup CWpos ;;;
  wakeup CRpos.

Definition dup (r w : bool) : PipeM unit :=
  assert_ (negb (eqb r w)) ;;;
  let! p := the_pipe in
  set_pipe (set_counts (if r then readers p +! 1 else readers p)
                       (if w then writers p +! 1 else writers p) p).
End Pipe.

(** ** The queue a pipe stands for *)
Section queue.
Import Pipe.
Implicit Types (p : t) (q : list Z).

(** The byte at a position of the stream. *)
Definition cell p (i : Z) : option Z := buf p !! Z.to_nat (i mod 4096).

(** [q] is what has been written and not yet read. *)
Record holds p q : Prop := {
  h_buf : length (buf p) = 4096%nat;
  h_rpos : 0 ≤ rpos p < 2 ^ 64;
  h_wpos : wpos p = rpos p +! Z.of_nat (length q);
  h_len : (length q ≤ 4096)%nat;
  h_cells : ∀ i, (i < length q)%nat → cell p (rpos p + Z.of_nat i) = q !! i;
  h_empty : empty p = bool_decide (q = []);
  h_full : full p = false;
}.

Lemma wrap_mod i : wrap 64 i mod 4096 = i mod 4096.
Proof.
  unfold wrap. change (2 ^ 64) with (4096 * 2 ^ 52). rewrite Z.rem_mul_r by lia.
  replace (i mod 4096 + 4096 * ((i / 4096) mod 2 ^ 52)) with (i mod 4096 + ((i / 4096) mod 2 ^ 52) * 4096) by lia.
  rewrite Z.mod_add by lia. apply Z.mod_mod. lia.
Qed.

Lemma mod_apart a b : a < b < a + 4096 → a mod 4096 ≠ b mod 4096.
Proof. intros H E. zdiv. Qed.

Lemma cell_mod p i j : i mod 4096 = j mod 4096 → cell p i = cell p j.
Proof. unfold cell. by intros ->. Qed.

(** From [p] to [p'], the bytes [src] are written at stream position [x]. *)
Definition written (x : Z) (src : list Z) p p' : Prop :=
  (∀ i, (i < length src)%nat → cell p' (x + Z.of_nat i) = src !! i) ∧
  (∀ y, (∀ j, (j < length src)%nat → y mod 4096 ≠ (x + Z.of_nat j) mod 4096) → cell p' y = cell p y).

Lemma written_app x src1 src2 p p1 p2 x' :
  written x src1 p p1 → written x' src2 p1 p2 → x' mod 4096 = (x + Z.of_nat (length src1)) mod 4096 →
  (length src1 + length src2 ≤ 4096)%nat → written x (src1 ++ src2) p p2.
Proof.
  intros [A1 A2] [B1 B2] Ex Hl.
  assert (∀ j, (x' + j) mod 4096 = (x + Z.of_nat (length src1) + j) mod 4096) as Hm.
  { intros j. by rewrite <- Zplus_mod_idemp_l, Ex, Zplus_mod_idemp_l. }
  split.
  - intros i Hi. rewrite length_app in Hi. destruct (decide (i < length src1)%nat) as [H1|H1].
    + rewrite lookup_app_l by done. rewrite B2; [by apply A1|]. intros j Hj. rewrite Hm. apply mod_apart. lia.
    + rewrite lookup_app_r by lia. rewrite <- B1 by lia. apply cell_mod. rewrite Hm. f_equal. lia.
  - intros y Hy. rewrite B2, A2; [done| |].
    + intros j Hj. apply Hy. rewrite length_app. lia.
    + intros j Hj. rewrite Hm. specialize (Hy (length src1 + j)%nat). rewrite length_app in Hy.
      replace (x + Z.of_nat (length src1) + Z.of_nat j) with (x + Z.of_nat (length src1 + j)) by lia. apply Hy. lia.
Qed.

(** Copying a part that does not run over the end of the buffer. *)
Lemma put_part_written p a k src :
  length (buf p) = 4096%nat → 0 ≤ a → 0 ≤ k → a + k ≤ 4096 → a = wpos p mod 4096 →
  let n := Nat.min (length src) (Z.to_nat k) in
  let p' := fst (put_part p (a, k) src) in
  length (buf p') = 4096%nat ∧ written (wpos p) (take n src) p p'.
Proof.
  intros Hl Ha Hk Hak Ew n p'. unfold p', put_part, written, cell; simpl. fold n.
  assert (length (take n src) = n) as Hn by (rewrite length_take; lia). rewrite Hn.
  assert (∀ i, 0 ≤ i < Z.of_nat n → (wpos p + i) mod 4096 = a + i) as Hm.
  { intros i Hi. rewrite <- Zplus_mod_idemp_l, <- Ew. apply Z.mod_small. lia. }
  split_and!.
  - rewrite length_splice; [done|]. lia.
  - intros i Hi. rewrite Hm by lia. rewrite splice_lookup_in by lia.
    by replace (Z.to_nat (a + Z.of_nat i) - Z.to_nat a)%nat with i by lia.
  - intros i Hi. apply splice_lookup_out; [lia|]. rewrite Hn.
    destruct (decide (Z.to_nat (i mod 4096) < Z.to_nat a)%nat) as [|Hge]; [by left|]. right.
    destruct (decide (Z.to_nat a + n ≤ Z.to_nat (i mod 4096))%nat) as [|Hlt]; [done|]. exfalso.
    apply (Hi (Z.to_nat (i mod 4096) - Z.to_nat a)%nat); [lia|]. rewrite Hm by lia.
    pose proof (Z.mod_pos_bound i 4096). lia.
Qed.

(** The room [write_inner] believes it has. *)
Definition space p : Z :=
  let r := rpos p mod 4096 in
  let w := wpos p mod 4096 in
  if r <=? w then 4096 - w + r else r - w.

Lemma space_bounds p : 0 < space p ≤ 4096.
Proof.
  unfold space. pose proof (Z.mod_pos_bound (rpos p) 4096). pose proof (Z.mod_pos_bound (wpos p) 4096).
  cases_Z; lia.
Qed.

Lemma put_parts_written p src :
  length (buf p) = 4096%nat → full p = false →
  let n := Nat.min (length src) (Z.to_nat (space p)) in
  let p' := put_parts p src in
  length (buf p') = 4096%nat ∧ written (wpos p) (take n src) p p' ∧ wpos p' = wpos p +! Z.of_nat n ∧
  rpos p' = rpos p ∧ readers p' = readers p ∧ writers p' = writers p ∧ empty p' = empty p ∧ full p' = false.
Proof.
  intros Hl Hf n p'. unfold n, p', put_parts, space, get_write_space, get_r_pos, get_w_pos, buf_len.
  rewrite Hf, Hl. change (Z.of_nat 4096) with 4096.
  pose proof (Z.mod_pos_bound (rpos p) 4096 ltac:(lia)) as Hr. pose proof (Z.mod_pos_bound (wpos p) 4096 ltac:(lia)) as Hw.
  set (r := rpos p mod 4096) in *. remember (wpos p mod 4096) as w eqn:Ew.
  destruct (Z.leb_spec r w) as [Hrw|Hrw].
  - destruct (put_part_written p w (4096 - w) src) as (A1 & A2); [done|lia..|done|].
    set (n1 := Nat.min (length src) (Z.to_nat (4096 - w))) in *.
    set (p1 := fst (put_part p _ src)) in *.
    assert (put_part p (w, 4096 - w) src = (p1, drop n1 src)) as -> by done.
    rewrite !length_drop. assert (wpos p1 = wpos p +! Z.of_nat n1) as Ew1 by done.
    destruct (Nat.ltb_spec 0 (length src - n1)) as [Hrest|Hrest].
    + assert (n1 = Z.to_nat (4096 - w)) as En by lia.
      assert (0 = wpos p1 mod 4096) as E0.
      { rewrite Ew1. unfold wadd. rewrite wrap_mod, <- Zplus_mod_idemp_l, <- Ew.
        replace (w + Z.of_nat n1) with 4096 by lia. done. }
      destruct (put_part_written p1 0 r (drop n1 src)) as (B1 & B2); [done|lia..|done|].
      rewrite length_drop in B2. set (n2 := Nat.min (length src - n1) (Z.to_nat r)) in *.
      replace (Nat.min (length src) (Z.to_nat (4096 - w + r))) with (n1 + n2)%nat by lia.
      split_and!; try done.
      * rewrite <- take_take_drop. eapply written_app; [exact A2|exact B2| |rewrite !length_take, length_drop; lia].
        rewrite Ew1, length_take. unfold wadd. rewrite wrap_mod. f_equal. lia.
      * cbn. rewrite length_drop. fold n2. by rewrite Nat2Z.inj_add, <- wadd_wadd.
    + replace (Nat.min (length src) (Z.to_nat (4096 - w + r))) with n1 by lia. done.
  - destruct (put_part_written p w (r - w) src) as (A1 & A2); [done|lia..|done|]. done.
Qed.

(** [write_inner] takes as many bytes as it believes fit. *)
Lemma write_inner_spec p src :
  length (buf p) = 4096%nat → full p = false →
  let n := Nat.min (length src) (Z.to_nat (space p)) in
  ∃ p', write_inner p src = (Z.of_nat n, p') ∧ length (buf p') = 4096%nat ∧
    written (wpos p) (take n src) p p' ∧ wpos p' = wpos p +! Z.of_nat n ∧ rpos p' = rpos p ∧
    readers p' = readers p ∧ writers p' = writers p ∧
    empty p' = (if (0 <? n)%nat then false else empty p) ∧ full p' = bool_decide (wpos p' = rpos p).
Proof.
  intros Hl Hf n. pose proof (space_bounds p) as Hsp.
  destruct (put_parts_written p src Hl Hf) as (A1 & A2 & A3 & A4 & A5 & A6 & A7 & A8). fold n in A2, A3.
  assert (wpos (put_parts p src) -! wpos p = Z.of_nat n) as En by (rewrite A3; apply wadd_wsub; lia).
  eexists. unfold write_inner. rewrite En. split; [reflexivity|]. split_and!; try done; simpl.
  - rewrite A7. destruct (Z.ltb_spec 0 (Z.of_nat n)), (Nat.ltb_spec 0 n); done || lia.
  - rewrite A4, A8. case_bool_decide as Hd; [by rewrite Hd, Z.eqb_refl|by rewrite (proj2 (Z.eqb_neq _ _))].
Qed.

(** ** Reading *)

(** The [k] bytes from stream position [x] on. *)
Definition stream p (x : Z) (k : nat) : list (option Z) := (λ i, cell p (x + Z.of_nat i)) <$> seq 0 k.

Lemma get_part_stream p a k m :
  length (buf p) = 4096%nat → 0 ≤ a → 0 ≤ m → a + m ≤ 4096 → a = rpos p mod 4096 →
  let n := Nat.min k (Z.to_nat m) in
  Some <$> snd (get_part p (a, m) k) = stream p (rpos p) n ∧ length (snd (get_part p (a, m) k)) = n.
Proof.
  intros Hl Ha Hm Ham Er n. unfold get_part; cbn [fst snd]. fold n.
  assert (length (take n (drop (Z.to_nat a) (buf p))) = n) as Hn by (rewrite length_take, length_drop; lia).
  split; [|done]. apply list_eq. intros i. unfold stream. rewrite !list_lookup_fmap.
  destruct (decide (i < n)%nat) as [Hi|Hi].
  - rewrite lookup_seq_lt by done. cbn [fmap option_fmap option_map]. rewrite lookup_take_lt, lookup_drop by done.
    unfold cell. rewrite <- Zplus_mod_idemp_l, <- Er, Z.mod_small by lia.
    replace (Z.to_nat (a + Z.of_nat (0 + i))) with (Z.to_nat a + i)%nat by lia.
    destruct (lookup_lt_is_Some_2 (buf p) (Z.to_nat a + i)) as [x ->]; [lia|done].
  - rewrite lookup_take_ge, lookup_seq_ge by lia. done.
Qed.

Lemma stream_app p x y a b : y mod 4096 = (x + Z.of_nat a) mod 4096 →
  stream p x (a + b) = stream p x a ++ stream p y b.
Proof.
  intros Hy. unfold stream. rewrite seq_app, fmap_app. f_equal.
  apply list_eq. intros i. rewrite !list_lookup_fmap. destruct (decide (i < b)%nat) as [Hi|Hi].
  - rewrite !lookup_seq_lt by done. cbn [fmap option_fmap option_map]. f_equal. apply cell_mod.
    rewrite <- (Zplus_mod_idemp_l y), Hy, Zplus_mod_idemp_l. f_equal. lia.
  - by rewrite !lookup_seq_ge by lia.
Qed.

(** The number of bytes [read_inner] believes there are. *)
Definition avail p : Z :=
  let r := rpos p mod 4096 in
  let w := wpos p mod 4096 in
  if w <=? r then 4096 - r + w else w - r.

Lemma avail_bounds p : 0 < avail p ≤ 4096.
Proof.
  unfold avail. pose proof (Z.mod_pos_bound (rpos p) 4096). pose proof (Z.mod_pos_bound (wpos p) 4096).
  cases_Z; lia.
Qed.

Lemma get_parts_stream p k :
  length (buf p) = 4096%nat → empty p = false →
  let n := Nat.min k (Z.to_nat (avail p)) in
  ∃ p' got, get_parts p k = (p', got) ∧ Some <$> got = stream p (rpos p) n ∧ length got = n ∧
    p' = mk (readers p) (writers p) (rpos p +! Z.of_nat n) (wpos p) (empty p) (full p) (nonblock p) (buf p).
Proof.
  intros Hl He n. unfold n, get_parts, avail, get_read_space, get_r_pos, get_w_pos, buf_len.
  rewrite He, Hl. change (Z.of_nat 4096) with 4096.
  pose proof (Z.mod_pos_bound (rpos p) 4096 ltac:(lia)) as Hr. pose proof (Z.mod_pos_bound (wpos p) 4096 ltac:(lia)) as Hw.
  remember (rpos p mod 4096) as r eqn:Er. set (w := wpos p mod 4096) in *.
  destruct (Z.leb_spec w r) as [Hrw|Hrw].
  - destruct (get_part_stream p r k (4096 - r)) as (A1 & A2); [done|lia..|done|].
    set (n1 := Nat.min k (Z.to_nat (4096 - r))) in *. set (x := snd (get_part p _ k)) in *.
    set (p1 := fst (get_part p (r, 4096 - r) k)).
    assert (get_part p (r, 4096 - r) k = (p1, x)) as -> by done. rewrite A2.
    destruct (Nat.ltb_spec 0 (k - n1)) as [Hrest|Hrest].
    + assert (n1 = Z.to_nat (4096 - r)) as En by lia.
      assert (rpos p1 mod 4096 = (rpos p + Z.of_nat n1) mod 4096) as Em by (apply wrap_mod).
      destruct (get_part_stream p1 0 (k - n1) w) as (B1 & B2); [done|lia..| |].
      { rewrite Em, <- Zplus_mod_idemp_l, <- Er. replace (r + Z.of_nat n1) with 4096 by lia. done. }
      set (n2 := Nat.min (k - n1) (Z.to_nat w)) in *. set (y := snd (get_part p1 _ _)) in *.
      replace (Nat.min k (Z.to_nat (4096 - r + w))) with (n1 + n2)%nat by lia.
      eexists _, (x ++ y). split; [reflexivity|]. split_and!.
      * change (stream p1 (rpos p1) n2) with (stream p (rpos p1) n2) in B1.
        rewrite fmap_app, A1, B1. symmetry. by apply stream_app.
      * rewrite length_app. lia.
      * rewrite Nat2Z.inj_add, <- wadd_wadd, <- He. done.
    + replace (Nat.min k (Z.to_nat (4096 - r + w))) with n1 by lia. exists p1, x. by rewrite <- He.
  - destruct (get_part_stream p r k (w - r)) as (A1 & A2); [done|lia..|done|].
    eexists _, _. split; [reflexivity|]. by rewrite <- He.
Qed.

Lemma holds_mod p q : holds p q → wpos p mod 4096 = (rpos p + Z.of_nat (length q)) mod 4096.
Proof. intros [_ _ -> _ _ _ _]. apply wrap_mod. Qed.

Lemma holds_space p q : holds p q → (length q < 4096)%nat → space p = 4096 - Z.of_nat (length q).
Proof.
  intros Hh Hq. pose proof (holds_mod p q Hh) as Hw. unfold space. rewrite Hw.
  cases_Z; zdiv.
Qed.

Lemma holds_avail p q : holds p q → q ≠ [] → avail p = Z.of_nat (length q).
Proof.
  intros Hh Hq. pose proof (holds_mod p q Hh) as Hw. pose proof (h_len _ _ Hh).
  assert (0 < length q)%nat by (destruct q; [done|simpl; lia]). unfold avail. rewrite Hw. cases_Z; zdiv.
Qed.

(** A write that fits appends its bytes. *)
Lemma holds_write p q src :
  holds p q → src ≠ [] → (length q + length src ≤ 4096)%nat →
  ∃ p', write_inner p src = (Z.of_nat (length src), p') ∧ holds p' (q ++ src) ∧
    readers p' = readers p ∧ writers p' = writers p.
Proof.
  intros Hh Hne Hl. assert (0 < length src)%nat as Hpos by (destruct src; [done|simpl; lia]).
  pose proof (holds_space p q Hh ltac:(lia)) as Hsp. pose proof (holds_mod p q Hh) as Hwm.
  destruct Hh as [B R Wp L C E Fu].
  destruct (write_inner_spec p src B Fu) as (p' & Ew & B' & [Wr1 Wr2] & Wp' & Rp' & Rd' & Wt' & E' & F').
  replace (Nat.min (length src) (Z.to_nat (space p))) with (length src) in * by lia.
  rewrite take_ge in Wr1, Wr2 by lia.
  assert (wpos p' = rpos p +! Z.of_nat (length (q ++ src))) as Ewp.
  { by rewrite Wp', Wp, length_app, wadd_wadd, Nat2Z.inj_add. }
  assert (∀ j, (wpos p + Z.of_nat j) mod 4096 = (rpos p + Z.of_nat (length q) + Z.of_nat j) mod 4096) as Hm.
  { intros j. by rewrite <- Zplus_mod_idemp_l, Hwm, Zplus_mod_idemp_l. }
  exists p'. split; [done|]. split; [|done]. split; try done; rewrite ?Rp'.
  - done.
  - done.
  - rewrite length_app. lia.
  - intros i Hi. rewrite length_app in Hi. destruct (decide (i < length q)%nat) as [H1|H1].
    + rewrite lookup_app_l, Wr2 by done || (intros j Hj; rewrite Hm; apply mod_apart; lia). by apply C.
    + rewrite lookup_app_r by lia. rewrite <- Wr1 by lia. apply cell_mod. rewrite Hm. f_equal. lia.
  - rewrite E'. rewrite (proj2 (Nat.ltb_lt _ _)) by done. symmetry. apply bool_decide_eq_false_2. by destruct q, src.
  - rewrite F', Ewp. apply bool_decide_eq_false_2. rewrite length_app. unfold wadd, wrap. intros Hw.
    zdiv.
Qed.

(** A read takes what is there, from the front. *)
Lemma holds_read p q k :
  holds p q →
  ∃ p', read_inner p k = (take k q, p') ∧ holds p' (drop k q) ∧ readers p' = readers p ∧ writers p' = writers p.
Proof.
  intros Hh. pose proof Hh as [B R Wp L C E Fu]. destruct (decide (q = [])) as [->|Hne].
  - assert (wpos p = rpos p) as Ewr by (rewrite Wp; simpl; rewrite wadd_small; lia).
    unfold read_inner, get_parts, get_read_space. rewrite E, bool_decide_eq_true_2 by done.
    eexists. split; [by rewrite take_nil|]. split; [|done]. rewrite drop_nil. split; try done; simpl.
    + by rewrite Ewr, Z.eqb_refl.
    + rewrite Fu. by destruct (0 <? _).
  - pose proof (holds_avail p q Hh Hne) as Hav. rewrite bool_decide_eq_false_2 in E by done.
    destruct (get_parts_stream p k B E) as (p1 & got & Eg & Hgot & Hlg & ->). rewrite Hav, Nat2Z.id in *.
    set (n := Nat.min k (length q)) in *.
    assert (got = take k q) as Egot.
    { apply (inj (fmap Some)). rewrite Hgot. unfold stream. apply list_eq. intros i.
      rewrite !list_lookup_fmap. destruct (decide (i < n)%nat) as [Hi|Hi].
      - rewrite lookup_seq_lt by done. cbn [fmap option_fmap option_map]. rewrite lookup_take_lt by lia.
        replace (Z.of_nat (0 + i)) with (Z.of_nat i) by lia. rewrite C by lia.
        destruct (lookup_lt_is_Some_2 q i) as [x ->]; [lia|done].
      - rewrite lookup_seq_ge by lia. rewrite (proj2 (lookup_ge_None _ _)); [done|]. rewrite length_take. lia. }
    unfold read_inner. rewrite Eg. simpl.
    assert (rpos p +! Z.of_nat n -! rpos p = Z.of_nat n) as Erd by (apply wadd_wsub; lia). rewrite Erd.
    eexists. split; [by rewrite Egot|]. split; [|done].
    assert (length (drop k q) = length q - n)%nat as Hld by (rewrite length_drop; lia).
    assert (bool_decide (drop k q = []) = bool_decide (n = length q)) as Eb.
    { apply bool_decide_ext. rewrite <- length_zero_iff_nil, Hld. lia. }
    split; simpl; try done.
    + by apply wrap_range.
    + rewrite Wp, Hld, wadd_wadd. f_equal. lia.
    + lia.
    + intros i Hi. rewrite Hld in Hi. rewrite lookup_drop.
      replace (k + i)%nat with (n + i)%nat by lia. rewrite <- C by lia.
      match goal with |- cell _ ?x = _ => change (cell p x = cell p (rpos p + Z.of_nat (n + i))) end.
      apply cell_mod. unfold wadd.
      rewrite <- Zplus_mod_idemp_l, wrap_mod, Zplus_mod_idemp_l. f_equal. lia.
    + rewrite Eb, E, Wp. clear Eb. case_bool_decide as Hd.
      * by rewrite Hd, Z.eqb_refl.
      * rewrite (proj2 (Z.eqb_neq _ _)); [done|]. unfold wadd, wrap. intros Hw. zdiv.
    + rewrite Fu. by destruct (0 <? _).
Qed.

(** ** Sequences of calls *)

(** A call by some task, up to its return or its next sleep: [write], [read],
    [read] going on after a sleep, [close] and [dup]. *)
Inductive op :=
  | OWrite (src : list Z)
  | ORead (k : nat)
  | OResume (k : nat) (got : list Z)
  | OClose (reader : bool)
  | ODup (r w : bool).

Inductive res := ResW (r : wres) | ResR (r : rres) | ResU.

Definition run_op (o : op) : PipeM res :=
  match o with
  | OWrite src => let! r := write src in ret (ResW r)
  | ORead k => let! r := read k in ret (ResR r)
  | OResume k got => let! r := read_resume k got in ret (ResR r)
  | OClose reader => close reader ;;; ret ResU
  | ODup r w => dup r w ;;; ret ResU
  end.

Fixpoint run_ops (l : list op) : PipeM (list res) :=
  match l with
  | [] => ret []
  | o :: l' => let! r := run_op o in let! rs := run_ops l' in ret (r :: rs)
  end.

(** The same on a queue of bytes with a number of readers and writers: the
    result, the queue afterwards and whom the call wakes. *)
Record queue := mkQueue { q_bytes : list Z; q_readers : Z; q_writers : Z }.

Definition q_read (st : queue) (k : nat) (got : list Z) : res * queue * list chan :=
  let q := q_bytes st in
  if q_writers st =? 0 then (ResR (RDone (got ++ take k q)), mkQueue (drop k q) (q_readers st) (q_writers st), [])
  else if (k <=? length q)%nat
  then (ResR (RDone (got ++ take k q)), mkQueue (drop k q) (q_readers st) (q_writers st), [CWpos])
  else (ResR (RSleep (k - length q) (got ++ q)), mkQueue [] (q_readers st) (q_writers st), if bool_decide (q = []) then [] else [CWpos]).

Definition queue_op (st : queue) (o : op) : res * queue * list chan :=
  match o with
  | OWrite src =>
      if q_readers st =? 0 then (ResW (WDone (Z.of_nat (length src))), st, [])
      else (ResW (WDone (Z.of_nat (length src))), mkQueue (q_bytes st ++ src) (q_readers st) (q_writers st), [CRpos])
  | ORead k => q_read st k []
  | OResume k got =>
      if q_writers st =? 0 then (ResR (RDone got), st, [])
      else if bool_decide (q_bytes st = []) then (ResR (RSleep k got), st, [])
      else q_read st k got
  | OClose true => (ResU, mkQueue (q_bytes st) (q_readers st -! 1) (q_writers st), [CWpos; CRpos])
  | OClose false => (ResU, mkQueue (q_bytes st) (q_readers st) (q_writers st -! 1), [CWpos; CRpos])
  | ODup r w => (ResU, mkQueue (q_bytes st) (if r then q_readers st +! 1 else q_readers st)
                                (if w then q_writers st +! 1 else q_writers st), [])
  end.

Fixpoint queue_ops (st : queue) (l : list op) : list res * queue * list chan :=
  match l with
  | [] => ([], st, [])
  | o :: l' =>
      let '(r, st1, c) := queue_op st o in
      let '(rs, st2, cs) := queue_ops st1 l' in
      (r :: rs, st2, c ++ cs)
  end.

(** A write to a pipe with readers is not empty and does not leave more than
    4096 unread bytes; a descriptor is duplicated for one direction. *)
Definition op_fits (st : queue) (o : op) : Prop :=
  match o with
  | OWrite src => q_readers st ≠ 0 → src ≠ [] ∧ (length (q_bytes st) + length src ≤ 4096)%nat
  | ODup r w => r ≠ w
  | _ => True
  end.

Fixpoint fits (st : queue) (l : list op) : Prop :=
  match l with
  | [] => True
  | o :: l' => op_fits st o ∧ fits (queue_op st o).1.2 l'
  end.

(** The pipe [p] stands for the queue [st]. *)
Definition stands p (st : queue) : Prop :=
  holds p (q_bytes st) ∧ readers p = q_readers st ∧ writers p = q_writers st.

Lemma holds_new nb : holds (new nb) [].
Proof.
  split; [apply length_replicate|simpl; lia|done|simpl; lia| |done|done].
  intros i Hi. simpl in Hi. lia.
Qed.

#[local] Arguments write_inner : simpl never.
#[local] Arguments read_inner : simpl never.

Lemma holds_counts r w p q : holds p q → holds (set_counts r w p) q.
Proof. by intros []. Qed.

Lemma write_run p st src log :
  stands p st → op_fits st (OWrite src) →
  ∃ p', write src (p, log) = Done (WDone (Z.of_nat (length src)), (p', log ++ (queue_op st (OWrite src)).2)) ∧
    stands p' (queue_op st (OWrite src)).1.2.
Proof.
  intros (Hh & Hr & Hw) Hfit. unfold write. cbn [write_loop queue_op]. unfold the_pipe. mstep. cbn [fst]. rewrite Hr.
  destruct (Z.eqb_spec (q_readers st) 0) as [E0|E0]; cbn [fst snd].
  - exists p. unfold write_end, the_pipe. mstep. cbn [fst]. rewrite Hr, E0, app_nil_r. done.
  - destruct (Hfit E0) as [Hne Hl]. destruct (holds_write p _ src Hh Hne Hl) as (p' & Ew & Hh' & Hr' & Hw').
    exists p'. rewrite Ew. unfold set_pipe. unfold bind at 1, modify. cbn [fst snd]. rewrite Z.eqb_refl.
    unfold write_end, the_pipe. mstep. cbn [fst]. rewrite Hr', Hr, (proj2 (Z.eqb_neq _ _) E0).
    split; [done|]. by split_and!; [|rewrite Hr'|rewrite Hw'].
Qed.

Lemma read_queue_run p st k got log :
  stands p st →
  ∃ r p', read_loop (S k) k got (p, log) = Done (r, (p', log ++ (q_read st k got).2)) ∧
    (q_read st k got).1.1 = ResR r ∧ stands p' (q_read st k got).1.2.
Proof.
  intros (Hh & Hr & Hw). destruct (holds_read p _ k Hh) as (p' & E & Hh' & Hr' & Hw').
  cbn [read_loop]. unfold the_pipe. mstep. cbn [fst]. rewrite E. unfold set_pipe. unfold bind at 1, modify. cbn [fst snd].
  rewrite Hw', Hw. unfold q_read.
  assert (∀ x, read_end x (p', log) = Done (RDone x, (p', log ++ (if q_writers st =? 0 then [] else [CWpos])))) as Hend.
  { intros x. unfold read_end, the_pipe. mstep. cbn [fst]. rewrite Hw', Hw. destruct (q_writers st =? 0); [by rewrite app_nil_r|done]. }
  assert (∀ q', holds p' q' → stands p' (mkQueue q' (q_readers st) (q_writers st))) as Hst by (intros q' Hq'; by split_and!; [|rewrite Hr'|rewrite Hw']).
  specialize (Hend (got ++ take k (q_bytes st))).
  destruct (q_writers st =? 0) eqn:Ew; cbn [fst snd].
  { eexists _, p'. rewrite Hend. split; [done|]. split; [done|]. by apply Hst. }
  rewrite length_take. destruct (Nat.leb_spec k (length (q_bytes st))) as [Hk|Hk]; cbn [fst snd].
  { rewrite (proj2 (Nat.eqb_eq _ _)) by lia. eexists _, p'. rewrite Hend. split; [done|]. split; [done|]. by apply Hst. }
  rewrite Nat.min_r, (proj2 (Nat.eqb_neq _ _)) by lia. rewrite drop_ge in Hh' by lia. rewrite take_ge by lia.
  assert (empty p' = true) as He by (rewrite (h_empty _ _ Hh'); done).
  case_bool_decide as Hq.
  - rewrite Hq in *. cbn [length Nat.ltb Nat.leb]. mstep. rewrite He. cbn [fst snd]. rewrite !app_nil_r. eexists _, p'. split; [done|]. split; [done|]. by apply Hst.
  - assert (0 < length (q_bytes st))%nat as Hpos by (destruct (q_bytes st); [done|simpl; lia]).
    rewrite (proj2 (Nat.ltb_lt _ _) Hpos). unfold wakeup. unfold bind at 1, modify. cbn [fst snd]. rewrite He.
    eexists _, p'. split; [done|]. split; [done|]. by apply Hst.
Qed.

Lemma run_op_ok p st o log :
  stands p st → op_fits st o →
  ∃ p', run_op o (p, log) = Done ((queue_op st o).1.1, (p', log ++ (queue_op st o).2)) ∧ stands p' (queue_op st o).1.2.
Proof.
  intros Hs Hfit. pose proof Hs as (Hh & Hr & Hw). destruct o as [src|k|k got|reader|r w]; cbn [run_op].
  - destruct (write_run p st src log Hs Hfit) as (p' & E & Hs'). exists p'. unfold bind. rewrite E. split; [|done].
    cbn [queue_op]. by destruct (q_readers st =? 0).
  - destruct (read_queue_run p st k [] log Hs) as (r & p' & E & Er & Hs'). exists p'. unfold bind, read. rewrite E. cbn [queue_op]. by rewrite Er.
  - cbn [queue_op]. unfold read_resume. rewrite bind_assoc. unfold the_pipe. mstep. cbn [fst]. rewrite Hw, (h_empty _ _ Hh).
    destruct (q_writers st =? 0) eqn:Ew.
    + exists p. split; [|done]. unfold read_end, the_pipe, bind, gets, ret. cbn [fst snd]. by rewrite Hw, Ew, app_nil_r.
    + case_bool_decide; [exists p; split; [|done]; unfold bind, ret; by rewrite app_nil_r|].
      destruct (read_queue_run p st k got log Hs) as (r & p' & E & Er & Hs'). exists p'. unfold bind. rewrite E. by rewrite Er.
  - unfold close, bind, the_pipe, gets, set_pipe, modify, wakeup, ret. cbn [fst snd queue_op].
    destruct reader; eexists; (split; [cbn; by rewrite <- app_assoc|]); (split; [by apply holds_counts|]); simpl; by rewrite ?Hr, ?Hw.
  - cbn in Hfit. cbn [queue_op]. unfold dup. assert (negb (eqb r w) = true) as -> by (by destruct r, w).
    unfold bind, assert_, the_pipe, gets, set_pipe, modify, ret. cbn [fst snd]. rewrite app_nil_r.
    eexists. split; [reflexivity|]. split; [by apply holds_counts|]. simpl. by rewrite Hr, Hw.
Qed.

Lemma ops_stand l : ∀ p st log, stands p st → fits st l →
  ∃ p', run_ops l (p, log) = Done ((queue_ops st l).1.1, (p', log ++ (queue_ops st l).2)) ∧ stands p' (queue_ops st l).1.2.
Proof.
  induction l as [|o l IH]; intros p st log Hs Hf; cbn [run_ops queue_ops fits] in *; [exists p; by rewrite app_nil_r|].
  destruct Hf as [Ho Hf]. destruct (run_op_ok p st o log Hs Ho) as (p1 & E1 & Hs1). rewrite (bind_Done _ _ _ _ _ E1). cbv beta.
  destruct (queue_op st o) as [[r st1] c]. cbn [fst snd] in *.
  destruct (IH p1 st1 (log ++ c) Hs1 Hf) as (p2 & E2 & Hs2). rewrite (bind_Done _ _ _ _ _ E2).
  destruct (queue_ops st1 l) as [[rs st2] cs]. cbn [fst snd] in *. exists p2. split; [|done]. by rewrite <- app_assoc.
Qed.
End queue.

(** C16: a pipe is a queue: any sequence of calls of [write], [read], [close]
    and [dup], in which a read that goes to sleep goes on later, gives the
    results, the bytes, the sleeps and the wake-ups of the same calls on a queue
    of bytes, whatever the positions of the counters and however often they have
    wrapped, as long as no write to a pipe with readers is empty or leaves more
    than 4096 bytes unread.  A read sleeps exactly when there is a writer and
    not enough is there; one that comes back from a sleep to find no writer left
    returns what it had before and leaves what was written meanwhile. *)
Theorem pipe_is_queue (p : Pipe.t) (st : queue) (l : list op) (log : list Pipe.chan) :
  stands p st → fits st l →
  ∃ p', run_ops l (p, log) = Done ((queue_ops st l).1.1, (p', log ++ (queue_ops st l).2)) ∧ stands p' (queue_ops st l).1.2.
Proof. apply ops_stand. Qed.

(** ** What happens beyond the capacity *)
Section broken.
Import Pipe.
Implicit Types (p : t) (q : list Z).

Lemma overwrite_run p q src :
  holds p q → length q = 4096%nat → src ≠ [] → (length src ≤ 4096)%nat →
  ∃ p', write_inner p src = (Z.of_nat (length src), p') ∧ full p' = false ∧ empty p' = false ∧
    length (buf p') = 4096%nat ∧ readers p' = readers p ∧ avail p' = Z.of_nat (length src) ∧
    ∀ i, (i < length src)%nat → cell p' (rpos p' + Z.of_nat i) = src !! i.
Proof.
  intros Hh Hq Hne Hl. assert (0 < length src)%nat as Hpos by (destruct src; [done|simpl; lia]).
  pose proof (holds_mod p q Hh) as Hm. pose proof Hh as [B R Wp L C E Fu].
  assert (space p = 4096) as Hsp by (unfold space; rewrite Hm, Hq; cases_Z; zdiv).
  destruct (write_inner_spec p src B Fu) as (p' & Ew & B' & [Wr1 _] & Wp' & Rp' & Rd' & _ & E' & F').
  rewrite Hsp in *. replace (Nat.min (length src) (Z.to_nat 4096)) with (length src) in * by lia.
  rewrite take_ge in Wr1 by lia. exists p'. split_and!; [done| | |done|done| |].
  - rewrite F', Wp', Wp, Hq, wadd_wadd. apply bool_decide_eq_false_2. unfold wadd, wrap. intros Hw. zdiv.
  - rewrite E'. by rewrite (proj2 (Nat.ltb_lt _ _)).
  - unfold avail. rewrite Rp', Wp', Wp, wadd_wadd. unfold wadd. rewrite wrap_mod, Hq. cases_Z; zdiv.
  - intros i Hi. rewrite <- Wr1 by done. apply cell_mod. rewrite Rp'.
    rewrite <- (Zplus_mod_idemp_l (wpos p)), Hm, Zplus_mod_idemp_l, Hq. zdiv.
Qed.

(** ** Every call returns or sleeps *)
Lemma full_inner p src : full p = true → write_inner p src = (0, p).
Proof.
  intros Hf. unfold write_inner, put_parts, get_write_space. rewrite Hf. simpl. unfold wsub.
  rewrite Z.sub_diag. simpl. destruct p; simpl in *. subst. by destruct (_ =? _).
Qed.

Lemma write_loop_returns fuel : ∀ src p log,
  length (buf p) = 4096%nat → (length src < fuel)%nat →
  ∃ r p' log', write_loop fuel src (p, log) = Done (r, (p', log')) ∧ length (buf p') = 4096%nat ∧
    match r with
    | WDone n => 0 ≤ n ≤ Z.of_nat (length src)
    | WSleep rest => rest `suffix_of` src ∧ rest ≠ [] ∧ full p' = true
    end.
Proof.
  induction fuel as [|fuel IH]; intros src p log Hl Hf; [lia|]. cbn [write_loop].
  unfold the_pipe. mstep. cbn [fst].
  assert (∀ p1 log1, ∃ p' log', write_end src (p1, log1) = Done (WDone (Z.of_nat (length src)), (p', log')) ∧ p' = p1) as Hend.
  { intros p1 log1. unfold write_end, the_pipe. mstep. cbn [fst]. destruct (negb (readers p1 =? 0)); by eexists _, _. }
  destruct (readers p =? 0).
  { destruct (Hend p log) as (p' & log' & -> & ->). eexists _, _, _. split; [done|]. split; [done|lia]. }
  destruct (full p) eqn:Ef.
  - rewrite full_inner by done. unfold set_pipe. unfold bind at 1, modify. cbn [fst snd].
    destruct (Z.eqb_spec 0 (Z.of_nat (length src))) as [E0|E0].
    + destruct (Hend p log) as (p' & log' & -> & ->). eexists _, _, _. split; [done|]. split; [done|lia].
    + change (0 <? 0) with false. cbv iota. mstep. rewrite Ef. change (drop (Z.to_nat 0) src) with src.
      eexists _, _, _. split; [reflexivity|]. split_and!; try done. by destruct src.
  - pose proof (space_bounds p) as Hsp.
    destruct (write_inner_spec p src Hl Ef) as (p1 & E1 & Hl1 & _). set (n := Nat.min _ _) in *. rewrite E1.
    unfold set_pipe. unfold bind at 1, modify. cbn [fst snd].
    destruct (Z.eqb_spec (Z.of_nat n) (Z.of_nat (length src))) as [E0|E0].
    + destruct (Hend p1 log) as (p' & log' & -> & ->). eexists _, _, _. split; [done|]. split; [done|lia].
    + rewrite Nat2Z.id, (proj2 (Z.ltb_lt 0 _)) by lia. unfold wakeup. unfold bind at 1, modify. cbn [fst snd].
      destruct (full p1) eqn:Ef1.
      * eexists _, _, _. split; [reflexivity|]. split_and!; try done; [apply suffix_drop|].
        intros E. apply (f_equal length) in E. rewrite length_drop in E. simpl in E. lia.
      * destruct (IH (drop n src) p1 (log ++ [CRpos]) Hl1) as (r & p' & log' & E & Hl' & Hr);
          [rewrite length_drop; lia|]. exists r, p', log'. split; [exact E|]. split; [done|]. destruct r.
        -- rewrite length_drop in Hr. lia.
        -- destruct Hr as (Hs & ? & ?). split_and!; try done. etrans; [exact Hs|apply suffix_drop].
Qed.

Lemma empty_inner p k : empty p = true → read_inner p k = ([], p).
Proof.
  intros He. unfold read_inner, get_parts, get_read_space. rewrite He. simpl. unfold wsub.
  rewrite Z.sub_diag. simpl. destruct p; simpl in *. subst. by destruct (_ =? _).
Qed.

Lemma read_inner_spec p k :
  length (buf p) = 4096%nat → empty p = false →
  let n := Nat.min k (Z.to_nat (avail p)) in
  ∃ p' got, read_inner p k = (got, p') ∧ length (buf p') = 4096%nat ∧ length got = n ∧
    Some <$> got = stream p (rpos p) n ∧ writers p' = writers p.
Proof.
  intros Hl He n. destruct (get_parts_stream p k Hl He) as (p1 & got & E & Hs & Hlg & ->).
  unfold read_inner. rewrite E. eexists _, got. done.
Qed.

Lemma read_loop_returns fuel : ∀ k got p log,
  length (buf p) = 4096%nat → (k < fuel)%nat →
  ∃ r p' log', read_loop fuel k got (p, log) = Done (r, (p', log')) ∧ length (buf p') = 4096%nat ∧
    match r with
    | RDone x => got `prefix_of` x ∧ (length x ≤ length got + k)%nat ∧
        (writers p' = 0 ∨ length x = (length got + k)%nat)
    | RSleep k' x => (length x + k' = length got + k)%nat ∧ (0 < k')%nat ∧ empty p' = true ∧ writers p' ≠ 0
    end.
Proof.
  induction fuel as [|fuel IH]; intros k got p log Hl Hf; [lia|]. cbn [read_loop].
  unfold the_pipe. mstep. cbn [fst].
  assert (∀ x p1 log1, ∃ log', read_end x (p1, log1) = Done (RDone x, (p1, log'))) as Hend.
  { intros x p1 log1. unfold read_end, the_pipe. mstep. cbn [fst]. destruct (negb (writers p1 =? 0)); by eexists. }
  assert (∃ x p1, read_inner p k = (x, p1) ∧ length (buf p1) = 4096%nat ∧ (length x ≤ k)%nat ∧
    writers p1 = writers p ∧ (length x = 0%nat → k = 0%nat ∨ empty p1 = true)) as (x & p1 & E1 & Hl1 & Hx & Ew & H0).
  { destruct (empty p) eqn:Ee; [rewrite empty_inner by done; exists [], p; split_and!; simpl; try done; [lia|by right]|].
    destruct (read_inner_spec p k Hl Ee) as (p1 & x & E & Hl1 & Hlx & _ & Ew). exists x, p1.
    pose proof (avail_bounds p). split_and!; try done; [lia|]. intros Hz. left. lia. }
  rewrite E1. unfold set_pipe. unfold bind at 1, modify. cbn [fst snd].
  destruct (Z.eqb_spec (writers p1) 0) as [Hw|Hw].
  { destruct (Hend (got ++ x) p1 log) as (log' & ->). eexists _, _, _. split; [reflexivity|]. split; [done|].
    rewrite length_app. split; [by apply prefix_app_r|]. split; [lia|by left]. }
  destruct (Nat.eqb_spec (length x) k) as [Hk|Hk].
  { destruct (Hend (got ++ x) p1 log) as (log' & ->). eexists _, _, _. split; [reflexivity|]. split; [done|].
    rewrite length_app. split; [by apply prefix_app_r|]. split; [lia|right; lia]. }
  assert (∀ log1, ∃ log2, (if (0 <? length x)%nat then wakeup CWpos else ret tt) (p1, log1) = Done (tt, (p1, log2))) as Hwk
    by (intros log1; destruct (0 <? length x)%nat; by eexists).
  destruct (Hwk log) as (log2 & Ek). rewrite (bind_Done _ _ _ _ _ Ek). cbv beta.
  destruct (empty p1) eqn:Ee1.
  - eexists _, _, _. split; [reflexivity|]. split; [done|]. cbv iota beta. rewrite length_app. split_and!; try done; lia.
  - destruct (IH (k - length x)%nat (got ++ x) p1 log2 Hl1) as (r & p' & log' & E & Hl' & Hr).
    { destruct (decide (length x = 0%nat)) as [Hz|]; [destruct (H0 Hz); [lia|congruence]|lia]. }
    exists r, p', log'. split; [exact E|]. split; [done|]. rewrite length_app in Hr. destruct r.
    + destruct Hr as (Hp & Hle & Hor). split; [etrans; [by apply prefix_app_r|exact Hp]|]. split; [lia|].
      destruct Hor; [by left|right; lia].
    + destruct Hr as (? & ? & ? & ?). split_and!; try done; lia.
Qed.
End broken.

(** C35: the loops of [write] and [read] end: from any state of the buffer each
    call returns or goes to sleep within one pass per byte; a call sleeps only
    when it has work left and the pipe is marked full, or empty with a writer
    alive, and [read] returns short only when no writer is left. *)
Theorem pipe_calls_return (p : Pipe.t) (log : list Pipe.chan) (src : list Z) (k : nat) :
  length (Pipe.buf p) = 4096%nat →
  (∃ r p' log', Pipe.write src (p, log) = Done (r, (p', log')) ∧
     match r with
     | Pipe.WDone n => 0 ≤ n ≤ Z.of_nat (length src)
     | Pipe.WSleep rest => rest `suffix_of` src ∧ rest ≠ [] ∧ Pipe.full p' = true
     end) ∧
  (∃ r p' log', Pipe.read k (p, log) = Done (r, (p', log')) ∧
     match r with
     | Pipe.RDone x => (length x ≤ k)%nat ∧ (Pipe.writers p' = 0 ∨ length x = k)
     | Pipe.RSleep k' x => (length x + k' = k)%nat ∧ (0 < k')%nat ∧ Pipe.empty p' = true ∧ Pipe.writers p' ≠ 0
     end).
Proof.
  intros Hl. split.
  - destruct (write_loop_returns (S (length src)) src p log Hl) as (r & p' & log' & E & _ & Hr); [lia|].
    by exists r, p', log'.
  - destruct (read_loop_returns (S k) k [] p log Hl) as (r & p' & log' & E & _ & Hr); [lia|].
    exists r, p', log'. split; [done|]. destruct r; [|done]. by destruct Hr as (_ & ? & ?).
Qed.

(** The capacity is not enforced: with 4096 bytes unread and a reader
    present, a further write does not wait for the reader; it returns at once and
    what is read next is the new bytes, the 4096 older ones are gone. *)
Theorem pipe_overwrites (p : Pipe.t) (q src : list Z) (log : list Pipe.chan) :
  holds p q → length q = 4096%nat → Pipe.readers p ≠ 0 → src ≠ [] → (length src ≤ 4096)%nat →
  ∃ p' p'', Pipe.write src (p, log) = Done (Pipe.WDone (Z.of_nat (length src)), (p', log ++ [Pipe.CRpos])) ∧
    Pipe.read_inner p' (length src) = (src, p'').
Proof.
  intros Hh Hq Hr Hne Hl.
  destruct (overwrite_run p q src Hh Hq Hne Hl) as (p' & E & Hf & He & Hb & Hrd & Hav & Hc).
  destruct (read_inner_spec p' (length src) Hb He) as (p'' & got & Er & _ & Hlg & Hs & _).
  rewrite Hav, Nat2Z.id, Nat.min_id in *. exists p', p''. split.
  - unfold Pipe.write. cbn [Pipe.write_loop]. unfold Pipe.the_pipe. mstep. cbn [fst].
    rewrite (proj2 (Z.eqb_neq _ _)) by done. rewrite E. unfold Pipe.set_pipe. unfold bind at 1, modify. cbn [fst snd].
    rewrite Z.eqb_refl. unfold Pipe.write_end, Pipe.the_pipe. mstep. cbn [fst]. rewrite Hrd.
    rewrite (proj2 (Z.eqb_neq _ _)) by done. done.
  - rewrite Er. f_equal. apply (inj (fmap Some)). rewrite Hs. unfold stream. apply list_eq. intros i.
    rewrite !list_lookup_fmap. destruct (decide (i < length src)%nat) as [Hi|Hi].
    + rewrite lookup_seq_lt by done. cbn [fmap option_fmap option_map]. replace (Z.of_nat (0 + i)) with (Z.of_nat i) by lia.
      rewrite Hc by done. destruct (lookup_lt_is_Some_2 src i) as [x ->]; [lia|done].
    + by rewrite lookup_seq_ge, (proj2 (lookup_ge_None src i)) by lia.
Qed.

(** A write of nothing to an empty pipe with a reader marks it full as well
    as empty; from then on every write of something and every read, while both ends
    are open, goes to sleep having moved nothing and wakes nobody, and a resumed
    call sleeps again: the two ends wait for each other for ever. *)
Theorem pipe_empty_write_wedges (p : Pipe.t) (log : list Pipe.chan) :
  holds p [] → Pipe.readers p ≠ 0 → Pipe.writers p ≠ 0 →
  ∃ p', Pipe.write [] (p, log) = Done (Pipe.WDone 0, (p', log ++ [Pipe.CRpos])) ∧
    ∀ log', (∀ src, src ≠ [] → Pipe.write src (p', log') = Done (Pipe.WSleep src, (p', log')) ∧
                     Pipe.write_resume src (p', log') = Done (Pipe.WSleep src, (p', log'))) ∧
            (∀ k got, (0 < k)%nat → Pipe.read k (p', log') = Done (Pipe.RSleep k [], (p', log')) ∧
                     Pipe.read_resume k got (p', log') = Done (Pipe.RSleep k got, (p', log'))).
Proof.
  intros Hh Hr Hw. pose proof Hh as [B R Wp L C E Fu].
  destruct (write_inner_spec p [] B Fu) as (p' & Ew & _ & _ & Wp' & Rp' & Rd' & Wt' & E' & F').
  simpl in Wp', E'. rewrite E, bool_decide_eq_true_2 in E' by done.
  assert (Pipe.full p' = true) as Hf.
  { rewrite F', Wp', Wp, wadd_wadd. apply bool_decide_eq_true_2. simpl. rewrite wadd_small; lia. }
  assert (Pipe.readers p' =? 0 = false) as Hr' by (by rewrite Rd', (proj2 (Z.eqb_neq _ _))).
  assert (Pipe.writers p' =? 0 = false) as Hw' by (by rewrite Wt', (proj2 (Z.eqb_neq _ _))).
  exists p'. split.
  - unfold Pipe.write. cbn [Pipe.write_loop length]. unfold Pipe.the_pipe. mstep. cbn [fst].
    rewrite (proj2 (Z.eqb_neq _ _)) by done. rewrite Ew. unfold Pipe.set_pipe. unfold bind at 1, modify. cbn [fst snd].
    match goal with |- context [if ?b then _ else _] => change b with true end. cbv iota. unfold Pipe.write_end, Pipe.the_pipe. mstep. cbn [fst]. by rewrite Hr'.
  - intros log'. split.
    + intros src Hne. assert (0 =? Z.of_nat (length src) = false) as Hz
        by (apply Z.eqb_neq; destruct src; [done|simpl; lia]). split.
      * unfold Pipe.write. cbn [Pipe.write_loop]. unfold Pipe.the_pipe. mstep. cbn [fst]. rewrite Hr', full_inner by done.
        unfold Pipe.set_pipe. unfold bind at 1, modify. cbn [fst snd]. rewrite Hz. change (0 <? 0) with false. cbv iota. mstep.
        by rewrite Hf.
      * unfold Pipe.write_resume, Pipe.the_pipe. mstep. cbn [fst]. by rewrite Hr', Hf.
    + intros k got Hk. split.
      * unfold Pipe.read. cbn [Pipe.read_loop]. unfold Pipe.the_pipe. mstep. cbn [fst]. rewrite empty_inner by done.
        unfold Pipe.set_pipe. unfold bind at 1, modify. cbn [fst snd length app]. rewrite Hw'.
        destruct k; [lia|]. cbn [Nat.eqb]. change (0 <? 0)%nat with false. cbv iota. mstep. by rewrite E'.
      * unfold Pipe.read_resume, Pipe.the_pipe. mstep. cbn [fst]. by rewrite Hw', E'.
Qed.

(** ** Witnesses *)
Lemma pipe_is_queue_witness :
  let l := [ODup false true; OWrite [1; 2; 3]; ORead 2; ORead 2; OWrite [4]; OClose false; OResume 1 [3]; ORead 5] in
  ∃ p', run_ops l (Pipe.new false, []) =
      Done ([ResU; ResW (Pipe.WDone 3); ResR (Pipe.RDone [1; 2]); ResR (Pipe.RSleep 1 [3]); ResW (Pipe.WDone 1); ResU;
             ResR (Pipe.RDone [3]); ResR (Pipe.RDone [4])],
            (p', [Pipe.CRpos; Pipe.CWpos; Pipe.CWpos; Pipe.CRpos; Pipe.CWpos; Pipe.CRpos])) ∧ stands p' (mkQueue [] 1 0).
Proof.
  apply (pipe_is_queue (Pipe.new false) (mkQueue [] 1 0) [ODup false true; OWrite [1; 2; 3]; ORead 2; ORead 2; OWrite [4]; OClose false; OResume 1 [3]; ORead 5] []).
  - split; [apply holds_new|]. split; reflexivity.
  - split; [discriminate|]. split; [intros _; split; [discriminate|simpl; lia]|]. split; [exact I|]. split; [exact I|].
    split; [intros _; split; [discriminate|simpl; lia]|]. repeat split.
Defined.

Lemma pipe_calls_return_witness :
  ∃ r p' log', Pipe.write [1; 2] (Pipe.new false, []) = Done (r, (p', log')).
Proof.
  destruct (proj1 (pipe_calls_return (Pipe.new false) [] [1; 2] 1 (length_replicate _ _))) as (r & p' & log' & E & _).
  exists r, p', log'. exact E.
Defined.

Lemma pipe_overwrites_witness :
  ∃ p p' p'', holds p (replicate 4096 7) ∧
    Pipe.write [8] (p, []) = Done (Pipe.WDone 1, (p', [Pipe.CRpos])) ∧ Pipe.read_inner p' 1 = ([8], p'').
Proof.
  destruct (holds_write (Pipe.new false) [] (replicate 4096 7) (holds_new _)) as (p & _ & Hh & Hr & _).
  - intros E. apply (f_equal length) in E. rewrite length_replicate in E. discriminate E.
  - rewrite length_replicate. cbn [length]. lia.
  - rewrite app_nil_l in Hh.
    destruct (pipe_overwrites p (replicate 4096 7) [8] [] Hh) as (p' & p'' & E1 & E2).
    + apply length_replicate.
    + rewrite Hr. discriminate.
    + discriminate.
    + cbn [length]. lia.
    + exists p, p', p''. split; [exact Hh|]. split; [exact E1|exact E2].
Defined.

Lemma pipe_empty_write_wedges_witness :
  ∃ p p', holds p [] ∧ Pipe.write [] (p, []) = Done (Pipe.WDone 0, (p', [Pipe.CRpos])) ∧
    Pipe.write [5] (p', []) = Done (Pipe.WSleep [5], (p', [])).
Proof.
  assert (holds (Pipe.set_counts 1 1 (Pipe.new false)) []) as Hh by (destruct (holds_new false); split; done).
  destruct (pipe_empty_write_wedges (Pipe.set_counts 1 1 (Pipe.new false)) [] Hh) as (p' & E & H).
  - discriminate.
  - discriminate.
  - exists (Pipe.set_counts 1 1 (Pipe.new false)), p'. split; [exact Hh|]. split; [exact E|].
    apply (H []). discriminate.
Defined.
