(* ===== verification/Hoare.v ===== *)
(** * Partial correctness of state-passing code

    [hoare P m Q]: whenever [m] returns from a state with [P], the result and
    the new state satisfy [Q].  Panics, wild pointers and lack of fuel are
    outside of it; the theorems that exclude them say so on their own. *)
From S2P Require Import Prelude.

Definition hoare {S A} (P : S → Prop) (m : M S A) (Q : A → S → Prop) : Prop :=
  ∀ s a s', P s → m s = Done (a, s') → Q a s'.

(** [I] is an invariant of [m]. *)
Notation pres I m := (hoare I m (λ _, I)).

Create HintDb pres discriminated.

Section rules.
Context {S : Type}.
Implicit Types (P I : S → Prop).

Lemma hoare_ret {A} P (a : A) (Q : A → S → Prop) : (∀ s, P s → Q a s) → hoare P (ret a) Q.
Proof. intros H s a' s' HP [= <- <-]. auto. Qed.

Lemma hoare_bind {A B} P (m : M S A) (k : A → M S B) R Q :
  hoare P m R → (∀ a, hoare (R a) (k a) Q) → hoare P (bind m k) Q.
Proof.
  intros Hm Hk s b s' HP. unfold bind. destruct (m s) as [[a s1]|] eqn:E; [|done].
  apply Hk. by eapply Hm.
Qed.

Lemma hoare_conseq {A} P P' (m : M S A) Q Q' :
  hoare P' m Q' → (∀ s, P s → P' s) → (∀ a s, Q' a s → Q a s) → hoare P m Q.
Proof. intros H H1 H2 s a s' HP E. apply H2. eapply H; eauto. Qed.

Lemma hoare_post {A} P (m : M S A) Q Q' :
  hoare P m Q' → (∀ a s, Q' a s → Q a s) → hoare P m Q.
Proof. intros H H2. by eapply hoare_conseq. Qed.

Lemma hoare_fail {A} P e (Q : A → S → Prop) : hoare P (fail e) Q.
Proof. by intros s a s' _. Qed.

Lemma hoare_get P : hoare P get (λ a s, P s ∧ a = s).
Proof. intros s a s' HP [= <- <-]. done. Qed.

Lemma hoare_gets {A} P (f : S → A) : hoare P (gets f) (λ a s, P s ∧ a = f s).
Proof. intros s a s' HP [= <- <-]. done. Qed.

Lemma hoare_modify P (f : S → S) (Q : unit → S → Prop) :
  (∀ s, P s → Q tt (f s)) → hoare P (modify f) Q.
Proof. intros H s [] s' HP [= <-]. auto. Qed.

Lemma hoare_assert P b : hoare P (assert_ b) (λ _ s, P s ∧ b = true).
Proof. intros s a s' HP. destruct b; [|done]. by intros [= _ <-]. Qed.

Lemma hoare_unwrap {A} P (o : option A) : hoare P (unwrap o) (λ a s, P s ∧ o = Some a).
Proof. intros s a s' HP. destruct o; [|done]. by intros [= <- <-]. Qed.

Lemma hoare_lift {A} P (o : outcome A) : hoare P (lift o) (λ a s, P s ∧ o = Done a).
Proof. intros s a s' HP. unfold lift. destruct o; [|done]. by intros [= <- <-]. Qed.

Lemma hoare_pure {A} P (φ : Prop) (m : M S A) Q : (φ → hoare P m Q) → hoare (λ s, P s ∧ φ) m Q.
Proof. intros H s a s' [HP Hφ]. by apply H. Qed.

Lemma hoare_ex {A B} (P : B → S → Prop) (m : M S A) Q :
  (∀ b, hoare (P b) m Q) → hoare (λ s, ∃ b, P b s) m Q.
Proof. intros H s a s' [b HP]. by eapply H. Qed.

Lemma hoare_then_ret {A B} P (m : M S A) (b : B) Q :
  hoare P m (λ _, Q b) → hoare P (bind m (λ _, ret b)) Q.
Proof. intros H. eapply hoare_bind; [exact H|]. intros a. by apply hoare_ret. Qed.

(** A condition on what was read from the state may be dropped. *)
Lemma pres_bind {A B} I (m : M S A) (k : A → M S B) :
  pres I m → (∀ a, pres I (k a)) → pres I (bind m k).
Proof. intros. by eapply hoare_bind. Qed.

Lemma pres_ret {A} I (a : A) : pres I (ret a).
Proof. by apply hoare_ret. Qed.

Lemma pres_get I : pres I get.
Proof. eapply hoare_post; [apply hoare_get|by intros ?? [? _]]. Qed.

Lemma pres_gets {A} I (f : S → A) : pres I (gets f).
Proof. eapply hoare_post; [apply hoare_gets|by intros ?? [? _]]. Qed.

Lemma pres_assert I b : pres I (assert_ b).
Proof. eapply hoare_post; [apply hoare_assert|by intros ?? [? _]]. Qed.

Lemma pres_unwrap {A} I (o : option A) : pres I (unwrap o).
Proof. eapply hoare_post; [apply hoare_unwrap|by intros ?? [? _]]. Qed.

Lemma pres_lift {A} I (o : outcome A) : pres I (lift o).
Proof. eapply hoare_post; [apply hoare_lift|by intros ?? [? _]]. Qed.

Lemma pres_fail {A} I e : pres I (fail (A := A) e).
Proof. apply hoare_fail. Qed.

Lemma pres_forM {A} I (l : list A) (body : A → M S unit) :
  (∀ x, pres I (body x)) → pres I (forM l body).
Proof. intros H. induction l; simpl; [apply pres_ret|by apply pres_bind]. Qed.
End rules.

(** ** No fault: from every state with [P] the computation returns *)
Definition runs {S A} (P : S → Prop) (m : M S A) : Prop := ∀ s, P s → ∃ a s', m s = Done (a, s').

Section runs.
Context {S : Type}.
Implicit Types (P : S → Prop).

Lemma runs_ret {A} P (a : A) : runs P (ret a).
Proof. intros s _. by exists a, s. Qed.

Lemma runs_get P : runs P get.
Proof. intros s _. by exists s, s. Qed.

Lemma runs_modify P f : runs P (modify f).
Proof. intros s _. by exists tt, (f s). Qed.

Lemma runs_assert P b : b = true → runs P (assert_ b).
Proof. intros ->. apply runs_ret. Qed.

Lemma runs_bind {A B} P (m : M S A) (k : A → M S B) R :
  runs P m → hoare P m R → (∀ a, runs (R a) (k a)) → runs P (bind m k).
Proof.
  intros Hm Hh Hk s HP. destruct (Hm s HP) as (a & s1 & E). unfold bind. rewrite E. apply Hk. by eapply Hh.
Qed.

Lemma runs_pure {A} P (φ : Prop) (m : M S A) : (φ → runs P m) → runs (λ s, P s ∧ φ) m.
Proof. intros H s [HP Hφ]. by apply H. Qed.

Lemma runs_pre {A} P P' (m : M S A) : runs P' m → (∀ s, P s → P' s) → runs P m.
Proof. intros H HP s Hs. apply H. auto. Qed.

Lemma runs_forM {A} P (l : list A) (body : A → M S unit) :
  (∀ x, runs P (body x)) → (∀ x, pres P (body x)) → runs P (forM l body).
Proof. intros Hr Hp. induction l; simpl; [apply runs_ret|]. by eapply runs_bind. Qed.

(** A computation that returns, with what holds then. *)
Lemma runs_hoare {A} P (m : M S A) Q s :
  runs P m → hoare P m Q → P s → ∃ a s', m s = Done (a, s') ∧ Q a s'.
Proof. intros Hr Hh HP. destruct (Hr s HP) as (a & s' & E). exists a, s'. split; [done|]. by eapply Hh. Qed.
End runs.

#[export] Hint Resolve pres_ret pres_get pres_gets pres_assert pres_unwrap pres_lift pres_fail : pres.

(** Walk through a computation all of whose steps keep the invariant. *)
Ltac pres_step :=
  first
  [ solve [eauto 2 with pres]
  | match goal with |- hoare _ (bind _ _) _ => apply pres_bind; [|intros ?] end
  | match goal with |- hoare _ (forM _ _) _ => apply pres_forM; intros ? end
  | match goal with
    | |- hoare _ (let '(_, _) := ?x in _) _ => destruct x
    | |- hoare _ (if ?b then _ else _) _ => destruct b
    | |- hoare _ (match ?x with _ => _ end) _ => destruct x
    end
  | match goal with |- forall _, _ => intros ? end ].
Ltac pres_auto := repeat (cbv beta zeta; pres_step).
