(* ===== verification/Kst.v ===== *)
(** * The state the kernel's upper half shares

    Tasks ([sched.rs]), the file table ([fs.rs]), the console ([cons.rs]), the
    terminal settings ([tty.rs]) and the tick counter ([timer.rs]).  Pointers
    to tasks and files are indices into [TASKS] and [FS.files]: two
    descriptors that hold the same index share one file.  What the 9p client
    keeps is the type [X]. *)
From S2P Require Import Prelude Pipe.

Local Open Scope Z_scope.

(** ** [sched.rs]: tasks *)
Inductive State := Free | Used | Ready | Running | Sleeping | Zombie.

#[export] Instance State_eq_dec : EqDecision State.
Proof. solve_decision. Defined.

(** What a task sleeps on: [&pipe.rpos] and [&pipe.wpos] of the pipe in a file
    slot, the task a parent waits for, a 9p message. *)
Inductive chan :=
  | ChPipe (slot : nat) (c : Pipe.chan)
  | ChTask (t : nat)
  | ChMsg (p : Z).

#[export] Instance pchan_eq_dec : EqDecision Pipe.chan.
Proof. solve_decision. Defined.
#[export] Instance chan_eq_dec : EqDecision chan.
Proof. solve_decision. Defined.

Record FD := mkFD { fd_file : nat; fd_read : bool; fd_write : bool }.

Record Task := mkTask {
  parent : option nat;
  exit_code : Z;
  tid : option Z;
  state : State;
  t_chan : option chan;
  pid : Z;
  t_files : list (option FD);
  umask : Z;
  cwd : option (list Z);
  regs : list Z;
  umem : gmap Z Z;
}.

Definition NTASKS : nat := 8.
Definition NFDS : nat := 8.

(** [umask: 0777] is the decimal 777. *)
Definition task_zeroed : Task :=
  mkTask None 0 None Free None 0 (replicate NFDS None) 777 None (replicate 31 0) ∅.

Definition set_state (st : State) (t : Task) : Task :=
  mkTask (parent t) (exit_code t) (tid t) st (t_chan t) (pid t) (t_files t) (umask t) (cwd t) (regs t) (umem t).
Definition set_chan (c : option chan) (t : Task) : Task :=
  mkTask (parent t) (exit_code t) (tid t) (state t) c (pid t) (t_files t) (umask t) (cwd t) (regs t) (umem t).
Definition set_files (fs : list (option FD)) (t : Task) : Task :=
  mkTask (parent t) (exit_code t) (tid t) (state t) (t_chan t) (pid t) fs (umask t) (cwd t) (regs t) (umem t).
Definition set_umask (m : Z) (t : Task) : Task :=
  mkTask (parent t) (exit_code t) (tid t) (state t) (t_chan t) (pid t) (t_files t) m (cwd t) (regs t) (umem t).
Definition set_cwd (p : option (list Z)) (t : Task) : Task :=
  mkTask (parent t) (exit_code t) (tid t) (state t) (t_chan t) (pid t) (t_files t) (umask t) p (regs t) (umem t).
Definition set_umem (m : gmap Z Z) (t : Task) : Task :=
  mkTask (parent t) (exit_code t) (tid t) (state t) (t_chan t) (pid t) (t_files t) (umask t) (cwd t) (regs t) m.

(** A wait queue: the first [wq_count] entries of an array of [NTASKS]. *)
Record Wq := mkWq { wq_tasks : list (option nat); wq_count : nat }.
Definition wq_new : Wq := mkWq (replicate NTASKS None) 0.

(** ** [fs.rs]: files *)
Inductive FileKind :=
  | KNone
  | KUsed
  | KP9 (h : Z)
  | KCons
  | KPipe (p : Pipe.t).

Record File := mkFile { kind : FileKind; rc : Z; offt : Z; path : option (list Z) }.
Definition file_zeroed : File := mkFile KNone 0 0 None.
Definition NFILES : nat := 128.

(** ** [tty.rs], [cons.rs], [timer.rs] *)
Record Termios := mkTermios { tc_i : Z; tc_o : Z; tc_c : Z; tc_l : Z; tc_line : Z; tc_cc : list Z }.

Record Cons := mkCons { c_buf : list Z; c_wq : Wq }.

Record Ticks := mkTicks { t_now : Z; t_wq : Wq }.

(** ** All of it; [uart] is what was written to the serial port. *)
Record KSt (X : Type) := mkK {
  k_files : list File;
  k_tasks : list Task;
  task_idx : option nat;
  k_cons : Cons;
  k_tty : Termios;
  k_ticks : Ticks;
  uart : list Z;
  k_x : X;
}.
Arguments mkK {X}.
Arguments k_files {X}.
Arguments k_tasks {X}.
Arguments task_idx {X}.
Arguments k_cons {X}.
Arguments k_tty {X}.
Arguments k_ticks {X}.
Arguments uart {X}.
Arguments k_x {X}.

Definition KM (X : Type) := M (KSt X).

(** What the 9p client promises to the file layer: one operation per function
    of [p9.rs] that [fs.rs] calls, on handles ([&'static mut p9::File]) and on
    paths.  A [Stat] is returned as the fields it writes: offset and bytes. *)
Definition patch := list (nat * list Z).

Class P9Api (X : Type) := {
  p9_open : list Z → Z → M X (option Z);
  p9_read : Z → nat → Z → M X (option (list Z));
  p9_write : Z → list Z → Z → M X (option Z);
  p9_close : Z → M X (option unit);
  p9_get_size : Z → M X Z;
  p9_fstat : Z → M X (option patch);
  p9_getdents64 : Z → nat → Z → M X (option (list Z * Z));
  p9_stat : list Z → bool → M X (option patch);
  p9_truncate : list Z → Z → M X (option unit);
  p9_exists : list Z → M X bool;
  p9_remove : list Z → M X (option unit);
  p9_mkdir : list Z → Z → M X (option unit);
  p9_symlink : list Z → list Z → M X (option unit);
  p9_readlink : list Z → M X (option (list Z));
  p9_rename : list Z → list Z → M X (option unit);
  p9_link : list Z → list Z → bool → M X (option unit);
}.

Section access.
Context {X : Type}.
Implicit Types (s : KSt X).

Definition with_files (f : list File → list File) s : KSt X :=
  mkK (f (k_files s)) (k_tasks s) (task_idx s) (k_cons s) (k_tty s) (k_ticks s) (uart s) (k_x s).
Definition with_tasks (f : list Task → list Task) s : KSt X :=
  mkK (k_files s) (f (k_tasks s)) (task_idx s) (k_cons s) (k_tty s) (k_ticks s) (uart s) (k_x s).
Definition with_idx (i : option nat) s : KSt X :=
  mkK (k_files s) (k_tasks s) i (k_cons s) (k_tty s) (k_ticks s) (uart s) (k_x s).
Definition with_cons (f : Cons → Cons) s : KSt X :=
  mkK (k_files s) (k_tasks s) (task_idx s) (f (k_cons s)) (k_tty s) (k_ticks s) (uart s) (k_x s).
Definition with_tty (t : Termios) s : KSt X :=
  mkK (k_files s) (k_tasks s) (task_idx s) (k_cons s) t (k_ticks s) (uart s) (k_x s).
Definition with_ticks (f : Ticks → Ticks) s : KSt X :=
  mkK (k_files s) (k_tasks s) (task_idx s) (k_cons s) (k_tty s) (f (k_ticks s)) (uart s) (k_x s).
Definition with_uart (f : list Z → list Z) s : KSt X :=
  mkK (k_files s) (k_tasks s) (task_idx s) (k_cons s) (k_tty s) (k_ticks s) (f (uart s)) (k_x s).
Definition with_x (x : X) s : KSt X :=
  mkK (k_files s) (k_tasks s) (task_idx s) (k_cons s) (k_tty s) (k_ticks s) (uart s) x.

(** A call into the 9p client. *)
Definition on_x {A} (m : M X A) : KM X A := λ s,
  match m (k_x s) with
  | Done (a, x) => Done (a, with_x x s)
  | Fault e => Fault e
  end.

(** [FS.files[i]]: the slots are handed out by [alloc_file], so the index is in range. *)
Definition get_slot (i : nat) : KM X File := let! s := get in unwrap (k_files s !! i).
Definition set_slot (i : nat) (f : File) : KM X unit := modify (with_files <[i := f]>).

(** [mycpu().get_task().unwrap()] *)
Definition cur : KM X nat := let! s := get in unwrap (task_idx s).
Definition get_tsk (i : nat) : KM X Task := let! s := get in unwrap (k_tasks s !! i).
Definition upd_tsk (i : nat) (f : Task → Task) : KM X unit := modify (with_tasks (alter f i)).
Definition cur_task : KM X Task := let! i := cur in get_tsk i.
Definition upd_cur (f : Task → Task) : KM X unit := let! i := cur in upd_tsk i f.

(** [tf.regs[i]] *)
Definition reg (i : nat) : KM X Z := let! t := cur_task in unwrap (regs t !! i).

(** ** User memory: a raw pointer outside of it is not ours *)
Definition read_u8 (m : gmap Z Z) (a : Z) : outcome Z :=
  match m !! a with Some b => Done b | None => Fault FUB end.

Fixpoint read_bytes (m : gmap Z Z) (a : Z) (n : nat) : outcome (list Z) :=
  match n with
  | O => Done []
  | S n' => let? b := read_u8 m a in let? bs := read_bytes m (a + 1) n' in Done (b :: bs)
  end.

Fixpoint write_bytes (m : gmap Z Z) (a : Z) (bs : list Z) : outcome (gmap Z Z) :=
  match bs with
  | [] => Done m
  | b :: bs' => let? _ := read_u8 m a in write_bytes (<[a := b]> m) (a + 1) bs'
  end.

(** [as_slice(ptr, len)] read, [as_slice_mut(ptr, len)] written from its start. *)
Definition user_read (a : Z) (n : nat) : KM X (list Z) := let! t := cur_task in lift (read_bytes (umem t) a n).
Definition user_write (a : Z) (bs : list Z) : KM X unit :=
  let! t := cur_task in
  let! m := lift (write_bytes (umem t) a bs) in
  upd_cur (set_umem m).

(** [cstr_as_slice]: up to the first zero byte; [fuel] bounds the string by the
    number of mapped bytes. *)
Fixpoint cstr_at (fuel : nat) (m : gmap Z Z) (a : Z) : outcome (list Z) :=
  match fuel with
  | O => Fault FUB
  | S fuel' =>
      let? b := read_u8 m a in
      if b =? 0 then Done [] else let? bs := cstr_at fuel' m (a + 1) in Done (b :: bs)
  end.

Definition user_cstr (a : Z) : KM X (list Z) :=
  let! t := cur_task in lift (cstr_at (S (size (umem t))) (umem t) a).

(** ** [sched.rs]: sleeping and waking *)
Definition wake_if (p : Task → bool) (t : Task) : Task :=
  if decide (state t = Sleeping) then if p t then set_state Ready t else t else t.

Definition wakeup (c : chan) : KM X unit :=
  modify (with_tasks (fmap (wake_if (λ t, bool_decide (t_chan t = Some c))))).

(** [Wq::add]: the array has room for every task. *)
Definition wq_add (t : nat) (q : Wq) : outcome Wq :=
  if decide (Some t ∈ take (wq_count q) (wq_tasks q)) then Done q
  else if (wq_count q <? length (wq_tasks q))%nat
       then Done (mkWq (<[wq_count q := Some t]> (wq_tasks q)) (S (wq_count q)))
       else Fault FPanic.

(** [Wq::wake_all]: every task of the queue that sleeps, whatever it sleeps on. *)
Definition wake_listed (q : Wq) (ts : list Task) : list Task :=
  foldl (λ ts o, match o with Some i => alter (wake_if (λ _, true)) i ts | None => ts end)
        ts (take (wq_count q) (wq_tasks q)).

Definition wq_cleared (q : Wq) : Wq := mkWq (wq_tasks q) 0.

(** While a task sleeps the others run: [others] stands for what they do until
    the scheduler comes back to it. *)
Context (others : option chan → KM X unit).

Definition back : KM X unit := upd_cur (set_chan None).

(** [sched()] from a sleep: away, and back as the running task. *)
Definition sched_away (c : option chan) : KM X unit :=
  let! i := cur in
  upd_tsk i (λ t, set_chan c (set_state Sleeping t)) ;;;
  others c ;;;
  modify (with_idx (Some i)) ;;;
  upd_tsk i (set_state Running).

Definition sleep (c : chan) : KM X unit := sched_away (Some c) ;;; back.
End access.
