(* ===== verification/Cons.v ===== *)
(** * [cons.rs], [tty.rs], [uart.rs], [timer.rs], [rtc.rs]: the console and the clock *)
From S2P Require Import Prelude Pipe Kst.

Local Open Scope Z_scope.

(** ** [tty.rs] *)
Module TC.
Definition ICRNL : Z := Z.shiftl 1 8.
Definition OPOST : Z := Z.shiftl 1 0.
Definition ONLCR : Z := Z.shiftl 1 2.
Definition ISIG : Z := Z.shiftl 1 0.
Definition ICANON : Z := Z.shiftl 1 1.
Definition ECHO : Z := Z.shiftl 1 3.
End TC.

Definition NCCS : nat := 32.

(** [V::INTR], [V::ERASE], [V::KILL] and [V::EOF] are set. *)
Definition make_cc : list Z :=
  <[4%nat := 4]> (<[3%nat := 21]> (<[2%nat := 127]> (<[0%nat := 3]> (replicate NCCS 0)))).

Definition TERMIOS : Termios :=
  mkTermios TC.ICRNL (Z.lor TC.OPOST TC.ONLCR) 0 (Z.lor (Z.lor TC.ICANON TC.ECHO) TC.ISIG) 0 make_cc.

Definition tty_echo (t : Termios) : bool := negb (Z.land (tc_l t) TC.ECHO =? 0).
Definition tty_icanon (t : Termios) : bool := negb (Z.land (tc_l t) TC.ICANON =? 0).
Definition tty_opost (t : Termios) : bool := negb (Z.land (tc_o t) TC.OPOST =? 0).
Definition tty_onlcr (t : Termios) : bool := negb (Z.land (tc_o t) TC.ONLCR =? 0).

Section cons.
Context {X : Type}.
Notation KM := (KM X).

(** [get_termios] leaves out [cc] and the speeds; a null pointer is an [unwrap] on [None]. *)
Definition get_termios (ptr : Z) : KM Z :=
  assert_ (negb (ptr =? 0)) ;;;
  let! s := get in
  let t := k_tty s in
  user_write ptr (le_bytes 4 (tc_i t) ++ le_bytes 4 (tc_o t) ++ le_bytes 4 (tc_c t) ++ le_bytes 4 (tc_l t) ++ [tc_line t]) ;;;
  ret 0.

Definition set_termios (ptr : Z) : KM Z :=
  assert_ (negb (ptr =? 0)) ;;;
  let! b := user_read ptr (17 + NCCS) in
  let w i := of_le_bytes (take 4 (drop i b)) in
  modify (with_tty (mkTermios (w 0%nat) (w 4%nat) (w 8%nat) (w 12%nat) (nth 16 b 0) (drop 17 b))) ;;;
  ret 0.

Definition get_winsz (ptr : Z) : KM Z :=
  assert_ (negb (ptr =? 0)) ;;;
  user_write ptr (le_bytes 2 24 ++ le_bytes 2 80 ++ le_bytes 2 0 ++ le_bytes 2 0) ;;;
  ret 0.

(** ** [uart.rs], [cons.rs] *)
Definition putc (c : Z) : KM unit := modify (with_uart (λ o, o ++ [c])).

Definition cons_write (buf : list Z) : KM nat :=
  forM buf (λ c,
    let! s := get in
    (if tty_opost (k_tty s) && tty_onlcr (k_tty s) && (c =? 10) then putc 13 else ret tt) ;;;
    putc c) ;;;
  ret (length buf).

Definition cons_readable : KM bool := gets (λ s, negb (bool_decide (c_buf (k_cons s) = []))).

Definition cons_wq_add (t : nat) : KM unit :=
  let! s := get in
  let! q := lift (wq_add t (c_wq (k_cons s))) in
  modify (with_cons (λ c, mkCons (c_buf c) q)).

Definition cons_wait4readable : KM unit := let! t := cur in cons_wq_add t.

Definition cons_wake_all : KM unit :=
  modify (λ s, with_cons (λ c, mkCons (c_buf c) (wq_cleared (c_wq c)))
                 (with_tasks (wake_listed (c_wq (k_cons s))) s)).

Definition set_buf (b : list Z) : KM unit := modify (with_cons (λ c, mkCons b (c_wq c))).

Definition put_backspace : KM unit := putc 8 ;;; putc 32 ;;; putc 8.

Definition push_char (c : Z) : KM unit :=
  let! s := get in
  let b := c_buf (k_cons s) in
  if negb (tty_icanon (k_tty s)) then set_buf (b ++ [c]) ;;; cons_wake_all
  else if c =? 127 then
    if decide (b = []) then ret tt
    else
      (if tty_echo (k_tty s) then put_backspace else ret tt) ;;;
      set_buf (removelast b)
  else
    let c := if c =? 13 then 10 else c in
    (if tty_echo (k_tty s) then putc c else ret tt) ;;;
    set_buf (b ++ [c]) ;;;
    (if c =? 10 then cons_wake_all else ret tt).

(** [handle_rx]: the characters the port has for us. *)
Definition handle_rx (rx : list Z) : KM unit := forM rx push_char.

(** The [while let] of [read_line]: what it pops, what is left, and whether it stops. *)
Fixpoint pop_line (icanon : bool) (q : list Z) (k : nat) : list Z * list Z * bool :=
  match q with
  | [] => ([], [], false)
  | c :: q' =>
      if (c =? 10) || (k =? 1)%nat || negb icanon then ([c], q', true)
      else let '(x, r, st) := pop_line icanon q' (k - 1) in (c :: x, r, st)
  end.

(** [naps]: how often the task may be put to sleep before the model gives up. *)
Context (others : option chan → KM unit).

(** [wq.sleep(lock)] *)
Definition cons_sleep : KM unit := let! t := cur in cons_wq_add t ;;; sched_away others None.

Fixpoint read_line_loop (naps : nat) (k : nat) (got : list Z) : KM (list Z) :=
  let! s := get in
  let '(x, r, stop) := pop_line (tty_icanon (k_tty s)) (c_buf (k_cons s)) k in
  set_buf r ;;;
  if stop then ret (got ++ x)
  else match naps with
       | O => fail FFuel
       | S naps' => cons_sleep ;;; read_line_loop naps' (k - length x) (got ++ x)
       end.

Definition read_line (naps : nat) (k : nat) : KM (list Z) :=
  if (k =? 0)%nat then ret [] else read_line_loop naps k [].

(** ** [timer.rs], [rtc.rs] *)
Definition ticks_wake_all : KM unit :=
  modify (λ s, with_ticks (λ t, mkTicks (t_now t +! 1) (wq_cleared (t_wq t)))
                 (with_tasks (wake_listed (t_wq (k_ticks s))) s)).

Definition read_tick : KM Z := gets (λ s, t_now (k_ticks s)).

Definition add2wait : KM unit :=
  let! t := cur in
  let! s := get in
  let! q := lift (wq_add t (t_wq (k_ticks s))) in
  modify (with_ticks (λ k, mkTicks (t_now k) q)).

(** [timer::sleep]: at most [naps] ticks or other wake-ups are waited for. *)
Fixpoint tick_loop (naps : nat) (start millis : Z) : KM unit :=
  let! now := read_tick in
  if now -! start <? millis then
    match naps with
    | O => fail FFuel
    | S naps' => add2wait ;;; sched_away others None ;;; tick_loop naps' start millis
    end
  else ret tt.

Definition timer_sleep (naps : nat) (millis : Z) : KM unit :=
  let! start := read_tick in tick_loop naps start millis.

(** [KernelTimespec::millis]: hundredths of a second, as the tick counts them;
    the division of an [i64] truncates. *)
Definition ts_millis (sec nsec : Z) : Z :=
  wrap 64 (wmul 64 (signed 64 sec) 100 + Z.quot (signed 64 nsec) 10000000).

Definition clock_nanosleep (naps : nat) : KM Z :=
  let! p := reg 2 in
  assert_ (negb (p =? 0)) ;;;
  let! b := user_read p 16 in
  timer_sleep naps (ts_millis (of_le_bytes (take 8 b)) (of_le_bytes (drop 8 b))) ;;;
  ret 0.

(** [clock_gettime]: [now] is the register of the real-time clock. *)
Definition clock_gettime (now : Z) : KM Z :=
  let! id := reg 0 in
  if id =? 5 then let! p := reg 1 in user_write p (le_bytes 8 now ++ le_bytes 8 0) ;;; ret 0 else panic.
End cons.
