(* ===== verification/ConsSpec.v ===== *)
(** * The console and the clock: lines in, ticks counted, sleepers woken *)
From S2P Require Import Prelude Pipe Kst Hoare Cons.

Local Open Scope Z_scope.

Section lines.
Context {X : Type}.
Implicit Types (s : KSt X).

(** The characters as the canonical mode edits them. *)
Definition edit1 (b : list Z) (c : Z) : list Z :=
  if c =? 127 then removelast b else b ++ [if c =? 13 then 10 else c].
Definition edit : list Z → list Z → list Z := foldl edit1.

Definition canonical s : Prop := tty_icanon (k_tty s) = true.

(** Everything but the buffer, the output and who sleeps. *)
Definition same_rest s s' : Prop := k_tty s' = k_tty s ∧ k_files s' = k_files s ∧ k_x s' = k_x s ∧ task_idx s' = task_idx s.

#[global] Instance same_rest_po : PreOrder same_rest.
Proof. split; [by intros s|]. intros s1 s2 s3 (A & B & C & D) (A' & B' & C' & D'). repeat split; congruence. Qed.

Definition line_end (c : Z) : bool := (c =? 10) || (c =? 13).

Lemma putc_eq c s : putc c s = Done (tt, with_uart (λ o, o ++ [c]) s).
Proof. done. Qed.

(** One key. *)
Lemma push_char_canonical c s :
  canonical s → ∃ s', push_char c s = Done (tt, s') ∧ c_buf (k_cons s') = edit1 (c_buf (k_cons s)) c ∧ same_rest s s' ∧
    k_tasks s' = (if line_end c then wake_listed (c_wq (k_cons s)) (k_tasks s) else k_tasks s) ∧
    c_wq (k_cons s') = (if line_end c then wq_cleared (c_wq (k_cons s)) else c_wq (k_cons s)).
Proof.
  intros Hc. unfold canonical in Hc. unfold push_char, bind at 1, get. rewrite Hc. cbn [negb]. unfold edit1, line_end.
  destruct (Z.eqb_spec c 127) as [->|H127].
  - cbn [orb Z.eqb]. destruct (decide _) as [E|E].
    + eexists. split; [reflexivity|]. rewrite E. done.
    + unfold put_backspace, set_buf, bind, putc, modify, ret. destruct (tty_echo _); eexists; (split; [reflexivity|done]).
  - destruct (Z.eqb_spec c 13) as [->|H13].
    + cbn [Z.eqb orb]. unfold set_buf, cons_wake_all, bind, putc, modify, ret.
      destruct (tty_echo _); eexists; (split; [reflexivity|done]).
    + destruct (Z.eqb_spec c 10) as [->|H10]; cbn [Z.eqb orb]; unfold set_buf, cons_wake_all, bind, putc, modify, ret;
        destruct (tty_echo _); eexists; (split; [reflexivity|done]).
Qed.

Lemma handle_rx_canonical rx : ∀ s, canonical s →
  ∃ s', handle_rx rx s = Done (tt, s') ∧ c_buf (k_cons s') = edit (c_buf (k_cons s)) rx ∧ same_rest s s'.
Proof.
  induction rx as [|c rx IH]; intros s Hc; [exists s; split_and!; done|].
  destruct (push_char_canonical c s Hc) as (s1 & E1 & B1 & R1 & _).
  assert (canonical s1) as Hc1 by (unfold canonical; destruct R1 as [-> _]; done).
  destruct (IH s1 Hc1) as (s2 & E2 & B2 & R2). exists s2. split_and!.
  - unfold handle_rx in *. by rewrite (forM_cons _ _ _ _ _ E1).
  - unfold edit in *. cbn [foldl]. by rewrite B2, B1.
  - by etransitivity.
Qed.

(** The first line of the buffer. *)
Lemma pop_line_canonical l : ∀ rest k, (10 ∉ l) → (length l < k)%nat →
  pop_line true (l ++ 10 :: rest) k = (l ++ [10], rest, true).
Proof.
  induction l as [|c l IH]; intros rest k Hl Hk; [done|]. cbn [app pop_line].
  apply not_elem_of_cons in Hl as [Hc Hl]. simpl in Hk.
  rewrite (proj2 (Z.eqb_neq _ _)) by congruence. rewrite (proj2 (Nat.eqb_neq _ _)) by lia. cbn [orb negb].
  rewrite IH; [done|done|lia].
Qed.

Lemma read_line_canonical others naps l rest k s :
  canonical s → c_buf (k_cons s) = l ++ 10 :: rest → 10 ∉ l → (length l < k)%nat →
  ∃ s', read_line others naps k s = Done (l ++ [10], s') ∧ c_buf (k_cons s') = rest ∧ same_rest s s' ∧ k_tasks s' = k_tasks s.
Proof.
  intros Hc Hb Hl Hk. unfold read_line. rewrite (proj2 (Nat.eqb_neq _ _)) by lia.
  unfold canonical in Hc. destruct naps; cbn [read_line_loop]; unfold bind at 1, get; rewrite Hc, Hb, pop_line_canonical by done;
    unfold set_buf, bind, modify, ret; eexists; (split; [reflexivity|done]).
Qed.
End lines.

(** C33: what is typed is what is read, a line at a time.  In canonical mode the
    characters the serial port delivers are edited (erase takes the last one
    back, a carriage return ends the line), and a read with room for it returns
    exactly the first line of the result, with its newline, without sleeping,
    and leaves the rest for later reads. *)
Theorem console_line {X} (others : option chan → KM X unit) (naps : nat) (s : KSt X) (rx line rest : list Z) (k : nat) :
  canonical s → edit (c_buf (k_cons s)) rx = line ++ 10 :: rest → 10 ∉ line → (length line < k)%nat →
  ∃ s1 s2, handle_rx rx s = Done (tt, s1) ∧ read_line others naps k s1 = Done (line ++ [10], s2) ∧
    c_buf (k_cons s2) = rest ∧ same_rest s s2.
Proof.
  intros Hc He Hl Hk. destruct (handle_rx_canonical rx s Hc) as (s1 & E1 & B1 & R1).
  assert (canonical s1) as Hc1 by (unfold canonical; destruct R1 as [-> _]; done).
  destruct (read_line_canonical others naps line rest k s1) as (s2 & E2 & B2 & R2 & _); [done|congruence|done|done|].
  exists s1, s2. split_and!; [done..|]. by etransitivity.
Qed.

(** Keys "a x DEL b CR c": the line is "ab", and "c" stays. *)
Lemma console_line_witness :
  let s := mkK (X := unit) [] [] (Some 0%nat) (mkCons [] wq_new) TERMIOS (mkTicks 0 wq_new) [] tt in
  ∃ s1 s2, handle_rx [97; 120; 127; 98; 13; 99] s = Done (tt, s1) ∧
    read_line (λ _, ret tt) 0 80 s1 = Done ([97; 98; 10], s2) ∧ c_buf (k_cons s2) = [99].
Proof.
  intros s. destruct (console_line (λ _, ret tt) 0 s [97; 120; 127; 98; 13; 99] [97; 98] [99] 80) as (s1 & s2 & E1 & E2 & B & _);
    [reflexivity|reflexivity|set_solver by lia|simpl; lia|].
  exists s1, s2. split_and!; [exact E1|exact E2|exact B].
Defined.
