(* ===== verification/Fs.v ===== *)
(** * [fs.rs]: the file table and the operations on a file, as code

    [File] operations take the slot of the file in [FS.files].  A
    [Result<T, ()>] is an [option T]; [panic!] on a file kind is [panic].  A
    call that sleeps in a pipe or in the console lets [others] run; [naps]
    bounds how often it may be put to sleep. *)
From S2P Require Import Prelude Pipe Kst Cons.

Local Open Scope Z_scope.

Section fs.
Context {X : Type} {api : P9Api X}.
Notation KM := (KM X).
Context (others : option chan → KM unit) (naps : nat).

(** ** [FS] *)
Fixpoint first_none (fs : list File) (i : nat) : option nat :=
  match fs with
  | [] => None
  | f :: fs' => match kind f with KNone => Some i | _ => first_none fs' (S i) end
  end.

Definition set_kind (k : FileKind) (f : File) : File := mkFile k (rc f) (offt f) (path f).
Definition set_rc (r : Z) (f : File) : File := mkFile (kind f) r (offt f) (path f).
Definition set_offt (o : Z) (f : File) : File := mkFile (kind f) (rc f) o (path f).

Definition upd_slot (i : nat) (f : File → File) : KM unit := let! x := get_slot i in set_slot i (f x).

Definition fs_alloc_file : KM (option nat) :=
  let! s := get in
  match first_none (k_files s) 0 with
  | Some i => upd_slot i (set_kind KUsed) ;;; ret (Some i)
  | None => ret None
  end.

Definition free_file (idx : nat) : KM unit := upd_slot idx (set_kind KNone).

(** [open]: the new file's slot. *)
Definition fs_open (p : list Z) (flags : Z) : KM (option nat) :=
  let! r := fs_alloc_file in
  match r with
  | Some idx =>
      let! h := on_x (p9_open p flags) in
      match h with
      | Some h => set_slot idx (mkFile (KP9 h) 1 0 (Some p)) ;;; ret (Some idx)
      | None => free_file idx ;;; ret None
      end
  | None => ret None
  end.

Definition open_pipe (nonblock : bool) : KM (option nat) :=
  let! r := fs_alloc_file in
  match r with
  | Some idx => set_slot idx (mkFile (KPipe (Pipe.new nonblock)) 1 0 None) ;;; ret (Some idx)
  | None => ret None
  end.

(** [open_cons] leaves the offset and the path of the slot as they were. *)
Definition open_cons : KM (option nat) :=
  let! r := fs_alloc_file in
  match r with
  | Some idx => upd_slot idx (λ f, set_rc 1 (set_kind KCons f)) ;;; ret (Some idx)
  | None => ret None
  end.

(** ** Calls into the pipe of a slot, with the wake-ups they make *)
Definition pipe_run {A} (i : nat) (p : Pipe.t) (m : Pipe.PipeM A) : KM A :=
  let! (a, ps) := lift (m (p, [])) in
  upd_slot i (set_kind (KPipe (fst ps))) ;;;
  forM (snd ps) (λ c, wakeup (ChPipe i c)) ;;;
  ret a.

(** The pipe of a file that is one: its [Box] is owned by the slot. *)
Definition pipe_of (i : nat) : KM Pipe.t :=
  let! f := get_slot i in match kind f with KPipe p => ret p | _ => panic end.

Fixpoint pipe_write_wait (n : nat) (i : nat) (r : Pipe.wres) : KM Z :=
  match r with
  | Pipe.WDone k => ret k
  | Pipe.WSleep rest =>
      match n with
      | O => fail FFuel
      | S n' =>
          sleep others (ChPipe i Pipe.CWpos) ;;;
          let! p := pipe_of i in
          let! r := pipe_run i p (Pipe.write_resume rest) in
          pipe_write_wait n' i r
      end
  end.

Definition pipe_write (i : nat) (p : Pipe.t) (buf : list Z) : KM Z :=
  let! r := pipe_run i p (Pipe.write buf) in pipe_write_wait naps i r.

Fixpoint pipe_read_wait (n : nat) (i : nat) (r : Pipe.rres) : KM (list Z) :=
  match r with
  | Pipe.RDone bs => ret bs
  | Pipe.RSleep k got =>
      match n with
      | O => fail FFuel
      | S n' =>
          sleep others (ChPipe i Pipe.CRpos) ;;;
          let! p := pipe_of i in
          let! r := pipe_run i p (Pipe.read_resume k got) in
          pipe_read_wait n' i r
      end
  end.

Definition pipe_read (i : nat) (p : Pipe.t) (len : nat) : KM (list Z) :=
  let! r := pipe_run i p (Pipe.read len) in pipe_read_wait naps i r.

(** ** [impl File] *)

(** The bytes read; the count is their number. *)
Definition read (i : nat) (len : nat) : KM (option (list Z)) :=
  let! f := get_slot i in
  if rc f =? 0 then ret None
  else match kind f with
       | KP9 h =>
           let! r := on_x (p9_read h len (offt f)) in
           match r with
           | Some bs => upd_slot i (set_offt (offt f +! Z.of_nat (length bs))) ;;; ret (Some bs)
           | None => ret None
           end
       | KCons => let! bs := read_line others naps len in ret (Some bs)
       | KPipe p => let! bs := pipe_read i p len in ret (Some bs)
       | _ => panic
       end.

Definition write (i : nat) (buf : list Z) : KM (option Z) :=
  let! f := get_slot i in
  if rc f =? 0 then ret None
  else match kind f with
       | KP9 h =>
           let! r := on_x (p9_write h buf (offt f)) in
           match r with
           | Some n => upd_slot i (set_offt (offt f +! n)) ;;; ret (Some n)
           | None => ret None
           end
       | KCons => let! n := cons_write buf in ret (Some (Z.of_nat n))
       | KPipe p => let! n := pipe_write i p buf in ret (Some n)
       | _ => panic
       end.

(** [rc.compare_exchange(1, 0)], then the file behind the last reference. *)
Definition close_last (i : nat) : KM (option unit) :=
  let! f := get_slot i in
  match kind f with
  | KP9 h =>
      let! r := on_x (p9_close h) in
      match r with
      | Some _ => upd_slot i (λ f, mkFile KNone (rc f) (offt f) None) ;;; ret (Some tt)
      | None => upd_slot i (λ f, set_rc (wadd 16 (rc f) 1) f) ;;; ret None
      end
  | KCons | KPipe _ => ret (Some tt)
  | _ => panic
  end.

Definition file_close (i : nat) (r w : bool) : KM (option unit) :=
  let! f := get_slot i in
  if rc f =? 0 then ret (Some tt)
  else
    (match kind f with
     | KPipe p => assert_ (negb (eqb r w)) ;;; pipe_run i p (Pipe.close r)
     | _ => ret tt
     end) ;;;
    if rc f =? 1 then upd_slot i (set_rc 0) ;;; close_last i
    else upd_slot i (λ f, set_rc (wsub 16 (rc f) 1) f) ;;; ret (Some tt).

Definition seek_to (i : nat) (o : Z) : KM unit := upd_slot i (set_offt o).

(** [offt as u64] of an [i32] sign-extends. *)
Definition seek_by (i : nat) (o : Z) : KM unit :=
  upd_slot i (λ f, set_offt (if 0 <? o then offt f +! sext 32 64 o else offt f -! sext 32 64 o) f).

Definition file_get_size (i : nat) : KM Z :=
  let! f := get_slot i in match kind f with KP9 h => on_x (p9_get_size h) | _ => ret 0 end.

(** [Seek::SET], [Seek::CUR] and [Seek::END] are 0, 1 and 2. *)
Definition file_lseek (i : nat) (o whence : Z) : KM (option Z) :=
  if (whence =? 0) || (whence =? 1) || (whence =? 2) then
    (if whence =? 0 then seek_to i (wrap 64 o)
     else if whence =? 2 then let! sz := file_get_size i in seek_to i (sz -! o)
     else seek_by i (signed 32 o)) ;;;
    let! f := get_slot i in ret (Some (offt f))
  else ret None.

Definition file_dup (i : nat) (r w : bool) : KM unit :=
  upd_slot i (λ f, set_rc (wadd 16 (rc f) 1) f) ;;;
  let! f := get_slot i in
  match kind f with
  | KPipe p => pipe_run i p (Pipe.dup r w)
  | _ => ret tt
  end.

(** [read_all]: a read of 0 bytes ends it, so the buffer bounds the turns. *)
Fixpoint read_all_loop (fuel : nat) (i : nat) (len : nat) (got : list Z) : KM (option (list Z)) :=
  match len with
  | O => ret (Some got)
  | _ =>
      match fuel with
      | O => fail FFuel
      | S fuel' =>
          let! r := read i len in
          match r with
          | None => ret None
          | Some [] => ret (Some got)
          | Some bs =>
              assert_ (length bs <=? len)%nat ;;;
              read_all_loop fuel' i (len - length bs) (got ++ bs)
          end
      end
  end.

Definition read_all (i : nat) (len : nat) : KM (option (list Z)) := read_all_loop len i len [].

(** [write_all]: [buf = &buf[n..]]; a write of 0 bytes is tried again. *)
Fixpoint write_all_loop (fuel : nat) (i : nat) (buf : list Z) : KM (option unit) :=
  match buf with
  | [] => ret (Some tt)
  | _ =>
      match fuel with
      | O => fail FFuel
      | S fuel' =>
          let! r := write i buf in
          match r with
          | None => ret None
          | Some n =>
              assert_ (n <=? Z.of_nat (length buf)) ;;;
              write_all_loop fuel' i (drop (Z.to_nat n) buf)
          end
      end
  end.

Definition write_all (i : nat) (buf : list Z) : KM (option unit) := write_all_loop (length buf) i buf.

(** [Pipe::stat] and [cons::File::stat]: [st_ino], [st_mode], [st_nlink], [st_size]. *)
Definition min_stat (mode : Z) : patch :=
  [(8%nat, le_bytes 8 0); (48%nat, le_bytes 8 0); (20%nat, le_bytes 4 1); (16%nat, le_bytes 4 mode)].

Definition file_fstat (i : nat) : KM (option patch) :=
  let! f := get_slot i in
  match kind f with
  | KP9 h => on_x (p9_fstat h)
  | KCons => ret (Some (min_stat 8192))
  | KPipe _ => ret (Some (min_stat 4096))
  | _ => panic
  end.

Definition file_getdents64 (i : nat) (len : nat) : KM (option (list Z)) :=
  let! f := get_slot i in
  match kind f with
  | KP9 h =>
      let! r := on_x (p9_getdents64 h len (offt f)) in
      match r with
      | Some (bs, o) => upd_slot i (set_offt o) ;;; ret (Some bs)
      | None => ret None
      end
  | _ => panic
  end.

(** [send]: 4096 bytes at a time. *)
Fixpoint send_loop (fuel : nat) (i to : nat) (rem : Z) : KM (option Z) :=
  if 0 <? rem then
    match fuel with
    | O => fail FFuel
    | S fuel' =>
        let! r := read i (Z.to_nat (Z.min rem 4096)) in
        match r with
        | None => ret None
        | Some [] => ret (Some rem)
        | Some bs =>
            assert_ (Z.of_nat (length bs) <=? Z.min rem 4096) ;;;
            let! w := write_all to bs in
            match w with
            | None => ret None
            | Some _ => send_loop fuel' i to (rem - Z.of_nat (length bs))
            end
        end
    end
  else ret (Some rem).

Definition send (i to : nat) (n : Z) : KM (option Z) :=
  let! r := send_loop (Z.to_nat n) i to n in
  ret ((λ rem, n - rem) <$> r).

Definition readable (i : nat) : KM bool :=
  let! f := get_slot i in
  match kind f with
  | KNone | KUsed => ret false
  | KP9 _ => ret true
  | KCons => cons_readable
  | KPipe _ => panic
  end.

Definition writeable (i : nat) : KM bool :=
  let! f := get_slot i in
  match kind f with
  | KNone | KUsed => ret false
  | KP9 _ | KCons => ret true
  | KPipe _ => panic
  end.

Definition is_ok (i : nat) : KM bool := writeable i.

Definition hanged_up (i : nat) : KM bool := ret false.

Definition wait4readable (i : nat) : KM unit :=
  let! f := get_slot i in
  match kind f with
  | KP9 _ => ret tt
  | KCons => cons_wait4readable
  | _ => panic
  end.

Definition is_pipe (i : nat) : KM bool :=
  let! f := get_slot i in ret (match kind f with KPipe _ => true | _ => false end).
End fs.
