(* ===== verification/FsSys.v ===== *)
(** * [fs.rs], [pipe.rs], [sched.rs]: descriptors and the system calls on files

    A system call reads its arguments from the registers of the running task
    and returns what [svc::handle] stores in register 0; [-n as u64] is
    [errno n] and [!0] is [errno 1]. *)
From S2P Require Import Prelude P9Msg Pipe Kst Cons Fs.

Local Open Scope Z_scope.

Definition errno (n : Z) : Z := 2 ^ 64 - n.
Definition FAIL : Z := errno 1.
Definition AT_FDCWD : Z := errno 100.
Definition AT_SYMLINK_NOFOLLOW : Z := 256.
Definition SYMLINK_FOLLOW : Z := 0x400.
Definition O_NONBLOCK : Z := Z.shiftl 1 11.

(** [files[i] = None] and [files[i] = Some(fd)]; the index was checked. *)
Definition set_fd (i : nat) (o : option FD) (t : Task) : Task := set_files (<[i := o]> (t_files t)) t.

Fixpoint first_free (l : list (option FD)) (i : nat) : option nat :=
  match l with
  | [] => None
  | None :: _ => Some i
  | Some _ :: l' => first_free l' (S i)
  end.

Section sys.
Context {X : Type} {api : P9Api X}.
Notation KM := (KM X).
Context (others : option chan → KM unit) (naps : nat).

(** ** [impl Task] *)

(** [self.files[idx]], which panics out of range. *)
Definition fd_at (idx : Z) : KM (option FD) :=
  let! t := cur_task in
  if idx <? Z.of_nat (length (t_files t)) then unwrap (t_files t !! Z.to_nat idx) else panic.

Definition task_get_file (idx : Z) : KM (option FD) :=
  let! t := cur_task in
  if Z.of_nat (length (t_files t)) <? idx then ret None else fd_at idx.

Definition task_alloc_file (fd : FD) : KM (option nat) :=
  let! t := cur_task in
  match first_free (t_files t) 0 with
  | Some i => upd_cur (set_fd i (Some fd)) ;;; ret (Some i)
  | None => ret None
  end.

Definition close_file (idx : Z) : KM unit :=
  let! o := fd_at idx in
  match o with
  | Some f => file_close (fd_file f) (fd_read f) (fd_write f) ;;; upd_cur (set_fd (Z.to_nat idx) None)
  | None => ret tt
  end.

Definition dup_file (idx : Z) : KM FD :=
  let! o := fd_at idx in
  match o with
  | Some f => file_dup (fd_file f) (fd_read f) (fd_write f) ;;; ret f
  | None => panic
  end.

(** ** Reading and writing *)

(** The descriptor of the calls that check its range. *)
Definition checked_fd (fd : Z) : KM (option FD) :=
  let! t := cur_task in
  if Z.of_nat (length (t_files t)) <=? fd then ret None else fd_at fd.

Definition or_fail {A} (k : A → Z) (o : option A) : Z := match o with Some a => k a | None => FAIL end.

Definition sys_write : KM Z :=
  let! fd := reg 0 in
  let! o := checked_fd fd in
  match o with
  | None => ret FAIL
  | Some f =>
      let! len := reg 2 in
      let! ptr := reg 1 in
      if ptr =? 0 then ret FAIL
      else
        let! buf := user_read ptr (Z.to_nat len) in
        let! r := write others naps (fd_file f) buf in
        ret (or_fail id r)
  end.

(** One [IOvec] after the other; [written] wraps like the [u64] it is. *)
Fixpoint writev_loop (f : nat) (ptr : Z) (n : nat) (written : Z) : KM Z :=
  match n with
  | O => ret written
  | S n' =>
      let! v := user_read ptr 16 in
      let! buf := user_read (of_le_bytes (take 8 v)) (Z.to_nat (of_le_bytes (drop 8 v))) in
      let! r := write others naps f buf in
      match r with
      | Some k => writev_loop f (ptr + 16) n' (written +! k)
      | None => ret FAIL
      end
  end.

Definition sys_writev : KM Z :=
  let! fd := reg 0 in
  let! o := checked_fd fd in
  match o with
  | None => ret FAIL
  | Some f =>
      let! n := reg 2 in
      let! ptr := reg 1 in
      if ptr =? 0 then ret FAIL else writev_loop (fd_file f) ptr (Z.to_nat n) 0
  end.

Definition sys_read : KM Z :=
  let! fd := reg 0 in
  let! o := checked_fd fd in
  match o with
  | None => ret FAIL
  | Some f =>
      let! len := reg 2 in
      let! ptr := reg 1 in
      if ptr =? 0 then ret FAIL
      else
        let! r := read others naps (fd_file f) (Z.to_nat len) in
        match r with
        | Some bs => user_write ptr bs ;;; ret (Z.of_nat (length bs))
        | None => ret FAIL
        end
  end.

Definition sys_getdents64 : KM Z :=
  let! fd := reg 0 in
  let! o := checked_fd fd in
  match o with
  | None => ret FAIL
  | Some f =>
      let! len := reg 2 in
      let! ptr := reg 1 in
      if ptr =? 0 then ret FAIL
      else
        let! r := file_getdents64 (fd_file f) (Z.to_nat len) in
        match r with
        | Some bs => user_write ptr bs ;;; ret (Z.of_nat (length bs))
        | None => ret FAIL
        end
  end.

Definition sys_lseek : KM Z :=
  let! fd := reg 0 in
  let! o := fd_at fd in
  match o with
  | None => ret (errno 2)
  | Some f =>
      let! off := reg 1 in
      let! whence := reg 2 in
      let! r := file_lseek (fd_file f) off whence in
      ret (match r with Some p => p | None => errno 29 end)
  end.

Definition sys_sendfile64 : KM Z :=
  let! out_fd := reg 0 in
  let! in_fd := reg 1 in
  let! off := reg 2 in
  let! cnt := reg 3 in
  let! i := fd_at in_fd in
  match i with
  | None => ret FAIL
  | Some fi =>
      let! o := fd_at out_fd in
      match o with
      | None => ret FAIL
      | Some fo =>
          (if off =? 0 then ret tt
           else let! b := user_read off 8 in seek_to (fd_file fi) (of_le_bytes b)) ;;;
          let! r := send others naps (fd_file fi) (fd_file fo) cnt in
          match r with
          | Some n =>
              (if off =? 0 then ret tt
               else let! x := get_slot (fd_file fi) in user_write off (le_bytes 8 (offt x))) ;;;
              ret n
          | None => ret FAIL
          end
      end
  end.

(** ** Paths *)

(** [str::from_utf8(cstr_as_slice(ptr)).unwrap()] *)
Definition user_path (ptr : Z) : KM (list Z) :=
  let! p := user_cstr ptr in assert_ (utf8_valid p) ;;; ret p.

Definition starts_with_slash (p : list Z) : bool := bool_decide (head p = Some 47).
Definition ends_with_slash (p : list Z) : bool := bool_decide (last p = Some 47).

Definition at_path (fd : Z) (p : list Z) : KM (option (list Z)) :=
  if starts_with_slash p then ret (Some p)
  else
    let! dir :=
      if fd =? AT_FDCWD then let! t := cur_task in let! d := unwrap (cwd t) in ret (Some d)
      else
        let! o := task_get_file fd in
        match o with
        | Some f => let! x := get_slot (fd_file f) in ret (path x)
        | None => ret None
        end in
    match dir with
    | Some d => ret (Some ((if ends_with_slash d then d else d ++ [47]) ++ p))
    | None => ret None
    end.

(** [let real_path = if let Ok(path) = at_path(..) { path } else { return -2 }] *)
Definition path_or (fd ptr : Z) (k : list Z → KM Z) : KM Z :=
  let! p := user_path ptr in
  let! r := at_path fd p in
  match r with Some p => k p | None => ret (errno 2) end.

Definition ok_or {A} (e : Z) (o : option A) : Z := match o with Some _ => 0 | None => e end.

(** [cpystr]: [copy_from_slice] wants equal lengths. *)
Definition cpystr (room : nat) (s : list Z) : outcome (list Z) :=
  let n := Nat.min room (length s) in
  if (n =? length s)%nat then Done s else Fault FPanic.

Definition PROC_SELF_FD_0 : list Z := [47; 112; 114; 111; 99; 47; 115; 101; 108; 102; 47; 102; 100; 47; 48].
Definition DEV_TTY : list Z := [47; 100; 101; 118; 47; 116; 116; 121].

Definition fs_readlink (p : list Z) (room : nat) : KM (option (list Z)) :=
  if decide (p = PROC_SELF_FD_0) then let! s := lift (cpystr room DEV_TTY) in ret (Some s)
  else
    let! r := on_x (p9_readlink p) in
    match r with
    | Some s => let! s := lift (cpystr room s) in ret (Some s)
    | None => ret None
    end.

Definition readlinkat : KM Z :=
  let! fd := reg 0 in
  let! ptr := reg 1 in
  let! out := reg 2 in
  let! len := reg 3 in
  path_or fd ptr (λ p,
    let! r := fs_readlink p (Z.to_nat len) in
    match r with
    | Some s => user_write out s ;;; ret (Z.of_nat (length s))
    | None => ret (errno 2)
    end).

Definition symlinkat : KM Z :=
  let! ptr := reg 0 in
  let! oldname := user_path ptr in
  let! fd := reg 1 in
  let! ptr := reg 2 in
  path_or fd ptr (λ p, let! r := on_x (p9_symlink oldname p) in ret (ok_or FAIL r)).

(** Both strings are read before either path is resolved. *)
Definition two_paths (k : list Z → list Z → KM Z) : KM Z :=
  let! oldfd := reg 0 in
  let! newfd := reg 2 in
  let! ptr := reg 1 in
  let! oldpath := user_path ptr in
  let! ptr := reg 3 in
  let! newpath := user_path ptr in
  let! o := at_path oldfd oldpath in
  match o with
  | None => ret (errno 2)
  | Some real_old =>
      let! n := at_path newfd newpath in
      match n with None => ret (errno 2) | Some real_new => k real_old real_new end
  end.

Definition renameat : KM Z :=
  two_paths (λ from to, let! r := on_x (p9_rename from to) in ret (ok_or (errno 2) r)).

Definition linkat : KM Z :=
  two_paths (λ from to,
    let! flags := reg 4 in
    let! r := on_x (p9_link from to (negb (Z.land flags SYMLINK_FOLLOW =? 0))) in
    ret (ok_or (errno 2) r)).

Definition unlinkat : KM Z :=
  let! fd := reg 0 in
  let! ptr := reg 1 in
  path_or fd ptr (λ p, let! r := on_x (p9_remove p) in ret (ok_or (errno 2) r)).

Definition mkdirat : KM Z :=
  let! fd := reg 0 in
  let! ptr := reg 1 in
  path_or fd ptr (λ p,
    let! mode := reg 2 in
    let! r := on_x (p9_mkdir p (wrap 32 mode)) in ret (ok_or FAIL r)).

Definition utimensat : KM Z :=
  let! fd := reg 0 in
  let! ptr := reg 1 in
  path_or fd ptr (λ p, let! b := on_x (p9_exists p) in ret (if b then 0 else errno 2)).

Definition faccessat : KM Z := utimensat.

Definition put_patch (ptr : Z) (p : patch) : KM unit :=
  forM p (λ x, user_write (ptr + Z.of_nat (fst x)) (snd x)).

Definition newfsstatat : KM Z :=
  let! fd := reg 0 in
  let! ptr := reg 1 in
  path_or fd ptr (λ p,
    let! st := reg 2 in
    assert_ (negb (st =? 0)) ;;;
    let! flags := reg 3 in
    let! r := on_x (p9_stat p (Z.land (wrap 32 flags) AT_SYMLINK_NOFOLLOW =? 0)) in
    match r with
    | Some pt => put_patch st pt ;;; ret 0
    | None => ret (errno 2)
    end).

Definition newfstat : KM Z :=
  let! fd := reg 0 in
  let! o := fd_at fd in
  match o with
  | None => ret FAIL
  | Some f =>
      let! st := reg 1 in
      assert_ (negb (st =? 0)) ;;;
      let! r := file_fstat (fd_file f) in
      match r with
      | Some pt => put_patch st pt ;;; ret 0
      | None => ret FAIL
      end
  end.

Definition ftruncate : KM Z :=
  let! fd := reg 0 in
  let! o := fd_at fd in
  match o with
  | None => ret FAIL
  | Some f =>
      let! x := get_slot (fd_file f) in
      match path x with
      | None => ret FAIL
      | Some p => let! n := reg 1 in let! r := on_x (p9_truncate p n) in ret (ok_or FAIL r)
      end
  end.

(** ** The task's own settings *)
Definition getcwd : KM Z :=
  let! t := cur_task in
  let! d := unwrap (cwd t) in
  let! ptr := reg 0 in
  let! size := reg 1 in
  let n := Z.of_nat (length d) in
  let len := Z.min size n in
  assert_ (n <=? len + 1) ;;;
  user_write ptr d ;;;
  if n <? size then user_write (ptr + n) [0] ;;; ret 0 else ret (errno 78).

Definition chdir : KM Z :=
  let! ptr := reg 0 in
  let! p := user_path ptr in
  let! b := on_x (p9_exists p) in
  if b then upd_cur (set_cwd (Some p)) ;;; ret 0 else ret (errno 2).

Definition sys_umask : KM Z :=
  let! t := cur_task in
  let! m := reg 0 in
  upd_cur (set_umask (wrap 32 m)) ;;;
  ret (umask t).

Definition getrandom : KM Z := reg 1.
Definition fcntl : KM Z := ret 0.

Definition ioctl : KM Z :=
  let! req := reg 1 in
  let! arg := reg 2 in
  if req =? 0x5401 then get_termios arg
  else if req =? 0x5402 then set_termios arg
  else if req =? 0x5413 then get_winsz arg
  else if req =? 0x540f then let! t := cur_task in user_write arg (le_bytes 4 (pid t)) ;;; ret 0
  else if req =? 0x5410 then ret 0
  else panic.

(** ** Descriptors *)
Definition openat : KM Z :=
  let! fd := reg 0 in
  let! ptr := reg 1 in
  if ptr =? 0 then ret FAIL
  else
    path_or fd ptr (λ p,
      let! t := cur_task in
      match first_free (t_files t) 0 with
      | Some idx =>
          let! flags := reg 2 in
          let! r := fs_open p (wrap 32 flags) in
          match r with
          | Some f => upd_cur (set_fd idx (Some (mkFD f true true))) ;;; ret (Z.of_nat idx)
          | None => ret FAIL
          end
      | None => ret FAIL
      end).

Definition close : KM Z :=
  let! fd := reg 0 in
  let! t := cur_task in
  if Z.of_nat (length (t_files t)) <? fd then ret FAIL
  else
    let! o := fd_at fd in
    match o with
    | None => ret FAIL
    | Some f =>
        let! r := file_close (fd_file f) (fd_read f) (fd_write f) in
        match r with
        | Some _ => upd_cur (set_fd (Z.to_nat fd) None) ;;; ret 0
        | None => ret FAIL
        end
    end.

(** [task.files[new_fd] = ...] panics out of range; [get_file] before it does not always. *)
Definition dup3 : KM Z :=
  let! old_fd := reg 0 in
  let! new_fd := reg 1 in
  let! o := fd_at old_fd in
  match o with
  | None => ret FAIL
  | Some _ =>
      if old_fd =? new_fd then ret old_fd
      else
        let! replaced := task_get_file new_fd in
        let! f := dup_file old_fd in
        let! _ := fd_at new_fd in
        upd_cur (set_fd (Z.to_nat new_fd) (Some f)) ;;;
        (match replaced with
         | Some g => let! r := file_close (fd_file g) (fd_read g) (fd_write g) in unwrap r
         | None => ret tt
         end) ;;;
        ret new_fd
  end.

Definition pipe2 : KM Z :=
  let! ptr := reg 0 in
  let! flags := reg 1 in
  let! r := open_pipe (negb (Z.land flags O_NONBLOCK =? 0)) in
  match r with
  | Some pip =>
      file_dup pip false true ;;;
      let! o := task_alloc_file (mkFD pip true false) in
      let! ridx := unwrap o in
      let! o := task_alloc_file (mkFD pip false true) in
      let! widx := unwrap o in
      user_write ptr (le_bytes 4 (Z.of_nat ridx) ++ le_bytes 4 (Z.of_nat widx)) ;;;
      ret 0
  | None => ret FAIL
  end.

(** ** Polling *)
Definition POLL_IN : Z := 1.
Definition POLL_ERR : Z := 8.
Definition POLL_HUP : Z := 16.
Definition POLL_NVAL : Z := 32.

(** One turn of [check_events] on the [Pollfd] at [p]; whether it has an event. *)
Definition check_event (p : Z) (timer_wait : bool) : KM bool :=
  let! b := user_read p 8 in
  let fd := sext 32 64 (of_le_bytes (take 4 b)) in
  let events := of_le_bytes (take 2 (drop 4 b)) in
  user_write (p + 6) (le_bytes 2 0) ;;;
  let! o := task_get_file fd in
  let! revents :=
    match o with
    | Some f =>
        let! ok := is_ok (fd_file f) in
        let! hup := hanged_up (fd_file f) in
        ret (Z.lor (if ok then 0 else POLL_ERR) (if hup then POLL_HUP else 0))
    | None => ret POLL_NVAL
    end in
  if negb (revents =? 0) then user_write (p + 6) (le_bytes 2 revents) ;;; ret true
  else if events =? POLL_IN then
    match o with
    | Some f =>
        let! rd := readable (fd_file f) in
        if rd then user_write (p + 6) (le_bytes 2 POLL_IN) ;;; ret true
        else wait4readable (fd_file f) ;;; (if timer_wait then add2wait else ret tt) ;;; ret false
    | None => ret false
    end
  else panic.

Fixpoint check_events (p : Z) (n : nat) (timer_wait : bool) (n_events : Z) : KM Z :=
  match n with
  | O => ret n_events
  | S n' =>
      let! e := check_event p timer_wait in
      check_events (p + 8) n' timer_wait (if e then n_events + 1 else n_events)
  end.

(** [sleep_if] around [check_events], until there is an event or the time is up. *)
Fixpoint ppoll_loop (naps : nat) (p : Z) (k : nat) (ts : option Z) (start : Z) : KM Z :=
  let! n := check_events p k (bool_decide (is_Some ts)) 0 in
  let! now := read_tick in
  let timed_out := match ts with Some ms => ms <? now -! start | None => false end in
  if (n =? 0) && negb timed_out then
    match naps with
    | O => fail FFuel
    | S naps' => sched_away others None ;;; back ;;; ppoll_loop naps' p k ts start
    end
  else ret n.

Definition ppoll : KM Z :=
  let! k := reg 1 in
  if k =? 0 then ret 0
  else
    let! p := reg 0 in
    let! tp := reg 2 in
    let! ts := if tp =? 0 then ret None
               else let! b := user_read tp 16 in
                    ret (Some (ts_millis (of_le_bytes (take 8 b)) (of_le_bytes (drop 8 b)))) in
    let! start := read_tick in
    ppoll_loop naps p (Z.to_nat k) ts start.

(** ** The arms of [svc::handle] that lead here *)
Definition file_call (nr : Z) : option (KM Z) :=
  match nr with
  | 17 => Some getcwd
  | 24 => Some dup3
  | 25 => Some fcntl
  | 29 => Some ioctl
  | 34 => Some mkdirat
  | 35 => Some unlinkat
  | 36 => Some symlinkat
  | 37 => Some linkat
  | 38 => Some renameat
  | 46 => Some ftruncate
  | 48 => Some faccessat
  | 49 => Some chdir
  | 56 => Some openat
  | 57 => Some close
  | 59 => Some pipe2
  | 61 => Some sys_getdents64
  | 62 => Some sys_lseek
  | 63 => Some sys_read
  | 64 => Some sys_write
  | 66 => Some sys_writev
  | 71 => Some sys_sendfile64
  | 73 => Some ppoll
  | 78 => Some readlinkat
  | 79 => Some newfsstatat
  | 80 => Some newfstat
  | 88 => Some utimensat
  | 166 => Some sys_umask
  | 278 => Some getrandom
  | _ => None
  end.
End sys.
