(* ===== verification/FsInv.v ===== *)
(** * Descriptors and files: who refers to what

    A file's [rc], and a pipe's [readers] and [writers], count descriptors.
    [acctL L fs] says that the table [fs] counts exactly the descriptors of
    the list [L]; the operations on files are specified by how [L] changes. *)
From S2P Require Import Prelude P9Msg Pipe Kst Hoare Cons Fs FsSys.

Local Open Scope Z_scope.

(** ** Counting descriptors *)
Section count.
Implicit Types (L : list FD) (d : FD) (p : FD → bool).

Definition hits p (i : nat) d : Prop := fd_file d = i ∧ p d = true.

#[global] Instance hits_dec p i d : Decision (hits p i d).
Proof. unfold hits. apply _. Defined.

Definition cnt p L (i : nat) : Z := Z.of_nat (length (filter (hits p i) L)).

Definition any (d : FD) : bool := true.

Lemma cnt_nil p i : cnt p [] i = 0.
Proof. done. Qed.

Lemma cnt_cons p d L i : cnt p (d :: L) i = (if decide (hits p i d) then 1 else 0) + cnt p L i.
Proof. unfold cnt. rewrite filter_cons. destruct (decide (hits p i d)); [|lia]. rewrite length_cons. lia. Qed.

Lemma cnt_nonneg p L i : 0 ≤ cnt p L i.
Proof. unfold cnt. lia. Qed.

Lemma cnt_le_length p L i : cnt p L i ≤ Z.of_nat (length L).
Proof. unfold cnt. pose proof (length_filter (hits p i) L). lia. Qed.

Lemma cnt_miss p d L i : fd_file d ≠ i → cnt p (d :: L) i = cnt p L i.
Proof. intros H. rewrite cnt_cons, decide_False; [done|]. by intros [? _]. Qed.

Lemma cnt_hit p d L i : fd_file d = i → cnt p (d :: L) i = (if p d then 1 else 0) + cnt p L i.
Proof.
  intros H. rewrite cnt_cons. destruct (p d) eqn:E.
  - by rewrite decide_True.
  - rewrite decide_False; [done|]. intros [_ F]. congruence.
Qed.

#[global] Instance cnt_perm p : Proper ((≡ₚ) ==> eq ==> eq) (cnt p).
Proof. intros L L' HL i ? <-. unfold cnt. by rewrite HL. Qed.

Lemma cnt_pos p L i d : d ∈ L → fd_file d = i → p d = true → 0 < cnt p L i.
Proof.
  intros Hd Hi Hp. apply elem_of_Permutation in Hd as [L' ->].
  rewrite cnt_hit, Hp by done. pose proof (cnt_nonneg p L' i). lia.
Qed.
End count.

(** ** The table counts the descriptors of [L] *)
Definition slot_ok (L : list FD) (i : nat) (f : File) : Prop :=
  match kind f with
  | KNone | KUsed => rc f = 0 ∧ cnt any L i = 0
  | KP9 _ => rc f = cnt any L i ∧ 0 < rc f
  | KCons => rc f = cnt any L i
  | KPipe p => rc f = cnt any L i ∧ Pipe.readers p = cnt fd_read L i ∧ Pipe.writers p = cnt fd_write L i
  end.

Definition is_pipe_slot (f : File) : bool := match kind f with KPipe _ => true | _ => false end.

Record acctL (L : list FD) (fs : list File) : Prop := {
  a_slots : ∀ i f, fs !! i = Some f → slot_ok L i f;
  a_in : ∀ d, d ∈ L → is_Some (fs !! fd_file d);
  a_dir : ∀ d f, d ∈ L → fs !! fd_file d = Some f → is_pipe_slot f = true → fd_read d ≠ fd_write d;
}.

#[global] Instance slot_ok_perm : Proper ((≡ₚ) ==> eq ==> eq ==> iff) slot_ok.
Proof. intros L L' HL i ? <- f ? <-. unfold slot_ok. destruct (kind f); by rewrite ?HL. Qed.

#[global] Instance acctL_perm : Proper ((≡ₚ) ==> eq ==> iff) acctL.
Proof.
  assert (∀ L L' fs, L ≡ₚ L' → acctL L fs → acctL L' fs) as H.
  { intros L L' fs HL [A B C]. split.
    - intros i f Hi. specialize (A i f Hi). by rewrite HL in A.
    - intros d Hd. apply B. by rewrite HL.
    - intros d f Hd. apply C. by rewrite HL. }
  intros L L' HL fs ? <-. split; apply H; by rewrite HL.
Qed.

Section table.
Implicit Types (L : list FD) (d : FD) (fs : list File) (f : File).

(** What one slot says does not depend on the descriptors of the others. *)
Lemma slot_ok_cons_ne L d i f : fd_file d ≠ i → slot_ok (d :: L) i f ↔ slot_ok L i f.
Proof. intros H. unfold slot_ok. by destruct (kind f); rewrite ?cnt_miss by done. Qed.

(** A slot that is not a pipe of [d] may be rewritten. *)
Lemma acctL_insert L fs i f :
  acctL L fs → slot_ok L i f →
  (∀ f0, fs !! i = Some f0 → is_pipe_slot f = true → is_pipe_slot f0 = true ∨ cnt any L i = 0) →
  acctL L (<[i := f]> fs).
Proof.
  intros [A B C] Hok Hdir. split.
  - intros j g. rewrite list_lookup_insert_Some. intros [(<- & <- & _)|[_ Hj]]; auto.
  - intros d Hd. rewrite list_lookup_insert_is_Some. by apply B.
  - intros d g Hd. rewrite list_lookup_insert_Some. intros [(Hi & <- & Hlt)|[_ Hj]] Hp; [|by eapply C].
    destruct (lookup_lt_is_Some_2 fs (fd_file d)) as [f0 Hf0]; [lia|].
    rewrite Hi in Hdir. destruct (Hdir f0 Hf0 Hp) as [Hp0|H0]; [by eapply C|].
    pose proof (cnt_pos any L (fd_file d) d Hd eq_refl eq_refl). lia.
Qed.

(** Giving out a descriptor of the (rewritten) slot [i], and taking one back. *)
Lemma acctL_grow L fs d i f f0 :
  acctL L fs → fs !! i = Some f0 → fd_file d = i → slot_ok (d :: L) i f →
  (is_pipe_slot f = true → fd_read d ≠ fd_write d ∧ (is_pipe_slot f0 = true ∨ cnt any L i = 0)) →
  acctL (d :: L) (<[i := f]> fs).
Proof.
  intros [A B C] Hf0 Hi Hok Hdir. assert (i < length fs)%nat as Hlt by (by eapply lookup_lt_Some). split.
  - intros j g. rewrite list_lookup_insert_Some. intros [(<- & <- & _)|[Hne Hj]]; [done|].
    apply slot_ok_cons_ne; [congruence|auto].
  - intros e He. rewrite list_lookup_insert_is_Some. apply elem_of_cons in He as [->|He]; [|by apply B].
    rewrite Hi. eauto.
  - intros e g He. rewrite list_lookup_insert_Some. intros [(Hie & <- & _)|[Hne Hj]] Hp.
    + destruct (Hdir Hp) as [Hd Hold]. apply elem_of_cons in He as [->|He]; [done|].
      destruct Hold as [Hp0|H0]; [eapply C; eauto; congruence|].
      pose proof (cnt_pos any L i e He ltac:(congruence) eq_refl). lia.
    + apply elem_of_cons in He as [->|He]; [congruence|]. by eapply C.
Qed.

Lemma acctL_shrink L fs d i f f0 :
  acctL (d :: L) fs → fs !! i = Some f0 → fd_file d = i → slot_ok L i f →
  (is_pipe_slot f = true → is_pipe_slot f0 = true) →
  acctL L (<[i := f]> fs).
Proof.
  intros [A B C] Hf0 Hi Hok Hdir. split.
  - intros j g. rewrite list_lookup_insert_Some. intros [(<- & <- & _)|[Hne Hj]]; [done|].
    apply (slot_ok_cons_ne L d); [congruence|auto].
  - intros e He. rewrite list_lookup_insert_is_Some. apply B. by right.
  - intros e g He. rewrite list_lookup_insert_Some. intros [(Hie & <- & _)|[Hne Hj]] Hp.
    + eapply C; [by right| |by apply Hdir]. congruence.
    + eapply C; eauto. by right.
Qed.

Lemma slot_of d L fs : acctL (d :: L) fs → ∃ f, fs !! fd_file d = Some f ∧ slot_ok (d :: L) (fd_file d) f ∧
  (is_pipe_slot f = true → fd_read d ≠ fd_write d).
Proof.
  intros [A B C]. destruct (B d) as [f Hf]; [by left|]. exists f. split_and!; [done|by apply A|].
  intros Hp. eapply C; eauto. by left.
Qed.

(** The file of a descriptor in [L] is open. *)
Lemma slot_open d L f : slot_ok (d :: L) (fd_file d) f → 1 ≤ rc f ∧ kind f ≠ KNone ∧ kind f ≠ KUsed.
Proof.
  unfold slot_ok. pose proof (cnt_nonneg any L (fd_file d)).
  pose proof (cnt_hit any d L (fd_file d) eq_refl) as E. simpl in E.
  destruct (kind f); rewrite ?E; intros; split_and!; try done; lia.
Qed.

Lemma first_none_spec fs : ∀ k,
  match first_none fs k with
  | Some i => ∃ f, (k ≤ i)%nat ∧ fs !! (i - k)%nat = Some f ∧ kind f = KNone
  | None => ∀ i f, fs !! i = Some f → kind f ≠ KNone
  end.
Proof.
  induction fs as [|g fs IH]; intros k; simpl; [done|].
  destruct (kind g) eqn:Eg; [exists g; rewrite Nat.sub_diag; auto| | | |];
    (specialize (IH (S k)); destruct (first_none fs (S k)) as [i|];
     [destruct IH as (f & Hle & Hf & Hk); exists f; replace (i - k)%nat with (S (i - S k)) by lia; split_and!; [lia|done|done]
     |intros [|i] f; simpl; [by intros [= <-]; rewrite Eg|apply IH]]).
Qed.
End table.

(** ** A pipe's own operations do not touch its counts *)
Definition counts_are (r w : Z) (s : Pipe.t * list Pipe.chan) : Prop :=
  Pipe.readers (fst s) = r ∧ Pipe.writers (fst s) = w.

Section pipe_counts.
Import Pipe.
Context (r w : Z).

Lemma put_parts_counts p src :
  Pipe.readers (put_parts p src) = Pipe.readers p ∧ Pipe.writers (put_parts p src) = Pipe.writers p.
Proof.
  unfold put_parts. destruct (get_write_space p) as [[a|] b]; [|done]. unfold put_part.
  destruct b; [|done]. by destruct (_ <? _)%nat.
Qed.

Lemma write_inner_counts p src : let '(_, p') := write_inner p src in Pipe.readers p' = Pipe.readers p ∧ Pipe.writers p' = Pipe.writers p.
Proof. unfold write_inner. simpl. apply put_parts_counts. Qed.

Lemma read_inner_counts p k : let '(_, p') := read_inner p k in Pipe.readers p' = Pipe.readers p ∧ Pipe.writers p' = Pipe.writers p.
Proof.
  unfold read_inner, get_parts. destruct (get_read_space p) as [[a|] b]; [|done]. unfold get_part.
  destruct b; [|done]. by destruct (_ <? _)%nat.
Qed.

Lemma wakeup_counts c : pres (counts_are r w) (Pipe.wakeup c).
Proof. by apply hoare_modify. Qed.

Lemma the_pipe_counts {B} (k : Pipe.t → PipeM B) :
  (∀ p, Pipe.readers p = r → Pipe.writers p = w → pres (counts_are r w) (k p)) →
  pres (counts_are r w) (bind the_pipe k).
Proof. intros H s a s' [Hr Hw]. by apply H. Qed.

Lemma set_pipe_counts p : Pipe.readers p = r → Pipe.writers p = w → pres (counts_are r w) (set_pipe p).
Proof. intros <- <-. by apply hoare_modify. Qed.

#[local] Hint Resolve wakeup_counts : pres.

Lemma write_end_counts src : pres (counts_are r w) (write_end src).
Proof. unfold write_end, the_pipe. pres_auto. Qed.

Lemma read_end_counts got : pres (counts_are r w) (read_end got).
Proof. unfold read_end, the_pipe. pres_auto. Qed.

#[local] Hint Resolve write_end_counts read_end_counts : pres.

Lemma write_loop_counts fuel : ∀ src, pres (counts_are r w) (write_loop fuel src).
Proof.
  induction fuel as [|fuel IH]; intros src; cbn [write_loop]; [apply pres_fail|].
  apply the_pipe_counts. intros p Hr Hw. pose proof (write_inner_counts p src) as Hc.
  destruct (write_inner p src) as [n p']. destruct Hc. destruct (_ =? 0); [auto with pres|].
  apply pres_bind; [apply set_pipe_counts; congruence|intros _]. pres_auto.
Qed.

Lemma read_loop_counts fuel : ∀ k got, pres (counts_are r w) (read_loop fuel k got).
Proof.
  induction fuel as [|fuel IH]; intros k got; cbn [read_loop]; [apply pres_fail|].
  apply the_pipe_counts. intros p Hr Hw. pose proof (read_inner_counts p k) as Hc.
  destruct (read_inner p k) as [x p']. destruct Hc.
  apply pres_bind; [apply set_pipe_counts; congruence|intros _]. pres_auto.
Qed.

#[local] Hint Resolve write_loop_counts read_loop_counts : pres.

Lemma write_counts src : pres (counts_are r w) (Pipe.write src).
Proof. apply write_loop_counts. Qed.

Lemma write_resume_counts src : pres (counts_are r w) (write_resume src).
Proof. apply the_pipe_counts. intros p _ _. pres_auto. Qed.

Lemma read_counts k : pres (counts_are r w) (Pipe.read k).
Proof. apply read_loop_counts. Qed.

Lemma read_resume_counts k got : pres (counts_are r w) (read_resume k got).
Proof. apply the_pipe_counts. intros p _ _. pres_auto. Qed.
End pipe_counts.

(** ** Steps of the file layer *)
Definition live (t : Task) : bool := match state t with Free | Zombie => false | _ => true end.
Definition tab (t : Task) : bool * list (option FD) := (live t, t_files t).

(** The table counts [L], the tasks have the tables [τ], task [i] runs. *)
Definition St {X} (L : list FD) (τ : list (bool * list (option FD))) (i : nat) (s : KSt X) : Prop :=
  acctL L (k_files s) ∧ tab <$> k_tasks s = τ ∧ task_idx s = Some i.

Definition slot_is {X} (j : nat) (f : File) (s : KSt X) : Prop := k_files s !! j = Some f.

Section steps.
Context {X : Type} {api : P9Api X}.
Context (L : list FD) (τ : list (bool * list (option FD))) (i : nat).
Notation Inv := (St (X := X) L τ i).
Implicit Types (s : KSt X) (d : FD).

Lemma get_slot_hoare (P : KSt X → Prop) j : hoare P (get_slot j) (λ f s, P s ∧ slot_is j f s).
Proof.
  intros s f s' HP. unfold get_slot. simpl. unfold bind, get, slot_is.
  destruct (k_files s !! j) eqn:E; simpl; [|done]. by intros [= <- <-].
Qed.

Lemma upd_slot_hoare (P : KSt X → Prop) j g Q :
  (∀ s f, P s → slot_is j f s → Q tt (with_files <[j := g f]> s)) → hoare P (upd_slot j g) Q.
Proof.
  intros H. eapply hoare_bind; [apply get_slot_hoare|]. intros f. apply hoare_modify. intros s [HP Hf]. by apply H.
Qed.

Lemma on_x_pres {A} (m : M X A) : pres Inv (on_x m).
Proof. intros s a s' HI. unfold on_x. destruct (m (k_x s)) as [[b x]|]; [|done]. by intros [= <- <-]. Qed.

Lemma tasks_pres g : (∀ ts, tab <$> g ts = tab <$> ts) → pres Inv (modify (with_tasks g)).
Proof. intros Hg. apply hoare_modify. intros s (A & <- & C). split_and!; [done|apply Hg|done]. Qed.

Lemma tab_wake_if p t : tab (wake_if p t) = tab t.
Proof.
  unfold wake_if. destruct (decide _) as [E|]; [|done]. destruct (p t); [|done]. unfold tab, live. simpl. by rewrite E.
Qed.

Lemma tabs_alter g j (ts : list Task) : (∀ t, tab (g t) = tab t) → tab <$> alter g j ts = tab <$> ts.
Proof.
  intros Hg. apply list_eq. intros k. rewrite !list_lookup_fmap. destruct (decide (j = k)) as [->|].
  - rewrite list_lookup_alter_eq. destruct (ts !! k); simpl; [|done]. by rewrite Hg.
  - by rewrite list_lookup_alter_ne.
Qed.

Lemma wakeup_pres c : pres Inv (wakeup c).
Proof.
  apply tasks_pres. intros ts. rewrite <- list_fmap_compose. apply list_fmap_ext. intros ? t _. apply tab_wake_if.
Qed.

Lemma wake_listed_tabs q ts : tab <$> wake_listed q ts = tab <$> ts.
Proof.
  unfold wake_listed. generalize (take (wq_count q) (wq_tasks q)). intros l. revert ts.
  induction l as [|[j|] l IH]; intros ts; simpl; [done| |apply IH]. rewrite IH. apply tabs_alter, tab_wake_if.
Qed.

Lemma upd_tsk_pres j g : (∀ t, tab (g t) = tab t) → pres Inv (upd_tsk j g).
Proof. intros Hg. apply tasks_pres. intros ts. by apply tabs_alter. Qed.

Lemma cur_pres : pres Inv cur.
Proof. unfold cur. pres_auto. Qed.
Lemma get_slot_pres j : pres Inv (get_slot j).
Proof. unfold get_slot. pres_auto. Qed.
#[local] Hint Resolve cur_pres get_slot_pres on_x_pres wakeup_pres : pres.

Lemma cur_task_pres : pres Inv cur_task.
Proof. unfold cur_task, get_tsk. pres_auto. Qed.
Lemma reg_pres j : pres Inv (reg j).
Proof. unfold reg. apply pres_bind; [apply cur_task_pres|]. intros t. apply pres_unwrap. Qed.
#[local] Hint Resolve cur_task_pres reg_pres : pres.

Lemma upd_cur_pres g : (∀ t, tab (g t) = tab t) → pres Inv (upd_cur g).
Proof. intros Hg. unfold upd_cur. pres_auto. by apply upd_tsk_pres. Qed.
Lemma user_read_pres a n : pres Inv (user_read a n).
Proof. unfold user_read. pres_auto. Qed.
Lemma user_write_pres a bs : pres Inv (user_write a bs).
Proof. unfold user_write. pres_auto. by apply upd_cur_pres. Qed.
Lemma user_cstr_pres a : pres Inv (user_cstr a).
Proof. unfold user_cstr. pres_auto. Qed.

(** Rewriting a slot without changing what counts. *)
Lemma slot_pres j g :
  (∀ f, kind (g f) = kind f ∧ rc (g f) = rc f) → pres Inv (upd_slot j g).
Proof.
  intros Hg. apply upd_slot_hoare. intros s f (A & B & C) Hf. destruct (Hg f) as [Hk Hr]. split_and!; try done.
  apply acctL_insert; [done| |].
  - pose proof (a_slots _ _ A _ _ Hf) as Hok. unfold slot_ok in *. by rewrite Hk, Hr.
  - intros f0 Hf0 Hp. left. unfold slot_is in Hf. simplify_eq. unfold is_pipe_slot in *. by rewrite Hk in Hp.
Qed.

(** A call into the pipe of a slot that keeps the counts. *)
Lemma pipe_run_pres {A} j p (m : Pipe.PipeM A) :
  (∀ r w, pres (counts_are r w) m) →
  hoare (λ s, Inv s ∧ ∃ f, slot_is j f s ∧ kind f = KPipe p) (pipe_run j p m) (λ _, Inv).
Proof.
  intros Hm. unfold pipe_run. eapply hoare_bind; [apply hoare_lift|]. intros [a [p' l]].
  apply hoare_pure. intros E. destruct (Hm (Pipe.readers p) (Pipe.writers p) (p, []) a (p', l)) as [Er Ew]; [done..|].
  eapply (hoare_bind _ _ _ (λ _, Inv)); [|intros _; pres_auto]. simpl in *.
  apply upd_slot_hoare. intros s f [(HA & HB & HC) (f0 & Hf0 & Hk)] Hf. unfold slot_is in *.
  assert (f0 = f) as -> by congruence. split_and!; try done. apply acctL_insert; [done| |].
  - pose proof (a_slots _ _ HA _ _ Hf) as Hok. unfold slot_ok in *. rewrite Hk in Hok. simpl. by rewrite Er, Ew.
  - intros f1 Hf1 _. left. assert (f1 = f) as -> by congruence. unfold is_pipe_slot. by rewrite Hk.
Qed.
End steps.

#[export] Hint Resolve cur_pres get_slot_pres on_x_pres wakeup_pres cur_task_pres reg_pres
  user_read_pres user_write_pres user_cstr_pres : pres.

(** ** Opening, duplicating and closing *)
Section refs.
Context {X : Type} {api : P9Api X}.
Context (τ : list (bool * list (option FD))) (i : nat).
Notation St L := (St (X := X) L τ i).
Implicit Types (s : KSt X) (d : FD) (L : list FD).

Lemma St_slot L s j f : St L s → slot_is j f s → slot_ok L j f.
Proof. intros (A & _ & _) Hf. by apply (a_slots _ _ A). Qed.

Lemma St_set L L' s j f :
  acctL L' (<[j := f]> (k_files s)) → St L s → St L' (with_files <[j := f]> s).
Proof. intros A (_ & B & C). done. Qed.

Lemma fs_alloc_file_spec L :
  hoare (St L) fs_alloc_file (λ r s, St L s ∧
    match r with Some j => ∃ f, slot_is j f s ∧ kind f = KUsed | None => True end).
Proof.
  eapply hoare_bind; [apply hoare_get|]. intros s0. pose proof (first_none_spec (k_files s0) 0) as Hn.
  destruct (first_none (k_files s0) 0) as [j|]; [|by apply hoare_ret; intros s [? _]].
  destruct Hn as (f & _ & Hf & Hk). rewrite Nat.sub_0_r in Hf.
  apply hoare_then_ret.
  apply upd_slot_hoare. intros s g [HS ->] Hg. unfold slot_is in *. assert (f = g) as -> by congruence.
  pose proof (St_slot _ _ _ _ HS Hg) as Hok. split.
  - apply (St_set L); [|done]. apply acctL_insert; [by destruct HS| |].
    + unfold slot_ok in *. by rewrite Hk in Hok.
    + intros ? _ [=].
  - exists (set_kind KUsed g). split; [|done]. simpl. apply list_lookup_insert_eq. by eapply lookup_lt_Some.
Qed.

(** The slot that was allocated is filled: it had no descriptor. *)
Lemma fill_slot L s j f d g :
  St L s → slot_is j f s → kind f = KUsed → fd_file d = j →
  slot_ok (d :: L) j g → (is_pipe_slot g = true → fd_read d ≠ fd_write d) →
  St (d :: L) (with_files <[j := g]> s).
Proof.
  intros HS Hf Hk Hd Hg Hdir. pose proof (St_slot _ _ _ _ HS Hf) as Hok. unfold slot_ok in Hok. rewrite Hk in Hok.
  apply (St_set L); [|done]. eapply acctL_grow; [by destruct HS|exact Hf|done..|]. intros Hp. split; [auto|]. right. apply Hok.
Qed.

Lemma used_slot L s j f d : St L s → slot_is j f s → kind f = KUsed → fd_file d = j →
  cnt any (d :: L) j = 1 ∧ ∀ p, cnt p (d :: L) j = if p d then 1 else 0.
Proof.
  intros HS Hf Hk Hd. pose proof (St_slot _ _ _ _ HS Hf) as Hok. unfold slot_ok in Hok. rewrite Hk in Hok.
  destruct Hok as [_ H0]. assert (∀ p, cnt p L j = 0) as Hz.
  { intros p. pose proof (cnt_nonneg p L j). unfold cnt in *.
    assert (filter (hits p j) L `sublist_of` filter (hits any j) L) as Hs.
    { clear. induction L as [|e L IH]; [done|]. rewrite !filter_cons.
      destruct (decide (hits p j e)) as [[E ?]|]; [rewrite decide_True by done; by constructor|].
      destruct (decide (hits any j e)); by repeat constructor. }
    apply sublist_length in Hs. lia. }
  split; [rewrite (cnt_hit any) by done; simpl; by rewrite Hz|]. intros p. rewrite cnt_hit, Hz by done. lia.
Qed.

(** [open]: a descriptor of the new file, or nothing. *)
Definition opened L (r w : bool) (o : option nat) s : Prop :=
  match o with Some j => St (mkFD j r w :: L) s | None => St L s end.

Lemma fs_open_spec L p flags : hoare (St L) (fs_open p flags) (opened L true true).
Proof.
  eapply hoare_bind; [apply fs_alloc_file_spec|]. intros [j|]; [|by apply hoare_ret; intros s [? _]].
  apply (hoare_bind _ _ _ (λ _ s, St L s ∧ ∃ f, slot_is j f s ∧ kind f = KUsed)).
  { intros s a s'. unfold on_x. destruct (p9_open p flags (k_x s)) as [[b x]|]; [|done]. by intros ? [= <- <-]. }
  intros [h|].
  - apply hoare_then_ret.
    apply hoare_modify. intros s [HS (f & Hf & Hk)]. eapply fill_slot; [done..| |by intros [=]].
    destruct (used_slot L s j f (mkFD j true true) HS Hf Hk eq_refl) as [E _].
    unfold slot_ok. simpl. by rewrite E.
  - apply hoare_then_ret.
    apply upd_slot_hoare. intros s g [HS (f & Hf & Hk)] Hg. unfold slot_is in *. assert (f = g) as -> by congruence.
    apply (St_set L); [|done]. apply acctL_insert; [by destruct HS| |by intros ? _ [=]].
    pose proof (St_slot _ _ _ _ HS Hg) as Hok. unfold slot_ok in *. by rewrite Hk in Hok.
Qed.

Lemma open_pipe_spec L nb : hoare (St L) (open_pipe nb) (opened L true false).
Proof.
  eapply hoare_bind; [apply fs_alloc_file_spec|]. intros [j|]; [|by apply hoare_ret; intros s [? _]].
  apply hoare_then_ret.
  apply hoare_modify. intros s [HS (f & Hf & Hk)]. eapply fill_slot; [done..| |done].
  destruct (used_slot L s j f (mkFD j true false) HS Hf Hk eq_refl) as [E F].
  unfold slot_ok. simpl. by rewrite E, !F.
Qed.

Lemma open_cons_spec L r w : hoare (St L) open_cons (opened L r w).
Proof.
  eapply hoare_bind; [apply fs_alloc_file_spec|]. intros [j|]; [|by apply hoare_ret; intros s [? _]].
  apply hoare_then_ret.
  apply upd_slot_hoare. intros s g [HS (f & Hf & Hk)] Hg. unfold slot_is in *. assert (f = g) as -> by congruence.
  eapply fill_slot; [done..| |by intros [=]].
  destruct (used_slot L s j g (mkFD j r w) HS Hf Hk eq_refl) as [E _]. unfold slot_ok. simpl. by rewrite E.
Qed.

(** The file table is exactly [F]. *)
Definition Fs (F : list File) s : Prop := k_files s = F ∧ tab <$> k_tasks s = τ ∧ task_idx s = Some i.

Lemma St_exact {A} L (m : KM X A) Q : (∀ F, acctL L F → hoare (Fs F) m Q) → hoare (St L) m Q.
Proof. intros H s a s' (HA & HB & HC). by apply (H (k_files s)). Qed.

Lemma Fs_St L F s : Fs F s → acctL L F → St L s.
Proof. intros (<- & B & C) A. done. Qed.

Lemma get_slot_exact F j f : F !! j = Some f → hoare (Fs F) (get_slot j) (λ g s, Fs F s ∧ g = f).
Proof.
  intros Hf. eapply hoare_post; [apply get_slot_hoare|]. intros g s [(HA & HB & HC) Hg]. unfold slot_is in Hg.
  split; [done|]. congruence.
Qed.

Lemma upd_slot_exact F j f g : F !! j = Some f → hoare (Fs F) (upd_slot j g) (λ _, Fs (<[j := g f]> F)).
Proof.
  intros Hf. apply upd_slot_hoare. intros s f' (HA & HB & HC) Hf'. unfold slot_is in Hf'.
  assert (f' = f) as -> by congruence. unfold Fs. simpl. by rewrite HA.
Qed.

Lemma on_x_exact {A} F (m : M X A) : pres (Fs F) (on_x m).
Proof. intros s a s' HI. unfold on_x. destruct (m (k_x s)) as [[b x]|]; [|done]. by intros [= <- <-]. Qed.

Lemma wakeup_exact F c : pres (Fs F) (wakeup c).
Proof.
  apply hoare_modify. intros s (HA & HB & HC). split_and!; [done| |done]. simpl.
  rewrite <- HB, <- list_fmap_compose. apply list_fmap_ext. intros ? t _. apply tab_wake_if.
Qed.

Lemma pipe_run_exact {A} F j f p (m : Pipe.PipeM A) a p' l :
  F !! j = Some f → m (p, []) = Done (a, (p', l)) →
  hoare (Fs F) (pipe_run j p m) (λ b s, Fs (<[j := set_kind (KPipe p') f]> F) s ∧ b = a).
Proof.
  intros Hf E. unfold pipe_run. eapply hoare_bind; [apply hoare_lift|]. intros [b ps].
  apply hoare_pure. rewrite E. intros [= <- <-]. simpl.
  eapply hoare_bind; [by apply upd_slot_exact|]. intros [].
  apply (hoare_bind _ _ _ (λ _, Fs (<[j := set_kind (KPipe p') f]> F))).
  - apply pres_forM. intros c. apply wakeup_exact.
  - intros []. by apply hoare_ret.
Qed.

(** [dup]: one more descriptor of the file [d0] refers to. *)
Lemma file_dup_spec L d0 d :
  d0 ∈ L → fd_file d = fd_file d0 → (d = d0 ∨ fd_read d ≠ fd_write d) → (Z.of_nat (length L) < 65535) →
  hoare (St L) (file_dup (fd_file d) (fd_read d) (fd_write d)) (λ _, St (d :: L)).
Proof.
  intros Hd Efile Hdd Hlen. apply St_exact. intros F HA. destruct (elem_of_Permutation L d0) as [H _]. destruct (H Hd) as [L' HL].
  rewrite HL in HA. destruct (slot_of _ _ _ HA) as (f & Hf & Hok & Hdir). rewrite <- HL in *. rewrite <- Efile in *.
  set (j := fd_file d) in *. pose proof (cnt_le_length any L j). pose proof (cnt_nonneg any L j).
  assert (wadd 16 (cnt any L j) 1 = 1 + cnt any L j) as Ew by (rewrite wadd_small; lia).
  assert (∀ q, cnt q (d :: L) j = (if q d then 1 else 0) + cnt q L j) as Eh by (intros; by apply cnt_hit).
  unfold file_dup. eapply hoare_bind; [by apply upd_slot_exact|]. intros [].
  eapply hoare_bind; [apply get_slot_exact, list_lookup_insert_eq; by eapply lookup_lt_Some|].
  intros g. apply hoare_pure. intros ->. simpl. unfold slot_ok in Hok.
  assert (∀ s, kind f ≠ KNone → kind f ≠ KUsed → (∀ p, kind f ≠ KPipe p) →
           Fs (<[j := set_rc (wadd 16 (rc f) 1) f]> F) s → St (d :: L) s) as Hplain.
  { intros s Hn1 Hn2 Hnp HF. eapply Fs_St; [exact HF|]. eapply acctL_grow; [done|exact Hf|done| |].
    - unfold slot_ok. cbn [kind rc set_rc]. destruct (kind f) eqn:Ek; try done; rewrite ?Eh; cbn [any].
      + destruct Hok as [-> ?]. rewrite Ew. lia.
      + rewrite Hok, Ew. lia.
      + by destruct (Hnp p).
    - unfold is_pipe_slot. simpl. destruct (kind f) eqn:Ek; try done. by destruct (Hnp p). }
  pose proof (cnt_pos any L j d0 Hd (eq_sym Efile) eq_refl).
  destruct (kind f) as [| |h| |p] eqn:Ek; try lia; try (apply hoare_ret; intros s HF; by apply Hplain).
  assert (fd_read d ≠ fd_write d) as Hne by (destruct Hdd as [->|]; [apply Hdir; unfold is_pipe_slot; by rewrite Ek|done]).
  eapply hoare_post.
  - eapply (pipe_run_exact _ j (set_rc (wadd 16 (rc f) 1) f));
      [apply list_lookup_insert_eq; by eapply lookup_lt_Some|].
    unfold Pipe.dup. assert (negb (eqb (fd_read d) (fd_write d)) = true) as -> by (by destruct (fd_read d), (fd_write d)).
    mstep. reflexivity.
  - intros [] s [HF _]. rewrite list_insert_insert_eq in HF. eapply Fs_St; [exact HF|].
    destruct Hok as (Er & Erd & Ewr).
    pose proof (cnt_le_length fd_read L j). pose proof (cnt_nonneg fd_read L j).
    pose proof (cnt_le_length fd_write L j). pose proof (cnt_nonneg fd_write L j).
    eapply acctL_grow; [done|exact Hf|done| |].
    + unfold slot_ok. cbn. rewrite !Eh, Er, Ew, Erd, Ewr. cbn [any].
      rewrite !wadd_small by lia. destruct (fd_read d), (fd_write d); split_and!; lia.
    + intros _. split; [done|]. left. unfold is_pipe_slot. by rewrite Ek.
Qed.

(** The first half of [close]: the end of the pipe goes. *)
Definition pipe_end_closed (r : bool) (f : File) : File :=
  match kind f with
  | KPipe p => set_kind (KPipe (if r then Pipe.set_counts (Pipe.readers p -! 1) (Pipe.writers p) p
                                else Pipe.set_counts (Pipe.readers p) (Pipe.writers p -! 1) p)) f
  | _ => f
  end.

Lemma close_end_exact F j f r w :
  F !! j = Some f →
  hoare (Fs F) (match kind f with
                | KPipe p => assert_ (negb (eqb r w)) ;;; pipe_run j p (Pipe.close r)
                | _ => ret tt
                end) (λ _, Fs (<[j := pipe_end_closed r f]> F)).
Proof.
  intros Hf. unfold pipe_end_closed. destruct (kind f) as [| |h| |p] eqn:Ek;
    try (apply hoare_ret; intros s; by rewrite list_insert_id).
  eapply hoare_bind; [apply hoare_assert|]. intros []. apply hoare_pure. intros _.
  eapply hoare_post; [eapply pipe_run_exact; [exact Hf|reflexivity]|]. by intros [] s [HF _].
Qed.

(** What is left of the slot when [d] is gone: with [rc] lowered, it counts [L]. *)
Lemma close_counts L d j f n :
  fd_file d = j → slot_ok (d :: L) j f → (is_pipe_slot f = true → fd_read d ≠ fd_write d) →
  Z.of_nat (length L) < 65535 → n = rc f - 1 → (0 < n ∨ ∀ h, kind f ≠ KP9 h) →
  slot_ok L j (set_rc n (pipe_end_closed (fd_read d) f)).
Proof.
  intros Hd Hok Hdir Hlen -> Hn.
  assert (∀ q, cnt q (d :: L) j = (if q d then 1 else 0) + cnt q L j) as Eh by (intros; by apply cnt_hit).
  unfold slot_ok, pipe_end_closed, is_pipe_slot in *. destruct (kind f) as [| |h| |p] eqn:Ek; cbn in *; rewrite ?Ek; rewrite ?Eh in Hok; cbn [any] in Hok.
  - pose proof (cnt_nonneg any L j). lia.
  - pose proof (cnt_nonneg any L j). lia.
  - destruct Hn as [?|Hn]; [lia|]. by destruct (Hn h).
  - lia.
  - destruct Hok as (E1 & E2 & E3). specialize (Hdir eq_refl).
    pose proof (cnt_nonneg fd_read L j). pose proof (cnt_le_length fd_read L j).
    pose proof (cnt_nonneg fd_write L j). pose proof (cnt_le_length fd_write L j).
    destruct (fd_read d), (fd_write d); try done; cbn; rewrite ?E2, ?E3, ?wsub_small by lia; split_and!; lia.
Qed.

(** [close]: one descriptor less, or, when the server refuses, all of them. *)
Definition closed L d (r : option unit) s : Prop := match r with Some _ => St L s | None => St (d :: L) s end.

Lemma file_close_spec L d :
  Z.of_nat (length L) < 65535 →
  hoare (St (d :: L)) (file_close (fd_file d) (fd_read d) (fd_write d)) (closed L d).
Proof.
  intros Hlen. apply St_exact. intros F HA. destruct (slot_of _ _ _ HA) as (f & Hf & Hok & Hdir).
  set (j := fd_file d) in *. destruct (slot_open d L f Hok) as (Hrc & Hk1 & Hk2).
  pose proof (close_counts L d j f (rc f - 1) eq_refl Hok Hdir Hlen eq_refl) as Hcl.
  set (f1 := pipe_end_closed (fd_read d) f) in *.
  assert (rc f1 = rc f) as Erc by (unfold f1, pipe_end_closed; by destruct (kind f)).
  assert (∀ g, is_pipe_slot (set_rc g f1) = is_pipe_slot f) as Ep.
  { intros g. unfold f1, pipe_end_closed, is_pipe_slot. simpl. destruct (kind f) eqn:Ek; simpl; by rewrite ?Ek. }
  assert (j < length F)%nat as Hlt by (by eapply lookup_lt_Some).
  unfold file_close. eapply hoare_bind; [by apply get_slot_exact|]. intros g. apply hoare_pure. intros ->.
  destruct (Z.eqb_spec (rc f) 0); [lia|].
  eapply hoare_bind; [by apply close_end_exact|]. intros []. fold f1.
  destruct (Z.eqb_spec (rc f) 1) as [E1|E1].
  - eapply hoare_bind; [eapply upd_slot_exact, list_lookup_insert_eq; done|]. intros []. rewrite list_insert_insert_eq.
    unfold close_last. eapply hoare_bind; [apply get_slot_exact, list_lookup_insert_eq; done|].
    intros g. apply hoare_pure. intros ->. rewrite E1 in Hcl. cbn in Hcl.
    destruct (kind (set_rc 0 f1)) as [| |h| |p] eqn:Ek; cbn in Ek.
    + apply hoare_fail.
    + apply hoare_fail.
    + assert (f1 = f) as Ef by (unfold f1, pipe_end_closed in *; destruct (kind f); [done..|discriminate Ek]). rewrite Ef in *.
      eapply hoare_bind; [apply on_x_exact|]. intros [[]|].
      * apply hoare_then_ret. eapply hoare_post; [eapply upd_slot_exact, list_lookup_insert_eq; done|].
        intros [] s HF. rewrite list_insert_insert_eq in HF. eapply Fs_St; [exact HF|].
        eapply acctL_shrink; [done|exact Hf|done| |by intros [=]].
        unfold slot_ok in *. rewrite Ek in Hok. simpl. split; [done|].
        rewrite (cnt_hit any) in Hok by done. cbn in Hok. lia.
      * apply hoare_then_ret. eapply hoare_post; [eapply upd_slot_exact, list_lookup_insert_eq; done|].
        intros [] s HF. rewrite list_insert_insert_eq in HF. eapply Fs_St; [exact HF|].
        apply acctL_insert; [done| |].
        -- unfold slot_ok in *. cbn. rewrite Ek in *. rewrite E1 in Hok. exact Hok.
        -- unfold is_pipe_slot. cbn. by rewrite Ek.
    + apply hoare_ret. intros s HF. eapply Fs_St; [exact HF|].
      eapply acctL_shrink; [done|exact Hf|done| |by rewrite Ep]. apply Hcl. right. intros h.
      unfold f1, pipe_end_closed in Ek. destruct (kind f) eqn:Ek'; congruence.
    + apply hoare_ret. intros s HF. eapply Fs_St; [exact HF|].
      eapply acctL_shrink; [done|exact Hf|done| |by rewrite Ep]. apply Hcl. right. intros h.
      unfold f1, pipe_end_closed in Ek. destruct (kind f) eqn:Ek'; congruence.
  - apply hoare_then_ret. eapply hoare_post; [eapply upd_slot_exact, list_lookup_insert_eq; done|].
    intros [] s HF. rewrite list_insert_insert_eq, Erc in HF. eapply Fs_St; [exact HF|].
    eapply acctL_shrink; [done|exact Hf|done| |by rewrite Ep].
    assert (rc f ≤ Z.of_nat (length (d :: L))) as Hb.
    { pose proof (cnt_le_length any (d :: L) j). unfold slot_ok in Hok. destruct (kind f); lia. }
    rewrite length_cons in Hb. rewrite wsub_small by lia. apply Hcl. left. lia.
Qed.
End refs.
