(* ===== verification/FsAcct.v ===== *)
(** * Every system call on files keeps the counts right

    [Inv n i]: task [i] runs, and the file table counts exactly the
    descriptors of the live tasks and at most [n] that were lost (a task that
    exits forgets a descriptor even if the server refused to close it). *)
From S2P Require Import Prelude P9Msg Pipe Kst Hoare Cons Fs FsSys FsInv.

Local Open Scope Z_scope.

Notation tabs := (list (bool * list (option FD))).

(** The descriptors of the live tasks. *)
Definition fds (τ : tabs) : list FD := τ ≫= λ x : bool * list (option FD), if x.1 then omap id x.2 else [].

Definition shape (τ : tabs) : Prop := length τ = NTASKS ∧ Forall (λ x : bool * list (option FD), length x.2 = NFDS) τ.

Section lists.
Implicit Types (fs : list (option FD)) (τ : tabs).

Lemma omap_id_cons (o : option FD) fs : omap id (o :: fs) = option_list o ++ omap id fs.
Proof. by destruct o. Qed.

Lemma table_update fs k o o' :
  fs !! k = Some o → option_list o' ++ omap id fs ≡ₚ option_list o ++ omap id (<[k := o']> fs).
Proof.
  intros Hk. rewrite insert_take_drop by (by eapply lookup_lt_Some).
  rewrite <- (take_drop_middle fs k o Hk) at 1. rewrite !omap_app, !omap_id_cons. solve_Permutation.
Qed.

Lemma fds_update τ i fs fs' A B :
  τ !! i = Some (true, fs) → A ++ omap id fs ≡ₚ B ++ omap id fs' → A ++ fds τ ≡ₚ B ++ fds (<[i := (true, fs')]> τ).
Proof.
  intros Hi HP. rewrite insert_take_drop by (by eapply lookup_lt_Some).
  rewrite <- (take_drop_middle τ i _ Hi) at 1. unfold fds. rewrite !bind_app, !bind_cons. simpl.
  generalize (take i τ ≫= (λ x : bool * list (option FD), if x.1 then omap id x.2 else [])) as P.
  generalize (drop (S i) τ ≫= (λ x : bool * list (option FD), if x.1 then omap id x.2 else [])) as Q.
  intros Q P. transitivity (P ++ (A ++ omap id fs) ++ Q); [solve_Permutation|]. rewrite HP. solve_Permutation.
Qed.

Lemma omap_length fs : (length (omap id fs) ≤ length fs)%nat.
Proof. induction fs as [|[d|] fs IH]; [done|..]; rewrite omap_id_cons; simpl; lia. Qed.

Lemma fds_length τ : shape τ → (length (fds τ) ≤ 64)%nat.
Proof.
  intros [Hl HF]. assert (length (fds τ) ≤ NFDS * length τ)%nat as H.
  { clear Hl. induction HF as [|[b fs] τ Hx _ IH]; [done|]. unfold fds in *. rewrite bind_cons, length_app, length_cons.
    pose proof (omap_length fs). cbn in Hx. destruct b; cbn [fst snd length]; lia. }
  rewrite Hl in H. exact H.
Qed.

Lemma fds_elem τ i fs k d : τ !! i = Some (true, fs) → fs !! k = Some (Some d) → d ∈ fds τ.
Proof.
  intros Hi Hk. apply list_elem_of_bind. exists (true, fs). split; [|by eapply list_elem_of_lookup_2].
  simpl. apply list_elem_of_omap. exists (Some d). split; [by eapply list_elem_of_lookup_2|done].
Qed.

Lemma shape_insert τ i fs fs' :
  τ !! i = Some (true, fs) → length fs' = length fs → shape τ → shape (<[i := (true, fs')]> τ).
Proof.
  intros Hi Hl [H1 H2]. split; [by rewrite length_insert|]. apply Forall_insert; [done|]. simpl. rewrite Hl.
  by apply (Forall_lookup_1 _ _ _ _ H2 Hi).
Qed.

Lemma first_free_spec fs : ∀ k j, first_free fs k = Some j → (k ≤ j)%nat ∧ fs !! (j - k)%nat = Some None.
Proof.
  induction fs as [|[d|] fs IH]; intros k j; simpl; [done| |].
  - intros H. apply IH in H as [Hle H]. split; [lia|]. by replace (j - k)%nat with (S (j - S k)) by lia.
  - intros [= ->]. by rewrite Nat.sub_diag.
Qed.
End lists.

(** The tables after [files[k] = o'] in task [i]. *)
Lemma tabs_set_fd (ts : list Task) τ i fs k o' :
  tab <$> ts = τ → τ !! i = Some (true, fs) →
  tab <$> alter (set_fd k o') i ts = <[i := (true, <[k := o']> fs)]> τ.
Proof.
  intros <- Hi. apply list_eq. intros j. rewrite list_lookup_fmap. rewrite list_lookup_fmap in Hi.
  destruct (decide (i = j)) as [<-|Hne]; [|by rewrite list_lookup_alter_ne, list_lookup_insert_ne, list_lookup_fmap].
  rewrite list_lookup_alter_eq. destruct (ts !! i) as [t|] eqn:Et; [|done]. simpl in *. unfold tab in Hi. simplify_eq.
  rewrite list_lookup_insert_eq; [|rewrite length_fmap; by eapply lookup_lt_Some]. unfold tab, live in *. simpl. by rewrite H.
Qed.

(** The counts, whoever runs. *)
Definition counted {X} (n : nat) (s : KSt X) : Prop :=
  ∃ τ lost, acctL (fds τ ++ lost) (k_files s) ∧ tab <$> k_tasks s = τ ∧ shape τ ∧ (length lost ≤ n)%nat.

(** Task [i] runs, with the descriptors [fs]. *)
Definition Acct {X} (n i : nat) (fs : list (option FD)) (s : KSt X) : Prop :=
  ∃ τ lost, St (fds τ ++ lost) τ i s ∧ shape τ ∧ (length lost ≤ n)%nat ∧ τ !! i = Some (true, fs).

Definition Inv {X} (n i : nat) (s : KSt X) : Prop := ∃ fs, Acct n i fs s.

Section acct.
Context {X : Type} {api : P9Api X}.
Context (n i : nat) (Hn : (Z.of_nat n ≤ 60000)).
Implicit Types (s : KSt X) (fs : list (option FD)).
Notation Acct := (Acct (X := X) n i).
Notation Inv := (Inv (X := X) n i).

Lemma Acct_counted fs s : Acct fs s → counted n s.
Proof. intros (τ & lost & (A & B & C) & D & E & F). by exists τ, lost. Qed.

Lemma St_Acct {A} (m : KM X A) fs : (∀ L τ, pres (St L τ i) m) → pres (Acct fs) m.
Proof. intros H s a s' (τ & lost & HS & ?) E. exists τ, lost. split; [|done]. eapply H; eauto. Qed.

Lemma Acct_Inv {A} (m : KM X A) : (∀ fs, pres (Acct fs) m) → pres Inv m.
Proof. intros H s a s' [fs HA] E. exists fs. eapply H; eauto. Qed.

Lemma current fs s : Acct fs s → ∃ t, k_tasks s !! i = Some t ∧ live t = true ∧ t_files t = fs ∧ task_idx s = Some i ∧ length fs = NFDS.
Proof.
  intros (τ & lost & (A & <- & C) & D & E & F). rewrite list_lookup_fmap in F.
  destruct (k_tasks s !! i) as [t|] eqn:Et; [|done]. simpl in F. unfold tab in F. simplify_eq. exists t. split_and!; try done.
  destruct D as [_ D]. rewrite Forall_fmap in D. by apply (Forall_lookup_1 _ _ _ _ D Et).
Qed.

Lemma cur_task_Acct fs : hoare (Acct fs) cur_task (λ t s, Acct fs s ∧ t_files t = fs).
Proof.
  intros s t s' HA. destruct (current _ _ HA) as (t0 & H1 & H2 & H3 & H4 & _).
  unfold cur_task, cur, get_tsk, bind, get. rewrite H4. simpl. rewrite H1. simpl. by intros [= <- <-].
Qed.

(** A change to the running task that leaves it alive and its descriptors alone. *)
Lemma upd_live fs j g :
  (∀ t, live t = true → tab (g t) = tab t) → j = i → pres (Acct fs) (upd_tsk j g).
Proof.
  intros Hg ->. apply hoare_modify. intros s HA. destruct (current _ _ HA) as (t & H1 & H2 & _).
  destruct HA as (τ & lost & (A & B & C) & D). exists τ, lost. split; [|done]. split_and!; try done. simpl.
  rewrite <- B. apply list_eq. intros k. rewrite !list_lookup_fmap. destruct (decide (i = k)) as [<-|].
  - rewrite list_lookup_alter_eq, H1. simpl. by rewrite Hg.
  - by rewrite list_lookup_alter_ne.
Qed.

Lemma cur_Acct fs : hoare (Acct fs) cur (λ j s, Acct fs s ∧ j = i).
Proof.
  intros s j s' HA. destruct (current _ _ HA) as (t0 & _ & _ & _ & H4 & _).
  unfold cur, bind, get. rewrite H4. simpl. by intros [= <- <-].
Qed.

Lemma upd_cur_Acct fs g : (∀ t, tab (g t) = tab t) → pres (Acct fs) (upd_cur g).
Proof. intros Hg. apply St_Acct. intros L τ. by apply upd_cur_pres. Qed.

(** Writing a descriptor. *)
Lemma upd_fd fs k o o' τ lost s :
  St (option_list o' ++ fds τ ++ lost) τ i s → shape τ → τ !! i = Some (true, fs) → fs !! k = Some o →
  ∀ a s', upd_cur (set_fd k o') s = Done (a, s') →
  ∃ τ', St (option_list o ++ fds τ' ++ lost) τ' i s' ∧ shape τ' ∧ τ' !! i = Some (true, <[k := o']> fs).
Proof.
  intros (HA & HB & HC) Hsh Hi Hk a s'. unfold upd_cur, cur, upd_tsk, bind, get, modify. rewrite HC. simpl. intros [= <- <-].
  set (τ' := <[i := (true, <[k := o']> fs)]> τ). exists τ'. split_and!.
  - split_and!; [|simpl|done].
    + eapply acctL_perm; [|reflexivity|exact HA]. rewrite !app_assoc. apply Permutation_app_tail. symmetry.
      eapply fds_update; [done|]. by apply table_update.
    + by apply tabs_set_fd.
  - eapply shape_insert; [done| |done]. by rewrite length_insert.
  - apply list_lookup_insert_eq. by eapply lookup_lt_Some.
Qed.

(** *** Steps that keep everything *)
Section keep.
Context (fs : list (option FD)).
Notation A := (Acct fs).

Ltac from_St := apply St_Acct; intros; auto with pres.

Lemma get_slot_A j : pres A (get_slot j).
Proof. from_St. Qed.
Lemma on_x_A {B} (m : M X B) : pres A (on_x m).
Proof. from_St. Qed.
Lemma wakeup_A c : pres A (wakeup c).
Proof. from_St. Qed.
Lemma cur_A : pres A cur.
Proof. from_St. Qed.
Lemma cur_task_A : pres A cur_task.
Proof. from_St. Qed.
Lemma reg_A j : pres A (reg j).
Proof. from_St. Qed.
Lemma user_read_A a k : pres A (user_read a k).
Proof. from_St. Qed.
Lemma user_write_A a bs : pres A (user_write a bs).
Proof. from_St. Qed.
Lemma user_cstr_A a : pres A (user_cstr a).
Proof. from_St. Qed.
Lemma slot_A j g : (∀ f, kind (g f) = kind f ∧ rc (g f) = rc f) → pres A (upd_slot j g).
Proof. intros. apply St_Acct. intros. by apply slot_pres. Qed.

(** Changes outside of the files and the tasks. *)
Lemma modify_A g : (∀ s, k_files (g s) = k_files s ∧ tab <$> k_tasks (g s) = tab <$> k_tasks s ∧ task_idx (g s) = task_idx s) →
  pres A (modify g).
Proof.
  intros Hg. apply St_Acct. intros L τ. apply hoare_modify. intros s (A1 & A2 & A3). destruct (Hg s) as (E1 & E2 & E3).
  unfold St. by rewrite E1, E2, E3.
Qed.

Lemma pipe_run_A {B} j p (m : Pipe.PipeM B) :
  (∀ r w, pres (counts_are r w) m) →
  hoare (λ s, A s ∧ ∃ f, slot_is j f s ∧ kind f = KPipe p) (pipe_run j p m) (λ _, A).
Proof.
  intros Hm s a s' [(τ & lost & HS & HR) Hf] E. exists τ, lost. split; [|done].
  eapply pipe_run_pres; [done| |exact E]. done.
Qed.

Lemma pipe_of_A j : hoare A (pipe_of j) (λ p s, A s ∧ ∃ f, slot_is j f s ∧ kind f = KPipe p).
Proof.
  eapply hoare_bind; [apply get_slot_hoare|]. intros f. destruct (kind f) eqn:Ek; try apply hoare_fail.
  apply hoare_ret. intros s [HA Hf]. eauto.
Qed.
End keep.

#[local] Hint Resolve get_slot_A on_x_A wakeup_A cur_A cur_task_A reg_A user_read_A user_write_A user_cstr_A : pres.
#[local] Hint Extern 1 (hoare _ (upd_slot _ _) _) => apply slot_A; done : pres.
#[local] Hint Extern 1 (hoare _ (seek_to _ _) _) => apply slot_A; done : pres.
#[local] Hint Extern 1 (hoare _ (upd_cur _) _) => apply upd_cur_Acct; done : pres.
#[local] Hint Extern 1 (hoare _ (modify _) _) =>
  apply modify_A; intros; split_and!; simpl; first [done|apply wake_listed_tabs] : pres.

(** *** Sleeping: the others keep the counts and leave task [i] alone *)
Context (others : option chan → KM X unit) (naps : nat).
Context (Hothers : ∀ c fs,
  hoare (λ s, counted n s ∧ ∃ t, k_tasks s !! i = Some t ∧ tab t = (true, fs)) (others c)
        (λ _ s, counted n s ∧ ∃ t, k_tasks s !! i = Some t ∧ tab t = (true, fs))).

Lemma sched_away_A fs c : pres (Acct fs) (sched_away others c).
Proof using All.
  unfold sched_away. eapply hoare_bind; [apply cur_Acct|]. intros j. apply hoare_pure. intros ->.
  eapply hoare_bind; [apply upd_live; [|done]; intros t Ht; unfold tab, live in *; simpl; by rewrite Ht|]. intros [].
  eapply hoare_bind; [eapply hoare_conseq; [apply (Hothers c fs)| |]|].
  - intros s HA. split; [by eapply Acct_counted|]. destruct (current _ _ HA) as (t & H1 & H2 & H3 & _).
    exists t. unfold tab. by rewrite H2, H3.
  - intros a s H. exact H.
  - intros []. apply (hoare_bind _ _ _ (λ _, Acct fs)).
    + apply hoare_modify. intros s [(τ & lost & A1 & A2 & A3 & A4) (t & Ht & Etab)].
      exists τ, lost. split_and!; try done. rewrite <- A2, list_lookup_fmap, Ht. simpl. by rewrite Etab.
    + intros []. apply upd_live; [|done]. intros t Ht. unfold tab, live in *. simpl. by rewrite Ht.
Qed.

Lemma back_A fs : pres (Acct fs) back.
Proof using All. by apply upd_cur_Acct. Qed.
#[local] Hint Resolve sched_away_A back_A : pres.

Lemma sleep_A fs c : pres (Acct fs) (sleep others c).
Proof using All. unfold sleep. pres_auto. Qed.
#[local] Hint Resolve sleep_A : pres.

Lemma pipe_write_wait_A fs k : ∀ j r, pres (Acct fs) (pipe_write_wait others k j r).
Proof using All.
  induction k as [|k IH]; intros j [z|rest]; cbn [pipe_write_wait]; auto with pres.
  apply pres_bind; [auto with pres|intros []].
  eapply hoare_bind; [apply pipe_of_A|]. intros p.
  eapply hoare_bind; [apply pipe_run_A; intros; apply write_resume_counts|]. intros r. apply IH.
Qed.

Lemma pipe_read_wait_A fs k : ∀ j r, pres (Acct fs) (pipe_read_wait others k j r).
Proof using All.
  induction k as [|k IH]; intros j [z|m got]; cbn [pipe_read_wait]; auto with pres.
  apply pres_bind; [auto with pres|intros []].
  eapply hoare_bind; [apply pipe_of_A|]. intros p.
  eapply hoare_bind; [apply pipe_run_A; intros; apply read_resume_counts|]. intros r. apply IH.
Qed.
#[local] Hint Resolve pipe_write_wait_A pipe_read_wait_A : pres.

(** *** The console and the clock *)
Lemma cons_wq_add_A fs t : pres (Acct fs) (cons_wq_add t).
Proof. unfold cons_wq_add. pres_auto. Qed.
Lemma add2wait_A fs : pres (Acct fs) add2wait.
Proof. unfold add2wait. pres_auto. Qed.
#[local] Hint Resolve cons_wq_add_A add2wait_A : pres.

Lemma putc_A fs c : pres (Acct fs) (putc c).
Proof. unfold putc. pres_auto. Qed.
#[local] Hint Resolve putc_A : pres.

Lemma cons_write_A fs buf : pres (Acct fs) (cons_write buf).
Proof. unfold cons_write. pres_auto. Qed.

Lemma read_line_loop_A fs k : ∀ m got, pres (Acct fs) (read_line_loop others k m got).
Proof using All.
  induction k as [|k IH]; intros m got; cbn [read_line_loop]; apply pres_bind; auto with pres; intros s;
    destruct (pop_line _ _ _) as [[x r] st]; unfold set_buf, cons_sleep; pres_auto.
Qed.

Lemma read_line_A fs k m : pres (Acct fs) (read_line others k m).
Proof using All. unfold read_line. pres_auto. apply read_line_loop_A. Qed.
#[local] Hint Resolve cons_write_A read_line_A : pres.

(** *** Files *)
Lemma read_A fs j len : pres (Acct fs) (read others naps j len).
Proof using All.
  unfold read. eapply hoare_bind; [apply get_slot_hoare|]. intros f.
  destruct (rc f =? 0); [by apply hoare_ret; intros s [? _]|].
  destruct (kind f) as [| |h| |p] eqn:Ek; try apply hoare_fail;
    try solve [apply (hoare_conseq _ (Acct fs) _ _ (λ _, Acct fs)); [pres_auto|by intros s [? _]|done]].
  apply (hoare_bind _ _ _ (λ _, Acct fs)); [|intros; by apply hoare_ret].
  unfold pipe_read. eapply (hoare_bind _ _ _ (λ _, Acct fs)); [|auto with pres].
  eapply hoare_conseq; [apply (pipe_run_A fs j p); intros; apply read_counts| |done].
  intros s [HA Hf]. eauto.
Qed.

Lemma write_A fs j buf : pres (Acct fs) (write others naps j buf).
Proof using All.
  unfold write. eapply hoare_bind; [apply get_slot_hoare|]. intros f.
  destruct (rc f =? 0); [by apply hoare_ret; intros s [? _]|].
  destruct (kind f) as [| |h| |p] eqn:Ek; try apply hoare_fail;
    try solve [apply (hoare_conseq _ (Acct fs) _ _ (λ _, Acct fs)); [pres_auto|by intros s [? _]|done]].
  apply (hoare_bind _ _ _ (λ _, Acct fs)); [|intros; by apply hoare_ret].
  unfold pipe_write. eapply (hoare_bind _ _ _ (λ _, Acct fs)); [|auto with pres].
  eapply hoare_conseq; [apply (pipe_run_A fs j p); intros; apply write_counts| |done].
  intros s [HA Hf]. eauto.
Qed.
#[local] Hint Resolve read_A write_A : pres.

Lemma write_all_A fs j buf : pres (Acct fs) (write_all others naps j buf).
Proof using All.
  unfold write_all. generalize (length buf). intros k. revert buf.
  induction k as [|k IH]; intros [|c buf]; cbn [write_all_loop]; auto with pres. pres_auto.
Qed.
#[local] Hint Resolve write_all_A : pres.

Lemma send_A fs j to m : pres (Acct fs) (send others naps j to m).
Proof using All.
  unfold send. apply pres_bind; [|auto with pres]. generalize (Z.to_nat m). intros k. revert m.
  induction k as [|k IH]; intros m; cbn [send_loop]; pres_auto.
Qed.

Lemma file_get_size_A fs j : pres (Acct fs) (file_get_size j).
Proof. unfold file_get_size. pres_auto. Qed.
#[local] Hint Resolve send_A file_get_size_A : pres.

Lemma file_lseek_A fs j o wh : pres (Acct fs) (file_lseek j o wh).
Proof. unfold file_lseek, seek_by. pres_auto. Qed.
Lemma file_getdents64_A fs j len : pres (Acct fs) (file_getdents64 j len).
Proof. unfold file_getdents64. pres_auto. Qed.
Lemma file_fstat_A fs j : pres (Acct fs) (file_fstat j).
Proof. unfold file_fstat. pres_auto. Qed.
#[local] Hint Resolve file_lseek_A file_getdents64_A file_fstat_A : pres.

(** *** System calls that leave the descriptors alone *)
Section calls.
Context (fs : list (option FD)).
Notation A := (Acct fs).

Lemma fd_at_A k : pres A (fd_at k).
Proof. unfold fd_at. pres_auto. Qed.
#[local] Hint Resolve fd_at_A : pres.
Lemma task_get_file_A k : pres A (task_get_file k).
Proof. unfold task_get_file. pres_auto. Qed.
Lemma checked_fd_A k : pres A (checked_fd k).
Proof. unfold checked_fd. pres_auto. Qed.
#[local] Hint Resolve task_get_file_A checked_fd_A : pres.

Lemma at_path_A fd p : pres A (at_path fd p).
Proof. unfold at_path. pres_auto. Qed.
Lemma user_path_A ptr : pres A (user_path ptr).
Proof. unfold user_path. pres_auto. Qed.
#[local] Hint Resolve at_path_A user_path_A : pres.

Lemma path_or_A fd ptr k : (∀ p, pres A (k p)) → pres A (path_or fd ptr k).
Proof. intros Hk. unfold path_or. pres_auto. Qed.
Lemma two_paths_A k : (∀ p q, pres A (k p q)) → pres A (two_paths k).
Proof. intros Hk. unfold two_paths. pres_auto. Qed.
Lemma put_patch_A ptr p : pres A (put_patch ptr p).
Proof. unfold put_patch. pres_auto. Qed.
Lemma writev_loop_A f k : ∀ ptr w, pres A (writev_loop others naps f ptr k w).
Proof using All. induction k as [|k IH]; intros ptr w; cbn [writev_loop]; pres_auto. Qed.
#[local] Hint Resolve put_patch_A writev_loop_A : pres.
#[local] Hint Extern 1 (hoare _ (path_or _ _ _) _) => apply path_or_A; intros ? : pres.
#[local] Hint Extern 1 (hoare _ (two_paths _) _) => apply two_paths_A; intros ? ? : pres.

Ltac sys := pres_auto; first [apply path_or_A|apply two_paths_A|idtac]; intros; pres_auto.

Lemma fs_readlink_A p room : pres A (fs_readlink p room).
Proof using All. unfold fs_readlink. pres_auto. Qed.
#[local] Hint Resolve fs_readlink_A : pres.

Lemma sys_write_A : pres A (sys_write others naps).
Proof using All. unfold sys_write. pres_auto. Qed.
Lemma sys_writev_A : pres A (sys_writev others naps).
Proof using All. unfold sys_writev. pres_auto. Qed.
Lemma sys_read_A : pres A (sys_read others naps).
Proof using All. unfold sys_read. pres_auto. Qed.
Lemma sys_getdents64_A : pres A sys_getdents64.
Proof using All. unfold sys_getdents64. pres_auto. Qed.
Lemma sys_lseek_A : pres A sys_lseek.
Proof using All. unfold sys_lseek. pres_auto. Qed.
Lemma sys_sendfile64_A : pres A (sys_sendfile64 others naps).
Proof using All. unfold sys_sendfile64. pres_auto. Qed.
Lemma readlinkat_A : pres A readlinkat.
Proof using All. unfold readlinkat. sys. Qed.
Lemma symlinkat_A : pres A symlinkat.
Proof using All. unfold symlinkat. sys. Qed.
Lemma renameat_A : pres A renameat.
Proof using All. unfold renameat. sys. Qed.
Lemma linkat_A : pres A linkat.
Proof using All. unfold linkat. sys. Qed.
Lemma unlinkat_A : pres A unlinkat.
Proof using All. unfold unlinkat. sys. Qed.
Lemma mkdirat_A : pres A mkdirat.
Proof using All. unfold mkdirat. sys. Qed.
Lemma utimensat_A : pres A utimensat.
Proof using All. unfold utimensat. sys. Qed.
Lemma newfsstatat_A : pres A newfsstatat.
Proof using All. unfold newfsstatat. sys. Qed.
Lemma newfstat_A : pres A newfstat.
Proof using All. unfold newfstat. sys. Qed.
Lemma ftruncate_A : pres A ftruncate.
Proof using All. unfold ftruncate. sys. Qed.
Lemma getcwd_A : pres A getcwd.
Proof using All. unfold getcwd. sys. Qed.
Lemma chdir_A : pres A chdir.
Proof using All. unfold chdir. sys. Qed.
Lemma sys_umask_A : pres A sys_umask.
Proof using All. unfold sys_umask. sys. Qed.
Lemma ioctl_A : pres A ioctl.
Proof using All. unfold ioctl, get_termios, set_termios, get_winsz. pres_auto. Qed.

Lemma check_event_A p tw : pres A (check_event p tw).
Proof using All.
  unfold check_event, is_ok, writeable, hanged_up, readable, cons_readable, wait4readable, cons_wait4readable. pres_auto.
Qed.
#[local] Hint Resolve check_event_A : pres.
Lemma check_events_A k : ∀ p tw e, pres A (check_events p k tw e).
Proof using All. induction k as [|k IH]; intros p tw e; cbn [check_events]; pres_auto. Qed.
#[local] Hint Resolve check_events_A : pres.
Lemma ppoll_loop_A k : ∀ p m ts st, pres A (ppoll_loop others k p m ts st).
Proof using All. induction k as [|k IH]; intros p m ts st; cbn [ppoll_loop]; unfold read_tick; pres_auto. Qed.
#[local] Hint Resolve ppoll_loop_A : pres.
Lemma ppoll_A : pres A (ppoll others naps).
Proof using All. unfold ppoll, read_tick. pres_auto. Qed.
End calls.

(** *** System calls on descriptors *)
Lemma Acct_open {B} fs (m : KM X B) Q :
  (∀ τ lost, shape τ → (length lost ≤ n)%nat → τ !! i = Some (true, fs) → hoare (St (fds τ ++ lost) τ i) m Q) →
  hoare (Acct fs) m Q.
Proof using Hn. intros H s a s' (τ & lost & HS & Hsh & Hl & Hi). by eapply H. Qed.

Lemma Acct_weaken {B} fs (m : KM X B) : pres (Acct fs) m → hoare (Acct fs) m (λ _, Inv).
Proof using Hn. intros H. eapply hoare_post; [exact H|]. intros a s HA. by exists fs. Qed.

Lemma bound τ lost : shape τ → (length lost ≤ n)%nat → Z.of_nat (length (fds τ ++ lost)) < 65000.
Proof using Hn.
  intros Hsh Hl. rewrite length_app. pose proof (fds_length τ Hsh).
  lia.
Qed.

(** [files[k] = o'] where [files[k]] was [o]: the reference [o'] had goes into the table, [o] comes out. *)
Lemma upd_fd_hoare fs k o o' τ lost :
  shape τ → (length lost ≤ n)%nat → τ !! i = Some (true, fs) → fs !! k = Some o →
  hoare (St (option_list o' ++ fds τ ++ lost) τ i) (upd_cur (set_fd k o'))
    (λ _ s, ∃ τ', St (X := X) (option_list o ++ fds τ' ++ lost) τ' i s ∧ shape τ' ∧ τ' !! i = Some (true, <[k := o']> fs)).
Proof using Hn. intros Hsh Hl Hi Hk s a s' HS E. by eapply upd_fd. Qed.

Lemma fill_fd fs k d τ lost :
  shape τ → (length lost ≤ n)%nat → τ !! i = Some (true, fs) → fs !! k = Some None →
  hoare (St (d :: fds τ ++ lost) τ i) (upd_cur (set_fd k (Some d))) (λ _, Acct (<[k := Some d]> fs)).
Proof using Hn.
  intros. eapply hoare_post; [by apply (upd_fd_hoare fs k None (Some d))|].
  intros a s (τ' & HS & Hsh & Hi). by exists τ', lost.
Qed.

Lemma fd_at_spec fs k : hoare (Acct fs) (fd_at k) (λ o s, Acct fs s ∧ fs !! Z.to_nat k = Some o).
Proof using Hn.
  unfold fd_at. eapply hoare_bind; [apply cur_task_Acct|]. intros t. apply hoare_pure. intros ->.
  destruct (_ <? _); [apply hoare_unwrap|apply hoare_fail].
Qed.

Lemma openat_Inv : pres Inv openat.
Proof using Hn.
  apply hoare_ex. intros fs. unfold openat.
  apply (hoare_bind _ _ _ (λ _, Acct fs)); [apply reg_A|]. intros fd.
  apply (hoare_bind _ _ _ (λ _, Acct fs)); [apply reg_A|]. intros ptr.
  destruct (ptr =? 0); [apply Acct_weaken, pres_ret|]. unfold path_or.
  apply (hoare_bind _ _ _ (λ _, Acct fs)); [by apply user_path_A|]. intros p.
  apply (hoare_bind _ _ _ (λ _, Acct fs)); [by apply at_path_A|]. intros [q|]; [|apply Acct_weaken, pres_ret].
  eapply hoare_bind; [apply cur_task_Acct|]. intros t. apply hoare_pure. intros ->.
  destruct (first_free fs 0) as [k|] eqn:Ek; [|apply Acct_weaken, pres_ret].
  apply first_free_spec in Ek as [_ Ek]. rewrite Nat.sub_0_r in Ek.
  apply (hoare_bind _ _ _ (λ _, Acct fs)); [apply reg_A|]. intros flags.
  apply Acct_open. intros τ lost Hsh Hl Hi. eapply hoare_bind; [apply fs_open_spec|]. intros [f|].
  - apply hoare_then_ret. eapply hoare_post; [by apply (fill_fd fs k (mkFD f true true) τ lost)|]. intros a s HA. eexists. exact HA.
  - apply hoare_ret. intros s HS. exists fs, τ, lost. done.
Qed.

(** Closing the descriptor [d] that the table [fs] holds at [k]. *)
Lemma close_fd_hoare fs k d τ lost :
  shape τ → (length lost ≤ n)%nat → τ !! i = Some (true, fs) → fs !! k = Some (Some d) →
  hoare (St (fds τ ++ lost) τ i) (file_close (fd_file d) (fd_read d) (fd_write d))
    (λ r s, match r with
            | Some _ => ∃ L, d :: L ≡ₚ fds τ ++ lost ∧ St L τ i s
            | None => St (X := X) (fds τ ++ lost) τ i s
            end).
Proof using Hn.
  intros Hsh Hl Hi Hk. assert (d ∈ fds τ ++ lost) as Hd by (apply elem_of_app; left; by eapply fds_elem).
  apply elem_of_Permutation in Hd as [L HL]. pose proof (bound τ lost Hsh Hl) as Hb. rewrite HL in Hb. simpl in Hb.
  eapply hoare_conseq; [apply (file_close_spec τ i L d); lia| |].
  - intros s (HA & HB & HC). split; [|done]. by rewrite <- HL.
  - intros [u|] s HS; [exists L; by rewrite HL|]. destruct HS as (HA & HB & HC). split; [|done]. by rewrite HL.
Qed.

Lemma empty_fd fs k d τ lost L :
  shape τ → (length lost ≤ n)%nat → τ !! i = Some (true, fs) → fs !! k = Some (Some d) → d :: L ≡ₚ fds τ ++ lost →
  hoare (St L τ i) (upd_cur (set_fd k None)) (λ _, Acct (<[k := None]> fs)).
Proof using Hn.
  intros Hsh Hl Hi Hk HL s a s' (HA & HB & HC). unfold upd_cur, cur, upd_tsk, bind, get, modify. rewrite HC. simpl. intros [= <- <-].
  assert (fds τ ≡ₚ d :: fds (<[i := (true, <[k := None]> fs)]> τ)) as HP.
  { apply (fds_update τ i fs _ [] [d]); [done|]. by apply (table_update fs k (Some d) None). }
  exists (<[i := (true, <[k := None]> fs)]> τ), lost. unfold St. split_and!; [| |done| |done|].
  - rewrite HP in HL. apply Permutation.Permutation_cons_inv in HL. simpl. by rewrite <- HL.
  - by apply tabs_set_fd.
  - eapply shape_insert; [done| |done]. by rewrite length_insert.
  - apply list_lookup_insert_eq. by eapply lookup_lt_Some.
Qed.

Lemma close_Inv : pres Inv close.
Proof using Hn.
  apply hoare_ex. intros fs. unfold close.
  apply (hoare_bind _ _ _ (λ _, Acct fs)); [apply reg_A|]. intros fd.
  apply (hoare_bind _ _ _ (λ _, Acct fs)); [apply cur_task_A|]. intros t.
  destruct (_ <? _); [apply Acct_weaken, pres_ret|].
  eapply hoare_bind; [apply fd_at_spec|]. intros [d|]; apply hoare_pure; intros Hk; [|apply Acct_weaken, pres_ret].
  apply Acct_open. intros τ lost Hsh Hl Hi. eapply hoare_bind; [by eapply close_fd_hoare|]. intros [u|].
  - apply hoare_then_ret. apply hoare_ex. intros L s a s' [HL HS] E. eexists. by eapply empty_fd.
  - apply hoare_ret. intros s HS. exists fs, τ, lost. done.
Qed.

Lemma cur_task_St L τ fs :
  τ !! i = Some (true, fs) → hoare (St L τ i) cur_task (λ t s, St (X := X) L τ i s ∧ t_files t = fs).
Proof using Hn.
  intros Hi s t s' (H1 & H2 & H3). unfold cur_task, cur, get_tsk, bind, get. rewrite H3. simpl.
  destruct (k_tasks s !! i) as [t'|] eqn:Et; simpl; [|done]. intros [= <- <-]. split; [done|].
  rewrite <- H2, list_lookup_fmap, Et in Hi. by injection Hi.
Qed.

Lemma fd_at_St L τ fs k :
  shape τ → τ !! i = Some (true, fs) →
  hoare (St L τ i) (fd_at k) (λ o s, St (X := X) L τ i s ∧ fs !! Z.to_nat k = Some o ∧ k < 8).
Proof using Hn.
  intros [_ Hsh] Hi. unfold fd_at. eapply hoare_bind; [by apply cur_task_St|]. intros t. apply hoare_pure. intros ->.
  assert (length fs = NFDS) as -> by (by apply (Forall_lookup_1 _ _ _ _ Hsh Hi)).
  destruct (Z.ltb_spec k (Z.of_nat NFDS)); [|apply hoare_fail].
  eapply hoare_post; [apply hoare_unwrap|]. by intros o s [HS Ho].
Qed.

Lemma dup_file_hoare fs k τ lost :
  shape τ → (length lost ≤ n)%nat → τ !! i = Some (true, fs) →
  hoare (St (fds τ ++ lost) τ i) (dup_file k) (λ d, St (X := X) (d :: fds τ ++ lost) τ i).
Proof using Hn.
  intros Hsh Hl Hi. unfold dup_file.
  eapply hoare_bind; [by eapply fd_at_St|].
  intros [d|]; apply hoare_pure; intros [Hk _]; [|apply hoare_fail].
  eapply hoare_bind; [apply (file_dup_spec _ _ _ d)|intros a; by apply hoare_ret]; [|done|by left|].
  - apply elem_of_app. left. by eapply fds_elem.
  - pose proof (bound τ lost Hsh Hl). lia.
Qed.

Lemma dup3_Inv : pres Inv dup3.
Proof using Hn.
  apply hoare_ex. intros fs. unfold dup3.
  apply (hoare_bind _ _ _ (λ _, Acct fs)); [apply reg_A|]. intros old.
  apply (hoare_bind _ _ _ (λ _, Acct fs)); [apply reg_A|]. intros new.
  apply (hoare_bind _ _ _ (λ _, Acct fs)); [by apply fd_at_A|]. intros [d0|]; [|apply Acct_weaken, pres_ret].
  destruct (old =? new); [apply Acct_weaken, pres_ret|].
  apply (hoare_bind _ _ _ (λ o s, Acct fs s ∧ (8 < new ∨ fs !! Z.to_nat new = Some o))).
  { unfold task_get_file. intros s o s' HA. destruct (current _ _ HA) as (_ & _ & _ & _ & _ & Hlen). revert s o s' HA.
    eapply hoare_bind; [apply cur_task_Acct|]. intros t. apply hoare_pure. intros ->. rewrite Hlen. destruct (Z.ltb_spec (Z.of_nat NFDS) new).
    - apply hoare_ret. auto.
    - eapply hoare_post; [apply fd_at_spec|]. intros o s [HA Ho]. auto. }
  intros rep. apply hoare_pure. intros Hrep.
  apply Acct_open. intros τ lost Hsh Hl Hi. eapply hoare_bind; [by eapply dup_file_hoare|]. intros d.
  eapply hoare_bind; [by eapply fd_at_St|].
  intros o s a s' [HS [Ho Hlt]]. assert (rep = o) as -> by (destruct Hrep; [lia|congruence]). revert s a s' HS.
  eapply hoare_bind; [by apply (upd_fd_hoare fs (Z.to_nat new) o (Some d))|]. intros [].
  apply hoare_ex. intros τ' s a s' (HS & Hsh' & Hi'). revert s a s' HS. apply hoare_then_ret.
  destruct o as [g|]; [|apply hoare_ret; intros s HS; by exists (<[Z.to_nat new := Some d]> fs), τ', lost].
  eapply hoare_bind; [apply file_close_spec; pose proof (bound τ' lost Hsh' Hl); lia|].
  intros [[]|]; [|apply hoare_fail]. apply hoare_ret. intros s HS. by exists (<[Z.to_nat new := Some d]> fs), τ', lost.
Qed.

Lemma task_alloc_file_hoare fs d τ E :
  shape τ → τ !! i = Some (true, fs) →
  hoare (St (d :: fds τ ++ E) τ i) (task_alloc_file d)
    (λ r s, r = None ∨ ∃ τ' fs', St (X := X) (fds τ' ++ E) τ' i s ∧ shape τ' ∧ τ' !! i = Some (true, fs')).
Proof using Hn.
  intros Hsh Hi. unfold task_alloc_file. eapply hoare_bind; [by eapply cur_task_St|].
  intros t. apply hoare_pure. intros ->. destruct (first_free fs 0) as [k|] eqn:Ek; [|apply hoare_ret; by left].
  apply first_free_spec in Ek as [_ Ek]. rewrite Nat.sub_0_r in Ek. apply hoare_then_ret.
  intros s a s' HS E'. right.
  destruct (upd_fd fs k None (Some d) τ E s HS Hsh Hi Ek a s' E') as (τ' & H1 & H2 & H3). by exists τ', (<[k := Some d]> fs).
Qed.

Lemma pipe2_Inv : pres Inv pipe2.
Proof using Hn.
  apply hoare_ex. intros fs. unfold pipe2.
  apply (hoare_bind _ _ _ (λ _, Acct fs)); [apply reg_A|]. intros ptr.
  apply (hoare_bind _ _ _ (λ _, Acct fs)); [apply reg_A|]. intros flags.
  apply Acct_open. intros τ lost Hsh Hl Hi. eapply hoare_bind; [apply open_pipe_spec|].
  intros [pip|]; [|apply hoare_ret; intros s HS; by exists fs, τ, lost].
  pose proof (bound τ lost Hsh Hl) as Hb.
  eapply hoare_bind.
  { apply (file_dup_spec τ i (mkFD pip true false :: fds τ ++ lost) (mkFD pip true false) (mkFD pip false true));
      [by left|done|by right|rewrite length_cons; lia]. }
  intros []. eapply hoare_bind.
  { eapply hoare_conseq; [apply (task_alloc_file_hoare fs (mkFD pip true false) τ (mkFD pip false true :: lost)); done| |done].
    intros s (HA & HB & HC). split; [|done].
    eapply acctL_perm; [|reflexivity|exact HA]. solve_Permutation. }
  intros o. eapply hoare_bind; [apply hoare_unwrap|]. intros k1. apply hoare_pure. intros ->.
  intros s a s' [[=]|(τ1 & fs1 & HS1 & Hsh1 & Hi1)]. revert s a s' HS1. eapply hoare_bind.
  { eapply hoare_conseq; [apply (task_alloc_file_hoare fs1 (mkFD pip false true) τ1 lost); done| |done].
    intros s (HA & HB & HC). split; [|done].
    eapply acctL_perm; [|reflexivity|exact HA]. solve_Permutation. }
  intros o. eapply hoare_bind; [apply hoare_unwrap|]. intros k2. apply hoare_pure. intros ->.
  intros s a s' [[=]|(τ2 & fs2 & HS2 & Hsh2 & Hi2)] E. exists fs2.
  assert (Acct fs2 s) as HA by (by exists τ2, lost). clear HS2. revert s a s' HA E. apply hoare_then_ret. apply user_write_A.
Qed.

(** *** All of them *)
Lemma file_call_Inv nr m : file_call others naps nr = Some m → pres Inv m.
Proof using All.
  unfold file_call, fcntl, faccessat, getrandom. intros E.
  assert (∀ (m' : KM X Z), Some m' = Some m → pres Inv m' → pres Inv m) as H by (intros m' [= ->]; done).
  repeat match type of E with
  | match ?x with _ => _ end = Some _ => destruct x; try discriminate E
  end; refine (H _ E _); clear H E;
  first [ apply openat_Inv | apply close_Inv | apply dup3_Inv | apply pipe2_Inv
        | apply Acct_Inv; intros fs;
          first [ apply pres_ret | apply reg_A | apply getcwd_A | apply ioctl_A | apply mkdirat_A | apply unlinkat_A
                | apply symlinkat_A | apply linkat_A | apply renameat_A | apply ftruncate_A | apply utimensat_A
                | apply chdir_A | apply sys_getdents64_A | apply sys_lseek_A | apply sys_read_A | apply sys_write_A
                | apply sys_writev_A | apply sys_sendfile64_A | apply ppoll_A | apply readlinkat_A
                | apply newfsstatat_A | apply newfstat_A | apply sys_umask_A ] ].
Qed.
End acct.
