(* ===== verification/FsSpec.v ===== *)
(** * What the file layer promises

    The claims on descriptors, files and pipes behind them, proved on the
    definitions of [Fs] and [FsSys] with the invariant of [FsAcct]. *)
From S2P Require Import Prelude P9Msg Pipe Kst Hoare Cons Fs FsSys FsInv FsAcct.

Local Open Scope Z_scope.

(** ** Closing returns *)
Section close_runs.
Context {X : Type} {api : P9Api X}.
Context (τ : tabs) (i : nat).
Context (Hclose : ∀ h (x : X), ∃ r x', p9_close h x = Done (r, x')).
Notation Fs := (Fs (X := X) τ i).

Lemma get_slot_runs F j f : F !! j = Some f → runs (Fs F) (get_slot j).
Proof. intros Hf s (HA & _ & _). unfold get_slot, bind, get. rewrite HA, Hf. by exists f, s. Qed.

Lemma upd_slot_runs F j f g : F !! j = Some f → runs (Fs F) (upd_slot j g).
Proof.
  intros Hf. eapply runs_bind; [by eapply get_slot_runs|by apply get_slot_exact|]. intros x. apply runs_modify.
Qed.

Lemma pipe_run_runs {A} F j f p (m : Pipe.PipeM A) a ps :
  F !! j = Some f → m (p, []) = Done (a, ps) → runs (Fs F) (pipe_run j p m).
Proof.
  intros Hf E. unfold pipe_run. intros s HF. unfold bind at 1, lift. rewrite E. simpl. revert s HF.
  eapply runs_bind; [by eapply upd_slot_runs|by apply upd_slot_exact|]. intros [].
  eapply runs_bind; [|apply pres_forM; intros; apply wakeup_exact|intros; apply runs_ret].
  apply runs_forM; intros; [apply runs_modify|apply wakeup_exact].
Qed.

Lemma on_x_runs {A} F (m : M X A) : (∀ x, ∃ r x', m x = Done (r, x')) → runs (Fs F) (on_x m).
Proof. intros Hm s _. unfold on_x. destruct (Hm (k_x s)) as (r & x' & ->). eauto. Qed.

Lemma St_runs {A} L (m : KM X A) : (∀ F, acctL L F → runs (Fs F) m) → runs (St L τ i) m.
Proof. intros H s (HA & HB & HC). by apply (H (k_files s)). Qed.

Lemma close_last_runs F j f :
  F !! j = Some f → kind f ≠ KNone → kind f ≠ KUsed → runs (Fs F) (close_last j).
Proof using Hclose.
  intros Hf H1 H2. unfold close_last. eapply runs_bind; [by eapply get_slot_runs|by apply get_slot_exact|].
  intros g. apply runs_pure. intros ->. destruct (kind f); try done; try apply runs_ret.
  eapply runs_bind; [apply on_x_runs, Hclose|apply on_x_exact|]. intros [[]|];
    (eapply runs_bind; [by eapply upd_slot_runs|by apply upd_slot_exact|intros; apply runs_ret]).
Qed.

Lemma file_close_runs L d : runs (St (d :: L) τ i) (file_close (fd_file d) (fd_read d) (fd_write d)).
Proof using Hclose.
  apply St_runs. intros F HA. destruct (slot_of _ _ _ HA) as (f & Hf & Hok & Hdir).
  destruct (slot_open d L f Hok) as (Hrc & Hk1 & Hk2). set (j := fd_file d) in *.
  assert (j < length F)%nat as Hlt by (by eapply lookup_lt_Some).
  unfold file_close. eapply runs_bind; [by eapply get_slot_runs|by apply get_slot_exact|].
  intros g. apply runs_pure. intros ->. destruct (Z.eqb_spec (rc f) 0); [lia|].
  eapply runs_bind; [|by apply close_end_exact|].
  - destruct (kind f) as [| |h| |p] eqn:Ek; try apply runs_ret.
    assert (fd_read d ≠ fd_write d) as Hne by (apply Hdir; unfold is_pipe_slot; by rewrite Ek).
    eapply runs_bind; [apply runs_assert; by destruct (fd_read d), (fd_write d)|apply pres_assert|].
    intros []. eapply pipe_run_runs; [exact Hf|reflexivity].
  - intros []. assert (∀ h, <[j := h]> F !! j = Some h) as Hl by (intros h; by apply list_lookup_insert_eq).
    destruct (rc f =? 1).
    + eapply runs_bind; [eapply upd_slot_runs, Hl|eapply upd_slot_exact, Hl|]. intros [].
      eapply close_last_runs; [apply list_lookup_insert_eq; by rewrite length_insert|..];
        unfold pipe_end_closed; cbn; destruct (kind f) eqn:Ek; cbn; congruence.
    + eapply runs_bind; [eapply upd_slot_runs, Hl|eapply upd_slot_exact, Hl|intros; apply runs_ret].
Qed.
End close_runs.

(** ** A file server for the concrete runs: file [/c] is the [c]th string *)
Module Toy.
Definition X := list (list Z).

Definition handle (p : list Z) : option Z :=
  match p with [47; c] => Some (c - 48) | _ => None end.

Definition content (x : X) (h : Z) : list Z := default [] (x !! Z.to_nat h).

Definition open (p : list Z) (flags : Z) : M X (option Z) := λ x,
  Done (match handle p with
        | Some h => if (Z.to_nat h <? length x)%nat && (0 <=? h) then Some h else None
        | None => None
        end, x).

(** At most 3 bytes at a time. *)
Definition read (h : Z) (len : nat) (off : Z) : M X (option (list Z)) := λ x,
  Done (Some (take (Nat.min 3 len) (drop (Z.to_nat off) (content x h))), x).

Definition write (h : Z) (bs : list Z) (off : Z) : M X (option Z) := λ x,
  Done (Some (Z.of_nat (length bs)), <[Z.to_nat h := splice (Z.to_nat off) bs (content x h)]> x).

#[global] Instance api : P9Api X := {|
  p9_open := open;
  p9_read := read;
  p9_write := write;
  p9_close h := ret (Some tt);
  p9_get_size h := gets (λ x, Z.of_nat (length (content x h)));
  p9_fstat h := ret (Some []);
  p9_getdents64 h len off := ret None;
  p9_stat p follow := ret None;
  p9_truncate p n := ret None;
  p9_exists p := gets (λ x, bool_decide (is_Some (handle p)));
  p9_remove p := ret None;
  p9_mkdir p mode := ret None;
  p9_symlink a b := ret None;
  p9_readlink p := ret None;
  p9_rename a b := ret None;
  p9_link a b follow := ret None;
|}.

(** Task 0 runs, with no descriptors, 64 bytes of memory and the root as its directory. *)
Definition mem : gmap Z Z := list_to_map ((λ a, (a, 0)) <$> seqZ 4096 64).
Definition task0 : Task :=
  mkTask None 0 None Running None 0 (replicate NFDS None) 777 (Some [47]) (replicate 31 0) mem.
Definition start (x : X) : KSt X :=
  mkK (replicate NFILES file_zeroed) (task0 :: replicate 7 task_zeroed) (Some 0%nat) (mkCons [] wq_new) TERMIOS
      (mkTicks 0 wq_new) [] x.

(** A call with its arguments in the registers; it sleeps only if nobody has to wake it. *)
Definition idle (c : option chan) : KM X unit := ret tt.
Definition args (rs : list Z) : KM X unit :=
  upd_cur (λ t, mkTask (parent t) (exit_code t) (tid t) (state t) (t_chan t) (pid t) (t_files t) (umask t) (cwd t)
                       (rs ++ drop (length rs) (regs t)) (umem t)).
Definition call (nr : Z) (rs : list Z) : KM X Z :=
  args rs ;;; match file_call idle 0 nr with Some m => m | None => panic end.

Fixpoint calls (l : list (Z * list Z)) : KM X (list Z) :=
  match l with
  | [] => ret []
  | (nr, rs) :: l' => let! r := call nr rs in let! rest := calls l' in ret (r :: rest)
  end.

Definition results (l : list (Z * list Z)) (s : KSt X) : option (list Z) :=
  match calls l s with Done (rs, _) => Some rs | Fault _ => None end.
Definition after (l : list (Z * list Z)) (s : KSt X) : KSt X :=
  match calls l s with Done (_, s') => s' | Fault _ => s end.

(** The state with a call's arguments in the registers. *)
Definition ready (rs : list Z) (s : KSt X) : KSt X := match args rs s with Done (_, s') => s' | Fault _ => s end.

Lemma zero_counted : acctL [] (replicate NFILES file_zeroed).
Proof.
  split; [|intros d Hd; by apply elem_of_nil in Hd|intros d f Hd; by apply elem_of_nil in Hd]. intros j f Hj. apply lookup_replicate in Hj as [-> _]. done.
Qed.

Lemma start_Inv x : Inv 0 0 (start x).
Proof.
  exists (replicate NFDS None), ((true, replicate NFDS None) :: replicate 7 (false, replicate NFDS None)), [].
  split; [split; [exact zero_counted|done]|]. split_and!; [|done..]. split; [done|]. repeat constructor.
Qed.

Lemma idle_ok n i c fs :
  hoare (λ s, counted n s ∧ ∃ t, k_tasks s !! i = Some t ∧ tab t = (true, fs)) (idle c)
        (λ _ s, counted n s ∧ ∃ t, k_tasks s !! i = Some t ∧ tab t = (true, fs)).
Proof. by apply hoare_ret. Qed.

Lemma args_Inv n i rs : pres (Inv n i) (args rs).
Proof. intros s a s' [fs HA] E. exists fs. eapply upd_cur_Acct; [|exact HA|exact E]. done. Qed.

Lemma ready_Inv n i rs s : Inv n i s → Inv n i (ready rs s).
Proof.
  intros HI. unfold ready. destruct (args rs s) as [[[] s']|] eqn:E; [|done]. by eapply args_Inv.
Qed.

Lemma after_Inv l s : Inv 0 0 s → Inv 0 0 (after l s).
Proof.
  intros HI. unfold after. destruct (calls l s) as [[rs s']|] eqn:E; [|done]. revert s rs s' HI E.
  change (pres (Inv 0 0) (calls l)). induction l as [|[nr rs] l IH]; [apply pres_ret|]. cbn [calls].
  apply pres_bind; [|intros r; apply pres_bind; [apply IH|intros; apply pres_ret]].
  unfold call. apply pres_bind; [apply args_Inv|]. intros [].
  destruct (file_call idle 0 nr) as [m|] eqn:Em; [|apply pres_fail].
  eapply file_call_Inv; [lia| |exact Em]. apply idle_ok.
Qed.
End Toy.

(** ** Descriptors *)

(** What the other tasks do while task [i] sleeps: they keep the counts, and
    leave task [i] alive and its descriptors alone. *)
Definition keeps_counts {X} (n i : nat) (others : option chan → KM X unit) : Prop :=
  ∀ c fs, hoare (λ s, counted n s ∧ ∃ t, k_tasks s !! i = Some t ∧ tab t = (true, fs)) (others c)
                (λ _ s, counted n s ∧ ∃ t, k_tasks s !! i = Some t ∧ tab t = (true, fs)).

(** C17: every system call on files that returns leaves the file table
    counting exactly the descriptors of the live tasks: [rc] of each file, and
    the readers and writers of each pipe, whatever the call's arguments, with
    any 9p client underneath, and with any other tasks that keep the counts
    while the caller sleeps. *)
Theorem fd_counts {X} {api : P9Api X} (n i : nat) (others : option chan → KM X unit) (naps : nat) (nr : Z) (m : KM X Z)
    (s : KSt X) (r : Z) (s' : KSt X) :
  (Z.of_nat n ≤ 60000) → keeps_counts n i others → file_call others naps nr = Some m →
  Inv n i s → m s = Done (r, s') → Inv n i s'.
Proof. intros Hn Ho Em HI E. by eapply (file_call_Inv n i Hn others naps Ho nr m Em). Qed.

(** Making a pipe as the first call. *)
Lemma fd_counts_witness :
  let s := Toy.ready [4096; 0] (Toy.start []) in
  ∃ s', pipe2 s = Done (0, s') ∧ Inv 0 0 s ∧ Inv 0 0 s'.
Proof.
  intros s. assert (Inv 0 0 s) as HI by apply Toy.ready_Inv, Toy.start_Inv.
  destruct (pipe2 s) as [[r s']|] eqn:E; [|vm_compute in E; discriminate E].
  exists s'. split_and!; [|exact HI|].
  - assert (match pipe2 s with Done (r, _) => r | _ => 1 end = 0) as H0 by (vm_compute; reflexivity).
    rewrite E in H0. simpl in H0. by rewrite H0.
  - apply (fd_counts 0 0 Toy.idle 0 59 pipe2 s r s'); [lia|intros c fs; apply Toy.idle_ok|reflexivity|exact HI|exact E].
Defined.

(** [d] is what descriptor [k] of the live task [t] refers to. *)
Definition holds_fd {X} (s : KSt X) (t : nat) (k : nat) (d : FD) : Prop :=
  ∃ tk, k_tasks s !! t = Some tk ∧ live tk = true ∧ t_files tk !! k = Some (Some d).

(** The number of descriptors of live tasks that refer to the file in slot [j]. *)
Definition refs {X} (s : KSt X) (j : nat) : Z := cnt any (fds (tab <$> k_tasks s)) j.

Lemma counted_slot {X} n (s : KSt X) t k d :
  counted n s → holds_fd s t k d → ∃ f, k_files s !! fd_file d = Some f ∧
    1 ≤ rc f ∧ kind f ≠ KNone ∧ kind f ≠ KUsed ∧ refs s (fd_file d) ≤ rc f ≤ refs s (fd_file d) + Z.of_nat n.
Proof.
  intros (τ & lost & HA & <- & Hsh & Hl) (tk & Ht & Hlv & Hk). unfold refs. set (τ := tab <$> k_tasks s) in *.
  assert (d ∈ fds τ) as Hd.
  { eapply fds_elem; [|exact Hk]. unfold τ. rewrite list_lookup_fmap, Ht. simpl. unfold tab. by rewrite Hlv. }
  assert (d ∈ fds τ ++ lost) as Hd' by (apply elem_of_app; by left). apply elem_of_Permutation in Hd' as [L HL].
  pose proof HA as HA'. rewrite HL in HA'. destruct (slot_of _ _ _ HA') as (f & Hf & Hok & _).
  destruct (slot_open _ _ _ Hok) as (Hrc & H1 & H2). exists f. split_and!; try done.
  all: assert (rc f = cnt any (fds τ ++ lost) (fd_file d)) as -> by
    (rewrite HL; unfold slot_ok in Hok; destruct (kind f); try done; by destruct Hok).
  all: unfold cnt; rewrite filter_app, length_app; pose proof (length_filter (hits any (fd_file d)) lost); lia.
Qed.

(** A descriptor of a live task always refers to an open file, one that
    was not handed out again: its slot is in use, and its [rc] is the number
    of descriptors that refer to it, up to the [n] that were lost. *)
Theorem fds_open {X} (n : nat) (s : KSt X) (t k : nat) (d : FD) :
  counted n s → holds_fd s t k d → ∃ f, k_files s !! fd_file d = Some f ∧
    1 ≤ rc f ∧ kind f ≠ KNone ∧ kind f ≠ KUsed ∧ refs s (fd_file d) ≤ rc f ≤ refs s (fd_file d) + Z.of_nat n.
Proof. apply counted_slot. Qed.

(** The write end of the first pipe. *)
Lemma fds_open_witness :
  let s := Toy.after [(59, [4096; 0])] (Toy.start []) in
  counted 0 s ∧ holds_fd s 0 1 (mkFD 0 false true) ∧ ∃ f, k_files s !! 0%nat = Some f ∧ rc f = 2.
Proof.
  intros s. assert (counted 0 s) as HC.
  { destruct (Toy.after_Inv [(59, [4096; 0])] (Toy.start []) (Toy.start_Inv [])) as [fs HA]. by eapply Acct_counted. }
  assert (holds_fd s 0 1 (mkFD 0 false true)) as HD.
  { assert (∃ tk, k_tasks s !! 0%nat = Some tk) as [tk Htk] by (vm_compute; eauto).
    exists tk. split; [exact Htk|]. vm_compute in Htk. injection Htk as <-. split; reflexivity. }
  split_and!; [exact HC|exact HD|]. destruct (fds_open 0 s 0 1 _ HC HD) as (f & Hf & _ & _ & _ & Hr).
  exists f. split; [exact Hf|]. assert (refs s 0 = 2) as Er by (vm_compute; reflexivity). simpl in Hr. lia.
Defined.

(** ** [close] *)
Section close_sys.
Context {X : Type} {api : P9Api X}.
Context (n i : nat) (Hn : (Z.of_nat n ≤ 60000)).
Notation Acct := (Acct (X := X) n i).

(** Register [r] of the running task holds [v]. *)
Definition arg (r : nat) (v : Z) (s : KSt X) : Prop :=
  ∃ j t, task_idx s = Some j ∧ k_tasks s !! j = Some t ∧ regs t !! r = Some v.

Lemma reg_exact P r v : (∀ s, P s → arg r v s) → hoare P (reg r) (λ v' s, P s ∧ v' = v) ∧ runs P (reg r).
Proof.
  intros H. assert (∀ s, P s → reg r s = Done (v, s)) as E.
  { intros s HP. destruct (H s HP) as (j & t & H1 & H2 & H3).
    unfold reg, cur_task, cur, get_tsk, bind, get. rewrite H1. simpl. rewrite H2. simpl. by rewrite H3. }
  split; [|intros s HP; rewrite (E s HP); eauto]. intros s a s' HP. rewrite (E s HP). by intros [= <- <-].
Qed.

Lemma cur_task_runs fs : runs (Acct fs) cur_task.
Proof.
  intros s HA. destruct (current _ _ _ _ HA) as (t & H1 & _ & _ & H4 & _).
  unfold cur_task, cur, get_tsk, bind, get. rewrite H4. simpl. rewrite H1. eauto.
Qed.

Lemma fd_at_runs fs k : 0 ≤ k < 8 → runs (Acct fs) (fd_at k).
Proof using Hn.
  intros Hk s HA. destruct (current _ _ _ _ HA) as (t & _ & _ & _ & _ & Hlen). revert s HA.
  unfold fd_at. eapply runs_bind; [apply cur_task_runs|apply cur_task_Acct|]. intros t'. apply runs_pure. intros ->.
  rewrite Hlen. change (Z.of_nat NFDS) with 8. destruct (Z.ltb_spec k 8); [|lia].
  destruct (lookup_lt_is_Some_2 fs (Z.to_nat k)) as [o ->]; [rewrite Hlen; unfold NFDS; lia|]. apply runs_ret.
Qed.

Lemma close_runs_fd fs k d :
  (∀ h (x : X), ∃ r x', p9_close h x = Done (r, x')) → 0 ≤ k < 8 → fs !! Z.to_nat k = Some (Some d) →
  runs (λ s, Acct fs s ∧ arg 0 k s) close.
Proof using Hn.
  intros Hc Hk Hd. unfold close. destruct (reg_exact (λ s, Acct fs s ∧ arg 0 k s) 0 k) as [H1 H2]; [by intros s [_ ?]|].
  eapply runs_bind; [exact H2|exact H1|]. intros v. apply runs_pure. intros ->.
  apply (runs_pre _ (Acct fs)); [|by intros s [? _]].
  intros s HA. destruct (current _ _ _ _ HA) as (t & _ & _ & _ & _ & Hlen). revert s HA.
  eapply runs_bind; [apply cur_task_runs|apply cur_task_Acct|]. intros t'. apply runs_pure. intros ->.
  rewrite Hlen. change (Z.of_nat NFDS) with 8. destruct (Z.ltb_spec 8 k); [lia|].
  eapply runs_bind; [by apply fd_at_runs|by apply (fd_at_spec n i)|]. intros o. apply runs_pure. rewrite Hd. intros [= <-].
  intros s (τ & lost & HS & Hsh & Hl & Hi). revert s HS.
  assert (d ∈ fds τ ++ lost) as Hin by (apply elem_of_app; left; by eapply fds_elem).
  apply elem_of_Permutation in Hin as [L HL].
  eapply (runs_bind _ _ _ (λ _ s, task_idx s = Some i)).
  - eapply runs_pre; [apply (file_close_runs τ i Hc L d)|]. intros s (HA & HB & HC). split; [|done]. by rewrite <- HL.
  - eapply hoare_post; [apply (close_fd_hoare n i Hn fs (Z.to_nat k) d τ lost); done|].
    intros [u|] s; [intros (L' & _ & HS)|intros HS]; by destruct HS as (_ & _ & ?).
  - intros [u|]; [|apply runs_ret]. intros s Hidx. unfold upd_cur, cur, bind, get. rewrite Hidx. simpl. by eexists _, _.
Qed.

Lemma close_hoare fs k d :
  0 ≤ k < 8 → fs !! Z.to_nat k = Some (Some d) →
  hoare (λ s, Acct fs s ∧ arg 0 k s) close
    (λ r s, (r = 0 ∧ Acct (<[Z.to_nat k := None]> fs) s) ∨ (r = FAIL ∧ Acct fs s)).
Proof using Hn.
  intros Hk Hd. unfold close. destruct (reg_exact (λ s, Acct fs s ∧ arg 0 k s) 0 k) as [H1 _]; [by intros s [_ ?]|].
  eapply hoare_bind; [exact H1|]. intros v. apply hoare_pure. intros ->.
  apply (hoare_conseq _ (Acct fs) _ _ (λ r s, (r = 0 ∧ Acct (<[Z.to_nat k := None]> fs) s) ∨ (r = FAIL ∧ Acct fs s)));
    [|by intros s [? _]|done].
  apply (hoare_bind _ _ _ (λ _, Acct fs)); [apply cur_task_A|]. intros t.
  destruct (_ <? _); [apply hoare_ret; auto|].
  eapply hoare_bind; [by apply (fd_at_spec n i)|]. intros o. apply hoare_pure. rewrite Hd. intros [= <-].
  apply Acct_open; [done|]. intros τ lost Hsh Hl Hi. eapply hoare_bind; [by eapply close_fd_hoare|]. intros [u|].
  - apply hoare_then_ret. apply hoare_ex. intros L s a s' [HL HS] E. left. split; [done|]. by eapply empty_fd.
  - apply hoare_ret. intros s HS. right. split; [done|]. by exists τ, lost.
Qed.
End close_sys.

(** [close] of a descriptor the task has always returns: 0 and the
    descriptor is free, with the counts following it, or, when the server
    refuses to clunk the file, [-1] with everything as it was.  It does not
    panic on any kind of file. *)
Theorem close_spec {X} {api : P9Api X} (n i : nat) (fs : list (option FD)) (k : Z) (d : FD) (s : KSt X) :
  (Z.of_nat n ≤ 60000) → (∀ h (x : X), ∃ r x', p9_close h x = Done (r, x')) →
  Acct n i fs s → arg 0 k s → 0 ≤ k < 8 → fs !! Z.to_nat k = Some (Some d) →
  ∃ r s', close s = Done (r, s') ∧
    ((r = 0 ∧ Acct n i (<[Z.to_nat k := None]> fs) s') ∨ (r = FAIL ∧ Acct n i fs s')).
Proof.
  intros Hn Hc HA Ha Hk Hd.
  by apply (runs_hoare _ _ _ s (close_runs_fd n i Hn fs k d Hc Hk Hd) (close_hoare n i Hn fs k d Hk Hd)).
Qed.

(** The state [s], with what its task 0 holds. *)
Lemma Inv_Acct {X} n i (s : KSt X) t :
  Inv n i s → k_tasks s !! i = Some t → Acct n i (t_files t) s.
Proof. intros [fs HA] Ht. destruct (current _ _ _ _ HA) as (t' & H1 & _ & H3 & _). by simplify_eq. Qed.

(** Closing the read end of the first pipe. *)
Lemma close_spec_witness :
  ∃ s fs, Acct 0 0 fs s ∧ arg 0 0 s ∧ fs !! 0%nat = Some (Some (mkFD 0 true false)) ∧
  ∃ r s', close s = Done (r, s') ∧
    ((r = 0 ∧ Acct 0 0 (<[0%nat := None]> fs) s') ∨ (r = FAIL ∧ Acct 0 0 fs s')).
Proof.
  set (s := Toy.ready [0] (Toy.after [(59, [4096; 0])] (Toy.start []))).
  assert (∃ t, k_tasks s !! 0%nat = Some t) as [t Ht] by (vm_compute; eauto).
  assert (Acct 0 0 (t_files t) s) as HA.
  { apply Inv_Acct; [|exact Ht]. apply Toy.ready_Inv, Toy.after_Inv, Toy.start_Inv. }
  assert (task_idx s = Some 0%nat) as Hi by (vm_compute; reflexivity).
  assert (arg 0 0 s ∧ t_files t !! 0%nat = Some (Some (mkFD 0 true false))) as [Ha Hd].
  { split; [exists 0%nat, t; split_and!; [exact Hi|exact Ht|]|]; vm_compute in Ht; injection Ht as <-; reflexivity. }
  exists s, (t_files t). split_and!; [exact HA|exact Ha|exact Hd|].
  apply (close_spec 0 0 (t_files t) 0 (mkFD 0 true false) s); [lia|intros h x; by exists (Some tt), x|exact HA|exact Ha|lia|exact Hd].
Defined.

(** ** What the last [close] leaves behind *)
Definition left_behind (f f' : File) : Prop :=
  rc f' = 0 ∧
  match kind f with
  | KP9 _ => kind f' = KNone ∧ path f' = None
  | KCons => kind f' = KCons
  | KPipe _ => ∃ p', kind f' = KPipe p'
  | _ => False
  end.

Lemma last_close_exact {X} {api : P9Api X} τ i F j r w f :
  F !! j = Some f → rc f = 1 →
  hoare (Fs (X := X) τ i F) (file_close j r w)
    (λ o s, o = Some tt → ∃ f', k_files s = <[j := f']> F ∧ left_behind f f').
Proof.
  intros Hf Hrc. assert (j < length F)%nat as Hlt by (by eapply lookup_lt_Some).
  assert (∀ h, <[j := h]> F !! j = Some h) as Hl by (intros h; by apply list_lookup_insert_eq).
  unfold file_close. eapply hoare_bind; [by apply get_slot_exact|]. intros g. apply hoare_pure. intros ->.
  rewrite Hrc. cbn [Z.eqb]. eapply hoare_bind; [by apply close_end_exact|]. intros [].
  eapply hoare_bind; [eapply upd_slot_exact, Hl|]. intros []. rewrite list_insert_insert_eq.
  unfold close_last. eapply hoare_bind; [apply get_slot_exact, Hl|]. intros g. apply hoare_pure. intros ->.
  unfold left_behind. destruct (kind f) as [| |h| |p] eqn:Ek; unfold pipe_end_closed; rewrite Ek; cbn [kind set_rc set_kind]; rewrite ?Ek.
  - apply hoare_fail.
  - apply hoare_fail.
  - eapply hoare_bind; [apply on_x_exact|]. intros [[]|]; [|by apply hoare_then_ret; intros s a s' _ _ [=]].
    apply hoare_then_ret. eapply hoare_post; [eapply upd_slot_exact, Hl|]. intros [] s (HF & _ & _) _.
    rewrite list_insert_insert_eq in HF. eexists. split; [exact HF|]. done.
  - apply hoare_ret. intros s (HF & _ & _) _. eexists. split; [exact HF|]. done.
  - apply hoare_ret. intros s (HF & _ & _) _. eexists. split; [exact HF|]. split; [done|]. by eexists.
Qed.

Lemma alloc_file_skips {X} j f (s : KSt X) j0 s1 :
  kind f ≠ KNone → slot_is j f s → fs_alloc_file s = Done (Some j0, s1) → j0 ≠ j.
Proof.
  intros Hk Hf Ea ->. unfold fs_alloc_file, bind, get in Ea. pose proof (first_none_spec (k_files s) 0) as Hn.
  destruct (first_none (k_files s) 0) as [j1|]; [|done]. destruct Hn as (g & _ & Hg & Hgk). rewrite Nat.sub_0_r in Hg.
  unfold upd_slot, get_slot, set_slot, bind, get in Ea. rewrite Hg in Ea. cbn in Ea. injection Ea as -> _. unfold slot_is in Hf. congruence.
Qed.

(** When the last descriptor of a file is closed, the slot of a 9p file
    becomes free; the slot of a pipe or of the console keeps its kind with
    [rc] 0, and since [alloc_file] never hands out a slot whose kind is not
    [None], it is lost. *)
Theorem last_close {X} {api : P9Api X} (s s' : KSt X) (i j : nat) (r w : bool) (f : File) :
  task_idx s = Some i → slot_is j f s → rc f = 1 → file_close j r w s = Done (Some tt, s') →
  ∃ f', slot_is j f' s' ∧ left_behind f f' ∧
    ((∀ h, kind f ≠ KP9 h) → ∀ (s0 : KSt X) j0 s1, slot_is j f' s0 → fs_alloc_file s0 = Done (Some j0, s1) → j0 ≠ j).
Proof.
  intros Hi Hf Hrc E.
  destruct (last_close_exact (tab <$> k_tasks s) i (k_files s) j r w f Hf Hrc s (Some tt) s') as (f' & HF & Hl); [done..|].
  exists f'. split_and!; [|done|].
  - unfold slot_is. rewrite HF. apply list_lookup_insert_eq. by eapply lookup_lt_Some.
  - intros Hnp s0 j0 s1. apply alloc_file_skips. destruct Hl as [_ Hk]. destruct (kind f) as [| |h| |p]; try done.
    + by destruct (Hnp h).
    + congruence.
    + destruct Hk as [p' ->]. done.
Qed.

(** A console descriptor, the only one. *)
Lemma last_close_witness :
  let s := with_files <[0%nat := mkFile KCons 1 0 None]> (Toy.start []) in
  ∃ s' f', file_close 0 true true s = Done (Some tt, s') ∧ slot_is 0 f' s' ∧ kind f' = KCons ∧ rc f' = 0.
Proof.
  intros s. set (r := file_close 0 true true s). assert (∃ s', r = Done (Some tt, s')) as [s' E] by (vm_compute; eauto).
  destruct (last_close s s' 0 0 true true (mkFile KCons 1 0 None)) as (f' & H1 & (H2 & H3) & _);
    [reflexivity|reflexivity|reflexivity|exact E|].
  exists s', f'. split_and!; [exact E|exact H1|exact H3|exact H2].
Defined.

(** Making a pipe and closing both of its ends. *)
Definition pipe_round : list (Z * list Z) := [(59, [4096; 0]); (57, [0]); (57, [1])].

(** Pipes wear the file table out.  A task that makes a pipe and closes
    both ends again, 128 times over, succeeds every time and is left with no
    descriptor at all; every later [pipe2] fails, as does every [openat]. *)
Theorem pipe_slots_run_out :
  Toy.results (concat (replicate 128 pipe_round)) (Toy.start [[7]]) = Some (replicate 384 0) ∧
  let s := Toy.after (concat (replicate 128 pipe_round)) (Toy.start [[7]]) in
  (t_files <$> k_tasks s !! 0%nat) = Some (replicate NFDS None) ∧
  Toy.results [(59, [4096; 0]); (56, [AT_FDCWD; 4104; 0; 0])]
    (with_tasks (alter (λ t, set_umem (<[4104 := 47]> (<[4105 := 48]> (<[4106 := 0]> (umem t)))) t) 0%nat) s) = Some [FAIL; FAIL].
Proof. vm_compute. auto. Qed.
