(* ===== verification/FsData.v ===== *)
(** * The bytes that go through files: pipes, 9p files, positions *)
From S2P Require Import Prelude P9Msg Pipe Kst Hoare Cons Fs FsSys FsInv FsAcct FsSpec.

Local Open Scope Z_scope.

(** ** Pipes *)
Section pipes.
Context {X : Type} {api : P9Api X}.
Context (others : option chan → KM X unit) (naps : nat).
Implicit Types (s : KSt X).

(** One call into the pipe of slot [j], then the wake-ups it asked for. *)
Definition woken (j : nat) (l : list Pipe.chan) s : KSt X :=
  foldl (λ s c, with_tasks (fmap (wake_if (λ t, bool_decide (t_chan t = Some (ChPipe j c))))) s) s l.

Lemma forM_wakeup j l : ∀ s, forM l (λ c, wakeup (ChPipe j c)) s = Done (tt, woken j l s).
Proof. induction l as [|c l IH]; intros s; [done|]. cbn [forM]. unfold bind, wakeup at 1, modify. apply IH. Qed.

Lemma pipe_run_eq {A} j f p (m : Pipe.PipeM A) a p' l s :
  slot_is j f s → m (p, []) = Done (a, (p', l)) →
  pipe_run j p m s = Done (a, woken j l (with_files <[j := set_kind (KPipe p') f]> s)).
Proof.
  intros Hf E. unfold slot_is in Hf. unfold pipe_run, upd_slot, get_slot, set_slot, bind, lift, get. rewrite E, Hf. simpl.
  unfold modify. by rewrite forM_wakeup.
Qed.

Lemma woken_files j l : ∀ s, k_files (woken j l s) = k_files s.
Proof. induction l as [|c l IH]; intros s; [done|]. unfold woken in *. cbn [foldl]. by rewrite IH. Qed.

(** A whole write of the bytes that fit, and a read of bytes that are there. *)
Lemma pipe_write_fits p q buf :
  holds p q → buf ≠ [] → (length q + length buf ≤ 4096)%nat → Pipe.readers p ≠ 0 →
  ∃ p', Pipe.write buf (p, []) = Done (Pipe.WDone (Z.of_nat (length buf)), (p', [Pipe.CRpos])) ∧ holds p' (q ++ buf) ∧
    Pipe.readers p' = Pipe.readers p ∧ Pipe.writers p' = Pipe.writers p.
Proof.
  intros Hh Hne Hl Hr. destruct (holds_write p q buf Hh Hne Hl) as (p' & Ew & Hh' & Er & Ewr).
  exists p'. split; [|done]. unfold Pipe.write. cbn [Pipe.write_loop].
  unfold bind, Pipe.the_pipe, gets, Pipe.set_pipe, modify. cbn [fst snd]. rewrite (proj2 (Z.eqb_neq _ _) Hr), Ew, Z.eqb_refl.
  unfold Pipe.write_end, bind, Pipe.the_pipe, gets, Pipe.wakeup, modify, ret. cbn [fst snd]. rewrite Er.
  by rewrite (proj2 (Z.eqb_neq _ _) Hr).
Qed.

Lemma pipe_read_there p q k :
  holds p q → (k ≤ length q)%nat →
  ∃ p' l, Pipe.read k (p, []) = Done (Pipe.RDone (take k q), (p', l)) ∧ holds p' (drop k q).
Proof.
  intros Hh Hk. destruct (holds_read p q k Hh) as (p' & Er & Hh' & Erd & Ewr).
  unfold Pipe.read. cbn [Pipe.read_loop]. unfold bind, Pipe.the_pipe, gets, Pipe.set_pipe, modify. cbn [fst snd].
  rewrite Er. cbn [app]. rewrite (proj2 (Nat.eqb_eq _ _)) by (rewrite length_take; lia).
  assert (∀ log, ∃ l, Pipe.read_end (take k q) (p', log) = Done (Pipe.RDone (take k q), (p', l))) as Hend.
  { intros log. unfold Pipe.read_end, bind, Pipe.the_pipe, gets, Pipe.wakeup, modify, ret. cbn [fst snd].
    destruct (negb _); eauto. }
  destruct (Hend []) as [l El]. exists p', l. split; [|done]. by destruct (Pipe.writers p' =? 0).
Qed.

Lemma write_pipe_eq j f p p' buf l s :
  slot_is j f s → kind f = KPipe p → rc f ≠ 0 → Pipe.write buf (p, []) = Done (Pipe.WDone (Z.of_nat (length buf)), (p', l)) →
  write others naps j buf s =
    Done (Some (Z.of_nat (length buf)), woken j l (with_files <[j := set_kind (KPipe p') f]> s)).
Proof.
  intros Hf Hk Hrc E. unfold write, get_slot, bind, get. rewrite Hf. cbn. rewrite (proj2 (Z.eqb_neq _ _) Hrc), Hk.
  unfold pipe_write, bind. rewrite (pipe_run_eq _ _ _ _ _ _ _ _ Hf E). by destruct naps.
Qed.

Lemma read_pipe_eq j f p p' k bs l s :
  slot_is j f s → kind f = KPipe p → rc f ≠ 0 → Pipe.read k (p, []) = Done (Pipe.RDone bs, (p', l)) →
  read others naps j k s = Done (Some bs, woken j l (with_files <[j := set_kind (KPipe p') f]> s)).
Proof.
  intros Hf Hk Hrc E. unfold read, get_slot, bind, get. rewrite Hf. cbn. rewrite (proj2 (Z.eqb_neq _ _) Hrc), Hk.
  unfold pipe_read, bind. rewrite (pipe_run_eq _ _ _ _ _ _ _ _ Hf E). by destruct naps.
Qed.

(** Slot [j] is an open pipe with the bytes [q] in it. *)
Definition pipe_with j q s : Prop :=
  ∃ f p, slot_is j f s ∧ kind f = KPipe p ∧ rc f ≠ 0 ∧ holds p q ∧ Pipe.readers p ≠ 0.

Lemma wake_one j c t : state t = Sleeping → t_chan t = Some (ChPipe j c) →
  state (wake_if (λ t, bool_decide (t_chan t = Some (ChPipe j c))) t) = Ready.
Proof. intros Hs Hc. unfold wake_if. rewrite decide_True by done. by rewrite bool_decide_eq_true_2. Qed.
End pipes.

(** C34: bytes written to a pipe come out of it in order.  A write that leaves
    at most 4096 bytes unread returns their number without sleeping and makes
    every task that sleeps for bytes of this pipe ready; a later read of bytes
    that are there returns exactly the oldest ones, and the rest stays. *)
Theorem pipe_transfer {X} {api : P9Api X} (others : option chan → KM X unit) (naps : nat) (s : KSt X) (j : nat)
    (q buf : list Z) (k : nat) :
  pipe_with j q s → buf ≠ [] → (length q + length buf ≤ 4096)%nat → (k ≤ length (q ++ buf))%nat →
  ∃ s1 s2, write others naps j buf s = Done (Some (Z.of_nat (length buf)), s1) ∧
    (∀ i t, k_tasks s !! i = Some t → state t = Sleeping → t_chan t = Some (ChPipe j Pipe.CRpos) →
       ∃ t', k_tasks s1 !! i = Some t' ∧ state t' = Ready) ∧
    read others naps j k s1 = Done (Some (take k (q ++ buf)), s2) ∧ ∃ f p, slot_is j f s2 ∧ kind f = KPipe p ∧ holds p (drop k (q ++ buf)).
Proof.
  intros (f & p & Hf & Hk & Hrc & Hh & Hr) Hne Hl Hkl.
  destruct (pipe_write_fits p q buf Hh Hne Hl Hr) as (p' & Ew & Hh' & Er & _).
  destruct (pipe_read_there p' (q ++ buf) k Hh' Hkl) as (p2 & l & Erd & Hh2).
  assert (j < length (k_files s))%nat as Hlt by (by eapply lookup_lt_Some).
  set (s1 := woken j [Pipe.CRpos] (with_files <[j := set_kind (KPipe p') f]> s)).
  assert (slot_is j (set_kind (KPipe p') f) s1) as Hf1.
  { unfold slot_is, s1. rewrite woken_files. simpl. by apply list_lookup_insert_eq. }
  eexists s1, (woken j l (with_files <[j := set_kind (KPipe p2) (set_kind (KPipe p') f)]> s1)). split_and!.
  - by apply write_pipe_eq with p.
  - intros i t Ht Hs Hc. exists (wake_if (λ t, bool_decide (t_chan t = Some (ChPipe j Pipe.CRpos))) t).
    split; [|by apply wake_one]. unfold s1. simpl. by rewrite list_lookup_fmap, Ht.
  - by eapply read_pipe_eq.
  - eexists (set_kind (KPipe p2) (set_kind (KPipe p') f)), p2. split_and!; [|done|done]. unfold slot_is. rewrite woken_files. simpl.
    apply list_lookup_insert_eq. by apply lookup_lt_Some in Hf1.
Qed.

(** Three bytes through a new pipe. *)
Lemma pipe_transfer_witness :
  let s := Toy.after [(59, [4096; 0])] (Toy.start []) in
  pipe_with 0 [] s ∧
  ∃ s1 s2, write Toy.idle 0 0 [1; 2; 3] s = Done (Some 3, s1) ∧ read Toy.idle 0 0 2 s1 = Done (Some [1; 2], s2).
Proof.
  intros s. assert (pipe_with 0 [] s) as HP.
  { exists (mkFile (KPipe (Pipe.set_counts 1 1 (Pipe.new false))) 2 0 None), (Pipe.set_counts 1 1 (Pipe.new false)).
    split_and!; [vm_compute; reflexivity|reflexivity|done| |done].
    destruct (holds_new false). split; done. }
  split; [exact HP|].
  destruct (pipe_transfer Toy.idle 0 s 0 [] [1; 2; 3] 2 HP) as (s1 & s2 & E1 & _ & E2 & _); [done|simpl; lia|simpl; lia|].
  exists s1, s2. split; [exact E1|exact E2].
Defined.

(** ** 9p files *)

(** What the client is relied on for when a file that is open ([p9_live]) is
    read: the file stays open, and the reply is a piece of the file at the offset, of at most the length asked for, and empty
    only at the end of the file; reading changes no file. *)
Class P9Reads (X : Type) {api : P9Api X} := {
  content : X → Z → list Z;
  p9_live : X → Z → Prop;
  reads : ∀ h len off x, p9_live x h → 0 ≤ off →
    match p9_read h len off x with
    | Done (r, x') =>
        content x' = content x ∧ p9_live x' h ∧
        match r with
        | Some bs => (length bs ≤ len)%nat ∧ bs `prefix_of` drop (Z.to_nat off) (content x h) ∧
                     (bs = [] → len = 0%nat ∨ drop (Z.to_nat off) (content x h) = [])
        | None => True
        end
    | Fault _ => False
    end;
}.

#[global] Instance toy_reads : P9Reads Toy.X.
Proof.
  refine {| content := Toy.content; p9_live x h := 0 ≤ h ∧ (Z.to_nat h < length x)%nat |}. intros h len off x Hlive Hoff.
  cbv [p9_read Toy.api Toy.read]. split; [done|]. split; [done|]. split_and!.
  - rewrite length_take. lia.
  - apply prefix_take.
  - intros E. apply take_nil_inv in E as [E|E]; [left; lia|by right].
Defined.

Section read_all.
Context {X : Type} {api : P9Api X} {rd : P9Reads X}.
Context (others : option chan → KM X unit) (naps : nat).
Implicit Types (s : KSt X).

(** Slot [j] is the open file [h] at position [o]. *)
Definition p9_at (j : nat) (h o : Z) s : Prop :=
  p9_live (k_x s) h ∧ ∃ f, slot_is j f s ∧ kind f = KP9 h ∧ rc f ≠ 0 ∧ offt f = o.

Lemma p9_read_step j h o len s :
  p9_at j h o s → 0 ≤ o → o + Z.of_nat len < 2 ^ 64 →
  ∃ r s', read others naps j len s = Done (r, s') ∧ content (k_x s') = content (k_x s) ∧
    match r with
    | Some bs => (length bs ≤ len)%nat ∧ bs `prefix_of` drop (Z.to_nat o) (content (k_x s) h) ∧
                 (bs = [] → len = 0%nat ∨ drop (Z.to_nat o) (content (k_x s) h) = []) ∧
                 p9_at j h (o + Z.of_nat (length bs)) s'
    | None => True
    end.
Proof.
  intros (Hlive & f & Hf & Hk & Hrc & <-) Ho Hlen. pose proof (reads h len (offt f) (k_x s) Hlive Ho) as Hr.
  unfold read, get_slot, bind, get. rewrite Hf. cbn. rewrite (proj2 (Z.eqb_neq _ _) Hrc), Hk.
  unfold bind, on_x. destruct (p9_read h len (offt f) (k_x s)) as [[r x']|]; [|done]. destruct Hr as (Hc & Hl & Hr).
  destruct r as [bs|]; [|by eexists None, _]. destruct Hr as (H1 & H2 & H3).
  unfold upd_slot, get_slot, set_slot, bind, get, modify. cbn [k_files with_x]. unfold slot_is in Hf. rewrite Hf. cbn.
  eexists (Some bs), _. split; [reflexivity|]. cbn. split_and!; try done.
  split; [exact Hl|]. exists (set_offt (offt f +! Z.of_nat (length bs)) f). split_and!; try done.
  - unfold slot_is. cbn. apply list_lookup_insert_eq. by eapply lookup_lt_Some.
  - cbn. rewrite wadd_small by lia. done.
Qed.

Lemma read_all_loop_spec fuel : ∀ len got o j h s,
  (len ≤ fuel)%nat → p9_at j h o s → 0 ≤ o → o + Z.of_nat len < 2 ^ 64 →
  ∃ r s', read_all_loop others naps fuel j len got s = Done (r, s') ∧ content (k_x s') = content (k_x s) ∧
    match r with
    | Some bs => bs = got ++ take len (drop (Z.to_nat o) (content (k_x s) h)) ∧
                 p9_at j h (o + Z.of_nat (length bs - length got)) s'
    | None => True
    end.
Proof.
  induction fuel as [|fuel IH]; intros [|len'] got o j h s Hfuel Hs Ho Hlen; cbn [read_all_loop]; try lia.
  1,2: eexists (Some got), s; split_and!; [done|done|by rewrite take_0, app_nil_r|];
       rewrite Nat.sub_diag; by replace (o + Z.of_nat 0) with o by lia.
  set (len := S len') in *. destruct (p9_read_step j h o len s Hs Ho Hlen) as (r & s1 & E & Hc & Hr).
  unfold bind at 1. rewrite E. destruct r as [[|b bs]|]; [| |by exists None, s1].
  - destruct Hr as (_ & _ & He & Hs1). destruct (He eq_refl) as [|He']; [unfold len in *; lia|].
    exists (Some got), s1. split_and!; [done|done|by rewrite He', take_nil, app_nil_r|].
    rewrite Nat.sub_diag. exact Hs1.
  - destruct Hr as (Hlb & Hp & _ & Hs1). set (c := b :: bs) in *.
    assert (0 < length c)%nat as Hpos by (unfold c; simpl; lia).
    unfold assert_. rewrite (proj2 (Nat.leb_le _ _) Hlb). mstep.
    destruct (IH (len - length c)%nat (got ++ c) (o + Z.of_nat (length c)) j h s1) as (r & s2 & E2 & Hc2 & Hr2);
      [lia|done|lia|lia|]. exists r, s2. rewrite E2. split_and!; [done|congruence|].
    destruct r as [bs2|]; [|done]. destruct Hr2 as [-> Hs2]. rewrite Hc in *.
    destruct Hp as [rest Hp]. assert (drop (Z.to_nat (o + Z.of_nat (length c))) (content (k_x s) h) = rest) as Ed.
    { replace (Z.to_nat (o + Z.of_nat (length c))) with (Z.to_nat o + length c)%nat by lia.
      by rewrite <- drop_drop, Hp, drop_app_length. }
    rewrite Ed in *. split.
    + rewrite Hp, <- app_assoc. f_equal. by rewrite take_app_ge.
    + revert Hs2. rewrite !length_app.
      match goal with |- p9_at _ _ ?a _ → p9_at _ _ ?b _ => replace b with a by lia end. done.
Qed.
End read_all.

(** [read_all] of a 9p file returns, however short the server's replies
    are: it delivers the bytes of the file from the current position, up to the
    length asked for or the end of the file, and moves the position past them;
    or it reports the server's error. *)
Theorem read_all_spec {X} {api : P9Api X} {rd : P9Reads X} (others : option chan → KM X unit) (naps : nat)
    (s : KSt X) (j : nat) (h o : Z) (len : nat) :
  p9_at j h o s → 0 ≤ o → o + Z.of_nat len < 2 ^ 64 →
  ∃ r s', read_all others naps j len s = Done (r, s') ∧ content (k_x s') = content (k_x s) ∧
    match r with
    | Some bs => bs = take len (drop (Z.to_nat o) (content (k_x s) h)) ∧ p9_at j h (o + Z.of_nat (length bs)) s'
    | None => True
    end.
Proof.
  intros Hs Ho Hl. destruct (read_all_loop_spec others naps len len [] o j h s) as (r & s' & E & Hc & Hr); [done..|].
  exists r, s'. split_and!; [done|done|]. destruct r; [|done]. simpl in Hr. by rewrite Nat.sub_0_r in Hr.
Qed.

(** Seven bytes of a file of nine, three at a time, from position 1. *)
Lemma read_all_spec_witness :
  let s := with_files <[0%nat := mkFile (KP9 0) 1 1 None]> (Toy.start [[10; 11; 12; 13; 14; 15; 16; 17; 18]]) in
  ∃ s', read_all Toy.idle 0 0 7 s = Done (Some [11; 12; 13; 14; 15; 16; 17], s') ∧ p9_at 0 0 8 s'.
Proof.
  intros s. assert (p9_at 0 0 1 s) as Hs by (split; [split; simpl; lia|exists (mkFile (KP9 0) 1 1 None); split_and!; done]).
  destruct (read_all_spec Toy.idle 0 s 0 0 1 7 Hs) as (r & s' & E & _ & Hr); [lia|lia|].
  assert (match read_all Toy.idle 0 0 7 s with Done (Some _, _) => true | _ => false end = true) as Hok by (vm_compute; reflexivity).
  rewrite E in Hok. destruct r as [bs|]; [|discriminate Hok]. destruct Hr as [-> Hp].
  exists s'. split; [exact E|exact Hp].
Defined.

(** ** Positions *)

(** The size [SEEK_END] starts from. *)
Definition size_is {X} {api : P9Api X} (f : File) (sz : Z) (s : KSt X) : Prop :=
  match kind f with KP9 h => p9_get_size h (k_x s) = Done (sz, k_x s) | _ => sz = 0 end.

Definition sought (f : File) (sz o whence : Z) : option Z :=
  if whence =? 0 then Some (wrap 64 o)
  else if whence =? 1 then Some (wrap 64 (offt f + Z.abs (signed 32 o)))
  else if whence =? 2 then Some (wrap 64 (sz - o))
  else None.

Lemma signed_range w z : 0 < w → - 2 ^ (w - 1) ≤ signed w z < 2 ^ (w - 1).
Proof.
  intros Hw. unfold signed. pose proof (wrap_range w z ltac:(lia)).
  assert (2 ^ w = 2 * 2 ^ (w - 1)) by (rewrite <- Z.pow_succ_r by lia; f_equal; lia). cases_Z; lia.
Qed.

Lemma signed_small w z : 0 < w → - 2 ^ (w - 1) ≤ z < 2 ^ (w - 1) → signed w z = z.
Proof.
  intros Hw Hz. assert (2 ^ w = 2 * 2 ^ (w - 1)) as E by (rewrite <- Z.pow_succ_r by lia; f_equal; lia).
  unfold signed, wrap. rewrite E. destruct (Z.le_gt_cases 0 z).
  - rewrite Z.mod_small by lia. cases_Z; lia.
  - replace (z mod (2 * 2 ^ (w - 1))) with (z + 2 * 2 ^ (w - 1)); [cases_Z; lia|].
    apply Z.mod_unique with (-1); lia.
Qed.

(** Where [lseek] goes.  [SEEK_SET] takes the offset; [SEEK_CUR] always
    moves forward, by the magnitude of the low 32 bits of the offset, also when
    that is negative; [SEEK_END] goes back from the end by a positive offset;
    anything else is an error that changes nothing. *)
Theorem lseek_spec {X} {api : P9Api X} (s : KSt X) (j : nat) (f : File) (sz o whence : Z) :
  slot_is j f s → size_is f sz s → 0 ≤ o < 2 ^ 64 →
  file_lseek j o whence s =
    Done (sought f sz o whence,
          match sought f sz o whence with
          | Some p => with_files <[j := set_offt p f]> s
          | None => s
          end).
Proof.
  intros Hf Hsz Ho. assert (j < length (k_files s))%nat as Hlt by (by eapply lookup_lt_Some). unfold slot_is in Hf.
  assert (∀ g, upd_slot j g s = Done (tt, with_files <[j := g f]> s)) as Hu.
  { intros g. unfold upd_slot, get_slot, set_slot, bind, get. by rewrite Hf. }
  assert (∀ p, get_slot j (with_files <[j := set_offt p f]> s) = Done (set_offt p f, with_files <[j := set_offt p f]> s)) as Hg.
  { intros p. unfold get_slot, bind, get. cbn. by rewrite list_lookup_insert_eq. }
  unfold file_lseek, sought. destruct (Z.eqb_spec whence 0) as [->|H0].
  - cbn [orb]. unfold seek_to. mrun Hu. cbn beta. mrun Hg. done.
  - destruct (Z.eqb_spec whence 1) as [->|H1].
    + cbn [orb]. unfold seek_by. mrun Hu. cbn beta.
      assert ((if 0 <? signed 32 o then offt f +! sext 32 64 (signed 32 o) else offt f -! sext 32 64 (signed 32 o))
              = wrap 64 (offt f + Z.abs (signed 32 o))) as ->.
      { pose proof (signed_range 32 o ltac:(lia)). unfold sext. rewrite (signed_small 32 (signed 32 o)) by lia.
        unfold wadd, wsub, wrap. destruct (Z.ltb_spec 0 (signed 32 o)).
        - rewrite Zplus_mod_idemp_r. f_equal. lia.
        - rewrite Zminus_mod_idemp_r. f_equal. lia. }
      mrun Hg. done.
    + destruct (Z.eqb_spec whence 2) as [->|H2]; [|done]. cbn [orb].
      assert (file_get_size j s = Done (sz, s)) as Hs.
      { unfold file_get_size, get_slot, bind, get. rewrite Hf. cbn. unfold size_is in Hsz. unfold on_x.
        destruct (kind f); try (by rewrite Hsz). rewrite Hsz. by destruct s. }
      rewrite bind_assoc; mrun Hs. unfold seek_to. mrun Hu. cbn beta.
      mrun Hg. done.
Qed.

(** Two bytes back from position 5 ends at 7; two bytes before the end of 9 is position 7 for [+2]. *)
Lemma lseek_spec_witness :
  let s := with_files <[0%nat := mkFile (KP9 0) 1 5 None]> (Toy.start [replicate 9 0]) in
  file_lseek 0 (2 ^ 64 - 2) 1 s = Done (Some 7, with_files <[0%nat := mkFile (KP9 0) 1 7 None]> s) ∧
  file_lseek 0 2 2 s = Done (Some 7, with_files <[0%nat := mkFile (KP9 0) 1 7 None]> s).
Proof.
  intros s. split; rewrite (lseek_spec s 0 (mkFile (KP9 0) 1 5 None) 9) by (reflexivity || (unfold size_is; reflexivity) || lia); reflexivity.
Defined.

(** ** Polling and waiting *)

(** Task 0 with the console as descriptor 0; a [pollfd] for its input at 4096, 10 ms at 4112. *)
Definition polling : KSt Toy.X :=
  let s := Toy.start [] in
  let m := list_to_map (zip (seqZ 4100 2) [1; 0] ++ zip (seqZ 4120 4) (le_bytes 4 10000000)) ∪ Toy.mem in
  with_files <[0%nat := mkFile KCons 1 0 None]>
    (with_tasks (alter (λ t, set_umem m (set_fd 0 (Some (mkFD 0 true true)) t)) 0%nat) s).

(** Only the clock ticks while the task sleeps. *)
Definition ticking (c : option chan) : KM Toy.X unit := ticks_wake_all.

(** What the task does next: it waits for the reply to the 9p message [p]
    ([sched::sleep], not in a loop), and a line is typed. *)
Definition wait_and_key (p : Z) : KM Toy.X (option State) :=
  upd_cur (λ t, set_chan (Some (ChMsg p)) (set_state Sleeping t)) ;;;
  push_char 13 ;;;
  let! t := cur_task in ret (if decide (t_chan t = Some (ChMsg p)) then Some (state t) else None).

(** A [ppoll] on the console that timed out leaves the task in the
    console's wait queue, and [Wq::wake_all] does not look at what a task
    sleeps on: when the same task later sleeps for the reply to a 9p request,
    a typed line makes it ready although the reply has not arrived. *)
Theorem poll_breaks_later_wait (p : Z) :
  match (Toy.args [4096; 1; 4112] ;;; ppoll ticking 5) polling with
  | Done (r, s) => r = 0 ∧ t_now (k_ticks s) = 2 ∧
      match wait_and_key p s with Done (st, _) => st = Some Ready | Fault _ => False end
  | Fault _ => False
  end.
Proof.
  assert (∃ s, (Toy.args [4096; 1; 4112] ;;; ppoll ticking 5) polling = Done (0, s) ∧ t_now (k_ticks s) = 2 ∧
    task_idx s = Some 0%nat ∧ tty_icanon (k_tty s) = true ∧ c_wq (k_cons s) = mkWq (Some 0%nat :: replicate 7 None) 1 ∧
    ∃ t ts, k_tasks s = t :: ts) as (s & -> & Hn & Hi & Hc & Hq & t & ts & Ht).
  { vm_compute. eexists. split; [reflexivity|]. split_and!; try reflexivity. by eexists _, _. }
  split_and!; [done|done|]. unfold wait_and_key.
  assert (upd_cur (λ t, set_chan (Some (ChMsg p)) (set_state Sleeping t)) s =
    Done (tt, with_tasks (alter (λ t, set_chan (Some (ChMsg p)) (set_state Sleeping t)) 0%nat) s)) as Eu.
  { unfold upd_cur, cur, bind, get. by rewrite Hi. }
  mrun Eu. unfold push_char, bind, get. cbn [k_cons with_tasks k_tty]. rewrite Hc. cbn [negb Z.eqb].
  unfold set_buf, cons_wake_all, cur_task, cur, get_tsk, putc, bind, get, modify, ret.
  destruct (tty_echo (k_tty s)); cbn -[decide]; rewrite Hi, Hq; cbn -[decide];
    rewrite !list_lookup_alter_eq, Ht; unfold wake_if; cbn -[decide]; by rewrite !decide_True.
Qed.

(** ** Arguments nobody checks *)
Section unchecked.

(** [close] lets the descriptor 8 through, [lseek] and [dup3] check nothing:
    they index past the end of the table. *)
Lemma descriptor_8_panics :
  Toy.results [(57, [8])] (Toy.start []) = None ∧ Toy.calls [(57, [8])] (Toy.start []) = Fault FPanic ∧
  Toy.calls [(62, [8; 0; 0])] (Toy.start []) = Fault FPanic ∧ Toy.calls [(24, [8; 0])] (Toy.start []) = Fault FPanic ∧
  Toy.results [(57, [9])] (Toy.start []) = Some [FAIL].
Proof. vm_compute. auto. Qed.

(** Polling a pipe panics; so does a second pipe when six descriptors are in use and one is left. *)
Lemma poll_pipe_panics :
  Toy.calls [(59, [4096; 0]); (73, [4096; 1; 0])] (Toy.start []) = Fault FPanic ∧
  Toy.calls (replicate 4 (59, [4096; 0]) ++ [(57, [0]); (59, [4096; 0])]) (Toy.start []) = Fault FPanic.
Proof. vm_compute. auto. Qed.

(** [getcwd] with a buffer two bytes too short panics, one byte too short writes past it. *)
Definition deep : KSt Toy.X := with_tasks (alter (set_cwd (Some [47; 97; 98; 99])) 0%nat) (Toy.start []).
Lemma getcwd_short :
  Toy.calls [(17, [4096; 2])] deep = Fault FPanic ∧ Toy.results [(17, [4096; 3])] deep = Some [errno 78] ∧
  (t ← k_tasks (Toy.after [(17, [4096; 3])] deep) !! 0%nat; umem t !! 4099) = Some 99.
Proof. vm_compute. auto. Qed.
End unchecked.
