(* ===== verification/Sched.v ===== *)
(** * [sched.rs]: making, ending and scheduling tasks, as code

    The address space of a task is behind [MmApi]: what [init_user], the
    cloning of regions in [fork] and their release in [free_task] do to the
    page tables.  Here the memory a task sees is [umem], and a child starts
    with a copy of its parent's. *)
From S2P Require Import Prelude P9Msg Pipe Kst Cons Fs FsSys.

Local Open Scope Z_scope.

(** [init_user] for a task; [clone_regions], [clone_region] and [copy_pm] from
    one task to another; [free_regions], [free_region] and [free_pt]. *)
Class MmApi (X : Type) := {
  mm_new : nat → M X unit;
  mm_clone : nat → nat → M X unit;
  mm_drop : nat → M X unit;
}.

Definition set_parent (p : option nat) (t : Task) : Task :=
  mkTask p (exit_code t) (tid t) (state t) (t_chan t) (pid t) (t_files t) (umask t) (cwd t) (regs t) (umem t).
Definition set_exit_code (c : Z) (t : Task) : Task :=
  mkTask (parent t) c (tid t) (state t) (t_chan t) (pid t) (t_files t) (umask t) (cwd t) (regs t) (umem t).
Definition set_tid (d : option Z) (t : Task) : Task :=
  mkTask (parent t) (exit_code t) d (state t) (t_chan t) (pid t) (t_files t) (umask t) (cwd t) (regs t) (umem t).
Definition set_pid (p : Z) (t : Task) : Task :=
  mkTask (parent t) (exit_code t) (tid t) (state t) (t_chan t) p (t_files t) (umask t) (cwd t) (regs t) (umem t).
Definition set_regs (r : list Z) (t : Task) : Task :=
  mkTask (parent t) (exit_code t) (tid t) (state t) (t_chan t) (pid t) (t_files t) (umask t) (cwd t) r (umem t).

(** The flags of [clone] that end in [todo!()]. *)
Definition CLONE_CHILD_CLEARTID : Z := 2097152.
Definition CLONE_CHILD_SETTID : Z := 16777216.
Definition clone_todo : list Z :=
  [256; 512; 1024; 2048; 4096; 8192; 16384; 32768; 65536; 131072; 262144; 524288; 1048576; 4194304; 8388608;
   33554432; 67108864; 134217728; 268435456; 536870912; 1073741824; 2147483648; 4294967296; 8589934592; 128].

Fixpoint first_state (st : State) (ts : list Task) (i : nat) : option nat :=
  match ts with
  | [] => None
  | t :: ts' => if decide (state t = st) then Some i else first_state st ts' (S i)
  end.

Section sched.
Context {X : Type} {api : P9Api X} {mm : MmApi X}.
Notation KM := (KM X).
Context (others : option chan → KM unit) (naps : nat).

(** ** New tasks *)

(** [alloc_user_task]: the lock of the new task stays held; [init_user] gives
    it an address space, a trap frame with [pstate] 0 and no files. *)
Definition alloc_user_task : KM (option nat) :=
  let! s := get in
  match first_state Free (k_tasks s) 0 with
  | Some i =>
      upd_tsk i (λ t, set_pid (wrap 16 (Z.of_nat i)) (set_state Used t)) ;;;
      on_x (mm_new i) ;;;
      upd_tsk i (λ t, set_files (replicate (length (t_files t)) None) t) ;;;
      ret (Some i)
  | None => ret None
  end.

Definition create_user_task : KM unit :=
  let! o := alloc_user_task in
  let! i := unwrap o in
  let! c := open_cons in let! f := unwrap c in
  upd_tsk i (set_fd 0 (Some (mkFD f true true))) ;;;
  let! c := open_cons in let! f := unwrap c in
  upd_tsk i (set_fd 1 (Some (mkFD f true true))) ;;;
  let! c := open_cons in let! f := unwrap c in
  upd_tsk i (set_fd 2 (Some (mkFD f true true))) ;;;
  upd_tsk i (set_state Ready).

(** ** [fork] *)
Definition dup_files (c : nat) : KM unit :=
  let! t := cur_task in
  forM (seq 0 (length (t_files t))) (λ k,
    let! o := fd_at (Z.of_nat k) in
    match o with
    | Some _ => let! f := dup_file (Z.of_nat k) in upd_tsk c (set_fd k (Some f))
    | None => ret tt
    end).

Definition fork : KM Z :=
  let! flags := reg 0 in
  assert_ (forallb (λ b, Z.land flags b =? 0) clone_todo) ;;;
  let clear_tid := negb (Z.land flags CLONE_CHILD_CLEARTID =? 0) in
  let do_set_tid := negb (Z.land flags CLONE_CHILD_SETTID =? 0) in
  let! tidptr := reg 4 in
  let! me := cur in
  let! o := alloc_user_task in
  match o with
  | Some c =>
      let! t := cur_task in
      let! d := unwrap (cwd t) in
      upd_tsk c (set_cwd (Some d)) ;;;
      on_x (mm_clone me c) ;;;
      dup_files c ;;;
      let! t := cur_task in
      upd_tsk c (λ ct, set_regs (<[0%nat := 0]> (regs t)) (set_umem (umem t) ct)) ;;;
      upd_tsk c (set_state Ready) ;;;
      upd_tsk c (set_parent (Some me)) ;;;
      let! ct := get_tsk c in
      (if do_set_tid then user_write tidptr (le_bytes 4 (pid ct)) else ret tt) ;;;
      (if clear_tid then upd_tsk c (set_tid (Some tidptr)) else ret tt) ;;;
      ret (pid ct)
  | None => ret FAIL
  end.

(** ** [exit] *)

(** The descriptors are closed, whatever [close] says, and stay in the table. *)
Definition close_files (i : nat) : KM unit :=
  let! t := get_tsk i in
  forM (seq 0 (length (t_files t))) (λ k,
    let! t := get_tsk i in
    let! o := unwrap (t_files t !! k) in
    match o with
    | Some f => let! _ := file_close (fd_file f) (fd_read f) (fd_write f) in ret tt
    | None => ret tt
    end).

Definition free_task (i : nat) : KM unit :=
  close_files i ;;;
  on_x (mm_drop i) ;;;
  let! t := get_tsk i in
  (match parent t with Some p => wakeup (ChTask p) | None => ret tt end) ;;;
  upd_tsk i (set_state Zombie).

(** Up to [sched()], which does not come back. *)
Definition exit : KM unit :=
  let! i := cur in
  let! code := reg 0 in
  upd_tsk i (set_exit_code code) ;;;
  let! t := get_tsk i in
  assert_ (negb (pid t =? 0)) ;;;
  free_task (Z.to_nat (pid t)) ;;;
  modify (with_idx None).

Definition exit_group : KM unit := exit.

(** ** [wait] *)

(** The loop over the tasks: a zombie of [me], or whether there is a child at all. *)
Fixpoint find_zombie (me : nat) (ts : list Task) (i : nat) : option nat * bool :=
  match ts with
  | [] => (None, false)
  | t :: ts' =>
      if decide (parent t = Some me)
      then if decide (state t = Zombie) then (Some i, true) else (fst (find_zombie me ts' (S i)), true)
      else find_zombie me ts' (S i)
  end.

Definition reap (z : nat) : KM Z :=
  let! t := get_tsk z in
  (match tid t with Some a => user_write a (le_bytes 4 0) | None => ret tt end) ;;;
  upd_tsk z (λ t, set_tid None (set_parent None (set_state Free t))) ;;;
  ret (pid t).

Fixpoint wait_loop (naps : nat) (me : nat) : KM Z :=
  let! s := get in
  match find_zombie me (k_tasks s) 0 with
  | (Some z, _) => reap z
  | (None, false) => ret FAIL
  | (None, true) =>
      match naps with
      | O => fail FFuel
      | S naps' => sleep others (ChTask me) ;;; wait_loop naps' me
      end
  end.

Definition wait : KM Z := let! me := cur in wait_loop naps me.
Definition wait4 : KM Z := wait.

(** ** Scheduling *)

(** [sched()] out of [yild], and back. *)
Definition yild : KM unit :=
  let! i := cur in
  upd_tsk i (set_state Ready) ;;;
  others None ;;;
  modify (with_idx (Some i)) ;;;
  upd_tsk i (set_state Running).

(** One pass of [scheduler]: [run i] is what task [i] does until it calls
    [sched()]; the result is whether a task was found. *)
Definition sched_turn (run : nat → KM unit) (i : nat) : KM bool :=
  let! t := get_tsk i in
  if decide (state t = Ready) then
    upd_tsk i (set_state Running) ;;;
    modify (with_idx (Some i)) ;;;
    run i ;;;
    modify (with_idx None) ;;;
    ret true
  else ret false.

Fixpoint sched_pass (run : nat → KM unit) (is_ : list nat) (found : bool) : KM bool :=
  match is_ with
  | [] => ret found
  | i :: is' => let! b := sched_turn run i in sched_pass run is' (found || b)
  end.

Definition scheduler_pass (run : nat → KM unit) : KM bool :=
  let! s := get in sched_pass run (seq 0 (length (k_tasks s))) false.

(** ** Small calls *)
Definition getpid : KM Z := let! t := cur_task in ret (pid t).
Definition gettid : KM Z := getpid.
Definition settid : KM Z := let! t := cur_task in ret (pid t).
Definition getppid : KM Z :=
  let! t := cur_task in
  match parent t with
  | Some p => let! pt := get_tsk p in ret (pid pt)
  | None => ret (pid t)
  end.
Definition set_robust_list : KM Z := ret 0.
Definition rseq : KM Z := ret FAIL.
Definition prlimit64 : KM Z := ret 0.
Definition mprotect : KM Z := ret 0.
Definition munmap : KM Z := ret 0.
Definition getuid : KM Z := ret 0.
Definition geteuid : KM Z := ret 0.
Definition setuid : KM Z := ret 0.
Definition getgid : KM Z := ret 0.
Definition setgid : KM Z := ret 0.
Definition kill : KM Z := ret 0.
Definition tgkill : KM Z := ret 0.
Definition getpgid : KM Z := ret 0.
Definition setpgid : KM Z := ret 0.
Definition rt_sigaction : KM Z := ret 0.
Definition rt_sigprocmask : KM Z := ret 0.

(** ["?\0"], ["local\0"], ["0.0.1\0"], ["0\0"], ["aarch64\0"] at their offsets. *)
Definition uname : KM Z :=
  let! p := reg 0 in
  assert_ (negb (p =? 0)) ;;;
  user_write p [63; 0] ;;;
  user_write (p + 7) [108; 111; 99; 97; 108; 0] ;;;
  user_write (p + 13) [48; 46; 48; 46; 49; 0] ;;;
  user_write (p + 19) [48; 0] ;;;
  user_write (p + 21) [97; 97; 114; 99; 104; 54; 52; 0] ;;;
  ret 0.
End sched.
