(* ===== verification/SchedInv.v ===== *)
(** * Tasks come and go: the counts of files follow them *)
From S2P Require Import Prelude P9Msg Pipe Kst Hoare Cons Fs FsSys FsInv FsAcct FsSpec Sched.

Local Open Scope Z_scope.

(** The descriptors a row of the table stands for. *)
Definition own (x : bool * list (option FD)) : list FD := if x.1 then omap id x.2 else [].

Section rows.
Implicit Types (τ : tabs).

Lemma fds_row τ c x x' A B :
  τ !! c = Some x → A ++ own x ≡ₚ B ++ own x' → A ++ fds τ ≡ₚ B ++ fds (<[c := x']> τ).
Proof.
  intros Hi HP. rewrite insert_take_drop by (by eapply lookup_lt_Some).
  rewrite <- (take_drop_middle τ c _ Hi) at 1. unfold fds. rewrite !bind_app, !bind_cons.
  change (if x.1 then omap id x.2 else []) with (own x). change (if x'.1 then omap id x'.2 else []) with (own x').
  generalize (take c τ ≫= (λ x : bool * list (option FD), if x.1 then omap id x.2 else [])) as P.
  generalize (drop (S c) τ ≫= (λ x : bool * list (option FD), if x.1 then omap id x.2 else [])) as Q.
  intros Q P. transitivity (P ++ (A ++ own x) ++ Q); [solve_Permutation|]. rewrite HP. solve_Permutation.
Qed.

Lemma shape_row τ c x x' : τ !! c = Some x → length x'.2 = length x.2 → shape τ → shape (<[c := x']> τ).
Proof.
  intros Hc Hl [H1 H2]. split; [by rewrite length_insert|]. apply Forall_insert; [done|]. rewrite Hl.
  by apply (Forall_lookup_1 _ _ _ _ H2 Hc).
Qed.

Lemma shape_len τ c x : shape τ → τ !! c = Some x → length x.2 = NFDS.
Proof. intros [_ H] Hc. by apply (Forall_lookup_1 _ _ _ _ H Hc). Qed.

Lemma first_state_spec st ts : ∀ k j, first_state st ts k = Some j →
  (k ≤ j)%nat ∧ ∃ t, ts !! (j - k)%nat = Some t ∧ state t = st.
Proof.
  induction ts as [|t ts IH]; intros k j; simpl; [done|]. destruct (decide (state t = st)).
  - intros [= ->]. rewrite Nat.sub_diag. split; [lia|]. by exists t.
  - intros H. apply IH in H as (Hle & u & Hu & Es). split; [lia|].
    replace (j - k)%nat with (S (j - S k)) by lia. by exists u.
Qed.

Lemma omap_replicate_None k : omap id (replicate k (None : option FD)) = [].
Proof. by induction k. Qed.
End rows.

Lemma forM_seq_hoare {S} (J : nat → S → Prop) (body : nat → M S unit) n : ∀ a,
  (∀ k, (a ≤ k < a + n)%nat → hoare (J k) (body k) (λ _, J (Datatypes.S k))) →
  hoare (J a) (forM (seq a n) body) (λ _, J (a + n)%nat).
Proof.
  induction n as [|n IH]; intros a H; cbn [seq forM].
  - rewrite Nat.add_0_r. by apply hoare_ret.
  - eapply hoare_bind; [apply H; lia|]. intros []. replace (a + Datatypes.S n)%nat with (Datatypes.S a + n)%nat by lia.
    apply IH. intros k Hk. apply H. lia.
Qed.

Section tasks.
Context {X : Type} {api : P9Api X} {mm : MmApi X}.
Context (n i : nat) (Hn : (Z.of_nat n ≤ 60000)).
Notation St := (St (X := X)).
Notation Acct := (Acct (X := X) n i).
Notation Inv := (Inv (X := X) n i).

(** Rewriting one task, seen in its row. *)
Lemma upd_tsk_row L τ c g x x' :
  τ !! c = Some x → (∀ t, tab t = x → tab (g t) = x') →
  hoare (St L τ i) (upd_tsk c g) (λ _, St L (<[c := x']> τ) i).
Proof.
  intros Hc Hg. apply hoare_modify. intros s (HA & HB & HC). split_and!; [done| |done]. simpl.
  rewrite <- HB. apply list_eq. intros j. rewrite list_lookup_fmap. destruct (decide (c = j)) as [<-|Hne].
  - rewrite <- HB, list_lookup_fmap in Hc. rewrite list_lookup_alter_eq.
    destruct (k_tasks s !! c) as [t|] eqn:Et; [|done]. injection Hc as Hc. simpl.
    rewrite list_lookup_insert_eq; [by rewrite (Hg t)|]. rewrite length_fmap. by eapply lookup_lt_Some.
  - by rewrite list_lookup_alter_ne, list_lookup_insert_ne, list_lookup_fmap.
Qed.

Lemma upd_tsk_same L τ c g x :
  τ !! c = Some x → (∀ t, tab t = x → tab (g t) = x) → pres (St L τ i) (upd_tsk c g).
Proof.
  intros Hc Hg. eapply hoare_post; [by eapply upd_tsk_row|]. intros a s. by rewrite list_insert_id.
Qed.

(** A new task: alive, with an empty table. *)
Lemma alloc_user_task_spec τ L :
  shape τ →
  hoare (St L τ i) alloc_user_task (λ r s, match r with
    | Some c => ∃ x, τ !! c = Some (false, x) ∧ St L (<[c := (true, replicate NFDS None)]> τ) i s
    | None => St L τ i s
    end).
Proof.
  intros Hsh s r s' HS. unfold alloc_user_task, bind at 1, get.
  destruct (first_state Free (k_tasks s) 0) as [c|] eqn:Ec; [|by intros [= <- <-]].
  apply first_state_spec in Ec as (_ & t & Ht & Est). rewrite Nat.sub_0_r in Ht.
  assert (τ !! c = Some (false, t_files t)) as Hc.
  { destruct HS as (_ & <- & _). rewrite list_lookup_fmap, Ht. simpl. unfold tab, live. by rewrite Est. }
  assert (length (t_files t) = NFDS) as Hlen by (by apply (shape_len τ c (false, t_files t))).
  assert (c < length τ)%nat as Hlt by (by eapply lookup_lt_Some).
  revert s r s' HS Ht. enough (hoare (λ s, St L τ i s ∧ k_tasks s !! c = Some t)
    (upd_tsk c (λ t, set_pid (wrap 16 (Z.of_nat c)) (set_state Used t)) ;;;
     on_x (mm_new c) ;;; upd_tsk c (λ t, set_files (replicate (length (t_files t)) None) t) ;;; ret (Some c))
    (λ r s, match r with
    | Some c => ∃ x, τ !! c = Some (false, x) ∧ St L (<[c := (true, replicate NFDS None)]> τ) i s
    | None => St L τ i s
    end)) as H by (intros s r s' HS Ht E; by apply (H s r s')).
  apply (hoare_bind _ _ _ (λ _, St L (<[c := (true, t_files t)]> τ) i)).
  { apply (hoare_conseq _ (St L τ i) _ _ (λ _, St L (<[c := (true, t_files t)]> τ) i)); [|by intros s [? _]|done].
    apply upd_tsk_row with (false, t_files t); [done|]. intros u Hu. unfold tab in *. simpl. by injection Hu as _ ->. }
  intros []. eapply hoare_bind; [apply on_x_pres|]. intros [].
  eapply hoare_bind.
  { apply upd_tsk_row with (x := (true, t_files t)) (x' := (true, replicate NFDS None)); [by apply list_lookup_insert_eq|].
    intros u Hu. unfold tab, live in *. simpl. injection Hu as -> ->. by rewrite Hlen. }
  intros []. apply hoare_ret. intros s HS. exists (t_files t). split; [done|]. by rewrite list_insert_insert_eq in HS.
Qed.

(** The child's table while [fork] fills it: from [k] on it is empty. *)
Definition Dup (fs : list (option FD)) (c : nat) (lost : list FD) (k : nat) (s : KSt X) : Prop :=
  ∃ τ cf, St (fds τ ++ lost) τ i s ∧ shape τ ∧ τ !! i = Some (true, fs) ∧ τ !! c = Some (true, cf) ∧
    ∀ m, (k ≤ m < NFDS)%nat → cf !! m = Some None.

Lemma dup_step fs c lost k :
  c ≠ i → (length lost ≤ n)%nat → (k < NFDS)%nat →
  hoare (Dup fs c lost k)
    (let! o := fd_at (Z.of_nat k) in
     match o with
     | Some _ => let! f := dup_file (Z.of_nat k) in upd_tsk c (set_fd k (Some f))
     | None => ret tt
     end) (λ _, Dup fs c lost (S k)).
Proof using Hn.
  intros Hci Hl Hk. apply hoare_ex. intros τ. apply hoare_ex. intros cf s a s' (HS & Hsh & Hi & Hc & He). revert s a s' HS.
  eapply hoare_bind; [by apply (fd_at_St n i Hn _ τ fs)|]. intros o. apply hoare_pure. intros _. destruct o as [d0|].
  - eapply hoare_bind; [by apply (dup_file_hoare n i Hn fs)|]. intros d.
    eapply hoare_post.
    { apply upd_tsk_row with (x := (true, cf)) (x' := (true, <[k := Some d]> cf)); [done|].
      intros t Ht. unfold tab, live in *. simpl. by injection Ht as -> ->. }
    intros a s (HA & HB & HC). exists (<[c := (true, <[k := Some d]> cf)]> τ), (<[k := Some d]> cf).
    assert (c < length τ)%nat by (by eapply lookup_lt_Some). split_and!.
    + split; [|done]. eapply acctL_perm; [|reflexivity|exact HA].
      change (d :: fds τ ++ lost) with (([d] ++ fds τ) ++ lost). apply Permutation_app_tail. symmetry.
      apply (fds_row τ c (true, cf) _ [d] []); [done|]. apply (table_update cf k None (Some d)). apply He. lia.
    + eapply shape_row; [done| |done]. cbn. by rewrite length_insert.
    + by rewrite list_lookup_insert_ne.
    + by apply list_lookup_insert_eq.
    + intros m Hm. rewrite list_lookup_insert_ne by lia. apply He. lia.
  - apply hoare_ret. intros s HS. exists τ, cf. split_and!; try done. intros m Hm. apply He. lia.
Qed.

Lemma dup_files_spec fs c lost :
  c ≠ i → (length lost ≤ n)%nat → hoare (Dup fs c lost 0) (dup_files c) (λ _, Dup fs c lost NFDS).
Proof using Hn.
  intros Hci Hl. unfold dup_files.
  apply (hoare_bind _ _ _ (λ t s, Dup fs c lost 0 s ∧ length (t_files t) = NFDS)).
  { intros s t s' (τ & cf & HS & Hsh & Hi & Hr) E.
    destruct (cur_task_St n i Hn _ τ fs Hi s t s' HS E) as [HS' Ef]. split; [by exists τ, cf|].
    rewrite Ef. by apply (shape_len τ i (true, fs)). }
  intros t. apply hoare_pure. intros ->. apply (forM_seq_hoare (Dup fs c lost)).
  intros k Hk. apply dup_step; [done|done|unfold NFDS in *; lia].
Qed.

Lemma fork_Inv : pres Inv fork.
Proof using Hn.
  apply hoare_ex. intros fs. unfold fork.
  apply (hoare_bind _ _ _ (λ _, Acct fs)); [apply reg_A|]. intros flags.
  apply (hoare_bind _ _ _ (λ _, Acct fs)); [apply pres_assert|]. intros [].
  apply (hoare_bind _ _ _ (λ _, Acct fs)); [apply reg_A|]. intros tidptr.
  eapply hoare_bind; [apply cur_Acct|]. intros me. apply hoare_pure. intros ->.
  apply Acct_open; [done|]. intros τ lost Hsh Hl Hi.
  eapply hoare_bind; [by apply alloc_user_task_spec|]. intros [c|]; [|apply hoare_ret; intros s HS; by exists fs, τ, lost].
  apply hoare_ex. intros x s a s' [Hc HS]. revert s a s' HS.
  assert (c ≠ i) as Hci by congruence. assert (c < length τ)%nat as Hlt by (by eapply lookup_lt_Some).
  set (τ1 := <[c := (true, replicate NFDS None)]> τ).
  assert (τ1 !! c = Some (true, replicate NFDS None)) as Hc1 by (by apply list_lookup_insert_eq).
  assert (τ1 !! i = Some (true, fs)) as Hi1 by (unfold τ1; by rewrite list_lookup_insert_ne).
  eapply hoare_bind; [apply cur_task_pres|]. intros t0.
  eapply hoare_bind; [apply pres_unwrap|]. intros d.
  eapply hoare_bind; [by eapply upd_tsk_same|]. intros [].
  eapply hoare_bind; [apply on_x_pres|]. intros [].
  apply (hoare_bind _ _ _ (λ _, Dup fs c lost NFDS)).
  { apply (hoare_conseq _ (Dup fs c lost 0) _ _ (λ _, Dup fs c lost NFDS)); [by apply dup_files_spec| |done]. intros s (HA & HB & HC). exists τ1, (replicate NFDS None).
    split_and!; [|apply (shape_row τ c (false, x)); [done|symmetry; by apply (shape_len τ c (false, x))|done]|done|done|].
    - split; [|done]. eapply acctL_perm; [|reflexivity|exact HA]. apply Permutation_app_tail. symmetry.
      apply (fds_row τ c (false, x) _ [] []); [done|]. done.
    - intros m Hm. apply lookup_replicate_2. lia. }
  intros []. apply hoare_ex. intros τ2. apply hoare_ex. intros cf s a s' (HS & Hsh2 & Hi2 & Hc2 & _) E.
  exists fs, τ2, lost. split; [|done]. revert s a s' HS E.
  change (pres (St (fds τ2 ++ lost) τ2 i)
    (let! t := cur_task in
     upd_tsk c (λ ct, set_regs (<[0%nat := 0]> (regs t)) (set_umem (umem t) ct)) ;;;
     upd_tsk c (set_state Ready) ;;; upd_tsk c (set_parent (Some i)) ;;;
     let! ct := get_tsk c in
     (if negb (Z.land flags CLONE_CHILD_SETTID =? 0) then user_write tidptr (le_bytes 4 (pid ct)) else ret tt) ;;;
     (if negb (Z.land flags CLONE_CHILD_CLEARTID =? 0) then upd_tsk c (set_tid (Some tidptr)) else ret tt) ;;;
     ret (pid ct))).
  assert (∀ g, (∀ t, live t = true → live (g t) = true ∧ t_files (g t) = t_files t) → pres (St (fds τ2 ++ lost) τ2 i) (upd_tsk c g)) as Hu.
  { intros g Hg. eapply upd_tsk_same; [done|]. intros t Ht. unfold tab in *. injection Ht as H1 <-.
    destruct (Hg t H1) as [-> ->]. done. }
  unfold get_tsk. pres_auto; apply Hu; done.
Qed.

(** *** [exit]: the descriptors from [k] on are still open, the failed ones are lost *)
Definition Closing (τ : tabs) (fs : list (option FD)) (lost0 : list FD) (b k : nat) (s : KSt X) : Prop :=
  ∃ lost, (length lost ≤ length lost0 + b * k)%nat ∧ St (omap id (drop k fs) ++ fds (<[i := (false, fs)]> τ) ++ lost) τ i s.

Definition never_refuses : Prop := ∀ h (x : X) r x', p9_close h x = Done (r, x') → r = Some tt.

Lemma hoare_True {S A} (P : S → Prop) (m : M S A) : hoare P m (λ _ _, True).
Proof. done. Qed.

Lemma file_close_agrees P j r w : never_refuses → hoare P (file_close j r w) (λ o (_ : KSt X), o = Some tt).
Proof.
  intros Hnr. unfold file_close, close_last. eapply hoare_bind; [apply hoare_True|]. intros f.
  destruct (rc f =? 0); [by apply hoare_ret|]. eapply hoare_bind; [apply hoare_True|]. intros [].
  destruct (rc f =? 1); (eapply hoare_bind; [apply hoare_True|]; intros []); [|by apply hoare_ret].
  eapply hoare_bind; [apply hoare_True|]. intros g. destruct (kind g) as [| |h| |p]; try apply hoare_fail; try by apply hoare_ret.
  apply (hoare_bind _ _ _ (λ o _, o = Some tt)).
  - intros s o s' _. unfold on_x. destruct (p9_close h (k_x s)) as [[q x]|] eqn:E; [|done]. intros [= <- <-]. by eapply Hnr.
  - intros [[]|]; [apply hoare_then_ret; intros ? ? ? _ _; done|]. by intros s ? ? [=].
Qed.

Lemma closing_step τ fs lost0 b k :
  shape τ → τ !! i = Some (true, fs) → (Z.of_nat (length lost0 + 8) ≤ 60000) → (b = 1%nat ∨ (b = 0%nat ∧ never_refuses)) → (k < NFDS)%nat →
  hoare (Closing τ fs lost0 b k)
    (let! t := get_tsk i in
     let! o := unwrap (t_files t !! k) in
     match o with
     | Some f => let! _ := file_close (fd_file f) (fd_read f) (fd_write f) in ret tt
     | None => ret tt
     end) (λ _, Closing τ fs lost0 b (S k)).
Proof using Hn.
  intros Hsh Hi Hl0 Hb Hk. apply hoare_ex. intros lost s a s' [Hl HS]. revert s a s' HS.
  eapply (hoare_bind _ _ _ (λ t s, St (omap id (drop k fs) ++ fds (<[i := (false, fs)]> τ) ++ lost) τ i s ∧ t_files t = fs)).
  { intros s t s' (HA & HB & HC). unfold get_tsk, bind, get. destruct (k_tasks s !! i) as [u|] eqn:Et; simpl; [|done].
    intros [= <- <-]. split; [done|]. rewrite <- HB, list_lookup_fmap, Et in Hi. by injection Hi. }
  intros t. apply hoare_pure. intros ->. eapply hoare_bind; [apply hoare_unwrap|]. intros o. apply hoare_pure. intros Ho.
  rewrite (drop_S fs o k Ho), omap_id_cons. destruct o as [d|].
  - cbn [option_list app]. set (L := omap id (drop (S k) fs) ++ fds (<[i := (false, fs)]> τ) ++ lost).
    assert (Z.of_nat (length L) < 65535) as HL.
    { unfold L. rewrite !length_app. pose proof (omap_length (drop (S k) fs)) as H1. rewrite length_drop in H1.
      assert (length fs = NFDS) by (by apply (shape_len τ i (true, fs))).
      assert (length (fds (<[i := (false, fs)]> τ)) ≤ 64)%nat as H2.
      { apply fds_length. by apply (shape_row τ i (true, fs)). }
      unfold NFDS in *. destruct Hb as [->|[-> _]]; lia. }
    apply hoare_then_ret. intros s r s' HS E. pose proof (file_close_spec τ i L d HL s r s' HS E) as Hc.
    destruct r as [[]|]; cbn in Hc.
    + exists lost. split; [lia|done].
    + destruct Hb as [->|[-> Hnr]]; [|by pose proof (file_close_agrees (λ _, True) _ _ _ Hnr s None s' I E)].
      exists (d :: lost). split; [simpl; lia|]. destruct Hc as (HA & HB & HC). split; [|done].
      eapply acctL_perm; [|reflexivity|exact HA]. unfold L. solve_Permutation.
  - cbn [option_list app]. apply hoare_ret. intros s HS. exists lost. split; [lia|done].
Qed.

(** The running task, whose [pid] is its index, ends. *)
Definition leaving (fs : list (option FD)) (s : KSt X) : Prop :=
  Acct fs s ∧ ∀ t, k_tasks s !! i = Some t → pid t = Z.of_nat i.

Lemma get_tsk_id P j : hoare P (get_tsk j) (λ t s, P s ∧ k_tasks (X := X) s !! j = Some t).
Proof.
  intros s t s' HP. unfold get_tsk, bind, get. destruct (k_tasks s !! j) eqn:E; simpl; [|done]. by intros [= <- <-].
Qed.

Lemma reg_id P k : pres P (reg (X := X) k).
Proof.
  intros s v s' HP. unfold reg, cur_task, cur, get_tsk, bind, get. destruct (task_idx s); simpl; [|done].
  destruct (k_tasks s !! _); simpl; [|done]. destruct (regs _ !! k); simpl; [|done]. by intros [= <- <-].
Qed.

Lemma set_exit_code_leaving fs c : pres (leaving fs) (upd_tsk i (set_exit_code c)).
Proof.
  intros s a s' [HA Hp] E. split.
  - eapply upd_live; [|reflexivity|exact HA|exact E]. done.
  - unfold upd_tsk, modify in E. injection E as <- <-. simpl. intros t. rewrite list_lookup_alter_eq.
    destruct (k_tasks s !! i) as [u|] eqn:Eu; [|done]. simpl. intros [= <-]. simpl. by apply Hp.
Qed.

Lemma free_task_spec τ fs lost b :
  shape τ → (length lost ≤ n)%nat → (Z.of_nat (n + 8) ≤ 60000) → τ !! i = Some (true, fs) → (b = 1%nat ∨ (b = 0%nat ∧ never_refuses)) →
  hoare (St (fds τ ++ lost) τ i) (free_task i)
    (λ _ s, ∃ lost', (length lost' ≤ n + b * 8)%nat ∧
       St (fds (<[i := (false, fs)]> τ) ++ lost') (<[i := (false, fs)]> τ) i s).
Proof using Hn.
  intros Hsh Hl Hn8 Hi Hb. unfold free_task, close_files.
  assert (length fs = NFDS) as Hlen by (by apply (shape_len τ i (true, fs))).
  apply (hoare_bind _ _ _ (λ _, Closing τ fs lost b NFDS)).
  { apply (hoare_bind _ _ _ (λ t s, Closing τ fs lost b 0 s ∧ length (t_files t) = NFDS)).
    - eapply hoare_post; [apply get_tsk_id|]. intros t s [(HA & HB & HC) Ht]. split.
      + exists lost. split; [lia|]. split; [|done]. rewrite drop_0. eapply acctL_perm; [|reflexivity|exact HA].
        rewrite app_assoc. apply Permutation_app_tail. symmetry. apply (fds_row τ i (true, fs) _ [] (omap id fs)); [done|].
        cbn. by rewrite app_nil_r.
      + rewrite <- HB, list_lookup_fmap, Ht in Hi. by injection Hi as _ ->.
    - intros t. apply hoare_pure. intros ->. apply (forM_seq_hoare (Closing τ fs lost b)).
      intros k Hk. apply closing_step; [done|done|lia|done|lia]. }
  intros []. unfold Closing. apply hoare_ex. intros lost' s a s' [Hl' HS]. revert s a s' HS.
  rewrite drop_ge by lia. cbn [omap list_omap app]. set (L := fds (<[i := (false, fs)]> τ) ++ lost').
  eapply hoare_bind; [apply on_x_pres|]. intros []. eapply hoare_bind; [apply get_tsk_id|]. intros t.
  apply (hoare_bind _ _ _ (λ _, St L τ i)).
  { apply (hoare_conseq _ (St L τ i) _ _ (λ _, St L τ i)); [|by intros s [? _]|done].
    destruct (parent t); [apply wakeup_pres|apply pres_ret]. }
  intros []. eapply hoare_post; [apply upd_tsk_row with (x := (true, fs)) (x' := (false, fs)); [done|]|].
  - intros u Hu. unfold tab in *. simpl. by injection Hu as _ ->.
  - intros a s HS. exists lost'. split; [unfold NFDS in Hl'; lia|done].
Qed.

Lemma exit_counted b fs :
  (Z.of_nat (n + 8) ≤ 60000) → (b = 1%nat ∨ (b = 0%nat ∧ never_refuses)) →
  hoare (leaving fs) exit (λ _, counted (n + b * 8)).
Proof using Hn.
  intros Hn8 Hb. unfold exit.
  apply (hoare_bind _ _ _ (λ j s, leaving fs s ∧ j = i)).
  { intros s j s' [HA Hp] E. destruct (current _ _ _ _ HA) as (t & _ & _ & _ & H4 & _).
    unfold cur, bind, get in E. rewrite H4 in E. by injection E as <- <-. }
  intros j. apply hoare_pure. intros ->. eapply hoare_bind; [apply reg_id|]. intros code.
  eapply hoare_bind; [apply set_exit_code_leaving|]. intros []. eapply hoare_bind; [apply get_tsk_id|]. intros t.
  eapply hoare_bind; [apply pres_assert|]. intros [].
  intros s a s' [[HA Hp] Ht]. rewrite (Hp t Ht), Nat2Z.id. destruct HA as (τ & lost & HS & Hsh & Hl & Hi). clear Hp Ht.
  revert s a s' HS. eapply hoare_bind; [by eapply free_task_spec|]. intros [].
  apply hoare_modify. intros s (lost' & Hl' & HA & HB & _). exists (<[i := (false, fs)]> τ), lost'.
  split_and!; [done|done| |done]. by apply (shape_row τ i (true, fs)).
Qed.
End tasks.

(** ** [wait] *)
Lemma find_zombie_spec me ts : ∀ k z b, find_zombie me ts k = (Some z, b) →
  (k ≤ z)%nat ∧ ∃ t, ts !! (z - k)%nat = Some t ∧ parent t = Some me ∧ state t = Zombie.
Proof.
  induction ts as [|t ts IH]; intros k z b; simpl; [done|]. destruct (decide (parent t = Some me)) as [Hp|Hp].
  - destruct (decide (state t = Zombie)) as [Hz|Hz].
    + intros [= -> _]. rewrite Nat.sub_diag. split; [lia|]. by exists t.
    + destruct (find_zombie me ts (S k)) as [[z'|] b'] eqn:E; simpl; [|done]. intros [= -> _].
      apply IH in E as (Hle & u & Hu & H). split; [lia|]. replace (z - k)%nat with (S (z - S k)) by lia. by exists u.
  - intros E. apply IH in E as (Hle & u & Hu & H). split; [lia|]. replace (z - k)%nat with (S (z - S k)) by lia. by exists u.
Qed.

Section waiting.
Context {X : Type} {api : P9Api X}.
Context (n i : nat) (Hn : (Z.of_nat n ≤ 60000)).
Context (others : option chan → KM X unit).
Context (Hothers : keeps_counts n i others).
Notation Acct := (Acct (X := X) n i).

Lemma reap_A fs z t : state t = Zombie → hoare (λ s, Acct fs s ∧ k_tasks s !! z = Some t) (reap z) (λ _, Acct fs).
Proof.
  intros Hz s a s' [(τ & lost & HS & Hr) Ht] E. exists τ, lost. split; [|done].
  assert (τ !! z = Some (false, t_files t)) as Hzr.
  { destruct HS as (_ & <- & _). rewrite list_lookup_fmap, Ht. simpl. unfold tab, live. by rewrite Hz. }
  revert s a s' HS Ht E. enough (pres (St (X := X) (fds τ ++ lost) τ i) (reap z)) as H by (intros s a s' HS _ E; by apply (H s a s')).
  unfold reap, get_tsk. pres_auto. eapply upd_tsk_same; [done|]. intros u Hu. unfold tab in *. simpl. by injection Hu as _ ->.
Qed.

Lemma wait_loop_A fs k : ∀ me, pres (Acct fs) (wait_loop others k me).
Proof using All.
  induction k as [|k IH]; intros me; cbn [wait_loop]; intros s a s' HA; unfold bind at 1, get;
    destruct (find_zombie me (k_tasks s) 0) as [[z|] b] eqn:Ez.
  1, 3: apply find_zombie_spec in Ez as (_ & t & Ht & _ & Hz); rewrite Nat.sub_0_r in Ht; intros E; by apply (reap_A fs z t Hz s a s').
  - destruct b; [done|]. by intros [= <- <-].
  - destruct b; [|by intros [= <- <-]]. revert s a s' HA Ez. intros s a s' HA _. revert s a s' HA.
    apply pres_bind; [apply sleep_A; [done..|]; apply Hothers|]. intros []. apply IH.
Qed.

Lemma wait_Inv naps : pres (Inv n i) (wait others naps).
Proof using All. apply Acct_Inv. intros fs. unfold wait. apply pres_bind; [apply cur_A|]. intros me. apply wait_loop_A. Qed.
End waiting.
