(* ===== verification/SchedSpec.v ===== *)
(** * What the scheduler promises

    The counts of files through the life of a task, from boot over [fork] and
    [wait] to [exit], and parents and their children. *)
From S2P Require Import Prelude P9Msg Pipe Kst Hoare Cons ConsSpec Fs FsSys FsInv FsAcct FsSpec Sched SchedInv.

Local Open Scope Z_scope.

(** ** Boot *)
Section boot.
Context {X : Type} {api : P9Api X} {mm : MmApi X}.

(** The statics: no file, no task, nothing runs. *)
Definition FS : list File := replicate NFILES file_zeroed.
Definition TASKS : list Task := replicate NTASKS task_zeroed.
Definition zeroed (x : X) : KSt X := mkK FS TASKS None (mkCons [] wq_new) TERMIOS (mkTicks 0 wq_new) [] x.

Definition cons_file : File := mkFile KCons 1 0 None.
Definition task1 : Task :=
  mkTask None 0 None Ready None 0
    ([Some (mkFD 0 true true); Some (mkFD 1 true true); Some (mkFD 2 true true)] ++ replicate 5 None) 777 None (replicate 31 0) ∅.
Definition booted (x : X) : KSt X :=
  mkK (<[2%nat := cons_file]> (<[1%nat := cons_file]> (<[0%nat := cons_file]> FS))) (<[0%nat := task1]> TASKS) None
      (mkCons [] wq_new) TERMIOS (mkTicks 0 wq_new) [] x.

Lemma create_user_task_eq x x' : mm_new 0 x = Done (tt, x') → create_user_task (zeroed x) = Done (tt, booted x').
Proof.
  intros E. cbv [create_user_task alloc_user_task bind get upd_tsk modify on_x].
  change (first_state Free (k_tasks (zeroed x)) 0) with (Some 0%nat). cbv iota beta.
  change (k_x (with_tasks _ (zeroed x))) with x. rewrite E. reflexivity.
Qed.

Lemma cons_slot L F j d : acctL L F → F !! j = Some file_zeroed → fd_file d = j → acctL (d :: L) (<[j := cons_file]> F).
Proof.
  intros HA Hj Hd. pose proof (a_slots _ _ HA _ _ Hj) as [_ H0]. eapply acctL_grow; [done|exact Hj|done| |done].
  unfold slot_ok. cbn. rewrite (cnt_hit any) by done. cbn [any]. lia.
Qed.

Lemma booted_counted x : counted 0 (booted x).
Proof.
  exists (tab <$> k_tasks (booted x)), []. split_and!; [|done| |done].
  - rewrite app_nil_r. change (fds (tab <$> k_tasks (booted x))) with [mkFD 0 true true; mkFD 1 true true; mkFD 2 true true].
    apply (acctL_perm _ _ (Permutation_rev _) _ _ eq_refl). cbn [rev app].
    repeat (apply cons_slot; [|reflexivity|reflexivity]). apply Toy.zero_counted.
  - split; [done|]. repeat constructor.
Qed.
End boot.

(** ** Counting through the life of a task *)

(** C15: the life of a task keeps the counts of the file table.  What
    [create_user_task] leaves at boot counts exactly the descriptors of the first
    task.  From then on a call of [fork] or [wait] that returns leaves the table
    counting exactly the descriptors of the live tasks, up to the [n] that were
    lost before (for [wait], if what runs while the caller sleeps keeps the
    counts too).  So does [exit], which gives back every descriptor of the task:
    only one whose file the server refuses to close stays counted, at most eight
    of them, and none if the server never refuses. *)
Theorem task_counts {X} {api : P9Api X} {mm : MmApi X} (n i : nat) (others : option chan → KM X unit) (naps : nat) (s : KSt X) :
  Z.of_nat (n + 8) ≤ 60000 → keeps_counts n i others → Inv n i s →
  (∀ x x', mm_new 0 x = Done (tt, x') → ∃ s', create_user_task (zeroed x) = Done (tt, s') ∧ counted 0 s') ∧
  (∀ r s', fork s = Done (r, s') → Inv n i s') ∧
  (∀ r s', wait others naps s = Done (r, s') → Inv n i s') ∧
  (∀ t s', k_tasks s !! i = Some t → pid t = Z.of_nat i → exit s = Done (tt, s') →
     counted (n + 8) s' ∧ (never_refuses (X := X) → counted n s')).
Proof.
  intros Hn Ho HI. assert (Z.of_nat n ≤ 60000) as Hn' by lia. split_and!.
  - intros x x' E. exists (booted x'). split; [by apply create_user_task_eq|apply booted_counted].
  - intros r s' E. by eapply (fork_Inv n i Hn').
  - intros r s' E. by eapply (wait_Inv n i Hn' others Ho).
  - intros t s' Ht Hp E. destruct HI as [fs HA].
    assert (∀ b, (b = 1%nat ∨ (b = 0%nat ∧ never_refuses (X := X))) → counted (n + b * 8) s') as HC.
    { intros b Hb. apply (exit_counted n i Hn' b fs Hn Hb s tt s'); [|done]. split; [done|]. intros u Hu. congruence. }
    split; [by apply (HC 1%nat); left|]. intros Hnr. rewrite <- (Nat.add_0_r n). by apply (HC 0%nat); right.
Qed.

(** A kernel without an address space to manage, on the toy server. *)
#[global] Instance toy_mm : MmApi Toy.X := {|
  mm_new t := ret tt;
  mm_clone p c := ret tt;
  mm_drop t := ret tt;
|}.

(** The scheduler picks a task. *)
Definition picked {X} (i : nat) (s : KSt X) : KSt X := with_idx (Some i) (with_tasks (alter (set_state Running) i) s).

Lemma picked_Inv {X} n i t (s : KSt X) : counted n s → k_tasks s !! i = Some t → state t = Ready → Inv n i (picked i s).
Proof.
  intros (τ & lost & HA & HB & Hsh & Hl) Ht Hst.
  assert (tab <$> alter (set_state Running) i (k_tasks s) = tab <$> k_tasks s) as Et.
  { apply list_eq. intros j. rewrite !list_lookup_fmap. destruct (decide (i = j)) as [<-|]; [|by rewrite list_lookup_alter_ne].
    rewrite list_lookup_alter_eq, Ht. simpl. unfold tab, live. simpl. by rewrite Hst. }
  exists (t_files t), τ, lost. split_and!; try done.
  - split_and!; [done|simpl; by rewrite Et|done].
  - rewrite <- HB, list_lookup_fmap, Ht. simpl. unfold tab, live. by rewrite Hst.
Qed.

(** The first task runs in the root directory, with the console as its three descriptors. *)
Definition first_runs : KSt Toy.X := with_tasks (alter (set_cwd (Some [47])) 0%nat) (picked 0 (booted [])).

Lemma first_runs_Inv : Inv 0 0 first_runs.
Proof.
  destruct (picked_Inv 0 0 task1 (booted (X := Toy.X) [])) as [fs HA]; [apply booted_counted|reflexivity..|].
  exists fs. by eapply (upd_live 0 0 fs 0 (set_cwd (Some [47])) _ eq_refl _ tt).
Unshelve. by intros t _.
Qed.

(** It forks, and its child holds the console too until it exits. *)
Lemma task_counts_witness :
  ∃ s1 s2, fork first_runs = Done (1, s1) ∧ rc <$> k_files s1 !! 0%nat = Some 2 ∧ Inv 0 0 s1 ∧
    exit (picked 1 s1) = Done (tt, s2) ∧ rc <$> k_files s2 !! 0%nat = Some 1 ∧ counted 0 s2.
Proof.
  destruct (fork first_runs) as [[r s1]|] eqn:E1; [|vm_compute in E1; discriminate E1].
  destruct (task_counts 0 0 Toy.idle 0 first_runs) as (_ & Hf & _);
    [lia|intros c fs; apply Toy.idle_ok|exact first_runs_Inv|]. specialize (Hf r s1 E1).
  assert (counted 0 s1) as HC by (destruct Hf as [fs HA]; by eapply Acct_counted).
  vm_compute in E1. injection E1 as <- Es. rewrite <- Es in HC, Hf |- *. clear Es s1.
  match type of HC with counted _ ?u => set (s1 := u) in * end.
  destruct (exit (picked 1 s1)) as [[[] s2]|] eqn:E2; [|vm_compute in E2; discriminate E2].
  destruct (task_counts 0 1 Toy.idle 0 (picked 1 s1)) as (_ & _ & _ & He);
    [lia|intros c fs; apply Toy.idle_ok|eapply picked_Inv; [exact HC|reflexivity|reflexivity]|].
  exists s1, s2. split_and!; [reflexivity|reflexivity|exact Hf|exact E2|vm_compute in E2; injection E2 as <-; reflexivity|].
  eapply He; [reflexivity|reflexivity|exact E2|]. intros h x r x' E. by injection E as <- _.
Defined.

(** ** Parents and children *)
Section family.
Context {X : Type} {api : P9Api X} {mm : MmApi X}.
Implicit Types (s : KSt X).

(** Task [p] is [t], which nothing but [p]'s own channel wakes. *)
Definition stays (p : nat) (t : Task) s : Prop := k_tasks s !! p = Some t.

Definition not_on_pipe (t : Task) : Prop := state t = Sleeping → ∀ j c, t_chan t ≠ Some (ChPipe j c).

Lemma file_close_stays p t j r w : not_on_pipe t → pres (stays p t) (file_close (X := X) j r w).
Proof.
  intros Ht. unfold stays.
  assert (∀ k g, pres (λ s, k_tasks s !! p = Some t) (upd_slot (X := X) k g)) as Hu.
  { intros k g. apply upd_slot_hoare. done. }
  assert (∀ B (m : M X B), pres (λ s, k_tasks s !! p = Some t) (on_x m)) as Hx.
  { intros B m s a s' HI. unfold on_x. destruct (m (k_x s)) as [[b x]|]; [|done]. by intros [= <- <-]. }
  assert (∀ k c, pres (λ s, k_tasks (X := X) s !! p = Some t) (wakeup (ChPipe k c))) as Hw.
  { intros k c. apply hoare_modify. intros s Hs. simpl. rewrite list_lookup_fmap, Hs. simpl. f_equal. unfold wake_if.
    destruct (decide (state t = Sleeping)) as [E|]; [|done]. rewrite bool_decide_eq_false_2; [done|]. by apply Ht. }
  unfold file_close, close_last, pipe_run, get_slot. pres_auto.
Qed.

Lemma close_files_stays p t j : not_on_pipe t → pres (stays p t) (close_files (X := X) j).
Proof. intros Ht. unfold close_files, get_tsk. pres_auto. by apply file_close_stays. Qed.

Lemma find_zombie_some me ts : ∀ k c t,
  ts !! c = Some t → parent t = Some me → state t = Zombie → ∃ z b, find_zombie me ts k = (Some z, b) ∧ (k ≤ z ≤ k + c)%nat.
Proof.
  induction ts as [|u ts IH]; intros k [|c] t; simpl; try done.
  - intros [= ->] -> ->. rewrite !decide_True by done. eexists _, _. split; [reflexivity|lia].
  - intros Ht Hp Hz. destruct (IH (S k) c t Ht Hp Hz) as (z & b & E & Hle). rewrite E. simpl.
    destruct (decide (parent u = Some me)); [|by exists z, b; split; [done|lia]].
    destruct (decide (state u = Zombie)); eexists _, _; (split; [reflexivity|lia]).
Qed.

(** The end of task [c] wakes the parent [p] that waits for it. *)
Lemma free_task_family c p tc tp :
  state tc ≠ Sleeping → parent tc = Some p → p ≠ c → state tp = Sleeping → t_chan tp = Some (ChTask p) →
  hoare (λ s, stays p tp s ∧ stays c tc s) (free_task (X := X) c)
        (λ _ s, stays p (set_state Ready tp) s ∧ stays c (set_state Zombie tc) s).
Proof.
  intros Hrun Hpar Hpc Hsl Hch. unfold free_task. eapply (hoare_bind _ _ _ (λ _ s, stays p tp s ∧ stays c tc s)).
  { intros s0 a s1 [H1 H2] E0. split; eapply close_files_stays; try exact E0; try done; intros ? j ch; congruence. }
  intros []. apply (hoare_bind _ _ _ (λ _ s, stays p tp s ∧ stays c tc s)).
  { intros s0 a s1 HP. unfold on_x. destruct (mm_drop c (k_x s0)) as [[b x]|]; [|done]. by intros [= <- <-]. }
  intros []. eapply hoare_bind; [apply get_tsk_id|]. intros t. intros s0 a s1 [[H1 H2] H3] E0.
  unfold stays in *. assert (t = tc) as -> by congruence. rewrite Hpar in E0.
  unfold bind, wakeup, upd_tsk, modify in E0. injection E0 as <- <-. simpl. split.
  - rewrite list_lookup_alter_ne, list_lookup_fmap, H1 by done. simpl. f_equal. unfold wake_if.
    rewrite decide_True by done. by rewrite bool_decide_eq_true_2.
  - rewrite list_lookup_alter_eq, list_lookup_fmap, H2. simpl. f_equal. f_equal. unfold wake_if. by rewrite decide_False.
Qed.
End family.

(** The end of [sleep]: task [p] is the running one again. *)
Definition resume {X} (p : nat) : KM X unit :=
  modify (with_idx (Some p)) ;;; upd_tsk p (set_state Running) ;;; back.

(** The word of a child that [wait] clears is in the memory of the parent, if there is one. *)
Definition tid_ok (m : gmap Z Z) (t : Task) : Prop :=
  match tid t with Some a => ∃ m', write_bytes m a (le_bytes 4 0) = Done m' | None => True end.

Lemma reap_run {X} {api : P9Api X} (s : KSt X) p z tp tz :
  task_idx s = Some p → k_tasks s !! p = Some tp → k_tasks s !! z = Some tz → p ≠ z → tid_ok (umem tp) tz →
  ∃ s', reap z s = Done (pid tz, s') ∧ task_idx s' = Some p ∧
    k_tasks s' !! z = Some (set_tid None (set_parent None (set_state Free tz))).
Proof.
  intros Hi Hp Hz Hne Ht. unfold reap, get_tsk at 1. rewrite bind_assoc. mstep. rewrite Hz. mstep.
  unfold tid_ok in Ht. destruct (tid tz) as [a|].
  - destruct Ht as [m' Hm].
    assert (user_write a (le_bytes 4 0) s = Done (tt, with_tasks (alter (set_umem m') p) s)) as E.
    { unfold user_write, cur_task, upd_cur, cur, get_tsk, bind, get, lift. rewrite Hi. cbn. rewrite Hp. cbn. rewrite Hm. by rewrite Hi. }
    mrun E. unfold upd_tsk, bind, modify, ret. eexists. split; [reflexivity|]. split; [done|]. cbn.
    rewrite list_lookup_alter_eq, list_lookup_alter_ne by done. by rewrite Hz.
  - mstep. unfold upd_tsk, bind, modify, ret. eexists. split; [reflexivity|]. split; [done|]. cbn. by rewrite list_lookup_alter_eq, Hz.
Qed.

(** C18: no exit is missed.  When a task ends whose parent sleeps in [wait], the
    parent is made ready, and the task stays as a zombie of this parent with its
    exit code.  The parent, when it runs again, does not sleep once more: its
    [wait] returns the pid of a child of its own that has ended, and frees that
    task (if the word it has to clear for the child is in its memory). *)
Theorem exit_wakes_wait {X} {api : P9Api X} {mm : MmApi X} (others : option chan → KM X unit) (naps : nat) (s s' : KSt X)
    (c p : nat) (tc tp : Task) (code : Z) :
  task_idx s = Some c → k_tasks s !! c = Some tc → state tc = Running → pid tc = Z.of_nat c → arg 0 code s →
  parent tc = Some p → p ≠ c → k_tasks s !! p = Some tp → state tp = Sleeping → t_chan tp = Some (ChTask p) →
  exit s = Done (tt, s') → (∀ z tz, k_tasks s' !! z = Some tz → parent tz = Some p → tid_ok (umem tp) tz) →
  k_tasks s' !! p = Some (set_state Ready tp) ∧
  (∃ tc', k_tasks s' !! c = Some tc' ∧ state tc' = Zombie ∧ parent tc' = Some p ∧ exit_code tc' = code) ∧
  ∃ z tz s2, k_tasks s' !! z = Some tz ∧ parent tz = Some p ∧ state tz = Zombie ∧
    (resume p ;;; wait others naps) s' = Done (pid tz, s2) ∧ task_idx s2 = Some p ∧
    k_tasks s2 !! z = Some (set_tid None (set_parent None (set_state Free tz))).
Proof.
  intros Hi Hc Hrun Hpid Harg Hpar Hpc Hp Hsl Hch E Htid.
  set (tc1 := set_exit_code code tc).
  pose proof (free_task_family c p tc1 tp ltac:(simpl; congruence) Hpar Hpc Hsl Hch) as Hfree.
  assert (∃ s1, free_task c (with_tasks (alter (set_exit_code code) c) s) = Done (tt, s1) ∧ s' = with_idx None s1) as (s1 & E1 & ->).
  { unfold exit in E. destruct Harg as (j & t & Hj & Ht & Hr). assert (j = c) as -> by congruence. assert (t = tc) as -> by congruence.
    revert E. unfold bind at 1, cur, bind at 1, get. rewrite Hi. cbn. unfold bind at 1.
    assert (reg 0 s = Done (code, s)) as ->. { unfold reg, cur_task, cur, get_tsk, bind, get. rewrite Hi. cbn. rewrite Hc. cbn. by rewrite Hr. }
    unfold bind at 1, upd_tsk, modify. unfold bind at 1, get_tsk, bind at 1, get. cbn [k_tasks with_tasks].
    rewrite list_lookup_alter_eq, Hc. cbn. rewrite Hpid. destruct (Z.of_nat c =? 0); cbn; [done|]. rewrite Nat2Z.id.
    unfold bind, modify. destruct (free_task c _) as [[[] s1]|]; [|done]. intros [= <-]. by exists s1. }
  assert (stays p tp (with_tasks (alter (set_exit_code code) c) s) ∧ stays c tc1 (with_tasks (alter (set_exit_code code) c) s)) as HP.
  { unfold stays. cbn [k_tasks with_tasks]. rewrite list_lookup_alter_ne, list_lookup_alter_eq, Hc by done. done. }
  destruct (Hfree _ _ _ HP E1) as [F1 F2]. unfold stays in F1, F2.
  split_and!; [exact F1|exists (set_state Zombie tc1); done|].
  set (up := λ t, set_chan None (set_state Running t)).
  set (sr := with_tasks (alter (set_chan None) p) (with_tasks (alter (set_state Running) p) (with_idx (Some p) s1))).
  assert (resume p (with_idx None s1) = Done (tt, sr)) as Er.
  { done. }
  destruct (find_zombie_some p (k_tasks sr) 0 c (set_state Zombie tc1)) as (z & b & Ez & _); [|done|done|].
  { unfold sr. cbn. by rewrite !list_lookup_alter_ne. }
  destruct (find_zombie_spec _ _ _ _ _ Ez) as (_ & tz & Hz & Hzp & Hzs). rewrite Nat.sub_0_r in Hz.
  assert (p ≠ z) as Hpz.
  { intros <-. unfold sr in Hz. cbn in Hz. rewrite !list_lookup_alter_eq, F1 in Hz. by injection Hz as <-. }
  assert (k_tasks s1 !! z = Some tz) as Hz1 by (unfold sr in Hz; cbn in Hz; by rewrite !list_lookup_alter_ne in Hz).
  destruct (reap_run sr p z (up (set_state Ready tp)) tz) as (s2 & E2 & Hi2 & Hz2); [done| |done|done|by eapply Htid|].
  { unfold sr. cbn. by rewrite !list_lookup_alter_eq, F1. }
  exists z, tz, s2. split_and!; [done..| |done|done]. rewrite (bind_Done _ _ _ _ _ Er). unfold wait, cur. rewrite bind_assoc. mstep. cbn [sr task_idx with_tasks with_idx].
  mstep. destruct naps; cbn [wait_loop]; unfold bind, get; by rewrite Ez.
Qed.

(** Task 0 waits, its child 1 exits with code 7. *)
Lemma exit_wakes_wait_witness :
  let tp := mkTask None 0 None Sleeping (Some (ChTask 0)) 0 (replicate NFDS None) 777 (Some [47]) (replicate 31 0) ∅ in
  let tc := mkTask (Some 0%nat) 0 None Running None 1 (replicate NFDS None) 777 (Some [47]) (7 :: replicate 30 0) ∅ in
  let s := mkK (X := Toy.X) FS (tp :: tc :: replicate 6 task_zeroed) (Some 1%nat) (mkCons [] wq_new) TERMIOS (mkTicks 0 wq_new) [] [] in
  ∃ s', exit s = Done (tt, s') ∧ k_tasks s' !! 0%nat = Some (set_state Ready tp) ∧
    (∃ tc', k_tasks s' !! 1%nat = Some tc' ∧ state tc' = Zombie ∧ exit_code tc' = 7) ∧
    ∃ r s2, (resume 0 ;;; wait Toy.idle 0) s' = Done (r, s2).
Proof.
  intros tp tc s. assert (∃ s', exit s = Done (tt, s') ∧ Forall (λ t, tid t = None) (k_tasks s')) as (s' & E & Ht)
    by (vm_compute; eexists; split; [reflexivity|repeat constructor]).
  destruct (exit_wakes_wait Toy.idle 0 s s' 1 0 tc tp 7) as (H1 & (tc' & H2 & H3 & _ & H4) & (z & tz & s2 & _ & _ & _ & H5 & _));
    try reflexivity; [exists 1%nat, tc; split_and!; reflexivity|discriminate|exact E| |].
  { intros z tz Hz _. unfold tid_ok. rewrite Forall_forall in Ht. by rewrite (Ht tz (list_elem_of_lookup_2 _ _ _ Hz)). }
  exists s'. split_and!; [exact E|exact H1|exists tc'; split_and!; [exact H2|exact H3|exact H4]|]. exists (pid tz), s2. exact H5.
Defined.
