(* ===== verification/Spin.v ===== *)
(** * [spin.rs] and the interrupt mask of [sched.rs]: locks

    There is one processor ([NCPU] is 1), so a lock is either free or held by
    it; [acquire] masks interrupts for as long as a lock is held, counting the
    nesting in [Cpu].  The register [daif] is part of the state.  The locks
    themselves are numbered; [data] and [name] play no part. *)
From S2P Require Import Prelude.

Local Open Scope Z_scope.

(** ** State *)
Record Cpu := mkCpu {
  int_enable : bool;
  int_disables : Z;
}.

(** [cpu] is the pointer to the holder, null ([None]) for a free lock. *)
Record Lock := mkLock {
  l_cpu : option nat;
  locked : bool;
}.

Record SpinSt := mkSpin {
  the_cpu : Cpu;
  daif : Z;
  locks : list Lock;
}.

Definition cpuid : nat := 0.
Definition CPUS : Cpu := mkCpu false 0.
Definition lock_new : Lock := mkLock None false.

Definition set_cpu (c : Cpu) (s : SpinSt) : SpinSt := mkSpin c (daif s) (locks s).
Definition set_daif (d : Z) (s : SpinSt) : SpinSt := mkSpin (the_cpu s) d (locks s).
Definition set_lock (l : nat) (k : Lock) (s : SpinSt) : SpinSt :=
  mkSpin (the_cpu s) (daif s) (<[l := k]> (locks s)).

(** ** [arch.rs]: the mask

    [mrs daif] has the mask bits at 9..6, debug, error, interrupt and fast
    interrupt; [daifset] and [daifclr] take them as a four-bit immediate. *)
Definition I_BIT : Z := 2.
Definition r_pstate_daif : M SpinSt Z := gets (λ s, Z.shiftr (daif s) 6).
Definition pstate_i_set : M SpinSt unit := modify (λ s, set_daif (Z.lor (daif s) (Z.shiftl I_BIT 6)) s).
Definition pstate_i_clr : M SpinSt unit :=
  modify (λ s, set_daif (Z.land (daif s) (wnot 64 (Z.shiftl I_BIT 6))) s).

(** ** [Cpu] *)
Definition disable_intr : M SpinSt unit :=
  let! s := get in
  (if int_disables (the_cpu s) =? 0 then
     let! d := r_pstate_daif in
     modify (λ s, set_cpu (mkCpu (Z.lor d 2 =? 0) (int_disables (the_cpu s))) s) ;;;
     pstate_i_set
   else ret tt) ;;;
  modify (λ s, set_cpu (mkCpu (int_enable (the_cpu s)) (wadd 32 (int_disables (the_cpu s)) 1)) s).

Definition enable_intr : M SpinSt unit :=
  let! s := get in
  (if (int_disables (the_cpu s) =? 1) && int_enable (the_cpu s) then pstate_i_clr else ret tt) ;;;
  modify (λ s, set_cpu (mkCpu (int_enable (the_cpu s)) (wsub 32 (int_disables (the_cpu s)) 1)) s).

(** ** [Lock] *)
Definition holding (l : nat) : M SpinSt bool :=
  let! s := get in
  let! k := unwrap (locks s !! l) in
  ret (bool_decide (l_cpu k = Some cpuid) && locked k).

(** The loop on [compare_exchange_weak], which may fail for no reason: [weak]
    is how often it does before it looks at the flag. *)
Fixpoint spin (fuel weak l : nat) : M SpinSt unit :=
  match fuel with
  | O => fail FFuel
  | S fuel' =>
      let! s := get in
      let! k := unwrap (locks s !! l) in
      match weak with
      | S weak' => spin fuel' weak' l
      | O => if locked k then spin fuel' 0 l else modify (set_lock l (mkLock (l_cpu k) true))
      end
  end.

Definition acquire (fuel weak l : nat) : M SpinSt unit :=
  let! h := holding l in
  assert_ (negb h) ;;;
  disable_intr ;;;
  spin fuel weak l ;;;
  let! s := get in
  let! k := unwrap (locks s !! l) in
  modify (set_lock l (mkLock (Some cpuid) (locked k))).

(** Also what dropping a [LockGuard] does. *)
Definition release (l : nat) : M SpinSt unit :=
  let! h := holding l in
  assert_ h ;;;
  let! s := get in
  let! k := unwrap (locks s !! l) in
  modify (set_lock l (mkLock (l_cpu k) false)) ;;;
  modify (set_lock l (mkLock None false)) ;;;
  enable_intr.

(** ** The protocol *)
Definition held (k : Lock) : bool := locked k.
Definition nheld (s : SpinSt) : nat := length (filter (λ k, held k = true) (locks s)).

(** What may happen on the processor, in any order: locks are taken and given
    back, an exception masks interrupts, an exception return or the idle loop
    of [scheduler] unmasks them. *)
Inductive event :=
  | Acquire (weak l : nat)
  | Release (l : nat)
  | Mask
  | Unmask.

Definition run_event (e : event) : M SpinSt unit :=
  match e with
  | Acquire weak l => acquire (S weak) weak l
  | Release l => release l
  | Mask => pstate_i_set
  | Unmask => pstate_i_clr
  end.

Definition boot (d : Z) (n : nat) : SpinSt := mkSpin CPUS d (replicate n lock_new).

(** Whether interrupts are masked. *)
Definition masked (s : SpinSt) : bool := Z.testbit (daif s) 7.

Definition sound (k : Lock) : Prop := k = lock_new ∨ k = mkLock (Some cpuid) true.

Record locks_ok (s : SpinSt) : Prop := {
  lo_sound : Forall sound (locks s);
  lo_count : int_disables (the_cpu s) = Z.of_nat (nheld s);
  lo_enable : int_enable (the_cpu s) = false;
}.

Section proofs.
Implicit Types (s : SpinSt) (l : nat).

Lemma sound_cases s l k :
  Forall sound (locks s) → locks s !! l = Some k → (held k = false ∧ k = lock_new) ∨ (held k = true ∧ k = mkLock (Some cpuid) true).
Proof. intros HF Hl. destruct (Forall_lookup_1 _ _ _ _ HF Hl); subst; auto. Qed.

Lemma nheld_set (L : list Lock) l k k' :
  L !! l = Some k →
  (length (filter (λ k, held k = true) (<[l := k']> L)) + (if held k then 1 else 0) =
   length (filter (λ k, held k = true) L) + (if held k' then 1 else 0))%nat.
Proof.
  intros Hl. rewrite insert_take_drop by by eapply lookup_lt_Some.
  rewrite <- (take_drop_middle L l k Hl) at 3.
  rewrite !filter_app, !filter_cons, !length_app.
  destruct (held k), (held k'); repeat case_decide; simpl; done || lia.
Qed.

Lemma nheld_le s : (nheld s ≤ length (locks s))%nat.
Proof. apply length_filter. Qed.

Lemma disable_intr_run s :
  ∃ d', disable_intr s = Done (tt, mkSpin (mkCpu (if int_disables (the_cpu s) =? 0 then false else int_enable (the_cpu s))
      (wadd 32 (int_disables (the_cpu s)) 1)) d' (locks s)) ∧
    d' = if int_disables (the_cpu s) =? 0 then Z.lor (daif s) (Z.shiftl I_BIT 6) else daif s.
Proof.
  eexists. split; [|reflexivity]. unfold disable_intr. mred.
  destruct (int_disables (the_cpu s) =? 0); [|by destruct s]. simpl.
  replace (Z.lor (Z.shiftr (daif s) 6) 2 =? 0) with false; [done|]. symmetry. apply Z.eqb_neq. intros E.
  apply Z.lor_eq_0_iff in E. lia.
Qed.

Lemma spin_run weak : ∀ s l,
  locks s !! l = Some lock_new → spin (S weak) weak l s = Done (tt, set_lock l (mkLock None true) s).
Proof.
  induction weak as [|weak IH]; intros s l Hl; cbn [spin]; mred; rewrite Hl; [done|]. by apply IH.
Qed.

Lemma holding_run s l k :
  locks s !! l = Some k → holding l s = Done (bool_decide (l_cpu k = Some cpuid) && locked k, s).
Proof. intros Hl. unfold holding. mred. by rewrite Hl. Qed.

(** [acquire] of a free lock. *)
Lemma acquire_run weak s l :
  locks s !! l = Some lock_new →
  acquire (S weak) weak l s =
    Done (tt, mkSpin (mkCpu (if int_disables (the_cpu s) =? 0 then false else int_enable (the_cpu s))
                            (wadd 32 (int_disables (the_cpu s)) 1))
                     (if int_disables (the_cpu s) =? 0 then Z.lor (daif s) (Z.shiftl I_BIT 6) else daif s)
                     (<[l := mkLock (Some cpuid) true]> (locks s))).
Proof.
  intros Hl. destruct (disable_intr_run s) as (d' & E & ->). unfold acquire.
  mrun (holding_run s l _ Hl). simpl negb. mstep. mrun E. erewrite bind_Done by (apply spin_run; exact Hl). mstep. simpl locks.
  rewrite list_lookup_insert_eq by by eapply lookup_lt_Some. mstep. unfold modify, set_lock. simpl.
  by rewrite list_insert_insert_eq.
Qed.

Lemma acquire_held fuel weak s l :
  locks s !! l = Some (mkLock (Some cpuid) true) → acquire fuel weak l s = Fault FPanic.
Proof. intros Hl. unfold acquire, holding. mred. by rewrite Hl. Qed.

Lemma release_run s l :
  locks s !! l = Some (mkLock (Some cpuid) true) →
  release l s =
    Done (tt, mkSpin (mkCpu (int_enable (the_cpu s)) (wsub 32 (int_disables (the_cpu s)) 1))
                     (if (int_disables (the_cpu s) =? 1) && int_enable (the_cpu s)
                      then Z.land (daif s) (wnot 64 (Z.shiftl I_BIT 6)) else daif s)
                     (<[l := lock_new]> (locks s))).
Proof.
  intros Hl. unfold release. mrun (holding_run s l _ Hl). simpl (_ && _).
  mstep. mstep. rewrite Hl. mstep. unfold enable_intr. mred.
  destruct (_ && _); simpl; unfold set_lock; simpl; by rewrite list_insert_insert_eq.
Qed.

Lemma release_free s l : locks s !! l = Some lock_new → release l s = Fault FPanic.
Proof. intros Hl. unfold release, holding. mred. by rewrite Hl. Qed.

Lemma run_event_ok e s s' :
  Z.of_nat (length (locks s)) < 2 ^ 32 → locks_ok s → run_event e s = Done (tt, s') →
  locks_ok s' ∧ length (locks s') = length (locks s) ∧ (e ≠ Unmask → masked s = true → masked s' = true) ∧
  (nheld s = 0%nat → nheld s' ≠ 0%nat → masked s' = true).
Proof.
  intros Hn [H1 H2 H3] E. pose proof (nheld_le s) as Hle.
  destruct e as [weak l|l| |].
  - simpl in E. destruct (locks s !! l) as [k|] eqn:Hl;
      [|unfold acquire, holding in E; mred; by rewrite Hl in E].
    destruct (sound_cases s l k H1 Hl) as [[Hk ->]|[Hk ->]]; [|by rewrite acquire_held in E].
    rewrite acquire_run in E by done. injection E as <-. rewrite H2, H3.
    pose proof (nheld_set (locks s) l _ (mkLock (Some cpuid) true) Hl) as Hc. simpl in Hc.
    pose proof (length_filter (λ k, held k = true) (<[l := mkLock (Some cpuid) true]> (locks s))) as Hlf.
    rewrite length_insert in Hlf. unfold nheld in *. split_and!.
    + split; simpl.
      * apply Forall_insert; [done|]. by right.
      * unfold nheld. simpl. rewrite wadd_small by lia. lia.
      * by destruct (_ =? _).
    + simpl. apply length_insert.
    + intros _ Hm. unfold masked in *. cbn [daif set_daif]. destruct (_ =? _); [|done]. by rewrite Z.lor_spec, Hm.
    + intros H0 _. unfold masked. cbn [daif]. rewrite H0. change (Z.of_nat 0 =? 0) with true. cbv iota.
      rewrite Z.lor_spec. change (Z.testbit (Z.shiftl I_BIT 6) 7) with true. apply orb_true_r.
  - simpl in E. destruct (locks s !! l) as [k|] eqn:Hl;
      [|unfold release, holding in E; mred; by rewrite Hl in E].
    destruct (sound_cases s l k H1 Hl) as [[Hk ->]|[Hk ->]]; [by rewrite release_free in E|].
    rewrite release_run in E by done. injection E as <-. rewrite H2, H3, andb_false_r.
    pose proof (nheld_set (locks s) l _ lock_new Hl) as Hc. simpl in Hc. unfold nheld in *. split_and!.
    + split; simpl; [| |done].
      * apply Forall_insert; [done|]. by left.
      * unfold nheld. simpl. rewrite wsub_small by lia. lia.
    + simpl. apply length_insert.
    + done.
    + simpl. lia.
  - injection E as <-. split_and!; [by split|done| |done]. intros _ Hm. unfold masked in *. cbn [daif set_daif].
    by rewrite Z.lor_spec, Hm.
  - injection E as <-. by split_and!; [split| | |].
Qed.

(** States reached from boot. *)
Inductive reach (d : Z) (n : nat) : list event → SpinSt → Prop :=
  | reach_boot : reach d n [] (boot d n)
  | reach_event es e s s' : reach d n es s → run_event e s = Done (tt, s') → reach d n (es ++ [e]) s'.

Lemma boot_ok d n : locks_ok (boot d n).
Proof.
  assert (filter (λ k, held k = true) (replicate n lock_new) = []) as E by by induction n.
  split; simpl; [|unfold nheld; simpl; by rewrite E|done]. apply Forall_replicate. by left.
Qed.

Lemma reach_ok d n es s : Z.of_nat n < 2 ^ 32 → reach d n es s → locks_ok s ∧ length (locks s) = n.
Proof.
  intros Hn. induction 1 as [|es e s s' Hr [IH1 IH2] E].
  - split; [apply boot_ok|apply length_replicate].
  - destruct (run_event_ok e s s') as (H1 & H2 & _); [by rewrite IH2|done..|]. split; congruence.
Qed.

Lemma reach_run d n es0 es : ∀ s s', reach d n es0 s → forM es run_event s = Done (tt, s') → reach d n (es0 ++ es) s'.
Proof.
  revert es0. induction es as [|e es IH]; intros es0 s s' Hr; simpl.
  - intros [= <-]. by rewrite app_nil_r.
  - unfold bind. destruct (run_event e s) as [[[] s1]|] eqn:E; [|done]. intros E'.
    rewrite cons_middle, app_assoc. eapply IH; [by eapply reach_event|done].
Qed.
End proofs.

(** C23: locks on the one processor.  In every state reached from boot, whatever
    the order of acquisitions, releases, exceptions and returns, [int_disables]
    is the number of locks that are held; taking a free lock ends and takes
    just that one, also when the exchange fails for no reason; taking a lock
    again, which would spin for ever, panics, and so does giving back a free
    one; while a lock is held nothing but an explicit unmasking lets interrupts in. *)
Theorem locks_counted (d : Z) (n : nat) (es : list event) (s : SpinSt) (l weak : nat) :
  Z.of_nat n < 2 ^ 32 → reach d n es s → (l < n)%nat →
  int_disables (the_cpu s) = Z.of_nat (nheld s) ∧
  match locks s !! l with
  | Some k =>
      if locked k then
        acquire (S weak) weak l s = Fault FPanic ∧
        ∃ s', release l s = Done (tt, s') ∧ nheld s = S (nheld s') ∧ masked s' = masked s
      else
        release l s = Fault FPanic ∧
        ∃ s', acquire (S weak) weak l s = Done (tt, s') ∧ nheld s' = S (nheld s) ∧
          locks s' = <[l := mkLock (Some cpuid) true]> (locks s) ∧
          (nheld s = 0%nat ∨ masked s = true → masked s' = true)
  | None => False
  end.
Proof.
  intros Hn Hr Hl. destruct (reach_ok d n es s Hn Hr) as [Hok Hlen]. pose proof Hok as [H1 H2 H3].
  split; [done|]. destruct (lookup_lt_is_Some_2 (locks s) l) as [k Hk]; [lia|]. rewrite Hk.
  destruct (sound_cases s l k H1 Hk) as [[Hf ->]|[Hf ->]]; simpl.
  - split; [by apply release_free|]. pose proof (acquire_run weak s l Hk) as E.
    pose proof (nheld_set (locks s) l _ (mkLock (Some cpuid) true) Hk) as Hc. simpl in Hc.
    eexists. split; [exact E|]. split_and!; [unfold nheld; simpl; lia|done|].
    destruct (run_event_ok (Acquire weak l) s _ ltac:(by rewrite Hlen) Hok E) as (_ & _ & Hm & H0).
    intros [Hz|Hz]; [|by apply Hm]. apply H0; [done|]. unfold nheld in *. simpl. lia.
  - split; [by apply acquire_held|]. rewrite (release_run s l Hk), H3, andb_false_r.
    pose proof (nheld_set (locks s) l _ lock_new Hk) as Hc. simpl in Hc.
    eexists. split; [done|]. split; [unfold nheld; simpl; lia|done].
Qed.

Lemma locks_counted_witness :
  let es := [Unmask; Acquire 2 0; Acquire 0 1; Release 0] in
  ∃ s, reach 0 3 es s ∧ int_disables (the_cpu s) = 1 ∧ acquire 1 0 1 s = Fault FPanic.
Proof.
  eexists. assert (reach 0 3 [Unmask; Acquire 2 0; Acquire 0 1; Release 0]
    (mkSpin (mkCpu false 1) 128 [lock_new; mkLock (Some 0%nat) true; lock_new])) as Hr.
  { eapply (reach_run 0 3 []); [apply reach_boot|vm_compute; reflexivity]. }
  split; [exact Hr|].
  destruct (locks_counted 0 3 _ _ 1 0 ltac:(done) Hr ltac:(lia)) as [H1 [H2 _]].
  split; [exact H1|exact H2].
Defined.

(** Interrupts are not restored.  Giving back the outermost lock is meant to
    put the mask back to what it was before the lock was taken; the test for
    "was unmasked" ors the mask bit in instead of selecting it, so it never
    holds: a lock taken and given back with interrupts on leaves them off, and
    in no reachable state does a release clear the mask. *)
Theorem release_keeps_mask (d : Z) (n : nat) (es : list event) (s : SpinSt) (l : nat) :
  Z.of_nat n < 2 ^ 32 → reach d n es s → locks s !! l = Some lock_new → nheld s = 0%nat →
  ∃ s1 s2, acquire 1 0 l s = Done (tt, s1) ∧ release l s1 = Done (tt, s2) ∧
    locks s2 = locks s ∧ nheld s2 = 0%nat ∧ masked s2 = true.
Proof.
  intros Hn Hr Hl H0. destruct (reach_ok d n es s Hn Hr) as [[H1 H2 H3] Hlen].
  pose proof (acquire_run 0 s l Hl) as E. rewrite H2, H0 in E. change (Z.of_nat 0 =? 0) with true in E. cbv iota in E.
  eexists _, _. split; [exact E|]. rewrite release_run by (simpl; apply list_lookup_insert_eq; by eapply lookup_lt_Some).
  split; [reflexivity|]. simpl. rewrite list_insert_insert_eq, list_insert_id by done. rewrite ?andb_false_r.
  split_and!; [done|by unfold nheld in *|]. unfold masked. cbn [daif]. rewrite Z.lor_spec.
  change (Z.testbit (Z.shiftl I_BIT 6) 7) with true. apply orb_true_r.
Qed.

Lemma release_keeps_mask_witness :
  ∃ s1 s2, masked (boot 0 2) = false ∧ acquire 1 0 1 (boot 0 2) = Done (tt, s1) ∧ release 1 s1 = Done (tt, s2) ∧
    masked s2 = true.
Proof.
  destruct (release_keeps_mask 0 2 [] (boot 0 2) 1) as (s1 & s2 & E1 & E2 & _ & _ & Hm);
    [done|apply reach_boot|reflexivity..|].
  exists s1, s2. by split_and!.
Defined.
