(* ===== verification/Handoff.v ===== *)
(** * Handing the processor over: [sched()], [scheduler] and the locks

    A task that gives up the processor takes its own lock, gives back the lock
    it was called with, and calls [sched()]; the loop of [scheduler] gives the
    lock of the task back.  When the task is chosen again, [scheduler] takes the
    lock, and the task, coming out of [sched()], takes the other lock again and
    gives its own back.  So a lock is taken on one side of a switch and given
    back on the other, and the assertions in [sched()] and in [Lock] hold only
    if both sides agree.  This file has the two sides as code, with the locks of
    [Spin] as their state; the locks of the tasks are the first [NTASKS].

    A function that calls [sched()] is cut there: what comes before, up to the
    switch, and what comes after, which is kept as the continuation ([cont]) of
    the task.  What a task computes between is the order of the actions. *)
From S2P Require Import Prelude Kst Spin.

Local Open Scope Z_scope.

(** Where the saved context of a task continues. *)
Inductive cont :=
  | Nowhere                (* it has none: free, running or ended *)
  | AtForkret
  | InSleep (lk : nat)
  | InWqSleep (lk : nat)
  | InSleepIf
  | InYild.

Record HTask := mkHTask { h_state : State; h_chan : option Z; h_cont : cont }.

Record HSt := mkH { h_spin : SpinSt; h_tasks : list HTask; h_idx : option nat }.

Definition HM := M HSt.

Definition on_spin {A} (m : M SpinSt A) : HM A := λ s,
  match m (h_spin s) with Done (a, p) => Done (a, mkH p (h_tasks s) (h_idx s)) | Fault e => Fault e end.

Definition htask (i : nat) : HM HTask := let! s := get in unwrap (h_tasks s !! i).
Definition upd_htask (i : nat) (f : HTask → HTask) : HM unit :=
  modify (λ s, mkH (h_spin s) (alter f i (h_tasks s)) (h_idx s)).
Definition set_idx (o : option nat) : HM unit := modify (λ s, mkH (h_spin s) (h_tasks s) o).

Definition hstate (st : State) (t : HTask) : HTask := mkHTask st (h_chan t) (h_cont t).
Definition hchan (c : option Z) (t : HTask) : HTask := mkHTask (h_state t) c (h_cont t).
Definition hcont (c : cont) (t : HTask) : HTask := mkHTask (h_state t) (h_chan t) c.

(** The compare-and-exchange succeeds at once; a lock that is held is not waited for. *)
Definition acq (l : nat) : HM unit := on_spin (acquire 1 0 l).
Definition rel (l : nat) : HM unit := on_spin (release l).

(** [Cpu::get_task] *)
Definition get_task : HM (option nat) :=
  on_spin disable_intr ;;;
  let! o := gets h_idx in
  on_spin enable_intr ;;;
  ret o.

Definition my_task : HM nat := let! o := get_task in unwrap o.

(** [sched()] up to the switch.  What follows the switch in [sched()] loads
    [ttbr0] ([Exec.restore_ttbr0]) and assigns [int_enable] to itself; neither
    is part of this state. *)
Definition sched : HM unit :=
  let! i := my_task in
  let! s := get in
  assert_ (int_disables (the_cpu (h_spin s)) =? 1) ;;;
  let! h := on_spin (holding i) in
  assert_ h ;;;
  let! t := htask i in
  assert_ (bool_decide (h_state t ≠ Running)).

(** [scheduler] after the switch: the rest of the turn of task [i]. *)
Definition scheduler_back (i : nat) : HM unit :=
  set_idx None ;;;
  rel i.

(** The switch itself, from a task to [scheduler]. *)
Definition switch_out (i : nat) (c : cont) : HM unit :=
  sched ;;;
  upd_htask i (hcont c) ;;;
  scheduler_back i.

(** ** Giving up the processor *)
Definition sleep (chan : Z) (lk : nat) : HM unit :=
  let! i := my_task in
  acq i ;;;
  rel lk ;;;
  upd_htask i (λ t, hchan (Some chan) (hstate Sleeping t)) ;;;
  switch_out i (InSleep lk).

(** [listed]: whether [Wq::add] finds the task in the queue; [w] is its lock. *)
Definition wq_sleep (listed : bool) (w lk : nat) : HM unit :=
  let! i := my_task in
  (if listed then ret tt else acq w ;;; rel w) ;;;
  acq i ;;;
  rel lk ;;;
  upd_htask i (λ t, hchan None (hstate Sleeping t)) ;;;
  switch_out i (InWqSleep lk).

(** [cond] is the answer of the closure. *)
Definition sleep_if (cond : bool) : HM unit :=
  let! i := my_task in
  acq i ;;;
  if negb cond then rel i
  else
    upd_htask i (λ t, hchan None (hstate Sleeping t)) ;;;
    switch_out i InSleepIf.

Definition yild : HM unit :=
  let! i := my_task in
  acq i ;;;
  upd_htask i (hstate Ready) ;;;
  switch_out i InYild.

Definition wake_if (P : HTask → bool) (i : nat) : HM unit :=
  acq i ;;;
  let! t := htask i in
  (if bool_decide (h_state t = Sleeping) && P t then upd_htask i (hstate Ready) else ret tt) ;;;
  rel i.
Definition on_chan (chan : Z) (t : HTask) : bool := bool_decide (h_chan t = Some chan).
Definition wakeup (chan : Z) : HM unit :=
  let! s := get in forM (seq 0 (length (h_tasks s))) (wake_if (on_chan chan)).

(** [Wq::wake_all] of the queue with the lock [w] and the tasks [listed]. *)
Definition wake_all (w : nat) (listed : list nat) : HM unit :=
  acq w ;;;
  forM listed (wake_if (λ _, true)) ;;;
  rel w.

(** [exit]: the end of [free_task] and [sched()]; [wt] is the lock [WAIT]. *)
Definition exit (parent : option Z) (wt : nat) : HM unit :=
  let! i := my_task in
  acq wt ;;;
  match parent with Some p => wakeup p | None => ret tt end ;;;
  acq i ;;;
  upd_htask i (hstate Zombie) ;;;
  rel wt ;;;
  switch_out i Nowhere.

(** ** Getting it *)

(** What the context of a task does once [scheduler] has switched to it. *)
Definition resume (i : nat) (c : cont) : HM unit :=
  match c with
  | Nowhere => fail FUB
  | AtForkret => let! j := my_task in rel j
  | InSleep lk => upd_htask i (hchan None) ;;; acq lk ;;; rel i
  | InWqSleep lk => acq lk ;;; rel i
  | InSleepIf => upd_htask i (hchan None) ;;; rel i
  | InYild => rel i
  end.

(** The turn of task [i] in the loop of [scheduler]. *)
Definition turn (i : nat) : HM unit :=
  acq i ;;;
  let! t := htask i in
  match h_state t with
  | Ready =>
      upd_htask i (hstate Running) ;;;
      set_idx (Some i) ;;;
      upd_htask i (hcont Nowhere) ;;;
      resume i (h_cont t)
  | _ => rel i
  end.

(** [alloc_user_task]: the lock of the task that was found stays held. *)
Fixpoint alloc_scan (is_ : list nat) : HM (option nat) :=
  match is_ with
  | [] => ret None
  | i :: is' =>
      acq i ;;;
      let! t := htask i in
      match h_state t with
      | Free => upd_htask i (λ t, hcont AtForkret (hstate Used t)) ;;; ret (Some i)
      | _ => rel i ;;; alloc_scan is'
      end
  end.
Definition alloc_user_task : HM (option nat) :=
  let! s := get in alloc_scan (seq 0 (length (h_tasks s))).

(** [fork], as far as locks and states go. *)
Definition fork (wt : nat) : HM unit :=
  let! o := alloc_user_task in
  match o with
  | Some c =>
      let! h := on_spin (holding c) in
      assert_ h ;;;
      upd_htask c (hstate Ready) ;;;
      acq wt ;;; rel wt ;;;
      rel c
  | None => ret tt
  end.

(** An interrupt handler: a lock of a driver, and a wake-up under it. *)
Definition irq (l : nat) (chan : Z) : HM unit := acq l ;;; wakeup chan ;;; rel l.

(** ** Actions *)
Inductive action :=
  | ALock (l : nat)
  | AUnlock (l : nat)
  | ASleep (chan : Z) (lk : nat)
  | AWqSleep (listed : bool) (w lk : nat)
  | ASleepIf (cond : bool)
  | AYild
  | AExit (parent : option Z) (wt : nat)
  | AFork (wt : nat)
  | AWakeup (chan : Z)
  | AWakeAll (w : nat) (listed : list nat)
  | AIrq (l : nat) (chan : Z)
  | ATurn (i : nat).

Definition act (a : action) : HM unit :=
  match a with
  | ALock l => acq l
  | AUnlock l => rel l
  | ASleep chan lk => sleep chan lk
  | AWqSleep listed w lk => wq_sleep listed w lk
  | ASleepIf cond => sleep_if cond
  | AYild => yild
  | AExit parent wt => exit parent wt
  | AFork wt => fork wt
  | AWakeup chan => wakeup chan
  | AWakeAll w listed => wake_all w listed
  | AIrq l chan => irq l chan
  | ATurn i => turn i
  end.

(** At start-up: the lock of the first task is given back, and it is ready. *)
Definition first_task : HTask := mkHTask Ready None AtForkret.
Definition free_htask : HTask := mkHTask Free None Nowhere.
Definition start (d : Z) (n : nat) : HSt :=
  mkH (boot d (NTASKS + n)) (first_task :: replicate (NTASKS - 1) free_htask) None.
