(* ===== verification/Umem.v ===== *)
(** * [sched.rs]: the memory of a task, as code

    A task has a tree of page tables ([user_pt]), a stack of two frames
    ([user_sp]) and regions: the segments of its program, its heap ([brk]) and
    its anonymous mappings ([mmap]).  [fork] shares the frames of the regions
    read-only and copies the stack; a write fault makes a private copy.

    Frames are used through [FrameOps] (single frames, for tables) and
    [ShareOps] (blocks of any size, with reference counts), both implemented by
    [pm.rs].  The kernel reaches user memory through the hardware walk
    ([translate]) of the current tables, and a write that the entry forbids
    ends in [dabt_handler], as for a task. *)
From S2P Require Import Prelude Stuff Pm Vm VmInv VmTree.

Local Open Scope Z_scope.

(** ** Regions *)
Inductive RegionType := RProgram | RStack | RBrk | RMmap.

Definition REGION_MAX_SZ : Z := GB.
Definition SPEL0_SIZE : Z := 4096 * 2.
Definition PF_R : Z := 4.
Definition PF_W : Z := 2.
Definition PF_X : Z := 1.

Record URegion := mkUR {
  ty : RegionType;
  u_vaddr : Z;
  cap : Z;
  u_len : Z;
  u_flags : Z;
  granule : Z;
}.

Definition popcount (n : Z) : Z := Z.of_nat (length (filter (λ i, Z.testbit n i = true) (seqZ 0 64))).

Definition calc_granule (block_size : Z) : outcome Z :=
  if negb (popcount block_size =? 1) then Fault FPanic
  else if negb ((4096 <=? block_size) && (block_size <=? MB)) then Fault FPanic
  else Done (wrap 8 (block_size / 4096 - 1)).

Definition blksize2 (granule : Z) : Z := wshl 64 4096 granule.
Definition blksize (r : URegion) : Z := blksize2 (granule r).
Definition has (r : URegion) (v : Z) : bool := (u_vaddr r <=? v) && (v <? u_vaddr r +! u_len r).
Definition ur_end (r : URegion) : Z := u_len r +! u_vaddr r.

Definition set_len (n : Z) (r : URegion) : URegion := mkUR (ty r) (u_vaddr r) (cap r) n (u_flags r) (granule r).

(** [Region::alloc]. *)
Definition ur_alloc (r : URegion) (sz : Z) : outcome (option Z * URegion) :=
  if negb (sz mod blksize r =? 0) then Fault FPanic
  else if u_vaddr r +! REGION_MAX_SZ <? u_len r +! sz then Done (None, r)
  else Done (Some (u_vaddr r +! u_len r), set_len (u_len r +! sz) r).

(** What [Task] holds of memory. *)
Record Mm := mkMm {
  user_pt : option Z;
  user_sp : option Z;
  program : list URegion;
  mmap_r : URegion;
  brk_r : URegion;
  spel0 : URegion;
}.

Definition mm_zeroed : Mm :=
  mkMm None None [] (mkUR RMmap GB REGION_MAX_SZ 0 (Z.lor PF_R PF_W) 0)
    (mkUR RBrk (2 * GB) REGION_MAX_SZ 0 (Z.lor PF_R PF_W) 0)
    (mkUR RStack (8 * GB) SPEL0_SIZE SPEL0_SIZE (Z.lor PF_R PF_W) 1).

Definition with_pt (pt sp : option Z) (m : Mm) : Mm := mkMm pt sp (program m) (mmap_r m) (brk_r m) (spel0 m).
Definition with_program (p : list URegion) (m : Mm) : Mm := mkMm (user_pt m) (user_sp m) p (mmap_r m) (brk_r m) (spel0 m).
Definition with_mmap (r : URegion) (m : Mm) : Mm := mkMm (user_pt m) (user_sp m) (program m) r (brk_r m) (spel0 m).
Definition with_brk (r : URegion) (m : Mm) : Mm := mkMm (user_pt m) (user_sp m) (program m) (mmap_r m) r (spel0 m).

(** [find_region]: an address in the mappings gives the region of the heap. *)
Definition find_region (m : Mm) (v : Z) : option URegion :=
  if has (brk_r m) v then Some (brk_r m)
  else if has (mmap_r m) v then Some (brk_r m)
  else list_find (λ r, has r v = true) (program m) ≫= λ x, Some x.2.

(** ** The page allocator, with blocks and sharing

    [sh_cow p len] is the decision of [cow_action]: what to do about a shared
    block, if it is one. *)
Class ShareOps (F : Type) := {
  sh_alloc : Z → M F (option Z);
  sh_free : Z → Z → M F unit;
  sh_dup : Z → Z → M F bool;
  sh_cow : Z → Z → M F (option CowAction);
}.

Section umem.
Context {im : Image} {F : Type} {fo : FrameOps F} {so : ShareOps F}.
Notation VM := (VM F).

Definition unwrap_r {A E} (r : E + A) : VM A := match r with inr a => ret a | inl _ => panic end.

(** [let l0_pt = PmWrap::new(pt, PR_PW, false).unwrap();] and its drop. *)
Definition with_table {A} (pt : Z) (k : Slice → VM A) : VM A :=
  let! r := pm_wrap_new pt PR_PW false in
  let! w := unwrap_r r in
  let! a := k (Win w) in
  pm_wrap_drop w ;;;
  ret a.

(** ** Mapping runs of pages *)
Definition no_cb : Slice → VM unit := λ _, ret tt.

Fixpoint umap_loop (l : list Z) (l0_pt : Slice) (v p perms : Z) : VM (Error + unit) :=
  match l with
  | [] => ret (inr tt)
  | i :: l' =>
      let! r := map_v2p_4k_inner l0_pt (v +! 4096 *! i) (p +! 4096 *! i) perms false no_cb in
      match r with inl e => ret (inl e) | inr _ => umap_loop l' l0_pt v p perms end
  end.
Definition umap (l0_pt : Slice) (v p n perms : Z) : VM (Error + Z) :=
  let! r := umap_loop (range 0 n) l0_pt v p perms in
  ret (match r with inl e => inl e | inr _ => inr v end).

Fixpoint uunmap_loop (l : list Z) (l0_pt : Slice) (v : Z) : VM (Error + unit) :=
  match l with
  | [] => ret (inr tt)
  | i :: l' =>
      let! r := unmap_4k_inner l0_pt (v +! 4096 *! i) in
      match r with inl e => ret (inl e) | inr _ => uunmap_loop l' l0_pt v end
  end.
Definition uunmap (l0_pt : Slice) (v n : Z) : VM (Error + unit) := uunmap_loop (range 0 n) l0_pt v.

(** The loop goes on over pages that were mapped and stops at the first that was not. *)
Fixpoint map_ovwr_loop (l : list Z) (l0_pt : Slice) (v p perms : Z) : VM (Error + Z) :=
  match l with
  | [] => ret (inr v)
  | i :: l' =>
      let! r := map_v2p_4k_inner l0_pt (v +! 4096 *! i) (p +! 4096 *! i) perms true no_cb in
      match r with
      | inl (EExists _) => map_ovwr_loop l' l0_pt v p perms
      | e => ret e
      end
  end.
Definition map_ovwr (l0_pt : Slice) (v p n perms : Z) : VM (Error + Z) :=
  map_ovwr_loop (range 0 n) l0_pt v p perms.

(** [*ptr = ( *ptr & PHY_MASK) | perms | 0x403] on a leaf entry. *)
Definition set_perms (perms : Z) (sl : Slice) (i : Z) : VM unit :=
  let! e := pt_get sl i in
  pt_set sl i (Z.lor (Z.lor (Z.land e PHY_MASK) perms) 0x403).

Definition map_chg_perms (l0_pt : Slice) (v n perms : Z) : VM (Error + Z) :=
  forM (range 0 n) (λ i,
    let! r := v2p_pt l0_pt (v +! 4096 *! i) (Some (set_perms perms)) in
    let! _ := unwrap_r r in ret tt) ;;;
  ret (inr v).

(** [v2p_pt] with a closure that captures a result. *)
Definition v2p_cb {A} (l0_pt : Slice) (v : Z) (cb : Slice → Z → VM A) : VM (Error + A) :=
  let! r := walk_to_l3 l0_pt v in
  match r with
  | inl e => ret (inl e)
  | inr l3_pt =>
      let! a := cb (Win l3_pt) (vaddr_l3 v) in
      let! _ := pt_get (Win l3_pt) (vaddr_l3 v) in
      pm_wrap_drop l3_pt ;;;
      ret (inr a)
  end.

(** ** Copying frames *)
Definition copy_slice (to from : Slice) : VM unit :=
  forM (range 0 512) (λ i, let! x := pt_get from i in pt_set to i x).

Fixpoint copy_loop (l : list Z) (from_pm to_pm : Z) : VM (unit + unit) :=
  match l with
  | [] => ret (inr tt)
  | i :: l' =>
      let! r1 := pm_wrap_new (to_pm +! 4096 *! i) PR_PW true in
      match r1 with
      | inl _ => ret (inl tt)
      | inr to =>
          let! r2 := pm_wrap_new (from_pm +! 4096 *! i) PR false in
          match r2 with
          | inl _ => pm_wrap_drop to ;;; ret (inl tt)
          | inr from =>
              copy_slice (Win to) (Win from) ;;;
              pm_wrap_drop from ;;; pm_wrap_drop to ;;;
              copy_loop l' from_pm to_pm
          end
      end
  end.
Definition copy_pm (from_pm to_pm n : Z) : VM (unit + unit) := copy_loop (range 0 n) from_pm to_pm.

(** ** Sharing and releasing regions *)
Definition clone_flags (f : Z) : VM Z :=
  if f =? Z.lor PF_R PF_X then ret PR_UR_UX
  else if f =? Z.lor PF_R PF_W then ret PR_UR
  else if f =? PF_R then ret PR_UR
  else panic.

Definition clone_block (flags : Z) (region : URegion) (from_pt to_pt : Slice) (i : Z) : VM unit :=
  let vm := u_vaddr region +! i *! blksize region in
  let! r := v2p_pt from_pt vm (Some (set_perms flags)) in
  let! pm := unwrap_r r in
  let! ok := on_frames (sh_dup pm (blksize region)) in
  assert_ ok ;;;
  let pages := blksize region / 4096 in
  let! r := umap to_pt vm pm pages flags in
  let! _ := unwrap_r r in
  forM (range 1 pages) (λ j,
    let! r := v2p_pt from_pt (vm +! 4096 *! j) (Some (set_perms flags)) in
    let! _ := unwrap_r r in ret tt).

Definition clone_region (region : URegion) (from_pt to_pt : Slice) : VM unit :=
  assert_ ((u_vaddr region mod 4096 =? 0) && (u_len region mod 4096 =? 0)) ;;;
  assert_ (u_len region mod blksize region =? 0) ;;;
  let! flags := clone_flags (u_flags region) in
  forM (range 0 (u_len region / blksize region)) (clone_block flags region from_pt to_pt).

(** [clone_regions]: the new list is what the child's list becomes. *)
Definition clone_regions (from to : list URegion) (from_pt to_pt : Slice) : VM (list URegion) :=
  forM from (λ r, clone_region r from_pt to_pt) ;;;
  ret (to ++ from).

Definition free_block (region : URegion) (l0_pt : Slice) (skip : bool) (i : Z) : VM unit :=
  let v := u_vaddr region +! i *! blksize region in
  let! r := v2p_pt l0_pt v None in
  let! p := unwrap_r r in
  (if skip then ret tt else on_frames (sh_free p (blksize region))) ;;;
  let! r := uunmap l0_pt v (blksize region / 4096) in
  unwrap_r r.

Definition free_region (region : URegion) (l0_pt : Slice) (skip : bool) : VM unit :=
  assert_ (u_len region mod blksize region =? 0) ;;;
  forM (range 0 (u_len region / blksize region)) (free_block region l0_pt skip).

Definition free_regions (rs : list URegion) (l0_pt : Slice) (skip : bool) : VM unit :=
  forM rs (λ r, free_region r l0_pt skip).

(** ** Address spaces *)

(** [init_user], up to the trap frame and the files. *)
Definition init_user (m : Mm) : VM Mm :=
  let! o := on_frames (sh_alloc 4096) in
  let! pt := unwrap o in
  let! r := pm_wrap_new pt PR_PW true in
  let! l0_pt := unwrap_r r in
  let! o := on_frames (sh_alloc SPEL0_SIZE) in
  let! sp := unwrap o in
  let! r := umap (Win l0_pt) (u_vaddr (spel0 m)) sp (u_len (spel0 m) / 4096) PR_PW_UR_UW1 in
  let! _ := unwrap_r r in
  pm_wrap_drop l0_pt ;;;
  ret (with_pt (Some pt) (Some sp) m).

(** What [fork] does to the two address spaces: the child's. *)
Definition fork_mm (pid : Z) (parent child : Mm) : VM Mm :=
  let! ppt := unwrap (user_pt parent) in
  let! r := pm_wrap_new ppt PR_PW false in
  let! from := unwrap_r r in
  let! cpt := unwrap (user_pt child) in
  let! r := pm_wrap_new cpt PR_PW false in
  let! to := unwrap_r r in
  let! prog := clone_regions (program parent) (program child) (Win from) (Win to) in
  clone_region (brk_r parent) (Win from) (Win to) ;;;
  clone_region (mmap_r parent) (Win from) (Win to) ;;;
  let! psp := unwrap (user_sp parent) in
  let! csp := unwrap (user_sp child) in
  let! r := copy_pm psp csp 2 in
  let! _ := unwrap_r r in
  tlbi_aside1 pid ;;;
  pm_wrap_drop to ;;;
  pm_wrap_drop from ;;;
  ret (with_mmap (mmap_r parent) (with_brk (brk_r parent) (with_program prog child))).

(** What [free_task] does to the address space. *)
Definition free_mm (m : Mm) : VM Mm :=
  let! pt := unwrap (user_pt m) in
  with_table pt (λ l0_pt,
    free_regions (program m) l0_pt false ;;;
    free_region (spel0 m) l0_pt false ;;;
    free_region (brk_r m) l0_pt false ;;;
    free_region (mmap_r m) l0_pt false ;;;
    free_pt pt ;;;
    ret (with_mmap (set_len 0 (mmap_r m)) (with_brk (set_len 0 (brk_r m))
          (with_program [] (with_pt (user_pt m) None m))))).

(** ** Faults *)
Definition cow_page (l0_pt : Slice) (region : URegion) (block : Z) (sl : Slice) (i : Z) : VM bool :=
  let! e := pt_get sl i in
  let pm := Z.land e PHY_MASK in
  let n := blksize region / 4096 in
  let! o := on_frames (sh_cow pm (blksize region)) in
  match o with
  | None => ret false
  | Some Remap =>
      let! r := map_ovwr l0_pt block pm n PR_PW_UR_UW1 in
      let! _ := unwrap_r r in ret true
  | Some AllocNew =>
      let! o := on_frames (sh_alloc (blksize region)) in
      let! new_pm := unwrap o in
      let! r := copy_pm pm new_pm n in
      let! _ := unwrap_r r in
      let! r := map_ovwr l0_pt block new_pm n PR_PW_UR_UW1 in
      let! _ := unwrap_r r in ret true
  end.

(** The task is killed by a panic of the kernel when the fault is not one of a shared page. *)
Definition dabt_handler (m : Mm) (far : Z) : VM unit :=
  match find_region m far with
  | Some region =>
      if 0 <? Z.land (u_flags region) PF_W then
        let block := align_b far (blksize region) in
        let! pt := unwrap (user_pt m) in
        let! good := with_table pt (λ l0_pt,
          let! r := v2p_cb l0_pt block (cow_page l0_pt region block) in
          unwrap_r r) in
        assert_ good
      else panic
  | None => panic
  end.

(** ** Zero-filled memory *)

(** The kernel may write through the entry. *)
Definition kwritable (e : Z) : bool := negb (Z.testbit e 7).

(** A store by the kernel of a page of zeroes at [v]; false for an abort. *)
Definition try_zero (pt v : Z) : VM bool :=
  let! s := get in
  match translate s (Z.land pt PHY_MASK) v with
  | Some e => if kwritable e then zero_pt (Phys (Z.land e PHY_MASK)) ;;; ret true else ret false
  | None => ret false
  end.

Definition zero_page (m : Mm) (v : Z) : VM unit :=
  let! pt := unwrap (user_pt m) in
  let! ok := try_zero pt v in
  if ok then ret tt
  else
    dabt_handler m v ;;;
    let! ok := try_zero pt v in
    if ok then ret tt else fail FFuel.

(** New pages for a region: one frame at a time. *)
Definition add_page (l0_pt : Slice) (region perms i : Z) : VM unit :=
  let! o := on_frames (sh_alloc 4096) in
  let! p := unwrap o in
  let! r := umap l0_pt (region +! i *! 4096) p 1 perms in
  match r with inl _ => panic | inr _ => ret tt end.

Definition add_pages (l0_pt : Slice) (region pages perms : Z) : VM unit :=
  forM (range 0 pages) (add_page l0_pt region perms).

Definition zero_pages (m : Mm) (v pages : Z) : VM unit :=
  forM (range 0 pages) (λ i, zero_page m (v +! i *! 4096)).

Definition brk (arg : Z) (m : Mm) : VM (Z * Mm) :=
  let pos := ur_end (brk_r m) in
  let new_pos := align_f arg 4096 in
  if new_pos =? 0 then ret (pos, m)
  else if new_pos <? pos then ret (pos, m)
  else if new_pos =? pos then ret (pos, m)
  else
    let incr := new_pos - pos in
    if 10 * MB <? incr then ret (pos, m)
    else
      let! (o, r') := lift (ur_alloc (brk_r m) incr) in
      let m := with_brk r' m in
      let! region := unwrap o in
      let pages := incr / 4096 in
      let! pt := unwrap (user_pt m) in
      with_table pt (λ l0_pt,
        add_pages l0_pt region pages PR_PW_UR_UW1 ;;;
        zero_pages m pos pages) ;;;
      ret (new_pos, m).

Definition mmap (len prot flags : Z) (m : Mm) : VM (Z * Mm) :=
  let FAIL := wnot 64 0 in
  if Z.land flags 0x20 =? 0 then ret (FAIL, m)
  else
    let len := align_f len 4096 in
    if 10 * MB <? len then ret (FAIL, m)
    else
      let! (o, r') := lift (ur_alloc (mmap_r m) len) in
      let m := with_mmap r' m in
      let! region := unwrap o in
      let! perms :=
        if prot =? 1 then ret PR_UR
        else if prot =? 3 then ret PR_PW_UR_UW1
        else if prot =? 5 then ret PR_UR_UX
        else panic in
      let! pt := unwrap (user_pt m) in
      let! r := pm_wrap_new pt PR_PW false in
      match r with
      | inl _ => ret (FAIL, m)
      | inr l0_pt =>
          add_pages (Win l0_pt) region (len / 4096) perms ;;;
          zero_pages m region (len / 4096) ;;;
          pm_wrap_drop l0_pt ;;;
          ret (region, m)
      end.
End umem.
