(* ===== verification/UmemInv.v ===== *)
(** * Invariants of user memory

    [ShareLaws] is what the page allocator promises about blocks: [blocks f B]
    says that [B] gives, by address, the size, the references and the
    copy-on-write mark of every live block; with [gap] frames to spare, two
    adjacent ones can be had.  [UInv s T W B R] adds to the
    invariant of the page tables the map [R] of user pages: the leaf entry of
    each page of each user tree, which is what the hardware finds there. *)
From S2P Require Import Prelude Stuff Pm Vm VmInv VmTree VmRun VmSpec Hoare Umem.

Local Open Scope Z_scope.

(** ** Blocks *)
Record blk := mkBlk { bk_pages : Z; bk_ref : Z; bk_cow : bool }.

#[export] Instance blk_eq_dec : EqDecision blk.
Proof. solve_decision. Defined.

(** The single frames among them, as [FrameLaws] counts them. *)
Definition single (B : gmap Z blk) : gmap Z Z :=
  omap (λ b, if bk_pages b =? 1 then Some (bk_ref b) else None) B.

Definition drop_blk (b : blk) : option blk :=
  if 1 <? bk_ref b then Some (mkBlk (bk_pages b) (bk_ref b - 1) (bk_cow b)) else None.

(** Frame [p] belongs to block [b] at [h]. *)
Definition in_blk (B : gmap Z blk) (p h : Z) (b : blk) : Prop :=
  B !! h = Some b ∧ ∃ i, 0 ≤ i < bk_pages b ∧ p = h + 4096 * i.

Class ShareLaws (F : Type) `{FrameOps F} `{!ShareOps F} `{!FrameLaws F} := {
  blocks : F → gmap Z blk → Prop;
  blocks_owns f B : blocks f B → owns f (single B);
  blocks_single f B G : blocks f B → owns f G → G = single B;
  blocks_busy f B p : blocks f B → busy f p ↔ ∃ h b, in_blk B p h b;
  blocks_frame f B p h b : blocks f B → in_blk B p h b → frame_ok p;
  blocks_apart f B p h b h' b' : blocks f B → in_blk B p h b → in_blk B p h' b' → h = h';
  blocks_pos f B h b : blocks f B → B !! h = Some b → 0 < bk_ref b ∧ 0 < bk_pages b;
  sh_alloc_1 : sh_alloc 4096 = fr_alloc;
  fr_alloc_blocks f B o f' : blocks f B → fr_alloc f = Done (o, f') →
    match o with
    | Some p => B !! p = None ∧ blocks f' (<[p := mkBlk 1 1 false]> B)
    | None => blocks f' B
    end;
  gap : nat;
  sh_alloc_2 f B n : blocks f B → room f (gap + (2 + n)) →
    ∃ p f', sh_alloc SPEL0_SIZE f = Done (Some p, f') ∧ B !! p = None ∧ blocks f' (<[p := mkBlk 2 1 false]> B) ∧
      ¬ busy f p ∧ ¬ busy f (p + 4096) ∧ room f' (gap + n);
  sh_dup_law f B p b : blocks f B → B !! p = Some b →
    ∃ f', sh_dup p (4096 * bk_pages b) f = Done (true, f') ∧
      blocks f' (<[p := mkBlk (bk_pages b) (bk_ref b + 1) true]> B) ∧ ∀ m, room f m → room f' m;
  sh_cow_law f B p b : blocks f B → B !! p = Some b →
    if bk_cow b then
      ∃ f', sh_cow p (4096 * bk_pages b) f = Done (Some (if bk_ref b =? 1 then Remap else AllocNew), f') ∧
        blocks f' (<[p := if bk_ref b =? 1 then mkBlk (bk_pages b) 1 false
                          else mkBlk (bk_pages b) (bk_ref b - 1) true]> B) ∧ ∀ m, room f m → room f' m
    else sh_cow p (4096 * bk_pages b) f = Done (None, f);
  sh_free_law f B p b : blocks f B → B !! p = Some b →
    ∃ f', sh_free p (4096 * bk_pages b) f = Done (tt, f') ∧
      blocks f' (partial_alter (λ _, drop_blk b) p B) ∧ ∀ m, room f m → room f' m;
}.

(** The frame an entry points at. *)
Definition fr (e : Z) : Z := Z.land e PHY_MASK.

Section blocks.
Lemma single_subseteq B B' : B ⊆ B' → single B ⊆ single B'.
Proof.
  intros Hs. apply map_subseteq_spec. intros p n. unfold single. rewrite !lookup_omap_Some.
  intros (b & Hb & E). exists b. split; [done|]. by eapply lookup_weaken.
Qed.

Lemma single_lookup B p b : B !! p = Some b → bk_pages b = 1 → single B !! p = Some (bk_ref b).
Proof. intros Hb E. unfold single. rewrite lookup_omap, Hb. simpl. by rewrite E. Qed.

Lemma in_blk_head B h b : B !! h = Some b → 0 < bk_pages b → in_blk B h h b.
Proof. intros Hb Hp. split; [done|]. exists 0. split; [done|lia]. Qed.

Lemma in_blk_mono B B' p h b : B ⊆ B' → in_blk B p h b → in_blk B' p h b.
Proof. intros Hs [Hb Hi]. split; [by eapply lookup_weaken|done]. Qed.

Lemma in_blk_insert B p h b h' b' :
  in_blk B p h b → bk_pages b' = bk_pages b ∨ h ≠ h' →
  in_blk (<[h' := b']> B) p h (if decide (h = h') then b' else b).
Proof.
  intros [Hb (i & Hi & ->)] Hor. split.
  - rewrite lookup_insert. repeat case_decide; congruence.
  - exists i. case_decide; [|done]. destruct Hor; [lia|done].
Qed.
End blocks.

Section umem.
Context {im : Image} {F : Type} {fo : FrameOps F} {so : ShareOps F} {fl : FrameLaws F} {shl : ShareLaws F}.
Implicit Types (s : VSt F) (W : gmap Z Z) (T : gmap Z (Z * list Z)) (B : gmap Z blk) (R : gmap (Z * Z) Z).

(** A root of a user tree. *)
Definition uroot T (r : Z) : Prop := T !! r = Some (r, []) ∧ r ≠ im_pt.

Record UInv s T W B R : Prop := {
  ui_inv : Inv s T W (single B);
  ui_blocks : blocks (frames s) B;
  ui_map r v : uroot T r → translate s r v = R !! (r, vpn v);
  ui_data k e : R !! k = Some e → T !! fr e = None ∧ ∃ h b, in_blk B (fr e) h b;
  ui_keys r k e : R !! (r, k) = Some e → uroot T r;
}.

Lemma uroot_not_win T r v : uroot T r → ¬ win_page r v.
Proof. intros [_ Hr] [-> _]. done. Qed.

Lemma uroot_mono T T' r : T ⊆ T' → uroot T r → uroot T' r.
Proof. intros Hs [Hr Hn]. split; [by eapply lookup_weaken|done]. Qed.

Lemma keeps_refl s T : keeps s T s T.
Proof. by split. Qed.

Lemma UInv_frames s T W B R f B' :
  UInv s T W B R → blocks f B' → (∀ p x, T !! p = Some x → is_Some (single B' !! p)) →
  (∀ k e, R !! k = Some e → ∃ h b, in_blk B' (fr e) h b) →
  UInv (mkVSt (mem s) f (fixed s) (regions s) (tlb s)) T W B' R.
Proof.
  intros [[I1 I2 I3 I4] U2 U3 U4 U5] Hb Hlive Hdata. split; [|done|intros r v Hr; by rewrite <- U3| |done].
  - split; [by apply Wins_mem|by eapply forest_agree|by apply blocks_owns|done].
  - intros k e Hk. split; [by apply (U4 k)|by eapply Hdata].
Qed.

(** Only what the tables hold matters. *)
Lemma UInv_agree s T W B R s' W' :
  UInv s T W B R → Wins s' W' → frames s' = frames s →
  (∀ p x j, T !! p = Some x → ¬ win_entry p j → word s' p j = word s p j) → UInv s' T W' B R.
Proof.
  intros [U1 U2 U3 U4 U5] HW Ef Hw. pose proof U1 as [I1 I2 I3 I4].
  assert (forest s' T) as HF'.
  { eapply forest_agree; [done|]. intros p r path i Hp Hl Hi. eapply Hw; [done|by eapply inner_not_win]. }
  split; [by split; rewrite ?Ef|by rewrite Ef| |done|done].
  intros r v Hr. rewrite <- U3 by done.
  apply (extends_translate s T s' T); [done|done| |by destruct Hr|by eapply uroot_not_win].
  split; [done|]. split; [intros; by eapply Hw|]. intros t r' path i E1 E2. by rewrite E1 in E2.
Qed.

Lemma UInv_quiet s T W B R s' W' : UInv s T W B R → quiet s s' → Wins s' W' → UInv s' T W' B R.
Proof. intros HU (Hq & Ef & _) HW. eapply UInv_agree; [done..|]. intros p x j _. apply Hq. Qed.

Lemma UInv_tlb s T W B R l : UInv s T W B R → UInv (set_tlb l s) T W B R.
Proof. intros HU. eapply UInv_quiet; [done|apply quiet_tlb|by apply Wins_tlb, HU]. Qed.

Lemma UInv_keeps_quiet s T W B R s' : UInv s T W B R → quiet s s' → keeps s T s' T.
Proof.
  intros [[_ I2 _ _] _ _ _ _] Q. apply keeps_quiet; [|done]. by rewrite (fo_win _ _ I2).
Qed.

(** ** The tables under blocks *)
Lemma blocks_pres B sl v p perms ow :
  pres (λ s, ∃ B', blocks (frames s) B' ∧ B ⊆ B') (map_v2p_4k_inner sl v p perms ow no_cb).
Proof using shl.
  set (P := λ s, ∃ B', blocks (frames s) B' ∧ B ⊆ B').
  assert (∀ f : VSt F → VSt F, (∀ s, frames (f s) = frames s) → pres P (modify f)) as Hm.
  { intros f Hf. apply hoare_modify. intros s. unfold P. by rewrite Hf. }
  assert (∀ sl i x, pres P (pt_set sl i x)) as Hs.
  { intros. unfold pt_set. apply pres_bind; [apply pres_assert|]. intros _. by apply Hm. }
  assert (∀ sl i, pres P (pt_get sl i)) as Hg by (intros; unfold pt_get; pres_auto).
  assert (∀ sl, pres P (zero_pt sl)) as Hz by (intros; unfold zero_pt; pres_auto).
  assert (∀ pm perms z, pres P (pm_wrap_new pm perms z)) as Hw.
  { intros. unfold pm_wrap_new. pres_auto; by apply Hm. }
  assert (∀ w, pres P (pm_wrap_drop w)) as Hd by (intros; unfold pm_wrap_drop; pres_auto; by apply Hm).
  assert (pres P (on_frames fr_alloc)) as Ha.
  { intros s o s' (B' & HB & Hsub). unfold on_frames. destruct (fr_alloc (frames s)) as [[o' f']|] eqn:E; [|done].
    intros [= <- <-]. pose proof (fr_alloc_blocks _ _ _ _ HB E) as H. destruct o'; [|by exists B'].
    destruct H as [Hn H]. eexists. split; [exact H|]. etrans; [done|by apply insert_subseteq]. }
  assert (∀ i sl, pres P (pt_alloc_if_0_2 i sl no_cb)) as Hp.
  { intros. unfold pt_alloc_if_0_2, no_cb. pres_auto. }
  unfold map_v2p_4k_inner. pres_auto.
Qed.

Lemma translate_vpn s r v v' : vpn v = vpn v' → translate s r v = translate s r v'.
Proof.
  intros [Hp Hl]%same_page_vpn. unfold translate, walk. injection Hp as E0 E1 E2. by rewrite E0, E1, E2, Hl.
Qed.

(** ** Mapping a page *)
Lemma UInv_map s T W B R sl r v p perms overw n :
  UInv s T W B R → shows W sl r → uroot T r → (base.size W + 3 ≤ 128)%nat → room (frames s) (3 + n) →
  let x := Z.lor (Z.lor p perms) 0x403 in
  let e := R !! (r, vpn v) in
  T !! fr x = None → (∃ h b, in_blk B (fr x) h b) →
  ∃ s' T' B',
    map_v2p_4k_inner sl v p perms overw no_cb s =
      Done (match e with None => inr v | Some _ => inl (EExists v) end, s') ∧
    UInv s' T' W B' (if negb overw && bool_decide (is_Some e) then R else <[(r, vpn v) := x]> R) ∧
    T ⊆ T' ∧ B ⊆ B' ∧ room (frames s') n ∧ keeps s T s' T'.
Proof.
  intros [U1 U2 U3 U4 U5] Hs Hr Hsz Hroom x e HTx HBx. pose proof (uroot_not_win T r v Hr) as Hnw.
  pose proof Hr as [Hr1 Hr2].
  destruct (map_inner_run s T W (single B) sl r v p perms overw n U1 Hs Hr1 Hnw Hsz Hroom)
    as (s' & T' & G' & E & HI' & HT & HG & Er & Rm & Ht & Ho & Kp).
  pose proof Kp as [K Kr].
  fold x in Ht. rewrite U3 in E, Ht by done. fold e in E, Ht.
  assert (∃ B', blocks (frames s') B' ∧ B ⊆ B') as (B' & HB' & HBB)
    by (eapply (blocks_pres B sl v p perms overw s); [by exists B|exact E]).
  pose proof (blocks_single _ _ _ HB' (inv_owns _ _ _ _ HI')) as ->.
  exists s', T', B'. split_and!; try done. split; [done|done| | |].
  - intros r' v' Hr'. pose proof (uroot_not_win T' r' v' Hr') as Hnw'.
    destruct Hr' as [Hr'1 Hr'2]. pose proof (Kr _ _ Hr'1) as HrT.
    destruct (decide (r' = r ∧ vpn v' = vpn v)) as [[-> Hv]|Hd].
    + rewrite (translate_vpn s' r v' v Hv), Ht, Hv.
      destruct e as [e0|] eqn:Ee; subst e; simpl; destruct overw; simpl; rewrite ?lookup_insert_eq; by rewrite ?Ee.
    + rewrite Ho by (done || by rewrite same_page_vpn). rewrite U3 by done.
      destruct (negb overw && _); [done|]. rewrite lookup_insert_ne by naive_solver. done.
  - intros k e'. intros Hk. assert (R !! k = Some e' ∨ e' = x) as [Hk'| ->].
    { destruct (negb overw && _); [by left|]. apply lookup_insert_Some in Hk as [[_ <-]|[_ Hk]]; auto. }
    + destruct (U4 _ _ Hk') as [HTe (h & b & Hh)]. pose proof (proj2 (blocks_busy _ _ _ U2) (ex_intro _ h (ex_intro _ b Hh))) as Hbz.
      destruct (K _ Hbz HTe) as (_ & HT' & _). split; [done|]. exists h, b. by eapply in_blk_mono.
    + destruct HBx as (h & b & Hh). pose proof (proj2 (blocks_busy _ _ _ U2) (ex_intro _ h (ex_intro _ b Hh))) as Hbz.
      destruct (K _ Hbz HTx) as (_ & HT' & _). split; [done|]. exists h, b. by eapply in_blk_mono.
  - intros r' k' e' Hk. apply (uroot_mono T); [done|]. destruct (negb overw && _); [by eapply U5|].
    apply lookup_insert_Some in Hk as [[Ek _]|[_ Hk]]; [by injection Ek as <- _|by eapply U5].
Qed.

(** ** Windows *)
Lemma UInv_wins s T W B R : UInv s T W B R → Wins s W.
Proof. intros [[? _ _ _] _ _ _ _]. done. Qed.

(** A window onto a frame in use. *)
Lemma UInv_window s T W B R p perms :
  UInv s T W B R → frame_ok p → (base.size W < 128)%nat → perms_ok perms →
  ∃ i s', pm_wrap_new p perms false s = Done (inr (waddr i), s') ∧ W !! i = None ∧
    UInv s' T (<[i := p]> W) B R ∧ quiet s s' ∧ keeps s T s' T.
Proof.
  intros HU [Hp1 Hp2] Hsz Hp.
  destruct (wrap_new_run s W p perms (UInv_wins _ _ _ _ _ HU) Hsz ltac:(by rewrite Hp2) Hp)
    as (i & s' & _ & Hi & E & HW & Q). rewrite Hp2 in HW.
  exists i, s'. split_and!; [by rewrite E|done|by eapply UInv_quiet|done|by eapply UInv_keeps_quiet].
Qed.

Lemma UInv_drop s T W B R i p :
  UInv s T (<[i := p]> W) B R → W !! i = None →
  ∃ s', pm_wrap_drop (waddr i) s = Done (tt, s') ∧ UInv s' T W B R ∧ quiet s s' ∧ keeps s T s' T.
Proof.
  intros HU Hi. destruct (wrap_drop_run s _ i p (UInv_wins _ _ _ _ _ HU)) as (s' & E & HW & Q & _);
    [apply lookup_insert_eq|]. rewrite delete_insert_id in HW by done.
  exists s'. split_and!; [done|by eapply UInv_quiet|done|by eapply UInv_keeps_quiet].
Qed.

Lemma uroot_frame s T W B R r : UInv s T W B R → uroot T r → frame_ok r.
Proof. intros [U1 _ _ _ _] [Hr _]. by eapply Inv_frame. Qed.

(** Code that runs with a window onto the root of a tree. *)
Lemma with_table_run {A} s T W B R r (k : Slice → VM F A) (Q : A → VSt F → Prop) :
  UInv s T W B R → uroot T r → (base.size W < 128)%nat →
  (∀ i s1, W !! i = None → UInv s1 T (<[i := r]> W) B R → quiet s s1 → keeps s T s1 T →
     ∃ a s2, k (Win (waddr i)) s1 = Done (a, s2) ∧
       ∃ T' B' R', UInv s2 T' (<[i := r]> W) B' R' ∧
         ∀ s3, UInv s3 T' W B' R' → quiet s2 s3 → keeps s2 T' s3 T' → Q a s3) →
  ∃ a s', with_table r k s = Done (a, s') ∧ Q a s'.
Proof.
  intros HU Hr Hsz Hk.
  destruct (UInv_window s T W B R r PR_PW HU) as (i & s1 & E1 & Hi & HU1 & Q1 & K1);
    [by eapply uroot_frame|done|apply PR_PW_ok|].
  destruct (Hk i s1 Hi HU1 Q1 K1) as (a & s2 & E2 & T' & B' & R' & HU2 & HQ).
  destruct (UInv_drop _ _ _ _ _ _ _ HU2 Hi) as (s3 & E3 & HU3 & Q3 & K3).
  exists a, s3. split; [|by apply HQ]. unfold with_table. mrun E1. simpl unwrap_r. mstep. mrun E2. by mrun E3.
Qed.

(** ** Leaves *)
Lemma leaf_run s T W B R sl r v e :
  UInv s T W B R → shows W sl r → uroot T r → (base.size W + 3 ≤ 128)%nat → R !! (r, vpn v) = Some e →
  ∃ i t s1, walk_to_l3 sl v s = Done (inr (waddr i), s1) ∧ W !! i = None ∧ UInv s1 T (<[i := t]> W) B R ∧
    quiet s s1 ∧ keeps s T s1 T ∧ walk s1 r v = Some t ∧ word s1 t (vaddr_l3 v) = e ∧ T !! t = Some (r, vpath v).
Proof.
  intros HU Hs Hr Hsz HR. pose proof HU as [U1 U2 U3 U4 U5]. pose proof Hr as [Hr1 Hr2].
  pose proof (walk_to_l3_run s T W (single B) sl r v U1 Hs Hr1 Hsz) as Hw.
  pose proof (inv_forest _ _ _ _ U1) as HF.
  rewrite <- U3 in HR by done. unfold translate in HR. destruct (walk s r v) as [t|] eqn:Ew; [|done].
  destruct Hw as (i & s1 & E1 & Hi & HI1 & Q1). pose proof (proj1 (walk_T _ _ _ _ _ HF Hr1) Ew) as HT.
  assert (UInv s1 T (<[i := t]> W) B R) as HU1 by (eapply UInv_quiet; [done..|apply HI1]).
  exists i, t, s1. split_and!; [done|done|done|done|by eapply UInv_keeps_quiet| | |done].
  - by apply (walk_T _ _ _ _ _ (inv_forest _ _ _ _ HI1) Hr1).
  - destruct Q1 as [Q1 _]. rewrite Q1.
    + simpl in HR. destruct (word s t (vaddr_l3 v) =? 0); [done|]. by injection HR.
    + intros [-> _]. eapply uroot_not_win, (win_walk s T r v); done.
Qed.

(** Writing a leaf: a new entry, or none. *)
Lemma UInv_leaf s T W B R r v t x :
  UInv s T W B R → uroot T r → walk s r v = Some t →
  (x ≠ 0 → T !! fr x = None ∧ ∃ h b, in_blk B (fr x) h b) →
  UInv (set_word t (vaddr_l3 v) x s) T W B
    (partial_alter (λ _, if x =? 0 then None else Some x) (r, vpn v) R) ∧
  keeps s T (set_word t (vaddr_l3 v) x s) T.
Proof.
  intros [U1 U2 U3 U4 U5] Hr Hw Hx. pose proof Hr as [Hr1 Hr2]. pose proof (inv_forest _ _ _ _ U1) as HF.
  pose proof (proj1 (walk_T _ _ _ _ _ HF Hr1) Hw) as HT.
  assert (¬ win_entry t (vaddr_l3 v)) as Hne
    by (intros [-> _]; eapply (uroot_not_win T r v Hr), win_walk; done).
  split; cycle 1.
  { split; [|done]. intros p Hb Hp. split_and!; [done..|]. intros j. rewrite word_set, decide_False; [done|].
    intros [-> _]. by rewrite HT in Hp. }
  split; [by eapply Inv_leaf|done| | |].
  - intros r' v' Hr'. rewrite (translate_leaf s T r t v _ x r' v') by (done || apply HF || by destruct Hr').
    case_decide as Hd; rewrite same_page_vpn in Hd.
    + destruct Hd as [-> ->]. by rewrite lookup_partial_alter_eq.
    + rewrite lookup_partial_alter_ne by naive_solver. by apply U3.
  - intros k e. destruct (decide (k = (r, vpn v))) as [->|Hk].
    + rewrite lookup_partial_alter_eq. destruct (Z.eqb_spec x 0); [done|]. intros [= <-]. by apply Hx.
    + rewrite lookup_partial_alter_ne by done. apply U4.
  - intros r' k' e. destruct (decide ((r', k') = (r, vpn v))) as [Ek|Hk]; [by injection Ek as -> _|].
    rewrite lookup_partial_alter_ne by done. apply U5.
Qed.

Lemma fr_leaf p perms : perms_ok perms → fr (Z.lor (Z.lor (fr p) perms) 0x403) = fr p.
Proof. intros Hp. unfold fr. by rewrite leaf_frame, land_mask_idem. Qed.

Lemma lor403_ne0 a : Z.lor a 0x403 ≠ 0.
Proof. by apply lor_ne0. Qed.

(** [v2p_pt] that rewrites the permissions of a mapped page. *)
Lemma v2p_perms_run s T W B R sl r v e perms :
  UInv s T W B R → shows W sl r → uroot T r → (base.size W + 3 ≤ 128)%nat → R !! (r, vpn v) = Some e →
  perms_ok perms →
  let x := Z.lor (Z.lor (fr e) perms) 0x403 in
  ∃ s', v2p_pt sl v (Some (set_perms perms)) s = Done (inr (Z.lor (fr e) (Z.land v 0xfff)), s') ∧
    UInv s' T W B (<[(r, vpn v) := x]> R) ∧ frames s' = frames s ∧ keeps s T s' T.
Proof.
  intros HU Hs Hr Hsz HR Hp x.
  destruct (leaf_run s T W B R sl r v e HU Hs Hr Hsz HR) as (i & t & s1 & E1 & Hi & HU1 & Q1 & K1 & Hw & He & HT).
  destruct (ui_data _ _ _ _ _ HU _ _ HR) as [HTe HBe].
  destruct (UInv_leaf s1 T _ B R r v t x HU1 Hr Hw) as [HU2 K2].
  { intros _. unfold x. by rewrite fr_leaf. }
  assert (x =? 0 = false) as Hx by (apply Z.eqb_neq, lor403_ne0). rewrite Hx in HU2.
  destruct (UInv_drop _ _ _ _ _ _ _ HU2 Hi) as (s3 & E3 & HU3 & Q3 & K3).
  exists s3. split_and!; [|done|by destruct Q3 as (_ & -> & _), Q1 as (_ & <- & _)|].
  - unfold v2p_pt. mrun E1. cbv iota beta. unfold set_perms. rewrite bind_assoc.
    mrun (pt_get_run _ _ _ _ _ (UInv_wins _ _ _ _ _ HU1) (shows_insert _ i t) (l3_range v)). rewrite He.
    mrun (pt_set_run _ _ _ _ _ x (UInv_wins _ _ _ _ _ HU1) (shows_insert _ i t) (l3_range v)).
    mrun (pt_get_run _ _ _ _ _ (UInv_wins _ _ _ _ _ HU2) (shows_insert _ i t) (l3_range v)).
    rewrite word_set, decide_True by done. mrun E3. unfold x. fold (fr (Z.lor (Z.lor (fr e) perms) 0x403)).
    by rewrite fr_leaf.
  - by do 2 (eapply keeps_trans; [eassumption|]).
Qed.

Lemma v2p_run s T W B R sl r v e :
  UInv s T W B R → shows W sl r → uroot T r → (base.size W + 3 ≤ 128)%nat → R !! (r, vpn v) = Some e →
  ∃ s', v2p_pt sl v None s = Done (inr (Z.lor (fr e) (Z.land v 0xfff)), s') ∧
    UInv s' T W B R ∧ frames s' = frames s ∧ keeps s T s' T.
Proof.
  intros HU Hs Hr Hsz HR.
  destruct (leaf_run s T W B R sl r v e HU Hs Hr Hsz HR) as (i & t & s1 & E1 & Hi & HU1 & Q1 & K1 & Hw & He & HT).
  destruct (UInv_drop _ _ _ _ _ _ _ HU1 Hi) as (s3 & E3 & HU3 & Q3 & K3).
  exists s3. split_and!; [|done|by destruct Q3 as (_ & -> & _), Q1 as (_ & <- & _)|by eapply keeps_trans].
  unfold v2p_pt. mrun E1. cbv iota beta. mstep.
  mrun (pt_get_run _ _ _ _ _ (UInv_wins _ _ _ _ _ HU1) (shows_insert _ i t) (l3_range v)). rewrite He. by mrun E3.
Qed.

Lemma unmap_page_run s T W B R sl r v e :
  UInv s T W B R → shows W sl r → uroot T r → (base.size W + 3 ≤ 128)%nat → R !! (r, vpn v) = Some e →
  ∃ s', unmap_4k_inner sl v s = Done (inr tt, s') ∧ UInv s' T W B (delete (r, vpn v) R) ∧
    frames s' = frames s ∧ keeps s T s' T.
Proof.
  intros HU Hs Hr Hsz HR.
  destruct (leaf_run s T W B R sl r v e HU Hs Hr Hsz HR) as (i & t & s1 & E1 & Hi & HU1 & Q1 & K1 & Hw & He & HT).
  destruct (UInv_leaf s1 T _ B R r v t 0 HU1 Hr Hw) as [HU2 K2]; [done|]. rewrite Z.eqb_refl in HU2.
  set (s2 := set_word t _ _ s1) in *. pose proof (UInv_tlb s2 _ _ _ _ (flush_page v (tlb s2)) HU2) as HU2l.
  destruct (UInv_drop _ _ _ _ _ _ _ HU2l Hi) as (s3 & E3 & HU3 & Q3 & K3).
  exists s3. split_and!; [|done|by destruct Q3 as (_ & -> & _), Q1 as (_ & <- & _)|].
  - unfold unmap_4k_inner. mrun E1. cbv iota beta.
    mrun (pt_set_run _ _ _ _ _ 0 (UInv_wins _ _ _ _ _ HU1) (shows_insert _ i t) (l3_range v)).
    mrun tlbi_run. by mrun E3.
  - by do 2 (eapply keeps_trans; [eassumption|]).
Qed.

(** ** Frames *)
Definition set_frames (f : F) (s : VSt F) : VSt F := mkVSt (mem s) f (fixed s) (regions s) (tlb s).

Lemma keeps_frames s T f : (∀ p, busy (frames s) p → T !! p = None → busy f p) → keeps s T (set_frames f s) T.
Proof. intros Hb. split; [|done]. intros p H1 H2. split_and!; [by apply Hb|done|done]. Qed.

(** A block whose counters change and whose size does not. *)
Lemma UInv_recount s T W B R f h b b' :
  UInv s T W B R → B !! h = Some b → bk_pages b' = bk_pages b → blocks f (<[h := b']> B) →
  UInv (set_frames f s) T W (<[h := b']> B) R.
Proof.
  intros HU Hb Hp Hf. pose proof HU as [[I1 I2 I3 I4] U2 U3 U4 U5]. apply UInv_frames with B; [done|done| |].
  - intros p x Hx. destruct (I4 p x Hx) as [n Hn]. unfold single in *. rewrite lookup_omap in *.
    rewrite lookup_insert. case_decide as Hd; [|by exists n]. subst p. rewrite Hb in Hn. simpl in *. rewrite Hp.
    destruct (_ =? _); [by eexists|done].
  - intros k e Hk. destruct (U4 k e Hk) as [_ (g & c & Hg)]. eexists g, _.
    apply in_blk_insert; [exact Hg|]. destruct (decide (g = h)) as [->|]; [left|by right].
    destruct Hg as [Hg _]. rewrite Hb in Hg. injection Hg as <-. done.
Qed.

Lemma busy_recount s T W B R f h b b' p :
  UInv s T W B R → B !! h = Some b → bk_pages b' = bk_pages b → blocks f (<[h := b']> B) →
  busy (frames s) p ↔ busy f p.
Proof.
  intros [_ U2 _ _ _] Hb Hp Hf. rewrite (blocks_busy _ _ _ U2), (blocks_busy _ _ _ Hf).
  split; intros (g & c & Hg & i & Hi & ->).
  - destruct (decide (g = h)) as [->|Hne].
    + rewrite Hb in Hg. injection Hg as <-. exists h, b'. split; [apply lookup_insert_eq|]. exists i. by rewrite Hp.
    + exists g, c. split; [by rewrite lookup_insert_ne|eauto].
  - destruct (decide (g = h)) as [->|Hne].
    + rewrite lookup_insert_eq in Hg. injection Hg as <-. exists h, b. split; [done|]. exists i. by rewrite <- Hp.
    + rewrite lookup_insert_ne in Hg by done. exists g, c. split; [done|eauto].
Qed.

Lemma keeps_recount s T W B R f h b b' :
  UInv s T W B R → B !! h = Some b → bk_pages b' = bk_pages b → blocks f (<[h := b']> B) →
  keeps s T (set_frames f s) T.
Proof. intros HU Hb Hp Hf. apply keeps_frames. intros p Hpb _. by apply (busy_recount s T W B R f h b b'). Qed.

Lemma share_run s T W B R h b :
  UInv s T W B R → B !! h = Some b →
  ∃ s', on_frames (sh_dup h (4096 * bk_pages b)) s = Done (true, s') ∧
    UInv s' T W (<[h := mkBlk (bk_pages b) (bk_ref b + 1) true]> B) R ∧ keeps s T s' T ∧
    ∀ m, room (frames s) m → room (frames s') m.
Proof.
  intros HU Hb. destruct (sh_dup_law _ _ _ _ (ui_blocks _ _ _ _ _ HU) Hb) as (f & E & Hf & Hm).
  exists (set_frames f s). split_and!; [|by eapply UInv_recount|exact (keeps_recount s T W B R f h b (mkBlk _ _ _) HU Hb eq_refl Hf)|done].
  unfold on_frames. by rewrite E.
Qed.

(** The decision about a shared block. *)
Lemma cow_run s T W B R h b :
  UInv s T W B R → B !! h = Some b → bk_cow b = true →
  let b' := if bk_ref b =? 1 then mkBlk (bk_pages b) 1 false else mkBlk (bk_pages b) (bk_ref b - 1) true in
  ∃ s', on_frames (sh_cow h (4096 * bk_pages b)) s = Done (Some (if bk_ref b =? 1 then Remap else AllocNew), s') ∧
    UInv s' T W (<[h := b']> B) R ∧ keeps s T s' T ∧
    (∀ p, busy (frames s) p ↔ busy (frames s') p) ∧ ∀ m, room (frames s) m → room (frames s') m.
Proof.
  intros HU Hb Hc b'. pose proof (sh_cow_law _ _ _ _ (ui_blocks _ _ _ _ _ HU) Hb) as H. rewrite Hc in H.
  destruct H as (f & E & Hf & Hm). assert (bk_pages b' = bk_pages b) as Hp by (unfold b'; by destruct (_ =? _)).
  exists (set_frames f s). split_and!; [|by eapply UInv_recount|exact (keeps_recount s T W B R f h b b' HU Hb Hp Hf)| |done].
  - unfold on_frames. by rewrite E.
  - intros p. by apply (busy_recount s T W B R f h b b').
Qed.

Lemma cow_run_not s T W B R h b :
  UInv s T W B R → B !! h = Some b → bk_cow b = false →
  on_frames (sh_cow h (4096 * bk_pages b)) s = Done (None, s).
Proof.
  intros HU Hb Hc. pose proof (sh_cow_law _ _ _ _ (ui_blocks _ _ _ _ _ HU) Hb) as H. rewrite Hc in H.
  unfold on_frames. rewrite H. by destruct s.
Qed.

(** A fresh frame. *)
Lemma frame_run s T W B R n :
  UInv s T W B R → room (frames s) (S n) →
  ∃ p s', on_frames (sh_alloc 4096) s = Done (Some p, s') ∧ B !! p = None ∧ T !! p = None ∧
    ¬ busy (frames s) p ∧ (∀ k e, R !! k = Some e → fr e ≠ p) ∧
    UInv s' T W (<[p := mkBlk 1 1 false]> B) R ∧ room (frames s') n ∧ mem s' = mem s ∧ keeps s T s' T.
Proof.
  intros HU Hroom. pose proof HU as [[I1 I2 I3 I4] U2 U3 U4 U5].
  destruct (fr_alloc_law _ _ n I3 Hroom) as (p & f & Ea & HGp & Hown & Hroom' & _ & Hnb & Hbusy).
  destruct (fr_alloc_blocks _ _ _ _ U2 Ea) as [HBp Hf].
  exists p, (set_frames f s). split_and!; [|done| |done| | |done|done|].
  - unfold on_frames. by rewrite sh_alloc_1, Ea.
  - destruct (T !! p) eqn:E; [|done]. destruct (I4 _ _ E). congruence.
  - intros k e Hk <-. destruct (U4 k e Hk) as [_ (g & c & Hg)].
    apply Hnb, (blocks_busy _ _ _ U2). by exists g, c.
  - apply UInv_frames with B; [done|done| |].
    + intros q x Hx. destruct (I4 q x Hx) as [m Hm]. exists m. eapply lookup_weaken; [done|].
      apply single_subseteq. by apply insert_subseteq.
    + intros k e Hk. destruct (U4 k e Hk) as [_ (g & c & Hg)]. exists g, c.
      eapply in_blk_mono; [by apply insert_subseteq|done].
  - apply keeps_frames. intros q Hq _. by apply Hbusy.
Qed.

(** A fresh pair of frames, for a stack. *)
Lemma alloc_2_run s T W B R n :
  UInv s T W B R → room (frames s) (gap + (2 + n)) →
  ∃ p s', on_frames (sh_alloc SPEL0_SIZE) s = Done (Some p, s') ∧ B !! p = None ∧
    (∀ i, 0 ≤ i < 2 → ¬ busy (frames s) (p + 4096 * i) ∧ T !! (p + 4096 * i) = None) ∧
    UInv s' T W (<[p := mkBlk 2 1 false]> B) R ∧ room (frames s') (gap + n) ∧ keeps s T s' T.
Proof.
  intros HU Hroom. pose proof HU as [[I1 I2 I3 I4] U2 U3 U4 U5].
  destruct (sh_alloc_2 _ _ n U2 Hroom) as (p & f & Ea & HBp & Hf & Hn1 & Hn2 & Hroom').
  assert (∀ i, 0 ≤ i < 2 → ¬ busy (frames s) (p + 4096 * i)) as Hnb.
  { intros i Hi. assert (i = 0 ∨ i = 1) as [->| ->] by lia; [by rewrite Z.add_0_r|done]. }
  assert (B ⊆ <[p := mkBlk 2 1 false]> B) as Hsub by by apply insert_subseteq.
  exists p, (set_frames f s). split_and!; [by unfold on_frames; rewrite Ea|done| | |done|].
  - intros i Hi. split; [by apply Hnb|]. destruct (T !! (p + 4096 * i)) eqn:E; [|done].
    destruct (I4 _ _ E) as [m Hm]. exfalso. apply (Hnb i Hi). by eapply owns_busy.
  - apply UInv_frames with B; [done|done| |].
    + intros q x Hx. destruct (I4 q x Hx) as [m Hm]. exists m. eapply lookup_weaken; [done|]. by apply single_subseteq.
    + intros k e Hk. destruct (U4 k e Hk) as [_ (g & c & Hg)]. exists g, c. by eapply in_blk_mono.
  - apply keeps_frames. intros q Hq _. apply (blocks_busy _ _ _ Hf). apply (blocks_busy _ _ _ U2) in Hq as (h & b & Hb).
    exists h, b. by eapply in_blk_mono.
Qed.

(** ** Writing data *)
Lemma UInv_data s T W B R s' :
  UInv s T W B R → frames s' = frames s → fixed s' = fixed s →
  (∀ p j, T !! p ≠ None → word s' p j = word s p j) → UInv s' T W B R.
Proof.
  intros HU Ef Ex Hw. pose proof (UInv_wins _ _ _ _ _ HU) as HW.
  assert (T !! im_l3 ≠ None) as Hl by (rewrite (fo_win _ _ (inv_forest _ _ _ _ (ui_inv _ _ _ _ _ HU))); done).
  eapply UInv_agree; [done| |done|intros p x j Hp _; apply Hw; by rewrite Hp].
  destruct HW as [H1 H2 H3 H4 H5]. split; rewrite ?Ex; try done. intros i e Hi. rewrite Hw by done. by apply H5.
Qed.

(** Writing to a frame that was not in use at [s0] keeps what was. *)
Lemma keeps_fresh s0 T0 s T s' p :
  keeps s0 T0 s T → ¬ busy (frames s0) p → frames s' = frames s → T !! im_l3 ≠ None →
  (∀ q j, q ≠ p → ¬ win_entry q j → word s' q j = word s q j) → keeps s0 T0 s' T.
Proof.
  intros [K Kr] Hnb Ef Hl Hw. split; [|done]. intros q Hq HTq. destruct (K q Hq HTq) as (H1 & H2 & H3).
  split_and!; [by rewrite Ef|done|]. intros j. rewrite Hw; [done|by intros ->|]. by intros [-> _].
Qed.

Lemma UInv_l3 s T W B R : UInv s T W B R → T !! im_l3 ≠ None.
Proof. intros [[_ I2 _ _] _ _ _ _]. by rewrite (fo_win _ _ I2). Qed.

Lemma copy_slice_run s W to from a b :
  Wins s W → shows W to b → shows W from a → a ≠ b → b ≠ im_l3 →
  ∃ s', copy_slice to from s = Done (tt, s') ∧ Wins s' W ∧ frames s' = frames s ∧ regions s' = regions s ∧
    ∀ q j, word s' q j = if decide (q = b ∧ 0 ≤ j < 512) then word s a j else word s q j.
Proof.
  intros HW Ht Hf Hab Hb. unfold copy_slice.
  assert (∀ k s1 lo, 0 ≤ lo → k = Z.to_nat (512 - lo) → Wins s1 W → ∃ s',
    forM (range lo 512) (λ i, let! x := pt_get from i in pt_set to i x) s1 = Done (tt, s') ∧ Wins s' W ∧
    frames s' = frames s1 ∧ regions s' = regions s1 ∧
    ∀ q j, word s' q j = if decide (q = b ∧ lo ≤ j < 512) then word s1 a j else word s1 q j) as L; [|by eapply L].
  induction k as [|k IH]; intros s1 lo Hlo Hk HW1.
  - rewrite range_nil by lia. exists s1. split_and!; try done. intros q j. by rewrite decide_False by lia.
  - rewrite range_cons by lia.
    assert ((let! x := pt_get from lo in pt_set to lo x) s1 = Done (tt, set_word b lo (word s1 a lo) s1)) as E.
    { mrun (pt_get_run s1 W from a lo HW1 Hf ltac:(lia)). apply (pt_set_run s1 W); done || lia. }
    rewrite (forM_cons (λ i, let! x := pt_get from i in pt_set to i x) lo _ _ _ E).
    destruct (IH (set_word b lo (word s1 a lo) s1) (lo + 1)) as (s' & E' & HW' & Ef & Er & Hw);
      [lia|lia|apply Wins_set; [done|by intros [-> _]]|].
    exists s'. split_and!; try done. intros q j. rewrite Hw, !word_set.
    repeat case_decide; try done; try lia; destruct_and?; subst; done || (exfalso; lia).
Qed.
End umem.
