(* ===== verification/UmemRun.v ===== *)
(** * Running the operations on user memory *)
From S2P Require Import Prelude Stuff Pm PmInv PmRun PmSpec Vm VmInv VmTree VmRun VmFree VmSpec Umem UmemInv.

Local Open Scope Z_scope.

(** ** Addresses *)
Section addr.
Lemma frame_ok_range p : frame_ok p → 0x40000000 ≤ p < 2 ^ 48 ∧ p mod 4096 = 0.
Proof.
  intros [H1 H2]. assert (p < 2 ^ 48).
  { rewrite <- H2, Z.land_comm. apply (land_range 48 PHY_MASK p); [done|done|lia]. }
  split; [lia|]. rewrite <- H2. change PHY_MASK with (Z.shiftl (Z.ones 36) 12). change 4096 with (2 ^ 12).
  rewrite <- Z.land_ones, <- Z.land_assoc by lia. by rewrite Z.land_0_r.
Qed.

Lemma vpn_add v i : 0 ≤ v → 0 ≤ i → v mod 4096 = 0 → v + 4096 * i < 2 ^ 48 → vpn (v + 4096 * i) = vpn v + i.
Proof.
  intros Hv Hi Ha Hlt. unfold vpn. replace (v + 4096 * i) with (v + i * 4096) by lia.
  rewrite Z.div_add by lia. assert (0 ≤ v / 4096) by (apply Z.div_pos; lia).
  assert (v / 4096 + i < 2 ^ 36) by (apply Z_div_exact_full_2 in Ha; lia).
  rewrite (Z.mod_small (v / 4096 + i)), (Z.mod_small (v / 4096)); lia.
Qed.

Lemma page_0 v : 0 ≤ v < 2 ^ 64 → v +! 4096 *! 0 = v.
Proof. intros Hv. change (4096 *! 0) with 0. rewrite wadd_small; lia. Qed.

Lemma page_i v i : 0 ≤ v → 0 ≤ i → v + 4096 * i < 2 ^ 64 → v +! 4096 *! i = v + 4096 * i.
Proof. intros. rewrite wmul_small, wadd_small; lia. Qed.

Lemma vpn_align v : vpn (v - v mod 4096) = vpn v.
Proof. unfold vpn. f_equal. zdiv. Qed.

Lemma offset_aligned v : v mod 4096 = 0 → Z.land v 0xfff = 0.
Proof. intros H. change 0xfff with (Z.ones 12). by rewrite Z.land_ones by lia. Qed.

Lemma UW1_ok : perms_ok PR_PW_UR_UW1.
Proof. done. Qed.

Lemma lor_perms_fr p perms : perms_ok perms → frame_ok p → fr (Z.lor (Z.lor p perms) 0x403) = p.
Proof. intros Hp [_ E]. unfold fr. by rewrite leaf_frame. Qed.
End addr.

Section run.
Context {im : Image} {F : Type} {fo : FrameOps F} {so : ShareOps F} {fl : FrameLaws F} {shl : ShareLaws F}.
Implicit Types (s : VSt F) (W : gmap Z Z) (T : gmap Z (Z * list Z)) (B : gmap Z blk) (R : gmap (Z * Z) Z).

Lemma data_not_win T p j : T !! p = None → T !! im_l3 ≠ None → ¬ win_entry p j.
Proof. intros Hp Hl [E _]. apply Hl. by rewrite <- E. Qed.

(** ** Copying a frame *)
Lemma window_zero_run s T W B R b :
  UInv s T W B R → frame_ok b → T !! b = None → (base.size W < 128)%nat →
  ∃ i s', pm_wrap_new b PR_PW true s = Done (inr (waddr i), s') ∧ W !! i = None ∧
    UInv s' T (<[i := b]> W) B R ∧ frames s' = frames s ∧
    ∀ q j, ¬ win_entry q j → word s' q j = if decide (q = b ∧ 0 ≤ j < 512) then 0 else word s q j.
Proof.
  intros HU [Hb1 Hb2] HTb Hsz. pose proof (UInv_l3 _ _ _ _ _ HU) as Hl3.
  destruct (wrap_new_run s W b PR_PW (UInv_wins _ _ _ _ _ HU) Hsz ltac:(by rewrite Hb2) PR_PW_ok)
    as (i & s1 & _ & Hi & E & HW & Q). rewrite Hb2 in HW.
  destruct (zero_pt_run s1 _ (Win (waddr i)) b HW) as (s2 & E2 & HW2 & Ef2 & Er2 & Hw2);
    [apply shows_insert|by intros ->|].
  exists i, s2. split_and!; [|done| | |].
  - rewrite E. by mrun E2.
  - eapply UInv_agree; [done|done|by rewrite Ef2; destruct Q as (_ & -> & _)|].
    intros p x j Hp Hne. rewrite Hw2, decide_False by (intros [-> _]; congruence). by apply Q.
  - rewrite Ef2. by destruct Q as (_ & -> & _).
  - intros q j Hne. rewrite Hw2. case_decide; [done|]. by apply Q.
Qed.

Lemma copy_step_run s T W B R a b i0 l from_pm to_pm :
  from_pm +! 4096 *! i0 = a → to_pm +! 4096 *! i0 = b →
  UInv s T W B R → frame_ok a → frame_ok b → a ≠ b → T !! a = None → T !! b = None →
  (base.size W + 2 ≤ 128)%nat →
  ∃ s', copy_loop (i0 :: l) from_pm to_pm s = copy_loop l from_pm to_pm s' ∧ UInv s' T W B R ∧ frames s' = frames s ∧
    (∀ j, 0 ≤ j < 512 → word s' b j = word s a j) ∧
    ∀ q j, q ≠ b → ¬ win_entry q j → word s' q j = word s q j.
Proof.
  intros Efrom Eto HU Ha Hb Hab HTa HTb Hsz. pose proof (UInv_l3 _ _ _ _ _ HU) as Hl3.
  destruct (window_zero_run s T W B R b HU Hb HTb ltac:(lia)) as (i & s1 & E1 & Hi & HU1 & Ef1 & Hw1).
  destruct (UInv_window s1 T _ B R a PR HU1 Ha) as (k & s2 & E2 & Hk & HU2 & Q2 & _);
    [rewrite map_size_insert_None by done; lia|apply PR_ok|].
  apply lookup_insert_None in Hk as Hk'. destruct Hk' as [Hk1 Hki].
  destruct (copy_slice_run s2 _ (Win (waddr i)) (Win (waddr k)) a b (UInv_wins _ _ _ _ _ HU2))
    as (s3 & E3 & HW3 & Ef3 & _ & Hw3).
  { rewrite insert_insert_ne by done. apply shows_insert. }
  { apply shows_insert. }
  { done. }
  { by intros ->. }
  assert (UInv s3 T (<[k := a]> (<[i := b]> W)) B R) as HU3.
  { eapply UInv_agree; [exact HU2|done|done|]. intros p x j Hp _. rewrite Hw3, decide_False by (intros [-> _]; congruence). done. }
  destruct (UInv_drop _ _ _ _ _ _ _ HU3 Hk) as (s4 & E4 & HU4 & Q4 & _).
  destruct (UInv_drop _ _ _ _ _ _ _ HU4 Hi) as (s5 & E5 & HU5 & Q5 & _).
  assert (∀ q j, ¬ win_entry q j → word s5 q j = if decide (q = b ∧ 0 ≤ j < 512) then word s2 a j else word s2 q j) as Hw.
  { intros q j Hne. destruct Q5 as [-> _]; [|done]. destruct Q4 as [-> _]; [|done]. apply Hw3. }
  assert (∀ j, word s2 a j = word s a j) as Ea.
  { intros j. pose proof (data_not_win T a j HTa Hl3) as Hn. destruct Q2 as [-> _]; [|done].
    rewrite (Hw1 _ _ Hn), decide_False; [done|]. intros [E0 _]. exact (Hab E0). }
  exists s5. split_and!; [|done| | |].
  - cbn [copy_loop]. rewrite Efrom, Eto.
    mrun E1. cbv iota beta. mrun E2. cbv iota beta. mrun E3. mrun E4. by mrun E5.
  - destruct Q5 as (_ & -> & _), Q4 as (_ & -> & _). rewrite Ef3. destruct Q2 as (_ & -> & _). done.
  - intros j Hj. rewrite Hw, decide_True; [apply Ea|split; [reflexivity|exact Hj]|]. exact (data_not_win T b j HTb Hl3).
  - intros q j Hq Hne. rewrite (Hw _ _ Hne), decide_False by (intros [E0 _]; exact (Hq E0)). destruct Q2 as [-> _]; [|done].
    rewrite (Hw1 _ _ Hne), decide_False; [done|]. intros [E0 _]. exact (Hq E0).
Qed.

Lemma copy_pm_run s T W B R a b :
  UInv s T W B R → frame_ok a → frame_ok b → a ≠ b → T !! a = None → T !! b = None →
  (base.size W + 2 ≤ 128)%nat →
  ∃ s', copy_pm a b 1 s = Done (inr tt, s') ∧ UInv s' T W B R ∧ frames s' = frames s ∧
    (∀ j, 0 ≤ j < 512 → word s' b j = word s a j) ∧
    ∀ q j, q ≠ b → ¬ win_entry q j → word s' q j = word s q j.
Proof.
  intros HU Ha Hb. destruct (frame_ok_range a Ha) as [Ra _], (frame_ok_range b Hb) as [Rb _].
  apply (copy_step_run s T W B R a b 0 [] a b); [apply page_0; lia|apply page_0; lia|done..].
Qed.

(** ** Overwriting a mapped page *)
Lemma map_ovwr_run s T W B R sl r v e p perms n :
  UInv s T W B R → shows W sl r → uroot T r → (base.size W + 3 ≤ 128)%nat → room (frames s) (3 + n) →
  R !! (r, vpn v) = Some e → 0 ≤ v < 2 ^ 64 → frame_ok p → perms_ok perms →
  T !! p = None → (∃ h b, in_blk B p h b) →
  ∃ s' T' B', map_ovwr sl v p 1 perms s = Done (inr v, s') ∧
    UInv s' T' W B' (<[(r, vpn v) := Z.lor (Z.lor p perms) 0x403]> R) ∧ T ⊆ T' ∧ B ⊆ B' ∧
    room (frames s') n ∧ keeps s T s' T'.
Proof.
  intros HU Hs Hr Hsz Hroom HR Hv Hp Hpe HTp HBp. destruct (frame_ok_range p Hp) as [Rp _].
  pose proof (lor_perms_fr p perms Hpe Hp) as Hx.
  destruct (UInv_map s T W B R sl r v p perms true n HU Hs Hr Hsz Hroom) as (s' & T' & B' & E & HU' & H); [by rewrite Hx..|].
  rewrite HR in E. simpl in HU'. exists s', T', B'. split_and!; [|done|apply H..].
  unfold map_ovwr. change (range 0 1) with [0]. cbn [map_ovwr_loop]. rewrite !page_0 by lia. by mrun E.
Qed.

(** ** A write fault on a page *)
Lemma cow_page_run s T W B R sl i t l0 r v e b region n :
  UInv s T W B R → shows W sl t → shows W l0 r → uroot T r → (base.size W + 3 ≤ 128)%nat → room (frames s) (4 + n) →
  0 ≤ i < 512 → word s t i = e → R !! (r, vpn v) = Some e → 0 ≤ v < 2 ^ 64 →
  B !! fr e = Some b → bk_pages b = 1 → granule region = 0 →
  if bk_cow b then
    ∃ s' T' B' p, cow_page l0 region v sl i s = Done (true, s') ∧
      UInv s' T' W B' (<[(r, vpn v) := Z.lor (Z.lor p PR_PW_UR_UW1) 0x403]> R) ∧ T ⊆ T' ∧ frame_ok p ∧
      (if bk_ref b =? 1 then p = fr e ∧ <[fr e := mkBlk 1 1 false]> B ⊆ B'
       else B !! p = None ∧ ¬ busy (frames s) p ∧
         <[p := mkBlk 1 1 false]> (<[fr e := mkBlk 1 (bk_ref b - 1) true]> B) ⊆ B') ∧
      (∀ j, 0 ≤ j < 512 → word s' p j = word s (fr e) j) ∧ room (frames s') n ∧ keeps s T s' T'
  else cow_page l0 region v sl i s = Done (false, s).
Proof.
  intros HU Hsl Hl0 Hr Hsz Hroom Hi He HR Hv Hb Hb1 Hg.
  assert (blksize region = 4096) as Hbs by (unfold blksize; by rewrite Hg).
  destruct (ui_data _ _ _ _ _ HU _ _ HR) as [HTe _].
  pose proof (in_blk_head B (fr e) b Hb ltac:(lia)) as Hin.
  pose proof (blocks_frame _ _ _ _ _ (ui_blocks _ _ _ _ _ HU) Hin) as Hfe.
  assert (busy (frames s) (fr e)) as Hbusy by (apply (blocks_busy _ _ _ (ui_blocks _ _ _ _ _ HU)); eauto).
  unfold cow_page. rewrite Hbs. change (4096 / 4096) with 1.
  mrun (pt_get_run _ _ _ _ _ (UInv_wins _ _ _ _ _ HU) Hsl Hi). rewrite He. fold (fr e).
  destruct (bk_cow b) eqn:Hc.
  2: { pose proof (cow_run_not s T W B R (fr e) b HU Hb Hc) as E. rewrite Hb1 in E. by mrun E. }
  destruct (cow_run s T W B R (fr e) b HU Hb Hc) as (s1 & E1 & HU1 & K1 & Hbz & Hrm). rewrite Hb1 in *.
  change (4096 * 1) with 4096 in E1. mrun E1.
  assert (∃ h c, in_blk (<[fr e := if bk_ref b =? 1 then mkBlk 1 1 false else mkBlk 1 (bk_ref b - 1) true]> B) (fr e) h c) as Hin1.
  { eexists (fr e), _. apply in_blk_head; [apply lookup_insert_eq|]. by destruct (_ =? _). }
  destruct (bk_ref b =? 1) eqn:Hn.
  - destruct (map_ovwr_run s1 T W _ R l0 r v e (fr e) PR_PW_UR_UW1 (1 + n) HU1 Hl0 Hr Hsz)
      as (s2 & T' & B' & E2 & HU2 & HT & HB & Rm2 & K2); [by apply Hrm|done..|].
    exists s2, T', B', (fr e). split_and!; [by mrun E2|done|done|done|done|done| |by apply room_less|by eapply keeps_trans].
    intros j _. destruct (keeps_trans _ _ _ _ _ _ K1 K2) as [K _]. by apply K.
  - destruct (frame_run s1 T W _ R (3 + n) HU1) as (p & s2 & E2 & HBp & HTp & Hnb & Hne & HU2 & Rm2 & Em2 & K2);
      [by apply Hrm|]. mrun E2. mstep.
    assert (frame_ok p) as Hp.
    { eapply blocks_frame; [apply (ui_blocks _ _ _ _ _ HU2)|]. eapply in_blk_head; [apply lookup_insert_eq|done]. }
    assert (fr e ≠ p) as Hep by (by eapply Hne).
    destruct (copy_pm_run s2 T W _ R (fr e) p HU2 Hfe Hp Hep HTe HTp ltac:(lia)) as (s3 & E3 & HU3 & Ef3 & Hw3 & Ho3).
    mrun E3. simpl unwrap_r. mstep.
    destruct (map_ovwr_run s3 T W _ R l0 r v e p PR_PW_UR_UW1 n HU3 Hl0 Hr Hsz)
      as (s4 & T' & B' & E4 & HU4 & HT & HB & Rm4 & K4); [by rewrite Ef3|done..|by rewrite HTp| |].
    { eexists p, _. apply in_blk_head; [apply lookup_insert_eq|done]. }
    assert (keeps s T s3 T) as K3.
    { eapply keeps_fresh; [by eapply keeps_trans|by rewrite Hbz|done|by eapply UInv_l3|done]. }
    assert (keeps s T s4 T') as K by by eapply keeps_trans.
    apply lookup_insert_None in HBp as [HBp _].
    exists s4, T', B', p. split_and!; [by mrun E4|done|done|done|done|by rewrite Hbz|done| |done|done].
    intros j Hj. destruct K4 as [K4 _]. destruct (K4 p) as (_ & _ & ->); [|done|].
    + apply (blocks_busy _ _ _ (ui_blocks _ _ _ _ _ HU3)). eexists p, _. apply in_blk_head; [apply lookup_insert_eq|done].
    + rewrite Hw3 by done. destruct (keeps_trans _ _ _ _ _ _ K1 K2) as [K' _]. by apply K'.
Qed.

(** The contents of mapped pages survive what keeps data. *)
Lemma keeps_word s T W B R s' T' k e j :
  keeps s T s' T' → UInv s T W B R → R !! k = Some e → word s' (fr e) j = word s (fr e) j.
Proof.
  intros [K _] [_ U2 _ U4 _] Hk. destruct (U4 _ _ Hk) as [HTe (h & b & Hin)].
  apply K; [|done]. apply (blocks_busy _ _ _ U2). by exists h, b.
Qed.

(** What the handler leaves behind: the page of [far] is backed by [p], writable. *)
Definition unshared s T W B R r far e b n (s' : VSt F) : Prop :=
  ∃ T' B' p, UInv s' T' W B' (<[(r, vpn far) := Z.lor (Z.lor p PR_PW_UR_UW1) 0x403]> R) ∧ T ⊆ T' ∧ frame_ok p ∧
    (if bk_ref b =? 1 then p = fr e ∧ <[fr e := mkBlk 1 1 false]> B ⊆ B'
     else B !! p = None ∧ ¬ busy (frames s) p ∧
       <[p := mkBlk 1 1 false]> (<[fr e := mkBlk 1 (bk_ref b - 1) true]> B) ⊆ B') ∧
    (∀ j, 0 ≤ j < 512 → word s' p j = word s (fr e) j) ∧ room (frames s') n ∧ keeps s T s' T'.

Lemma align_b_page v : 0 ≤ v < 2 ^ 64 → align_b v 4096 = v - v mod 4096.
Proof. intros Hv. change 4096 with (2 ^ 12). rewrite align_b_pow2 by lia. change (2 ^ 12) with 4096. zdiv. Qed.

(** The walk of the handler, with the window onto the root in place. *)
Lemma fault_walk_run s T W B R l0 region r v e b n :
  UInv s T W B R → shows W l0 r → uroot T r → (base.size W + 4 ≤ 128)%nat → room (frames s) (4 + n) →
  0 ≤ v < 2 ^ 64 → granule region = 0 → R !! (r, vpn v) = Some e → B !! fr e = Some b → bk_pages b = 1 →
  if bk_cow b then
    ∃ s', v2p_cb l0 v (cow_page l0 region v) s = Done (inr true, s') ∧ unshared s T W B R r v e b n s'
  else ∃ s', v2p_cb l0 v (cow_page l0 region v) s = Done (inr false, s') ∧ UInv s' T W B R.
Proof.
  intros HU Hl0 Hr Hsz Hroom Hv Hg HR Hb Hb1.
  destruct (leaf_run s T W B R l0 r v e HU Hl0 Hr ltac:(lia) HR) as (k & t & s1 & E1 & Hk & HU1 & Q1 & K1 & Hwk & He & HTt).
  assert (base.size (<[k := t]> W) = S (base.size W)) as Hsz1 by by rewrite map_size_insert_None.
  assert (frames s1 = frames s) as Ef1 by by destruct Q1 as (_ & -> & _).
  pose proof (cow_page_run s1 T _ B R (Win (waddr k)) (vaddr_l3 v) t l0 r v e b region n HU1 (shows_insert _ k t)
    (shows_mono _ _ _ _ (insert_subseteq _ _ t Hk) Hl0) Hr ltac:(lia) ltac:(by rewrite Ef1) (l3_range v) He HR Hv Hb Hb1 Hg) as Hc.
  unfold v2p_cb. mrun E1. cbv iota beta. destruct (bk_cow b).
  - destruct Hc as (s2 & T' & B' & p & E2 & HU2 & HT & Hp & HB & Hcopy & Rm & K2). mrun E2.
    mrun (pt_get_run _ _ _ _ _ (UInv_wins _ _ _ _ _ HU2) (shows_insert _ k t) (l3_range v)).
    destruct (UInv_drop _ _ _ _ _ _ _ HU2 Hk) as (s3 & E3 & HU3 & Q3 & K3). mrun E3.
    exists s3. split; [done|]. exists T', B', p. rewrite Ef1 in HB.
    split_and!; [done|done|done|done| |by destruct Q3 as (_ & -> & _)|by do 2 (eapply keeps_trans; [eassumption|])].
    intros j Hj. pose proof (keeps_word s2 T' _ B' _ s3 T' (r, vpn v) _ j K3 HU2 (lookup_insert_eq _ _ _)) as E.
    rewrite lor_perms_fr in E by done. rewrite E, Hcopy by done. by eapply keeps_word.
  - mrun Hc. mrun (pt_get_run _ _ _ _ _ (UInv_wins _ _ _ _ _ HU1) (shows_insert _ k t) (l3_range v)).
    destruct (UInv_drop _ _ _ _ _ _ _ HU1 Hk) as (s3 & E3 & HU3 & Q3 & K3). mrun E3. by exists s3.
Qed.

Lemma dabt_run s T W B R m region r far e b n :
  UInv s T W B R → user_pt m = Some r → uroot T r → (base.size W + 5 ≤ 128)%nat → room (frames s) (4 + n) →
  0 ≤ far < 2 ^ 64 → find_region m far = Some region → 0 < Z.land (u_flags region) PF_W →
  granule region = 0 → R !! (r, vpn far) = Some e → B !! fr e = Some b → bk_pages b = 1 →
  if bk_cow b then ∃ s', dabt_handler m far s = Done (tt, s') ∧ unshared s T W B R r far e b n s'
  else dabt_handler m far s = Fault FPanic.
Proof.
  intros HU Hm Hr Hsz Hroom Hfar Hreg Hw Hg HR Hb Hb1.
  assert (blksize region = 4096) as Hbs by (unfold blksize; by rewrite Hg).
  set (v := far - far mod 4096). assert (vpn v = vpn far) as Hv by apply vpn_align.
  assert (0 ≤ v < 2 ^ 64) as Hv64 by (unfold v; zdiv).
  set (Q := λ (good : bool) (s' : VSt F), if bk_cow b then good = true ∧ unshared s T W B R r far e b n s' else good = false).
  destruct (with_table_run s T W B R r (λ l0_pt,
      let! x := v2p_cb l0_pt v (cow_page l0_pt region v) in unwrap_r x) Q HU Hr ltac:(lia)) as (good & s' & E & HQ).
  { intros i s1 Hi HU1 Q1 K1. pose proof HR as HRv. rewrite <- Hv in HRv.
    assert (base.size (<[i := r]> W) = S (base.size W)) as Hsz1 by by rewrite map_size_insert_None.
    assert (frames s1 = frames s) as Ef1 by by destruct Q1 as (_ & -> & _).
    pose proof (fault_walk_run s1 T _ B R (Win (waddr i)) region r v e b n HU1 (shows_insert _ i r) Hr ltac:(lia)
      ltac:(by rewrite Ef1) Hv64 Hg HRv Hb Hb1) as Hc.
    unfold Q. destruct (bk_cow b).
    - destruct Hc as (s2 & E2 & T' & B' & p & HU2 & HT & Hp & HB & Hcopy & Rm & K2).
      exists true, s2. split; [by mrun E2|]. eexists T', B', _. split; [exact HU2|]. intros s3 HU3 Q3 K3. split; [done|].
      exists T', B', p. rewrite Hv in HU3. rewrite Ef1 in HB.
      split_and!; [done|done|done|done| |by destruct Q3 as (_ & -> & _)|by do 2 (eapply keeps_trans; [eassumption|])].
      intros j Hj. pose proof (keeps_word s2 T' _ B' _ s3 T' (r, vpn v) _ j K3 HU2 (lookup_insert_eq _ _ _)) as E.
      rewrite lor_perms_fr in E by done. rewrite E, Hcopy by done. by eapply keeps_word.
    - destruct Hc as (s2 & E2 & HU2). exists false, s2. split; [by mrun E2|]. exists T, B, R. by split. }
  unfold dabt_handler. rewrite Hreg, Hbs, align_b_page by done. fold v.
  rewrite (proj2 (Z.ltb_lt _ _) Hw), Hm. mstep. unfold Q in HQ. destruct (bk_cow b).
  - destruct HQ as [-> HQ]. exists s'. split; [|done]. by mrun E.
  - subst good. by mrun E.
Qed.

(** ** Mapping one page *)
Lemma umap_1 sl v p perms s : 0 ≤ v < 2 ^ 64 → 0 ≤ p < 2 ^ 64 →
  umap sl v p 1 perms s =
    match map_v2p_4k_inner sl v p perms false no_cb s with
    | Done (inl e, s') => Done (inl e, s')
    | Done (inr _, s') => Done (inr v, s')
    | Fault f => Fault f
    end.
Proof.
  intros Hv Hp. unfold umap. change (range 0 1) with [0]. cbn [umap_loop]. rewrite !page_0 by lia.
  unfold bind. destruct (map_v2p_4k_inner _ _ _ _ _ _ s) as [[[e|x] s']|f]; done.
Qed.

Lemma umap_1_run s T W B R sl r v p perms n :
  UInv s T W B R → shows W sl r → uroot T r → (base.size W + 3 ≤ 128)%nat → room (frames s) (3 + n) →
  R !! (r, vpn v) = None → 0 ≤ v < 2 ^ 64 → frame_ok p → perms_ok perms →
  T !! p = None → (∃ h b, in_blk B p h b) →
  ∃ s' T' B', umap sl v p 1 perms s = Done (inr v, s') ∧
    UInv s' T' W B' (<[(r, vpn v) := Z.lor (Z.lor p perms) 0x403]> R) ∧ T ⊆ T' ∧ B ⊆ B' ∧
    room (frames s') n ∧ keeps s T s' T'.
Proof.
  intros HU Hs Hr Hsz Hroom HR Hv Hp Hpe HTp HBp. destruct (frame_ok_range p Hp) as [Rp _].
  pose proof (lor_perms_fr p perms Hpe Hp) as Hx.
  destruct (UInv_map s T W B R sl r v p perms false n HU Hs Hr Hsz Hroom) as (s' & T' & B' & E & HU' & H); [by rewrite Hx..|].
  rewrite HR in E, HU'. simpl in HU'. exists s', T', B'. split_and!; [|done|apply H..].
  rewrite umap_1 by lia. by rewrite E.
Qed.

(** ** Sharing a region *)
Lemma clone_block_run s T W B R from to r1 r2 region i v e b flags n :
  UInv s T W B R → shows W from r1 → shows W to r2 → uroot T r1 → uroot T r2 → r1 ≠ r2 →
  (base.size W + 3 ≤ 128)%nat → room (frames s) (3 + n) → granule region = 0 →
  u_vaddr region +! i *! 4096 = v → 0 ≤ v < 2 ^ 64 → v mod 4096 = 0 → perms_ok flags →
  R !! (r1, vpn v) = Some e → R !! (r2, vpn v) = None → B !! fr e = Some b → bk_pages b = 1 →
  let x := Z.lor (Z.lor (fr e) flags) 0x403 in
  ∃ s' T' B', clone_block flags region from to i s = Done (tt, s') ∧
    UInv s' T' W B' (<[(r2, vpn v) := x]> (<[(r1, vpn v) := x]> R)) ∧ T ⊆ T' ∧
    <[fr e := mkBlk 1 (bk_ref b + 1) true]> B ⊆ B' ∧ room (frames s') n ∧ keeps s T s' T'.
Proof.
  intros HU Hf Ht Hr1 Hr2 H12 Hsz Hroom Hg Hv Hv64 Hal Hpe HR1 HR2 Hb Hb1 x.
  assert (blksize region = 4096) as Hbs by (unfold blksize; by rewrite Hg).
  destruct (ui_data _ _ _ _ _ HU _ _ HR1) as [HTe _].
  assert (frame_ok (fr e)) as Hfe
    by (eapply blocks_frame; [apply (ui_blocks _ _ _ _ _ HU)|apply in_blk_head; [done|lia]]).
  destruct (v2p_perms_run s T W B R from r1 v e flags HU Hf Hr1 Hsz HR1 Hpe) as (s1 & E1 & HU1 & Ef1 & K1).
  rewrite (offset_aligned v Hal), Z.lor_0_r in E1.
  destruct (share_run s1 T W B _ (fr e) b HU1 Hb) as (s2 & E2 & HU2 & K2 & Hrm). rewrite Hb1 in E2, HU2.
  destruct (umap_1_run s2 T W _ _ to r2 v (fr e) flags n HU2 Ht Hr2 Hsz) as (s3 & T' & B' & E3 & HU3 & HT & HB & Rm & K3);
    [apply Hrm; by rewrite Ef1|rewrite lookup_insert_ne by naive_solver; done|done..| |].
  { eexists (fr e), _. apply in_blk_head; [apply lookup_insert_eq|done]. }
  exists s3, T', B'. split_and!; [|done|done|done|done|by do 2 (eapply keeps_trans; [eassumption|])].
  unfold clone_block. rewrite Hbs, Hv. mrun E1. simpl unwrap_r. mstep. change (4096 * 1) with 4096 in E2.
  mrun E2. mstep. change (4096 / 4096) with 1. mrun E3. by simpl unwrap_r.
Qed.

(** The frames behind the pages [l] of a tree, from page number [v0]. *)
Definition page_frames R (r v0 : Z) (l : list Z) : list Z := omap (λ i, fr <$> R !! (r, v0 + i)) l.

(** [B'] has [l] shared once more. *)
Definition shared_in (l : list Z) B B' : Prop :=
  ∀ h b, B !! h = Some b →
    B' !! h = Some (mkBlk (bk_pages b) (bk_ref b + occ h l) (bk_cow b || (0 <? occ h l))).

Lemma occ_nonneg h l : 0 ≤ occ h l.
Proof. unfold occ. lia. Qed.

Lemma shared_in_nil B B' : B ⊆ B' → shared_in [] B B'.
Proof.
  intros Hs h b Hb. change (occ h []) with 0. rewrite Z.add_0_r, orb_false_r.
  rewrite (lookup_weaken _ _ _ _ Hb Hs). by destruct b.
Qed.

Lemma shared_in_cons p b l B B1 B' :
  B !! p = Some b → <[p := mkBlk (bk_pages b) (bk_ref b + 1) true]> B ⊆ B1 → shared_in l B1 B' →
  shared_in (p :: l) B B'.
Proof.
  intros Hb Hs Hl h c Hc. rewrite occ_cons. pose proof (occ_nonneg h l). destruct (decide (p = h)) as [->|Hne].
  - rewrite Hb in Hc. injection Hc as <-.
    rewrite (Hl h _ (lookup_weaken _ _ _ _ (lookup_insert_eq _ _ _) Hs)). simpl.
    rewrite (proj2 (Z.ltb_lt 0 (1 + occ h l))) by lia. rewrite orb_true_r. do 2 f_equal. lia.
  - rewrite (Hl h c); [done|]. eapply lookup_weaken; [|exact Hs]. by rewrite lookup_insert_ne.
Qed.

Lemma page_frames_cons R r v0 i l :
  page_frames R r v0 (i :: l) =
    match R !! (r, v0 + i) with Some e => fr e :: page_frames R r v0 l | None => page_frames R r v0 l end.
Proof. unfold page_frames. simpl. by destruct (R !! (r, v0 + i)). Qed.

Lemma page_frames_agree R R' r v0 l :
  (∀ i, i ∈ l → R' !! (r, v0 + i) = R !! (r, v0 + i)) → page_frames R' r v0 l = page_frames R r v0 l.
Proof.
  intros H. induction l as [|i l IH]; [done|]. rewrite !page_frames_cons.
  rewrite H by apply list_elem_of_here. rewrite IH; [done|]. intros j Hj. apply H. by apply list_elem_of_further.
Qed.

(** The pages of a region, by number. *)
Definition region_ok (region : URegion) (n : Z) : Prop :=
  granule region = 0 ∧ 0 ≤ u_vaddr region ∧ u_vaddr region mod 4096 = 0 ∧ u_len region = 4096 * n ∧ 0 ≤ n ∧
  u_vaddr region + u_len region ≤ 2 ^ 47.

Lemma region_page region n i :
  region_ok region n → 0 ≤ i < n →
  let v := u_vaddr region + 4096 * i in
  u_vaddr region +! i *! 4096 = v ∧ 0 ≤ v < 2 ^ 64 ∧ v mod 4096 = 0 ∧ vpn v = vpn (u_vaddr region) + i.
Proof.
  intros (_ & Hv & Ha & Hl & Hn & Hm) Hi v. rewrite wmul_small, wadd_small by lia.
  split_and!; [lia|lia|lia| |].
  - unfold v. rewrite Z.mul_comm, Z.mod_add by lia. done.
  - apply vpn_add; lia.
Qed.

Definition cloned R r1 r2 v0 lo hi flags (r k : Z) : option Z :=
  if decide ((r = r1 ∨ r = r2) ∧ v0 + lo ≤ k < v0 + hi)
  then (λ e, Z.lor (Z.lor (fr e) flags) 0x403) <$> R !! (r1, k)
  else R !! (r, k).
End run.
