(* ===== verification/UmemSafe.v ===== *)
(** * Copy on write: no frame is writable by one task and visible to another

    [Safe B R]: a mapped frame is mapped at most as often as its block is
    referenced, a block that is not marked copy-on-write has one reference,
    and a writable entry points into a block that is not so marked.  Hence a
    writable page is mapped once, and a store through it is seen nowhere else. *)
From S2P Require Import Prelude Stuff Pm Vm VmInv VmTree VmRun VmFree VmSpec Umem UmemInv UmemRun.

Local Open Scope Z_scope.

(** How often frame [p] is mapped. *)
Definition cnt (R : gmap (Z * Z) Z) (p : Z) : Z := Z.of_nat (base.size (filter (λ x, fr x.2 = p) R)).

Definition Safe (B : gmap Z blk) (R : gmap (Z * Z) Z) : Prop :=
  ∀ k e h b, R !! k = Some e → in_blk B (fr e) h b →
    cnt R (fr e) ≤ bk_ref b ∧ (bk_cow b = false → bk_ref b = 1) ∧ (kwritable e = true → bk_cow b = false).

Definition hit (o : option Z) (p : Z) : Z :=
  match o with Some e => if decide (fr e = p) then 1 else 0 | None => 0 end.

Section count.
Implicit Types (R : gmap (Z * Z) Z).

Lemma cnt_insert R k x p : cnt (<[k := x]> R) p = cnt R p - hit (R !! k) p + hit (Some x) p.
Proof.
  assert (∀ R', R' !! k = None → cnt (<[k := x]> R') p = cnt R' p + hit (Some x) p) as Hnew.
  { intros R' Hn. unfold cnt, hit. destruct (decide (fr x = p)) as [E|Hne].
    - rewrite map_filter_insert_True by done. rewrite map_size_insert_None; [lia|].
      by apply map_lookup_filter_None; left.
    - rewrite map_filter_insert_not' by (done || by rewrite Hn). lia. }
  assert (cnt R p = cnt (delete k R) p + hit (R !! k) p) as Hd.
  { destruct (R !! k) as [e|] eqn:E; [|rewrite delete_id by done; simpl; lia].
    rewrite <- (insert_delete_id R k e E) at 1. unfold cnt, hit. destruct (decide (fr e = p)) as [Ep|Hne].
    - rewrite map_filter_insert_True by done. rewrite map_size_insert_None; [lia|].
      apply map_lookup_filter_None. left. apply lookup_delete_eq.
    - rewrite map_filter_insert_not' by (done || by rewrite lookup_delete_eq). lia. }
  rewrite <- insert_delete_eq. rewrite Hnew by apply lookup_delete_eq. lia.
Qed.

Lemma cnt_ge1 R k e : R !! k = Some e → 1 ≤ cnt R (fr e).
Proof.
  intros Hk. unfold cnt. destruct (base.size _) eqn:E; [|lia]. apply map_size_empty_inv in E.
  assert (filter (λ x, fr x.2 = fr e) R !! k = Some e) as H by by apply map_lookup_filter_Some.
  by rewrite E in H.
Qed.

(** A frame mapped once is mapped at one place. *)
Lemma cnt_unique R k e k' e' : R !! k = Some e → R !! k' = Some e' → fr e' = fr e → cnt R (fr e) ≤ 1 → k' = k.
Proof.
  intros Hk Hk' Ef Hc. destruct (decide (k' = k)) as [|Hne]; [done|exfalso].
  pose proof (cnt_insert (delete k R) k e (fr e)) as E1. rewrite insert_delete_id, lookup_delete_eq in E1 by done.
  simpl in E1. rewrite decide_True in E1 by done.
  assert (1 ≤ cnt (delete k R) (fr e)).
  { rewrite <- Ef. apply cnt_ge1 with k'. by rewrite lookup_delete_ne. }
  lia.
Qed.
End count.

(** Every mapped frame belongs to a block. *)
Definition covers (B : gmap Z blk) (R : gmap (Z * Z) Z) : Prop :=
  ∀ k e, R !! k = Some e → ∃ h b, in_blk B (fr e) h b.

Section safe.
Context {im : Image} {F : Type} {fo : FrameOps F} {so : ShareOps F} {fl : FrameLaws F} {shl : ShareLaws F}.
Implicit Types (s : VSt F) (W : gmap Z Z) (T : gmap Z (Z * list Z)) (B : gmap Z blk) (R : gmap (Z * Z) Z).

(** ** Stores *)

(** What a task with root [r] reads at [v], a word at a time. *)
Definition uload s (r v : Z) : option Z :=
  e ← translate s r v; Some (word s (fr e) (Z.land v 0xfff / 8)).

(** The word a task writes at [v]. *)
Definition ustore s (r v x : Z) : option (VSt F) :=
  e ← translate s r v; if kwritable e then Some (set_word (fr e) (Z.land v 0xfff / 8) x s) else None.

Lemma uload_agree s T W B R s' T' W' B' R' r v :
  UInv s T W B R → UInv s' T' W' B' R' → uroot T r → uroot T' r → keeps s T s' T' →
  fr <$> R' !! (r, vpn v) = fr <$> R !! (r, vpn v) → uload s' r v = uload s r v.
Proof.
  intros HU HU' Hr Hr' HK HR. unfold uload.
  rewrite (ui_map _ _ _ _ _ HU r v Hr), (ui_map _ _ _ _ _ HU' r v Hr').
  destruct (R !! (r, vpn v)) as [e|] eqn:E, (R' !! (r, vpn v)) as [e'|] eqn:E'; try done.
  simpl in *. injection HR as ->. f_equal. by eapply keeps_word.
Qed.

Lemma store_isolated s T W B R r v x s' :
  UInv s T W B R → Safe B R → uroot T r → ustore s r v x = Some s' →
  UInv s' T W B R ∧ uload s' r v = Some x ∧
  ∀ r' v', uroot T r' → ¬ (r' = r ∧ vpn v' = vpn v ∧ Z.land v' 0xfff / 8 = Z.land v 0xfff / 8) →
    uload s' r' v' = uload s r' v'.
Proof.
  intros HU HS Hr Hst. pose proof HU as [U1 U2 U3 U4 U5]. unfold ustore in Hst. rewrite U3 in Hst by done.
  destruct (R !! (r, vpn v)) as [e|] eqn:E; [|done]. simpl in Hst. destruct (kwritable e) eqn:Ew; [|done].
  injection Hst as <-. destruct (U4 _ _ E) as [HTe (h & b & Hin)].
  destruct (HS _ _ _ _ E Hin) as (Hc & H1 & H2). specialize (H1 (H2 Ew)). rewrite H1 in Hc.
  assert (UInv (set_word (fr e) (Z.land v 0xfff / 8) x s) T W B R) as HU'.
  { eapply UInv_data; [exact HU|done|done|]. intros p j Hp. rewrite word_set, decide_False; [done|]. by intros [-> _]. }
  split_and!; [done| |].
  - unfold uload. rewrite (ui_map _ _ _ _ _ HU' r v Hr), E. simpl. by rewrite word_set, decide_True.
  - intros r' v' Hr' Hne. unfold uload. rewrite (ui_map _ _ _ _ _ HU' r' v' Hr'), U3 by done.
    destruct (R !! (r', vpn v')) as [e'|] eqn:E'; [|done]. simpl. rewrite word_set, decide_False; [done|].
    intros [Ef Eo]. apply Hne. pose proof (cnt_unique R _ _ _ _ E E' Ef Hc) as Ek. by injection Ek as -> ->.
Qed.

Lemma UInv_cov s T W B R : UInv s T W B R → covers B R.
Proof. intros [_ _ _ U4 _] k e Hk. by destruct (U4 _ _ Hk). Qed.

(** ** Sharing and unsharing keep it *)
Lemma flags_ro p flags : Z.testbit flags 7 = true → kwritable (Z.lor (Z.lor p flags) 0x403) = false.
Proof. intros H. unfold kwritable. rewrite !Z.lor_spec, H. by rewrite orb_true_r. Qed.

Lemma Safe_clone f B R B' r1 r2 k e b flags :
  Safe B R → blocks f B' → covers B R →
  R !! (r1, k) = Some e → R !! (r2, k) = None → r1 ≠ r2 → B !! fr e = Some b → bk_pages b = 1 →
  <[fr e := mkBlk 1 (bk_ref b + 1) true]> B ⊆ B' → perms_ok flags → Z.testbit flags 7 = true →
  let x := Z.lor (Z.lor (fr e) flags) 0x403 in
  Safe B' (<[(r2, k) := x]> (<[(r1, k) := x]> R)).
Proof.
  intros HS HB' Hcov H1 H2 H12 Hb Hb1 Hs Hp Hro x k' e' h b' Hk' Hin.
  assert (fr x = fr e) as Hx by by apply fr_leaf.
  assert (∀ p, cnt (<[(r2, k) := x]> (<[(r1, k) := x]> R)) p = cnt R p + hit (Some e) p) as Hc.
  { intros p. rewrite !cnt_insert, H1. rewrite lookup_insert_ne by congruence. rewrite H2. unfold hit. rewrite Hx. lia. }
  rewrite Hc.
  assert (∀ h, h ≠ fr e → B' !! h = Some b' → ∀ c, B !! h = Some c → b' = c) as Hold.
  { intros g Hg Hb' c Hgc. assert (B' !! g = Some c) as Hg'
      by (eapply lookup_weaken; [|exact Hs]; by rewrite lookup_insert_ne).
    congruence. }
  assert (in_blk B' (fr e) (fr e) (mkBlk 1 (bk_ref b + 1) true)) as Hine.
  { eapply in_blk_mono; [exact Hs|]. apply in_blk_head; [apply lookup_insert_eq|done]. }
  destruct (HS _ _ _ _ H1 (in_blk_head B _ _ Hb ltac:(lia))) as (Hc1 & _ & _).
  assert (fr e' = fr e ∨ fr e' ≠ fr e ∧ R !! k' = Some e') as [Ee|[Hne HR]].
  { rewrite !lookup_insert_Some in Hk'. destruct Hk' as [[_ <-]|[_ [[_ <-]|[_ Hk']]]]; [by left; rewrite Hx..|].
    destruct (decide (fr e' = fr e)); [by left|by right]. }
  - rewrite Ee in *. assert (h = fr e) as -> by (eapply blocks_apart; [exact HB'|exact Hin|exact Hine]).
    destruct Hin as [Hin _], Hine as [Hine _]. rewrite Hin in Hine. injection Hine as ->. simpl.
    rewrite decide_True by done. split_and!; [lia|done|]. intros Hw. exfalso.
    rewrite !lookup_insert_Some in Hk'. destruct Hk' as [[_ <-]|[_ [[_ <-]|[Hne Hk']]]];
      [by unfold x in Hw; rewrite flags_ro in Hw..|].
    destruct (HS _ _ _ _ Hk' ltac:(rewrite Ee; apply (in_blk_head B _ b Hb); lia)) as (Hc2 & Hr & Hcw).
    rewrite Ee in Hc2. specialize (Hr (Hcw Hw)). rewrite Hr in Hc1. apply Hne.
    symmetry. by apply (cnt_unique R _ _ _ _ H1 Hk' Ee Hc1).
  - destruct (Hcov _ _ HR) as (g & c & Hg).
    assert (g ≠ fr e) as Hge.
    { intros ->. destruct Hg as [Hg (i & Hi & Ei)]. rewrite Hb in Hg. injection Hg as <-. lia. }
    assert (in_blk B' (fr e') g c) as Hg'.
    { destruct Hg as [Hg Hi]. split; [|done]. eapply lookup_weaken; [|exact Hs]. by rewrite lookup_insert_ne. }
    assert (h = g) as -> by (eapply blocks_apart; [exact HB'|exact Hin|exact Hg']).
    destruct Hin as [Hin _], Hg' as [Hg' _]. rewrite Hin in Hg'. injection Hg' as ->.
    simpl. rewrite decide_False by congruence. rewrite Z.add_0_r. by apply (HS _ _ _ _ HR Hg).
Qed.

Lemma in_blk_fun f B p h b h' b' : blocks f B → in_blk B p h b → in_blk B p h' b' → h' = h ∧ b' = b.
Proof.
  intros HB H1 H2. assert (h' = h) as -> by (eapply blocks_apart; [exact HB|exact H2|exact H1]).
  destruct H1 as [H1 _], H2 as [H2 _]. split; congruence.
Qed.

(** A frame outside of block [q] stays in its block when only [q] changes. *)
Lemma in_blk_other B q b c p h d :
  B !! q = Some b → bk_pages b = 1 → p ≠ q → in_blk B p h d → in_blk (<[q := c]> B) p h d.
Proof.
  intros Hq Hb Hne [Hd (i & Hi & ->)]. split; [|eauto]. rewrite lookup_insert_ne; [done|]. intros ->.
  rewrite Hq in Hd. injection Hd as <-. apply Hne. lia.
Qed.

Lemma UW1_writable p : frame_ok p → kwritable (Z.lor (Z.lor p PR_PW_UR_UW1) 0x403) = true.
Proof.
  intros [_ Hp]. unfold kwritable. rewrite !Z.lor_spec, <- Hp, Z.land_spec.
  change (Z.testbit PHY_MASK 7) with false. rewrite andb_false_r. done.
Qed.

(** The last holder gets the block back. *)
Lemma Safe_remap f B R B' k e b :
  Safe B R → blocks f B' → covers B R →
  R !! k = Some e → B !! fr e = Some b → bk_pages b = 1 → bk_ref b = 1 → frame_ok (fr e) →
  <[fr e := mkBlk 1 1 false]> B ⊆ B' →
  Safe B' (<[k := Z.lor (Z.lor (fr e) PR_PW_UR_UW1) 0x403]> R).
Proof.
  intros HS HB' Hcov HR Hb Hb1 Hr Hfe Hs k' e' h b' Hk' Hin. set (x := Z.lor _ 0x403) in *.
  assert (fr x = fr e) as Hx by by apply lor_perms_fr.
  assert (∀ p, cnt (<[k := x]> R) p = cnt R p) as Hc.
  { intros p. rewrite cnt_insert, HR. unfold hit. rewrite Hx. lia. }
  destruct (HS _ _ _ _ HR (in_blk_head B _ _ Hb ltac:(lia))) as (Hc1 & _ & _). rewrite Hr in Hc1.
  rewrite Hc. destruct (decide (fr e' = fr e)) as [Ee|Hne].
  - rewrite Ee in *. destruct (in_blk_fun f B' (fr e) (fr e) (mkBlk 1 1 false) h b') as [-> ->]; [done| |done|done].
    eapply in_blk_mono; [exact Hs|]. apply in_blk_head; [apply lookup_insert_eq|done].
  - apply lookup_insert_Some in Hk' as [[_ <-]|[_ Hk']]; [done|]. destruct (Hcov _ _ Hk') as (g & c & Hg).
    destruct (in_blk_fun f B' (fr e') g c h b') as [-> ->]; [done| |done|by apply (HS _ _ _ _ Hk' Hg)].
    eapply in_blk_mono; [exact Hs|]. by eapply in_blk_other.
Qed.

(** Any other holder gets a copy. *)
Lemma Safe_copy f0 f B R B' k e b p :
  Safe B R → blocks f0 B → blocks f B' → covers B R →
  R !! k = Some e → B !! fr e = Some b → bk_pages b = 1 → bk_cow b = true → frame_ok p → ¬ busy f0 p →
  <[p := mkBlk 1 1 false]> (<[fr e := mkBlk 1 (bk_ref b - 1) true]> B) ⊆ B' →
  Safe B' (<[k := Z.lor (Z.lor p PR_PW_UR_UW1) 0x403]> R).
Proof.
  intros HS HB HB' Hcov HR Hb Hb1 Hcow Hp Hnb Hs k' e' h b' Hk' Hin. set (x := Z.lor _ 0x403) in *.
  assert (fr x = p) as Hx by by apply lor_perms_fr.
  assert (∀ g c, B !! g = Some c → 0 < bk_pages c → g ≠ p) as Hgp.
  { intros g c Hg Hpg ->. apply Hnb, (blocks_busy _ _ _ HB). exists p, c. by apply in_blk_head. }
  assert (∀ k0 e0, R !! k0 = Some e0 → fr e0 ≠ p) as Hfresh.
  { intros k0 e0 H0 <-. destruct (Hcov _ _ H0) as (g & c & Hg). apply Hnb, (blocks_busy _ _ _ HB). eauto. }
  assert (cnt R p = 0) as Hc0.
  { unfold cnt. assert (filter (λ x, fr x.2 = p) R = ∅) as ->; [|done]. apply map_empty_filter_2.
    intros k0 e0 H0. by apply (Hfresh k0). }
  assert (fr e ≠ p) as Hep by by eapply Hfresh.
  assert (in_blk B' (fr e) (fr e) (mkBlk 1 (bk_ref b - 1) true)) as Hine.
  { eapply in_blk_mono; [exact Hs|]. apply in_blk_head; [|done]. rewrite lookup_insert_ne by done. apply lookup_insert_eq. }
  assert (in_blk B' p p (mkBlk 1 1 false)) as Hinp.
  { eapply in_blk_mono; [exact Hs|]. apply in_blk_head; [apply lookup_insert_eq|done]. }
  destruct (HS _ _ _ _ HR (in_blk_head B _ _ Hb ltac:(lia))) as (Hc1 & _ & _).
  rewrite cnt_insert, HR. unfold hit. rewrite Hx.
  destruct (decide (fr e' = p)) as [Ep|Hnp]; [|destruct (decide (fr e' = fr e)) as [Ee|Hne]].
  - rewrite Ep in *. rewrite decide_False, decide_True by done.
    destruct (in_blk_fun f B' p p _ h b' HB' Hinp Hin) as [-> ->]. simpl. split_and!; [lia|done|done].
  - rewrite Ee in *. rewrite decide_True, decide_False by done.
    destruct (in_blk_fun f B' (fr e) (fr e) _ h b' HB' Hine Hin) as [-> ->]. simpl. split_and!; [lia|done|].
    intros Hw. exfalso. apply lookup_insert_Some in Hk' as [[_ <-]|[_ Hk']]; [congruence|].
    destruct (HS _ _ _ _ Hk' ltac:(rewrite Ee; apply (in_blk_head B _ b Hb); lia)) as (_ & _ & H). specialize (H Hw). congruence.
  - rewrite !decide_False by congruence. apply lookup_insert_Some in Hk' as [[_ <-]|[_ Hk']]; [congruence|].
    destruct (Hcov _ _ Hk') as (g & c & Hg).
    destruct (in_blk_fun f B' (fr e') g c h b') as [-> ->]; [done| |done|].
    + eapply in_blk_mono; [exact Hs|].
      assert (in_blk (<[fr e := mkBlk 1 (bk_ref b - 1) true]> B) (fr e') g c) as [H1 H2] by by eapply in_blk_other.
      split; [|done]. rewrite lookup_insert_ne; [done|]. intros E. symmetry in E. revert E.
      apply (Hgp g c); [apply Hg|]. destruct Hg as [_ (i & Hi & _)]. lia.
    + replace (cnt R (fr e') - 0 + 0) with (cnt R (fr e')) by lia. by apply (HS _ _ _ _ Hk' Hg).
Qed.

Lemma Safe_mono f B R B' :
  Safe B R → blocks f B' → B ⊆ B' → covers B R → Safe B' R.
Proof.
  intros HS HB' Hs Hcov k e h b Hk Hin. destruct (Hcov _ _ Hk) as (g & c & Hg).
  destruct (in_blk_fun f B' (fr e) g c h b) as [-> ->]; [done|by eapply in_blk_mono|done|]. by apply (HS _ _ _ _ Hk Hg).
Qed.

(** ** Sharing a region, page by page *)
Lemma clone_loop_run from to r1 r2 region flags n W :
  region_ok region n → shows W from r1 → shows W to r2 → r1 ≠ r2 → perms_ok flags → Z.testbit flags 7 = true → (base.size W + 3 ≤ 128)%nat →
  let v0 := vpn (u_vaddr region) in
  ∀ k lo s T B R m, 0 ≤ lo → n - lo = Z.of_nat k → UInv s T W B R → uroot T r1 → uroot T r2 →
  room (frames s) (3 * k + m) →
  (∀ i, lo ≤ i < n → ∃ e b, R !! (r1, v0 + i) = Some e ∧ B !! fr e = Some b ∧ bk_pages b = 1) →
  (∀ i, lo ≤ i < n → R !! (r2, v0 + i) = None) →
  ∃ s' T' B' R', forM (range lo n) (clone_block flags region from to) s = Done (tt, s') ∧
    UInv s' T' W B' R' ∧ T ⊆ T' ∧ room (frames s') m ∧ keeps s T s' T' ∧
    shared_in (page_frames R r1 v0 (range lo n)) B B' ∧
    (∀ r j, R' !! (r, j) = cloned R r1 r2 v0 lo n flags r j) ∧ (Safe B R → Safe B' R').
Proof.
  intros Hreg Hf Ht H12 Hpe Hro Hsz v0. induction k as [|k IH]; intros lo s T B R m Hlo Hk HU Hr1 Hr2 Hroom H1 H2.
  - rewrite range_nil by lia. exists s, T, B, R. split_and!; try done; [by apply shared_in_nil|].
    intros r j. unfold cloned. by rewrite decide_False by lia.
  - rewrite range_cons by lia. destruct (region_page region n lo Hreg ltac:(lia)) as (Ev & Hv64 & Hal & Evp).
    destruct (H1 lo ltac:(lia)) as (e & b & He & Hb & Hb1). fold v0 in Evp.
    replace (3 * S k + m)%nat with (3 + (3 * k + m))%nat in Hroom by lia.
    destruct (clone_block_run s T W B R from to r1 r2 region lo (u_vaddr region + 4096 * lo) e b flags (3 * k + m) HU Hf Ht Hr1 Hr2 H12 Hsz Hroom)
      as (s1 & T1 & B1 & E1 & HU1 & HT1 & HB1 & Rm1 & K1); [apply Hreg|exact Ev|done|done|done|by rewrite Evp|rewrite Evp; apply H2; lia|done|done|].
    rewrite Evp in HU1. set (R1 := <[(r2, v0 + lo) := _]> _) in HU1.
    assert (∀ r j, j ≠ v0 + lo → R1 !! (r, j) = R !! (r, j)) as HR1 by (intros r j Hj; unfold R1; rewrite !lookup_insert_ne by congruence; done).
    assert (∀ h c, B !! h = Some c → ∃ c', B1 !! h = Some c' ∧ bk_pages c' = bk_pages c) as HBp.
    { intros h c Hc. destruct (decide (h = fr e)) as [->|Hne].
      - eexists. split; [eapply lookup_weaken; [apply lookup_insert_eq|exact HB1]|]. rewrite Hb in Hc. injection Hc as <-. done.
      - exists c. split; [|done]. eapply lookup_weaken; [|exact HB1]. by rewrite lookup_insert_ne. }
    destruct (IH (lo + 1) s1 T1 B1 R1 m) as (s' & T' & B' & R' & E' & HU' & HT' & Rm' & K' & HS & HR' & HSafe);
      [lia|lia|done|by eapply uroot_mono|by eapply uroot_mono|done| | |].
    { intros i Hi. destruct (H1 i ltac:(lia)) as (e' & b' & He' & Hb' & Hb1'). destruct (HBp _ _ Hb') as (c & Hc & Ec).
      exists e', c. rewrite HR1 by lia. split_and!; [done|done|lia]. }
    { intros i Hi. rewrite HR1 by lia. apply H2. lia. }
    exists s', T', B', R'. split_and!; [|done|by etrans|done|by eapply keeps_trans| | |].
    + rewrite (forM_cons _ _ _ _ _ E1). done.
    + rewrite page_frames_cons, He.
      eapply shared_in_cons; [done|rewrite Hb1; exact HB1|].
      rewrite <- (page_frames_agree R R1); [done|]. intros i Hi. apply HR1.
      unfold range in Hi. apply elem_of_seqZ in Hi. lia.
    + intros r j. rewrite HR'. unfold cloned. destruct (decide (j = v0 + lo)) as [->|Hj].
      * rewrite (decide_False (P := _ ∧ v0 + (lo + 1) ≤ _ < _)) by lia. unfold R1. rewrite !lookup_insert. rewrite He. simpl.
        repeat case_decide; try done; naive_solver lia.
      * rewrite !HR1 by done. repeat case_decide; try done; naive_solver lia.
    + intros HSf. apply HSafe. unfold R1. eapply Safe_clone; try done; [apply (ui_blocks _ _ _ _ _ HU1)| |apply H2; lia].
      by eapply UInv_cov.
Qed.
End safe.
