(* ===== verification/UmemOps.v ===== *)
(** * Address spaces: making one, growing one *)
From S2P Require Import Prelude Stuff Pm PmInv PmRun PmSpec Vm VmInv VmTree VmRun VmFree VmSpec Umem UmemInv UmemRun UmemSafe.

Local Open Scope Z_scope.

Section ops.
Context {im : Image} {F : Type} {fo : FrameOps F} {so : ShareOps F} {fl : FrameLaws F} {shl : ShareLaws F}.
Implicit Types (s : VSt F) (W : gmap Z Z) (T : gmap Z (Z * list Z)) (B : gmap Z blk) (R : gmap (Z * Z) Z).

(** ** A new tree *)
Lemma forest_root s T s' p :
  forest s T → T !! p = None →
  (∀ q r path j, T !! q = Some (r, path) → (length path < 3)%nat → 0 ≤ j < 512 → word s' q j = word s q j) →
  (∀ j, 0 ≤ j < 512 → word s' p j = 0) → forest s' (<[p := (p, [])]> T).
Proof.
  intros HF Hp Hw Hz. split; [|rewrite lookup_insert_ne; [apply HF|intros ->; by rewrite (fo_win _ _ HF) in Hp]]. split.
  - intros q r path. rewrite lookup_insert. case_decide; [intros [= <- <-]; simpl; lia|apply (fo_len _ _ HF)].
  - intros q r. rewrite lookup_insert. case_decide; [by intros [= <-]|apply (fo_root _ _ HF)].
  - intros q r path j. rewrite lookup_insert. case_decide as Hd; intros Hq Hl Hj Hne.
    { subst q. by rewrite Hz in Hne. }
    rewrite (Hw _ _ _ _ Hq Hl Hj) in *. pose proof (fo_child _ _ HF _ _ _ _ Hq Hl Hj Hne) as Hc.
    rewrite lookup_insert_ne; [done|]. intros E. rewrite <- E in Hc. by rewrite Hc in Hp.
  - intros q r path j. rewrite lookup_insert. case_decide as Hd; intros Hq; [injection Hq as _ E; by destruct path|].
    destruct (fo_parent _ _ HF _ _ _ _ Hq) as (q1 & Hq1 & Hj & Hne & E1). exists q1.
    pose proof (fo_len _ _ HF _ _ _ Hq) as Hlen. rewrite length_app in Hlen. simpl in Hlen.
    rewrite lookup_insert_ne by (intros <-; by rewrite Hq1 in Hp). rewrite (Hw _ _ _ _ Hq1) by lia. done.
Qed.

Lemma UInv_root s T W B R s' W' p b :
  UInv s T W B R → T !! p = None → B !! p = Some b → bk_pages b = 1 → p ≠ im_pt →
  (∀ k e, R !! k = Some e → fr e ≠ p) →
  Wins s' W' → frames s' = frames s →
  (∀ q j, ¬ win_entry q j → word s' q j = if decide (q = p ∧ 0 ≤ j < 512) then 0 else word s q j) →
  UInv s' (<[p := (p, [])]> T) W' B R ∧ uroot (<[p := (p, [])]> T) p.
Proof.
  intros HU Hp Hb Hb1 Hpt Hne HW Ef Hw. pose proof HU as [[I1 I2 I3 I4] U2 U3 U4 U5].
  assert (uroot (<[p := (p, [])]> T) p) as Hroot by (split; [apply lookup_insert_eq|done]).
  assert (∀ j, ¬ win_entry p j) as Hpw by (intros j; apply (data_not_win T); [done|by eapply UInv_l3]).
  assert (∀ q x j, T !! q = Some x → ¬ win_entry q j → word s' q j = word s q j) as Hold.
  { intros q x j Hq Hn. rewrite Hw by done. rewrite decide_False; [done|]. intros [-> _]. by rewrite Hq in Hp. }
  assert (forest s' (<[p := (p, [])]> T)) as HF.
  { eapply forest_root; [exact I2|done| |].
    - intros q r path j Hq Hl Hj. eapply Hold; [done|by eapply inner_not_win].
    - intros j Hj. rewrite Hw by done. by rewrite decide_True. }
  split; [|done]. split.
  - split; [done|done|by rewrite Ef|]. intros q x. rewrite lookup_insert. case_decide as Hd; [|apply I4].
    intros _. subst q. exists (bk_ref b). by apply single_lookup.
  - by rewrite Ef.
  - intros r v Hr. destruct (decide (r = p)) as [->|Hrp].
    + assert (R !! (p, vpn v) = None) as ->.
      { destruct (R !! (p, vpn v)) eqn:E; [|done]. destruct (U5 _ _ _ E) as [H _]. by rewrite H in Hp. }
      unfold translate, walk, child. rewrite Hw by done. rewrite decide_True by (split; [done|apply l0_range]). done.
    + destruct Hr as [Hr Hri]. rewrite lookup_insert_ne in Hr by done. assert (uroot T r) as Hr' by done.
      rewrite <- U3 by done. apply (extends_translate s T s' (<[p := (p, [])]> T)); [done|done| |done|by eapply uroot_not_win].
      split; [by apply insert_subseteq|]. split; [intros; by eapply Hold|].
      intros t r' path i Ht Ht'. rewrite lookup_insert_Some in Ht'. destruct Ht' as [[_ [= <- <-]]|[_ Ht']]; [done|congruence].
  - intros k e Hk. destruct (U4 _ _ Hk) as [HT HB]. split; [|done]. rewrite lookup_insert_ne; [done|].
    intros E. by apply (Hne k e Hk).
  - intros r k e Hk. eapply uroot_mono; [|by eapply U5]. by apply insert_subseteq.
Qed.

(** Mapping a frame that nothing maps yet. *)
Lemma Safe_add f B R k x h c :
  Safe B R → blocks f B → R !! k = None → in_blk B (fr x) h c → bk_ref c = 1 → bk_cow c = false →
  (∀ k e, R !! k = Some e → fr e ≠ fr x) → Safe B (<[k := x]> R).
Proof.
  intros HS HB Hk Hin Hr Hc Hne k' e' h' b' Hk' Hin'.
  assert (∀ p, cnt (<[k := x]> R) p = cnt R p + hit (Some x) p) as Hcn by (intros p; rewrite cnt_insert, Hk; simpl; lia).
  rewrite Hcn. simpl. apply lookup_insert_Some in Hk' as [[_ <-]|[_ Hk']].
  - destruct (in_blk_fun f B _ _ _ _ _ HB Hin Hin') as [-> ->]. rewrite decide_True by done.
    assert (cnt R (fr x) = 0) as ->; [|split_and!; [lia|done|done]]. unfold cnt.
    assert (filter (λ y, fr y.2 = fr x) R = ∅) as ->; [|done]. apply map_empty_filter_2. intros k0 e0 H0. by apply (Hne k0).
  - rewrite decide_False by (intros E; by apply (Hne _ _ Hk')). rewrite Z.add_0_r. by apply (HS _ _ _ _ Hk' Hin').
Qed.

(** Data and nothing else: the first half of [keeps], for steps that add a tree. *)
Definition keeps_data s T s' T' : Prop :=
  ∀ p, busy (frames s) p → T !! p = None → busy (frames s') p ∧ T' !! p = None ∧ ∀ j, word s' p j = word s p j.

Lemma keeps_data_trans s1 T1 s2 T2 s3 T3 : keeps_data s1 T1 s2 T2 → keeps_data s2 T2 s3 T3 → keeps_data s1 T1 s3 T3.
Proof.
  intros K1 K2 p Hb Hp. destruct (K1 p Hb Hp) as (Hb2 & Hp2 & E1). destruct (K2 p Hb2 Hp2) as (Hb3 & Hp3 & E2).
  split_and!; [done..|]. intros j. by rewrite E2.
Qed.

Lemma keeps_keeps_data s T s' T' : keeps s T s' T' → keeps_data s T s' T'.
Proof. by intros [? _]. Qed.

(** The stack of a task: two pages from [v], backed by the pair at [sp]. *)
Definition stack_pages (r v sp : Z) R : gmap (Z * Z) Z :=
  <[(r, vpn v + 1) := Z.lor (Z.lor (sp + 4096) PR_PW_UR_UW1) 0x403]>
    (<[(r, vpn v) := Z.lor (Z.lor sp PR_PW_UR_UW1) 0x403]> R).

Lemma umap_2_run s T W B R sl r v sp n :
  UInv s T W B R → shows W sl r → uroot T r → (base.size W + 3 ≤ 128)%nat → room (frames s) (6 + n) →
  0 ≤ v → v + 8192 ≤ 2 ^ 47 → v mod 4096 = 0 → R !! (r, vpn v) = None → R !! (r, vpn v + 1) = None →
  B !! sp = Some (mkBlk 2 1 false) → (∀ i, 0 ≤ i < 2 → T !! (sp + 4096 * i) = None) →
  (∀ i k e, 0 ≤ i < 2 → R !! k = Some e → fr e ≠ sp + 4096 * i) → Safe B R →
  ∃ s' T' B', umap sl v sp 2 PR_PW_UR_UW1 s = Done (inr v, s') ∧
    UInv s' T' W B' (stack_pages r v sp R) ∧ T ⊆ T' ∧ B ⊆ B' ∧ room (frames s') n ∧ keeps s T s' T' ∧
    Safe B' (stack_pages r v sp R).
Proof.
  intros HU Hs Hr Hsz Hroom Hv0 Hv1 Hal HR0 HR1 Hb HTsp Hne HS.
  assert (∀ i, 0 ≤ i < 2 → in_blk B (sp + 4096 * i) sp (mkBlk 2 1 false)) as Hin by (intros i Hi; split; [done|by exists i]).
  assert (∀ i, 0 ≤ i < 2 → frame_ok (sp + 4096 * i)) as Hok
    by (intros i Hi; eapply blocks_frame; [apply (ui_blocks _ _ _ _ _ HU)|by apply Hin]).
  pose proof (Hok 0 ltac:(lia)) as Hok0. pose proof (Hok 1 ltac:(lia)) as Hok1. rewrite Z.add_0_r in Hok0.
  change (4096 * 1) with 4096 in Hok1. destruct (frame_ok_range _ Hok0) as [Rsp _].
  assert (vpn (v + 4096) = vpn v + 1) as Hv. { change 4096 with (4096 * 1) at 1. apply vpn_add; lia. }
  assert (T !! sp = None) as HT0. { rewrite <- (HTsp 0) by lia. f_equal. lia. }
  pose proof (lor_perms_fr sp _ UW1_ok Hok0) as Hx0. pose proof (lor_perms_fr (sp + 4096) _ UW1_ok Hok1) as Hx1.
  pose proof (Hin 0 ltac:(lia)) as Hin0. rewrite Z.add_0_r in Hin0.
  destruct (UInv_map s T W B R sl r v sp PR_PW_UR_UW1 false (3 + n) HU Hs Hr Hsz Hroom)
    as (s1 & T1 & B1 & E1 & HU1 & HT1 & HB1 & Rm1 & K1); [by rewrite Hx0|rewrite Hx0; eauto|].
  rewrite HR0 in E1, HU1. simpl in HU1.
  assert (Safe B1 (<[(r, vpn v) := Z.lor (Z.lor sp PR_PW_UR_UW1) 0x403]> R)) as HS1.
  { eapply (Safe_add _ _ _ _ _ sp (mkBlk 2 1 false)); [|exact (ui_blocks _ _ _ _ _ HU1)|done|rewrite Hx0; eapply in_blk_mono; [exact HB1|exact Hin0]|done|done|].
    - eapply Safe_mono; [exact HS|exact (ui_blocks _ _ _ _ _ HU1)|done|by eapply UInv_cov].
    - intros k e Hk. rewrite Hx0. intros E. apply (Hne 0 k e); [lia|done|lia]. }
  pose proof (Hin 1 ltac:(lia)) as Hin1. change (4096 * 1) with 4096 in Hin1.
  pose proof (HTsp 1 ltac:(lia)) as HT1'. change (4096 * 1) with 4096 in HT1'.
  assert (T1 !! (sp + 4096) = None) as HTn.
  { destruct K1 as [K1 _]. apply K1; [|done]. apply (blocks_busy _ _ _ (ui_blocks _ _ _ _ _ HU)). eauto. }
  destruct (UInv_map s1 T1 W B1 _ sl r (v + 4096) (sp + 4096) PR_PW_UR_UW1 false n HU1 Hs)
    as (s2 & T2 & B2 & E2 & HU2 & HT2 & HB2 & Rm2 & K2);
    [by eapply uroot_mono|done|done|by rewrite Hx1|rewrite Hx1; eexists _, _; eapply in_blk_mono; [exact HB1|exact Hin1]|].
  rewrite Hv in E2, HU2. rewrite lookup_insert_ne, HR1 in E2, HU2 by (intros [=]; lia). simpl in HU2.
  exists s2, T2, B2. split_and!; [|done|by etrans|by etrans|done|by eapply keeps_trans|].
  - unfold umap. change (range 0 2) with [0; 1]. cbn [umap_loop]. rewrite !page_0 by lia.
    rewrite !page_i by lia. change (4096 * 1) with 4096. unfold bind. rewrite E1, E2. done.
  - eapply (Safe_add _ _ _ _ _ sp (mkBlk 2 1 false)); [|exact (ui_blocks _ _ _ _ _ HU2)|rewrite lookup_insert_ne, HR1 by (intros [=]; lia); done| |done|done|].
    + eapply Safe_mono; [exact HS1|exact (ui_blocks _ _ _ _ _ HU2)|done|by eapply UInv_cov].
    + rewrite Hx1. eapply in_blk_mono; [exact HB2|]. eapply in_blk_mono; [exact HB1|exact Hin1].
    + intros k e Hk. rewrite Hx1. apply lookup_insert_Some in Hk as [[_ <-]|[_ Hk]]; [rewrite Hx0; lia|].
      intros E. apply (Hne 1 k e); [lia|done|lia].
Qed.

Lemma init_user_run s T W B R m n :
  UInv s T W B R → T !! im_pt ≠ None → (base.size W + 4 ≤ 128)%nat → room (frames s) (gap + (9 + n)) → Safe B R →
  u_vaddr (spel0 m) = 8 * GB → u_len (spel0 m) = SPEL0_SIZE →
  ∃ r sp s' T' B', init_user m s = Done (with_pt (Some r) (Some sp) m, s') ∧
    UInv s' T' W B' (stack_pages r (8 * GB) sp R) ∧ Safe B' (stack_pages r (8 * GB) sp R) ∧
    T !! r = None ∧ uroot T' r ∧ T ⊆ T' ∧ B ⊆ B' ∧ B' !! sp = Some (mkBlk 2 1 false) ∧
    (∀ i, 0 ≤ i < 2 → frame_ok (sp + 4096 * i) ∧ ¬ busy (frames s) (sp + 4096 * i)) ∧
    room (frames s') (gap + n) ∧ keeps_data s T s' T'.
Proof.
  intros HU Hpt Hsz Hroom HS Hva Hln. replace (gap + (9 + n))%nat with (S (gap + (8 + n))) in Hroom by lia.
  destruct (frame_run s T W B R _ HU Hroom) as (r & s1 & E1 & HBr & HTr & Hnb & Hner & HU1 & Rm1 & _ & K1).
  assert (frame_ok r) as Hr.
  { eapply blocks_frame; [exact (ui_blocks _ _ _ _ _ HU1)|apply in_blk_head; [apply lookup_insert_eq|done]]. }
  destruct (window_zero_run s1 T W _ R r HU1 Hr HTr ltac:(lia)) as (i & s2 & E2 & Hi & HU2 & Ef2 & Hw2).
  assert (r ≠ im_pt) as Hrpt by (by intros ->).
  destruct (UInv_root s1 T W _ R s2 (<[i := r]> W) r (mkBlk 1 1 false) HU1 HTr) as [HU3 Hroot];
    [apply lookup_insert_eq|done|done|done|exact (UInv_wins _ _ _ _ _ HU2)|done|done|].
  assert (base.size (<[i := r]> W) = S (base.size W)) as Hsz1 by by rewrite map_size_insert_None.
  destruct (alloc_2_run s2 _ _ _ R (6 + n) HU3) as (sp & s4 & E4 & HBsp & Hsp & HU4 & Rm4 & K4); [by rewrite Ef2|].
  set (T3 := <[r := (r, [])]> T) in *. set (B4 := <[sp := mkBlk 2 1 false]> _) in *.
  assert (∀ i k e, 0 ≤ i < 2 → R !! k = Some e → fr e ≠ sp + 4096 * i) as Hnesp.
  { intros j k e Hj Hk E. destruct (Hsp j Hj) as [Hb _]. apply Hb. rewrite <- E.
    apply (blocks_busy _ _ _ (ui_blocks _ _ _ _ _ HU3)). by eapply UInv_cov. }
  assert (∀ q, busy (frames s) q → busy (frames s2) q) as Hbz.
  { intros q Hq. rewrite Ef2. apply (blocks_busy _ _ _ (ui_blocks _ _ _ _ _ HU)) in Hq as (h & b & Hb).
    apply (blocks_busy _ _ _ (ui_blocks _ _ _ _ _ HU1)). exists h, b. eapply in_blk_mono; [by apply insert_subseteq|done]. }
  assert (∀ k, R !! (r, k) = None) as HRr.
  { intros k. destruct (R !! (r, k)) eqn:E; [|done]. destruct (ui_keys _ _ _ _ _ HU _ _ _ E) as [H _]. by rewrite H in HTr. }
  assert (B ⊆ B4) as HB4 by (etrans; [by apply (insert_subseteq _ r (mkBlk 1 1 false))|by apply insert_subseteq]).
  destruct (umap_2_run s4 T3 _ B4 R (Win (waddr i)) r (8 * GB) sp (gap + n) HU4)
    as (s5 & T5 & B5 & E5 & HU5 & HT5 & HB5 & Rm5 & K5 & HS5);
    [apply shows_insert|done|lia|replace (6 + (gap + n))%nat with (gap + (6 + n))%nat by lia; done|done|done|done
    |apply HRr|apply HRr|apply lookup_insert_eq|intros j Hj; by apply Hsp|done| |].
  { eapply Safe_mono; [exact HS|exact (ui_blocks _ _ _ _ _ HU4)|exact HB4|by eapply UInv_cov]. }
  destruct (UInv_drop _ _ _ _ _ _ _ HU5 Hi) as (s6 & E6 & HU6 & Q6 & K6).
  exists r, sp, s6, T5, B5. split_and!; [|done|done|done| | | | | | |].
  - unfold init_user. mrun E1. mstep. mrun E2. simpl unwrap_r. mstep. mrun E4. mstep. rewrite Hva, Hln.
    change (SPEL0_SIZE / 4096) with 2. mrun E5. simpl unwrap_r. mstep. by mrun E6.
  - by eapply uroot_mono.
  - etrans; [|exact HT5]. by apply insert_subseteq.
  - by etrans.
  - eapply lookup_weaken; [|exact HB5]. apply lookup_insert_eq.
  - intros j Hj. split.
    + eapply blocks_frame; [exact (ui_blocks _ _ _ _ _ HU4)|]. split; [apply lookup_insert_eq|by exists j].
    + intros Hb. by apply (proj1 (Hsp j Hj)), Hbz.
  - by destruct Q6 as (_ & -> & _).
  - eapply (keeps_data_trans _ _ s2 T3); [|eapply (keeps_data_trans _ _ s4 T3); [by apply keeps_keeps_data|];
      eapply (keeps_data_trans _ _ s5 T5); by apply keeps_keeps_data].
    intros q Hq HTq. assert (q ≠ r) as Hqr by (by intros ->). destruct K1 as [K1 _].
    destruct (K1 q Hq HTq) as (_ & _ & Hw1). split_and!; [by apply Hbz|by unfold T3; rewrite lookup_insert_ne|].
    intros j. rewrite Hw2 by (apply (data_not_win T); [done|by eapply UInv_l3]). rewrite decide_False by (by intros [? _]). apply Hw1.
Qed.

(** ** Growing a region *)
Lemma add_page_run s T W B R sl r a i v perms n :
  UInv s T W B R → shows W sl r → uroot T r → (base.size W + 3 ≤ 128)%nat → room (frames s) (4 + n) →
  a +! i *! 4096 = v → 0 ≤ v < 2 ^ 64 → perms_ok perms → R !! (r, vpn v) = None →
  ∃ p s' T' B', add_page sl a perms i s = Done (tt, s') ∧
    UInv s' T' W B' (<[(r, vpn v) := Z.lor (Z.lor p perms) 0x403]> R) ∧ T ⊆ T' ∧ B ⊆ B' ∧ room (frames s') n ∧
    keeps s T s' T' ∧ frame_ok p ∧ ¬ busy (frames s) p ∧ B' !! p = Some (mkBlk 1 1 false) ∧
    (Safe B R → Safe B' (<[(r, vpn v) := Z.lor (Z.lor p perms) 0x403]> R)).
Proof.
  intros HU Hs Hr Hsz Hroom Hv Hv64 Hpe HR.
  destruct (frame_run s T W B R (3 + n) HU Hroom) as (p & s1 & E1 & HBp & HTp & Hnb & Hnep & HU1 & Rm1 & _ & K1).
  assert (in_blk (<[p := mkBlk 1 1 false]> B) p p (mkBlk 1 1 false)) as Hin by (apply in_blk_head; [apply lookup_insert_eq|done]).
  assert (frame_ok p) as Hp by (eapply blocks_frame; [exact (ui_blocks _ _ _ _ _ HU1)|exact Hin]).
  destruct (umap_1_run s1 T W _ R sl r v p perms n HU1 Hs Hr Hsz Rm1 HR Hv64 Hp Hpe HTp)
    as (s2 & T' & B' & E2 & HU2 & HT & HB & Rm2 & K2); [eauto|].
  assert (B ⊆ B') as HBB by (etrans; [by apply (insert_subseteq _ p (mkBlk 1 1 false))|done]).
  exists p, s2, T', B'. split_and!; [|done|done|done|done|exact (keeps_trans _ _ _ _ _ _ K1 K2)|done|done| |].
  - unfold add_page. mrun E1. mstep. rewrite Hv. by mrun E2.
  - eapply lookup_weaken; [apply lookup_insert_eq|exact HB].
  - intros HS. pose proof (lor_perms_fr p perms Hpe Hp) as Hx.
    eapply (Safe_add _ _ _ _ _ p (mkBlk 1 1 false));
      [|exact (ui_blocks _ _ _ _ _ HU2)|done|rewrite Hx; exact (in_blk_mono _ _ _ _ _ HB Hin)|done|done|by rewrite Hx].
    eapply Safe_mono; [exact HS|exact (ui_blocks _ _ _ _ _ HU2)|done|by eapply UInv_cov].
Qed.

Lemma add_pages_run sl r a n W perms :
  0 ≤ a → a mod 4096 = 0 → a + 4096 * n ≤ 2 ^ 47 → shows W sl r → perms_ok perms → (base.size W + 3 ≤ 128)%nat →
  let v0 := vpn a in
  ∀ k lo s T B R m, 0 ≤ lo → n - lo = Z.of_nat k → UInv s T W B R → uroot T r → room (frames s) (4 * k + m) →
  (∀ i, lo ≤ i < n → R !! (r, v0 + i) = None) →
  ∃ s' T' B' R', forM (range lo n) (add_page sl a perms) s = Done (tt, s') ∧
    UInv s' T' W B' R' ∧ T ⊆ T' ∧ B ⊆ B' ∧ room (frames s') m ∧ keeps s T s' T' ∧ (Safe B R → Safe B' R') ∧
    (∀ i, lo ≤ i < n → ∃ p, R' !! (r, v0 + i) = Some (Z.lor (Z.lor p perms) 0x403) ∧ frame_ok p ∧
       ¬ busy (frames s) p ∧ B' !! p = Some (mkBlk 1 1 false)) ∧
    ∀ r' j, ¬ (r' = r ∧ v0 + lo ≤ j < v0 + n) → R' !! (r', j) = R !! (r', j).
Proof.
  intros Ha Hal Hmax Hs Hpe Hsz v0. induction k as [|k IH]; intros lo s T B R m Hlo Hk HU Hr Hroom HR.
  - rewrite range_nil by lia. exists s, T, B, R. split_and!; try done. intros i Hi. lia.
  - rewrite range_cons by lia.
    assert (a +! lo *! 4096 = a + 4096 * lo) as Ev by (rewrite wmul_small, wadd_small; lia).
    assert (vpn (a + 4096 * lo) = v0 + lo) as Evp by (apply vpn_add; lia).
    replace (4 * S k + m)%nat with (4 + (4 * k + m))%nat in Hroom by lia.
    destruct (add_page_run s T W B R sl r a lo (a + 4096 * lo) perms (4 * k + m) HU Hs Hr Hsz Hroom Ev)
      as (p & s1 & T1 & B1 & E1 & HU1 & HT1 & HB1 & Rm1 & K1 & Hp & Hnb & HBp & HS1);
      [lia|done|rewrite Evp; apply HR; lia|]. rewrite Evp in HU1, HS1.
    destruct (IH (lo + 1) s1 T1 B1 _ m ltac:(lia) ltac:(lia) HU1 (uroot_mono _ _ _ HT1 Hr) Rm1)
      as (s' & T' & B' & R' & E' & HU' & HT' & HB' & Rm' & K' & HS' & Hnew & Hold).
    { intros i Hi. rewrite lookup_insert_ne by (intros [=]; lia). apply HR. lia. }
    exists s', T', B', R'. split_and!; [|done|by etrans|by etrans|done|exact (keeps_trans _ _ _ _ _ _ K1 K')|by auto| |].
    + rewrite (forM_cons _ _ _ _ _ E1). done.
    + intros i Hi. destruct (decide (i = lo)) as [->|Hne].
      * exists p. rewrite Hold by lia. rewrite lookup_insert_eq. split_and!; [done|done|done|by eapply lookup_weaken].
      * destruct (Hnew i ltac:(lia)) as (q & Hq & Hqf & Hqb & HqB). exists q. split_and!; [done|done| |done].
        intros Hb. apply Hqb. apply (blocks_busy _ _ _ (ui_blocks _ _ _ _ _ HU)) in Hb as (h & b & Hb).
        apply (blocks_busy _ _ _ (ui_blocks _ _ _ _ _ HU1)). exists h, b. by eapply in_blk_mono.
    + intros r' j Hd. rewrite Hold by lia. rewrite lookup_insert_ne; [done|]. intros [= <- <-]. apply Hd. lia.
Qed.

(** ** Clearing pages that may be written *)
Lemma zero_page_run s T W B R m r v e :
  UInv s T W B R → user_pt m = Some r → uroot T r → R !! (r, vpn v) = Some e → kwritable e = true →
  ∃ s', zero_page m v s = Done (tt, s') ∧ UInv s' T W B R ∧ frames s' = frames s ∧
    ∀ q j, word s' q j = if decide (q = fr e ∧ 0 ≤ j < 512) then 0 else word s q j.
Proof.
  intros HU Hm Hr HR Hw. destruct (ui_data _ _ _ _ _ HU _ _ HR) as [HTe _]. pose proof (UInv_l3 _ _ _ _ _ HU) as Hl3.
  destruct (uroot_frame _ _ _ _ _ _ HU Hr) as [_ Hrm].
  destruct (zero_pt_run s W (Phys (fr e)) (fr e) (UInv_wins _ _ _ _ _ HU)) as (s' & E & HW' & Ef & _ & Hw');
    [by left|by intros E; rewrite E in HTe|].
  exists s'. split_and!; [| |done|done].
  - unfold zero_page. rewrite Hm. mstep. unfold try_zero. rewrite bind_assoc. mstep. rewrite Hrm.
    rewrite (ui_map _ _ _ _ _ HU r v Hr), HR, Hw. rewrite bind_assoc. fold (fr e). by mrun E.
  - eapply UInv_agree; [exact HU|done|done|]. intros p x j Hp _. rewrite Hw', decide_False; [done|].
    intros [-> _]. by rewrite Hp in HTe.
Qed.

Lemma zero_pages_run T W B R m r a n :
  0 ≤ a → a mod 4096 = 0 → a + 4096 * n ≤ 2 ^ 47 → user_pt m = Some r → uroot T r →
  ∀ k lo s, 0 ≤ lo → n - lo = Z.of_nat k → UInv s T W B R →
  (∀ i, lo ≤ i < n → ∃ e, R !! (r, vpn a + i) = Some e ∧ kwritable e = true) →
  ∃ s', forM (range lo n) (λ i, zero_page m (a +! i *! 4096)) s = Done (tt, s') ∧ UInv s' T W B R ∧
    frames s' = frames s ∧
    (∀ i e j, lo ≤ i < n → R !! (r, vpn a + i) = Some e → 0 ≤ j < 512 → word s' (fr e) j = 0) ∧
    (∀ q j, (∀ i e, lo ≤ i < n → R !! (r, vpn a + i) = Some e → fr e ≠ q) → word s' q j = word s q j) ∧
    ∀ q j, word s q j = 0 → word s' q j = 0.
Proof.
  intros Ha Hal Hmax Hm Hr. induction k as [|k IH]; intros lo s Hlo Hk HU HR.
  - rewrite range_nil by lia. exists s. split_and!; try done. intros i e j Hi. lia.
  - rewrite range_cons by lia.
    assert (a +! lo *! 4096 = a + 4096 * lo) as Ev by (rewrite wmul_small, wadd_small; lia).
    assert (vpn (a + 4096 * lo) = vpn a + lo) as Evp by (apply vpn_add; lia).
    destruct (HR lo ltac:(lia)) as (e & He & Hw).
    destruct (zero_page_run s T W B R m r (a + 4096 * lo) e HU Hm Hr) as (s1 & E1 & HU1 & Ef1 & Hw1); [by rewrite Evp|done|].
    rewrite <- Ev in E1.
    destruct (IH (lo + 1) s1 ltac:(lia) ltac:(lia) HU1) as (s' & E' & HU' & Ef' & Hz & Ho & H0).
    { intros i Hi. apply HR. lia. }
    exists s'. split_and!; [|done|congruence| | |].
    + rewrite (forM_cons (λ i, zero_page m (a +! i *! 4096)) lo _ _ _ E1). done.
    + intros i e' j Hi He' Hj. destruct (decide (i = lo)) as [->|Hne]; [|eapply Hz; [|done..]; lia].
      rewrite He in He'. injection He' as <-. apply H0. rewrite Hw1, decide_True by done. done.
    + intros q j Hq. rewrite Ho by (intros i e' Hi; apply Hq; lia). rewrite Hw1, decide_False; [done|].
      intros [-> _]. by apply (Hq lo e ltac:(lia) He).
    + intros q j Hq. apply H0. rewrite Hw1. by case_decide.
Qed.
End ops.
