(* ===== verification/UmemSpec.v ===== *)
(** * What a task sees of its memory

    [uload s r v] is the word a task with root [r] reads at [v].  The theorems
    say how [brk], a write fault and [fork] change it, for the task and for
    every other one, and that copy on write keeps tasks apart. *)
From S2P Require Import Prelude Stuff Pm PmInv PmRun PmSpec Vm VmInv VmTree VmRun VmFree VmSpec Umem UmemInv UmemRun UmemSafe UmemOps.

Local Open Scope Z_scope.

Section spec.
Context {im : Image} {F : Type} {fo : FrameOps F} {so : ShareOps F} {fl : FrameLaws F} {shl : ShareLaws F}.
Implicit Types (s : VSt F) (W : gmap Z Z) (T : gmap Z (Z * list Z)) (B : gmap Z blk) (R : gmap (Z * Z) Z).

Lemma uload_map s T W B R r v :
  UInv s T W B R → uroot T r →
  uload s r v = match R !! (r, vpn v) with Some e => Some (word s (fr e) (Z.land v 0xfff / 8)) | None => None end.
Proof. intros HU Hr. unfold uload. rewrite (ui_map _ _ _ _ _ HU r v Hr). by destruct (R !! (r, vpn v)). Qed.

Lemma offset_word v : 0 ≤ Z.land v 0xfff / 8 < 512.
Proof.
  change 0xfff with (Z.ones 12). rewrite Z.land_ones by lia. change (2 ^ 12) with 4096.
  pose proof (Z.mod_pos_bound v 4096 ltac:(lia)). zdiv.
Qed.

(** ** The heap *)

(** A region with its pages, and nothing mapped above it up to [n] more pages. *)
Lemma region_end region n0 :
  region_ok region n0 → ur_end region = u_vaddr region + u_len region ∧
  vpn (u_vaddr region + u_len region) = vpn (u_vaddr region) + n0 ∧ (u_vaddr region + u_len region) mod 4096 = 0.
Proof.
  intros (_ & Hv & Ha & Hl & Hn & Hm). unfold ur_end. rewrite wadd_small by lia. split_and!; [lia| |].
  - rewrite Hl. apply vpn_add; lia.
  - rewrite Hl, Z.mul_comm, Z.mod_add by lia. done.
Qed.

Lemma align_f_page arg np : 0 ≤ arg ≤ 2 ^ 46 → align_f arg 4096 = np → 0 < np → np mod 4096 = 0 ∧ np ≤ 2 ^ 46 + 4096.
Proof.
  intros Ha E Hnp. destruct (decide (arg = 0)) as [->|Hne]; [vm_compute in E; lia|].
  destruct (align_f_bounds arg 12 ltac:(lia) ltac:(lia) ltac:(lia)) as [Hb [q Hq]].
  change (2 ^ 12) with 4096 in *. rewrite E in *. split; [rewrite Hq; by apply Z.mod_mul|lia].
Qed.

(** [n] pages of zeroes from [pos] on, for the task with root [r] alone. *)
Definition grown s T W B R (r pos n : Z) (z : nat) s' : Prop :=
  ∃ T' B' R', UInv s' T' W B' R' ∧ T ⊆ T' ∧ Safe B' R' ∧
    (∀ i, 0 ≤ i < n → ∃ e b, R' !! (r, vpn pos + i) = Some e ∧ kwritable e = true ∧ B' !! fr e = Some b ∧ bk_pages b = 1) ∧
    (∀ r' k, ¬ (r' = r ∧ vpn pos ≤ k < vpn pos + n) → R' !! (r', k) = R !! (r', k)) ∧
    (∀ r' v, uroot T r' → uload s' r' v =
       if decide (r' = r ∧ vpn pos ≤ vpn v < vpn pos + n) then Some 0 else uload s r' v) ∧ B ⊆ B' ∧ room (frames s') z.

Lemma grow_run s T W B R m r pos n z :
  UInv s T W B R → Safe B R → user_pt m = Some r → uroot T r → (base.size W + 4 ≤ 128)%nat →
  0 ≤ pos → pos mod 4096 = 0 → pos + 4096 * n ≤ 2 ^ 46 + 2 ^ 45 → 0 < n →
  room (frames s) (4 * Z.to_nat n + z) → (∀ i, 0 ≤ i < n → R !! (r, vpn pos + i) = None) →
  ∃ i s1 s2 s', pm_wrap_new r PR_PW false s = Done (inr (waddr i), s1) ∧
    (add_pages (Win (waddr i)) pos n PR_PW_UR_UW1 ;;; zero_pages m pos n) s1 = Done (tt, s2) ∧
    pm_wrap_drop (waddr i) s2 = Done (tt, s') ∧ grown s T W B R r pos n z s'.
Proof.
  intros HU HS Hm Hr Hsz Hpos Hal Hmax Hn Hroom HR.
  destruct (UInv_window s T W B R r PR_PW HU) as (i & s1 & E1 & Hi & HU1 & Q1 & K1);
    [by eapply uroot_frame|lia|apply PR_PW_ok|].
  assert (base.size (<[i := r]> W) = S (base.size W)) as Hsz1 by by rewrite map_size_insert_None.
  assert (frames s1 = frames s) as Ef1 by by destruct Q1 as (_ & -> & _).
  destruct (add_pages_run (Win (waddr i)) r pos n (<[i := r]> W) PR_PW_UR_UW1 Hpos Hal ltac:(lia) (shows_insert _ i r)
    UW1_ok ltac:(lia) (Z.to_nat n) 0 s1 T B R z ltac:(lia) ltac:(lia) HU1 Hr)
    as (s2 & T' & B' & R' & E2 & HU2 & HT & HB & Rm2 & K2 & HS2 & Hnew & Hold); [by rewrite Ef1|done|].
  destruct (zero_pages_run T' (<[i := r]> W) B' R' m r pos n Hpos Hal ltac:(lia) Hm (uroot_mono _ _ _ HT Hr)
    (Z.to_nat n) 0 s2 ltac:(lia) ltac:(lia) HU2) as (s3 & E3 & HU3 & Ef3 & Hz & Ho & _).
  { intros j Hj. destruct (Hnew j Hj) as (p & Hp & Hok & _). eexists. split; [exact Hp|by apply UW1_writable]. }
  destruct (UInv_drop _ _ _ _ _ _ _ HU3 Hi) as (s4 & E4 & HU4 & Q4 & K4).
  exists i, s1, s3, s4. split_and!; [done|unfold add_pages, zero_pages; by mrun E2|done|].
  exists T', B', R'. split_and!; [done|done|by apply HS2| | | |done|].
  - intros j Hj. destruct (Hnew j Hj) as (p & Hp & Hok & _ & HBp). eexists _, _. split_and!; [exact Hp|by apply UW1_writable| |].
    { rewrite (lor_perms_fr p _ UW1_ok Hok). exact HBp. } { done. }
  - intros r' k Hd. apply Hold. rewrite Z.add_0_r. done.
  - intros r' v Hr'. rewrite (uload_map s4 T' W B' R' r' v HU4 (uroot_mono _ _ _ HT Hr')).
    rewrite (uload_map s T W B R r' v HU Hr'). case_decide as Hd.
    + destruct Hd as [-> Hd]. destruct (Hnew (vpn v - vpn pos) ltac:(lia)) as (p & Hp & Hok & _).
      replace (vpn pos + (vpn v - vpn pos)) with (vpn v) in Hp by lia. rewrite Hp. f_equal.
      rewrite (keeps_word s3 T' _ B' R' s4 T' (r, vpn v) _ _ K4 HU3 Hp).
      apply (Hz (vpn v - vpn pos)); [lia| |apply offset_word].
      replace (vpn pos + (vpn v - vpn pos)) with (vpn v) by lia. done.
    + rewrite Hold by (rewrite Z.add_0_r; done). destruct (R !! (r', vpn v)) as [e|] eqn:Ev; [|done]. f_equal.
      assert (R' !! (r', vpn v) = Some e) as Ev' by (rewrite Hold by (rewrite Z.add_0_r; done); done).
      rewrite (keeps_word s3 T' _ B' R' s4 T' (r', vpn v) e _ K4 HU3 Ev'). rewrite Ho.
      * rewrite (keeps_word s1 T _ B R s2 T' (r', vpn v) e _ K2 HU1 Ev). by eapply keeps_word.
      * intros j e' Hj He'. destruct (Hnew j Hj) as (p & Hp & Hok & Hnb & _). rewrite Hp in He'. injection He' as <-.
        rewrite (lor_perms_fr p _ UW1_ok Hok). intros ->. apply Hnb.
        apply (blocks_busy _ _ _ (ui_blocks _ _ _ _ _ HU1)). by eapply UInv_cov.
  - destruct Q4 as (_ & -> & _). by rewrite Ef3.
Qed.

(** Frames of its own: a page that was just grown is mapped once. *)
Lemma grown_once s T W B R r pos n z s' :
  uroot T r → grown s T W B R r pos n z s' →
  ∃ T' B' R', UInv s' T' W B' R' ∧ Safe B' R' ∧
    (∀ v, vpn pos ≤ vpn v < vpn pos + n → ∃ e, translate s' r v = Some e ∧ kwritable e = true ∧ cnt R' (fr e) = 1) ∧
    ∀ r' v, uroot T r' → uload s' r' v =
      if decide (r' = r ∧ vpn pos ≤ vpn v < vpn pos + n) then Some 0 else uload s r' v.
Proof.
  intros Hr (T' & B' & R' & HU' & HT & HS' & Hnew & _ & Hload & _). exists T', B', R'. split_and!; [done|done| |done].
  intros v Hv. destruct (Hnew (vpn v - vpn pos) ltac:(lia)) as (e & b & He & Hw & Hb & Hb1).
  assert (R' !! (r, vpn v) = Some e) as Hev.
  { rewrite <- He. replace (vpn v) with (vpn pos + (vpn v - vpn pos)) at 1 by lia. done. }
  exists e. split_and!; [|done|].
  - by rewrite (ui_map _ _ _ _ _ HU' r v (uroot_mono _ _ _ HT Hr)).
  - destruct (HS' _ _ _ _ Hev (in_blk_head B' _ _ Hb ltac:(lia))) as (Hc & H1 & H2).
    rewrite (H1 (H2 Hw)) in Hc. pose proof (cnt_ge1 R' _ _ Hev). lia.
Qed.

Lemma ur_alloc_run r0 n0 n :
  region_ok r0 n0 → 0 ≤ n → 4096 * n ≤ 10 * MB → u_vaddr r0 + u_len r0 + 10 * MB ≤ 2 ^ 46 → u_len r0 + 10 * MB ≤ GB →
  ur_alloc r0 (4096 * n) = Done (Some (u_vaddr r0 + u_len r0), set_len (u_len r0 + 4096 * n) r0).
Proof.
  intros (Hg & Hv0 & Hva & Hl & Hn0 & Hm0) Hn H10 Hmax Hcap. unfold MB, GB in *.
  unfold ur_alloc, blksize, REGION_MAX_SZ. rewrite Hg. change (blksize2 0) with 4096.
  rewrite Z.mul_comm, Z.mod_mul, Z.mul_comm by lia. simpl negb. rewrite (wadd_small 64 (u_vaddr r0)) by (unfold GB; lia).
  rewrite (wadd_small 64 (u_len r0)) by lia. rewrite (proj2 (Z.ltb_ge _ _)) by (unfold GB; lia).
  rewrite wadd_small by lia. done.
Qed.

Lemma brk_grow s T W B R m r arg n0 n z :
  let r0 := brk_r m in
  let pos := u_vaddr r0 + u_len r0 in
  let np := align_f arg 4096 in
  UInv s T W B R → Safe B R → user_pt m = Some r → uroot T r → (base.size W + 4 ≤ 128)%nat →
  region_ok r0 n0 → u_vaddr r0 + u_len r0 + 10 * MB ≤ 2 ^ 46 → u_len r0 + 10 * MB ≤ GB →
  np = pos + 4096 * n → 0 < n → np - pos ≤ 10 * MB →
  room (frames s) (4 * Z.to_nat n + z) → (∀ i, 0 ≤ i < n → R !! (r, vpn pos + i) = None) →
  ∃ s', brk arg m s = Done ((np, with_brk (set_len (u_len r0 + 4096 * n) r0) m), s') ∧ grown s T W B R r pos n z s'.
Proof.
  intros r0 pos np HU HS Hm Hr Hsz Hreg Hmax Hcap Hnp Hn H10 Hroom HR.
  destruct (region_end r0 n0 Hreg) as (Eend & Evp & Hal). fold pos in Eend, Evp, Hal.
  assert (0 ≤ pos) as Hpos by (destruct Hreg as (_ & ? & _ & ? & ? & _); unfold pos; lia).
  pose proof (ur_alloc_run r0 n0 n Hreg ltac:(lia) ltac:(lia) Hmax Hcap) as Ea. fold pos in Ea, Hmax.
  set (m' := with_brk (set_len (u_len r0 + 4096 * n) r0) m).
  destruct (grow_run s T W B R m' r pos n z HU HS Hm Hr Hsz Hpos Hal ltac:(unfold MB in *; lia) Hn Hroom HR)
    as (i & s1 & s2 & s' & E1 & E2 & E3 & HG).
  exists s'. split; [|done]. unfold brk. fold r0. rewrite Eend. fold np.
  rewrite (proj2 (Z.eqb_neq np 0)) by lia. rewrite (proj2 (Z.ltb_ge np pos)) by lia. rewrite (proj2 (Z.eqb_neq np pos)) by lia.
  rewrite (proj2 (Z.ltb_ge (10 * MB) (np - pos))) by lia.
  replace (np - pos) with (4096 * n) by lia. rewrite Ea. unfold lift, bind at 1. cbv iota beta. mstep.
  replace (4096 * n / 4096) with n by (rewrite Z.mul_comm, Z.div_mul; lia).
  simpl user_pt. rewrite Hm. mstep. fold m'.
  assert (with_table r (λ l0_pt, add_pages l0_pt pos n PR_PW_UR_UW1 ;;; zero_pages m' pos n) s = Done (tt, s')) as Ew
    by (unfold with_table; mrun E1; simpl unwrap_r; mstep; mrun E2; by mrun E3).
  by mrun Ew.
Qed.

(** C22: [brk].  A request at or below the current end, or more than ten
    megabytes above it, returns the current end and changes nothing; any other
    one rounds up to a page, and the task finds zeroes in exactly the new
    pages, which it may write, while every other word of every task is as it
    was; each new page has a frame of its own. *)
Theorem brk_spec s T W B R m r arg n0 :
  let r0 := brk_r m in
  let pos := u_vaddr r0 + u_len r0 in
  let np := align_f arg 4096 in
  let n := (np - pos) / 4096 in
  UInv s T W B R → Safe B R → user_pt m = Some r → uroot T r → (base.size W + 4 ≤ 128)%nat →
  region_ok r0 n0 → pos + 10 * MB ≤ 2 ^ 46 → u_len r0 + 10 * MB ≤ GB → 0 ≤ arg ≤ 2 ^ 46 →
  room (frames s) (4 * Z.to_nat n) → (∀ i, 0 ≤ i < n → R !! (r, vpn pos + i) = None) →
  if (np <=? pos) || (10 * MB <? np - pos) then brk arg m s = Done ((pos, m), s)
  else
    ∃ s' T' B' R', brk arg m s = Done ((np, with_brk (set_len (u_len r0 + 4096 * n) r0) m), s') ∧
      UInv s' T' W B' R' ∧ Safe B' R' ∧
      (∀ v, vpn pos ≤ vpn v < vpn pos + n → ∃ e, translate s' r v = Some e ∧ kwritable e = true ∧ cnt R' (fr e) = 1) ∧
      ∀ r' v, uroot T r' → uload s' r' v =
        if decide (r' = r ∧ vpn pos ≤ vpn v < vpn pos + n) then Some 0 else uload s r' v.
Proof.
  intros r0 pos np n HU HS Hm Hr Hsz Hreg Hmax Hcap Harg Hroom HR.
  destruct (region_end r0 n0 Hreg) as (Eend & Evp & Hal). fold pos in Eend, Evp, Hal.
  assert (0 ≤ pos) as Hpos by (destruct Hreg as (_ & ? & _ & ? & ? & _); unfold pos; lia).
  destruct ((np <=? pos) || (10 * MB <? np - pos)) eqn:Eb.
  - unfold brk. fold r0. rewrite Eend. fold np. apply orb_true_iff in Eb as [Eb|Eb].
    + apply Z.leb_le in Eb. destruct (np =? 0); [done|]. destruct (Z.ltb_spec np pos); [done|].
      by rewrite (proj2 (Z.eqb_eq np pos)) by lia.
    + rewrite Eb. by destruct (np =? 0), (np <? pos), (np =? pos).
  - apply orb_false_iff in Eb as [Eb1 Eb2]. apply Z.leb_gt in Eb1. apply Z.ltb_ge in Eb2.
    destruct (align_f_page arg np Harg eq_refl ltac:(lia)) as [Hnal _].
    assert (np = pos + 4096 * n) as Hn by (unfold n; zdiv).
    destruct (brk_grow s T W B R m r arg n0 n 0 HU HS Hm Hr Hsz Hreg Hmax Hcap Hn ltac:(lia) Eb2)
      as (s' & E & HG); [by rewrite Nat.add_0_r|done|].
    destruct (grown_once _ _ _ _ _ _ _ _ _ _ Hr HG) as (T' & B' & R' & H). by exists s', T', B', R'.
Qed.

(** ** Write faults *)
Lemma unshared_Safe s T W B R r far e b n s' :
  UInv s T W B R → Safe B R → uroot T r → R !! (r, vpn far) = Some e → B !! fr e = Some b → bk_pages b = 1 → bk_cow b = true →
  unshared s T W B R r far e b n s' →
  ∃ T' B' R' x, UInv s' T' W B' R' ∧ T ⊆ T' ∧ Safe B' R' ∧ R' = <[(r, vpn far) := x]> R ∧ kwritable x = true ∧
    B' !! fr x = Some (mkBlk 1 1 false) ∧
    (if bk_ref b =? 1 then fr x = fr e else fr x ≠ fr e ∧ B' !! fr e = Some (mkBlk 1 (bk_ref b - 1) true)) ∧
    ∀ r' v, uroot T r' → uload s' r' v = uload s r' v.
Proof.
  intros HU HS Hr HR Hb Hb1 Hcow (T' & B' & p & HU' & HT & Hp & Hcase & Hcopy & _ & K).
  pose proof (UInv_cov _ _ _ _ _ HU) as Hcov. pose proof (lor_perms_fr p _ UW1_ok Hp) as Hx.
  eexists T', B', _, (Z.lor (Z.lor p PR_PW_UR_UW1) 0x403). split_and!; [exact HU'|done| |done|by apply UW1_writable| | |].
  - destruct (bk_ref b =? 1) eqn:E1.
    + apply Z.eqb_eq in E1. destruct Hcase as [-> Hs].
      eapply Safe_remap; [exact HS|exact (ui_blocks _ _ _ _ _ HU')|done..].
    + destruct Hcase as (HBp & Hnb & Hs).
      eapply Safe_copy; [exact HS|exact (ui_blocks _ _ _ _ _ HU)|exact (ui_blocks _ _ _ _ _ HU')|exact Hcov|done..].
  - rewrite Hx. destruct (bk_ref b =? 1); [destruct Hcase as [-> Hs]|destruct Hcase as (_ & _ & Hs)];
      (eapply lookup_weaken; [apply lookup_insert_eq|exact Hs]).
  - rewrite Hx. destruct (bk_ref b =? 1); [apply Hcase|]. destruct Hcase as (HBp & Hnb & Hs).
    assert (p ≠ fr e) as Hne by (intros ->; congruence). split; [done|].
    eapply lookup_weaken; [|exact Hs]. rewrite lookup_insert_ne by done. apply lookup_insert_eq.
  - intros r' v Hr'. rewrite (uload_map _ _ _ _ _ r' v HU' (uroot_mono _ _ _ HT Hr')), (uload_map _ _ _ _ _ r' v HU Hr').
    destruct (decide ((r, vpn far) = (r', vpn v))) as [Ek|Hk].
    + rewrite <- Ek, lookup_insert_eq, HR. f_equal. rewrite Hx. apply Hcopy, offset_word.
    + rewrite lookup_insert_ne by done. destruct (R !! (r', vpn v)) as [e'|] eqn:E'; [|done]. f_equal. by eapply keeps_word.
Qed.

(** C21: a write fault.  On a page that is shared, the handler returns and the
    task has the page to itself, in place if it was the last holder and as a
    copy otherwise, with one reference given up; no task reads anything else
    than before; and when the task repeats the store, only that word of that
    task changes.  On a page that is not shared the kernel panics. *)
Theorem fault_spec s T W B R m region r far e b :
  UInv s T W B R → Safe B R → user_pt m = Some r → uroot T r → (base.size W + 5 ≤ 128)%nat → room (frames s) 4 →
  0 ≤ far < 2 ^ 64 → find_region m far = Some region → 0 < Z.land (u_flags region) PF_W → granule region = 0 →
  R !! (r, vpn far) = Some e → B !! fr e = Some b → bk_pages b = 1 →
  if bk_cow b then
    ∃ s' T' B' R', dabt_handler m far s = Done (tt, s') ∧ UInv s' T' W B' R' ∧ Safe B' R' ∧
      (∀ r' v, uroot T r' → uload s' r' v = uload s r' v) ∧
      (if bk_ref b =? 1 then translate s' r far = Some (Z.lor (Z.lor (fr e) PR_PW_UR_UW1) 0x403)
       else B' !! fr e = Some (mkBlk 1 (bk_ref b - 1) true)) ∧
      ∀ x, ∃ s2, ustore s' r far x = Some s2 ∧ uload s2 r far = Some x ∧
        ∀ r' v, uroot T r' → ¬ (r' = r ∧ vpn v = vpn far ∧ Z.land v 0xfff / 8 = Z.land far 0xfff / 8) →
          uload s2 r' v = uload s r' v
  else dabt_handler m far s = Fault FPanic.
Proof.
  intros HU HS Hm Hr Hsz Hroom Hfar Hreg Hw Hg HR Hb Hb1.
  pose proof (dabt_run s T W B R m region r far e b 0 HU Hm Hr Hsz Hroom Hfar Hreg Hw Hg HR Hb Hb1) as Hd.
  destruct (bk_cow b) eqn:Hc; [|done]. destruct Hd as (s' & E & Hun).
  assert (bk_ref b =? 1 = true → translate s' r far = Some (Z.lor (Z.lor (fr e) PR_PW_UR_UW1) 0x403)) as Htr.
  { intros E1. destruct Hun as (T0 & B0 & p & HU0 & HT0 & _ & Hcase & _). rewrite E1 in Hcase. destruct Hcase as [-> _].
    rewrite (ui_map _ _ _ _ _ HU0 r far (uroot_mono _ _ _ HT0 Hr)). apply lookup_insert_eq. }
  destruct (unshared_Safe s T W B R r far e b 0 s' HU HS Hr HR Hb Hb1 Hc Hun)
    as (T' & B' & R' & x & HU' & HT & HS' & -> & Hx & _ & Hold & Hload).
  pose proof (uroot_mono _ _ _ HT Hr) as Hr'.
  eexists s', T', B', _. split_and!; [done|exact HU'|done|done| |].
  - destruct (bk_ref b =? 1); [by apply Htr|apply Hold].
  - intros y. assert (ustore s' r far y = Some (set_word (fr x) (Z.land far 0xfff / 8) y s')) as Est.
    { unfold ustore. rewrite (ui_map _ _ _ _ _ HU' r far Hr'), lookup_insert_eq. simpl. by rewrite Hx. }
    eexists. split; [exact Est|]. destruct (store_isolated s' T' W B' _ r far y _ HU' HS' Hr' Est) as (_ & H1 & H2).
    split; [done|]. intros r' v Hr0 Hne. rewrite H2 by (done || by eapply uroot_mono). by apply Hload.
Qed.
(** ** Mappings *)

(** A store by the kernel to a page that it may not write and that is not shared. *)
Lemma zero_page_panics s T W B R m r v e b :
  UInv s T W B R → user_pt m = Some r → uroot T r → (base.size W + 5 ≤ 128)%nat → room (frames s) 4 →
  0 ≤ v < 2 ^ 64 → find_region m v = Some (brk_r m) → 0 < Z.land (u_flags (brk_r m)) PF_W → granule (brk_r m) = 0 →
  R !! (r, vpn v) = Some e → B !! fr e = Some b → bk_pages b = 1 → bk_cow b = false → kwritable e = false →
  zero_page m v s = Fault FPanic.
Proof.
  intros HU Hm Hr Hsz Hroom Hv Hreg Hw Hg HR Hb Hb1 Hc Hk. destruct (uroot_frame _ _ _ _ _ _ HU Hr) as [_ Hrm].
  pose proof (dabt_run s T W B R m _ r v e b 0 HU Hm Hr Hsz Hroom Hv Hreg Hw Hg HR Hb Hb1) as Hd. rewrite Hc in Hd.
  unfold zero_page. rewrite Hm. mstep. unfold try_zero. rewrite bind_assoc. mstep.
  rewrite Hrm, (ui_map _ _ _ _ _ HU r v Hr), HR, Hk. unfold bind, ret. by rewrite Hd.
Qed.

Lemma mmap_region_found m n v :
  u_vaddr (mmap_r m) ≤ v < u_vaddr (mmap_r m) + n → 0 ≤ u_vaddr (mmap_r m) → u_vaddr (mmap_r m) + n < 2 ^ 64 →
  find_region (with_mmap (set_len n (mmap_r m)) m) v = Some (brk_r m).
Proof.
  intros Hv H0 Hn. unfold find_region. destruct (has (brk_r _) v); [done|]. unfold has, set_len, with_mmap. simpl.
  rewrite wadd_small by lia. rewrite (proj2 (Z.leb_le _ _)), (proj2 (Z.ltb_lt _ _)) by lia. done.
Qed.

(** New pages that the kernel may not write: clearing the first one panics. *)
Lemma fill_ro_run s T W B R m r pos n perms :
  UInv s T W B R → user_pt m = Some r → uroot T r → (base.size W + 6 ≤ 128)%nat →
  0 ≤ pos → pos mod 4096 = 0 → pos + 4096 * n ≤ 2 ^ 47 → 0 < n → perms_ok perms → Z.testbit perms 7 = true →
  find_region m pos = Some (brk_r m) → 0 < Z.land (u_flags (brk_r m)) PF_W → granule (brk_r m) = 0 →
  room (frames s) (4 * Z.to_nat n + 4) → (∀ i, 0 ≤ i < n → R !! (r, vpn pos + i) = None) →
  ∃ i s1 s2, pm_wrap_new r PR_PW false s = Done (inr (waddr i), s1) ∧
    add_pages (Win (waddr i)) pos n perms s1 = Done (tt, s2) ∧ zero_pages m pos n s2 = Fault FPanic.
Proof.
  intros HU Hm Hr Hsz Hpos Hal Hmax Hn Hpe H7 Hfr Hbw Hbg Hroom HR.
  destruct (UInv_window s T W B R r PR_PW HU) as (i & s1 & E1 & Hi & HU1 & Q1 & K1);
    [by eapply uroot_frame|lia|apply PR_PW_ok|].
  assert (base.size (<[i := r]> W) = S (base.size W)) as Hsz1 by by rewrite map_size_insert_None.
  assert (frames s1 = frames s) as Ef1 by by destruct Q1 as (_ & -> & _).
  destruct (add_pages_run (Win (waddr i)) r pos n (<[i := r]> W) perms Hpos Hal Hmax (shows_insert _ i r)
    Hpe ltac:(lia) (Z.to_nat n) 0 s1 T B R 4 ltac:(lia) ltac:(lia) HU1 Hr)
    as (s2 & T' & B' & R' & E2 & HU2 & HT & _ & Rm2 & _ & _ & Hnew & _); [by rewrite Ef1|done|].
  destruct (Hnew 0 ltac:(lia)) as (p & Hp & Hpf & _ & HBp). rewrite Z.add_0_r in Hp.
  assert (zero_page m pos s2 = Fault FPanic) as Hz.
  { eapply (zero_page_panics s2 T' _ B' R' m r pos); [exact HU2|done|by eapply uroot_mono|lia|done|lia|done|done|done
      |exact Hp|by rewrite lor_perms_fr|done|done|by apply flags_ro]. }
  exists i, s1, s2. split_and!; [done|done|]. unfold zero_pages. rewrite range_cons by lia. cbn [forM].
  replace (pos +! 0 *! 4096) with pos by (rewrite wmul_small, wadd_small; lia). unfold bind. by rewrite Hz.
Qed.

(** A length that rounds up to nothing: 0, or one so large that rounding wraps. *)
Lemma align_f_wraps len : 0 ≤ len < 2 ^ 64 → align_f len 4096 = 0 ↔ len = 0 ∨ 2 ^ 64 - 4096 < len.
Proof.
  intros Hl. destruct (decide (1 ≤ len ≤ 2 ^ 64 - 4096)) as [Hr|Hr].
  - destruct (align_f_bounds len 12 ltac:(lia) ltac:(lia) ltac:(lia)) as [Hb _]. change (2 ^ 12) with 4096 in Hb. lia.
  - split; [intros _; lia|]. intros _. unfold align_f.
    assert (2 ^ 64 - 4096 ≤ len -! 1 < 2 ^ 64) as Hm.
    { destruct (decide (len = 0)) as [->|]; [split; vm_compute; congruence|]. rewrite wsub_small by lia. lia. }
    change 4096 with (2 ^ 12) at 1. rewrite align_b_pow2 by lia. change (2 ^ 12) with 4096.
    assert ((len -! 1) / 4096 = 2 ^ 52 - 1) as -> by zdiv. reflexivity.
Qed.

(** A request for no pages: a window comes and goes. *)
Lemma no_pages_run s T W B R (m : Mm) r pos perms :
  UInv s T W B R → uroot T r → (base.size W + 6 ≤ 128)%nat →
  ∃ i s1 s', pm_wrap_new r PR_PW false s = Done (inr (waddr i), s1) ∧ add_pages (Win (waddr i)) pos 0 perms s1 = Done (tt, s1) ∧
    zero_pages m pos 0 s1 = Done (tt, s1) ∧ pm_wrap_drop (waddr i) s1 = Done (tt, s') ∧ UInv s' T W B R ∧
    ∀ r' v, uroot T r' → uload s' r' v = uload s r' v.
Proof.
  intros HU Hr Hsz. destruct (UInv_window s T W B R r PR_PW HU) as (i & s1 & E1 & Hi & HU1 & _ & K1);
    [by eapply uroot_frame|lia|apply PR_PW_ok|].
  destruct (UInv_drop _ _ _ _ _ _ _ HU1 Hi) as (s' & E2 & HU2 & _ & K2).
  exists i, s1, s'. split_and!; [done..|]. intros r' v Hr'. rewrite (uload_map s' T W B R r' v HU2 Hr'), (uload_map s T W B R r' v HU Hr').
  destruct (R !! (r', vpn v)) as [e|] eqn:Ev; [|done]. f_equal.
  rewrite (keeps_word s1 T _ B R s' T (r', vpn v) e _ K2 HU1 Ev). by eapply keeps_word.
Qed.

(** C40: [mmap], for every length, while there are frames and windows and the
    region has room.  A request that is not anonymous or is over ten megabytes
    is refused with nothing changed.  Otherwise a protection other than 1, 3 and
    5 panics the kernel.  A length that rounds up to no pages (0, but also the
    last page below [2 ^ 64], which wraps) returns the end of the region, and
    nothing is mapped.  For other lengths readable and writable memory (3) is
    zero-filled and the task's own; read-only and executable memory (1, 5)
    panics the kernel, which stores the zeroes through the mapping it has just
    made read-only. *)
Theorem mmap_spec s T W B R m r len prot flags n0 :
  let r0 := mmap_r m in
  let pos := u_vaddr r0 + u_len r0 in
  let sz := align_f len 4096 in
  let n := sz / 4096 in
  UInv s T W B R → Safe B R → user_pt m = Some r → uroot T r → (base.size W + 6 ≤ 128)%nat →
  region_ok r0 n0 → pos + 10 * MB ≤ 2 ^ 46 → u_len r0 + 10 * MB ≤ GB → 0 ≤ len < 2 ^ 64 →
  0 < Z.land (u_flags (brk_r m)) PF_W → granule (brk_r m) = 0 →
  room (frames s) (4 * Z.to_nat n + 4) → (∀ i, 0 ≤ i < n → R !! (r, vpn pos + i) = None) →
  if (Z.land flags 0x20 =? 0) || (10 * MB <? sz) then mmap len prot flags m s = Done ((wnot 64 0, m), s)
  else if negb (bool_decide (prot ∈ [1; 3; 5])) then mmap len prot flags m s = Fault FPanic
  else if bool_decide (len = 0 ∨ 2 ^ 64 - 4096 < len) then
    ∃ s', mmap len prot flags m s = Done ((pos, m), s') ∧ UInv s' T W B R ∧ ∀ r' v, uroot T r' → uload s' r' v = uload s r' v
  else len ≤ 4096 * n < len + 4096 ∧
    if prot =? 3 then
      ∃ s' T' B' R', mmap len prot flags m s = Done ((pos, with_mmap (set_len (u_len r0 + sz) r0) m), s') ∧
        UInv s' T' W B' R' ∧ Safe B' R' ∧
        (∀ v, vpn pos ≤ vpn v < vpn pos + n → ∃ e, translate s' r v = Some e ∧ kwritable e = true ∧ cnt R' (fr e) = 1) ∧
        ∀ r' v, uroot T r' → uload s' r' v =
          if decide (r' = r ∧ vpn pos ≤ vpn v < vpn pos + n) then Some 0 else uload s r' v
    else mmap len prot flags m s = Fault FPanic.
Proof.
  intros r0 pos sz n HU HS Hm Hr Hsz Hreg Hmax Hcap Hlen Hbw Hbg Hroom HR.
  destruct (Z.land flags 0x20 =? 0) eqn:Ef; [unfold mmap; by rewrite Ef|].
  destruct (10 * MB <? sz) eqn:E10; [unfold mmap; rewrite Ef; fold sz; by rewrite E10|].
  simpl orb. cbv iota. apply Z.ltb_ge in E10.
  destruct (region_end r0 n0 Hreg) as (Eend & Evp & Hal). fold pos in Eend, Evp, Hal.
  assert (0 ≤ u_vaddr r0 ∧ 0 ≤ u_len r0) as Hpos by (destruct Hreg as (_ & ? & _ & ? & ? & _); lia).
  assert (0 ≤ sz ∧ sz = 4096 * n) as [Hs0 Hn].
  { unfold n. destruct (decide (1 ≤ len ≤ 2 ^ 64 - 4096)) as [Hb|Hb].
    - destruct (align_f_bounds len 12 ltac:(lia) ltac:(lia) ltac:(lia)) as [Hb' [q Hq]]. change (2 ^ 12) with 4096 in *.
      fold sz in Hb', Hq. rewrite Hq, Z.div_mul by lia. lia.
    - assert (sz = 0) as -> by (apply align_f_wraps; lia). done. }
  pose proof (ur_alloc_run r0 n0 n Hreg ltac:(lia) ltac:(lia) Hmax Hcap) as Ea. fold pos in Ea. rewrite <- Hn in Ea. fold r0.
  set (m' := with_mmap (set_len (u_len r0 + sz) r0) m).
  set (rest := λ perms, let! pt := unwrap (user_pt m) in
    let! x := pm_wrap_new pt PR_PW false in
    match x with
    | inl _ => ret (wnot 64 0, m')
    | inr l0_pt => add_pages (Win l0_pt) pos n perms ;;; zero_pages m' pos n ;;; pm_wrap_drop l0_pt ;;; ret (pos, m')
    end).
  assert (mmap len prot flags m s = (let! perms := if prot =? 1 then ret PR_UR else if prot =? 3 then ret PR_PW_UR_UW1
    else if prot =? 5 then ret PR_UR_UX else panic in rest perms) s) as ->.
  { unfold mmap. rewrite Ef. fold sz. rewrite (proj2 (Z.ltb_ge _ _) E10). fold r0. rewrite Ea. reflexivity. }
  case_bool_decide as Hprot; simpl negb; cbv iota.
  2:{ destruct (Z.eqb_spec prot 1) as [->|]; [set_solver|]. destruct (Z.eqb_spec prot 3) as [->|]; [set_solver|].
      destruct (Z.eqb_spec prot 5) as [->|]; [set_solver|]. done. }
  case_bool_decide as Hwr.
  - apply (align_f_wraps len Hlen) in Hwr. fold sz in Hwr. assert (n = 0) as -> by lia.
    assert (m' = m) as ->. { unfold m', with_mmap, set_len. rewrite Hwr, Z.add_0_r. unfold r0. by destruct m as [? ? ? [] ? ?]. }
    assert (∀ perms, ∃ s', rest perms s = Done ((pos, m), s') ∧ UInv s' T W B R ∧
      ∀ r' v, uroot T r' → uload s' r' v = uload s r' v) as Hrun.
    { intros perms. destruct (no_pages_run s T W B R m r pos perms HU Hr Hsz) as (i & s1 & s' & E1 & E2 & E3 & E4 & H).
      exists s'. split; [|done]. unfold rest. rewrite Hm. mstep. mrun E1. cbv iota beta. mrun E2. mrun E3. by mrun E4. }
    destruct (Z.eqb_spec prot 1) as [->|]; [apply Hrun|]. destruct (Z.eqb_spec prot 3) as [->|]; [apply Hrun|].
    destruct (Z.eqb_spec prot 5) as [->|]; [apply Hrun|]. set_solver.
  - assert (0 < n) as Hn0 by (destruct (decide (sz = 0)) as [E0|]; [by apply (align_f_wraps len Hlen) in E0|lia]).
    split.
    { destruct (align_f_bounds len 12 ltac:(lia) ltac:(lia) ltac:(lia)) as [Hb _]. change (2 ^ 12) with 4096 in Hb. fold sz in Hb. lia. }
    destruct (Z.eqb_spec prot 3) as [->|Hp3].
    + destruct (grow_run s T W B R m' r pos n 4 HU HS Hm Hr ltac:(lia) ltac:(lia) Hal ltac:(unfold MB in *; lia) Hn0 Hroom HR)
        as (i & s1 & s2 & s' & E1 & E2 & E3 & HG).
      destruct (grown_once _ _ _ _ _ _ _ _ _ _ Hr HG) as (T' & B' & R' & H). exists s', T', B', R'. split; [|done].
      simpl (_ =? _). cbv iota. mstep. unfold rest. rewrite Hm. mstep. mrun E1.
      unfold bind at 1 in E2. destruct (add_pages _ _ _ _ s1) as [[[] t]|] eqn:Ea2; [|done]. mrun Ea2. mrun E2. by mrun E3.
    + assert (∀ perms, perms_ok perms → Z.testbit perms 7 = true → rest perms s = Fault FPanic) as Hro.
      { intros perms Hpe H7. destruct (fill_ro_run s T W B R m' r pos n perms) as (i & s1 & s2 & E1 & E2 & E3);
          try assumption; [lia|unfold MB in *; lia| |].
        - apply (mmap_region_found m (u_len r0 + sz)); fold r0; unfold MB in *; lia.
        - unfold rest. rewrite Hm. mstep. mrun E1. cbv iota beta. mrun E2. unfold bind. by rewrite E3. }
      destruct (prot =? 1); [by apply Hro|]. destruct (prot =? 5); [by apply Hro|done].
Qed.

End spec.
