(* ===== verification/UmemFork.v ===== *)
(** * [fork]: the child's memory is a copy of the parent's

    The regions are shared copy-on-write, the stack is copied; together the
    child reads what the parent reads. *)
From S2P Require Import Prelude Stuff Pm PmInv PmRun PmSpec Vm VmInv VmTree VmRun VmFree VmSpec Umem UmemInv UmemRun UmemSafe UmemOps UmemSpec.

Local Open Scope Z_scope.

Definition npages (r : URegion) : Z := u_len r / 4096.

Definition in_region (r : URegion) (k : Z) : bool :=
  (vpn (u_vaddr r) <=? k) && (k <? vpn (u_vaddr r) + npages r).
Definition in_regions (rs : list URegion) (k : Z) : bool := existsb (λ r, in_region r k) rs.

(** A region that [clone_region] takes: pages, with flags it knows. *)
Definition shareable (r : URegion) : Prop :=
  region_ok r (npages r) ∧ (u_flags r = 5 ∨ u_flags r = 6 ∨ u_flags r = 4).

Fixpoint apart (rs : list URegion) : Prop :=
  match rs with
  | [] => True
  | r :: rs' => (∀ k, in_region r k = true → in_regions rs' k = false) ∧ apart rs'
  end.

Fixpoint total (rs : list URegion) : nat :=
  match rs with [] => 0 | r :: rs' => Z.to_nat (npages r) + total rs' end.

Definition cflags (f : Z) : Z := if f =? 5 then PR_UR_UX else PR_UR.

Section fork.
Context {im : Image} {F : Type} {fo : FrameOps F} {so : ShareOps F} {fl : FrameLaws F} {shl : ShareLaws F}.
Implicit Types (s : VSt F) (W : gmap Z Z) (T : gmap Z (Z * list Z)) (B : gmap Z blk) (R : gmap (Z * Z) Z).

(** The pages of [rs] that [r1] has and [r2] has not. *)
Definition to_share (rs : list URegion) B R (r1 r2 : Z) : Prop :=
  ∀ k, in_regions rs k = true →
    (∃ e b, R !! (r1, k) = Some e ∧ B !! fr e = Some b ∧ bk_pages b = 1) ∧ R !! (r2, k) = None.

(** [R'] is [R] with the pages of [rs] given to [r2] as well. *)
Definition given (rs : list URegion) R R' (r1 r2 : Z) : Prop :=
  (∀ r k, fr <$> R' !! (r, k) = fr <$> (if decide (r = r2 ∧ in_regions rs k = true) then R !! (r1, k) else R !! (r, k))) ∧
  ∀ r k, in_regions rs k = false → R' !! (r, k) = R !! (r, k).

(** The blocks of [B] are still there, with their sizes. *)
Definition same_blocks B B' : Prop := ∀ h b, B !! h = Some b → ∃ b', B' !! h = Some b' ∧ bk_pages b' = bk_pages b.

Lemma clone_region_run s T W B R from to r1 r2 region m :
  UInv s T W B R → shows W from r1 → shows W to r2 → uroot T r1 → uroot T r2 → r1 ≠ r2 → (base.size W + 3 ≤ 128)%nat →
  shareable region → room (frames s) (3 * Z.to_nat (npages region) + m) → to_share [region] B R r1 r2 →
  ∃ s' T' B' R', clone_region region from to s = Done (tt, s') ∧
    UInv s' T' W B' R' ∧ T ⊆ T' ∧ room (frames s') m ∧ keeps s T s' T' ∧ (Safe B R → Safe B' R') ∧
    given [region] R R' r1 r2 ∧ same_blocks B B'.
Proof.
  intros HU Hf Ht Hr1 Hr2 H12 Hsz [Hreg Hfl] Hroom Hsh. pose proof Hreg as (Hg & Hv & Ha & Hl & Hn & Hm).
  assert (∀ i, 0 ≤ i < npages region → in_regions [region] (vpn (u_vaddr region) + i) = true) as Hin.
  { intros i Hi. unfold in_regions, in_region. simpl. rewrite orb_false_r, andb_true_iff, Z.leb_le, Z.ltb_lt. lia. }
  assert (perms_ok (cflags (u_flags region)) ∧ Z.testbit (cflags (u_flags region)) 7 = true) as [Hpe Hro]
    by (unfold cflags; by destruct (_ =? _)).
  destruct (clone_loop_run from to r1 r2 region (cflags (u_flags region)) (npages region) W Hreg Hf Ht H12 Hpe Hro Hsz
    (Z.to_nat (npages region)) 0 s T B R m ltac:(lia) ltac:(lia) HU Hr1 Hr2 Hroom)
    as (s' & T' & B' & R' & E & HU' & HT & Rm & K & HB & HR & HS).
  { intros i Hi. by apply (Hsh _ (Hin i Hi)). }
  { intros i Hi. by apply (Hsh _ (Hin i Hi)). }
  exists s', T', B', R'. split_and!; [|done..| |].
  - unfold clone_region. rewrite Ha, Hl, (Z.mul_comm 4096), Z.mod_mul by lia. unfold blksize. rewrite Hg.
    change (blksize2 0) with 4096. rewrite ?Z.mod_mul by lia. change (0 =? 0) with true. simpl andb. mstep. mstep.
    rewrite <- (Z.mul_comm 4096), <- Hl. fold (npages region). unfold clone_flags, PF_R, PF_W, PF_X. simpl Z.lor.
    unfold cflags in E. destruct Hfl as [Efl|[Efl|Efl]]; rewrite Efl in *; simpl Z.eqb in *; cbv iota in *; mstep; exact E.
  - assert (∀ k, in_regions [region] k = true ↔ vpn (u_vaddr region) + 0 ≤ k < vpn (u_vaddr region) + npages region) as Hk.
    { intros k. unfold in_regions, in_region. simpl. rewrite orb_false_r, andb_true_iff, Z.leb_le, Z.ltb_lt. lia. }
    split.
    + intros r k. rewrite HR. unfold cloned. destruct (decide (_ ∧ _)) as [[Hd1 Hd2]|Hd].
      * destruct (R !! (r1, k)) as [e|] eqn:Ek.
        -- simpl. rewrite fr_leaf by done. destruct Hd1 as [->| ->]; [|by rewrite decide_True by (split; [done|by apply Hk])].
           rewrite decide_False by (by intros [? _]). by rewrite Ek.
        -- destruct (Hsh k) as [(e & b & He & _) _]; [by apply Hk|congruence].
      * rewrite decide_False; [done|]. intros [-> Hin']. apply Hd. split; [by right|by apply Hk].
    + intros r k Hout. rewrite HR. unfold cloned. rewrite decide_False; [done|]. intros [_ Hd]. apply Hk in Hd. congruence.
  - intros h b Hb. eexists. split; [by apply (HB h b)|done].
Qed.

Lemma given_pages R R' rs r1 r2 r k : given rs R R' r1 r2 → in_regions rs k = false → R' !! (r, k) = R !! (r, k).
Proof. intros [_ H]. apply H. Qed.

Lemma clone_all_run from to r1 r2 W :
  shows W from r1 → shows W to r2 → r1 ≠ r2 → (base.size W + 3 ≤ 128)%nat →
  ∀ rs s T B R m, UInv s T W B R → uroot T r1 → uroot T r2 → Forall shareable rs → apart rs →
  room (frames s) (3 * total rs + m) → to_share rs B R r1 r2 →
  ∃ s' T' B' R', forM rs (λ r, clone_region r from to) s = Done (tt, s') ∧
    UInv s' T' W B' R' ∧ T ⊆ T' ∧ room (frames s') m ∧ keeps s T s' T' ∧ (Safe B R → Safe B' R') ∧ given rs R R' r1 r2 ∧
    same_blocks B B'.
Proof.
  intros Hf Ht H12 Hsz. induction rs as [|region rs IH]; intros s T B R m HU Hr1 Hr2 Hsh Hap Hroom Hts.
  - exists s, T, B, R. split_and!; try done; [|intros h b Hb; by exists b]. split; [|done]. intros r k. by rewrite decide_False by (by intros [_ ?]).
  - apply Forall_cons in Hsh as [Hsh Hshs]. destruct Hap as [Hap Haps]. cbn [total] in Hroom.
    replace (3 * (Z.to_nat (npages region) + total rs) + m)%nat
      with (3 * Z.to_nat (npages region) + (3 * total rs + m))%nat in Hroom by lia.
    assert (∀ k, in_regions (region :: rs) k = in_region region k || in_regions rs k) as Hin by done.
    assert (∀ k, in_regions [region] k = in_region region k) as Hin1 by (intros k; apply orb_false_r).
    destruct (clone_region_run s T W B R from to r1 r2 region _ HU Hf Ht Hr1 Hr2 H12 Hsz Hsh Hroom)
      as (s1 & T1 & B1 & R1 & E1 & HU1 & HT1 & Rm1 & K1 & HS1 & HG1 & HB1).
    { intros k Hk. apply Hts. rewrite Hin, <- Hin1, Hk. done. }
    destruct (IH s1 T1 B1 R1 m HU1 (uroot_mono _ _ _ HT1 Hr1) (uroot_mono _ _ _ HT1 Hr2) Hshs Haps Rm1)
      as (s2 & T2 & B2 & R2 & E2 & HU2 & HT2 & Rm2 & K2 & HS2 & HG2 & HB2).
    { intros k Hk. assert (in_regions [region] k = false) as Hk1.
      { rewrite Hin1. destruct (in_region region k) eqn:E; [|done]. rewrite (Hap k E) in Hk. done. }
      rewrite !(given_pages R R1 [region] r1 r2) by done.
      destruct (Hts k) as [(e & b & He & Hb & Hb1) Hn]; [by rewrite Hin, Hk, orb_true_r|]. split; [|done].
      destruct (HB1 _ _ Hb) as (b' & Hb' & Ep). exists e, b'. split_and!; [done|done|congruence]. }
    exists s2, T2, B2, R2. split_and!; [|done|by etrans|done|exact (keeps_trans _ _ _ _ _ _ K1 K2)|by auto| |].
    + rewrite (forM_cons (λ r, clone_region r from to) region rs s s1 E1). done.
    + destruct HG1 as [G1 O1], HG2 as [G2 O2]. split.
      * intros r k. rewrite G2, Hin. specialize (Hin1 k). destruct (in_region region k) eqn:Ek1; simpl.
        -- rewrite (Hap k Ek1). rewrite decide_False by (by intros [_ ?]). rewrite G1. by rewrite Hin1.
        -- rewrite !(O1 _ k) by congruence. done.
      * intros r k. rewrite Hin. intros [Hk1 Hk2]%orb_false_iff. rewrite O2 by done. apply O1. by rewrite Hin1.
    + intros h b Hb. destruct (HB1 h b Hb) as (b1 & Hb1 & E1'). destruct (HB2 h b1 Hb1) as (b2 & Hb2 & E2'). exists b2. split; [done|congruence].
Qed.

(** The two pages from [vs] of tree [r] are backed by the frames at [sp]. *)
Definition has_stack R (r vs sp : Z) : Prop :=
  ∀ i, 0 ≤ i < 2 → ∃ e, R !! (r, vs + i) = Some e ∧ fr e = sp + 4096 * i ∧ kwritable e = true.

Lemma stack_unique B R r vs sp i k e :
  Safe B R → covers B R → has_stack R r vs sp → 0 ≤ i < 2 → R !! k = Some e → fr e = sp + 4096 * i → k = (r, vs + i).
Proof.
  intros HS Hcov Hst Hi Hk He. destruct (Hst i Hi) as (e' & He' & Hf & Hw). destruct (Hcov _ _ He') as (h & b & Hin).
  destruct (HS _ _ _ _ He' Hin) as (Hc & H1 & H2). rewrite (H1 (H2 Hw)) in Hc.
  apply (cnt_unique R _ _ _ _ He' Hk); [congruence|done].
Qed.

(** Copying a stack: the frames of the one are the frames of the other. *)
Lemma copy_stack_run s T W B R r1 r2 vs sp1 sp2 :
  UInv s T W B R → Safe B R → r1 ≠ r2 → has_stack R r1 vs sp1 → has_stack R r2 vs sp2 → (base.size W + 2 ≤ 128)%nat →
  ∃ s', copy_pm sp1 sp2 2 s = Done (inr tt, s') ∧ UInv s' T W B R ∧ frames s' = frames s ∧
    (∀ i j, 0 ≤ i < 2 → 0 ≤ j < 512 → word s' (sp2 + 4096 * i) j = word s (sp1 + 4096 * i) j) ∧
    ∀ q j, (∀ i, 0 ≤ i < 2 → q ≠ sp2 + 4096 * i) → ¬ win_entry q j → word s' q j = word s q j.
Proof.
  intros HU HS H12 S1 S2 Hsz. pose proof (UInv_cov _ _ _ _ _ HU) as Hcov.
  assert (∀ r sp i, has_stack R r vs sp → 0 ≤ i < 2 → frame_ok (sp + 4096 * i) ∧ T !! (sp + 4096 * i) = None) as Hok.
  { intros r sp i Hst Hi. destruct (Hst i Hi) as (e & He & <- & _). destruct (ui_data _ _ _ _ _ HU _ _ He) as [HT (h & b & Hin)].
    split; [|done]. by eapply blocks_frame; [exact (ui_blocks _ _ _ _ _ HU)|]. }
  assert (∀ i j, 0 ≤ i < 2 → 0 ≤ j < 2 → sp1 + 4096 * i ≠ sp2 + 4096 * j) as Hne.
  { intros i j Hi Hj E. destruct (S1 i Hi) as (e & He & Hf & _).
    pose proof (stack_unique B R r2 vs sp2 j _ _ HS Hcov S2 Hj He ltac:(congruence)). congruence. }
  assert (∀ sp i, frame_ok (sp + 4096 * 0) → 0 ≤ i < 2 → sp +! 4096 *! i = sp + 4096 * i) as Hpg.
  { intros sp i Hsp Hi. destruct (frame_ok_range _ Hsp) as [Hrg _]. apply page_i; lia. }
  destruct (Hok r1 sp1 0 S1 ltac:(lia)) as [A0 TA0], (Hok r1 sp1 1 S1 ltac:(lia)) as [A1 TA1].
  destruct (Hok r2 sp2 0 S2 ltac:(lia)) as [D0 TD0], (Hok r2 sp2 1 S2 ltac:(lia)) as [D1 TD1].
  pose proof (UInv_l3 _ _ _ _ _ HU) as Hl3.
  destruct (copy_step_run s T W B R _ _ 0 [1] sp1 sp2 (Hpg sp1 0 A0 ltac:(lia)) (Hpg sp2 0 D0 ltac:(lia)) HU A0 D0
    (Hne 0 0 ltac:(lia) ltac:(lia)) TA0 TD0 Hsz) as (s1 & E1 & HU1 & Ef1 & Hc1 & Ho1).
  destruct (copy_step_run s1 T W B R _ _ 1 [] sp1 sp2 (Hpg sp1 1 A0 ltac:(lia)) (Hpg sp2 1 D0 ltac:(lia)) HU1 A1 D1
    (Hne 1 1 ltac:(lia) ltac:(lia)) TA1 TD1 Hsz) as (s2 & E2 & HU2 & Ef2 & Hc2 & Ho2).
  exists s2. split_and!; [|done|congruence| |].
  - unfold copy_pm. change (range 0 2) with [0; 1]. rewrite E1, E2. done.
  - intros i j Hi Hj. assert (i = 0 ∨ i = 1) as [->| ->] by lia.
    + rewrite Ho2; [by apply Hc1|lia|]. by apply (data_not_win T).
    + rewrite Hc2 by done. apply Ho1; [apply Hne; lia|]. by apply (data_not_win T).
  - intros q j Hq Hn. rewrite Ho2, Ho1; [done|apply Hq; lia|done|apply Hq; lia|done].
Qed.

(** The parent and the child of [fork], and the pages they have before it. *)
Record forkable s T W B R (m1 m2 : Mm) (rs : list URegion) (r1 r2 sp1 sp2 vs : Z) : Prop := {
  fk_regions : rs = program m1 ++ [brk_r m1; mmap_r m1];
  fk_pt : user_pt m1 = Some r1 ∧ user_pt m2 = Some r2;
  fk_roots : uroot T r1 ∧ uroot T r2 ∧ r1 ≠ r2;
  fk_sp : user_sp m1 = Some sp1 ∧ user_sp m2 = Some sp2;
  fk_stacks : has_stack R r1 vs sp1 ∧ has_stack R r2 vs sp2;
  fk_stack_out : ∀ i, 0 ≤ i < 2 → in_regions rs (vs + i) = false;
  fk_windows : (base.size W + 5 ≤ 128)%nat;
  fk_room : room (frames s) (3 * total rs);
  fk_shareable : Forall shareable rs;
  fk_apart : apart rs;
  fk_pages : to_share rs B R r1 r2;
}.

Lemma fork_run s T W B R pid (m1 m2 : Mm) rs (r1 r2 sp1 sp2 vs : Z) z :
  UInv s T W B R → Safe B R → forkable s T W B R m1 m2 rs r1 r2 sp1 sp2 vs → room (frames s) (3 * total rs + z) →
  ∃ s' T' B' R',
    fork_mm pid m1 m2 s = Done (with_mmap (mmap_r m1) (with_brk (brk_r m1) (with_program (program m2 ++ program m1) m2)), s') ∧
    UInv s' T' W B' R' ∧ Safe B' R' ∧ T ⊆ T' ∧ room (frames s') z ∧ given rs R R' r1 r2 ∧ same_blocks B B' ∧
    (∀ q e p j, R' !! q = Some e → (∀ i, 0 ≤ i < 2 → q ≠ (r2, vs + i)) →
       (∃ q0 e0, R !! q0 = Some e0 ∧ fr e0 = p) → fr e = p → word s' p j = word s p j) ∧
    ∀ i j, 0 ≤ i < 2 → 0 ≤ j < 512 → word s' (sp2 + 4096 * i) j = word s (sp1 + 4096 * i) j.
Proof.
  intros HU HS [Ers [Hm1 Hm2] (Hr1 & Hr2 & H12) [Hsp1 Hsp2] [S1 S2] Hvs Hsz _ Hsh Hap Hts] Hroom.
  destruct (UInv_window s T W B R r1 PR_PW HU) as (i & s1 & E1 & Hi & HU1 & Q1 & K1);
    [by eapply uroot_frame|lia|apply PR_PW_ok|].
  destruct (UInv_window s1 T _ B R r2 PR_PW HU1) as (k & s2 & E2 & Hk & HU2 & Q2 & K2);
    [by eapply uroot_frame|rewrite map_size_insert_None by done; lia|apply PR_PW_ok|].
  set (W2 := <[k := r2]> (<[i := r1]> W)) in *.
  assert (base.size W2 = S (S (base.size W))) as Hsz2 by (unfold W2; rewrite !map_size_insert_None by done; lia).
  assert (shows W2 (Win (waddr i)) r1) as Hf.
  { apply (shows_mono (<[i := r1]> W)); [by apply insert_subseteq|apply shows_insert]. }
  assert (frames s2 = frames s) as Ef2 by (destruct Q2 as (_ & -> & _), Q1 as (_ & -> & _); done).
  destruct (clone_all_run (Win (waddr i)) (Win (waddr k)) r1 r2 W2 Hf (shows_insert _ k r2) H12 ltac:(lia)
    rs s2 T B R z HU2 Hr1 Hr2 Hsh Hap) as (s3 & T3 & B3 & R3 & E3 & HU3 & HT3 & Rm3 & K3 & HS3 & HG & HB3);
    [by rewrite Ef2|done|].
  specialize (HS3 HS). pose proof (UInv_cov _ _ _ _ _ HU3) as Hcov3.
  assert (∀ r sp, has_stack R r vs sp → has_stack R3 r vs sp) as Hst.
  { intros r sp Hst j Hj. destruct (Hst j Hj) as (e & He & H). exists e. by rewrite (given_pages _ _ _ _ _ _ _ HG) by by apply Hvs. }
  destruct (copy_stack_run s3 T3 W2 B3 R3 r1 r2 vs sp1 sp2 HU3 HS3 H12 (Hst _ _ S1) (Hst _ _ S2) ltac:(lia))
    as (s4 & E4 & HU4 & Ef4 & Hc4 & Ho4).
  destruct (tlbi_aside1 pid s4) as [[[] s4l]|] eqn:E4l; [|done].
  assert (UInv s4l T3 W2 B3 R3) as HU4l by (injection E4l as <-; by apply UInv_tlb).
  assert (frames s4l = frames s4 ∧ keeps s4 T3 s4l T3) as [Ef4l K4l] by by injection E4l as <-.
  destruct (UInv_drop _ _ _ _ _ _ _ HU4l Hk) as (s5 & E5 & HU5 & Q5 & K5).
  destruct (UInv_drop _ _ _ _ _ _ _ HU5 Hi) as (s6 & E6 & HU6 & Q6 & K6).
  pose proof (keeps_trans _ _ _ _ _ _ K1 (keeps_trans _ _ _ _ _ _ K2 K3)) as K13.
  pose proof (keeps_trans _ _ _ _ _ _ K4l (keeps_trans _ _ _ _ _ _ K5 K6)) as K56.
  exists s6, T3, B3, R3. split_and!; [|done|done|done| |done|done| |].
  - rewrite Ers in E3. apply forM_app_inv in E3 as (t & Ea & Eb). unfold fork_mm. rewrite Hm1. mstep. mrun E1. simpl unwrap_r. mstep.
    rewrite Hm2. mstep. mrun E2. simpl unwrap_r. mstep. unfold clone_regions. rewrite bind_assoc. mrun Ea. mstep.
    cbn [forM] in Eb. unfold bind at 1 in Eb. destruct (clone_region (brk_r m1) _ _ t) as [[[] t1]|] eqn:Eb1; [|done].
    unfold bind at 1 in Eb. destruct (clone_region (mmap_r m1) _ _ t1) as [[[] t2]|] eqn:Eb2; [|done].
    injection Eb as ->. mrun Eb1. mrun Eb2. rewrite Hsp1. mstep. rewrite Hsp2. mstep. mrun E4. simpl unwrap_r. mstep.
    mrun E4l. mrun E5. by mrun E6.
  - destruct Q6 as (_ & -> & _), Q5 as (_ & -> & _). by rewrite Ef4l, Ef4.
  - intros q e p j Hq Hn (q0 & e0 & Hq0 & <-) Ep.
    rewrite <- Ep at 1. rewrite (keeps_word _ _ _ _ _ _ _ _ _ j K56 HU4 Hq), <- (keeps_word _ _ _ _ _ _ _ _ _ j K13 HU Hq0), Ep.
    apply Ho4; [|rewrite <- Ep; apply (data_not_win T3); [by apply (ui_data _ _ _ _ _ HU3 _ _ Hq)|by eapply UInv_l3]].
    intros a Ha E. apply (Hn a Ha). apply (stack_unique B3 R3 r2 vs sp2 a _ _ HS3 Hcov3 (Hst _ _ S2) Ha Hq). congruence.
  - intros a j Ha Hj. destruct (Hst _ _ S2 a Ha) as (e2 & He2 & Hf2 & _). destruct (S1 a Ha) as (e1 & He1 & Hf1 & _).
    rewrite <- Hf2, (keeps_word _ _ _ _ _ _ _ _ _ j K56 HU4 He2), Hf2, (Hc4 a j Ha Hj), <- Hf1. by eapply keeps_word.
Qed.

(** C20: [fork] copies.  After the address space of the parent was cloned, the
    child reads in every region and on its stack what the parent read, every
    task, the parent included, reads everywhere what it read before, and copy
    on write is in force again, so that no store from now on is seen by
    another task. *)
Theorem fork_copies s T W B R pid (m1 m2 : Mm) rs (r1 r2 sp1 sp2 vs : Z) :
  UInv s T W B R → Safe B R → forkable s T W B R m1 m2 rs r1 r2 sp1 sp2 vs →
  ∃ s' T' B' R',
    fork_mm pid m1 m2 s = Done (with_mmap (mmap_r m1) (with_brk (brk_r m1) (with_program (program m2 ++ program m1) m2)), s') ∧
    UInv s' T' W B' R' ∧ Safe B' R' ∧
    ∀ r v, uroot T r → uload s' r v =
      if decide (r = r2 ∧ (in_regions rs (vpn v) = true ∨ vs ≤ vpn v < vs + 2)) then uload s r1 v else uload s r v.
Proof.
  intros HU HS HF. destruct (fork_run _ _ _ _ _ pid _ _ _ _ _ _ _ _ 0 HU HS HF)
    as (s' & T' & B' & R' & E & HU' & HS' & HT & _ & [G1 G2] & _ & Hw & Hc); [rewrite Nat.add_0_r; apply HF|].
  destruct HF as [_ _ (Hr1 & Hr2 & H12) _ [S1 S2] Hvs _ _ _ _ _].
  exists s', T', B', R'. split_and!; [done|done|done|]. intros r v Hr.
  rewrite (uload_map _ _ _ _ _ r v HU' (uroot_mono _ _ _ HT Hr)).
  destruct (decide (r = r2 ∧ vs ≤ vpn v < vs + 2)) as [[-> Hv]|Hns].
  { rewrite decide_True by auto. rewrite (uload_map _ _ _ _ _ r1 v HU Hr1).
    destruct (S1 (vpn v - vs) ltac:(lia)) as (e1 & He1 & Hf1 & _). destruct (S2 (vpn v - vs) ltac:(lia)) as (e2 & He2 & Hf2 & _).
    rewrite <- G2 in He2 by (apply Hvs; lia). replace (vs + (vpn v - vs)) with (vpn v) in He1, He2 by lia.
    rewrite He1, He2, Hf1, Hf2. f_equal. apply (Hc (vpn v - vs)); [lia|apply offset_word]. }
  assert (∀ a, 0 ≤ a < 2 → (r, vpn v) ≠ (r2, vs + a)) as Hn by (intros a Ha [= -> Ea]; apply Hns; split; [done|lia]).
  assert (∀ r0, fr <$> R' !! (r, vpn v) = fr <$> R !! (r0, vpn v) → uroot T r0 →
    match R' !! (r, vpn v) with Some e => Some (word s' (fr e) (Z.land v 0xfff / 8)) | None => None end = uload s r0 v) as Hsame.
  { intros r0 HG Hr0. rewrite (uload_map _ _ _ _ _ r0 v HU Hr0).
    destruct (R' !! (r, vpn v)) as [e|] eqn:Ee, (R !! (r0, vpn v)) as [e0|] eqn:Ee0; try done.
    simpl in HG. injection HG as HG. rewrite HG. f_equal. apply (Hw _ e _ _ Ee Hn); [|done]. by eexists _, _. }
  pose proof (G1 r (vpn v)) as HG. destruct (decide (r = r2 ∧ in_regions rs (vpn v) = true)) as [[-> Hv]|Hnr].
  - rewrite decide_True by auto. by apply Hsame.
  - rewrite decide_False by (intros [-> [?|?]]; [by apply Hnr|by apply Hns]). by apply Hsame.
Qed.
End fork.
