(* ===== verification/Tlb.v ===== *)
(** * The TLB and the tables

    The processor remembers translations: it may take any page that the tables
    map into its TLB at any time, may forget any, and uses what it remembers
    without looking at the tables again.  The code must therefore say, with
    [tlbi], which translations are no longer good.  [Vm] has the instructions;
    here is what the hardware does with the entries and what it means that none
    of them is stale.

    The two registers of the MMU are [ttbr1], which [vm::init] points at the
    tree of the kernel for good, and [ttbr0], which [restore_ttbr0] points at
    the tree of a task and which carries the number of the task as the
    identifier of its address space. *)
From S2P Require Import Prelude Stuff Pm Vm VmInv VmTree VmRun VmSpec Hoare Umem.

Local Open Scope Z_scope.

(** ** Addresses *)

(** The two ranges of addresses that are translated at all. *)
Definition canonical (v : Z) : bool :=
  ((0 <=? v) && (v <? 2 ^ 48)) || ((2 ^ 64 - 2 ^ 48 <=? v) && (v <? 2 ^ 64)).

(** Bit 55 selects the register. *)
Definition upper (v : Z) : bool := Z.testbit v 55.

Lemma tlb_page_div v : tlb_page v = (v / 4096) mod 2 ^ 44.
Proof. unfold tlb_page. by rewrite Z.land_ones, Z.shiftr_div_pow2 by lia. Qed.

Lemma canonical_upper v : canonical v = true → if upper v then 2 ^ 64 - 2 ^ 48 ≤ v < 2 ^ 64 else 0 ≤ v < 2 ^ 48.
Proof.
  intros Hc. assert (0 ≤ v < 2 ^ 48 ∨ 2 ^ 64 - 2 ^ 48 ≤ v < 2 ^ 64) as H
    by (unfold canonical in Hc; lia).
  unfold upper. rewrite Z.testbit_odd, Z.shiftr_div_pow2 by lia. destruct H as [H|H].
  - replace (v / 2 ^ 55) with 0 by zdiv. exact H.
  - replace (v / 2 ^ 55) with 511 by zdiv. exact H.
Qed.

(** Among these addresses the page decides the half and the indices. *)
Lemma page_same v v' :
  canonical v = true → canonical v' = true → tlb_page v = tlb_page v' ↔ upper v = upper v' ∧ vpn v = vpn v'.
Proof.
  intros H H'. apply canonical_upper in H, H'. rewrite !tlb_page_div. unfold vpn.
  destruct (upper v), (upper v'); split; try (intros [? ?]; done); intros; split_and?; try done; zdiv.
Qed.

Lemma asid_masked p : Z.land (wshl 64 p 48) PHY_MASK = 0.
Proof.
  unfold wshl, wrap. rewrite Z.shiftl_mul_pow2 by lia. change (2 ^ 64) with (2 ^ 16 * 2 ^ 48). rewrite Z.mul_mod_distr_r by lia.
  apply Z.bits_inj_0. intros i. rewrite Z.land_spec. destruct (Z.ltb_spec i 48) as [Hi|Hi].
  - destruct (Z.ltb_spec i 0); [by rewrite Z.testbit_neg_r by lia|]. by rewrite Z.mul_pow2_bits_low by lia.
  - rewrite (testbit_high 48 PHY_MASK) by (done || lia). apply andb_false_r.
Qed.

Create HintDb tlb discriminated.

Section tlb.
Context {im : Image} {F : Type} {fo : FrameOps F} {so : ShareOps F}.
Implicit Types (s : VSt F) (W G : gmap Z Z) (T : gmap Z (Z * list Z)).
Notation VM := (VM F).

(** ** The hardware *)
Definition asid_of (ttbr0 : Z) : Z := Z.shiftr ttbr0 48.
Definition hw_root (ttbr0 v : Z) : Z := if upper v then im_pt else Z.land ttbr0 PHY_MASK.
Definition hw_walk s (ttbr0 v : Z) : option Z := translate s (hw_root ttbr0 v) v.

(** The entry is used for an access to [v]. *)
Definition hits (asid v : Z) (t : Tlbe) : bool :=
  (te_page t =? tlb_page v) && (te_global t || (te_asid t =? asid)).

(** What the hardware takes in: bit 11 of a leaf is [nG]. *)
Definition fill_entry (asid v e : Z) : Tlbe := mkTlbe asid (negb (Z.testbit e 11)) (tlb_page v) e.

Definition fill (ttbr0 v : Z) : VM unit :=
  if canonical v then
    modify (λ s, match hw_walk s ttbr0 v with
                 | Some e => set_tlb (fill_entry (asid_of ttbr0) v e :: tlb s) s
                 | None => s
                 end)
  else ret tt.

Definition evict (n : nat) : VM unit := modify (λ s, set_tlb (base.delete n (tlb s)) s).

(** ** No entry is stale *)

(** [D] has the pages of the trees whose permissions were rewritten without a
    [tlbi] since: of such a page an entry still has the frame, and of every other
    page it is what the tables say.  The windows are rewritten as they are taken:
    only those that are held count. *)
Record fits s W (D : list (Z * Z)) (ttbr0 v e : Z) : Prop := {
  fits_walk : ¬ win_page (hw_root ttbr0 v) v →
    ∃ e', hw_walk s ttbr0 v = Some e' ∧ Z.land e' PHY_MASK = Z.land e PHY_MASK ∧
      ((hw_root ttbr0 v, tlb_page v) ∉ D → e' = e);
  fits_win i p : W !! i = Some p → tlb_page v = tlb_page (waddr i) → Z.land e PHY_MASK = p;
}.

Definition coherent s W D (ttbr0 : Z) : Prop :=
  ∀ t v, t ∈ tlb s → canonical v = true → hits (asid_of ttbr0) v t = true → fits s W D ttbr0 v (te_ent t).

(** ** The code only takes entries out *)
Definition all_tlb (Q : Tlbe → Prop) s : Prop := ∀ t, t ∈ tlb s → Q t.

Lemma in_filter (f : Tlbe → bool) (l : list Tlbe) t : t ∈ List.filter f l ↔ t ∈ l ∧ f t = true.
Proof. rewrite !list_elem_of_In. apply filter_In. Qed.

Lemma tlb_modify Q (f : VSt F → VSt F) : (∀ s, tlb (f s) = tlb s) → pres (all_tlb Q) (modify f).
Proof. intros Hf. apply hoare_modify. intros s. unfold all_tlb. by rewrite Hf. Qed.

Lemma tlb_filter Q (f : Tlbe → bool) : pres (all_tlb Q) (modify (λ s : VSt F, set_tlb (List.filter f (tlb s)) s)).
Proof. apply hoare_modify. intros s H t Ht. simpl in Ht. apply in_filter in Ht as [Ht _]. by apply H. Qed.

Lemma tlb_frames {A} Q (m : M F A) : pres (all_tlb Q) (on_frames m).
Proof. intros s a s' H. unfold on_frames. destruct (m (frames s)) as [[]|]; [|done]. by intros [= <- <-]. Qed.

(** The rules for the code: a goal [pres (all_tlb Q) m] by its structure. *)
Ltac tlb_step :=
  match goal with
  | |- hoare _ (bind _ _) _ => apply pres_bind; [|intros ?]
  | |- hoare _ (forM _ _) _ => apply pres_forM; intros ?
  | |- hoare _ (ret _) _ => apply pres_ret
  | |- hoare _ get _ => apply pres_get
  | |- hoare _ (gets _) _ => apply pres_gets
  | |- hoare _ (assert_ _) _ => apply pres_assert
  | |- hoare _ (unwrap _) _ => apply pres_unwrap
  | |- hoare _ (lift _) _ => apply pres_lift
  | |- hoare _ (fail _) _ => apply pres_fail
  | |- hoare _ panic _ => apply pres_fail
  | |- hoare _ (on_frames _) _ => apply tlb_frames
  | |- hoare _ (tlbi_vaee1 _) _ => apply tlb_filter
  | |- hoare _ (tlbi_aside1 _) _ => apply tlb_filter
  | |- hoare _ (modify _) _ => apply tlb_modify; done
  | |- hoare _ (let '(_, _) := ?x in _) _ => destruct x
  | |- hoare _ (if ?b then _ else _) _ => destruct b
  | |- hoare _ (match ?x with _ => _ end) _ => destruct x
  | |- _ => solve [auto with tlb]
  end.
Ltac tlb_auto := repeat (cbv beta zeta; tlb_step).

Lemma tlb_pt_get Q sl i : pres (all_tlb Q) (pt_get sl i).
Proof. unfold pt_get. tlb_auto. Qed.
Lemma tlb_pt_set Q sl i x : pres (all_tlb Q) (pt_set sl i x).
Proof. unfold pt_set. tlb_auto. Qed.
Hint Resolve tlb_pt_get tlb_pt_set : tlb.

Lemma tlb_zero Q sl : pres (all_tlb Q) (zero_pt sl).
Proof. unfold zero_pt. tlb_auto. Qed.
Hint Resolve tlb_zero : tlb.

Lemma tlb_wrap_new Q p perms z : pres (all_tlb Q) (pm_wrap_new p perms z).
Proof. unfold pm_wrap_new. tlb_auto. Qed.
Lemma tlb_wrap_drop Q w : pres (all_tlb Q) (pm_wrap_drop w).
Proof. unfold pm_wrap_drop. tlb_auto. Qed.
Hint Resolve tlb_wrap_new tlb_wrap_drop : tlb.

Lemma tlb_alloc_pt Q i sl : pres (all_tlb Q) (pt_alloc_if_0_2 i sl no_cb).
Proof. unfold pt_alloc_if_0_2, no_cb. tlb_auto. Qed.
Hint Resolve tlb_alloc_pt : tlb.

Lemma tlb_map Q sl v p perms ow : pres (all_tlb Q) (map_v2p_4k_inner sl v p perms ow no_cb).
Proof. unfold map_v2p_4k_inner. tlb_auto. Qed.
Lemma tlb_walk Q sl v : pres (all_tlb Q) (walk_to_l3 sl v).
Proof. unfold walk_to_l3. tlb_auto. Qed.
Hint Resolve tlb_map tlb_walk : tlb.

Lemma tlb_unmap Q sl v : pres (all_tlb Q) (unmap_4k_inner sl v).
Proof. unfold unmap_4k_inner. tlb_auto. Qed.
Hint Resolve tlb_unmap : tlb.

Lemma tlb_v2p Q sl v cb : (∀ f sl' i, cb = Some f → pres (all_tlb Q) (f sl' i)) → pres (all_tlb Q) (v2p_pt sl v cb).
Proof. intros Hcb. unfold v2p_pt. destruct cb as [f|]; tlb_auto. Qed.

Lemma tlb_set_perms Q perms sl i : pres (all_tlb Q) (set_perms perms sl i).
Proof. unfold set_perms. tlb_auto. Qed.

Lemma tlb_v2p_perms Q sl v perms : pres (all_tlb Q) (v2p_pt sl v (Some (set_perms perms))).
Proof. apply tlb_v2p. intros f sl' i [= <-]. apply tlb_set_perms. Qed.

Lemma tlb_unwrap_r {A E} Q (r : E + A) : pres (all_tlb Q) (unwrap_r r).
Proof. unfold unwrap_r. tlb_auto. Qed.
Hint Resolve tlb_v2p_perms tlb_unwrap_r : tlb.

Lemma tlb_umap_loop Q l sl v p perms : pres (all_tlb Q) (umap_loop l sl v p perms).
Proof. induction l as [|i l IH]; cbn [umap_loop]; tlb_auto. Qed.
Lemma tlb_map_ovwr_loop Q l sl v p perms : pres (all_tlb Q) (map_ovwr_loop l sl v p perms).
Proof. induction l as [|i l IH]; cbn [map_ovwr_loop]; tlb_auto. Qed.
Hint Resolve tlb_umap_loop tlb_map_ovwr_loop : tlb.

Lemma tlb_umap Q sl v p n perms : pres (all_tlb Q) (umap sl v p n perms).
Proof. unfold umap. tlb_auto. Qed.
Lemma tlb_map_ovwr Q sl v p n perms : pres (all_tlb Q) (map_ovwr sl v p n perms).
Proof. unfold map_ovwr. tlb_auto. Qed.
Lemma tlb_copy_slice Q to from : pres (all_tlb Q) (copy_slice to from).
Proof. unfold copy_slice. tlb_auto. Qed.
Hint Resolve tlb_umap tlb_map_ovwr tlb_copy_slice : tlb.

Lemma tlb_copy Q from to n : pres (all_tlb Q) (copy_pm from to n).
Proof. unfold copy_pm. induction (range 0 n) as [|i l IH]; cbn [copy_loop]; tlb_auto. Qed.
Lemma tlb_clone_block Q flags g from to i : pres (all_tlb Q) (clone_block flags g from to i).
Proof. unfold clone_block. tlb_auto. Qed.
Hint Resolve tlb_copy tlb_clone_block : tlb.

Lemma tlb_clone Q g from to : pres (all_tlb Q) (clone_region g from to).
Proof. unfold clone_region, clone_flags. tlb_auto. Qed.
Hint Resolve tlb_clone : tlb.

Lemma tlb_cow Q sl g b sl' i : pres (all_tlb Q) (cow_page sl g b sl' i).
Proof. unfold cow_page. tlb_auto. Qed.
Hint Resolve tlb_cow : tlb.

Lemma tlb_dabt Q m far : pres (all_tlb Q) (dabt_handler m far).
Proof. unfold dabt_handler, with_table, v2p_cb. tlb_auto. Qed.
Lemma tlb_fork Q pid m1 m2 : pres (all_tlb Q) (fork_mm pid m1 m2).
Proof. unfold fork_mm, clone_regions. tlb_auto. Qed.

(** ** What is taken out *)

(** Nothing is remembered of the page of [v]. *)
Definition gone (v : Z) : VSt F → Prop := all_tlb (λ t, te_page t ≠ tlb_page v).

Lemma tlbi_gone P v : hoare P (tlbi_vaee1 v) (λ _, gone v).
Proof.
  intros s [] s' _ [= <-] t Ht. simpl in Ht. apply in_filter in Ht as [_ Ht]. by apply negb_true_iff, Z.eqb_neq in Ht.
Qed.

Lemma any_bind {A B} P (m : VM A) (k : A → VM B) Q : (∀ a, hoare (λ _, True) (k a) Q) → hoare P (bind m k) Q.
Proof. intros Hk. eapply hoare_bind; [|exact Hk]. by intros s a s' _ _. Qed.

(** One step that flushes is enough. *)
Lemma gone_bind {A B} P v (m : VM A) (k : A → VM B) :
  hoare P m (λ _, gone v) → (∀ a, pres (gone v) (k a)) → hoare P (bind m k) (λ _, gone v).
Proof. intros Hm Hk. by eapply hoare_bind. Qed.

Definition map_gone (v : Z) (ow : bool) (r : Error + Z) s : Prop :=
  match r with inr _ => gone v s | inl (EExists _) => ow = true → gone v s | inl _ => True end.

Lemma map_flushes sl v p perms ow :
  hoare (λ _, True) (map_v2p_4k_inner sl v p perms ow no_cb) (map_gone v ow).
Proof.
  unfold map_v2p_4k_inner. apply any_bind. intros [e1|l1]; [by apply hoare_ret|].
  apply any_bind. intros [e2|l2]; [by apply any_bind; intros _; apply hoare_ret|].
  apply any_bind. intros [e3|l3]; [by do 2 (apply any_bind; intros _); apply hoare_ret|].
  apply any_bind. intros old. apply (hoare_bind _ _ _ (map_gone v ow)).
  - destruct (negb (old =? 0) && negb ow) eqn:E.
    + apply hoare_ret. intros s _. simpl. by destruct ow; [rewrite andb_false_r in E|].
    + apply any_bind. intros _. eapply hoare_bind; [apply tlbi_gone|]. intros [].
      apply hoare_ret. intros s Hs. destruct (negb (old =? 0)); [intros _|]; exact Hs.
  - intros r. assert (∀ (m : VM (Error + Z)), (∀ Q, pres (all_tlb Q) m) → pres (map_gone v ow r) m) as Hpr.
    { intros m Hm s a s' Hs E. destruct r as [[]|]; simpl in *; try done; [|by eapply Hm].
      intros Ho. specialize (Hs Ho). by eapply Hm. }
    intros s a s' Hs E. assert (a = r) as ->.
    { revert E. unfold bind, ret. do 3 (destruct (pm_wrap_drop _ _) as [[[] ?]|]; [|done]). congruence. }
    eapply Hpr; [|exact Hs|exact E]. intros Q. tlb_auto.
Qed.

Lemma unmap_flushes sl v :
  hoare (λ _, True) (unmap_4k_inner sl v) (λ r s, match r with inr _ => gone v s | inl _ => True end).
Proof.
  unfold unmap_4k_inner. apply any_bind. intros [e|l3]; [by apply hoare_ret|]. apply any_bind. intros _.
  eapply hoare_bind; [apply tlbi_gone|]. intros []. apply hoare_then_ret. apply tlb_wrap_drop.
Qed.

Lemma wadd_head v : 0 ≤ v < 2 ^ 64 → v +! 4096 *! 0 = v.
Proof. intros Hv. change (4096 *! 0) with 0. rewrite wadd_small by lia. lia. Qed.

Lemma umap_flushes sl v p n perms :
  0 < n → 0 ≤ v < 2 ^ 64 →
  hoare (λ _, True) (umap sl v p n perms) (λ r s, match r with inr _ => gone v s | inl _ => True end).
Proof.
  intros Hn Hv. unfold umap. rewrite range_cons by lia. cbn [umap_loop]. rewrite wadd_head by done.
  apply (hoare_bind _ _ _ (λ r s, match r with inr _ => gone v s | inl _ => True end)).
  - eapply hoare_bind; [apply map_flushes|]. intros [e|w]; [by apply hoare_ret|].
    eapply hoare_post; [apply tlb_umap_loop|]. by intros [] s.
  - intros [e|[]]; by apply hoare_ret.
Qed.

Lemma ovwr_flushes sl v p perms :
  0 ≤ v < 2 ^ 64 →
  hoare (λ _, True) (map_ovwr sl v p 1 perms) (λ r s, match r with inr _ => gone v s | inl _ => True end).
Proof.
  intros Hv. unfold map_ovwr. change (range 0 1) with [0]. cbn [map_ovwr_loop]. rewrite wadd_head by done.
  eapply hoare_bind; [apply map_flushes|]. intros [[w| |]|w]; apply hoare_ret; try done. intros s Hs. by apply Hs.
Qed.

(** A loop of which every turn establishes something for good. *)
Lemma forM_each {A} (l : list A) (body : A → VM unit) (P : A → VSt F → Prop) :
  (∀ x y, pres (P y) (body x)) → (∀ x, x ∈ l → hoare (λ _, True) (body x) (λ _, P x)) →
  hoare (λ _, True) (forM l body) (λ _ s, ∀ x, x ∈ l → P x s).
Proof.
  intros Hp. induction l as [|y l IH]; intros Hb; cbn [forM].
  - apply hoare_ret. intros s _ x Hx. by apply elem_of_nil in Hx.
  - intros s a s'' _. unfold bind. destruct (body y s) as [[[] s1]|] eqn:E1; [|done]. intros E2.
    assert (P y s1) as H1 by (eapply (Hb y); [left|done|exact E1]).
    intros x [->|Hx]%elem_of_cons.
    + exact (pres_forM (P y) l body (λ z, Hp z y) s1 a s'' H1 E2).
    + eapply IH; [|done|exact E2|done]. intros z Hz. apply Hb. by right.
Qed.

Lemma clone_block_flushes flags g from to i :
  granule g = 0 → hoare (λ _, True) (clone_block flags g from to i) (λ _, gone (u_vaddr g +! i *! blksize g)).
Proof.
  intros Hg. unfold clone_block. set (v := u_vaddr g +! _).
  assert (0 ≤ v < 2 ^ 64) as Hv by (apply wrap_range; lia).
  assert (blksize g / 4096 = 1) as -> by (unfold blksize; by rewrite Hg).
  do 4 (apply any_bind; intros ?). cbv zeta. eapply hoare_bind; [by apply umap_flushes|]. intros [e|w].
  - simpl. by intros s b s' _.
  - simpl. change (range 1 1) with (@nil Z). cbn [forM]. intros s b s' Hs [= <- <-]. exact Hs.
Qed.

Lemma clone_flushes g from to n :
  granule g = 0 → u_len g = 4096 * n → 0 ≤ n →
  hoare (λ _, True) (clone_region g from to) (λ _ s, ∀ i, 0 ≤ i < n → gone (u_vaddr g +! i *! 4096) s).
Proof.
  intros Hg Hl Hn. assert (blksize g = 4096) as Hb by (unfold blksize; by rewrite Hg).
  unfold clone_region. do 3 (apply any_bind; intros ?). rewrite Hb.
  replace (u_len g / 4096) with n by (rewrite Hl; zdiv). eapply hoare_post.
  - apply (forM_each _ _ (λ i, gone (u_vaddr g +! i *! blksize g))); [intros; apply tlb_clone_block|].
    intros i _. by apply clone_block_flushes.
  - intros b s Hs i Hi. rewrite Hb in Hs. apply Hs. apply elem_of_range. lia.
Qed.
End tlb.
