(* ===== verification/TlbSpec.v ===== *)
(** * No stale translation is used

    The entries the hardware may use always agree with the tables: after every
    page that is mapped or unmapped in any tree, whatever the hardware takes
    in or forgets between, after every change of address space, except that the
    permissions [execv_inner] gives the pages of a program count only once it has
    switched the address space at its end; and after [fork] has
    write-protected the pages of the parent, and after a write fault has
    replaced a page. *)
From S2P Require Import Prelude Stuff Pm Vm VmInv VmTree VmRun VmFree VmSpec Hoare Umem UmemInv UmemRun UmemSafe UmemOps UmemSpec UmemFork Tlb.

Local Open Scope Z_scope.

(** ** Operations *)
Inductive mmu_op :=
  | OpFill (v : Z)                            (* the hardware reads the tables *)
  | OpEvict (n : nat)                         (* and forgets *)
  | OpMap (r v p perms : Z) (overw : bool)    (* [map_v2p_4k_inner] in the tree of [r] *)
  | OpUnmap (r v : Z)                         (* [unmap_4k_inner] *)
  | OpPerms (r v perms : Z)                   (* a turn of [map_chg_perms] *)
  | OpAside (pid : Z)                         (* [tlbi_aside1], in [fork] and [execv_inner] *)
  | OpSwitch (pid pt : Z).                    (* [restore_ttbr0] *)

Section ops.
Context {im : Image} {F : Type} {fo : FrameOps F} {so : ShareOps F}.

(** The tree of the kernel is reached directly, that of a task through a window. *)
Definition on_tree {A} (r : Z) (k : Slice → VM F A) : VM F A :=
  if r =? im_pt then k (Phys im_pt) else with_table r k.

(** The state of the MMU: memory with the TLB, and [ttbr0]. *)
Definition on_vm (m : VM F unit) : M (VSt F * Z) unit := λ c,
  match m c.1 with Done (_, s) => Done (tt, (s, c.2)) | Fault e => Fault e end.

Definition mmu_run (o : mmu_op) : M (VSt F * Z) unit :=
  match o with
  | OpFill v => let! c := get in on_vm (fill c.2 v)
  | OpEvict n => on_vm (evict n)
  | OpMap r v p perms overw =>
      on_vm (let! _ := on_tree r (λ sl, map_v2p_4k_inner sl v p perms overw no_cb) in ret tt)
  | OpUnmap r v => on_vm (let! _ := on_tree r (λ sl, unmap_4k_inner sl v) in ret tt)
  | OpPerms r v perms => on_vm (let! _ := on_tree r (λ sl, v2p_pt sl v (Some (set_perms perms))) in ret tt)
  | OpAside pid => on_vm (tlbi_aside1 pid)
  | OpSwitch pid pt =>
      modify (λ c, (c.1, Z.lor (wshl 64 pid 48) pt)) ;;;
      on_vm (tlbi_aside1 pid) ;;;
      on_vm tlbi_vmalle1
  end.
End ops.

(** The pages, each with its tree, that were given other permissions with no
    [tlbi] for the page since. *)
Definition stale_after (D : list (Z * Z)) (o : mmu_op) : list (Z * Z) :=
  match o with
  | OpPerms r v _ => (r, tlb_page v) :: D
  | OpMap _ v _ _ true => List.filter (λ k, negb (k.2 =? tlb_page v)) D
  | OpSwitch _ _ => []
  | _ => D
  end.
Definition stale (ops : list mmu_op) : list (Z * Z) := fold_left stale_after ops [].

Section single.
Context {im : Image} {F : Type} {fo : FrameOps F} {so : ShareOps F} {fl : FrameLaws F}.
Implicit Types (s : VSt F) (W G : gmap Z Z) (T : gmap Z (Z * list Z)).

(** The tree of a page that is mapped at [v]. *)
Definition tree_for (r v : Z) : Prop := canonical v = true ∧ (upper v = true ↔ r = im_pt).

(** What became of the page of [v] in the tree of [r]: it is out of the TLB, or
    what was there has kept its frame, and all of it unless that is noted. *)
Definition page_kept s s' (D : list (Z * Z)) r v : Prop :=
  ∀ e, translate s r v = Some e → ∃ e', translate s' r v = Some e' ∧ Z.land e' PHY_MASK = Z.land e PHY_MASK ∧
    ((r, tlb_page v) ∉ D → e' = e).

(** Entries are only taken out, and every page that changed is out. *)
Lemma coherent_step T s s' W D D' ttbr0 r v :
  coherent s W D ttbr0 → all_tlb (λ t, t ∈ tlb s) s' → others_same T s s' r v → tree_for r v →
  T !! im_pt = Some (im_pt, []) → T !! Z.land ttbr0 PHY_MASK = Some (Z.land ttbr0 PHY_MASK, []) → Z.land ttbr0 PHY_MASK ≠ im_pt →
  gone v s' ∨ page_kept s s' D' r v → (∀ k, k ∉ D' → k ∉ D ∨ (k.2 = tlb_page v ∧ gone v s')) → coherent s' W D' ttbr0.
Proof.
  intros Hc Hsub Ho [Hv Hu] Hk Hr Hne Hg HD t v' Ht Hv' Hh. destruct (Hc t v' (Hsub t Ht) Hv' Hh) as [F1 F2].
  split; [|exact F2]. intros Hnw. destruct (F1 Hnw) as (e0 & E0 & M0 & X0). unfold hw_walk in *. set (r' := hw_root ttbr0 v') in *.
  assert (te_page t = tlb_page v') as Hpt by (unfold hits in Hh; by apply andb_true_iff in Hh as [Hh%Z.eqb_eq _]).
  assert ((r', tlb_page v') ∉ D' → e0 = te_ent t) as X.
  { intros Hn. destruct (HD _ Hn) as [Hn'|[Ep Hgn]]; [by apply X0|]. simpl in Ep. exfalso. apply (Hgn t Ht). congruence. }
  assert (T !! r' = Some (r', [])) as Hr' by (unfold r', hw_root; by destruct (upper v')).
  destruct (decide (r' = r ∧ vpn v' = vpn v)) as [[Er Ev]|Hd]; [|exists e0; by rewrite Ho].
  assert (tlb_page v = tlb_page v') as Hpg.
  { apply page_same; [done..|]. split; [|done]. unfold r', hw_root in Er. destruct (upper v') eqn:E', (upper v) eqn:E; [done| | |done].
    - by rewrite <- Er in Hu; destruct Hu as [_ Hu]; rewrite Hu.
    - destruct Hu as [Hu _]. destruct Hne. rewrite Er. by apply Hu. }
  destruct Hg as [Hg|Hg]; [exfalso; apply (Hg t Ht); congruence|].
  rewrite Er in E0, X |- *. rewrite (translate_vpn s r v' v Ev) in E0. destruct (Hg e0 E0) as (e1 & E1 & M1 & X1).
  exists e1. rewrite (translate_vpn s' r v' v Ev). split_and!; [done|congruence|].
  intros Hn. rewrite X1 by by rewrite Hpg. by apply X.
Qed.

(** Working in a tree: what happens to the windows is not seen. *)
Definition changes {A} s T W (m : VM F A) r v (n : nat) (P : A → option Z → option Z → Prop) : Prop :=
  ∃ a s' T' G', m s = Done (a, s') ∧ Inv s' T' W G' ∧ T ⊆ T' ∧ others_same T s s' r v ∧ room (frames s') n ∧
    P a (translate s r v) (translate s' r v).

Lemma on_tree_run {A} s T W G r v (k : Slice → VM F A) n P :
  Inv s T W G → T !! r = Some (r, []) → ¬ win_page r v → (base.size W + 4 ≤ 128)%nat →
  (∀ sl s1 W1, Inv s1 T W1 G → frames s1 = frames s → shows W1 sl r → (base.size W1 + 3 ≤ 128)%nat →
     changes s1 T W1 (k sl) r v n P) →
  changes s T W (on_tree r k) r v n P.
Proof.
  intros HI Hr Hnw Hsz Hk. unfold on_tree. destruct (Z.eqb_spec r im_pt) as [->|Hne].
  { apply Hk; [done|done|by left|lia]. }
  destruct (Inv_frame _ _ _ _ _ _ HI Hr) as [_ Hm].
  destruct (wrap_table_run s T W G r PR_PW (r, []) HI) as (i & s1 & E1 & Hi & HI1 & Q1); [by rewrite Hm|lia|apply PR_PW_ok|].
  rewrite Hm in HI1. destruct (Hk (Win (waddr i)) s1 (<[i := r]> W)) as (a & s2 & T2 & G2 & E2 & HI2 & HT & Ho & Rm & HP).
  { done. } { apply Q1. } { right. exists i. by rewrite lookup_insert_eq. } { rewrite map_size_insert_None by done. lia. }
  destruct (Inv_pop _ _ _ _ _ _ HI2 Hi) as (s3 & E3 & HI3 & Q3).
  assert (∀ r' v', T !! r' = Some (r', []) → ¬ win_page r' v' → translate s3 r' v' = translate s2 r' v') as Ht3.
  { intros r' v' Hr' Hn'. eapply translate_quiet; try done. by eapply lookup_weaken. }
  assert (∀ r' v', T !! r' = Some (r', []) → ¬ win_page r' v' → translate s1 r' v' = translate s r' v') as Ht1
    by (intros; by eapply translate_quiet).
  exists a, s3, T2, G2. split_and!; [|done|done| | |].
  - unfold with_table. mrun E1. simpl unwrap_r. mstep. mrun E2. by mrun E3.
  - intros r' v' Hr' Hn' Hd. rewrite Ht3, Ho, Ht1 by done. done.
  - by destruct Q3 as (_ & -> & _).
  - by rewrite Ht3, <- Ht1.
Qed.

Lemma map_changes s T W G r v p perms ow n :
  Inv s T W G → T !! r = Some (r, []) → ¬ win_page r v → (base.size W + 4 ≤ 128)%nat → room (frames s) (3 + n) →
  let x := Z.lor (Z.lor p perms) 0x403 in
  changes s T W (on_tree r (λ sl, map_v2p_4k_inner sl v p perms ow no_cb)) r v n (λ a t t',
    match t with
    | None => a = inr v ∧ t' = Some x
    | Some e => a = inl (EExists v) ∧ t' = Some (if ow then x else e)
    end).
Proof.
  intros HI Hr Hnw Hsz Hroom x. eapply on_tree_run; [done..|]. intros sl s1 W1 HI1 Ef Hsl Hsz1.
  destruct (map_inner_run s1 T W1 G sl r v p perms ow n HI1 Hsl Hr Hnw Hsz1) as (s2 & T2 & G2 & E & HI2 & HT & _ & _ & Rm & Ht & Ho & _);
    [by rewrite Ef|].
  eexists _, s2, T2, G2. split_and!; [exact E|done|done| |done|].
  - intros r' v' Hr' Hn' Hd. apply Ho; [done|done|]. by rewrite same_page_vpn.
  - rewrite Ht. by destruct (translate s1 r v).
Qed.

Lemma unmap_changes s T W G r v n :
  Inv s T W G → T !! r = Some (r, []) → ¬ win_page r v → (base.size W + 4 ≤ 128)%nat → room (frames s) n →
  changes s T W (on_tree r (λ sl, unmap_4k_inner sl v)) r v n (λ a t t', t' = None ∧ (t = None ∨ a = inr tt)).
Proof.
  intros HI Hr Hnw Hsz Hroom. eapply on_tree_run; [done..|]. intros sl s1 W1 HI1 Ef Hsl Hsz1.
  destruct (unmap_run s1 T W1 G sl r v HI1 Hsl Hr Hnw Hsz1) as (s2 & HI2 & Ho & Ht & Ef2 & _ & E).
  eexists _, s2, T, G. split_and!; [exact E|done|done|done|by rewrite Ef2, Ef|done|].
  unfold translate. destruct (walk s1 r v); [by right|by left].
Qed.

(** Other permissions for a leaf; where there was none, a page at frame 0. *)
Lemma perms_changes s T W G r v perms n :
  Inv s T W G → T !! r = Some (r, []) → ¬ win_page r v → (base.size W + 4 ≤ 128)%nat → room (frames s) n →
  changes s T W (on_tree r (λ sl, v2p_pt sl v (Some (set_perms perms)))) r v n (λ _ t t',
    match t with
    | None => t' = None ∨ t' = Some (Z.lor perms 0x403)
    | Some e => t' = Some (Z.lor (Z.lor (Z.land e PHY_MASK) perms) 0x403)
    end).
Proof.
  intros HI Hr Hnw Hsz Hroom. eapply on_tree_run; [done..|]. intros sl s1 W1 HI1 Ef Hsl Hsz1.
  pose proof (walk_to_l3_run s1 T W1 G sl r v HI1 Hsl Hr Hsz1) as Hw. pose proof (inv_forest _ _ _ _ HI1) as HF.
  destruct (walk s1 r v) as [t|] eqn:Ew.
  - destruct Hw as (i & s2 & E1 & Hi & HI2 & Q1). pose proof (inv_forest _ _ _ _ HI2) as HF2.
    pose proof (proj1 (walk_T _ _ _ _ _ HF Hr) Ew) as HT. assert (walk s2 r v = Some t) as Ew2 by (by apply (walk_T _ _ _ _ _ HF2 Hr)).
    assert (¬ win_entry t (vaddr_l3 v)) as Hne by (intros [-> _]; by eapply Hnw, win_walk).
    set (e := word s2 t (vaddr_l3 v)). set (x := Z.lor (Z.lor (Z.land e PHY_MASK) perms) 0x403).
    assert (Inv (set_word t (vaddr_l3 v) x s2) T (<[i := t]> W1) G) as HI3 by (by eapply Inv_leaf).
    destruct (Inv_pop _ _ _ _ _ _ HI3 Hi) as (s4 & E4 & HI4 & Q4).
    assert (∀ r' v', T !! r' = Some (r', []) → ¬ win_page r' v' →
      translate s4 r' v' = if decide (r' = r ∧ vpn v' = vpn v) then Some x else translate s1 r' v') as Htr.
    { intros r' v' Hr' Hnw'. rewrite (translate_quiet _ _ _ _ _ r' v' HI3 Q4 Hr' Hnw').
      rewrite (translate_leaf s2 T r t v _ x r' v' HF2 Hr Hr' Ew2 eq_refl).
      rewrite (translate_quiet _ _ _ _ _ r' v' HI1 Q1 Hr' Hnw').
      assert (x =? 0 = false) as -> by (apply Z.eqb_neq, lor403_ne0).
      destruct (decide (r' = r ∧ same_page v' v)) as [Hd|Hd]; rewrite same_page_vpn in Hd.
      - by rewrite decide_True. - by rewrite decide_False. }
    eexists _, s4, T, G. split_and!; [|done|done| | |].
    + unfold v2p_pt. mrun E1. cbv iota beta. unfold set_perms. rewrite bind_assoc.
      mrun (pt_get_run _ _ _ _ _ (inv_wins _ _ _ _ HI2) (shows_insert _ i t) (l3_range v)).
      mrun (pt_set_run _ _ _ _ _ x (inv_wins _ _ _ _ HI2) (shows_insert _ i t) (l3_range v)).
      mrun (pt_get_run _ _ _ _ _ (inv_wins _ _ _ _ HI3) (shows_insert _ i t) (l3_range v)). mrun E4. reflexivity.
    + intros r' v' Hr' Hnw' Hd. rewrite Htr by done. by rewrite decide_False.
    + destruct Q4 as (_ & -> & _), Q1 as (_ & E & _). simpl. by rewrite E, Ef.
    + rewrite Htr, decide_True by done. assert (translate s1 r v = if e =? 0 then None else Some e) as ->.
      { rewrite <- (translate_quiet _ _ _ _ _ r v HI1 Q1 Hr Hnw). unfold translate. by rewrite Ew2. }
      destruct (Z.eqb_spec e 0) as [E|E]; [|done]. right. unfold x. by rewrite E.
  - destruct Hw as (s2 & E1 & HI2 & Q1).
    assert (∀ r' v', T !! r' = Some (r', []) → ¬ win_page r' v' → translate s2 r' v' = translate s1 r' v') as Htr
      by (intros; by eapply translate_quiet).
    eexists _, s2, T, G. split_and!; [unfold v2p_pt; by mrun E1|done|done|by intros r' v' Hr' Hnw' _; apply Htr| |].
    + destruct Q1 as (_ & E & _). by rewrite E, Ef.
    + rewrite Htr by done. unfold translate. rewrite Ew. by left.
Qed.

(** Flushing inside a window. *)
Lemma on_tree_tlb {A} Q r (k : Slice → VM F A) : (∀ sl, pres (all_tlb Q) (k sl)) → pres (all_tlb Q) (on_tree r k).
Proof.
  intros Hk. unfold on_tree. destruct (r =? im_pt); [apply Hk|]. unfold with_table.
  apply pres_bind; [apply tlb_wrap_new|]. intros x. apply pres_bind; [apply tlb_unwrap_r|]. intros w.
  apply pres_bind; [apply Hk|]. intros a. apply pres_bind; [apply tlb_wrap_drop|]. intros _. apply pres_ret.
Qed.

Lemma on_tree_flushes {A} r v (k : Slice → VM F A) (C : A → Prop) :
  (∀ sl, hoare (λ _, True) (k sl) (λ a s, C a → gone v s)) → hoare (λ _, True) (on_tree r k) (λ a s, C a → gone v s).
Proof.
  intros Hk. unfold on_tree. destruct (r =? im_pt); [apply Hk|]. unfold with_table. do 2 (apply any_bind; intros ?).
  eapply hoare_bind; [apply Hk|]. intros b. apply hoare_then_ret. intros s u s' Hs E Hb.
  by eapply tlb_wrap_drop; [apply Hs|].
Qed.

(** ** The invariant *)

(** A leaf as the code writes it: a page (bits 0 and 1) that may be accessed
    (bit 10) and is not tied to one address space (bit 11 is clear). *)
Definition leaf_typed (e : Z) : Prop := Z.land e 0xc03 = 0x403.

(** The permissions of [vm.rs]. *)
Definition PERMS : list Z :=
  [PR_PW_PX_UX; PR_PW_UR_UW_UX1; PR_PX_UX; PR_PX_UR_UX; PR_PW_UX; PR_PW_UR_UW_UX2; PR_UX; PR_UR_UX;
   PR_PW_PX; PR_PW_UR_UW1; PR_PX; PR_PX_UR; PR_PW; PR_PW_UR_UW2; PR; PR_UR].

Definition op_ok T (o : mmu_op) : Prop :=
  match o with
  | OpFill _ | OpEvict _ => True
  | OpMap r v p perms _ => T !! r = Some (r, []) ∧ tree_for r v ∧ ¬ win_page r v ∧ Z.land p 0xfff = 0 ∧ perms ∈ PERMS
  | OpUnmap r v => T !! r = Some (r, []) ∧ tree_for r v ∧ ¬ win_page r v
  | OpPerms r v perms => T !! r = Some (r, []) ∧ tree_for r v ∧ ¬ win_page r v ∧ perms ∈ PERMS
  | OpAside _ => True
  | OpSwitch _ pt => T !! pt = Some (pt, []) ∧ pt ≠ im_pt
  end.

Record Mmu_ok T0 (c : VSt F * Z) T W G D : Prop := {
  mo_inv : Inv c.1 T W G;
  mo_trees : T0 ⊆ T;
  mo_kernel : T0 !! im_pt = Some (im_pt, []);
  mo_root : T0 !! Z.land c.2 PHY_MASK = Some (Z.land c.2 PHY_MASK, []) ∧ Z.land c.2 PHY_MASK ≠ im_pt;
  mo_coherent : coherent c.1 W D c.2;
  mo_leaf r v e : T0 !! r = Some (r, []) → ¬ win_page r v → translate c.1 r v = Some e → leaf_typed e;
  mo_tlb t v : t ∈ tlb c.1 → canonical v = true → te_page t = tlb_page v → ¬ win_page (hw_root c.2 v) v →
    leaf_typed (te_ent t) ∧ te_global t = true;
}.

Lemma leaf_not_ng e : leaf_typed e → Z.testbit e 11 = false.
Proof.
  intros H. assert (Z.testbit (Z.land e 0xc03) 11 = Z.testbit 0x403 11) as E by (by rewrite H).
  rewrite Z.land_spec in E. by rewrite andb_true_r in E.
Qed.

(** A page with permissions of [vm.rs]. *)
Lemma lor_typed p perms : Z.land p 0xfff = 0 → perms ∈ PERMS → leaf_typed (Z.lor (Z.lor p perms) 0x403).
Proof.
  intros Hp Hin. unfold leaf_typed. rewrite !Z.land_lor_distr_l.
  assert (Z.land p 0xc03 = 0) as -> by (change 0xc03 with (Z.land 0xfff 0xc03); by rewrite Z.land_assoc, Hp).
  assert (Forall (λ q, Z.land q 0xc03 = 0) PERMS) as HF by (repeat constructor).
  rewrite Forall_forall in HF. by rewrite (HF perms Hin).
Qed.

Lemma masked_aligned e : Z.land (Z.land e PHY_MASK) 0xfff = 0.
Proof. rewrite <- Z.land_assoc. apply Z.land_0_r. Qed.

Lemma perms_frame p perms : perms ∈ PERMS → Z.land (Z.lor (Z.lor (Z.land p PHY_MASK) perms) 0x403) PHY_MASK = Z.land p PHY_MASK.
Proof.
  intros Hin. rewrite !Z.land_lor_distr_l, <- Z.land_assoc, Z.land_diag.
  assert (Forall (λ q, Z.land q PHY_MASK = 0) PERMS) as HF by (repeat constructor).
  rewrite Forall_forall in HF. rewrite (HF perms Hin). by rewrite !Z.lor_0_r.
Qed.

Lemma room_le f n m : (n ≤ m)%nat → room f m → room f n.
Proof. induction 1 as [|k _ IH]; [done|]. intros Hr. by apply IH, room_less. Qed.

(** The processor takes the leaf entry of a held window from [FIXED_L3]. *)
Lemma win_walked s T W G i p v :
  Inv s T W G → T !! im_pt = Some (im_pt, []) → W !! i = Some p → vpn v = vpn (waddr i) →
  ∀ e, translate s im_pt v = Some e → Z.land e PHY_MASK = p.
Proof.
  intros HI Hk Hi Hv e. rewrite (translate_vpn _ _ _ _ Hv). destruct (w_dom _ _ (inv_wins _ _ _ _ HI) _ _ Hi) as [Hr <-].
  assert (walk s im_pt (waddr i) = Some im_l3) as Hw.
  { apply (walk_T _ _ _ _ _ (inv_forest _ _ _ _ HI) Hk). rewrite (fo_win _ _ (inv_forest _ _ _ _ HI)).
    do 2 f_equal. unfold vpath. unfold vaddr_l0, vaddr_l1, vaddr_l2, waddr. rewrite !idx_div by lia. repeat f_equal; zdiv. }
  unfold translate. rewrite Hw. simpl. rewrite l3_waddr by done. destruct (_ =? 0); [done|]. by intros [= ->].
Qed.

Lemma waddr_upper i : 0 ≤ i < 128 → canonical (waddr i) = true ∧ upper (waddr i) = true.
Proof.
  intros Hi. assert (canonical (waddr i) = true) as Hc by (unfold canonical, waddr; lia). split; [done|].
  apply canonical_upper in Hc. unfold waddr in *. by destruct (upper _); [|lia].
Qed.

Lemma changed_ok T0 s ttbr0 T W G D s' T' G' D' r v :
  Mmu_ok T0 (s, ttbr0) T W G D → Inv s' T' W G' → T ⊆ T' → others_same T s s' r v → all_tlb (λ t, t ∈ tlb s) s' →
  tree_for r v → gone v s' ∨ page_kept s s' D' r v → (∀ k, k ∉ D' → k ∉ D ∨ (k.2 = tlb_page v ∧ gone v s')) →
  (∀ e, translate s' r v = Some e → leaf_typed e) → Mmu_ok T0 (s', ttbr0) T' W G' D'.
Proof.
  intros [M1 M2 M3 [M4 M5] M6 M7 M8] HI HT Ho Hsub Htf Hg HD Hty. simpl in *.
  split; simpl; [done|by etrans|done|done| | |].
  - eapply (coherent_step T _ _ _ D); [done..|by eapply lookup_weaken|by eapply lookup_weaken|done|done|done].
  - intros r' v' e Hr' Hn Ht. destruct (decide (r' = r ∧ vpn v' = vpn v)) as [[-> Ev]|Hd].
    + apply Hty. by rewrite <- (translate_vpn _ _ _ _ Ev).
    + rewrite Ho in Ht; [by eapply M7|by eapply lookup_weaken|done|done].
  - intros t v' Ht. apply M8. by apply Hsub.
Qed.

(** The entry was written. *)
Definition wrote (ow : bool) (a : Error + Z) : Prop :=
  match a with inr _ => True | inl (EExists _) => ow = true | _ => False end.

Lemma map_ok T0 s ttbr0 T W G D r v p perms ow n :
  Mmu_ok T0 (s, ttbr0) T W G D → op_ok T0 (OpMap r v p perms ow) → (base.size W + 4 ≤ 128)%nat → room (frames s) (3 + n) →
  ∃ c T' G', mmu_run (OpMap r v p perms ow) (s, ttbr0) = Done (tt, c) ∧
    Mmu_ok T0 c T' W G' (stale_after D (OpMap r v p perms ow)) ∧ room (frames c.1) n.
Proof.
  intros HM (Hr & Htf & Hnw & Hp & Hb) Hsz Hroom. pose proof (lookup_weaken _ _ _ _ Hr (mo_trees _ _ _ _ _ _ HM)) as HrT.
  destruct (map_changes s T W G r v p perms ow n (mo_inv _ _ _ _ _ _ HM) HrT Hnw Hsz Hroom)
    as (a & s' & T' & G' & E & HI & HT & Ho & Rm & HP).
  assert (all_tlb (λ t, t ∈ tlb s) s') as Hsub by (eapply on_tree_tlb; [intros; apply tlb_map| |exact E]; by intros t).
  assert (wrote ow a → gone v s') as Hfl.
  { eapply (on_tree_flushes r v _ (wrote ow)); [|done|exact E]. intros sl. eapply hoare_post; [apply map_flushes|].
    intros [[]|] s0; simpl; by auto. }
  assert (translate s r v = None ∨ ow = true → gone v s') as Hgo.
  { intros Hc. apply Hfl. destruct (translate s r v); destruct HP as [-> _]; [|done]. by destruct Hc. }
  exists (s', ttbr0), T', G'. split_and!; [unfold mmu_run, on_vm, bind; simpl; by rewrite E| |done].
  eapply changed_ok; [done..| | |].
  - destruct (translate s r v) as [e|] eqn:Et; [|left; auto]. destruct ow; [left; auto|right]. destruct HP as [_ HP].
    intros e' He. rewrite Et in He. injection He as <-. by exists e.
  - intros k. simpl. destruct ow; [|by left]. intros Hk. destruct (decide (k.2 = tlb_page v)) as [Ek|Ek]; [right; auto|left].
    intros Hin. apply Hk. apply list_elem_of_In, filter_In. split; [by apply list_elem_of_In|]. by apply negb_true_iff, Z.eqb_neq.
  - intros e' He. destruct (translate s r v) as [e|] eqn:Et; destruct HP as [_ Ht']; rewrite Ht' in He; injection He as <-.
    + destruct ow; [by apply lor_typed|]. by eapply (mo_leaf _ _ _ _ _ _ HM).
    + by apply lor_typed.
Qed.

Lemma unmap_ok T0 s ttbr0 T W G D r v n :
  Mmu_ok T0 (s, ttbr0) T W G D → op_ok T0 (OpUnmap r v) → (base.size W + 4 ≤ 128)%nat → room (frames s) n →
  ∃ c T' G', mmu_run (OpUnmap r v) (s, ttbr0) = Done (tt, c) ∧ Mmu_ok T0 c T' W G' D ∧ room (frames c.1) n.
Proof.
  intros HM (Hr & Htf & Hnw) Hsz Hroom. pose proof (lookup_weaken _ _ _ _ Hr (mo_trees _ _ _ _ _ _ HM)) as HrT.
  destruct (unmap_changes s T W G r v n (mo_inv _ _ _ _ _ _ HM) HrT Hnw Hsz Hroom)
    as (a & s' & T' & G' & E & HI & HT & Ho & Rm & Ht' & Ha).
  assert (all_tlb (λ t, t ∈ tlb s) s') as Hsub by (eapply on_tree_tlb; [intros; apply tlb_unmap| |exact E]; by intros t).
  assert (a = inr tt → gone v s') as Hfl.
  { eapply (on_tree_flushes r v _ (λ x, x = inr tt)); [|done|exact E]. intros sl. eapply hoare_post; [apply unmap_flushes|].
    by intros [] s0; simpl. }
  exists (s', ttbr0), T', G'. split_and!; [unfold mmu_run, on_vm, bind; simpl; by rewrite E| |done].
  eapply changed_ok; [done..| |by left|by rewrite Ht'].
  destruct Ha as [Ha|Ha]; [right; intros e; by rewrite Ha|left; by apply Hfl].
Qed.

(** Rewriting the permissions takes nothing out of the TLB. *)
Lemma perms_op_ok T0 s ttbr0 T W G D r v perms n :
  Mmu_ok T0 (s, ttbr0) T W G D → op_ok T0 (OpPerms r v perms) → (base.size W + 4 ≤ 128)%nat → room (frames s) n →
  ∃ c T' G', mmu_run (OpPerms r v perms) (s, ttbr0) = Done (tt, c) ∧ Mmu_ok T0 c T' W G' ((r, tlb_page v) :: D) ∧ room (frames c.1) n.
Proof.
  intros HM (Hr & Htf & Hnw & Hb) Hsz Hroom. pose proof (lookup_weaken _ _ _ _ Hr (mo_trees _ _ _ _ _ _ HM)) as HrT.
  destruct (perms_changes s T W G r v perms n (mo_inv _ _ _ _ _ _ HM) HrT Hnw Hsz Hroom)
    as (a & s' & T' & G' & E & HI & HT & Ho & Rm & HP).
  assert (all_tlb (λ t, t ∈ tlb s) s') as Hsub by (eapply on_tree_tlb; [intros; apply tlb_v2p_perms| |exact E]; by intros t).
  exists (s', ttbr0), T', G'. split_and!; [unfold mmu_run, on_vm, bind; simpl; by rewrite E| |done].
  eapply changed_ok; [done..| | |].
  - right. intros e He. rewrite He in HP. eexists. split; [exact HP|]. split; [by apply perms_frame|].
    intros Hn. destruct Hn. by left.
  - intros k Hk. left. intros Hin. apply Hk. by right.
  - intros e' He. destruct (translate s r v) as [e|] eqn:Et.
    + rewrite HP in He. injection He as <-. apply lor_typed; [apply masked_aligned|done].
    + destruct HP as [HP|HP]; rewrite HP in He; [done|]. injection He as <-. by apply (lor_typed 0).
Qed.

Lemma fill_ok T0 s ttbr0 T W G D v :
  Mmu_ok T0 (s, ttbr0) T W G D →
  ∃ s', mmu_run (OpFill v) (s, ttbr0) = Done (tt, (s', ttbr0)) ∧ Mmu_ok T0 (s', ttbr0) T W G D ∧ frames s' = frames s.
Proof.
  intros HM. unfold mmu_run, on_vm, bind, get, fill. simpl. destruct (canonical v) eqn:Hv; [|by exists s]. simpl.
  destruct (hw_walk s ttbr0 v) as [e|] eqn:Hw; [|by exists s]. eexists. split; [done|]. split; [|done].
  destruct HM as [M1 M2 M3 [M4 M5] M6 M7 M8]. simpl in *.
  assert (∀ v', canonical v' = true → tlb_page v = tlb_page v' → hw_root ttbr0 v' = hw_root ttbr0 v ∧ vpn v' = vpn v) as Hpg.
  { intros v' Hv' E. apply page_same in E as [Eu Ev]; [|done..]. unfold hw_root. by rewrite Eu. }
  split; simpl; [by apply Inv_tlb|done|done|done| |done|].
  - intros t v' [->|Ht]%elem_of_cons Hv' Hh; [|destruct (M6 t v' Ht Hv' Hh); by split].
    apply andb_true_iff in Hh as [Hh%Z.eqb_eq _]. simpl in Hh. destruct (Hpg v' Hv' Hh) as [Er Ev].
    split; simpl.
    + intros _. exists e. split; [|done]. change (hw_walk (set_tlb _ s) ttbr0 v') with (hw_walk s ttbr0 v'). unfold hw_walk.
      by rewrite Er, (translate_vpn _ _ _ _ Ev).
    + intros i p Hi Ei. destruct (w_dom _ _ (inv_wins _ _ _ _ M1) _ _ Hi) as [Hri _]. destruct (waddr_upper i Hri) as [Hci Hui].
      rewrite Ei in Hh. apply page_same in Hh as [Hu Hvp]; [|done..].
      unfold hw_walk, hw_root in Hw. rewrite Hu, Hui in Hw.
      eapply win_walked; [exact M1|by eapply lookup_weaken|exact Hi|exact Hvp|exact Hw].
  - intros t v' [->|Ht]%elem_of_cons Hv' Hp Hnw; [|by apply (M8 t v')]. simpl in *. destruct (Hpg v' Hv' Hp) as [Er Ev].
    assert (leaf_typed e) as He.
    { eapply M7; [|exact Hnw|]; [unfold hw_root; by destruct (upper v')|]. rewrite Er, (translate_vpn _ _ _ _ Ev). exact Hw. }
    split; [done|]. exact (f_equal negb (leaf_not_ng e He)).
Qed.

Lemma elem_of_list_delete {A} (l : list A) n x : x ∈ base.delete n l → x ∈ l.
Proof.
  revert n. induction l as [|y l IH]; intros [|n]; simpl; [done|done|by right|].
  intros [->|Hx]%elem_of_cons; [by left|right; by eapply IH].
Qed.

(** Taking entries out is always safe. *)
Lemma fewer_ok T0 s ttbr0 T W G D l :
  Mmu_ok T0 (s, ttbr0) T W G D → (∀ t, t ∈ l → t ∈ tlb s) → Mmu_ok T0 (set_tlb l s, ttbr0) T W G D.
Proof.
  intros [M1 M2 M3 M4 M6 M7 M8] Hd.
  split; simpl; [by apply Inv_tlb|done|done|done| |done|].
  - intros t v Ht Hv Hh. destruct (M6 t v (Hd t Ht) Hv Hh). by split.
  - intros t v Ht. apply (M8 t v). by apply Hd.
Qed.

Lemma switch_ok T0 s ttbr0 T W G D pid pt :
  Mmu_ok T0 (s, ttbr0) T W G D → op_ok T0 (OpSwitch pid pt) →
  mmu_run (OpSwitch pid pt) (s, ttbr0) = Done (tt, (set_tlb [] s, Z.lor (wshl 64 pid 48) pt)) ∧
  Mmu_ok T0 (set_tlb [] s, Z.lor (wshl 64 pid 48) pt) T W G [].
Proof.
  intros [M1 M2 M3 M4 M6 M7 M8] [Hp Hne]. split; [done|].
  destruct (Inv_frame _ _ _ _ _ _ M1 (lookup_weaken _ _ _ _ Hp M2)) as [_ Hm].
  split; simpl; [by apply Inv_tlb|done|done| | |done|].
  - by rewrite Z.land_lor_distr_l, asid_masked, Z.lor_0_l, Hm.
  - intros t v Ht. by apply elem_of_nil in Ht.
  - intros t v Ht. by apply elem_of_nil in Ht.
Qed.

Lemma mmu_step_ok T0 c T W G D o n :
  Mmu_ok T0 c T W G D → op_ok T0 o → (base.size W + 4 ≤ 128)%nat → room (frames c.1) (3 + n) →
  ∃ c' T' G', mmu_run o c = Done (tt, c') ∧ Mmu_ok T0 c' T' W G' (stale_after D o) ∧ room (frames c'.1) n.
Proof.
  intros HM Ho Hsz Hroom. destruct c as [s ttbr0]. assert (room (frames s) n) as Hn by (apply (room_le _ n (3 + n)); [lia|done]).
  destruct o as [v|k|r v p perms ow|r v|r v perms|pid|pid pt].
  - destruct (fill_ok _ _ _ _ _ _ _ v HM) as (s' & E & HM' & Ef). exists (s', ttbr0), T, G. split_and!; [done|done|by simpl; rewrite Ef].
  - eexists _, T, G. split_and!; [done|apply fewer_ok; [done|]; intros t; apply elem_of_list_delete|done].
  - by eapply map_ok.
  - by eapply unmap_ok.
  - by eapply perms_op_ok.
  - eexists _, T, G. split_and!; [done|apply fewer_ok; [done|]; intros t Ht; by apply in_filter in Ht as [Ht _]|done].
  - destruct (switch_ok _ _ _ _ _ _ _ _ _ HM Ho) as [E HM']. eexists _, T, G. split_and!; [exact E|exact HM'|done].
Qed.

Lemma mmu_ops_ok T0 W ops : ∀ c T G D n,
  Mmu_ok T0 c T W G D → Forall (op_ok T0) ops → (base.size W + 4 ≤ 128)%nat → room (frames c.1) (3 * length ops + n) →
  ∃ c' T' G', forM ops mmu_run c = Done (tt, c') ∧ Mmu_ok T0 c' T' W G' (fold_left stale_after ops D) ∧ room (frames c'.1) n.
Proof.
  induction ops as [|o ops IH]; intros c T G D n HM Hops Hsz Hroom; [by exists c, T, G|].
  apply Forall_cons in Hops as [Ho Hops]. destruct (mmu_step_ok T0 c T W G D o (3 * length ops + n) HM Ho Hsz) as (c1 & T1 & G1 & E1 & HM1 & Rm1).
  { eapply room_le; [|exact Hroom]. simpl. lia. }
  destruct (IH c1 T1 G1 _ n HM1 Hops Hsz Rm1) as (c2 & T2 & G2 & E2 & HM2 & Rm2).
  exists c2, T2, G2. split_and!; [|done|done]. cbn [forM]. by mrun E1.
Qed.

(** C10: No stale translation.  Whatever is mapped, unmapped or replaced in the
    tree of the kernel and in those of the tasks, whichever pages are given
    other permissions, whatever the hardware takes into the TLB or forgets
    between, and however often the address space is switched: every operation
    returns, and then every entry of the TLB that the processor may use for an
    address outside of the windows has the frame that the tables have now, and is
    what the tables say, permissions and all, unless the permissions of that very
    page were rewritten ([map_chg_perms] does not flush) and neither has the page
    been replaced since nor the address space switched.  An entry for a window
    that is held leads to the frame of that window. *)
Theorem tlb_coherent T0 c T W G ops :
  Mmu_ok T0 c T W G [] → Forall (op_ok T0) ops → (base.size W + 4 ≤ 128)%nat → room (frames c.1) (3 * length ops) →
  ∃ c', forM ops mmu_run c = Done (tt, c') ∧
    ∀ t v, t ∈ tlb c'.1 → canonical v = true → hits (asid_of c'.2) v t = true →
      (¬ win_page (hw_root c'.2 v) v →
        ∃ e, hw_walk c'.1 c'.2 v = Some e ∧ Z.land e PHY_MASK = Z.land (te_ent t) PHY_MASK ∧
          ((hw_root c'.2 v, tlb_page v) ∉ stale ops → e = te_ent t)) ∧
      ∀ i p, W !! i = Some p → tlb_page v = tlb_page (waddr i) → Z.land (te_ent t) PHY_MASK = p.
Proof.
  intros HM Hops Hsz Hroom. destruct (mmu_ops_ok T0 W ops c T G [] 0 HM Hops Hsz) as (c' & T' & G' & E & HM' & _);
    [by rewrite Nat.add_0_r|].
  exists c'. split; [done|]. intros t v Ht Hv Hh. by destruct (mo_coherent _ _ _ _ _ _ HM' t v Ht Hv Hh).
Qed.

(** After the same operations every page mapped in any tree has an entry of the
    form that [map_v2p_4k_inner] writes: a valid page, accessible, and global.
    The identifiers of address spaces are therefore without effect:
    [tlbi_aside1] takes no entry outside of the windows out. *)
Theorem leaves_global T0 c T W G ops :
  Mmu_ok T0 c T W G [] → Forall (op_ok T0) ops → (base.size W + 4 ≤ 128)%nat → room (frames c.1) (3 * length ops) →
  ∃ c', forM ops mmu_run c = Done (tt, c') ∧
    (∀ r v e, T0 !! r = Some (r, []) → ¬ win_page r v → translate c'.1 r v = Some e → leaf_typed e) ∧
    ∀ t v asid, t ∈ tlb c'.1 → canonical v = true → te_page t = tlb_page v → ¬ win_page (hw_root c'.2 v) v →
      ∃ s', tlbi_aside1 asid c'.1 = Done (tt, s') ∧ t ∈ tlb s'.
Proof.
  intros HM Hops Hsz Hroom. destruct (mmu_ops_ok T0 W ops c T G [] 0 HM Hops Hsz) as (c' & T' & G' & E & HM' & _);
    [by rewrite Nat.add_0_r|].
  exists c'. split; [done|]. split; [apply HM'|]. intros t v asid Ht Hv Hp Hnw.
  destruct (mo_tlb _ _ _ _ _ _ HM' t v Ht Hv Hp Hnw) as [_ Hgl].
  eexists. split; [done|]. simpl. apply in_filter. by rewrite Hgl.
Qed.
End single.

(** ** Copy on write *)
Section cow.
Context {im : Image} {F : Type} {fo : FrameOps F} {so : ShareOps F} {fl : FrameLaws F} {shl : ShareLaws F}.
Implicit Types (s : VSt F) (W : gmap Z Z) (T : gmap Z (Z * list Z)) (B : gmap Z blk) (R : gmap (Z * Z) Z).

(** The half of the addresses that belongs to the task. *)
Definition user_coherent s (ttbr0 : Z) : Prop :=
  ∀ t v, t ∈ tlb s → 0 ≤ v < 2 ^ 48 → hits (asid_of ttbr0) v t = true → hw_walk s ttbr0 v = Some (te_ent t).

Lemma user_addr v : 0 ≤ v < 2 ^ 48 → canonical v = true ∧ upper v = false ∧ vpn v = v / 4096.
Proof.
  intros Hv. assert (canonical v = true) as Hc by (unfold canonical; lia). split_and!; [done| |].
  - apply canonical_upper in Hc. by destruct (upper v); [lia|].
  - unfold vpn. apply Z.mod_small. zdiv.
Qed.

Lemma coherent_user s W ttbr0 : Z.land ttbr0 PHY_MASK ≠ im_pt → coherent s W [] ttbr0 → user_coherent s ttbr0.
Proof.
  intros Hne Hc t v Ht Hv Hh. destruct (user_addr v Hv) as (Hcv & Hu & _). destruct (Hc t v Ht Hcv Hh) as [H1 _].
  destruct H1 as (e & E & _ & X); [unfold hw_root; rewrite Hu; by intros [? _]|]. rewrite E. f_equal. apply X, not_elem_of_nil.
Qed.

(** Pages that changed are out of the TLB. *)
Lemma user_coherent_step s T W B R s' T' W' B' R' r ttbr0 :
  UInv s T W B R → UInv s' T' W' B' R' → uroot T r → T ⊆ T' → Z.land ttbr0 PHY_MASK = r → user_coherent s ttbr0 →
  all_tlb (λ t, t ∈ tlb s) s' →
  (∀ v, 0 ≤ v < 2 ^ 48 → gone v s' ∨ R' !! (r, vpn v) = R !! (r, vpn v)) → user_coherent s' ttbr0.
Proof.
  intros HU HU' Hr HT Hrt Hc Hsub Hch t v Ht Hv Hh. pose proof (Hc t v (Hsub t Ht) Hv Hh) as Hw.
  destruct (user_addr v Hv) as (_ & Hu & _). unfold hw_walk, hw_root in *. rewrite Hu, Hrt in *.
  rewrite (ui_map _ _ _ _ _ HU r v Hr) in Hw. rewrite (ui_map _ _ _ _ _ HU' r v (uroot_mono _ _ _ HT Hr)).
  destruct (Hch v Hv) as [Hg|Hg]; [|by rewrite Hg].
  exfalso. apply (Hg t Ht). by apply andb_true_iff in Hh as [Hh%Z.eqb_eq _].
Qed.

(** [fork] flushes every page it shares, since the child gets its mapping after
    the parent has lost the right to write. *)
Definition pages_gone (g : URegion) s : Prop := ∀ i, 0 ≤ i < npages g → gone (u_vaddr g +! i *! 4096) s.

Lemma clone_gone g from to : shareable g → hoare (λ _, True) (clone_region g from to) (λ _, pages_gone g).
Proof.
  intros [(Hg & _ & _ & Hl & Hn & _) _]. apply clone_flushes; [done| |unfold npages; zdiv].
  unfold npages in *. rewrite Hl at 2. zdiv.
Qed.

Lemma pages_gone_pres {A} g (m : VM F A) : (∀ Q, pres (all_tlb Q) m) → pres (pages_gone g) m.
Proof. intros Hm s a s' Hs E i Hi. eapply Hm; [by apply Hs|exact E]. Qed.

Lemma fork_flushes pid m1 m2 :
  Forall shareable (program m1 ++ [brk_r m1; mmap_r m1]) →
  hoare (λ _, True) (fork_mm pid m1 m2) (λ _ s, ∀ g, g ∈ program m1 ++ [brk_r m1; mmap_r m1] → pages_gone g s).
Proof.
  intros [Hp [Hb Hm]%Forall_cons]%Forall_app. apply Forall_cons in Hm as [Hm _]. rewrite Forall_forall in Hp.
  set (prog_gone := λ s : VSt F, ∀ g, g ∈ program m1 → pages_gone g s).
  assert (∀ {A} (m : VM F A), (∀ Q, pres (all_tlb Q) m) → pres prog_gone m) as Hpres.
  { intros A m Hq s a s' Hs E g Hg. eapply pages_gone_pres; [exact Hq|by apply Hs|exact E]. }
  unfold fork_mm. do 6 (apply any_bind; intros ?). apply (hoare_bind _ _ _ (λ _, prog_gone)).
  { unfold clone_regions. apply hoare_then_ret. apply forM_each.
    - intros x y. apply pages_gone_pres. intros Q. apply tlb_clone.
    - intros g Hg. apply clone_gone. by apply Hp. }
  intros prog. apply (hoare_bind _ _ _ (λ _ s, prog_gone s ∧ pages_gone (brk_r m1) s)).
  { intros s u s' Hs E. split; [by eapply Hpres; [intros; apply tlb_clone| |]|by eapply clone_gone]. }
  intros _. apply (hoare_bind _ _ _ (λ _ s, (prog_gone s ∧ pages_gone (brk_r m1) s) ∧ pages_gone (mmap_r m1) s)).
  { intros s u s' [Hs Hs2] E. split_and!; [by eapply Hpres; [intros; apply tlb_clone| |]| |by eapply clone_gone].
    eapply pages_gone_pres; [intros; apply tlb_clone|exact Hs2|exact E]. }
  intros _. apply (hoare_post _ _ _ (λ _ s, (prog_gone s ∧ pages_gone (brk_r m1) s) ∧ pages_gone (mmap_r m1) s)).
  - intros s mm s' [[H1 H2] H3] E. match type of E with ?m s = _ => assert (∀ Q, pres (all_tlb Q) m) as Hq end.
    { intros Q. repeat (apply pres_bind; [first [apply pres_unwrap|apply tlb_copy|apply tlb_unwrap_r|apply tlb_filter|apply tlb_wrap_drop]|intros ?]).
      apply pres_ret. }
    split_and!; [by eapply (Hpres _ _ Hq)|by eapply (pages_gone_pres _ _ Hq)|by eapply (pages_gone_pres _ _ Hq)].
  - intros mm s [[H1 H2] H3] g [Hg|[->|[->|Hg%elem_of_nil]%elem_of_cons]%elem_of_cons]%elem_of_app; [by apply H1|done..].
Qed.

(** C26: [fork] leaves no right to write behind.  If nothing in the TLB was
    stale for the parent, nothing is after [fork] has cloned the address space:
    the entries that let the parent write the pages that are now shared are out
    of the TLB, so that a store of the parent faults and is not seen by the
    child. *)
Theorem fork_tlb s T W B R pid (m1 m2 : Mm) rs (r1 r2 sp1 sp2 vs ttbr0 : Z) :
  UInv s T W B R → Safe B R → forkable s T W B R m1 m2 rs r1 r2 sp1 sp2 vs →
  Z.land ttbr0 PHY_MASK = r1 → user_coherent s ttbr0 →
  ∃ m s', fork_mm pid m1 m2 s = Done (m, s') ∧ user_coherent s' ttbr0 ∧
    ∀ t v, t ∈ tlb s' → 0 ≤ v < 2 ^ 48 → in_regions rs (vpn v) = true → te_page t ≠ tlb_page v.
Proof.
  intros HU HS HF Hrt Hc. destruct (fork_run _ _ _ _ _ pid _ _ _ _ _ _ _ _ 0 HU HS HF)
    as (s' & T' & B' & R' & E & HU' & _ & HT & _ & HG & _); [rewrite Nat.add_0_r; apply HF|].
  eexists _, s'. split; [exact E|]. destruct HF as [Ers _ (Hr1 & _ & _) _ _ _ _ _ Hsh _ _].
  assert (∀ v, 0 ≤ v < 2 ^ 48 → in_regions rs (vpn v) = true → gone v s') as Hgone.
  { intros v Hv Hin. unfold in_regions in Hin. apply existsb_exists in Hin as (g & Hg%list_elem_of_In & Hin).
    assert (pages_gone g s') as Hpg.
    { rewrite Ers in Hg, Hsh. eapply fork_flushes; [exact Hsh|done|exact E|done]. }
    rewrite Forall_forall in Hsh. destruct (Hsh g Hg) as [(_ & Hg0 & Hga & Hgl & Hgn & Hgm) _].
    apply andb_true_iff in Hin as [H1%Z.leb_le H2%Z.ltb_lt]. destruct (user_addr v Hv) as (Hcv & Huv & Ev).
    destruct (user_addr (u_vaddr g)) as (_ & _ & Eg); [unfold npages in *; lia|]. rewrite Ev, Eg in H1, H2.
    specialize (Hpg (v / 4096 - u_vaddr g / 4096) ltac:(lia)). set (i := v / 4096 - u_vaddr g / 4096) in *.
    assert (u_vaddr g +! i *! 4096 = u_vaddr g + 4096 * i) as Ea by (rewrite wmul_small, wadd_small; lia).
    rewrite Ea in Hpg. destruct (user_addr (u_vaddr g + 4096 * i)) as (Hc2 & Hu2 & Ev2); [lia|].
    assert (tlb_page v = tlb_page (u_vaddr g + 4096 * i)) as Ep.
    { apply page_same; [done..|]. split; [congruence|]. rewrite Ev, Ev2. unfold i. zdiv. }
    unfold gone. rewrite Ep. exact Hpg. }
  split.
  - eapply (user_coherent_step s T W B R s' T' W B' R' r1); try done.
    + eapply tlb_fork; [|exact E]. by intros t.
    + intros v Hv. destruct (in_regions rs (vpn v)) eqn:Ein; [left; by apply Hgone|right]. by eapply given_pages.
  - intros t v Ht Hv Hin. by apply (Hgone v Hv Hin).
Qed.

(** A fault flushes the page it has replaced. *)
Lemma cow_flushes sl g v sl' i :
  granule g = 0 → 0 ≤ v < 2 ^ 64 → hoare (λ _, True) (cow_page sl g v sl' i) (λ good s, good = true → gone v s).
Proof.
  intros Hg Hv. unfold cow_page. assert (blksize g / 4096 = 1) as Hn by (unfold blksize; by rewrite Hg).
  assert (∀ p perms, hoare (λ _, True) (let! r := map_ovwr sl v p 1 perms in let! _ := unwrap_r r in ret true)
    (λ good s, good = true → gone v s)) as Hmap.
  { intros p perms. eapply hoare_bind; [by apply ovwr_flushes|]. intros [e|w]; [by intros s a s' _|].
    simpl. intros s a s' Hs [= <- <-] _. exact Hs. }
  cbv zeta. rewrite Hn. apply any_bind. intros e. apply any_bind. intros [[]|]; [apply Hmap| |by apply hoare_ret].
  do 4 (apply any_bind; intros ?). apply Hmap.
Qed.

Lemma dabt_flushes m region far :
  find_region m far = Some region → granule region = 0 → 0 ≤ far < 2 ^ 64 →
  hoare (λ _, True) (dabt_handler m far) (λ _, gone (align_b far 4096)).
Proof.
  intros Hreg Hg Hfar. unfold dabt_handler. rewrite Hreg. destruct (0 <? _); [|by intros s a s' _].
  assert (blksize region = 4096) as -> by (unfold blksize; by rewrite Hg).
  assert (0 ≤ align_b far 4096 < 2 ^ 64) as Hb by (rewrite align_b_page by done; zdiv).
  cbv zeta. apply any_bind. intros pt. set (v := align_b far 4096) in *.
  apply (hoare_bind _ _ _ (λ good s, good = true → gone v s)).
  - unfold with_table. do 2 (apply any_bind; intros ?). apply (hoare_bind _ _ _ (λ good s, good = true → gone v s)).
    + unfold v2p_cb. apply (hoare_bind _ _ _ (λ r s, match r with inr good => good = true → gone v s | inl _ => True end)).
      * apply any_bind. intros [e|w]; [by apply hoare_ret|]. eapply hoare_bind; [by apply cow_flushes|]. intros good.
        destruct good; [|intros s x s' _; unfold bind, ret; destruct (pt_get _ _ s) as [[? s1]|]; [|done];
          destruct (pm_wrap_drop w s1) as [[? s2]|]; [|done]; by intros [= <- _]].
        eapply hoare_conseq; [|intros s Hs; exact (Hs eq_refl)|intros x s Hs; exact Hs].
        apply (hoare_post _ _ _ (λ r s, gone v s)); [|by intros [] s].
        apply pres_bind; [apply tlb_pt_get|]. intros _. apply pres_bind; [apply tlb_wrap_drop|]. intros _. apply pres_ret.
      * intros [e|good]; simpl; [by intros s x s' _|by apply hoare_ret].
    + intros good. apply hoare_then_ret. intros s u s' Hs E Hgd. eapply tlb_wrap_drop; [by apply Hs|exact E].
  - intros good s u s' Hs E. destruct good; [|done]. injection E as _ <-. by apply Hs.
Qed.

(** C27: A write fault leaves no stale translation behind.  After the handler has
    given the task a page of its own, nothing is remembered of the shared one:
    the repeated store looks the page up in the tables, where it may write, and
    no entry of the task is stale. *)
Theorem fault_tlb s T W B R m region (r far e ttbr0 : Z) b :
  UInv s T W B R → Safe B R → user_pt m = Some r → uroot T r → (base.size W + 5 ≤ 128)%nat → room (frames s) 4 →
  0 ≤ far < 2 ^ 48 → find_region m far = Some region → 0 < Z.land (u_flags region) PF_W → granule region = 0 →
  R !! (r, vpn far) = Some e → B !! fr e = Some b → bk_pages b = 1 → bk_cow b = true →
  Z.land ttbr0 PHY_MASK = r → user_coherent s ttbr0 →
  ∃ s', dabt_handler m far s = Done (tt, s') ∧ user_coherent s' ttbr0 ∧
    (∀ t, t ∈ tlb s' → te_page t ≠ tlb_page far) ∧
    ∃ x, hw_walk s' ttbr0 far = Some x ∧ kwritable x = true.
Proof.
  intros HU HS Hm Hr Hsz Hroom Hfar Hreg Hw Hg HR Hb Hb1 Hcow Hrt Hc.
  pose proof (dabt_run s T W B R m region r far e b 0 HU Hm Hr Hsz Hroom ltac:(lia) Hreg Hw Hg HR Hb Hb1) as Hd.
  rewrite Hcow in Hd. destruct Hd as (s' & E & Hun). exists s'. split; [done|].
  destruct (unshared_Safe s T W B R r far e b 0 s' HU HS Hr HR Hb Hb1 Hcow Hun)
    as (T' & B' & R' & x & HU' & HT & _ & -> & Hx & _).
  assert (∀ v, 0 ≤ v < 2 ^ 48 → vpn v = vpn far → gone v s') as Hgone.
  { intros v Hv Ev. assert (gone (align_b far 4096) s') as Hga by (eapply dabt_flushes; [done|done|lia|done|exact E]).
    rewrite align_b_page in Hga by lia. destruct (user_addr v Hv) as (C1 & U1 & _).
    destruct (user_addr (far - far mod 4096)) as (C2 & U2 & _); [zdiv|].
    assert (tlb_page v = tlb_page (far - far mod 4096)) as Ep.
    { apply page_same; [done..|]. split; [congruence|]. by rewrite vpn_align. }
    unfold gone. rewrite Ep. exact Hga. }
  split_and!.
  - eapply (user_coherent_step s T W B R s' T' W B' _ r); try done.
    + eapply tlb_dabt; [|exact E]. by intros t.
    + intros v Hv. destruct (decide (vpn v = vpn far)) as [Ev|Hne]; [left; by apply Hgone|right].
      rewrite lookup_insert_ne by congruence. done.
  - by apply Hgone.
  - exists x. split; [|done]. destruct (user_addr far Hfar) as (_ & Hu & _). unfold hw_walk, hw_root. rewrite Hu, Hrt.
    rewrite (ui_map _ _ _ _ _ HU' r far (uroot_mono _ _ _ HT Hr)). apply lookup_insert_eq.
Qed.
End cow.
