(* ===== verification/UmemPm.v ===== *)
(** * [pm.rs] keeps what user memory relies on

    The allocator of [Pm] as an instance of [ShareLaws]. *)
From S2P Require Import Prelude Stuff Pm PmInv PmSteps PmRun PmSpec Vm VmInv VmPm Umem UmemInv.

Local Open Scope Z_scope.

(** ** [cow_action], split into its decision and what the caller does about it *)
Definition cow_decide (addr len : Z) : PM (option CowAction) :=
  let! a := get in
  match allocator_lookup a addr with
  | None => ret None
  | Some page =>
      let! p := page_at page in
      if negb (bool_decide (flags p = FCow)) then ret None
      else if negb (page_len p =? len) then ret None
      else if ref_cnt p =? 1 then upd_page page (with_flags FUsed) ;;; ret (Some Remap)
      else upd_page page (λ q, with_ref (ref_cnt q - 1) q) ;;; ret (Some AllocNew)
  end.

Lemma cow_action_decide addr len f a :
  cow_action addr len f a = (let! o := cow_decide addr len in match o with Some c => f c | None => ret tt end) a.
Proof.
  unfold cow_action, cow_decide, bind, get, ret. destruct (allocator_lookup a addr) as [h|]; [|done].
  destruct (page_at h a) as [[p a1]|]; [|done]. destruct (negb _); [done|]. destruct (negb _); [done|].
  destruct (ref_cnt p =? 1); by destruct (upd_page _ _ a1) as [[[] a2]|].
Qed.

#[export] Instance pm_share_ops : ShareOps Allocator := {
  sh_alloc := Pm.alloc;
  sh_free := Pm.free;
  sh_dup := Pm.dup;
  sh_cow := cow_decide;
}.

Definition blk_of (c : block) : blk := mkBlk (bsz (b_ord c)) (b_ref c) (bool_decide (b_flags c = FCow)).

Definition pm_blocks (a : Allocator) (B : gmap Z blk) : Prop :=
  pm_ready a ∧ ∃ U, Abs a U ∧ ∀ p b, B !! p = Some b ↔ ∃ h c, p = addr_of a h ∧ U !! h = Some c ∧ b = blk_of c.

Section pm.
Implicit Types (a : Allocator) (U : gmap Z block) (B : gmap Z blk).

(** A live block is what the page array says about its head. *)
Lemma block_iff a U h b :
  Abs a U → U !! h = Some b ↔
  0 ≤ h < npg a ∧ ∃ q, pages a !! h = Some q ∧ ord q = b_ord b ∧ ref_cnt q = b_ref b ∧ flags q = b_flags b ∧
    0 < b_ref b ∧ b_flags b ≠ FMid.
Proof.
  intros HA. pose proof HA as (B & L & W & Hc & V). split.
  - intros Hh. destruct (block_facts a U h b HA Hh) as (H1 & H2 & H3).
    pose proof (U_block a B L U W V h b Hh) as HB. assert (1 ≤ bsz (b_ord b)) by (pose proof (wf_in_range _ _ _ _ _ _ W HB); lia).
    destruct (wf_block _ _ _ _ W h _ HB) as (q & Hq & _ & _ & Hm & _).
    rewrite V in Hh. destruct (view_Some a B L ∅ W h b Hh) as (_ & q' & Hq' & Ho & Hr & Hf & _).
    rewrite Hq in Hq'. injection Hq' as <-. split; [lia|]. exists q. split_and!; congruence.
  - intros (Hh & q & Hq & Ho & Hr & Hf & Hpos & Hnm). destruct b as [o r f]. simpl in *.
    destruct (t_cover _ _ (wf_tiles _ _ _ _ W) h Hh) as (g & o' & HB & Hg).
    destruct (wf_block _ _ _ _ W g o' HB) as (q2 & Hq2 & Ho2 & _ & _ & _ & Hm). destruct (decide (h = g)) as [->|Hne].
    + rewrite Hq in Hq2. injection Hq2 as <-. rewrite V. unfold view. rewrite HB, Hq.
      rewrite (proj2 (Z.ltb_lt _ _)) by lia. by subst.
    + destruct (Hm h) as (m & Hm' & Hok); [lia|]. rewrite Hq in Hm'. injection Hm' as <-.
      unfold mid_ok in Hok. destruct (0 <? ref_cnt q2); destruct Hok; congruence || lia.
Qed.

Lemma Abs_fun a U U' : Abs a U → Abs a U' → U = U'.
Proof.
  intros H1 H2. apply map_eq. intros h. apply option_eq. intros b. by rewrite (block_iff a U h b H1), (block_iff a U' h b H2).
Qed.

Lemma addr_inj a h h' : addr_of a h = addr_of a h' → h = h'.
Proof. unfold addr_of. lia. Qed.

Lemma bsz_1 o : bsz o = 1 ↔ o = 8%nat.
Proof.
  unfold bsz. split; [|by intros ->]. intros E. destruct (Z.lt_trichotomy (8 - Z.of_nat o) 0) as [H|[H|H]]; [| lia|].
  - by rewrite Z.pow_neg_r in E.
  - assert (2 ^ 1 ≤ 2 ^ (8 - Z.of_nat o)) by (apply Z.pow_le_mono_r; lia). lia.
Qed.

Lemma pm_blocks_owns a B : pm_blocks a B → pm_owns a (single B).
Proof.
  intros (Hr & U & HA & HB). split; [done|]. exists U. split; [done|]. intros p n. unfold single. rewrite lookup_omap_Some. split.
  - intros (b & Hs & Hb). apply HB in Hb as (h & [o r f] & -> & Hh & ->). simpl in Hs. destruct (Z.eqb_spec (bsz o) 1) as [E|]; [|done].
    apply bsz_1 in E as ->. injection Hs as <-. by exists h, f.
  - intros (h & fg & -> & Hh). exists (blk_of (mkBlock 8 n fg)). split; [done|]. apply HB. by eexists h, _.
Qed.

Lemma pm_blocks_single a B G : pm_blocks a B → pm_owns a G → G = single B.
Proof.
  intros HB (_ & U & HA & HG). destruct (pm_blocks_owns a B HB) as (_ & U' & HA' & HG').
  pose proof (Abs_fun _ _ _ HA HA') as ->. apply map_eq. intros p. apply option_eq. intros n. by rewrite HG, HG'.
Qed.

Lemma pm_in_blk a U B p h b :
  Abs a U → (∀ p b, B !! p = Some b ↔ ∃ h c, p = addr_of a h ∧ U !! h = Some c ∧ b = blk_of c) →
  in_blk B p h b ↔ ∃ g c i, h = addr_of a g ∧ U !! g = Some c ∧ b = blk_of c ∧ 0 ≤ i < bsz (b_ord c) ∧ p = addr_of a (g + i).
Proof.
  intros HA HB. unfold in_blk. rewrite HB. split.
  - intros [(g & c & -> & Hg & ->) (i & Hi & ->)]. exists g, c, i. split_and!; try done; [apply Hi..|]. unfold addr_of. lia.
  - intros (g & c & i & -> & Hg & -> & Hi & ->). split; [by exists g, c|]. exists i. split; [done|]. unfold addr_of. lia.
Qed.

Lemma pm_blocks_busy a B p : pm_blocks a B → pm_busy a p ↔ ∃ h b, in_blk B p h b.
Proof.
  intros (Hr & U & HA & HB). rewrite (pm_busy_iff a U p HA). split.
  - intros (x & -> & Hx & g & c & Hg & Hgx). exists (addr_of a g), (blk_of c). apply (pm_in_blk a U B _ _ _ HA HB).
    exists g, c, (x - g). split_and!; try done; [lia..|]. f_equal. lia.
  - intros (h & b & Hin). apply (pm_in_blk a U B _ _ _ HA HB) in Hin as (g & c & i & -> & Hg & -> & Hi & ->).
    destruct (block_facts a U g c HA Hg) as (H1 & H2 & _). exists (g + i). split_and!; [done|lia|lia|].
    exists g, c. split; [done|lia].
Qed.

Lemma pm_blocks_frame a B p h b : pm_blocks a B → in_blk B p h b → frame_ok p.
Proof.
  intros (Hr & U & HA & HB) Hin. apply (pm_in_blk a U B _ _ _ HA HB) in Hin as (g & c & i & -> & Hg & -> & Hi & ->).
  destruct (block_facts a U g c HA Hg) as (H1 & H2 & _). apply addr_frame; [done|lia].
Qed.

Lemma pm_blocks_apart a B p h b h' b' : pm_blocks a B → in_blk B p h b → in_blk B p h' b' → h = h'.
Proof.
  intros (Hr & U & HA & HB) H1 H2.
  apply (pm_in_blk a U B _ _ _ HA HB) in H1 as (g & c & i & -> & Hg & -> & Hi & ->).
  apply (pm_in_blk a U B _ _ _ HA HB) in H2 as (g' & c' & i' & -> & Hg' & -> & Hi' & E). apply addr_inj in E.
  destruct HA as (Bt & L & W & Hc & V). pose proof (wf_tiles _ _ _ _ W) as T.
  pose proof (U_block a Bt L U W V _ _ Hg) as B1. pose proof (U_block a Bt L U W V _ _ Hg') as B2.
  destruct (Z.lt_trichotomy g g') as [Hlt|[->|Hlt]]; [|done|].
  - pose proof (t_disj _ _ T _ _ _ _ B1 B2 Hlt). lia.
  - pose proof (t_disj _ _ T _ _ _ _ B2 B1 Hlt). lia.
Qed.

Lemma pm_blocks_pos a B h b : pm_blocks a B → B !! h = Some b → 0 < bk_ref b ∧ 0 < bk_pages b.
Proof.
  intros (Hr & U & HA & HB) (g & c & -> & Hg & ->)%HB. destruct (block_facts a U g c HA Hg) as (_ & _ & H3).
  split; [done|]. destruct HA as (Bt & L & W & Hc & V). pose proof (U_block a Bt L U W V _ _ Hg) as B1.
  pose proof (wf_in_range _ _ _ _ _ _ W B1). simpl. lia.
Qed.

(** Changing the block at [g] in both views. *)
Lemma pm_blocks_alter a a' U B g o :
  pm_ready a → offt a' = offt a → size a' = size a → Abs a' (partial_alter (λ _, o) g U) →
  (∀ p b, B !! p = Some b ↔ ∃ h c, p = addr_of a h ∧ U !! h = Some c ∧ b = blk_of c) →
  pm_blocks a' (partial_alter (λ _, blk_of <$> o) (addr_of a g) B).
Proof.
  intros [Hr1 Hr2] Eo Es HA HB. split; [split; congruence|]. eexists. split; [exact HA|].
  assert (∀ x, addr_of a' x = addr_of a x) as Ea by (intros x; unfold addr_of; by rewrite Eo).
  intros p b. setoid_rewrite Ea. destruct (decide (p = addr_of a g)) as [->|Hne].
  - rewrite lookup_partial_alter_eq. split.
    + intros E. destruct o as [c|]; [|done]. injection E as <-. exists g, c. by rewrite lookup_partial_alter_eq.
    + intros (h & c & Eh & Hh & ->). apply addr_inj in Eh as <-. rewrite lookup_partial_alter_eq in Hh. by rewrite Hh.
  - rewrite lookup_partial_alter_ne by done. rewrite HB.
    split; intros (h & c & -> & Hh & ->); exists h, c.
    + by rewrite lookup_partial_alter_ne by congruence.
    + by rewrite lookup_partial_alter_ne in Hh by congruence.
Qed.

(** Room survives but for the frames that are newly covered. *)
Lemma pm_room_sub a a' U U' (X : gset Z) m n :
  Abs a U → Abs a' U' → size a' = size a → (∀ p, covered U' p → p ∈ X ∨ covered U p) →
  (n + base.size X ≤ m)%nat → pm_room a m → pm_room a' n.
Proof.
  intros HA HA' Es Hc Hn (S & HS & Hid). exists (S ∖ X). split.
  - rewrite size_difference_alt. assert (base.size (S ∩ X) ≤ base.size X)%nat by (apply subseteq_size; set_solver). lia.
  - intros p [Hp Hne]%elem_of_difference. apply Hid in Hp as Hpi. pose proof Hpi as [Hpr _].
    apply (idle_iff a' _ p HA'); [unfold npg; by rewrite Es|]. intros [Hx|Hx]%Hc; [done|].
    by apply (idle_iff a U p HA Hpr) in Hpi.
Qed.

Lemma pm_room_keep a a' U U' m :
  Abs a U → Abs a' U' → size a' = size a → (∀ p, covered U' p → covered U p) → pm_room a m → pm_room a' m.
Proof.
  intros HA HA' Es Hc. apply (pm_room_sub a a' U U' ∅); [done..| |rewrite size_empty; lia]. intros p Hp. right. by apply Hc.
Qed.

Lemma covered_same U h b b' p : U !! h = Some b → b_ord b' = b_ord b → covered (<[h := b']> U) p → covered U p.
Proof.
  intros Hb Eo (g & c & Hg & Hp). rewrite lookup_insert in Hg. case_decide as Hd.
  - injection Hg as <-. subst g. exists h, b. rewrite <- Eo. done.
  - by exists g, c.
Qed.

Lemma pm_fr_alloc_blocks a B o a' :
  pm_blocks a B → Pm.alloc 4096 a = Done (o, a') →
  match o with
  | Some p => B !! p = None ∧ pm_blocks a' (<[p := mkBlk 1 1 false]> B)
  | None => pm_blocks a' B
  end.
Proof.
  intros (Hr & U & HA & HB) E.
  destruct (alloc_abs a U 4096 HA) as [[E' _]|(a2 & h & E' & HA' & Eo & Es & _ & _ & _ & Hn & _)];
    [done|destruct Hr as [-> _]; done|..]; rewrite E in E'; injection E' as -> ->.
  - split; [done|]. by exists U.
  - split.
    + destruct (B !! addr_of a h) as [b|] eqn:Eb; [|done]. apply HB in Eb as (g & c & Eg & Hg & _). apply addr_inj in Eg as <-. congruence.
    + exact (pm_blocks_alter a a2 U B h (Some _) Hr Eo Es HA' HB).
Qed.

(** More idle frames than pairs: some pair is idle. *)
Definition pm_gap : nat := Z.to_nat 131072.

Lemma pm_gap_eq : Z.of_nat pm_gap = 131072.
Proof. apply Z2Nat.id. lia. Qed.

Lemma idle_pair (S : gset Z) N :
  (∀ p, p ∈ S → 0 ≤ p < 2 * N) → 0 ≤ N < Z.of_nat (base.size S) → ∃ k, 2 * k ∈ S ∧ 2 * k + 1 ∈ S.
Proof.
  intros Hr Hs. destruct (decide (set_Exists (λ p, 2 * (p / 2) ∈ S ∧ 2 * (p / 2) + 1 ∈ S) S)) as [(p & _ & H1 & H2)|Hno].
  { by exists (p / 2). }
  exfalso. assert (NoDup ((λ p, p / 2) <$> elements S)) as Hnd.
  { apply NoDup_fmap_2_strong; [|apply NoDup_elements]. intros x y Hx%elem_of_elements Hy%elem_of_elements E.
    destruct (decide (x = y)) as [|Hne]; [done|]. exfalso. apply Hno. exists x. split; [done|].
    assert (x = 2 * (x / 2) ∧ y = 2 * (x / 2) + 1 ∨ y = 2 * (x / 2) ∧ x = 2 * (x / 2) + 1) as [[<- <-]|[<- <-]] by zdiv; done. }
  assert ((λ p, p / 2) <$> elements S ⊆+ seqZ 0 N) as Hsub.
  { apply NoDup_submseteq; [done|]. intros k (p & -> & Hp%elem_of_elements%Hr)%list_elem_of_fmap. apply elem_of_seqZ. zdiv. }
  apply submseteq_length in Hsub. rewrite length_fmap, length_seqZ in Hsub. change (base.size S) with (length (elements S)) in Hs. lia.
Qed.

#[local] Opaque pm_gap.

Lemma pm_alloc_2 a B n :
  pm_blocks a B → pm_room a (pm_gap + (2 + n)) →
  ∃ p a', Pm.alloc SPEL0_SIZE a = Done (Some p, a') ∧ B !! p = None ∧ pm_blocks a' (<[p := mkBlk 2 1 false]> B) ∧
    ¬ pm_busy a p ∧ ¬ pm_busy a (p + 4096) ∧ pm_room a' (pm_gap + n).
Proof.
  intros (Hr & U & HA & HB) Hroom. assert (npg a = 262144) as En by (unfold npg; by rewrite (proj1 Hr)).
  destruct (alloc_abs a U SPEL0_SIZE HA) as [[_ Hfull]|(a' & h & E & HA' & Eo & Es & H0 & HN & Hal & Hn & Hfree)];
    [done|destruct Hr as [-> _]; done|exfalso|].
  - destruct Hroom as (S & HS & Hid). pose proof pm_gap_eq.
    destruct (idle_pair S 131072) as (k & K1 & K2); [intros p Hp; destruct (Hid p Hp) as [? _]; lia|lia|].
    destruct (Hid _ K1) as [R1 _]. destruct (Hid _ K2) as [R2 _]. change (bsz (get_ord SPEL0_SIZE)) with 2 in Hfull.
    apply (Hfull (2 * k)); [lia|apply Z.divide_factor_l|lia|]. intros x Hx.
    assert (x = 2 * k ∨ x = 2 * k + 1) as [->| ->] by lia; apply (idle_iff a U _ HA); by apply Hid || lia.
  - change (get_ord SPEL0_SIZE) with 7%nat in *. change (bsz 7) with 2 in *. exists (addr_of a h), a'.
    assert (∀ i, 0 ≤ i < 2 → ¬ pm_busy a (addr_of a (h + i))) as Hnb.
    { intros i Hi. rewrite (pm_busy_iff a U _ HA). intros (g & Eg%addr_inj & _ & Hc). subst g. apply (Hfree (h + i)); [lia|done]. }
    split_and!; [done| |exact (pm_blocks_alter a a' U B h (Some _) Hr Eo Es HA' HB)| | |].
    + destruct (B !! addr_of a h) as [b|] eqn:Eb; [|done]. apply HB in Eb as (g & c & Eg & Hg & _). apply addr_inj in Eg as <-. congruence.
    + specialize (Hnb 0 ltac:(lia)). by rewrite Z.add_0_r in Hnb.
    + specialize (Hnb 1 ltac:(lia)). replace (addr_of a h + 4096) with (addr_of a (h + 1)) by (unfold addr_of; lia). done.
    + refine (pm_room_sub a a' U _ {[h; h + 1]} _ _ HA HA' Es _ _ Hroom).
      * intros p (g & c & Hg & Hp). rewrite lookup_insert in Hg. case_decide as Hd; [|right; by exists g, c].
        injection Hg as <-. subst g. simpl b_ord in Hp. change (bsz 7) with 2 in Hp. left. assert (p = h ∨ p = h + 1) by lia. set_solver.
      * assert (base.size ({[h; h + 1]} : gset Z)%Z ≤ 2)%nat; [|lia]. rewrite size_union_alt, size_singleton.
        assert (base.size ({[h + 1]} ∖ {[h]} : gset Z)%Z ≤ base.size ({[h + 1]} : gset Z)%Z)%nat as Hle by (apply subseteq_size; set_solver).
        rewrite size_singleton in Hle. lia.
Qed.

Lemma pm_dup_law a B p b :
  pm_blocks a B → B !! p = Some b →
  ∃ a', Pm.dup p (4096 * bk_pages b) a = Done (true, a') ∧
    pm_blocks a' (<[p := mkBlk (bk_pages b) (bk_ref b + 1) true]> B) ∧ ∀ m, pm_room a m → pm_room a' m.
Proof.
  intros (Hr & U & HA & HB) (h & c & -> & Hh & ->)%HB. destruct (dup_abs a U h c HA Hh) as (a' & E & Eo & Es & HA').
  exists a'. split_and!; [done|exact (pm_blocks_alter a a' U B h (Some _) Hr Eo Es HA' HB)|].
  intros m. apply (pm_room_keep a a' U _ m HA HA' Es). intros p. by apply (covered_same U h c).
Qed.

Lemma pm_free_blk a B p b :
  pm_blocks a B → B !! p = Some b →
  ∃ a', Pm.free p (4096 * bk_pages b) a = Done (tt, a') ∧
    pm_blocks a' (partial_alter (λ _, drop_blk b) p B) ∧ ∀ m, pm_room a m → pm_room a' m.
Proof.
  intros (Hr & U & HA & HB) (h & c & -> & Hh & ->)%HB. destruct (free_abs a U h c HA Hh) as (a' & E & Eo & Es & HA').
  exists a'. split_and!; [done| |].
  - pose proof (pm_blocks_alter a a' U B h _ Hr Eo Es HA' HB) as H. unfold drop_ref in H. unfold drop_blk. simpl.
    destruct (1 <? b_ref c); exact H.
  - intros m. apply (pm_room_keep a a' U _ m HA HA' Es). intros p. by apply covered_drop.
Qed.

(** The head page of a copy-on-write block after [cow_action]. *)
Lemma cow_decide_abs a U h c :
  Abs a U → U !! h = Some c → b_flags c = FCow →
  ∃ a', cow_decide (addr_of a h) (4096 * bsz (b_ord c)) a = Done (Some (if b_ref c =? 1 then Remap else AllocNew), a') ∧
    offt a' = offt a ∧ size a' = size a ∧
    Abs a' (<[h := if b_ref c =? 1 then mkBlock (b_ord c) 1 FUsed else mkBlock (b_ord c) (b_ref c - 1) FCow]> U).
Proof.
  intros HA Hb Hcow. destruct (head_page a U h c HA Hb) as (q & Eq & El).
  destruct HA as (B & L & W & Hc & V). pose proof (U_block a B L U W V h c Hb) as HB.
  rewrite V in Hb. destruct (view_Some a B L ∅ W h c Hb) as (_ & q' & Hq & Ho & Hr & Hf & _ & Hm & Hpos).
  unfold page_at in Eq. rewrite Hq in Eq. injection Eq as ->.
  set (q2 := if b_ref c =? 1 then with_flags FUsed q else with_ref (b_ref c - 1) q).
  exists (set_pages a (<[h := q2]> (pages a))). split_and!; [|done..|].
  - unfold cow_decide. mstep. rewrite (lookup_head a B L ∅ W h _ HB). mrun (page_at_run _ _ _ Hq).
    rewrite Hf, Hcow, El, Z.eqb_refl, Hr. rewrite bool_decide_eq_true_2 by done. cbn [negb]. subst q2.
    destruct (b_ref c =? 1); mrun (upd_page_run _ _ _ _ Hq); [done|cbn; by rewrite ?Hr].
  - subst q2. destruct (Z.eqb_spec (b_ref c) 1) as [E1|E1].
    + destruct (set_head a B L ∅ h _ q (with_flags FUsed q) W HB Hq) as [W' V']; try done; [simpl; lia..|].
      eapply Abs_update; try done. intros g. rewrite V'. simpl. by rewrite Hr, E1.
    + destruct (set_head a B L ∅ h _ q (with_ref (b_ref c - 1) q) W HB Hq) as [W' V']; try done; [simpl; try lia..|].
      { simpl. by rewrite Hf, Hcow. }
      eapply Abs_update; try done. intros g. rewrite V'. simpl. by rewrite Hf, Hcow.
Qed.

Lemma pm_cow_law a B p b :
  pm_blocks a B → B !! p = Some b →
  if bk_cow b then
    ∃ a', cow_decide p (4096 * bk_pages b) a = Done (Some (if bk_ref b =? 1 then Remap else AllocNew), a') ∧
      pm_blocks a' (<[p := if bk_ref b =? 1 then mkBlk (bk_pages b) 1 false
                           else mkBlk (bk_pages b) (bk_ref b - 1) true]> B) ∧ ∀ m, pm_room a m → pm_room a' m
  else cow_decide p (4096 * bk_pages b) a = Done (None, a).
Proof.
  intros (Hr & U & HA & HB) (h & c & -> & Hh & ->)%HB. cbn [blk_of bk_cow bk_ref bk_pages]. case_bool_decide as Hf.
  - destruct (cow_decide_abs a U h c HA Hh Hf) as (a' & E & Eo & Es & HA'). exists a'. split; [exact E|].
    pose proof (pm_blocks_alter a a' U B h (Some _) Hr Eo Es HA' HB) as HB'. destruct (b_ref c =? 1).
    + split; [exact HB'|]. intros m. apply (pm_room_keep a a' U _ m HA HA' Es). intros p. by apply (covered_same U h c).
    + split; [exact HB'|]. intros m. apply (pm_room_keep a a' U _ m HA HA' Es). intros p. by apply (covered_same U h c).
  - destruct (block_facts a U h c HA Hh) as (H1 & H2 & _). pose proof HA as (Bt & L & W & Hc & V).
    pose proof (U_block a Bt L U W V h c Hh) as HBt. apply (block_iff a U h c HA) in Hh as (_ & q & Hq & _ & _ & Hf' & _).
    unfold cow_decide. mstep. rewrite (lookup_head a Bt L ∅ W h _ HBt). mrun (page_at_run _ _ _ Hq).
    by rewrite Hf', bool_decide_eq_false_2.
Qed.
End pm.

#[export] Instance pm_share_laws : ShareLaws Allocator := {
  blocks := pm_blocks;
  blocks_owns := pm_blocks_owns;
  blocks_single := pm_blocks_single;
  blocks_busy := pm_blocks_busy;
  blocks_frame := pm_blocks_frame;
  blocks_apart := pm_blocks_apart;
  blocks_pos := pm_blocks_pos;
  sh_alloc_1 := eq_refl;
  fr_alloc_blocks := pm_fr_alloc_blocks;
  gap := pm_gap;
  sh_alloc_2 := pm_alloc_2;
  sh_dup_law := pm_dup_law;
  sh_cow_law := pm_cow_law;
  sh_free_law := pm_free_blk;
}.
