(* ===== verification/Stacks.v ===== *)
(** * [sched::init]: the kernel stacks of the tasks

    At start-up every task gets two frames as its kernel stack, mapped into the
    kernel's own virtual memory. *)
From S2P Require Import Prelude Stuff Pm Vm VmInv VmTree VmRun VmFree VmSpec VmKern Hoare Kst Umem UmemInv UmemRun.

Local Open Scope Z_scope.

Section code.
Context {im : Image} {F : Type} {fo : FrameOps F} {so : ShareOps F}.

(** [Task::init]: the new [sp_el1]. *)
Definition task_init : VM F Z :=
  let! o := on_frames (sh_alloc (4096 * 2)) in
  let! sp_el1 := unwrap o in
  let! r := map sp_el1 2 PR_PW in
  unwrap_r r.

Fixpoint init_all (n : nat) : VM F (list Z) :=
  match n with
  | O => ret []
  | S n' => let! sp := task_init in let! sps := init_all n' in ret (sp :: sps)
  end.

Definition sched_init : VM F (list Z) := init_all NTASKS.
End code.

Section spec.
Context {im : Image} {F : Type} {fo : FrameOps F} {so : ShareOps F} {fl : FrameLaws F} {shl : ShareLaws F}.
Implicit Types (s : VSt F) (W G : gmap Z Z) (T : gmap Z (Z * list Z)) (B : gmap Z blk).

(** Mapping takes frames for tables and leaves the blocks alone. *)
Lemma map_blocks B p n perms : pres (λ s, ∃ B', blocks (frames s) B' ∧ B ⊆ B') (map p n perms).
Proof using shl.
  set (P := λ s, ∃ B', blocks (frames s) B' ∧ B ⊆ B').
  assert (∀ f : VSt F → VSt F, (∀ s, frames (f s) = frames s) → pres P (modify f)) as Hm.
  { intros f Hf. apply hoare_modify. intros s. unfold P. by rewrite Hf. }
  assert (∀ sl i, pres P (pt_get sl i)) as Hg by (intros; unfold pt_get; pres_auto).
  assert (∀ sl i x, pres P (pt_set sl i x)) as Hs.
  { intros. unfold pt_set. apply pres_bind; [apply pres_assert|]. intros _. by apply Hm. }
  assert (∀ sl, pres P (zero_pt sl)) as Hz by (intros; unfold zero_pt; pres_auto).
  assert (∀ pm perms z, pres P (pm_wrap_new pm perms z)) as Hw by (intros; unfold pm_wrap_new, tlbi_vaee1; pres_auto; by apply Hm).
  assert (∀ w, pres P (pm_wrap_drop w)) as Hd by (intros; unfold pm_wrap_drop; pres_auto; by apply Hm).
  assert (∀ sl v, pres P (walk_to_l3 sl v)) as Hk by (intros; unfold walk_to_l3; pres_auto).
  assert (∀ v, pres P (free_4k v)) as Hf4.
  { intros. unfold free_4k, unmap_4k, unmap_4k_inner, tlbi_vaee1. pres_auto; by apply Hm. }
  assert (∀ k, pres P (alloc k)) as Ha by (intros; unfold alloc; pres_auto; by apply Hm).
  assert (∀ l v, pres P (map_loop map_v2p_4k l v p perms)) as Hl.
  { induction l as [|i l IH]; intros v; cbn [map_loop]; [apply pres_ret|]. apply pres_bind; [|intros []; pres_auto].
    unfold map_v2p_4k. apply (blocks_pres B). }
  unfold map, free. pres_auto.
Qed.

(** The state of the kernel with its blocks. *)
Record SInv s T W B : Prop := {
  si_kernel : KInv s T W (single B);
  si_blocks : blocks (frames s) B;
}.

Lemma stack_alloc_run s T W B n :
  SInv s T W B → room (frames s) (gap + (2 + n)) →
  ∃ p s', on_frames (sh_alloc SPEL0_SIZE) s = Done (Some p, s') ∧ B !! p = None ∧ SInv s' T W (<[p := mkBlk 2 1 false]> B) ∧
    room (frames s') (gap + n) ∧ mem s' = mem s ∧ regions s' = regions s.
Proof.
  intros [HK HB] Hroom. pose proof HK as [[I1 I2 I3 I4] K2 K3 K4 K5 K6 K7 K8].
  destruct (sh_alloc_2 _ _ n HB Hroom) as (p & f & Ea & HBp & Hf & _ & _ & Hroom').
  exists p, (set_frames f s). split_and!; [by unfold on_frames; rewrite Ea|done| |done|done|done].
  split; [|done]. split; try done. split; [by apply Wins_mem|by eapply forest_agree|by apply blocks_owns|].
  intros q x Hx. destruct (I4 q x Hx) as [m Hm]. exists m. eapply lookup_weaken; [done|].
  apply single_subseteq. by apply insert_subseteq.
Qed.

(** One task: the next two pages. *)
Lemma task_init_run s T W B k n :
  SInv s T W B → (base.size W + 3 ≤ 128)%nat → room (frames s) (gap + (8 + n)) → 0 ≤ k → k + 2 ≤ 128 →
  (∀ i, 0 ≤ i < k → kbit s i = true) → kbit s k = false → kbit s (k + 1) = false →
  ∃ p s' T' B', task_init s = Done (kpage s k, s') ∧ SInv s' T' W B' ∧ T ⊆ T' ∧ B !! p = None ∧ B' !! p = Some (mkBlk 2 1 false) ∧ B ⊆ B' ∧
    room (frames s') (gap + n) ∧ r_start (regions s') = r_start (regions s) ∧
    (∀ i, kbit s' i = bool_decide (k ≤ i < k + 2) || kbit s i) ∧
    (∀ i, 0 ≤ i < 2 → translate s' im_pt (kpage s (k + i)) = Some (Z.lor (Z.lor (p + i * 4096) PR_PW) 0x403)) ∧
    others_same_n T s s' (kpage s k) 0 2.
Proof using shl.
  intros HS Hsz Hroom Hk0 Hk Hset Hc0 Hc1. destruct (stack_alloc_run s T W B (6 + n) HS Hroom) as (p & s1 & E1 & HBp & HS1 & Rm1 & Em & Er).
  pose proof (si_blocks _ _ _ _ HS1) as HB1.
  assert (frame_ok p) as Hp.
  { eapply blocks_frame; [exact HB1|]. eapply in_blk_head; [apply lookup_insert_eq|done]. }
  destruct (frame_ok_range p Hp) as [Hpr _].
  replace (gap + (6 + n))%nat with (3 * Z.to_nat 2 + (gap + n))%nat in Rm1 by lia.
  assert (∀ i, kbit s1 i = kbit s i) as Hb1 by (intros i; unfold kbit; by rewrite Er).
  destruct (map_run s1 T W _ p 2 PR_PW (gap + n) (si_kernel _ _ _ _ HS1) ltac:(lia) Hsz Rm1 ltac:(lia) ltac:(lia))
    as [[_ Hno]|(j & s' & T' & G' & E & Hj0 & Hj & Hrun & Hmin & HK' & HT & Rm' & Est & Hbits & Htr & Hoth)].
  { exfalso. apply (Hno k Hk0 Hk). intros i Hi. change (kbit s1 i = false). rewrite Hb1.
    assert (i = k ∨ i = k + 1) as [-> | ->] by lia; done. }
  assert (j = k) as ->.
  { destruct (Z.lt_trichotomy j k) as [Hlt|[->|Hgt]]; [|done|].
    - specialize (Hrun j ltac:(lia)). change (kbit s1 j = false) in Hrun. rewrite Hb1, Hset in Hrun by lia. done.
    - exfalso. apply (Hmin k ltac:(lia)). intros i Hi. change (kbit s1 i = false). rewrite Hb1.
      assert (i = k ∨ i = k + 1) as [-> | ->] by lia; done. }
  assert (∃ B', blocks (frames s') B' ∧ <[p := mkBlk 2 1 false]> B ⊆ B') as (B' & HB' & Hsub).
  { eapply map_blocks; [|exact E]. by eexists. }
  pose proof (blocks_single _ _ _ HB' (inv_owns _ _ _ _ (k_inv _ _ _ _ HK'))) as ->.
  assert (∀ i, kpage s1 i = kpage s i) as Ekp by (intros i; unfold kpage; by rewrite Er).
  assert (∀ r v, translate s1 r v = translate s r v) as Etr by (intros r v; unfold translate, walk, child, word; by rewrite Em).
  exists p, s', T', B'. split_and!; [|by split|done|done| | |done|by rewrite Est, Er| | |].
  - unfold task_init. change (4096 * 2) with SPEL0_SIZE. mrun E1. mstep. mrun E. by rewrite Ekp.
  - eapply lookup_weaken; [apply lookup_insert_eq|done].
  - etrans; [|exact Hsub]. by apply insert_subseteq.
  - intros i. by rewrite Hbits, Hb1.
  - intros i Hi. rewrite <- Ekp. by apply Htr.
  - intros r' v' Hr' Hn Hd. rewrite <- Etr. apply Hoth; [done|done|]. by rewrite Ekp.
Qed.

(** Stack [a] is the pages [k + 2 a] and [k + 2 a + 1], backed by the frames at [p]. *)
Definition stack_at s s' B B' (k : Z) (a : nat) (sp p : Z) : Prop :=
  sp = kpage s (k + 2 * Z.of_nat a) ∧ B !! p = None ∧ B' !! p = Some (mkBlk 2 1 false) ∧
  ∀ i, 0 ≤ i < 2 → translate s' im_pt (sp + i * 4096) = Some (Z.lor (Z.lor (p + i * 4096) PR_PW) 0x403).

(** Outside of [n] pages from page [k], nothing changes. *)
Definition kpages_same T s s' (k n : Z) : Prop :=
  ∀ r' v', T !! r' = Some (r', []) → ¬ win_page r' v' →
    (∀ i, 0 ≤ i < n → r' = im_pt → vpn v' ≠ vpn (kpage s (k + i))) → translate s' r' v' = translate s r' v'.

Lemma kpage_vpn s T W G i j :
  KInv s T W G → 0 ≤ i < 128 → 0 ≤ j < 128 → vpn (kpage s i) = vpn (kpage s j) → i = j.
Proof.
  intros HK Hi Hj. pose proof (k_lo _ _ _ _ HK). pose proof (k_hi _ _ _ _ HK). pose proof (k_al _ _ _ _ HK).
  rewrite !vpn_klow by (unfold klow, kpage; lia). unfold kpage. zdiv.
Qed.

Lemma init_all_run W m : ∀ k s T B n,
  SInv s T W B → (base.size W + 3 ≤ 128)%nat → room (frames s) (gap + (8 * m + n)) → 0 ≤ k → k + 2 * Z.of_nat m ≤ 128 →
  (∀ i, 0 ≤ i < k → kbit s i = true) → (∀ i, k ≤ i < k + 2 * Z.of_nat m → kbit s i = false) →
  ∃ sps ps s' T' B', init_all m s = Done (sps, s') ∧ SInv s' T' W B' ∧ T ⊆ T' ∧ B ⊆ B' ∧ NoDup ps ∧ length ps = m ∧ length sps = m ∧
    r_start (regions s') = r_start (regions s) ∧ room (frames s') (gap + n) ∧
    (∀ a sp p, sps !! a = Some sp → ps !! a = Some p → stack_at s s' B B' k a sp p) ∧
    kpages_same T s s' k (2 * Z.of_nat m).
Proof using shl.
  induction m as [|m IH]; intros k s T B n HS Hsz Hroom Hk0 Hk Hset Hclr.
  - exists [], [], s, T, B. split_and!; try done. constructor.
  - replace (8 * S m + n)%nat with (8 + (8 * m + n))%nat in Hroom by lia.
    destruct (task_init_run s T W B k (8 * m + n) HS Hsz Hroom Hk0 ltac:(lia) Hset) as
      (p & s1 & T1 & B1 & E1 & HS1 & HT1 & HBp & HB1p & HB1 & Rm1 & Est1 & Hb1 & Htr1 & Ho1); [apply Hclr; lia..|].
    pose proof (si_kernel _ _ _ _ HS) as HK.
    destruct (IH (k + 2) s1 T1 B1 n HS1 Hsz Rm1) as (sps & ps & s' & T' & B' & E2 & HS' & HT' & HB' & Hnd & Hlp & Hls & Est' & Rm' & Hst & Hsame);
      [lia|lia| | |].
    { intros i Hi. rewrite Hb1. destruct (decide (k ≤ i < k + 2)); [by rewrite bool_decide_eq_true_2|]. rewrite Hset by lia. apply orb_true_r. }
    { intros i Hi. rewrite Hb1, bool_decide_eq_false_2 by lia. apply Hclr. lia. }
    assert (∀ i, kpage s1 i = kpage s i) as Ekp by (intros i; unfold kpage; by rewrite Est1).
    assert (∀ i, 0 ≤ i < 128 → ¬ win_page im_pt (kpage s i)) as Hnw.
    { intros i Hi. apply klow_not_win. pose proof (k_lo _ _ _ _ HK). pose proof (k_hi _ _ _ _ HK). unfold klow, kpage. lia. }
    exists (kpage s k :: sps), (p :: ps), s', T', B'.
    split_and!; [|done|by etrans|by etrans| |by simpl; rewrite Hlp|by simpl; rewrite Hls|congruence|done| |].
    + cbn [init_all]. mrun E1. by mrun E2.
    + apply NoDup_cons. split; [|done]. intros [a Ha]%list_elem_of_lookup.
      destruct (lookup_lt_is_Some_2 sps a) as [sp Hsp]; [rewrite Hls, <- Hlp; by eapply lookup_lt_Some|].
      destruct (Hst a sp p Hsp Ha) as (_ & Hn & _). congruence.
    + intros [|a] sp q Hsp Hq.
      * injection Hsp as <-. injection Hq as <-. split_and!; [f_equal; lia|done|by eapply lookup_weaken|].
        intros i Hi. replace (kpage s k + i * 4096) with (kpage s (k + i)) by (unfold kpage; lia).
        rewrite <- Htr1 by done. apply Hsame; [exact (k_root _ _ _ _ (si_kernel _ _ _ _ HS1))|apply Hnw; lia|].
        intros j Hj _ Ev. rewrite Ekp in Ev. apply (kpage_vpn s T W _ _ _ HK) in Ev; lia.
      * simpl in Hsp, Hq. destruct (Hst a sp q Hsp Hq) as (-> & Hn & Hb & Ht). rewrite Ekp in Ht |- *.
        split_and!; [f_equal; lia| |done|done]. destruct (B !! q) eqn:Eq; [|done]. by rewrite (lookup_weaken _ _ _ _ Eq HB1) in Hn.
    + intros r' v' Hr' Hn Hd. rewrite Hsame; [|by eapply lookup_weaken|done|].
      * apply Ho1; [done|done|]. intros [-> (i & Hi & Ev)]. apply (Hd i ltac:(lia) eq_refl). rewrite Ev. f_equal. unfold kpage. lia.
      * intros i Hi Er Ev. apply (Hd (2 + i) ltac:(lia) Er). rewrite Ev, Ekp. f_equal. unfold kpage. lia.
Qed.

(** C29: The kernel stacks.  When [sched::init] is called, the drivers and the
    heap have taken the first [k] pages of kernel memory.  With the sixteen pages
    after them free and frames left, it gives every task a stack of its own: two
    consecutive pages, one stack after the other from page [k] on, each backed by
    its own block of two fresh frames and writable by the kernel only; no other
    page of any tree changes. *)
Theorem sched_init_spec s T W B k :
  SInv s T W B → (base.size W + 3 ≤ 128)%nat → room (frames s) (gap + 64) → 0 ≤ k → k + 16 ≤ 128 →
  (∀ i, 0 ≤ i < k → kbit s i = true) → (∀ i, k ≤ i < k + 16 → kbit s i = false) →
  ∃ sps ps s' T' B', sched_init s = Done (sps, s') ∧ SInv s' T' W B' ∧ length sps = 8%nat ∧ NoDup ps ∧ length ps = 8%nat ∧
    (∀ a sp p, sps !! a = Some sp → ps !! a = Some p → stack_at s s' B B' k a sp p) ∧ kpages_same T s s' k 16.
Proof using shl.
  intros HS Hsz Hroom Hk0 Hk Hset Hclr.
  destruct (init_all_run W 8 k s T B 0 HS Hsz) as (sps & ps & s' & T' & B' & E & HS' & _ & _ & Hnd & Hlp & Hls & _ & _ & Hst & Hsame);
    [exact Hroom|lia|lia|done|intros i Hi; apply Hclr; lia|].
  exists sps, ps, s', T', B'. by split_and!.
Qed.
End spec.
