(* ===== verification/UmemWit.v ===== *)
(** * The theorems on user memory at work

    From the kernel that [init] leaves: two tasks with their stacks, a page of
    heap for the first, a [fork] of it into the second, a write fault. *)
From S2P Require Import Prelude Stuff Pm PmInv PmRun PmSpec Vm VmInv VmTree VmRun VmFree VmPm VmSpec VmKern VmBoot VmWit.
From S2P Require Import Umem UmemInv UmemRun UmemSafe UmemOps UmemSpec UmemFork UmemPm Stacks.

Local Open Scope Z_scope.
#[local] Existing Instance tiny_image.
#[local] Opaque pm_gap.

Section setup.
(** The trees of one root. *)
Lemma forest_only {im : Image} {F : Type} (s : VSt F) T :
  forest s T → forest s (filter (λ x, x.2.1 = im_pt) T).
Proof.
  intros [HF Hw]. split; [split|].
  - intros p r path [Hp _]%map_lookup_filter_Some. by eapply fo_len.
  - intros p r [Hp _]%map_lookup_filter_Some. by eapply fo_root.
  - intros p r path i [Hp E]%map_lookup_filter_Some Hl Hi Hne. apply map_lookup_filter_Some. split; [|done]. by eapply fo_child.
  - intros q r path i [Hq E]%map_lookup_filter_Some. destruct (fo_parent _ _ HF _ _ _ _ Hq) as (p & Hp & H). exists p.
    split; [|done]. by apply map_lookup_filter_Some.
  - by apply map_lookup_filter_Some.
Qed.

Lemma pm_blocks_some a G : pm_owns a G → ∃ B, pm_blocks a B.
Proof.
  intros (Hr & U & HA & _). exists (kmap (addr_of a) (blk_of <$> U)). split; [done|]. exists U. split; [done|].
  assert (Inj eq eq (addr_of a)) as Hi by (intros x y; apply addr_inj). intros p b. rewrite (lookup_kmap_Some (addr_of a)). split.
  - intros (h & -> & (c & <- & Hc)%lookup_fmap_Some). by exists h, c.
  - intros (h & c & -> & Hh & ->). exists h. split; [done|]. apply lookup_fmap_Some. by exists c.
Qed.

Lemma tiny_umem n : Z.of_nat n ≤ 1000 →
  ∃ (s : VSt Allocator) T B, UInv s T ∅ B ∅ ∧ Safe B ∅ ∧ T !! im_pt ≠ None ∧ room (frames s) (gap + n).
Proof.
  intros Hn. pose proof pm_gap_eq as Eg.
  destruct (tiny_kernel_room (pm_gap + n)) as (s & T & G & HK & Hr & _); [lia|].
  destruct (k_inv _ _ _ _ HK) as [I1 I2 I3 I4]. destruct (pm_blocks_some _ _ I3) as (B & HB).
  pose proof (pm_blocks_single _ _ _ HB I3) as ->.
  eexists s, _, B. split; [split|].
  - split; [exact I1|by apply forest_only|exact I3|]. intros p x [Hp _]%map_lookup_filter_Some. by eapply I4.
  - exact HB.
  - intros r v [Hr1 Hr2]. apply map_lookup_filter_Some in Hr1. exfalso. exact (Hr2 (proj2 Hr1)).
  - intros k e. by rewrite lookup_empty.
  - intros r k e. by rewrite lookup_empty.
  - split_and!; [intros k e h b; by rewrite lookup_empty| |exact Hr].
    rewrite (map_lookup_filter_Some_2 _ _ _ _ (k_root _ _ _ _ HK)); done.
Qed.

Lemma stack_has R r sp :
  frame_ok sp → frame_ok (sp + 4096) → has_stack (stack_pages r (8 * GB) sp R) r (vpn (8 * GB)) sp.
Proof.
  intros H0 H1 i Hi. unfold stack_pages. assert (i = 0 ∨ i = 1) as [->| ->] by lia.
  - eexists. rewrite !Z.add_0_r, lookup_insert_ne by (intros [=]; lia). rewrite lookup_insert_eq. split; [done|].
    split; [by apply lor_perms_fr|by apply UW1_writable].
  - eexists. rewrite lookup_insert_eq. split; [done|]. split; [by rewrite lor_perms_fr|by apply UW1_writable].
Qed.

Lemma stack_other R r v sp r' k : r' ≠ r → stack_pages r v sp R !! (r', k) = R !! (r', k).
Proof. intros Hne. unfold stack_pages. rewrite !lookup_insert_ne by congruence. done. Qed.

Lemma stack_pages_out R r sp k :
  ¬ (vpn (8 * GB) ≤ k < vpn (8 * GB) + 2) → stack_pages r (8 * GB) sp R !! (r, k) = R !! (r, k).
Proof. intros Hk. unfold stack_pages. rewrite !lookup_insert_ne by (intros [=]; lia). done. Qed.

(** Two tasks as [init_user] makes them. *)
Definition task_mm (r sp : Z) : Mm := with_pt (Some r) (Some sp) mm_zeroed.

Lemma two_tasks :
  ∃ (s : VSt Allocator) T B R r1 sp1 r2 sp2, UInv s T ∅ B R ∧ Safe B R ∧ uroot T r1 ∧ uroot T r2 ∧ r1 ≠ r2 ∧
    has_stack R r1 (vpn (8 * GB)) sp1 ∧ has_stack R r2 (vpn (8 * GB)) sp2 ∧
    (∀ k, ¬ (vpn (8 * GB) ≤ k < vpn (8 * GB) + 2) → R !! (r1, k) = None ∧ R !! (r2, k) = None) ∧
    room (frames s) (gap + 20).
Proof.
  destruct (tiny_umem 38 ltac:(lia)) as (s & T & B & HU & HS & Hpt & Hroom).
  destruct (init_user_run s T ∅ B ∅ mm_zeroed 29 HU Hpt) as (r1 & sp1 & s1 & T1 & B1 & _ & HU1 & HS1 & _ & Hr1 & HT1 & _ & _ & Hf1 & Rm1 & _);
    [rewrite map_size_empty; lia|exact Hroom|done|done|done|].
  destruct (init_user_run s1 T1 ∅ B1 _ mm_zeroed 20 HU1) as (r2 & sp2 & s2 & T2 & B2 & _ & HU2 & HS2 & Hn2 & Hr2 & HT2 & _ & _ & Hf2 & Rm2 & _);
    [|rewrite map_size_empty; lia|exact Rm1|done|done|done|].
  { destruct (T !! im_pt) as [x|] eqn:E; [|done]. by rewrite (lookup_weaken _ _ _ _ E HT1). }
  assert (r1 ≠ r2) as H12 by (intros ->; destruct Hr1 as [Hr1 _]; congruence).
  destruct (Hf1 0 ltac:(lia)) as [A0 _], (Hf1 1 ltac:(lia)) as [A1 _], (Hf2 0 ltac:(lia)) as [C0 _], (Hf2 1 ltac:(lia)) as [C1 _].
  rewrite Z.add_0_r in A0, C0.
  eexists s2, T2, B2, _, r1, sp1, r2, sp2. split_and!; [exact HU2|exact HS2|by eapply uroot_mono|done|done| | | |exact Rm2].
  - intros i Hi. rewrite stack_other by done. by apply stack_has.
  - by apply stack_has.
  - intros k Hk. rewrite stack_other by done. rewrite !stack_pages_out by done. rewrite stack_other by done. done.
Qed.
End setup.

Lemma brk_spec_witness :
  ∃ (s s' : VSt Allocator) m m', brk (2 * GB + 100) m s = Done ((2 * GB + 4096, m'), s') ∧
    ∃ r, user_pt m = Some r ∧ uload s' r (2 * GB + 8) = Some 0.
Proof.
  destruct two_tasks as (s & T & B & R & r1 & sp1 & r2 & sp2 & HU & HS & Hr1 & _ & _ & _ & _ & Hno & Hroom).
  destruct (brk_spec s T ∅ B R (task_mm r1 sp1) r1 (2 * GB + 100) 0 HU HS eq_refl Hr1)
    as (s' & T' & B' & R' & E & _ & _ & _ & Hl).
  - rewrite map_size_empty. lia.
  - done.
  - done.
  - done.
  - done.
  - change (Z.to_nat _) with 1%nat. apply (room_drop _ (gap + 16) 4). by rewrite <- Nat.add_assoc.
  - intros i Hi. change ((_ - _) / _) with 1 in Hi. apply Hno. change (vpn (8 * GB)) with 2097152.
    change (vpn _) with 524288. lia.
  - eexists s, s', _, _. split; [exact E|]. exists r1. split; [done|]. rewrite (Hl r1 _ Hr1), decide_True; [reflexivity|]. split; [reflexivity|]. split; vm_compute; congruence.
Defined.

(** The first task with a page of heap. *)
Definition heap_mm (r sp : Z) : Mm := with_brk (set_len 4096 (brk_r mm_zeroed)) (task_mm r sp).

Definition heap_regions (r sp : Z) : list URegion := [brk_r (heap_mm r sp); mmap_r (heap_mm r sp)].

Lemma heap_page r sp k : in_regions (heap_regions r sp) k = true ↔ k = 524288.
Proof.
  unfold in_regions, heap_regions, in_region, npages. simpl.
  change (vpn (2 * GB)) with 524288. change (vpn GB) with 262144. change (4096 / 4096) with 1. change (0 / 4096) with 0.
  rewrite orb_false_r, orb_true_iff, !andb_true_iff, !Z.leb_le, !Z.ltb_lt. lia.
Qed.

Lemma heap_task :
  ∃ (s : VSt Allocator) T B R r1 sp1 r2 sp2, UInv s T ∅ B R ∧ Safe B R ∧
    forkable s T ∅ B R (heap_mm r1 sp1) (task_mm r2 sp2) (heap_regions r1 sp1) r1 r2 sp1 sp2 (vpn (8 * GB)) ∧
    room (frames s) 16 ∧ uload s r1 (2 * GB) = Some 0.
Proof.
  destruct two_tasks as (s & T & B & R & r1 & sp1 & r2 & sp2 & HU & HS & Hr1 & Hr2 & H12 & S1 & S2 & Hno & Hroom).
  assert (vpn (8 * GB) = 2097152) as E8 by done.
  destruct (brk_grow s T ∅ B R (task_mm r1 sp1) r1 (2 * GB + 100) 0 1 16 HU HS eq_refl Hr1)
    as (s' & _ & T' & B' & R' & HU' & HT & HS' & Hnew & Hold & Hl & HB & Hroom'); try done.
  - rewrite map_size_empty. lia.
  - by apply (room_drop _ gap 20).
  - intros i Hi. apply Hno. change (vpn _) with 524288 at 2. lia.
  - change (vpn _) with 524288 in Hnew, Hold.
    assert (∀ r k, k ≠ 524288 → R' !! (r, k) = R !! (r, k)) as Hold' by (intros r k Hk; apply Hold; intros [_ ?]; lia).
    exists s', T', B', R', r1, sp1, r2, sp2. split_and!; [exact HU'|exact HS'| |exact Hroom'|].
    + split; try done.
      * split_and!; [exact (uroot_mono _ _ _ HT Hr1)|exact (uroot_mono _ _ _ HT Hr2)|exact H12].
      * split; intros i Hi; rewrite Hold' by lia; [by apply S1|by apply S2].
      * intros i Hi. destruct (in_regions _ _) eqn:E; [|done]. apply heap_page in E. lia.
      * rewrite map_size_empty. lia.
      * by apply (room_drop _ 13 3).
      * apply Forall_cons. split; [|apply Forall_cons; split; [|by apply Forall_nil]]; (split; [done|right; by left]).
      * split; [|by split]. intros k Hk. destruct (in_regions _ k) eqn:E; [|done]. exfalso.
        revert Hk E. unfold in_regions, in_region, npages. simpl. change (vpn (2 * GB)) with 524288. change (vpn GB) with 262144.
        change (4096 / 4096) with 1. change (0 / 4096) with 0. rewrite orb_false_r, !andb_true_iff, !Z.leb_le, !Z.ltb_lt. lia.
      * intros k Hk. apply heap_page in Hk as ->. split.
        -- destruct (Hnew 0 ltac:(lia)) as (e & b & He & _ & Hb & Hb1). by exists e, b.
        -- rewrite Hold by (intros [? _]; congruence). apply Hno. lia.
    + rewrite (Hl r1 _ Hr1), decide_True; [reflexivity|]. split; [reflexivity|]. split; vm_compute; congruence.
Qed.

Lemma fork_copies_witness :
  ∃ (s s' : VSt Allocator) m1 m2 m r, fork_mm 1 m1 m2 s = Done (m, s') ∧ user_pt m = Some r ∧ uload s' r (2 * GB) = Some 0.
Proof.
  destruct heap_task as (s & T & B & R & r1 & sp1 & r2 & sp2 & HU & HS & HF & _ & H0).
  pose proof (fk_roots _ _ _ _ _ _ _ _ _ _ _ _ _ HF) as (Hr1 & Hr2 & _).
  destruct (fork_copies s T ∅ B R 1 _ _ _ r1 r2 sp1 sp2 _ HU HS HF) as (s' & T' & B' & R' & E & _ & _ & Hl).
  eexists s, s', _, _, _, r2. split; [exact E|]. split; [reflexivity|].
  rewrite (Hl r2 _ Hr2), decide_True; [exact H0|]. split; [reflexivity|]. left. by apply heap_page.
Defined.

(** After a [fork] the page of heap is shared. *)
Lemma forked_heap :
  ∃ (s : VSt Allocator) T B R r1 sp1 r2 e b, UInv s T ∅ B R ∧ Safe B R ∧ uroot T r1 ∧ uroot T r2 ∧ r1 ≠ r2 ∧ room (frames s) 13 ∧
    R !! (r1, vpn (2 * GB)) = Some e ∧ B !! fr e = Some b ∧ bk_pages b = 1 ∧ bk_cow b = true ∧
    user_sp (heap_mm r1 sp1) = Some sp1.
Proof.
  destruct heap_task as (s0 & T0 & B0 & R0 & r1 & sp1 & r2 & sp2 & HU0 & HS0 & HF & Hroom & _).
  pose proof (fk_roots _ _ _ _ _ _ _ _ _ _ _ _ _ HF) as (Hr1 & Hr2 & H12).
  destruct (fork_run s0 T0 ∅ B0 R0 1 _ _ _ r1 r2 sp1 sp2 _ 13 HU0 HS0 HF Hroom)
    as (s & T & B & R & _ & HU & HS & HT & Rm & [HG _] & Hsame & _).
  destruct (fk_pages _ _ _ _ _ _ _ _ _ _ _ _ _ HF 524288) as [(e0 & b0 & He0 & Hb0 & Hb1) _]; [by apply heap_page|].
  pose proof (HG r1 524288) as G1. rewrite decide_False, He0 in G1 by (intros [? _]; congruence).
  pose proof (HG r2 524288) as G2. rewrite decide_True, He0 in G2 by (split; [done|by apply heap_page]).
  destruct (R !! (r1, 524288)) as [e|] eqn:He; [|done]. destruct (R !! (r2, 524288)) as [e2|] eqn:He2; [|done].
  injection G1 as G1. injection G2 as G2. destruct (Hsame _ _ Hb0) as (b & Hb & Ep). rewrite Hb1 in Ep. rewrite <- G1 in Hb.
  exists s, T, B, R, r1, sp1, r2, e, b.
  split_and!; [done|done|by eapply uroot_mono|by eapply uroot_mono|done|done|exact He|exact Hb|exact Ep| |done].
  destruct (HS _ _ _ _ He (in_blk_head B _ _ Hb ltac:(lia))) as (Hc & H1 & _). destruct (bk_cow b); [done|].
  rewrite H1 in Hc by done. exfalso. apply H12. assert ((r2, 524288) = (r1, 524288)) as [=]; [|done].
  apply (cnt_unique R _ e _ e2); [done|done|congruence|done].
Qed.

Lemma fault_spec_witness :
  ∃ (s s' s2 : VSt Allocator) m r1 r2, dabt_handler m (2 * GB) s = Done (tt, s') ∧
    ustore s' r1 (2 * GB) 7 = Some s2 ∧ uload s2 r1 (2 * GB) = Some 7 ∧ uload s2 r2 (2 * GB) = uload s r2 (2 * GB).
Proof.
  destruct forked_heap as (s & T & B & R & r1 & sp1 & r2 & e & b & HU & HS & Hr1 & Hr2 & H12 & Rm & He & Hb & Ep & Hcow & _).
  pose proof (fault_spec s T ∅ B R (heap_mm r1 sp1) (brk_r (heap_mm r1 sp1)) r1 (2 * GB) e b HU HS eq_refl Hr1) as Hf.
  rewrite Hcow in Hf. destruct Hf as (s' & T' & B' & R' & E & _ & _ & _ & _ & Hst).
  - rewrite map_size_empty. lia.
  - by apply (room_drop _ 9 4).
  - done.
  - done.
  - done.
  - done.
  - exact He.
  - exact Hb.
  - exact Ep.
  - destruct (Hst 7) as (s2 & E2 & Hl & Hother). exists s, s', s2, (heap_mm r1 sp1), r1, r2. split_and!; [exact E|exact E2|exact Hl|].
    apply Hother; [exact Hr2|]. intros [? _]. congruence.
Defined.

(** A page for reading and writing; for reading only, the same call panics. *)
Lemma mmap_spec_witness :
  ∃ (s s' : VSt Allocator) m m', mmap 100 3 0x22 m s = Done ((GB, m'), s') ∧ mmap 100 1 0x22 m s = Fault FPanic ∧
    ∃ r, user_pt m = Some r ∧ uload s' r (GB + 8) = Some 0.
Proof.
  destruct two_tasks as (s & T & B & R & r1 & sp1 & r2 & sp2 & HU & HS & Hr1 & _ & _ & _ & _ & Hno & Hroom).
  assert (room (frames s) 8) as Hr8 by (apply (room_drop _ (gap + 12) 8); by rewrite <- Nat.add_assoc).
  assert (∀ i, 0 ≤ i < 1 → R !! (r1, 262144 + i) = None) as Hfree
    by (intros i Hi; apply Hno; change (vpn (8 * GB)) with 2097152; lia).
  destruct (mmap_spec s T ∅ B R (task_mm r1 sp1) r1 100 3 0x22 0 HU HS eq_refl Hr1)
    as (_ & s' & T' & B' & R' & E & _ & _ & _ & Hl); [rewrite map_size_empty; lia|done..|exact Hr8|exact Hfree|].
  assert (mmap 100 1 0x22 (task_mm r1 sp1) s = Fault FPanic) as E1.
  { apply (mmap_spec s T ∅ B R (task_mm r1 sp1) r1 100 1 0x22 0 HU HS eq_refl Hr1);
      [rewrite map_size_empty; lia|done..|exact Hr8|exact Hfree]. }
  eexists s, s', _, _. split; [exact E|]. split; [exact E1|]. exists r1. split; [done|].
  rewrite (Hl r1 _ Hr1), decide_True; [reflexivity|]. split; [reflexivity|]. split; vm_compute; congruence.
Defined.

(** ** The kernel stacks of the eight tasks *)

(** After the drivers have mapped their pages: eight are taken. *)
Lemma busy_kernel n :
  (n ≤ pm_gap + 64)%nat →
  ∃ (s : VSt Allocator) T G, KInv s T ∅ G ∧ room (frames s) n ∧
    (∀ i, 0 ≤ i < 8 → kbit s i = true) ∧ ∀ i, 8 ≤ i < 128 → kbit s i = false.
Proof.
  intros Hn. pose proof pm_gap_eq as Eg. destruct (tiny_kernel_room (24 + n)) as (s & T & G & HK & Hr & Hb); [lia|].
  destruct (map_run s T ∅ G 0x9000000 4 PR_PW (12 + n) HK) as [[_ Hno]|(j & s1 & T1 & G1 & _ & Hj & Hjn & Hc & Hmin & HK1 & _ & Hr1 & _ & Hb1 & _)];
    [lia|rewrite map_size_empty; lia|exact Hr|lia|lia| |].
  { exfalso. apply (Hno 0); [lia|lia|]. intros i Hi. apply Hb. lia. }
  assert (j = 0) as ->.
  { destruct (Z.le_gt_cases j 0) as [|Hgt]; [lia|]. exfalso. apply (Hmin 0); [lia|]. intros i Hi. apply Hb. lia. }
  assert (∀ i, 0 ≤ i < 128 → kbit s1 i = bool_decide (i < 4)) as Hk1.
  { intros i Hi. rewrite Hb1, (Hb i) by lia. rewrite orb_false_r. apply bool_decide_ext. lia. }
  destruct (map_run s1 T1 ∅ G1 0x9010000 4 PR_PW n HK1) as [[_ Hno]|(j & s2 & T2 & G2 & _ & Hj2 & Hjn2 & Hc2 & Hmin2 & HK2 & _ & Hr2 & _ & Hb2 & _)];
    [lia|rewrite map_size_empty; lia|exact Hr1|lia|lia| |].
  { exfalso. apply (Hno 4); [lia|lia|]. intros i Hi. change (kbit s1 i = false). rewrite Hk1 by lia. by apply bool_decide_eq_false_2; lia. }
  assert (j = 4) as ->.
  { destruct (Z.lt_trichotomy j 4) as [Hlt|[->|Hgt]]; [|done|].
    - specialize (Hc2 j ltac:(lia)). change (kbit s1 j = false) in Hc2. rewrite Hk1, bool_decide_eq_true_2 in Hc2 by lia. done.
    - exfalso. apply (Hmin2 4); [lia|]. intros i Hi. change (kbit s1 i = false). rewrite Hk1 by lia. by apply bool_decide_eq_false_2; lia. }
  exists s2, T2, G2. split_and!; [done|done|..]; intros i Hi; rewrite Hb2, Hk1 by lia.
  - destruct (decide (i < 4)); [rewrite (bool_decide_eq_true_2 (i < 4)) by lia; apply orb_true_r|by rewrite bool_decide_eq_true_2 by lia].
  - by rewrite !bool_decide_eq_false_2 by lia.
Qed.

Lemma sched_init_spec_witness :
  ∃ (s s' : VSt Allocator) sps, sched_init s = Done (sps, s') ∧ kbit s 7 = true ∧ sps !! 7%nat = Some (kpage s 22) ∧
    translate s' im_pt (kpage s 22) ≠ None.
Proof.
  destruct (busy_kernel (pm_gap + 64)) as (s & T & G & HK & Hr & Hset & Hclr); [lia|].
  destruct (pm_blocks_some _ _ (inv_owns _ _ _ _ (k_inv _ _ _ _ HK))) as (B & HB).
  pose proof (pm_blocks_single _ _ _ HB (inv_owns _ _ _ _ (k_inv _ _ _ _ HK))) as ->.
  destruct (sched_init_spec s T ∅ B 8) as (sps & ps & s' & T' & B' & E & _ & Hl & _ & Hlp & Hst & _).
  - by split.
  - rewrite map_size_empty. lia.
  - exact Hr.
  - lia.
  - lia.
  - exact Hset.
  - intros i Hi. apply Hclr. lia.
  - exists s, s', sps. split; [exact E|]. split; [apply Hset; lia|]. destruct (lookup_lt_is_Some_2 sps 7) as [sp Hsp]; [lia|].
    destruct (lookup_lt_is_Some_2 ps 7) as [q Hq]; [lia|]. destruct (Hst _ _ _ Hsp Hq) as (-> & _ & _ & Ht).
    change (8 + 2 * Z.of_nat 7) with 22 in *. split; [exact Hsp|]. specialize (Ht 0 ltac:(lia)).
    rewrite Z.mul_0_l, Z.add_0_r in Ht. rewrite Ht. discriminate.
Defined.
