(* ===== verification/TlbWit.v ===== *)
(** * The theorems on the TLB at work

    On the kernel that [init] leaves with the tree of one task, and on the two
    tasks of [UmemWit], with the page of heap in the TLB. *)
From S2P Require Import Prelude Stuff Pm PmInv PmRun PmSpec Vm VmInv VmTree VmRun VmFree VmPm VmSpec VmKern VmBoot VmWit.
From S2P Require Import Hoare Umem UmemInv UmemRun UmemSafe UmemOps UmemSpec UmemFork UmemPm UmemWit Tlb TlbSpec.

Local Open Scope Z_scope.
#[local] Existing Instance tiny_image.
#[local] Opaque pm_gap.

Section setup.
Lemma tiny_leaf k : 0x40000 ≤ k < 0x40004 → leaf_typed (kleaf (k * 4096)).
Proof.
  intros Hk. assert (k = 0x40000 ∨ k = 0x40001 ∨ k = 0x40002 ∨ k = 0x40003) as [->|[->|[->| ->]]] by lia;
    vm_compute; reflexivity.
Qed.

(** The kernel with one task, that runs, and an empty TLB. *)
Definition two_trees (r : Z) : gmap Z (Z * list Z) := <[r := (r, [])]> {[im_pt := (im_pt, [])]}.

Lemma tiny_mmu :
  ∃ (s : VSt Allocator) T G r, Mmu_ok (two_trees r) (s, Z.lor (wshl 64 1 48) r) T ∅ G [] ∧ r ≠ im_pt ∧ room (frames s) 88.
Proof.
  destruct tiny_Boot as (a & HB & Hr).
  destruct (init_run (tiny_boot a) tiny_G 0x40000000 0x40004000 89) as (s & T & G & _ & Rm & HK & _ & _ & _ & Ht);
    [lia|lia|exact HB|apply Hr; change (Z.to_nat _) with 4%nat; lia|].
  pose proof (k_inv _ _ _ _ HK) as HI. pose proof (k_root _ _ _ _ HK) as Hk. set (G0 := filter _ _) in HI.
  destruct (new_root_run s T ∅ G0 88 HI) as (r & s' & _ & Hn & HI' & Rm' & _ & Hw & Hz); [rewrite map_size_empty; lia|done|].
  assert (r ≠ im_pt) as Hne by (intros ->; by rewrite Hk in Hn).
  assert (<[r := (r, [])]> T !! r = Some (r, [])) as HrT by apply lookup_insert_eq.
  assert (Z.land (Z.lor (wshl 64 1 48) r) PHY_MASK = r) as Hrm.
  { destruct (Inv_frame _ _ _ _ _ _ HI' HrT) as [_ Hm]. by rewrite Z.land_lor_distr_l, asid_masked, Z.lor_0_l, Hm. }
  exists (set_tlb [] s'), (<[r := (r, [])]> T), (<[r := 1]> G0), r. split_and!; [|done|exact Rm'].
  split; simpl.
  - by apply Inv_tlb.
  - apply insert_mono. by apply map_singleton_subseteq_l.
  - unfold two_trees. by rewrite lookup_insert_ne, lookup_singleton_eq.
  - rewrite Hrm. split; [apply lookup_insert_eq|done].
  - intros t v Hin. by apply elem_of_nil in Hin.
  - intros r' v e Hr' Hnw. unfold two_trees in Hr'. rewrite lookup_insert in Hr'. case_decide as Hd.
    + subst r'. unfold translate, walk, child. change (word (set_tlb [] s')) with (word s').
      by rewrite (Hz (vaddr_l0 v) (l0_range v)).
    + apply lookup_singleton_Some in Hr' as [<- _]. change (translate (set_tlb [] s') im_pt v) with (translate s' im_pt v).
      rewrite (extends_translate s T s' (<[r := (r, [])]> T)); [|apply HI|apply HI'| |done|done].
      * rewrite Ht by done. case_decide as Hk'; [|done]. intros [= <-]. apply tiny_leaf.
        change (0x40000000 / 4096) with 0x40000 in Hk'. change (align_f 0x40004000 4096 / 4096) with 0x40004 in Hk'. done.
      * split; [by apply insert_subseteq|]. split.
        -- intros t r0 path i Ht0 Hi Hnw0 _. apply Hw; [congruence|done].
        -- intros t r0 path i Ht0 Ht1 Hl Hi. rewrite lookup_insert in Ht1. case_decide; [|congruence]. by injection Ht1 as <- <-.
  - intros t v Hin. by apply elem_of_nil in Hin.
Qed.

(** A page of the task is used, replaced and used again; a page of the kernel is
    mapped and unmapped; the page of the task is given other permissions, as
    [execv_inner] does it, and the task is switched to. *)
Definition tiny_ops (r : Z) : list mmu_op :=
  [OpMap r 0x1000 0x40100000 PR_PW_UR_UW1 false; OpFill 0x1000; OpMap r 0x1000 0x40200000 PR_UR true; OpFill 0x1000;
   OpMap im_pt (VOFFT + 0x50000000) 0x9000000 PR_PW false; OpFill (VOFFT + 0x50000000); OpUnmap im_pt (VOFFT + 0x50000000);
   OpAside 1; OpPerms r 0x1000 PR_UR_UX; OpFill 0x1000; OpSwitch 1 r; OpFill 0x1000; OpEvict 0].

Lemma tiny_ops_ok r : r ≠ im_pt → Forall (op_ok (two_trees r)) (tiny_ops r).
Proof.
  intros Hne. assert (two_trees r !! r = Some (r, []) ∧ two_trees r !! im_pt = Some (im_pt, [])) as [H1 H2].
  { unfold two_trees. rewrite lookup_insert_eq, lookup_insert_ne, lookup_singleton_eq by done. done. }
  assert (tree_for r 0x1000) as T1 by (split; [done|]; split; [intros H; vm_compute in H; discriminate|done]).
  assert (tree_for im_pt (VOFFT + 0x50000000)) as T2 by (split; [done|]; split; intros _; [done|vm_compute; reflexivity]).
  assert (¬ win_page im_pt (VOFFT + 0x50000000)) as N2 by (intros [_ Hp]; vm_compute in Hp; discriminate).
  assert (¬ win_page r 0x1000) as N1 by by apply user_not_win.
  repeat (apply Forall_cons; split;
    [first [done | split_and!; try done; first [vm_compute; reflexivity | unfold PERMS; repeat constructor]]|]).
  by apply Forall_nil.
Qed.
End setup.

Lemma tlb_coherent_witness :
  ∃ (c c' : VSt Allocator * Z) r, forM (tiny_ops r) mmu_run c = Done (tt, c') ∧
    ∀ t, t ∈ tlb c'.1 → hits (asid_of c'.2) 0x1000 t = true → hw_walk c'.1 c'.2 0x1000 = Some (te_ent t).
Proof.
  destruct tiny_mmu as (s & T & G & r & HM & Hne & Rm).
  destruct (tlb_coherent (two_trees r) _ T ∅ G (tiny_ops r) HM (tiny_ops_ok r Hne)) as (c' & E & Hc);
    [rewrite map_size_empty; lia|by apply (room_drop _ 49 39)|].
  eexists _, c', r. split; [exact E|]. intros t Ht Hh.
  destruct (Hc t 0x1000 Ht) as [Hw _]; [reflexivity|exact Hh|].
  destruct Hw as (e & Ew & _ & Hs); [intros [_ Hp]; vm_compute in Hp; discriminate Hp|].
  rewrite Ew. f_equal. apply Hs. apply not_elem_of_nil.
Defined.

(** ** Copy on write *)
Section heap.
(** The processor has used page [k] of the tree [r] in address space 1. *)
Definition used (v e : Z) (s : VSt Allocator) : VSt Allocator := set_tlb [fill_entry 1 v e] s.

Lemma used_coherent s T B R r e :
  UInv s T ∅ B R → uroot T r → R !! (r, vpn (2 * GB)) = Some e →
  let ttbr0 := Z.lor (wshl 64 1 48) r in
  Z.land ttbr0 PHY_MASK = r ∧ user_coherent (used (2 * GB) e s) ttbr0.
Proof.
  intros HU Hr He ttbr0. assert (Z.land ttbr0 PHY_MASK = r) as Hrt.
  { destruct (uroot_frame _ _ _ _ _ _ HU Hr) as [_ Hm]. unfold ttbr0. by rewrite Z.land_lor_distr_l, asid_masked, Z.lor_0_l, Hm. }
  split; [done|]. intros t v [->|Ht%elem_of_nil]%elem_of_cons Hv Hh; [|done].
  apply andb_true_iff in Hh as [Hh%Z.eqb_eq _]. simpl in Hh. destruct (user_addr v Hv) as (Hc & Hu & _).
  apply (page_same (2 * GB) v) in Hh as [_ Ev]; [|done..].
  unfold hw_walk, hw_root. rewrite Hu, Hrt. change (translate (used (2 * GB) e s) r v) with (translate s r v).
  rewrite (ui_map _ _ _ _ _ HU r v Hr), <- Ev. exact He.
Qed.
End heap.

Lemma fork_tlb_witness :
  ∃ (s s' : VSt Allocator) m1 m2 m t, tlb s = [t] ∧ te_page t = tlb_page (2 * GB) ∧ fork_mm 1 m1 m2 s = Done (m, s') ∧ t ∉ tlb s'.
Proof.
  destruct heap_task as (s & T & B & R & r1 & sp1 & r2 & sp2 & HU & HS & HF & _ & _).
  pose proof (fk_roots _ _ _ _ _ _ _ _ _ _ _ _ _ HF) as (Hr1 & _ & _).
  destruct (fk_pages _ _ _ _ _ _ _ _ _ _ _ _ _ HF 524288) as [(e & b & He & _) _]; [by apply heap_page|].
  destruct (used_coherent s T B R r1 e HU Hr1 He) as [Hrt Hc].
  destruct (fork_tlb (used (2 * GB) e s) T ∅ B R 1 (heap_mm r1 sp1) (task_mm r2 sp2) (heap_regions r1 sp1) r1 r2 sp1 sp2 (vpn (8 * GB)) (Z.lor (wshl 64 1 48) r1)
    (UInv_tlb _ _ _ _ _ _ HU) HS) as (m & s' & E & _ & Hg); [|exact Hrt|exact Hc|].
  - destruct HF. by split.
  - eexists (used (2 * GB) e s), s', _, _, m, _. split; [reflexivity|]. split; [reflexivity|]. split; [exact E|].
    intros Ht. apply (Hg _ (2 * GB) Ht); [split; vm_compute; congruence|by apply heap_page|reflexivity].
Defined.

Lemma fault_tlb_witness :
  ∃ (s s' : VSt Allocator) m ttbr0 t x, tlb s = [t] ∧ te_page t = tlb_page (2 * GB) ∧ dabt_handler m (2 * GB) s = Done (tt, s') ∧
    t ∉ tlb s' ∧ hw_walk s' ttbr0 (2 * GB) = Some x ∧ kwritable x = true.
Proof.
  destruct forked_heap as (s & T & B & R & r1 & sp1 & r2 & e & b & HU & HS & Hr1 & _ & _ & Rm & He & Hb & Hb1 & Hcow & _).
  destruct (used_coherent s T B R r1 e HU Hr1 He) as [Hrt Hc].
  destruct (fault_tlb (used (2 * GB) e s) T ∅ B R (heap_mm r1 sp1) (brk_r (heap_mm r1 sp1)) r1 (2 * GB) e (Z.lor (wshl 64 1 48) r1) b
    (UInv_tlb _ _ _ _ _ _ HU) HS eq_refl Hr1) as (s' & E & _ & Hg & x & Hx & Hw); try done.
  - rewrite map_size_empty. lia.
  - by apply (room_drop _ 9 4).
  - eexists (used (2 * GB) e s), s', _, _, _, x. split; [reflexivity|]. split; [reflexivity|]. split; [exact E|].
    split; [|by split]. intros Ht. by apply (Hg _ Ht).
Defined.
