(* ===== verification/Arch.v ===== *)
(** * [arch.rs] and the assembly of [trap.rs] and [sched.rs], as code

    A processor: the general registers, the stack pointer of the kernel, the
    program counter, the processor state, the system registers and memory by
    words of eight bytes.  The functions of [arch.rs] read and write one system
    register each; the assembly is a list of instructions, executed in order. *)
From S2P Require Import Prelude.

Local Open Scope Z_scope.

Inductive sysreg :=
  | NZCV | DAIF | CPACR_EL1 | CurrentEL | SPSel | ELR_EL1 | SPSR_EL1 | VBAR_EL1 | MAIR_EL1 | ESR_EL1 | SCTLR_EL1
  | TCR_EL1 | TPIDRRO_EL0 | TPIDR_EL0 | TTBR0_EL1 | TTBR1_EL1 | FAR_EL1 | SP_EL0
  | CNTFRQ_EL0 | CNTP_CTL_EL0 | CNTPCT_EL0 | CNTP_TVAL_EL0 | CNTP_CVAL_EL0.

#[export] Instance sysreg_eq_dec : EqDecision sysreg.
Proof. solve_decision. Defined.

(** [sp] is the stack pointer of EL1; that of EL0 is a system register. *)
Record Machine := mkMach {
  xs : list Z;
  sp : Z;
  pc : Z;
  pstate : Z;
  sysregs : sysreg → Z;
  kmem : gmap Z Z;
}.

Definition set_xs (l : list Z) (m : Machine) : Machine := mkMach l (sp m) (pc m) (pstate m) (sysregs m) (kmem m).
Definition set_sp (v : Z) (m : Machine) : Machine := mkMach (xs m) v (pc m) (pstate m) (sysregs m) (kmem m).
Definition set_pc (v : Z) (m : Machine) : Machine := mkMach (xs m) (sp m) v (pstate m) (sysregs m) (kmem m).
Definition set_pstate (v : Z) (m : Machine) : Machine := mkMach (xs m) (sp m) (pc m) v (sysregs m) (kmem m).
Definition set_sys (r : sysreg) (v : Z) (m : Machine) : Machine :=
  mkMach (xs m) (sp m) (pc m) (pstate m) (λ r', if decide (r' = r) then v else sysregs m r') (kmem m).
Definition set_kmem (w : gmap Z Z) (m : Machine) : Machine := mkMach (xs m) (sp m) (pc m) (pstate m) (sysregs m) w.

Definition AM := M Machine.

(** ** System registers *)
Definition mrs (r : sysreg) : AM Z := gets (λ m, sysregs m r).
Definition msr (r : sysreg) (v : Z) : AM unit := modify (set_sys r v).

Definition r_pstate_nzcv : AM Z := let! v := mrs NZCV in ret (Z.shiftr v 28).
Definition r_cpacr_el1 : AM Z := let! v := mrs CPACR_EL1 in ret (Z.shiftr v 28).
Definition w_cpacr_el1 (v : Z) : AM unit := msr CPACR_EL1 v.
Definition enable_fp : AM unit := let! cpacr := r_cpacr_el1 in w_cpacr_el1 (Z.lor cpacr (Z.shiftl 3 20)).
Definition r_pstate_cur_el : AM Z := let! v := mrs CurrentEL in ret (Z.shiftr v 2).
Definition r_pstate_sp_sel : AM Z := mrs SPSel.
Definition r_elr_el1 : AM Z := mrs ELR_EL1.
Definition w_elr_el1 (v : Z) : AM unit := msr ELR_EL1 v.
Definition r_spsr_el1 : AM Z := mrs SPSR_EL1.
Definition w_spsr_el1 (v : Z) : AM unit := msr SPSR_EL1 v.
Definition r_vbar_el1 : AM Z := mrs VBAR_EL1.
Definition w_vbar_el1 (v : Z) : AM unit := msr VBAR_EL1 v.
Definition w_mair_el1 (v : Z) : AM unit := msr MAIR_EL1 v.
Definition r_esr_el1 : AM Z := mrs ESR_EL1.
Definition r_sctlr_el1 : AM Z := mrs SCTLR_EL1.
Definition w_sctlr_el1 (v : Z) : AM unit := msr SCTLR_EL1 v.
Definition r_tcr_el1 : AM Z := mrs TCR_EL1.
Definition w_tcr_el1 (v : Z) : AM unit := msr TCR_EL1 v.
Definition r_tpidrro_el0 : AM Z := mrs TPIDRRO_EL0.
Definition w_tpidrro_el0 (v : Z) : AM unit := msr TPIDRRO_EL0 v.
Definition r_tpidr_el0 : AM Z := mrs TPIDR_EL0.
Definition w_tpidr_el0 (v : Z) : AM unit := msr TPIDR_EL0 v.
Definition r_ttbr0_el1 : AM Z := mrs TTBR0_EL1.
Definition w_ttbr0_el1 (v : Z) : AM unit := msr TTBR0_EL1 v.
Definition r_ttbr1_el1 : AM Z := mrs TTBR1_EL1.
Definition w_ttbr1_el1 (v : Z) : AM unit := msr TTBR1_EL1 v.
Definition r_far_el1 : AM Z := mrs FAR_EL1.
Definition r_sp : AM Z := gets sp.

(** [timer.rs]: the counter. *)
Definition r_freq : AM Z := mrs CNTFRQ_EL0.
Definition w_freq (v : Z) : AM unit := msr CNTFRQ_EL0 v.
Definition r_pctl_el0 : AM Z := mrs CNTP_CTL_EL0.
Definition w_pctl_el0 (v : Z) : AM unit := msr CNTP_CTL_EL0 v.
Definition r_pct_el0 : AM Z := mrs CNTPCT_EL0.
Definition r_ptval_el0 : AM Z := mrs CNTP_TVAL_EL0.
Definition w_ptval_el0 (v : Z) : AM unit := msr CNTP_TVAL_EL0 v.
Definition r_pcval_el0 : AM Z := mrs CNTP_CVAL_EL0.
Definition w_pcval_el0 (v : Z) : AM unit := msr CNTP_CVAL_EL0 v.

(** ** Instructions *)

(** The functions that assembly calls. *)
Inductive sym := sync_handler_sym | irq_handler_sym | main_sym.

Inductive instr :=
  | StpPre (a b : nat)       (* stp xa, xb, [sp, #-16]! *)
  | LdpPost (a b : nat)      (* ldp xa, xb, [sp], #16 *)
  | StpX (a b n : nat)       (* stp xa, xb, [xn], #16 *)
  | LdpX (a b n : nat)       (* ldp xa, xb, [xn], #16 *)
  | StrX (a n : nat)         (* str xa, [xn], #8 *)
  | LdrX (a n : nat)         (* ldr xa, [xn], #8 *)
  | MovFromSp (a : nat)      (* mov xa, sp *)
  | MovToSp (a : nat)        (* mov sp, xa *)
  | Mrs (a : nat) (r : sysreg)
  | Msr (r : sysreg) (a : nat)
  | LdrLit (a : nat) (v : Z)     (* ldr xa, =v *)
  | MovImm (a : nat) (v : Z)     (* mov xa, #v *)
  | OrrImm (a b : nat) (v : Z)   (* orr xa, xb, #v *)
  | StrOff (a n : nat) (off : Z) (* str xa, [xn, #off] *)
  | Barrier                      (* dsb sy, isb sy *)
  | Bl (f : sym)
  | Ret
  | Eret
  | Wfi.                         (* 1: wfi; b 1b *)

Definition xget (a : nat) : AM Z := let! m := get in match xs m !! a with Some v => ret v | None => fail FUB end.
Definition xset (a : nat) (v : Z) : AM unit := modify (λ m, set_xs (<[a := v]> (xs m)) m).

(** A load or store of the kernel outside of its memory aborts. *)
Definition load (a : Z) : AM Z := let! m := get in match kmem m !! a with Some v => ret v | None => fail FUB end.
Definition store (a v : Z) : AM unit := load a ;;; modify (λ m, set_kmem (<[a := v]> (kmem m)) m).

Section exec.
(** What a call does until it comes back. *)
Context (call : sym → AM unit).

Definition exec (i : instr) : AM unit :=
  match i with
  | StpPre a b =>
      let! va := xget a in let! vb := xget b in
      let! m := get in
      let p := sp m -! 16 in
      store p va ;;; store (p +! 8) vb ;;;
      modify (set_sp p)
  | LdpPost a b =>
      let! m := get in
      let! va := load (sp m) in let! vb := load (sp m +! 8) in
      xset a va ;;; xset b vb ;;;
      modify (set_sp (sp m +! 16))
  | StpX a b n =>
      let! va := xget a in let! vb := xget b in let! p := xget n in
      store p va ;;; store (p +! 8) vb ;;;
      xset n (p +! 16)
  | LdpX a b n =>
      let! p := xget n in
      let! va := load p in let! vb := load (p +! 8) in
      xset a va ;;; xset b vb ;;;
      xset n (p +! 16)
  | StrX a n => let! va := xget a in let! p := xget n in store p va ;;; xset n (p +! 8)
  | LdrX a n => let! p := xget n in let! va := load p in xset a va ;;; xset n (p +! 8)
  | MovFromSp a => let! m := get in xset a (sp m)
  | MovToSp a => let! v := xget a in modify (set_sp v)
  | Mrs a r => let! v := mrs r in xset a v
  | Msr r a => let! v := xget a in msr r v
  | LdrLit a v | MovImm a v => xset a v
  | OrrImm a b v => let! x := xget b in xset a (Z.lor x v)
  | StrOff a n off => let! va := xget a in let! p := xget n in store (p +! off) va
  | Barrier => ret tt
  | Bl f => call f
  | Ret => let! v := xget 30 in modify (set_pc v)
  | Eret =>
      let! e := mrs ELR_EL1 in let! s := mrs SPSR_EL1 in
      modify (λ m, set_pstate s (set_pc e m))
  | Wfi => fail FFuel
  end.

Definition run (l : list instr) : AM unit := forM l exec.
End exec.

(** ** The assembly of [main.rs]

    The tables and the symbols the linker places; [main] is called with the
    bounds of the kernel image. *)
Class BootSyms := {
  l0_id : Z; l0_h : Z; l1_id0 : Z; l1_h0 : Z;
  sym_boot_stack : Z; sym_trap_vec : Z; sym_kernel_begin : Z; sym_kernel_end : Z;
}.

Definition _start {bs : BootSyms} : list instr :=
  [LdrLit 0 0x5b0103210; Msr TCR_EL1 0; LdrLit 0 l0_id; Msr TTBR0_EL1 0; LdrLit 1 l0_h; Msr TTBR1_EL1 1;
   LdrLit 2 l1_id0; LdrLit 3 0x40000401; StrOff 3 2 8; OrrImm 2 2 3; StrOff 2 0 0;
   LdrLit 2 l1_h0; StrOff 3 2 8; OrrImm 2 2 3; StrOff 2 1 0;
   MovImm 0 0xff; Msr MAIR_EL1 0; Barrier; Barrier;
   Mrs 0 SCTLR_EL1; OrrImm 0 0 1; Msr SCTLR_EL1 0; Barrier;
   LdrLit 0 sym_boot_stack; MovToSp 0; LdrLit 0 sym_trap_vec; Msr VBAR_EL1 0;
   LdrLit 0 sym_kernel_begin; LdrLit 1 sym_kernel_end; Bl main_sym; Wfi].

(** ** The assembly of [sched.rs] *)
Definition switch : list instr :=
  [StpX 19 18 0; StpX 21 20 0; StpX 23 22 0; StpX 25 24 0; StpX 27 26 0; StpX 29 28 0;
   MovFromSp 2; StpX 2 30 0; Mrs 2 TPIDR_EL0; StrX 2 0;
   LdpX 19 18 1; LdpX 21 20 1; LdpX 23 22 1; LdpX 25 24 1; LdpX 27 26 1; LdpX 29 28 1;
   LdpX 2 30 1; MovToSp 2; LdrX 2 1; Msr TPIDR_EL0 2; Ret].

(** The end of [forkret], after [mov sp, trapframe]. *)
Definition forkret_asm : list instr :=
  [LdpPost 0 1; Msr ELR_EL1 0; Msr SP_EL0 1; LdpPost 1 0; Msr SPSR_EL1 1;
   LdpPost 1 2; LdpPost 3 4; LdpPost 5 6; LdpPost 7 8; LdpPost 9 10; LdpPost 11 12; LdpPost 13 14; LdpPost 15 16;
   LdpPost 17 18; LdpPost 19 20; LdpPost 21 22; LdpPost 23 24; LdpPost 25 26; LdpPost 27 28; LdpPost 29 30; Eret].

(** ** The assembly of [trap.rs] *)
Definition trap_asm (f : sym) : list instr :=
  [StpPre 29 30; StpPre 27 28; StpPre 25 26; StpPre 23 24; StpPre 21 22; StpPre 19 20; StpPre 17 18; StpPre 15 16;
   StpPre 13 14; StpPre 11 12; StpPre 9 10; StpPre 7 8; StpPre 5 6; StpPre 3 4; StpPre 1 2;
   Mrs 1 SPSR_EL1; StpPre 1 0; Mrs 0 ELR_EL1; Mrs 1 SP_EL0; StpPre 0 1; MovFromSp 0; Bl f;
   LdpPost 0 1; Msr ELR_EL1 0; Msr SP_EL0 1; LdpPost 1 0; Msr SPSR_EL1 1;
   LdpPost 1 2; LdpPost 3 4; LdpPost 5 6; LdpPost 7 8; LdpPost 9 10; LdpPost 11 12; LdpPost 13 14; LdpPost 15 16;
   LdpPost 17 18; LdpPost 19 20; LdpPost 21 22; LdpPost 23 24; LdpPost 25 26; LdpPost 27 28; LdpPost 29 30; Eret].

Definition _sync_handler : list instr := trap_asm sync_handler_sym.
Definition _irq_handler : list instr := trap_asm irq_handler_sym.

(** The vector table: [b h], [.rep n nop], [.align k]. *)
Inductive vec_item := VB (h : option sym) | VNop (n : Z) | VAlign (k : Z).

Definition trap_vector : list vec_item :=
  [VB (Some sync_handler_sym); VNop 31; VB (Some irq_handler_sym); VNop 31; VB None; VNop 31; VB None; VAlign 8;
   VB (Some sync_handler_sym); VNop 31; VB (Some irq_handler_sym); VNop 31; VB None; VNop 31; VB None].

(** The branch found at [off]; [link.ld] puts the code 0x200 bytes into the table. *)
Fixpoint vec_at (l : list vec_item) (pos off : Z) : option (option sym) :=
  match l with
  | [] => None
  | VB h :: l' => if off =? pos then Some h else vec_at l' (pos + 4) off
  | VNop n :: l' => vec_at l' (pos + 4 * n) off
  | VAlign k :: l' => vec_at l' ((pos + 2 ^ k - 1) / 2 ^ k * 2 ^ k) off
  end.

(** The architecture: where an exception goes, by the level it comes from (the
    kernel runs on its own stack pointer) and by its kind. *)
Inductive exc := ESync | EIrq | EFiq | ESError.

Definition vec_off (from_el0 : bool) (e : exc) : Z :=
  (if from_el0 then 0x400 else 0x200) +
  match e with ESync => 0 | EIrq => 0x80 | EFiq => 0x100 | ESError => 0x180 end.

Definition el (ps : Z) : Z := Z.land (Z.shiftr ps 2) 3.

(** PSTATE on entry: EL1 with its own stack, everything masked. *)
Definition EL1_MASKED : Z := 0x3c5.

Definition take_exception (e : exc) : AM unit :=
  let! m := get in
  msr ELR_EL1 (pc m) ;;; msr SPSR_EL1 (pstate m) ;;;
  modify (λ m, set_pstate EL1_MASKED (set_pc (sysregs m VBAR_EL1 + vec_off (el (pstate m) =? 0) e) m)).

(** An exception and the code at its vector; [_other_handler] waits for ever. *)
Definition trap (call : sym → AM unit) (e : exc) : AM unit :=
  let! m := get in
  let off := vec_off (el (pstate m) =? 0) e in
  take_exception e ;;;
  match vec_at trap_vector 0x200 off with
  | Some (Some f) => run call (trap_asm f)
  | Some None => fail FFuel
  | None => fail FUB
  end.
