(* ===== verification/Gic.v ===== *)
(** * [trap.rs]: the interrupt controller

    The driver of the controller reads and writes registers at two base
    addresses.  The controller is not part of the program: [Gic] is what the
    driver does with it, in any state that has a way to reach it. *)
From S2P Require Import Prelude.

Local Open Scope Z_scope.

Class Gic (S : Type) := {
  gic_read : Z → M S Z;
  gic_write : Z → Z → M S unit;
  gic_dist : S → Z;
  gic_cpu : S → Z;
}.

Section gic.
Context {S : Type} {gic : Gic S}.

Definition gic_enable : M S unit :=
  let! c := gets gic_cpu in gic_write (c +! 4) 0xff ;;;
  let! d := gets gic_dist in gic_write d 1 ;;;
  let! c := gets gic_cpu in gic_write c 1.

Definition gic_ack : M S Z := let! c := gets gic_cpu in gic_read (c +! 0xc).
Definition gic_eoi (idx : Z) : M S unit := let! c := gets gic_cpu in gic_write (c +! 0x10) idx.

(** [base + off], a row of words with a bit for each interrupt. *)
Definition gic_set_bit (off idx : Z) : M S unit :=
  let! d := gets gic_dist in
  let r := d +! off +! 4 * (idx / 32) in
  let! v := gic_read r in
  gic_write r (Z.lor v (wshl 32 1 (idx mod 32))).

Definition gic_enable_intr (idx : Z) : M S unit := gic_set_bit 0x100 idx.
Definition gic_disable_intr (idx : Z) : M S unit := gic_set_bit 0x180 idx.
End gic.
