(* ===== verification/Trap.v ===== *)
(** * [trap.rs]: entering and leaving the kernel

    The trap frame, what the entry code stores in it and the exit code loads
    from it; the context switch of [sched.rs]; how a new task reaches user
    mode. *)
From S2P Require Import Prelude Arch.

Local Open Scope Z_scope.

(** ** [Frame] *)
Record Frame := mkFrame { f_pc : Z; f_sp_el0 : Z; f_pstate : Z; f_regs : list Z }.

Definition frame_zero (f : Frame) : Frame := mkFrame 0 0 0 (replicate (length (f_regs f)) 0).
Definition frame_el (f : Frame) : Z := el (f_pstate f).

(** As [repr(C)] lays it out. *)
Definition frame_words (f : Frame) : list Z := [f_pc f; f_sp_el0 f; f_pstate f] ++ f_regs f.
Definition FRAME_SIZE : Z := 272.

(** [ws] at address [a]. *)
Definition words_at (w : gmap Z Z) (a : Z) (ws : list Z) : Prop :=
  ∀ i v, ws !! i = Some v → w !! (a + 8 * Z.of_nat i) = Some v.

(** [n] words from [a] on that are memory. *)
Definition mapped (w : gmap Z Z) (a : Z) (n : nat) : Prop := ∀ i, (i < n)%nat → is_Some (w !! (a + 8 * Z.of_nat i)).

Definition frame_at (m : Machine) (a : Z) (f : Frame) : Prop := words_at (kmem m) a (frame_words f).

(** What a task leaves behind when an exception is taken. *)
Definition frame_of (m : Machine) : Frame := mkFrame (pc m) (sysregs m SP_EL0) (pstate m) (xs m).

(** ** [Task::init_user]: the frame and the context of a new task *)
Definition STACKSIZE : Z := 4096 * 2.
Definition tf_ptr (sp_el1 : Z) : Z := sp_el1 + STACKSIZE - FRAME_SIZE.
Definition init_ctx (forkret sp_el1 : Z) (ctx : list Z) : list Z :=
  <[13%nat := forkret]> (<[12%nat := tf_ptr sp_el1]> ctx).

(** The registers [switch] keeps, in the order of [ctx]. *)
Definition ctx_of (m : Machine) : list Z :=
  let x i := xs m !!! i in
  [x 19%nat; x 18%nat; x 21%nat; x 20%nat; x 23%nat; x 22%nat; x 25%nat; x 24%nat; x 27%nat; x 26%nat; x 29%nat; x 28%nat;
   sp m; x 30%nat; sysregs m TPIDR_EL0].

(** ** [forkret], from [mov sp, trapframe] on *)
Definition forkret_exit (call : sym → AM unit) (trapframe : Z) : AM unit :=
  modify (set_sp trapframe) ;;; run call forkret_asm.

(** ** Lists of words *)
Section words.
Implicit Types (w : gmap Z Z) (a : Z) (ws : list Z).

Lemma words_at_app w a u v : words_at w a (u ++ v) ↔ words_at w a u ∧ words_at w (a + 8 * Z.of_nat (length u)) v.
Proof.
  split.
  - intros H. split; intros i x Hi.
    + apply H. by apply lookup_app_l_Some.
    + replace (a + _ + _) with (a + 8 * Z.of_nat (length u + i)) by lia. apply H. rewrite lookup_app_r by lia.
      by replace (length u + i - length u)%nat with i by lia.
  - intros [Hu Hv] i x [Hi|[Hl Hi]]%lookup_app_Some; [by apply Hu|].
    replace (a + 8 * Z.of_nat i) with (a + 8 * Z.of_nat (length u) + 8 * Z.of_nat (i - length u)) by lia. by apply Hv.
Qed.

Lemma words_at_cons w a x ws : words_at w a (x :: ws) ↔ w !! a = Some x ∧ words_at w (a + 8) ws.
Proof.
  change (x :: ws) with ([x] ++ ws). rewrite words_at_app. simpl. split; intros [H1 H2]; split; try done.
  - rewrite <- (H1 0%nat x eq_refl). f_equal. lia.
  - intros [|i] y Hy; [|done]. injection Hy as <-. rewrite <- H1. f_equal. lia.
Qed.

Lemma words_at_nil w a : words_at w a [].
Proof. by intros i v. Qed.

Lemma words_at_insert w a ws b v :
  words_at w a ws → b < a ∨ a + 8 * Z.of_nat (length ws) ≤ b → words_at (<[b := v]> w) a ws.
Proof.
  intros H Hb i x Hi. pose proof (lookup_lt_Some _ _ _ Hi). rewrite lookup_insert_ne by lia. by apply H.
Qed.

Lemma lookup_insert_eq_z w a b v : a = b → <[a := v]> w !! b = Some v.
Proof. intros ->. apply lookup_insert_eq. Qed.

Lemma mapped_cons w a n : mapped w a (S n) ↔ is_Some (w !! a) ∧ mapped w (a + 8) n.
Proof.
  split.
  - intros H. split; [|intros i Hi].
    + specialize (H 0%nat ltac:(lia)). by rewrite Z.add_0_r in H.
    + replace (a + 8 + 8 * Z.of_nat i) with (a + 8 * Z.of_nat (S i)) by lia. apply H. lia.
  - intros [H1 H2] [|i] Hi; [by rewrite Z.add_0_r|].
    replace (a + 8 * Z.of_nat (S i)) with (a + 8 + 8 * Z.of_nat i) by lia. apply H2. lia.
Qed.

Lemma mapped_insert w a n b v : mapped w a n → mapped (<[b := v]> w) a n.
Proof. intros H i Hi. destruct (decide (b = a + 8 * Z.of_nat i)) as [->|Hne]; [by rewrite lookup_insert_eq; eauto|]. rewrite lookup_insert_ne by done. by apply H. Qed.

Lemma words_mapped w a ws : words_at w a ws → mapped w a (length ws).
Proof. intros H i Hi. destruct (lookup_lt_is_Some_2 _ _ Hi) as [v Hv]. rewrite (H i v Hv). eauto. Qed.
End words.

(** ** Runs of pushes and pops *)
Section runs.
Context (call : sym → AM unit).
Implicit Types (m : Machine) (ps : list (nat * nat)).

Lemma run_app l1 l2 m m' : run call l1 m = Done (tt, m') → run call (l1 ++ l2) m = run call l2 m'.
Proof. apply forM_app. Qed.

Lemma run_cons i l m m' : exec call i m = Done (tt, m') → run call (i :: l) m = run call l m'.
Proof. apply forM_cons. Qed.

Fixpoint popped ps (ws x : list Z) : list Z :=
  match ps, ws with
  | (a, b) :: ps', va :: vb :: ws' => popped ps' ws' (<[b := vb]> (<[a := va]> x))
  | _, _ => x
  end.

Lemma ldp_run m a b va vb ws :
  words_at (kmem m) (sp m) (va :: vb :: ws) → 0 ≤ sp m → sp m + 16 < 2 ^ 64 →
  exec call (LdpPost a b) m = Done (tt, set_sp (sp m + 16) (set_xs (<[b := vb]> (<[a := va]> (xs m))) m)).
Proof.
  intros [H1 [H2 _]%words_at_cons]%words_at_cons H0 Hm. simpl. unfold load, xset, bind, get, modify, ret. cbv beta iota.
  rewrite H1. rewrite !wadd_small by lia. rewrite H2. done.
Qed.

Lemma pops_run ps : ∀ ws m,
  length ws = (2 * length ps)%nat → words_at (kmem m) (sp m) ws → 0 ≤ sp m → sp m + 16 * Z.of_nat (length ps) < 2 ^ 64 →
  run call (uncurry LdpPost <$> ps) m =
    Done (tt, set_sp (sp m + 16 * Z.of_nat (length ps)) (set_xs (popped ps ws (xs m)) m)).
Proof.
  induction ps as [|[a b] ps IH]; intros ws m Hl Hw H0 Hm.
  - destruct m. unfold run. simpl. unfold set_sp, set_xs. simpl. by rewrite Z.add_0_r.
  - destruct ws as [|va [|vb ws]]; [simpl in Hl; lia..|]. cbn [fmap list_fmap uncurry].
    rewrite (run_cons _ _ _ _ (ldp_run m a b va vb ws Hw H0 ltac:(simpl in Hm; lia))).
    apply words_at_cons in Hw as [_ [_ Hw]%words_at_cons].
    rewrite (IH ws); [|simpl in Hl; lia| |simpl; lia|simpl in *; lia].
    + cbn [popped]. unfold set_sp, set_xs. simpl. do 3 f_equal. lia.
    + simpl. by replace (sp m + 16) with (sp m + 8 + 8) by lia.
Qed.

(** The words that pushes leave, lowest address first. *)
Fixpoint pushed ps (x : list Z) : list Z :=
  match ps with [] => [] | (a, b) :: ps' => pushed ps' x ++ [x !!! a; x !!! b] end.

Lemma length_pushed ps x : length (pushed ps x) = (2 * length ps)%nat.
Proof. induction ps as [|[a b] ps IH]; [done|]. simpl. rewrite length_app, IH. simpl. lia. Qed.

Lemma xget_run m a : (a < length (xs m))%nat → xget a m = Done (xs m !!! a, m).
Proof. intros Ha. unfold xget, bind, get. rewrite list_lookup_lookup_total_lt by done. done. Qed.

Lemma store_run m a v : is_Some (kmem m !! a) → store a v m = Done (tt, set_kmem (<[a := v]> (kmem m)) m).
Proof. intros [y Hy]. unfold store, load, bind, get, ret, modify. by rewrite Hy. Qed.

Lemma stp_run m a b :
  (a < length (xs m))%nat → (b < length (xs m))%nat → 16 ≤ sp m < 2 ^ 64 → mapped (kmem m) (sp m - 16) 2 →
  exec call (StpPre a b) m =
    Done (tt, set_sp (sp m - 16) (set_kmem (<[sp m - 8 := xs m !!! b]> (<[sp m - 16 := xs m !!! a]> (kmem m))) m)).
Proof.
  intros Ha Hb Hs [M1 [M2 _]%mapped_cons]%mapped_cons. simpl. unfold bind at 1. rewrite xget_run by done.
  unfold bind at 1. rewrite xget_run by done. mstep. rewrite wsub_small by lia.
  rewrite (bind_Done _ _ _ _ _ (store_run m _ _ M1)). rewrite wadd_small by lia.
  assert (is_Some (kmem (set_kmem (<[sp m - 16 := xs m !!! a]> (kmem m)) m) !! (sp m - 16 + 8))) as M2'.
  { simpl. by rewrite lookup_insert_ne by lia. }
  rewrite (bind_Done _ _ _ _ _ (store_run _ _ _ M2')). unfold modify, set_kmem, set_sp. simpl.
  by replace (sp m - 16 + 8) with (sp m - 8) by lia.
Qed.

Lemma pushes_run ps : ∀ m,
  Forall (λ p, (p.1 < length (xs m))%nat ∧ (p.2 < length (xs m))%nat) ps →
  16 * Z.of_nat (length ps) ≤ sp m < 2 ^ 64 → mapped (kmem m) (sp m - 16 * Z.of_nat (length ps)) (2 * length ps) →
  ∃ w, run call (uncurry StpPre <$> ps) m = Done (tt, set_sp (sp m - 16 * Z.of_nat (length ps)) (set_kmem w m)) ∧
    words_at w (sp m - 16 * Z.of_nat (length ps)) (pushed ps (xs m)) ∧
    ∀ b, b < sp m - 16 * Z.of_nat (length ps) ∨ sp m ≤ b → w !! b = kmem m !! b.
Proof.
  induction ps as [|[a b] ps IH]; intros m Hf Hs Hm.
  - exists (kmem m). split_and!; [|apply words_at_nil|done]. destruct m. simpl. unfold set_sp, set_kmem. simpl.
    replace (sp - _) with sp by lia. done.
  - apply Forall_cons in Hf as [[Ha Hb] Hf]. cbn [length] in *.
    assert (mapped (kmem m) (sp m - 16) 2) as M2.
    { intros i Hi. specialize (Hm (2 * length ps + i)%nat ltac:(lia)).
      replace (sp m - 16 + 8 * Z.of_nat i) with (sp m - 16 * Z.of_nat (S (length ps)) + 8 * Z.of_nat (2 * length ps + i)) by lia. done. }
    cbn [fmap list_fmap uncurry]. rewrite (run_cons _ _ _ _ (stp_run m a b Ha Hb ltac:(lia) M2)).
    match goal with |- context [run call _ ?m1] => set (m1' := m1) in * end.
    destruct (IH m1') as (w & E & Hw & Ho); [done|simpl; lia| |].
    { simpl. do 2 apply mapped_insert. replace (sp m - 16 - 16 * Z.of_nat (length ps)) with (sp m - 16 * Z.of_nat (S (length ps))) by lia.
      intros i Hi. apply Hm. lia. }
    exists w. split_and!.
    + etrans; [exact E|]. unfold m1', set_sp, set_kmem. simpl. do 3 f_equal. lia.
    + cbn [pushed]. apply words_at_app. rewrite length_pushed. split.
      * replace (sp m - 16 * Z.of_nat (S (length ps))) with (sp m1' - 16 * Z.of_nat (length ps)) by (simpl; lia). exact Hw.
      * replace (_ + _) with (sp m - 16) by lia. rewrite !words_at_cons, !Ho by (simpl; lia). simpl. split_and!; [| |apply words_at_nil].
        -- rewrite lookup_insert_ne, lookup_insert_eq by lia. done.
        -- replace (sp m - 16 + 8) with (sp m - 8) by lia. by rewrite lookup_insert_eq.
    + intros c Hc. rewrite Ho by (simpl; lia). simpl. rewrite !lookup_insert_ne by lia. done.
Qed.
End runs.

(** A list of known length as its elements. *)
Ltac explicit l H := repeat (destruct l as [|? l]; [discriminate H|simpl in H; apply Nat.succ_inj in H]);
  destruct l; [clear H|discriminate H].

Definition pairs_up : list (nat * nat) :=
  [(1, 2); (3, 4); (5, 6); (7, 8); (9, 10); (11, 12); (13, 14); (15, 16); (17, 18); (19, 20); (21, 22); (23, 24); (25, 26);
   (27, 28); (29, 30)]%nat.

Section frames.
Context (call : sym → AM unit).
Implicit Types (m : Machine) (f : Frame).

(** The exit code: the machine is what the frame says. *)
Lemma restore_run m f :
  length (xs m) = 31%nat → length (f_regs f) = 31%nat → frame_at m (sp m) f → 0 ≤ sp m → sp m + FRAME_SIZE < 2 ^ 64 →
  ∃ m', run call forkret_asm m = Done (tt, m') ∧ xs m' = f_regs f ∧ sp m' = sp m + FRAME_SIZE ∧ pc m' = f_pc f ∧
    pstate m' = f_pstate f ∧ kmem m' = kmem m ∧
    ∀ r, sysregs m' r = match r with ELR_EL1 => f_pc f | SPSR_EL1 => f_pstate f | SP_EL0 => f_sp_el0 f | _ => sysregs m r end.
Proof.
  unfold frame_at, FRAME_SIZE. destruct m as [x s p ps sr w], f as [fpc fsp fps fr]. simpl. intros Hx Hr Hw H0 Hm.
  explicit x Hx. explicit fr Hr. unfold frame_words in Hw. simpl in Hw.
  change forkret_asm with ([LdpPost 0 1; Msr ELR_EL1 0; Msr SP_EL0 1; LdpPost 1 0; Msr SPSR_EL1 1] ++ (uncurry LdpPost <$> pairs_up) ++ [Eret]).
  cbn [app]. rewrite (run_cons _ _ _ _ _ (ldp_run call (mkMach _ _ _ _ _ _) 0 1 _ _ _ Hw H0 ltac:(simpl; lia))).
  apply words_at_cons in Hw as [_ [_ Hw]%words_at_cons]. replace (s + 8 + 8) with (s + 16) in Hw by lia.
  erewrite run_cons by (simpl; reflexivity). erewrite run_cons by (simpl; reflexivity).
  erewrite run_cons by (eapply ldp_run; [simpl; exact Hw|simpl; lia..]).
  apply words_at_cons in Hw as [_ [_ Hw]%words_at_cons]. replace (s + 16 + 8 + 8) with (s + 32) in Hw by lia.
  erewrite run_cons by (simpl; reflexivity).
  erewrite run_app; cycle 1.
  { refine (pops_run call pairs_up _ _ _ _ _ _); [|simpl; replace (s + 16 + 16) with (s + 32) by lia; exact Hw|simpl; lia..]. reflexivity. }
  eexists. split; [simpl; reflexivity|]. cbn -[Z.add]. split_and!; [done|lia|done..|]. by intros [].
Qed.

Definition pairs_down : list (nat * nat) := (λ p, p) <$> reverse pairs_up.

(** The entry code: the frame holds the machine. *)
Lemma save_run m f0 l :
  length (xs m) = 31%nat → FRAME_SIZE ≤ sp m < 2 ^ 64 → mapped (kmem m) (sp m - FRAME_SIZE) 34 →
  f0 = mkFrame (sysregs m ELR_EL1) (sysregs m SP_EL0) (sysregs m SPSR_EL1) (xs m) →
  ∃ m', run call (take 21 (trap_asm sync_handler_sym) ++ l) m = run call l m' ∧ length (xs m') = 31%nat ∧
    xs m' !!! 0%nat = sp m' ∧ sp m' = sp m - FRAME_SIZE ∧ frame_at m' (sp m') f0 ∧ sysregs m' = sysregs m ∧
    ∀ b, b < sp m - FRAME_SIZE ∨ sp m ≤ b → kmem m' !! b = kmem m !! b.
Proof.
  unfold FRAME_SIZE. intros Hx Hs Hm ->.
  change (take 21 (trap_asm sync_handler_sym)) with
    ((uncurry StpPre <$> pairs_down) ++ [Mrs 1 SPSR_EL1; StpPre 1 0; Mrs 0 ELR_EL1; Mrs 1 SP_EL0; StpPre 0 1; MovFromSp 0]).
  rewrite <- app_assoc.
  destruct (pushes_run call pairs_down m) as (w & E1 & W1 & O1); [|change (16 * Z.of_nat (length pairs_down)) with 240; lia| |].
  { rewrite Hx. repeat (apply Forall_cons; split; [simpl; lia|]). by apply Forall_nil. }
  { intros i Hi. change (2 * length pairs_down)%nat with 30%nat in Hi. specialize (Hm (i + 4)%nat ltac:(lia)). change (16 * Z.of_nat (length pairs_down)) with 240.
    replace (sp m - 240 + 8 * Z.of_nat i) with (sp m - 272 + 8 * Z.of_nat (i + 4)) by lia. done. }
  rewrite (run_app _ _ _ _ _ E1). change (16 * Z.of_nat (length pairs_down)) with 240 in *. cbn [app].
  assert (mapped w (sp m - 272) 4) as M4.
  { intros i Hi. rewrite O1 by lia. apply Hm. lia. }
  erewrite run_cons by (simpl; reflexivity).
  erewrite run_cons; cycle 1.
  { apply stp_run; [simpl; rewrite length_insert; lia..|simpl; lia|]. simpl. intros i Hi. specialize (M4 (2 + i)%nat ltac:(lia)).
    replace (sp m - 240 - 16 + 8 * Z.of_nat i) with (sp m - 272 + 8 * Z.of_nat (2 + i)) by lia. done. }
  erewrite run_cons by (simpl; reflexivity). erewrite run_cons by (simpl; reflexivity).
  erewrite run_cons; cycle 1.
  { apply stp_run; [simpl; rewrite !length_insert; lia..|simpl; lia|]. simpl. do 2 apply mapped_insert. intros i Hi.
    specialize (M4 i ltac:(lia)). by replace (sp m - 240 - 16 - 16 + 8 * Z.of_nat i) with (sp m - 272 + 8 * Z.of_nat i) by lia. }
  erewrite run_cons by (simpl; reflexivity).
  eexists. split; [reflexivity|]. destruct m as [x s p ps sr w0]. simpl in *. explicit x Hx.
  split_and!; [done|done|lia| |done|].
  - unfold frame_at. simpl kmem. simpl sp. replace (s - 240 - 16 - 16) with (s - 272) by lia.
    match type of W1 with words_at _ _ ?ws => match goal with |- words_at _ _ (frame_words ?f) =>
      change (frame_words f) with ([f_pc f; f_sp_el0 f; f_pstate f; f_regs f !!! 0%nat] ++ ws) end end.
    apply words_at_app. split; [|replace (s - 272 + _) with (s - 240) by (simpl; lia)].
    + rewrite !words_at_cons. simpl. split_and!; [..|apply words_at_nil];
        repeat first [rewrite lookup_insert_eq_z by lia; done|rewrite lookup_insert_ne by lia].
    + do 4 (apply words_at_insert; [|lia]). exact W1.
  - intros b Hb. simpl. rewrite !lookup_insert_ne by lia. apply O1. lia.
Qed.
End frames.

(** ** The context switch *)

(** [ws] written from [a] on. *)
Fixpoint wr (a : Z) (ws : list Z) (w : gmap Z Z) : gmap Z Z :=
  match ws with [] => w | v :: ws' => wr (a + 8) ws' (<[a := v]> w) end.

Definition flat (ps : list (nat * nat)) (x : list Z) : list Z := flat_map (λ p, [x !!! p.1; x !!! p.2]) ps.

Definition ctx_pairs : list (nat * nat) := [(19, 18); (21, 20); (23, 22); (25, 24); (27, 26); (29, 28)]%nat.

Section switch.
Context (call : sym → AM unit).
Implicit Types (m : Machine) (w : gmap Z Z) (ps : list (nat * nat)).

Lemma wr_out ws : ∀ a w c, c < a ∨ a + 8 * Z.of_nat (length ws) ≤ c → wr a ws w !! c = w !! c.
Proof.
  induction ws as [|v ws IH]; intros a w c Hc; [done|]. simpl in *. rewrite IH by lia. by rewrite lookup_insert_ne by lia.
Qed.

Lemma wr_words ws : ∀ a w, words_at (wr a ws w) a ws.
Proof.
  induction ws as [|v ws IH]; intros a w; [apply words_at_nil|]. apply words_at_cons. simpl. split; [|apply IH].
  rewrite wr_out by lia. apply lookup_insert_eq.
Qed.

Lemma wr_app ws ws' : ∀ a w, wr a (ws ++ ws') w = wr (a + 8 * Z.of_nat (length ws)) ws' (wr a ws w).
Proof.
  induction ws as [|v ws IH]; intros a w; [simpl; by rewrite Z.add_0_r|]. simpl. rewrite IH. f_equal. lia.
Qed.

Lemma xget_some m a v : xs m !! a = Some v → xget a m = Done (v, m).
Proof. intros Ha. unfold xget, bind, get. by rewrite Ha. Qed.

Lemma mapped_drop w a n k : mapped w a (k + n) → mapped w (a + 8 * Z.of_nat k) n.
Proof.
  intros H j Hj. replace (a + 8 * Z.of_nat k + 8 * Z.of_nat j) with (a + 8 * Z.of_nat (k + j)) by lia. apply H. lia.
Qed.

Lemma stpx_run m a b n va vb p :
  xs m !! a = Some va → xs m !! b = Some vb → xs m !! n = Some p → 0 ≤ p → p + 16 < 2 ^ 64 → mapped (kmem m) p 2 →
  exec call (StpX a b n) m = Done (tt, set_xs (<[n := p + 16]> (xs m)) (set_kmem (wr p [va; vb] (kmem m)) m)).
Proof.
  intros Ha Hb Hn H0 Hp [M1 [M2 _]%mapped_cons]%mapped_cons. cbn [exec].
  rewrite (bind_Done _ _ _ _ _ (xget_some m a va Ha)), (bind_Done _ _ _ _ _ (xget_some m b vb Hb)),
    (bind_Done _ _ _ _ _ (xget_some m n p Hn)), (bind_Done _ _ _ _ _ (store_run m _ _ M1)). rewrite !wadd_small by lia.
  assert (is_Some (kmem (set_kmem (<[p := va]> (kmem m)) m) !! (p + 8))) as M2' by (simpl; by rewrite lookup_insert_ne by lia).
  by rewrite (bind_Done _ _ _ _ _ (store_run _ _ _ M2')).
Qed.

Lemma flat_insert n v ps x : Forall (λ q, q.1 ≠ n ∧ q.2 ≠ n) ps → flat ps (<[n := v]> x) = flat ps x.
Proof.
  induction 1 as [|[a b] ps [Na Nb] _ IH]; [done|]. unfold flat in *. simpl in *.
  by rewrite IH, !list_lookup_total_insert_ne by congruence.
Qed.

Lemma saves_run n ps : ∀ m p,
  Forall (λ q, (q.1 < length (xs m))%nat ∧ (q.2 < length (xs m))%nat ∧ q.1 ≠ n ∧ q.2 ≠ n) ps → xs m !! n = Some p →
  0 ≤ p → p + 16 * Z.of_nat (length ps) < 2 ^ 64 → mapped (kmem m) p (2 * length ps) →
  run call ((λ q, StpX q.1 q.2 n) <$> ps) m =
    Done (tt, set_xs (<[n := p + 16 * Z.of_nat (length ps)]> (xs m)) (set_kmem (wr p (flat ps (xs m)) (kmem m)) m)).
Proof.
  induction ps as [|[a b] ps IH]; intros m p Hf Hn H0 Hp M.
  - destruct m. simpl in *. unfold set_xs, set_kmem. simpl. rewrite list_insert_id by (rewrite Hn; f_equal; lia). done.
  - apply Forall_cons in Hf as [(Ha & Hb & Na & Nb) Hf]. cbn [length fmap list_fmap fst snd] in *.
    rewrite (run_cons _ _ _ _ _ (stpx_run m a b n (xs m !!! a) (xs m !!! b) p (list_lookup_lookup_total_lt _ _ Ha)
      (list_lookup_lookup_total_lt _ _ Hb) Hn H0 ltac:(lia) (λ i Hi, M i ltac:(lia)))).
    rewrite (IH _ (p + 16)); [| |simpl; by apply list_lookup_insert_eq, lookup_lt_Some with p|lia|lia|].
    + unfold set_xs, set_kmem. simpl. rewrite list_insert_insert_eq. do 2 f_equal. f_equal; [f_equal; lia|].
      replace (p + 8 + 8) with (p + 16) by lia. f_equal.
      apply flat_insert. eapply Forall_impl; [exact Hf|]. naive_solver.
    + simpl. rewrite length_insert. done.
    + simpl. do 2 apply mapped_insert. replace (p + 16) with (p + 8 * Z.of_nat 2) by lia. apply mapped_drop.
      intros j Hj. apply M. lia.
Qed.

Lemma ldpx_run m a b n va vb p ws :
  xs m !! n = Some p → words_at (kmem m) p (va :: vb :: ws) → 0 ≤ p → p + 16 < 2 ^ 64 →
  exec call (LdpX a b n) m = Done (tt, set_xs (<[n := p + 16]> (<[b := vb]> (<[a := va]> (xs m)))) m).
Proof.
  intros Hn [W1 [W2 _]%words_at_cons]%words_at_cons H0 Hp. cbn [exec]. rewrite (bind_Done _ _ _ _ _ (xget_some m n p Hn)).
  unfold load, xset, modify, bind, get, ret. rewrite W1. rewrite !wadd_small by lia. by rewrite W2.
Qed.

Lemma popped_insert n v ps : ∀ ws x, Forall (λ q, q.1 ≠ n ∧ q.2 ≠ n) ps → popped ps ws (<[n := v]> x) = <[n := v]> (popped ps ws x).
Proof.
  induction ps as [|[a b] ps IH]; intros ws x Hf; [done|]. apply Forall_cons in Hf as [[Na Nb] Hf].
  destruct ws as [|va [|vb ws]]; [done..|]. cbn [popped]. simpl in *. rewrite <- IH by done. f_equal.
  by rewrite (list_insert_insert_ne x a n), (list_insert_insert_ne _ b n) by done.
Qed.

Lemma length_popped ps : ∀ ws x, length (popped ps ws x) = length x.
Proof.
  induction ps as [|[a b] ps IH]; intros ws x; [done|]. destruct ws as [|va [|vb ws]]; [done..|]. simpl. by rewrite IH, !length_insert.
Qed.

Lemma loads_run n ps : ∀ m p ws ws',
  Forall (λ q, q.1 ≠ n ∧ q.2 ≠ n) ps → xs m !! n = Some p → length ws = (2 * length ps)%nat → words_at (kmem m) p (ws ++ ws') →
  0 ≤ p → p + 16 * Z.of_nat (length ps) < 2 ^ 64 →
  run call ((λ q, LdpX q.1 q.2 n) <$> ps) m =
    Done (tt, set_xs (<[n := p + 16 * Z.of_nat (length ps)]> (popped ps ws (xs m))) m).
Proof.
  induction ps as [|[a b] ps IH]; intros m p ws ws' Hf Hn Hl Hw H0 Hp.
  - destruct m. simpl in *. unfold set_xs. simpl. destruct ws; [|done]. rewrite list_insert_id by (rewrite Hn; f_equal; lia). done.
  - destruct ws as [|va [|vb ws]]; [simpl in Hl; lia..|]. apply Forall_cons in Hf as [[Na Nb] Hf]. cbn [length fmap list_fmap fst snd app] in *.
    rewrite (run_cons _ _ _ _ _ (ldpx_run m a b n va vb p _ Hn Hw H0 ltac:(lia))).
    apply words_at_cons in Hw as [_ [_ Hw]%words_at_cons].
    rewrite (IH _ (p + 16) ws ws'); [|done| |lia| |lia|lia].
    + unfold set_xs. simpl. rewrite popped_insert, list_insert_insert_eq by done. do 4 f_equal. lia.
    + simpl. apply list_lookup_insert_eq. rewrite !length_insert. by eapply lookup_lt_Some.
    + simpl. by replace (p + 16) with (p + 8 + 8) by lia.
Qed.

#[local] Arguments wr : simpl never.

Lemma mapped_wr v : ∀ w a n b, mapped w a n → mapped (wr b v w) a n.
Proof. induction v as [|y v IH]; intros w a n b H; [done|]. apply IH. by apply mapped_insert. Qed.

(** Flatten the machine in the goal. *)
Ltac flatm := cbv [set_xs set_sp set_pc set_pstate set_sys set_kmem xs sp pc pstate sysregs kmem].

(** The first half of [switch]. *)
Lemma switch_save m a l :
  length (xs m) = 31%nat → xs m !! 0%nat = Some a → 0 ≤ a → a + 120 < 2 ^ 64 → mapped (kmem m) a 15 →
  run call (take 10 switch ++ l) m =
  run call l (set_xs (<[2%nat := sysregs m TPIDR_EL0]> (<[0%nat := a + 120]> (xs m))) (set_kmem (wr a (ctx_of m) (kmem m)) m)).
Proof.
  destruct m as [x s p ps sr w]. cbn [xs sp pc pstate sysregs kmem]. intros Hx Ha A0 A1 M.
  change (take 10 switch) with (((λ q, StpX q.1 q.2 0) <$> ctx_pairs) ++ [MovFromSp 2; StpX 2 30 0; Mrs 2 TPIDR_EL0; StrX 2 0]).
  rewrite <- app_assoc. erewrite run_app; cycle 1.
  { eapply (saves_run 0 ctx_pairs); [|exact Ha|done|simpl; lia|intros i Hi; apply M; simpl in Hi; lia].
    simpl. rewrite Hx. repeat (apply Forall_cons; split; [simpl; lia|]). by apply Forall_nil. }
  flatm. explicit x Hx. injection Ha as ->. change (16 * Z.of_nat (length ctx_pairs)) with 96.
  set (v12 := flat ctx_pairs _). assert (length v12 = 12%nat) as L12 by done. cbn [app].
  assert (∀ i k v, (i + k ≤ 15)%nat → mapped (wr a v w) (a + 8 * Z.of_nat i) k) as Mk.
  { intros i k v Hk. apply mapped_drop, mapped_wr. intros j Hj. apply M. lia. }
  erewrite run_cons by (simpl; reflexivity). flatm.
  erewrite run_cons; cycle 1.
  { eapply (stpx_run _ 2 30 0); [reflexivity..|simpl; lia|simpl; lia|]. simpl kmem.
    replace (a + 96) with (a + 8 * Z.of_nat 12) by lia. apply (Mk 12%nat 2%nat). lia. }
  flatm.
  erewrite run_cons by (simpl; reflexivity). flatm.
  erewrite run_cons; cycle 1.
  { cbn [exec]. erewrite bind_Done by (by apply xget_some). erewrite bind_Done by (by apply xget_some).
    erewrite bind_Done; [reflexivity|]. apply store_run. simpl.
    destruct (Mk 14%nat 1%nat (v12 ++ [s; z29]) ltac:(lia) 0%nat ltac:(lia)) as [y Hy]. rewrite wr_app, L12 in Hy.
    exists y. rewrite <- Hy. repeat (f_equal; try lia). }
  flatm. simpl. f_equal. f_equal.
  - do 2 f_equal. rewrite wadd_small by lia. lia.
  - change (ctx_of _) with (v12 ++ [s; z29] ++ [sr TPIDR_EL0]). rewrite !wr_app, L12. simpl length.
    repeat (f_equal; try lia).
Qed.

(** The second half. *)
Lemma switch_load m b ws :
  length (xs m) = 31%nat → xs m !! 1%nat = Some b → length ws = 15%nat → 0 ≤ b → b + 120 < 2 ^ 64 → words_at (kmem m) b ws →
  ∃ m', run call (drop 10 switch) m = Done (tt, m') ∧ length (xs m') = 31%nat ∧ kmem m' = kmem m ∧ ctx_of m' = ws ∧
    pc m' = ws !!! 13%nat.
Proof.
  destruct m as [x s p ps sr w]. cbn [xs sp pc pstate sysregs kmem]. intros Hx Hb Hws B0 B1 Hw.
  change (drop 10 switch) with (((λ q, LdpX q.1 q.2 1) <$> ctx_pairs) ++ [LdpX 2 30 1; MovToSp 2; LdrX 2 1; Msr TPIDR_EL0 2; Ret]).
  rewrite <- (take_drop 12 ws) in Hw.
  erewrite run_app; cycle 1.
  { refine (loads_run 1 ctx_pairs (mkMach x s p ps sr w) b (take 12 ws) (drop 12 ws) _ Hb _ Hw B0 ltac:(simpl; lia)).
    - repeat (apply Forall_cons; split; [simpl; lia|]). by apply Forall_nil.
    - rewrite length_take, Hws. done. }
  apply words_at_app in Hw as [_ Hw]. flatm. explicit x Hx. injection Hb as ->. explicit ws Hws. simpl in Hw.
  change (16 * Z.of_nat (length ctx_pairs)) with 96. cbn [app].
  erewrite run_cons; cycle 1. { eapply (ldpx_run _ 2 30 1); [reflexivity|exact Hw|lia|lia]. }
  flatm.
  apply words_at_cons in Hw as [_ [_ [Hw _]%words_at_cons]%words_at_cons].
  erewrite run_cons by (simpl; reflexivity). flatm.
  erewrite run_cons; cycle 1.
  { cbn [exec]. erewrite bind_Done by (by apply xget_some). unfold load. rewrite bind_assoc. mstep. simpl kmem.
    replace (b + 8 * Z.of_nat 12 + 8 + 8) with (b + 96 + 16) in Hw by lia. rewrite Hw. reflexivity. }
  erewrite run_cons by (simpl; reflexivity). erewrite run_cons by (simpl; reflexivity).
  eexists. split; [reflexivity|]. done.
Qed.

(** The save area holds the registers of the caller, the machine those of the load area. *)
Lemma switch_run m a b ws :
  length (xs m) = 31%nat → xs m !! 0%nat = Some a → xs m !! 1%nat = Some b → length ws = 15%nat →
  0 ≤ a → a + 120 < 2 ^ 64 → 0 ≤ b → b + 120 < 2 ^ 64 → a + 120 ≤ b ∨ b + 120 ≤ a →
  mapped (kmem m) a 15 → words_at (kmem m) b ws →
  ∃ m', run call switch m = Done (tt, m') ∧ length (xs m') = 31%nat ∧ words_at (kmem m') a (ctx_of m) ∧ ctx_of m' = ws ∧
    pc m' = ws !!! 13%nat ∧ ∀ c, c < a ∨ a + 120 ≤ c → kmem m' !! c = kmem m !! c.
Proof.
  intros Hx Ha Hb Hws A0 A1 B0 B1 Hd M Hw.
  change switch with (take 10 switch ++ drop 10 switch) at 1. rewrite (switch_save m a _ Hx Ha A0 A1 M).
  destruct (switch_load (set_xs (<[2%nat := sysregs m TPIDR_EL0]> (<[0%nat := a + 120]> (xs m)))
    (set_kmem (wr a (ctx_of m) (kmem m)) m)) b ws) as (m' & E & Hl & Hk & Hc & Hp); try done.
  - simpl. by rewrite !length_insert.
  - simpl. by rewrite !list_lookup_insert_ne.
  - intros i v Hi. simpl. pose proof (lookup_lt_Some _ _ _ Hi). rewrite wr_out by (simpl; lia). by apply Hw.
  - exists m'. split_and!; try done; rewrite Hk; simpl; [apply wr_words|]. intros c Hc'. apply wr_out. simpl. lia.
Qed.
End switch.
