(* ===== verification/TrapSpec.v ===== *)
(** * What entering the kernel, switching tasks and returning promise

    An exception looks to the code it interrupts like the function its handler
    applies to the trap frame; a task that was switched away from continues
    where it was; a new task starts with the frame that was made for it. *)
From S2P Require Import Prelude Arch Gic Trap.

Local Open Scope Z_scope.

(** ** [trap.rs]: the interrupt controller and the handlers *)

(** What the handlers call. *)
Class Handlers := {
  set_trapframe : Z → AM unit;
  svc_handle : AM unit;
  sched_dabt : AM unit;
  handle_tik : Z → AM unit;
  uart_rx : AM unit;
  p9_irq : AM unit;
}.

Section handlers.
Context {gic : Gic Machine} {hs : Handlers}.

(** The processor state saved in the frame at [a]. *)
Definition frame_el_at (a : Z) : AM Z := let! ps := load (a +! 16) in ret (el ps).

(** An interrupt that is not known stops the kernel for good. *)
Definition irq_handler : AM unit :=
  let! frame := xget 0 in
  let! idx := gic_ack in
  gic_eoi idx ;;;
  if idx =? 30 then let! e := frame_el_at frame in handle_tik e
  else if idx =? 33 then uart_rx
  else if idx =? 78 then p9_irq
  else fail FFuel.

(** So does an exception that is neither a system call nor a data abort. *)
Definition sync_handler : AM unit :=
  let! frame := xget 0 in
  set_trapframe frame ;;;
  let! esr := r_esr_el1 in
  if Z.shiftr esr 26 =? 0x15 then svc_handle
  else if (Z.shiftr esr 26 =? 0x24) || (Z.shiftr esr 26 =? 0x25) then sched_dabt
  else fail FFuel.

Definition kernel_call (f : sym) : AM unit :=
  match f with
  | sync_handler_sym => sync_handler
  | irq_handler_sym => irq_handler
  | main_sym => fail FUB
  end.
End handlers.

(** The system registers once the exception is taken. *)
Definition taken (m : Machine) : sysreg → Z :=
  λ r, if decide (r = SPSR_EL1) then pstate m else if decide (r = ELR_EL1) then pc m else sysregs m r.

(** A handler that comes back, with its frame changed by [g]. *)
Definition serves (call : sym → AM unit) (f : sym) (g : Frame → Frame) (a : Z) (sr : sysreg → Z) : Prop :=
  ∀ m fr, sysregs m = sr → sp m = a → xs m !!! 0%nat = a → length (xs m) = 31%nat → length (f_regs fr) = 31%nat → frame_at m a fr →
  ∃ m', call f m = Done (tt, m') ∧ sp m' = a ∧ length (xs m') = 31%nat ∧ length (f_regs (g fr)) = 31%nat ∧ frame_at m' a (g fr).

Definition handler_of (e : exc) : option sym :=
  match e with ESync => Some sync_handler_sym | EIrq => Some irq_handler_sym | _ => None end.

(** C30: Exceptions are transparent.  An exception or an interrupt, taken in user
    mode or in the kernel, finds its handler in the vector table; the handler
    finds the interrupted state in the frame at the address it is given; and
    when it returns, the interrupted code continues in the state the frame then
    holds, all general registers, the program counter, the processor state and
    the user's stack pointer, with the kernel's stack as deep as before.  A
    handler that leaves its frame alone is not seen at all. *)
Theorem trap_roundtrip (call : sym → AM unit) (e : exc) (f : sym) (g : Frame → Frame) (m : Machine) :
  handler_of e = Some f → length (xs m) = 31%nat → FRAME_SIZE ≤ sp m < 2 ^ 64 → mapped (kmem m) (sp m - FRAME_SIZE) 34 →
  serves call f g (sp m - FRAME_SIZE) (taken m) →
  ∃ m', trap call e m = Done (tt, m') ∧ sp m' = sp m ∧ frame_of m' = g (frame_of m).
Proof.
  intros He Hx Hs Hm Hc.
  set (m1 := mkMach (xs m) (sp m) (sysregs m VBAR_EL1 + vec_off (el (pstate m) =? 0) e) EL1_MASKED
    (taken m) (kmem m)).
  assert (trap call e m = run call (trap_asm f) m1) as ->.
  { assert (vec_at trap_vector 0x200 (vec_off (el (pstate m) =? 0) e) = Some (Some f)) as Ev
      by (destruct e; try done; injection He as <-; by destruct (el (pstate m) =? 0)).
    unfold trap. mstep. unfold take_exception. rewrite bind_assoc. mstep. unfold bind, msr, modify. rewrite Ev. reflexivity. }
  assert (trap_asm f = take 21 (trap_asm sync_handler_sym) ++ Bl f :: forkret_asm) as -> by (by destruct f).
  destruct (save_run call m1 (frame_of m) (Bl f :: forkret_asm) Hx Hs Hm eq_refl) as (m2 & -> & Hx2 & H0 & Hs2 & Hf2 & Hsr2 & _).
  destruct (Hc m2 (frame_of m)) as (m3 & E3 & Hs3 & Hx3 & Hl3 & Hf3); [exact Hsr2|exact Hs2|rewrite H0; exact Hs2|done|done| |].
  { rewrite Hs2 in Hf2. exact Hf2. }
  rewrite (run_cons call (Bl f) _ _ _ E3).
  destruct (restore_run call m3 (g (frame_of m)) Hx3 Hl3) as (m4 & E4 & R1 & R2 & R3 & R4 & _ & R6);
    [by rewrite Hs3|rewrite Hs3; simpl in Hs2; lia|rewrite Hs3; lia|].
  exists m4. split_and!; [done|rewrite R2, Hs3; lia|]. unfold frame_of. rewrite R1, R3, R4, R6. by destruct (g _).
Qed.

(** C31: A task resumes where it was.  Whatever ran since a task was switched
    away from, as long as its saved context is intact, switching back to it
    gives it the callee-saved registers, the stack pointer and the thread
    pointer it had, and returns to where it called [switch]. *)
Theorem switch_resumes (call : sym → AM unit) (m m2 : Machine) (a b c : Z) (ws : list Z) :
  length (xs m) = 31%nat → xs m !! 0%nat = Some a → xs m !! 1%nat = Some b → length ws = 15%nat →
  0 ≤ a → a + 120 < 2 ^ 64 → 0 ≤ b → b + 120 < 2 ^ 64 → a + 120 ≤ b ∨ b + 120 ≤ a →
  mapped (kmem m) a 15 → words_at (kmem m) b ws →
  ∃ m1, run call switch m = Done (tt, m1) ∧ ctx_of m1 = ws ∧ pc m1 = ws !!! 13%nat ∧
    (length (xs m2) = 31%nat → xs m2 !! 0%nat = Some c → xs m2 !! 1%nat = Some a → 0 ≤ c → c + 120 < 2 ^ 64 →
     a + 120 ≤ c ∨ c + 120 ≤ a → mapped (kmem m2) c 15 →
     (∀ i, (i < 15)%nat → kmem m2 !! (a + 8 * Z.of_nat i) = kmem m1 !! (a + 8 * Z.of_nat i)) →
     ∃ m3, run call switch m2 = Done (tt, m3) ∧ ctx_of m3 = ctx_of m ∧ pc m3 = xs m !!! 30%nat).
Proof.
  intros Hx Ha Hb Hws A0 A1 B0 B1 Hd M Hw.
  destruct (switch_run call m a b ws Hx Ha Hb Hws A0 A1 B0 B1 Hd M Hw) as (m1 & E1 & _ & W1 & C1 & P1 & _).
  exists m1. split_and!; [done..|]. intros Hx2 Hc2 Ha2 C0 C2 Hd2 M2 Hsame.
  destruct (switch_run call m2 c a (ctx_of m) Hx2 Hc2 Ha2 eq_refl C0 C2 A0 A1 ltac:(lia) M2) as (m3 & E3 & _ & _ & C3 & P3 & _).
  { intros i v Hi. rewrite Hsame by (apply lookup_lt_Some in Hi; done). by apply W1. }
  exists m3. split_and!; done.
Qed.

(** A child of [fork] returns to user mode.  The scheduler's switch to a
    task that has never run lands in [forkret] with the stack pointer at the
    task's trap frame; and from there, whatever [forkret] does before its
    return code, the child is in user mode in the state of its frame, which
    for [fork] is the parent's with a zero in the first register, with nothing
    left on its kernel stack. *)
Theorem child_returns (call : sym → AM unit) (m : Machine) (a b fk top : Z) (ctx : list Z) (parent : Frame) :
  length (xs m) = 31%nat → xs m !! 0%nat = Some a → xs m !! 1%nat = Some b → length ctx = 15%nat →
  0 ≤ a → a + 120 < 2 ^ 64 → 0 ≤ b → b + 120 < 2 ^ 64 → a + 120 ≤ b ∨ b + 120 ≤ a →
  mapped (kmem m) a 15 → words_at (kmem m) b (init_ctx fk top ctx) → length (f_regs parent) = 31%nat →
  0 ≤ top → top + STACKSIZE < 2 ^ 64 →
  let child := mkFrame (f_pc parent) (f_sp_el0 parent) (f_pstate parent) (<[0%nat := 0]> (f_regs parent)) in
  ∃ m1, run call switch m = Done (tt, m1) ∧ pc m1 = fk ∧ sp m1 = tf_ptr top ∧
    ∀ m2, length (xs m2) = 31%nat → frame_at m2 (tf_ptr top) child →
    ∃ m3, forkret_exit call (tf_ptr top) m2 = Done (tt, m3) ∧ frame_of m3 = child ∧ sp m3 = top + STACKSIZE.
Proof.
  intros Hx Ha Hb Hctx A0 A1 B0 B1 Hd M Hw Hp T0 T1 child.
  destruct (switch_run call m a b (init_ctx fk top ctx) Hx Ha Hb ltac:(by unfold init_ctx; rewrite !length_insert) A0 A1 B0 B1 Hd M Hw)
    as (m1 & E1 & _ & _ & C1 & P1 & _).
  exists m1. split_and!; [done| | |].
  - rewrite P1. unfold init_ctx. by rewrite list_lookup_total_insert_eq by (rewrite length_insert; lia).
  - pose proof (f_equal (λ l, l !!! 12%nat) C1) as H. simpl in H. rewrite H. unfold init_ctx.
    rewrite list_lookup_total_insert_ne by done. by rewrite list_lookup_total_insert_eq by lia.
  - intros m2 Hx2 Hf. unfold forkret_exit, bind, modify.
    assert (0 ≤ tf_ptr top ∧ tf_ptr top + FRAME_SIZE = top + STACKSIZE) as [H0 H1] by (unfold tf_ptr, STACKSIZE, FRAME_SIZE in *; lia).
    destruct (restore_run call (set_sp (tf_ptr top) m2) child) as (m3 & E3 & R1 & R2 & R3 & R4 & _ & R6);
      [done|simpl; by rewrite length_insert|exact Hf|exact H0|simpl sp; lia|].
    exists m3. split_and!; [done| |by rewrite R2]. unfold frame_of. by rewrite R1, R3, R4, R6.
Qed.

(** ** Witnesses *)

(** A system call that returns 7, through the real handler. *)
#[local] Instance toy_gic : Gic Machine := {| gic_read _ := ret 1023; gic_write _ _ := ret tt; gic_dist _ := 0; gic_cpu _ := 0 |}.
#[local] Instance toy_handlers : Handlers := {|
  set_trapframe a := ret tt;
  svc_handle := let! a := xget 0 in store (a +! 24) 7;
  sched_dabt := ret tt;
  handle_tik _ := ret tt;
  uart_rx := ret tt;
  p9_irq := ret tt;
|}.

(** [n] words of zeroes from [a] on. *)
Definition blank (a : Z) (n : nat) : gmap Z Z := wr a (replicate n 0) ∅.

Lemma blank_mapped w a n ws : words_at w a ws → length ws = n → mapped w a n.
Proof. intros H <-. by apply words_mapped. Qed.

Lemma words_at_update w a ws i v : (i < length ws)%nat → words_at w a ws → words_at (<[a + 8 * Z.of_nat i := v]> w) a (<[i := v]> ws).
Proof.
  intros Hi H j y Hj. apply list_lookup_insert_Some in Hj as [(-> & -> & _)|[Hne Hj]]; [apply lookup_insert_eq|].
  rewrite lookup_insert_ne by lia. by apply H.
Qed.

Definition user_m : Machine :=
  mkMach (replicate 31 5) 0x10000 0x400000 0 (λ r, if decide (r = ESR_EL1) then 0x54000000 else 0) (blank (0x10000 - 272) 34).

Definition returns_7 (f : Frame) : Frame := mkFrame (f_pc f) (f_sp_el0 f) (f_pstate f) (<[0%nat := 7]> (f_regs f)).

Lemma trap_roundtrip_witness :
  ∃ m', trap kernel_call ESync user_m = Done (tt, m') ∧ sp m' = 0x10000 ∧ pc m' = 0x400000 ∧
    xs m' = 7 :: replicate 30 5.
Proof.
  destruct (trap_roundtrip kernel_call ESync sync_handler_sym returns_7 user_m) as (m' & E & Hs & Hf); [done|done|done| | |].
  - apply (blank_mapped _ _ _ (replicate 34 0)); [apply wr_words|done].
  - intros m fr Hsr Hs Hx0 Hl Hr Hfr. change (sp user_m - FRAME_SIZE) with 65264 in *.
    assert (xget 0 m = Done (65264, m)) as Ex by (rewrite xget_run by lia; by rewrite Hx0).
    assert (is_Some (kmem m !! (65264 + 24))) as Hst by (by apply (words_mapped _ _ _ Hfr 3%nat); simpl; lia).
    exists (set_kmem (<[65264 + 24 := 7]> (kmem m)) m). split_and!; [|done|done|by simpl; rewrite length_insert|].
    + unfold kernel_call, sync_handler. rewrite (bind_Done _ _ _ _ _ Ex). simpl set_trapframe. mstep.
      unfold r_esr_el1, mrs, bind at 1, gets. rewrite Hsr. change (Z.shiftr (taken user_m ESR_EL1) 26 =? 0x15) with true. cbv iota.
      simpl svc_handle. rewrite (bind_Done _ _ _ _ _ Ex). rewrite wadd_small by lia. by apply store_run.
    + change (frame_words (returns_7 fr)) with (<[3%nat := 7]> (frame_words fr)).
      apply (words_at_update _ 65264 (frame_words fr) 3); [simpl; lia|exact Hfr].
  - exists m'. injection Hf as H1 H2 H3 H4. split_and!; [exact E|exact Hs|exact H1|exact H4].
Defined.

(** A task switches to the scheduler and back. *)
Definition two_ctx : gmap Z Z := wr 0x2000 (replicate 15 1) (wr 0x1000 (replicate 15 0) ∅).

Definition sw_m (x0 x1 v : Z) (w : gmap Z Z) : Machine := mkMach (x0 :: x1 :: replicate 29 v) 0x8000 0 0 (λ _, v) w.

Lemma two_ctx_words : mapped two_ctx 0x1000 15 ∧ words_at two_ctx 0x2000 (replicate 15 1).
Proof.
  split; [|apply wr_words]. intros i Hi. unfold two_ctx. rewrite wr_out by (simpl; lia).
  exact (blank_mapped _ _ 15 (replicate 15 0) (wr_words _ _ _) eq_refl i Hi).
Qed.

Lemma switch_resumes_witness :
  ∃ m1 m3, run kernel_call switch (sw_m 0x1000 0x2000 9 two_ctx) = Done (tt, m1) ∧ pc m1 = 1 ∧
    run kernel_call switch (sw_m 0x2000 0x1000 3 (kmem m1)) = Done (tt, m3) ∧
    ctx_of m3 = ctx_of (sw_m 0x1000 0x2000 9 two_ctx) ∧ pc m3 = 9.
Proof.
  destruct two_ctx_words as [M W].
  destruct (switch_run kernel_call (sw_m 0x1000 0x2000 9 two_ctx) 0x1000 0x2000 (replicate 15 1))
    as (m1 & E1 & _ & _ & _ & _ & O1); [done..|lia|exact M|exact W|].
  destruct (switch_resumes kernel_call (sw_m 0x1000 0x2000 9 two_ctx) (sw_m 0x2000 0x1000 3 (kmem m1)) 0x1000 0x2000 0x2000 (replicate 15 1))
    as (m1' & E1' & C1 & P1 & Hback); [done..|lia|exact M|exact W|].
  assert (m1' = m1) as -> by congruence.
  destruct Hback as (m3 & E3 & C3 & P3); [done..|lia| |done|].
  - intros i Hi. simpl kmem. rewrite O1 by lia. exact (blank_mapped _ _ 15 (replicate 15 1) W eq_refl i Hi).
  - exists m1, m3. split_and!; [exact E1|exact P1|exact E3|exact C3|exact P3].
Defined.

Definition parent_f : Frame := mkFrame 0x400000 0x7fff0000 0 (replicate 31 5).

Definition child_f : Frame := mkFrame 0x400000 0x7fff0000 0 (0 :: replicate 30 5).

(** A child whose parent called [fork] with every register five. *)
Lemma child_returns_witness :
  ∃ m1 m3, run kernel_call switch (sw_m 0x1000 0x2000 9 (wr 0x2000 (init_ctx 0x4444 0x10000 (replicate 15 0)) (blank 0x1000 15))) = Done (tt, m1) ∧
    pc m1 = 0x4444 ∧
    forkret_exit kernel_call (tf_ptr 0x10000) (sw_m 0 0 0 (wr (tf_ptr 0x10000) (frame_words child_f) ∅)) = Done (tt, m3) ∧
    frame_of m3 = child_f ∧ sp m3 = 0x12000.
Proof.
  destruct (child_returns kernel_call (sw_m 0x1000 0x2000 9 (wr 0x2000 (init_ctx 0x4444 0x10000 (replicate 15 0)) (blank 0x1000 15)))
    0x1000 0x2000 0x4444 0x10000 (replicate 15 0) parent_f) as (m1 & E1 & P1 & S1 & Hret); [done..|lia| |apply wr_words|done|done|done|].
  - intros i Hi. cbn [sw_m kmem]. rewrite wr_out by (simpl; lia). exact (blank_mapped _ _ 15 (replicate 15 0) (wr_words _ _ _) eq_refl i Hi).
  - destruct (Hret (sw_m 0 0 0 (wr (tf_ptr 0x10000) (frame_words child_f) ∅))) as (m3 & E3 & F3 & S3); [done|apply wr_words|].
    exists m1, m3. split_and!; [exact E1|exact P1|exact E3|exact F3|exact S3].
Defined.
