(* ===== verification/Start.v ===== *)
(** * [main.rs]: from reset to [main]

    [_start] builds two translation tables of one entry each, so that the first
    gigabyte of memory is found both at its physical address and in the upper
    half, turns the translation on and calls [main]. *)
From S2P Require Import Prelude Vm Arch Trap.

Local Open Scope Z_scope.

(** ** The translation the processor does

    Four levels of tables with 4 KB pages and addresses of 48 bits; an entry
    is a table, a block (at the levels of 1 GB and 2 MB) or a page, and a block
    or page needs its access flag. *)
Definition hw_leaf (d mask va : Z) : option Z :=
  if Z.testbit d 10 then Some (Z.land d (PHY_MASK - Z.land mask PHY_MASK) + Z.land va mask) else None.

Definition hw_walk (rd : Z → option Z) (root va : Z) : option Z :=
  d0 ← rd (Z.land root PHY_MASK + 8 * vaddr_l0 va);
  if negb (Z.land d0 3 =? 3) then None else
  d1 ← rd (Z.land d0 PHY_MASK + 8 * vaddr_l1 va);
  if Z.land d1 3 =? 1 then hw_leaf d1 0x3fffffff va else
  if negb (Z.land d1 3 =? 3) then None else
  d2 ← rd (Z.land d1 PHY_MASK + 8 * vaddr_l2 va);
  if Z.land d2 3 =? 1 then hw_leaf d2 0x1fffff va else
  if negb (Z.land d2 3 =? 3) then None else
  d3 ← rd (Z.land d2 PHY_MASK + 8 * vaddr_l3 va);
  if negb (Z.land d3 3 =? 3) then None else hw_leaf d3 0xfff va.

(** The fields [T0SZ], [TG0], [T1SZ] and [TG1] of [TCR_EL1] that ask for this. *)
Definition low_48_4k (tcr : Z) : bool := (Z.land tcr 0x3f =? 16) && (Z.land (Z.shiftr tcr 14) 3 =? 0).
Definition high_48_4k (tcr : Z) : bool := (Z.land (Z.shiftr tcr 16) 0x3f =? 16) && (Z.land (Z.shiftr tcr 30) 3 =? 2).

Definition hw_translate (m : Machine) (va : Z) : option Z :=
  let rd a := kmem m !! a in
  if negb (Z.testbit (sysregs m SCTLR_EL1) 0) then Some va
  else if (Z.shiftr va 48 =? 0) && low_48_4k (sysregs m TCR_EL1) then hw_walk rd (sysregs m TTBR0_EL1) va
  else if (Z.shiftr va 48 =? 0xffff) && high_48_4k (sysregs m TCR_EL1) then hw_walk rd (sysregs m TTBR1_EL1) va
  else None.

Section start.
Context {bs : BootSyms}.

Definition BLOCK : Z := 0x40000401.

(** A table of the two: at its start the next table, in the second entry the block. *)
Lemma walk_block (rd : Z → option Z) root t va pa :
  Z.land root PHY_MASK = root → Z.land t PHY_MASK = t → rd root = Some (Z.lor t 3) → rd (t + 8) = Some BLOCK →
  2 ^ 30 ≤ pa < 2 ^ 31 → va = pa ∨ va = VOFFT + pa → hw_walk rd root va = Some pa.
Proof.
  intros Hr Ht E0 E1 Hpa Hva. unfold hw_walk.
  assert (vaddr_l0 va = 0 ∧ vaddr_l1 va = 1 ∧ Z.land va 0x3fffffff = pa - 2 ^ 30) as (-> & -> & Ev).
  { unfold vaddr_l0, vaddr_l1. change 0x1ff with (Z.ones 9). change 0x3fffffff with (Z.ones 30). rewrite !Z.land_ones, !Z.shiftr_div_pow2 by lia.
    destruct Hva as [-> | ->]; unfold VOFFT; split_and!; zdiv. }
  rewrite Hr, Z.mul_0_r, Z.add_0_r, E0. cbn [mbind option_bind].
  assert (Z.land (Z.lor t 3) PHY_MASK = t) as ->.
  { rewrite Z.land_lor_distr_l, Ht. change (Z.land 3 PHY_MASK) with 0. apply Z.lor_0_r. }
  assert (Z.land (Z.lor t 3) 3 = 3) as ->.
  { rewrite Z.land_lor_distr_l. change (Z.land 3 3) with 3. rewrite <- Ht, <- Z.land_assoc. change (Z.land PHY_MASK 3) with 0. by rewrite Z.land_0_r. }
  rewrite Z.mul_1_r, E1. cbn [mbind option_bind].
  change (negb (3 =? 3)) with false. change (Z.land BLOCK 3 =? 1) with true. cbv iota. unfold hw_leaf. rewrite Ev.
  change (Z.testbit BLOCK 10) with true. cbv iota. f_equal.
  change (Z.land BLOCK (PHY_MASK - Z.land 0x3fffffff PHY_MASK)) with (2 ^ 30). lia.
Qed.

(** Where the linker puts the tables. *)
Definition tables : list Z := [l0_id; l0_h; l1_id0; l1_h0].

Record tables_ok (m : Machine) : Prop := {
  to_al : ∀ t, t ∈ tables → Z.land t PHY_MASK = t;
  to_nodup : NoDup tables;
  to_mem : ∀ t, t ∈ tables → is_Some (kmem m !! t) ∧ is_Some (kmem m !! (t + 8));
}.

Definition boot_words (w : gmap Z Z) : gmap Z Z :=
  <[l0_h := Z.lor l1_h0 3]> (<[l1_h0 + 8 := BLOCK]> (<[l0_id := Z.lor l1_id0 3]> (<[l1_id0 + 8 := BLOCK]> w))).

Lemma page_range t : Z.land t PHY_MASK = t → 0 ≤ t < 2 ^ 48 ∧ t mod 4096 = 0.
Proof.
  intros E. assert (Z.land t PHY_MASK = (t / 4096) mod 2 ^ 36 * 4096) as E2.
  { transitivity (Z.shiftl (Z.land (Z.shiftr t 12) (Z.ones 36)) 12).
    - change PHY_MASK with (Z.shiftl (Z.ones 36) 12). apply Z.bits_inj'. intros n Hn. rewrite Z.land_spec, !Z.shiftl_spec, Z.land_spec by lia.
      destruct (Z.lt_ge_cases n 12); [rewrite !(Z.testbit_neg_r _ (n - 12)) by lia; by rewrite andb_false_r|].
      rewrite Z.shiftr_spec by lia. by rewrite Z.sub_add.
    - rewrite Z.land_ones, Z.shiftr_div_pow2, Z.shiftl_mul_pow2 by lia. done. }
  rewrite E in E2. zdiv.
Qed.

Lemma tables_apart m : tables_ok m →
  l0_id ≠ l0_h ∧ l0_id ≠ l1_id0 ∧ l0_id ≠ l1_h0 ∧ l0_h ≠ l1_id0 ∧ l0_h ≠ l1_h0 ∧ l1_id0 ≠ l1_h0 ∧
  ∀ t u, t ∈ tables → u ∈ tables → t ≠ u + 8.
Proof.
  intros [Hal Hd _]. unfold tables in Hd. rewrite !NoDup_cons, !not_elem_of_cons in Hd. destruct Hd as ((? & ? & ? & _) & (? & ? & _) & (? & _) & _).
  split_and!; try done. intros t u [_ Ht]%Hal%page_range [_ Hu]%Hal%page_range. zdiv.
Qed.

(** Memory with the four words in it translates the gigabyte both ways. *)
Lemma boot_words_translate m pa va :
  tables_ok m → 2 ^ 30 ≤ pa < 2 ^ 31 → va = pa ∨ va = VOFFT + pa →
  hw_walk (λ a, boot_words (kmem m) !! a) l0_id va = Some pa ∧ hw_walk (λ a, boot_words (kmem m) !! a) l0_h va = Some pa.
Proof.
  intros Hok Hpa Hva. destruct (tables_apart m Hok) as (N1 & N2 & N3 & N4 & N5 & N6 & N8).
  assert (l0_id ∈ tables ∧ l0_h ∈ tables ∧ l1_id0 ∈ tables ∧ l1_h0 ∈ tables) as (I1 & I2 & I3 & I4) by (unfold tables; set_solver).
  split.
  - apply (walk_block _ l0_id l1_id0 va pa); try (by apply (to_al m Hok)); try done; unfold boot_words.
    + cbv beta. rewrite (lookup_insert_ne _ l0_h), (lookup_insert_ne _ (l1_h0 + 8)) by (done || by apply not_eq_sym, N8). by rewrite lookup_insert_eq.
    + cbv beta. rewrite (lookup_insert_ne _ l0_h), (lookup_insert_ne _ (l1_h0 + 8)), (lookup_insert_ne _ l0_id) by (lia || by apply N8). by rewrite lookup_insert_eq.
  - apply (walk_block _ l0_h l1_h0 va pa); try (by apply (to_al m Hok)); try done; unfold boot_words.
    + by rewrite lookup_insert_eq.
    + rewrite lookup_insert_ne by (by apply N8). by rewrite lookup_insert_eq.
Qed.

Context (call : sym → AM unit).

Lemma str_off_run m a n off va p :
  xs m !! a = Some va → xs m !! n = Some p → 0 ≤ p + off < 2 ^ 64 → is_Some (kmem m !! (p + off)) →
  exec call (StrOff a n off) m = Done (tt, set_kmem (<[p + off := va]> (kmem m)) m).
Proof.
  intros Ha Hn Hr Hm. unfold exec, xget, bind, get. rewrite Ha. cbn [ret]. rewrite Hn. cbn [ret].
  unfold ret. cbv beta iota. rewrite wadd_small by done. by apply store_run.
Qed.

(** The tables: up to the last store. *)
Lemma start_tables m x0 x1 x2 x3 r :
  tables_ok m → xs m = x0 :: x1 :: x2 :: x3 :: r →
  let sr := sysregs (set_sys TTBR1_EL1 l0_h (set_sys TTBR0_EL1 l0_id (set_sys TCR_EL1 0x5b0103210 m))) in
  run call (take 15 _start) m =
    Done (tt, mkMach (l0_id :: l0_h :: Z.lor l1_h0 3 :: BLOCK :: r) (sp m) (pc m) (pstate m) sr (boot_words (kmem m))).
Proof.
  intros Hok Hx sr. destruct (tables_apart m Hok) as (N1 & N2 & N3 & N4 & N5 & N6 & N8).
  assert (l0_id ∈ tables ∧ l0_h ∈ tables ∧ l1_id0 ∈ tables ∧ l1_h0 ∈ tables) as (I1 & I2 & I3 & I4) by (unfold tables; set_solver).
  assert (∀ t, t ∈ tables → 0 ≤ t < 2 ^ 48) as Hrg by (intros t Ht; by apply page_range, (to_al m Hok)).
  pose proof (Hrg _ I1). pose proof (Hrg _ I2). pose proof (Hrg _ I3). pose proof (Hrg _ I4).
  destruct m as [x spv pcv ps sy w]. simpl in Hx. subst x. destruct Hok as [_ _ Hmem]. simpl in Hmem.
  assert (∀ a b v (w' : gmap Z Z), is_Some (w' !! a) → is_Some (<[b := v]> w' !! a)) as Hkeep.
  { intros a b v w' Hw. destruct (decide (b = a)) as [->|]; [by rewrite lookup_insert_eq|by rewrite lookup_insert_ne]. }
  cbn [take _start]. do 8 (erewrite run_cons by reflexivity).
  erewrite run_cons by (apply str_off_run; [reflexivity|reflexivity|lia|apply Hmem; exact I3]). erewrite run_cons by reflexivity.
  erewrite run_cons by (apply str_off_run; [reflexivity|reflexivity|lia|rewrite Z.add_0_r; apply Hkeep, Hmem; exact I1]).
  erewrite run_cons by reflexivity.
  erewrite run_cons by (apply str_off_run; [reflexivity|reflexivity|lia|do 2 apply Hkeep; apply Hmem; exact I4]). erewrite run_cons by reflexivity.
  erewrite run_cons by (apply str_off_run; [reflexivity|reflexivity|lia|rewrite Z.add_0_r; do 3 apply Hkeep; apply Hmem; exact I2]).
  unfold run. cbn [forM]. unfold ret, boot_words, set_kmem. simpl. by rewrite !Z.add_0_r.
Qed.
End start.

(** C25: From reset to [main].  Whatever the registers and the rest of memory
    hold, the code at the entry point reaches the call of [main] with the bounds
    of the kernel image as its arguments, on the boot stack, with the vector
    table in place and address translation on; and from there every address of
    the first gigabyte of memory, which holds the kernel, is found both at its
    physical address, where this code runs, and at its address in the upper
    half, where [main] is linked.  Of memory, four words changed. *)
Theorem start_reaches_main {bs : BootSyms} (call : sym → AM unit) (m : Machine) :
  tables_ok m → length (xs m) = 31%nat →
  ∃ m', run call _start m = run call [Bl main_sym; Wfi] m' ∧
    take 2 (xs m') = [sym_kernel_begin; sym_kernel_end] ∧ sp m' = sym_boot_stack ∧ sysregs m' VBAR_EL1 = sym_trap_vec ∧
    sysregs m' MAIR_EL1 = 0xff ∧ kmem m' = boot_words (kmem m) ∧
    ∀ pa, 2 ^ 30 ≤ pa < 2 ^ 31 → hw_translate m' pa = Some pa ∧ hw_translate m' (VOFFT + pa) = Some pa.
Proof.
  intros Hok Hx. destruct (xs m) as [|x0 [|x1 [|x2 [|x3 r]]]] eqn:Ex; [simpl in Hx; lia..|].
  rewrite <- (take_drop 15 _start). rewrite (run_app _ _ _ _ _ (start_tables call m x0 x1 x2 x3 r Hok Ex)). cbn [drop _start].
  do 14 (erewrite run_cons by reflexivity).
  eexists. split; [reflexivity|]. simpl xs. simpl sp. simpl kmem. simpl sysregs. split_and!; [done..|].
  intros pa Hpa. unfold hw_translate. simpl sysregs. simpl kmem.
  assert (Z.testbit (Z.lor (sysregs m SCTLR_EL1) 1) 0 = true) as Ebit by (rewrite Z.lor_spec; apply orb_true_r).
  rewrite Ebit. cbn [negb]. cbv iota.
  change (low_48_4k _) with true. change (high_48_4k _) with true. rewrite !andb_true_r.
  rewrite !(Z.shiftr_div_pow2 _ 48) by lia.
  replace (pa / 2 ^ 48 =? 0) with true by (symmetry; apply Z.eqb_eq; zdiv).
  replace ((VOFFT + pa) / 2 ^ 48 =? 0) with false by (symmetry; apply Z.eqb_neq; unfold VOFFT; zdiv).
  replace ((VOFFT + pa) / 2 ^ 48 =? 0xffff) with true by (symmetry; apply Z.eqb_eq; unfold VOFFT; zdiv).
  split.
  - apply (boot_words_translate m pa pa Hok Hpa). by left.
  - apply (boot_words_translate m pa (VOFFT + pa) Hok Hpa). by right.
Qed.

(** ** A machine after reset *)
#[local] Instance some_syms : BootSyms := {|
  l0_id := 0x40101000; l0_h := 0x40102000; l1_id0 := 0x40103000; l1_h0 := 0x40104000;
  sym_boot_stack := VOFFT + 0x40180000; sym_trap_vec := VOFFT + 0x40105000;
  sym_kernel_begin := 0x40105000; sym_kernel_end := 0x40400000;
|}.

Definition reset_mach : Machine :=
  mkMach (replicate 31 0) 0 0x40100000 EL1_MASKED (λ _, 0)
    (list_to_map ((λ a, (a, 0)) <$> (tables ++ ((λ t, t + 8) <$> tables)))).

Lemma start_reaches_main_witness :
  ∃ m', run (λ _, fail FFuel) _start reset_mach = run (λ _, fail FFuel) [Bl main_sym; Wfi] m' ∧
    take 2 (xs m') = [0x40105000; 0x40400000] ∧ hw_translate m' (VOFFT + 0x40180000) = Some 0x40180000.
Proof.
  destruct (start_reaches_main (λ _, fail FFuel) reset_mach) as (m' & E & Ex & _ & _ & _ & _ & Ht).
  - split.
    + intros t Ht. repeat (apply elem_of_cons in Ht as [->|Ht]; [reflexivity|]). by apply elem_of_nil in Ht.
    + repeat (apply NoDup_cons; split; [rewrite ?elem_of_cons, ?elem_of_nil; simpl; lia|]). apply NoDup_nil_2.
    + intros t Ht. repeat (apply elem_of_cons in Ht as [->|Ht]; [split; eexists; reflexivity|]). by apply elem_of_nil in Ht.
  - reflexivity.
  - exists m'. split; [exact E|]. split; [exact Ex|]. apply (Ht 0x40180000). lia.
Defined.
