(* ===== verification/Dev.v ===== *)
(** * [uart.rs], [trap.rs], [timer.rs], [rtc.rs], [virtio.rs], [main.rs]: finding the devices

    The kernel reaches the registers of a device through a page it maps with
    [vm::map].  An access goes to the physical address the kernel's page tables
    hold for it, and there to the device, which is not part of the program:
    [Mmio] again, with physical addresses this time.  [main_devices] is the
    part of [main] between [vm::init] and [sched::init]. *)
From S2P Require Import Prelude Stuff Pm Virtio P9 P9Ops Vm VmTree Arch Gic.

Local Open Scope Z_scope.

(** ** [p9.rs]: the static variables [FILES] and [P9L], as they are linked *)
Definition FILES : list File := replicate 128 file_zeroed.

Definition P9L {D} (d : D) : outcome (PSt D) :=
  let? q := q_new QSIZE in
  let? bs := BitSet128.new 128 in
  Done (mkPSt q bs 0 qid_new false FILES d 0).

(** The register block of a virtio device, as a part of what is on the bus. *)
Record RegsAt (B : Type) := mkRegs { rg_bus : B; rg_base : Z }.
Arguments mkRegs {B}.
Arguments rg_bus {B}.
Arguments rg_base {B}.

#[export] Instance regs_mmio {B} `{Mmio B} : Mmio (RegsAt B) := {|
  reg_read r off := reg_read (rg_bus r) (rg_base r + off);
  reg_write r off v := mkRegs (reg_write (rg_bus r) (rg_base r + off) v) (rg_base r);
|}.

(** The static variables of the drivers: [uart::MAP], [GIC_DIST], [GIC_CPU],
    [rtc::MAP] and the state of the 9p client. *)
Record DSt (F B : Type) := mkD {
  d_v : VSt F;
  d_bus : B;
  d_m : Machine;
  uart_map : Z;
  d_dist : Z;
  d_cpu : Z;
  rtc_map : Z;
  d_p9 : PSt (RegsAt B);
}.
Arguments mkD {F B}.
Arguments d_v {F B}.
Arguments d_bus {F B}.
Arguments d_m {F B}.
Arguments uart_map {F B}.
Arguments d_dist {F B}.
Arguments d_cpu {F B}.
Arguments rtc_map {F B}.
Arguments d_p9 {F B}.

Section dev.
Context {im : Image} {F : Type} {fo : FrameOps F} {B : Type} `{Mmio B}.

Definition DM := M (DSt F B).

Definition set_v (v : VSt F) (s : DSt F B) := mkD v (d_bus s) (d_m s) (uart_map s) (d_dist s) (d_cpu s) (rtc_map s) (d_p9 s).
Definition set_bus (b : B) (s : DSt F B) := mkD (d_v s) b (d_m s) (uart_map s) (d_dist s) (d_cpu s) (rtc_map s) (d_p9 s).
Definition set_mach (m : Machine) (s : DSt F B) := mkD (d_v s) (d_bus s) m (uart_map s) (d_dist s) (d_cpu s) (rtc_map s) (d_p9 s).
Definition set_uart (x : Z) (s : DSt F B) := mkD (d_v s) (d_bus s) (d_m s) x (d_dist s) (d_cpu s) (rtc_map s) (d_p9 s).
Definition set_dist (x : Z) (s : DSt F B) := mkD (d_v s) (d_bus s) (d_m s) (uart_map s) x (d_cpu s) (rtc_map s) (d_p9 s).
Definition set_cpu (x : Z) (s : DSt F B) := mkD (d_v s) (d_bus s) (d_m s) (uart_map s) (d_dist s) x (rtc_map s) (d_p9 s).
Definition set_rtc (x : Z) (s : DSt F B) := mkD (d_v s) (d_bus s) (d_m s) (uart_map s) (d_dist s) (d_cpu s) x (d_p9 s).
Definition set_p9 (p : PSt (RegsAt B)) (s : DSt F B) := mkD (d_v s) (rg_bus (dev p)) (d_m s) (uart_map s) (d_dist s) (d_cpu s) (rtc_map s) p.

Definition on_vm {A} (m : VM F A) : DM A := λ s, let? (a, v) := m (d_v s) in Done (a, set_v v s).
Definition on_mach {A} (m : AM A) : DM A := λ s, let? (a, x) := m (d_m s) in Done (a, set_mach x s).

(** ** Access through the page tables

    The entry the tables of the kernel hold for the page, with the offset; a
    store needs the bit for read-only to be clear. *)
Definition mmu (store : bool) (va : Z) : DM Z := λ s,
  match translate (d_v s) im_pt va with
  | Some e => if store && Z.testbit e 7 then Fault FUB else Done (Z.land e PHY_MASK + vaddr_offt va, s)
  | None => Fault FUB
  end.

Definition vread (va : Z) : DM Z := let! p := mmu false va in gets (λ s, reg_read (d_bus s) p).
Definition vwrite (va v : Z) : DM unit := let! p := mmu true va in modify (λ s, set_bus (reg_write (d_bus s) p v) s).

(** [let x = base.read_volatile() | v; base.write_volatile(x)] *)
Definition vor (va v : Z) : DM unit := let! x := vread va in vwrite va (Z.lor x v).

(** [vm::map(p, 1, vm::PR_PW).unwrap()] *)
Definition map_page (p : Z) : DM Z :=
  let! r := on_vm (map p 1 PR_PW) in
  match r with inr v => ret v | inl _ => panic end.

#[export] Instance dev_gic : Gic (DSt F B) := {|
  gic_read := vread; gic_write := vwrite; gic_dist := d_dist; gic_cpu := d_cpu;
|}.

(** ** [uart.rs] *)
Definition enable_tx (m : Z) : DM unit := vor (m +! 0x30) 0x101.
Definition enable_rx (m : Z) : DM unit :=
  vor (m +! 0x30) (wshl 32 1 9) ;;;
  vor (m +! 0x2c) (wshl 32 1 4) ;;;
  vor (m +! 0x38) (wshl 32 1 4) ;;;
  gic_enable_intr 33.
Definition init_tx : DM unit := let! v := map_page 0x9000000 in modify (set_uart v) ;;; enable_tx v.
Definition init_rx : DM unit := let! m := gets uart_map in enable_rx m.
Definition write_char (c m : Z) : DM unit := vwrite m c.
Definition write_bytes (b : list Z) : DM unit := let! m := gets uart_map in forM b (λ c, write_char c m).
Definition clr_rx : DM unit := let! m := gets uart_map in vwrite (m +! 0x44) (wshl 32 1 4).
Definition uart_read : DM Z := let! m := gets uart_map in vread m.
Definition read_fl : DM Z := let! m := gets uart_map in vread (m +! 0x18).

(** ** [trap.rs], [timer.rs], [rtc.rs] *)
Definition trap_init : DM unit :=
  let! m := map_page 0x8000000 in modify (set_dist m) ;;;
  let! m := map_page 0x8010000 in modify (set_cpu m) ;;;
  gic_enable.
Definition timer_init : DM unit := gic_enable_intr 30 ;;; on_mach (w_pctl_el0 1).
Definition rtc_init : DM unit := let! v := map_page 0x9010000 in modify (set_rtc v).
Definition rtc_read : DM Z := let! m := gets rtc_map in vread m.

(** ** [virtio.rs]: the bus *)
Section p9.
(** What [P9Ops] takes for the device behind a queue and for addresses; the
    areas are those of the client's queue. *)
Context (device : RegsAt B → list Z → nat → RegsAt B * list Z) (v2p9 : Z → option Z) (buf_ptr : Z).
Context (used_pa avail_pa desc_pa : Z).

(** [p9::init(reg, irq_n)] *)
Definition p9_start (reg irq : Z) : DM unit :=
  let! base := mmu true reg in
  let! s := get in
  let p := d_p9 s in
  let p := mkPSt (p_q p) (fid_bs p) (p_tag p) (root_qid p) (has_regs p) (files p) (mkRegs (d_bus s) base) (dev_pos p) in
  if has_regs p then ret tt
  else
    (λ s, let? (_, p') := P9Ops.p9_init device v2p9 buf_ptr used_pa avail_pa desc_pa p in Done (tt, set_p9 p' s)) ;;;
    gic_enable_intr irq.

(** One of the eight blocks of 512 bytes of a page. *)
Definition probe (reg irq : Z) : DM unit :=
  let! mg := vread (reg +! MAGICVALUE) in assert_ (mg =? 0x74726976) ;;;
  let! ver := vread (reg +! VERSION) in assert_ (ver =? 2) ;;;
  let! id := vread (reg +! DEVICEID) in
  if id =? 9 then p9_start reg irq else ret tt.

Definition virtio_init : DM unit :=
  let! m0 := map_page 0xa000000 in
  let! m1 := map_page (0xa000000 + 4096) in
  let! m2 := map_page (0xa000000 + 4096 * 2) in
  let! m3 := map_page (0xa000000 + 4096 * 3) in
  forM [(0, m0); (1, m1); (2, m2); (3, m3)] (λ '(m, v), forM (range 0 8) (λ i, probe (v + 512 * i) (0x10 + 32 + 8 * m + i))).

(** ** [main.rs] *)
Definition main_devices : DM unit :=
  init_tx ;;; trap_init ;;; init_rx ;;; timer_init ;;; rtc_init ;;; virtio_init ;;; on_mach enable_fp.
End p9.
End dev.
