(* ===== verification/DevSpec.v ===== *)
(** * The devices after [main] has found them

    [phys_devices] says what the start-up of the drivers does to the hardware,
    with physical addresses and without page tables.  [main_devices] does the
    same through the pages it maps. *)
From S2P Require Import Prelude Stuff Pm Virtio P9 P9Ops Vm VmInv VmTree VmRun VmSpec VmKern Arch Gic Dev.

Local Open Scope Z_scope.

(** ** The reference *)
Record Hw (B : Type) := mkHw { h_bus : B; h_m : Machine; h_p9 : PSt (RegsAt B) }.
Arguments mkHw {B}.
Arguments h_bus {B}.
Arguments h_m {B}.
Arguments h_p9 {B}.

Section hw.
Context {B : Type} `{Mmio B}.

Definition HM := M (Hw B).

Definition pread (pa : Z) : HM Z := gets (λ h, reg_read (h_bus h) pa).
Definition pwrite (pa v : Z) : HM unit := modify (λ h, mkHw (reg_write (h_bus h) pa v) (h_m h) (h_p9 h)).
Definition por (pa v : Z) : HM unit := let! x := pread pa in pwrite pa (Z.lor x v).
Definition hmach (m : AM unit) : HM unit := λ h, let? (_, x) := m (h_m h) in Done (tt, mkHw (h_bus h) x (h_p9 h)).

(** Interrupt [i] reaches the processor. *)
Definition intr_on (i : Z) : HM unit := por (0x8000100 + 4 * (i / 32)) (wshl 32 1 (i mod 32)).

Context (device : RegsAt B → list Z → nat → RegsAt B * list Z) (v2p9 : Z → option Z) (buf_ptr : Z).
Context (used_pa avail_pa desc_pa : Z).

Definition p9_on (base irq : Z) : HM unit :=
  let! h := get in
  let p := h_p9 h in
  let p := mkPSt (p_q p) (fid_bs p) (p_tag p) (root_qid p) (has_regs p) (files p) (mkRegs (h_bus h) base) (dev_pos p) in
  if has_regs p then ret tt
  else
    (λ h, let? (_, p') := p9_init device v2p9 buf_ptr used_pa avail_pa desc_pa p in
          Done (tt, mkHw (rg_bus (dev p')) (h_m h) p')) ;;;
    intr_on irq.

(** Slot [k] of the virtio bus: a block of 512 bytes and an interrupt. *)
Definition slot_on (k : Z) : HM unit :=
  let base := 0xa000000 + 512 * k in
  let! mg := pread base in assert_ (mg =? 0x74726976) ;;;
  let! ver := pread (base + 4) in assert_ (ver =? 2) ;;;
  let! id := pread (base + 8) in
  if id =? 9 then p9_on base (48 + k) else ret tt.

Definition uart_tx_on : HM unit := por 0x9000030 0x101.
Definition gic_on : HM unit := pwrite 0x8010004 0xff ;;; pwrite 0x8000000 1 ;;; pwrite 0x8010000 1.
Definition uart_rx_on : HM unit :=
  por 0x9000030 (2 ^ 9) ;;; por 0x900002c (2 ^ 4) ;;; por 0x9000038 (2 ^ 4) ;;; intr_on 33.
Definition timer_on : HM unit := intr_on 30 ;;; hmach (w_pctl_el0 1).

Definition phys_devices : HM unit :=
  uart_tx_on ;;; gic_on ;;; uart_rx_on ;;; timer_on ;;; forM (range 0 32) slot_on ;;; hmach enable_fp.
End hw.

(** ** Simulation *)
Section sim.
Context {im : Image} {F : Type} {fo : FrameOps F} {fl : FrameLaws F} {B : Type} `{Mmio B}.
Implicit Types (s : DSt F B).

Definition hw_of s : Hw B := mkHw (d_bus s) (d_m s) (d_p9 s).

(** From a state with [P], [m] does to the hardware what [m'] does. *)
Definition sim {A A'} (P : DSt F B → Prop) (m : DM A) (m' : HM A') (Q : A → A' → DSt F B → Prop) : Prop :=
  ∀ s, P s → match m' (hw_of s) with
             | Done (a', h) => ∃ a s', m s = Done (a, s') ∧ hw_of s' = h ∧ Q a a' s'
             | Fault f => m s = Fault f
             end.

Lemma sim_bind {A A' C C'} P (m : DM A) (m' : HM A') Q (k : A → DM C) (k' : A' → HM C') R :
  sim P m m' Q → (∀ a a', sim (Q a a') (k a) (k' a') R) → sim P (bind m k) (bind m' k') R.
Proof.
  intros Hm Hk s Hs. specialize (Hm s Hs). unfold bind at 1. destruct (m' (hw_of s)) as [[a' h]|f].
  - destruct Hm as (a & s' & E & <- & HQ). specialize (Hk a a' s' HQ). unfold bind. by rewrite E.
  - unfold bind. by rewrite Hm.
Qed.

(** A step the hardware does not see. *)
Lemma sim_skip {A C C'} P (m : DM A) Q (k : A → DM C) (m' : HM C') R :
  (∀ s, P s → ∃ a s', m s = Done (a, s') ∧ hw_of s' = hw_of s ∧ Q a s') →
  (∀ a, sim (Q a) (k a) m' R) → sim P (bind m k) m' R.
Proof.
  intros Hm Hk s Hs. destruct (Hm s Hs) as (a & s' & E & Eh & HQ). specialize (Hk a s' HQ). rewrite Eh in Hk.
  unfold bind. by rewrite E.
Qed.

Lemma sim_conseq {A A'} (P P' : DSt F B → Prop) (m : DM A) (m' : HM A') (Q Q' : A → A' → DSt F B → Prop) :
  sim P' m m' Q' → (∀ s, P s → P' s) → (∀ a a' s, Q' a a' s → Q a a' s) → sim P m m' Q.
Proof.
  intros Hm HP HQ s Hs. specialize (Hm s (HP s Hs)). destruct (m' (hw_of s)) as [[a' h]|f]; [|done].
  destruct Hm as (a & s' & E & Eh & Hq). eauto 8.
Qed.

Lemma sim_assert {C C'} P b (k : unit → DM C) (k' : unit → HM C') R :
  (b = true → sim P (k tt) (k' tt) R) → sim P (bind (assert_ b) k) (bind (assert_ b) k') R.
Proof. intros Hk s Hs. destruct b; [by apply Hk|done]. Qed.

Lemma sim_pure {C C'} (X : Prop) (P : DSt F B → Prop) (m : DM C) (m' : HM C') R :
  (X → sim P m m' R) → sim (λ s, X ∧ P s) m m' R.
Proof. intros Hm s [Hx Hs]. by apply Hm. Qed.

Lemma sim_assoc {A C E C'} (P : DSt F B → Prop) (m : DM A) (k : A → DM C) (k' : C → DM E) (m' : HM C') R :
  sim P (bind m (λ a, bind (k a) k')) m' R → sim P (bind (bind m k) k') m' R.
Proof. intros Hm s Hs. rewrite bind_assoc. by apply Hm. Qed.

Lemma sim_ret {A} (P : DSt F B → Prop) (a : A) : sim P (ret a) (ret a) (λ x x' s, x = x' ∧ P s).
Proof. intros s Hs. by exists a, s. Qed.

Lemma sim_forM {X Y} P (f : X → DM unit) (f' : Y → HM unit) l l' :
  Forall2 (λ x y, sim P (f x) (f' y) (λ _ _, P)) l l' → sim P (forM l f) (forM l' f') (λ _ _, P).
Proof.
  induction 1 as [|x y l l' Hxy _ IH]; [by intros s Hs; exists tt, s|].
  apply (sim_bind P _ _ (λ _ _, P)); [exact Hxy|]. intros _ _. exact IH.
Qed.

Lemma sim_forM_app {Y C C'} P Q (m : DM unit) (k : DM C) (f' : Y → HM unit) l1 l2 (k' : HM C') R :
  sim P m (forM l1 f') (λ _ _, Q) → sim Q k (bind (forM l2 f') (λ _, k')) R →
  sim P (bind m (λ _, k)) (bind (forM (l1 ++ l2) f') (λ _, k')) R.
Proof.
  intros H1 H2 s Hs. specialize (H1 s Hs). destruct (forM l1 f' (hw_of s)) as [[[] h]|e] eqn:E.
  - destruct H1 as ([] & s' & E' & <- & Hq). specialize (H2 s' Hq). unfold bind in *. rewrite E', (forM_app _ _ _ _ _ E). exact H2.
  - unfold bind. rewrite H1. replace (forM (l1 ++ l2) f' (hw_of s)) with (@Fault (unit * Hw B) e); [done|].
    clear H1 H2 Hs. revert E. generalize (hw_of s). induction l1 as [|x l1 IH]; intros h; [done|]. simpl. unfold bind.
    destruct (f' x h) as [[a h']|]; [apply IH|]. congruence.
Qed.
End sim.

(** ** The pages of the devices *)

(** In the order they are mapped: the serial port, the two parts of the
    interrupt controller, the clock, four pages of virtio registers. *)
Definition dev_pages : list Z :=
  [0x9000000; 0x8000000; 0x8010000; 0x9010000; 0xa000000; 0xa001000; 0xa002000; 0xa003000].

Definition dev_leaf (p : Z) : Z := Z.lor (Z.lor p PR_PW) 0x403.

Lemma dev_leaf_frame i p : dev_pages !! i = Some p → Z.land (dev_leaf p) PHY_MASK = p ∧ Z.testbit (dev_leaf p) 7 = false.
Proof. intros Hi. do 8 (destruct i as [|i]; [by injection Hi as <-|]). done. Qed.

Section pages.
Context {im : Image} {F : Type} {fo : FrameOps F} {fl : FrameLaws F} {B : Type} {mm : Mmio B}.
(** The kernel's memory before the drivers start; [st] is its first free page. *)
Context (v0 : VSt F) (T : gmap Z (Z * list Z)) (W : gmap Z Z) (st : Z).
Implicit Types (s : DSt F B) (v : VSt F) (n : nat).

Definition kp (i : Z) : Z := st + i * 4096.

(** The first [n] devices are mapped, at the first [n] pages. *)
Record Up n v : Prop := {
  up_k : ∃ T' G', KInv v T' W G' ∧ T ⊆ T';
  up_start : r_start (regions v) = st;
  up_room : room (frames v) (3 * (8 - n));
  up_bits : ∀ i, 0 ≤ i < 128 → kbit v i = bool_decide (i < Z.of_nat n);
  up_map : ∀ i p, dev_pages !! i = Some p → (i < n)%nat → translate v im_pt (kp (Z.of_nat i)) = Some (dev_leaf p);
  up_same : ∀ (r' v' : Z), T !! r' = Some (r', []) → ¬ win_page r' v' →
    ¬ (r' = im_pt ∧ ∃ i, 0 ≤ i < Z.of_nat n ∧ vpn v' = vpn (kp i)) → translate v r' v' = translate v0 r' v';
}.

Lemma Up_klow n v i : Up n v → 0 ≤ i ≤ 128 → klow (kp i) ∧ st mod 4096 = 0.
Proof.
  intros [(T' & G' & [_ _ Hlo Hhi Hal _ _ _] & _) Hst _ _ _ _] Hi. rewrite Hst in *. unfold klow, kp. lia.
Qed.

Lemma map_page_run s n p :
  (base.size W + 3 ≤ 128)%nat → Up n (d_v s) → dev_pages !! n = Some p →
  ∃ v', map_page p s = Done (kp (Z.of_nat n), set_v v' s) ∧ Up (S n) v'.
Proof.
  intros Hsz HU Hp. pose proof (lookup_lt_Some _ _ _ Hp) as Hn. change (length dev_pages) with 8%nat in Hn.
  destruct HU as [(T1 & G1 & HK & HT) Hst Hrm Hb Hm Hs] eqn:HUe. clear HUe.
  assert (0 ≤ p ∧ p + 1 * 4096 < 2 ^ 64) as [P0 P1].
  { do 8 (destruct n as [|n]; [injection Hp as <-; lia|]). done. }
  destruct (map_run (d_v s) T1 W G1 p 1 PR_PW (3 * (8 - S n)) HK) as [[_ Hno]|(j & v' & T2 & G2 & E & Hj & Hjn & Hc & Hmin & HK2 & HT2 & Rm & Es & Hb2 & Ht & Ho)];
    [lia|done| |done|done| |].
  { replace (3 * Z.to_nat 1 + 3 * (8 - S n))%nat with (3 * (8 - n))%nat by lia. done. }
  { exfalso. apply (Hno (Z.of_nat n)); [lia|lia|]. intros i Hi. replace i with (Z.of_nat n) by lia.
    change (kbit (d_v s) (Z.of_nat n) = false). rewrite Hb by lia. apply bool_decide_eq_false_2. lia. }
  assert (j = Z.of_nat n) as ->.
  { specialize (Hc j ltac:(lia)). change (kbit (d_v s) j = false) in Hc. rewrite Hb in Hc by lia.
    apply bool_decide_eq_false in Hc. destruct (decide (Z.of_nat n < j)) as [Hlt|]; [|lia]. exfalso.
    apply (Hmin (Z.of_nat n)); [lia|]. intros i Hi. replace i with (Z.of_nat n) by lia.
    change (kbit (d_v s) (Z.of_nat n) = false). rewrite Hb by lia. apply bool_decide_eq_false_2. lia. }
  assert (∀ i, kpage (d_v s) i = kp i) as Ekp by (intros i; unfold kpage, kp; by rewrite Hst).
  exists v'. split.
  { unfold map_page, on_vm, bind, obind. rewrite E. by rewrite Ekp. }
  split; [exists T2, G2; split; [done|by etrans]|by rewrite Es| | | |].
  - done.
  - intros i Hi. rewrite Hb2, Hb by done. do 2 case_bool_decide; try lia; case_bool_decide; try lia; done.
  - intros i q Hi Hlt. assert (klow (kp (Z.of_nat i)) ∧ klow (kp (Z.of_nat n))) as [K1 K2].
    { destruct HK as [_ _ Hlo Hhi _ _ _ _]. rewrite Hst in *. unfold klow, kp. lia. }
    destruct (decide (i = n)) as [->|Hne].
    + rewrite Hp in Hi. injection Hi as <-. specialize (Ht 0 ltac:(lia)). rewrite Z.add_0_r, Ekp in Ht. rewrite Ht.
      by rewrite Z.add_0_r.
    + rewrite Ho; [apply Hm; [done|lia]|apply HK|by apply klow_not_win|].
      intros [_ (a & Ha & Ea)]. replace a with 0 in Ea by lia. rewrite Ekp, Z.add_0_r, !vpn_klow in Ea by done. unfold kp, klow, VOFFT in *. zdiv.
  - intros r' v1 Hr Hw Hd. rewrite Ho; [apply Hs; [done|done|]|by eapply lookup_weaken|done|].
    + intros [-> (i & Hi & Ei)]. apply Hd. split; [done|]. exists i. split; [lia|done].
    + intros [-> (i & Hi & Ei)]. apply Hd. split; [done|]. exists (Z.of_nat n). split; [lia|].
      replace i with 0 in Ei by lia. by rewrite Ekp, Z.add_0_r in Ei.
Qed.

Lemma mmu_run s n i p off b :
  Up n (d_v s) → dev_pages !! i = Some p → (i < n)%nat → 0 ≤ off < 4096 → mmu b (kp (Z.of_nat i) + off) s = Done (p + off, s).
Proof.
  intros HU Hp Hi Ho. pose proof (lookup_lt_Some _ _ _ Hp) as Hn. change (length dev_pages) with 8%nat in Hn.
  destruct (Up_klow n _ (Z.of_nat i) HU ltac:(lia)) as [Hk Hal]. destruct (Up_klow n _ (Z.of_nat i + 1) HU ltac:(lia)) as [Hk1 _].
  assert (klow (kp (Z.of_nat i) + off)) as Hk2 by (unfold klow, kp in *; lia).
  assert (same_page (kp (Z.of_nat i) + off) (kp (Z.of_nat i))) as [E1 E2].
  { rewrite same_page_vpn, !vpn_klow by done. unfold kp, klow, VOFFT in *. zdiv. }
  assert (vaddr_offt (kp (Z.of_nat i) + off) = off) as Eo.
  { unfold vaddr_offt. change 0xfff with (Z.ones 12). rewrite Z.land_ones by lia. change (2 ^ 12) with 4096. unfold kp in *. zdiv. }
  pose proof (up_map _ _ HU i p Hp Hi) as Ht. destruct (dev_leaf_frame i p Hp) as [El Eb].
  unfold mmu, translate, walk. unfold vpath in E1. injection E1 as -> -> ->. rewrite E2.
  unfold translate, walk in Ht. rewrite Ht, Eb, andb_false_r, El, Eo. done.
Qed.

(** ** Register accesses *)

(** The variables of the drivers, once their pages are mapped. *)
Definition vars n s : Prop :=
  ((1 ≤ n)%nat → uart_map s = kp 0) ∧ ((2 ≤ n)%nat → d_dist s = kp 1) ∧ ((3 ≤ n)%nat → d_cpu s = kp 2) ∧ ((4 ≤ n)%nat → rtc_map s = kp 3).

Definition At n s : Prop := Up n (d_v s) ∧ vars n s.

Lemma kp_off n v i off : Up n v → 0 ≤ i < 128 → 0 ≤ off < 4096 → kp i +! off = kp i + off.
Proof. intros HU Hi Ho. destruct (Up_klow n v i HU ltac:(lia)) as [Hk _]. apply wadd_small. unfold klow, VOFFT in Hk. lia. Qed.

Lemma sim_read n i p off va :
  dev_pages !! i = Some p → (i < n)%nat → 0 ≤ off < 4096 → (∀ v, Up n v → va = kp (Z.of_nat i) + off) →
  sim (At n) (vread va) (pread (p + off)) (λ a a' s, a = a' ∧ At n s).
Proof.
  intros Hp Hi Ho Hva s [HU Hv]. rewrite (Hva _ HU). unfold pread, gets. exists (reg_read (d_bus s) (p + off)), s. split_and!; [|done..].
  unfold vread. unfold bind. by rewrite (mmu_run s n i p off false HU Hp Hi Ho).
Qed.

Lemma sim_write n i p off va x :
  dev_pages !! i = Some p → (i < n)%nat → 0 ≤ off < 4096 → (∀ v, Up n v → va = kp (Z.of_nat i) + off) →
  sim (At n) (vwrite va x) (pwrite (p + off) x) (λ _ _, At n).
Proof.
  intros Hp Hi Ho Hva s [HU Hv]. rewrite (Hva _ HU). unfold pwrite, modify. exists tt, (set_bus (reg_write (d_bus s) (p + off) x) s). split_and!; [|done|done].
  unfold vwrite. unfold bind. by rewrite (mmu_run s n i p off true HU Hp Hi Ho).
Qed.

Lemma sim_or n i p off va x :
  dev_pages !! i = Some p → (i < n)%nat → 0 ≤ off < 4096 → (∀ v, Up n v → va = kp (Z.of_nat i) + off) →
  sim (At n) (vor va x) (por (p + off) x) (λ _ _, At n).
Proof.
  intros Hp Hi Ho Hva. eapply sim_bind; [by apply (sim_read n i p off)|]. intros a a'. cbn beta.
  intros s [-> Hs]. revert s Hs. by apply (sim_write n i p off).
Qed.

Lemma sim_gets {C C'} n (f : DSt F B → Z) (x : Z) (k : Z → DM C) (m' : HM C') R :
  (∀ s, At n s → f s = x) → sim (At n) (k x) m' R → sim (At n) (bind (gets f) k) m' R.
Proof. intros Hf Hk s Hs. unfold bind, gets. rewrite (Hf s Hs). exact (Hk s Hs). Qed.

Context (Hsz : (base.size W + 3 ≤ 128)%nat).

Lemma sim_map {C C'} n p (k : Z → DM C) (m' : HM C') R :
  dev_pages !! n = Some p → sim (λ s, Up (S n) (d_v s) ∧ vars n s) (k (kp (Z.of_nat n))) m' R → sim (At n) (bind (map_page p) k) m' R.
Proof using Hsz.
  intros Hp Hk s [HU Hv]. destruct (map_page_run s n p Hsz HU Hp) as (v' & E & HU'). unfold bind. rewrite E.
  exact (Hk (set_v v' s) (conj HU' Hv)).
Qed.

Lemma sim_modify {C C'} (P P' : DSt F B → Prop) (f : DSt F B → DSt F B) (k : unit → DM C) (m' : HM C') R :
  (∀ s, P s → P' (f s)) → (∀ s, hw_of (f s) = hw_of s) → sim P' (k tt) m' R → sim P (bind (modify f) k) m' R.
Proof. intros Hf Hh Hk s Hs. specialize (Hk _ (Hf s Hs)). rewrite Hh in Hk. exact Hk. Qed.

(** A page that is mapped and has no variable of its own. *)
Lemma sim_map_at {C C'} n p (k : Z → DM C) (m' : HM C') R :
  dev_pages !! n = Some p → (4 ≤ n)%nat → sim (At (S n)) (k (kp (Z.of_nat n))) m' R → sim (At n) (bind (map_page p) k) m' R.
Proof using Hsz.
  intros Hp Hn Hk. apply (sim_map n p k m' R Hp). intros s [HU Hv]. apply Hk. split; [exact HU|].
  destruct Hv as (H1 & H2 & H3 & H4). repeat split; intros _; [apply H1|apply H2|apply H3|apply H4]; lia.
Qed.
End pages.

(** [va = kp i + off], where the code computes it. *)
Ltac at_off := intros ? HU'; cbv beta; (eapply kp_off; [exact HU'|lia|lia]) || (rewrite Z.add_0_r; reflexivity).

Section drivers.
Context {im : Image} {F : Type} {fo : FrameOps F} {fl : FrameLaws F} {B : Type} {mm : Mmio B}.
Context (v0 : VSt F) (T : gmap Z (Z * list Z)) (W : gmap Z Z) (st : Z) (Hsz : (base.size W + 3 ≤ 128)%nat).

Notation At := (At (B := B) v0 T W st).

Lemma sim_init_tx : sim (At 0) init_tx uart_tx_on (λ _ _, At 1).
Proof using Hsz.
  unfold init_tx. apply (sim_map v0 T W st Hsz 0 0x9000000); [done|].
  eapply sim_modify; [|done|].
  - intros s [HU Hv]. instantiate (1 := At 1). split; [exact HU|]. by repeat split; intros; try lia.
  - apply (sim_or v0 T W st 1 0 0x9000000 0x30); [done|lia|lia|at_off].
Qed.

Lemma sim_intr n i : (2 ≤ n)%nat → 0 ≤ i < 1020 → sim (At n) (gic_enable_intr i) (intr_on i) (λ _ _, At n).
Proof.
  clear Hsz. intros Hn Hi. unfold gic_enable_intr, gic_set_bit. eapply sim_gets; [intros s Hs; apply Hs; lia|].
  assert (intr_on (B := B) i = por (0x8000000 + (0x100 + 4 * (i / 32))) (wshl 32 1 (i mod 32))) as -> by (unfold intr_on; f_equal; lia).
  change (sim (At n) (vor (kp st 1 +! 0x100 +! 4 * (i / 32)) (wshl 32 1 (i mod 32))) (por (0x8000000 + (0x100 + 4 * (i / 32))) (wshl 32 1 (i mod 32))) (λ _ _, At n)).
  apply (sim_or v0 T W st n 1 0x8000000 (0x100 + 4 * (i / 32))); [done|lia|zdiv|].
  intros v HU. rewrite (kp_off v0 T W st n v 1 0x100 HU) by lia.
  destruct (Up_klow v0 T W st n v 1 HU ltac:(lia)) as [Hk _]. unfold klow, VOFFT in Hk.
  assert (0 ≤ 4 * (i / 32) < 128) by zdiv.
  rewrite wadd_small by lia. change (Z.of_nat 1) with 1. lia.
Qed.

Lemma sim_trap_init : sim (At 1) trap_init gic_on (λ _ _, At 3).
Proof using Hsz.
  unfold trap_init. apply (sim_map v0 T W st Hsz 1 0x8000000); [done|].
  eapply (sim_modify _ (At 2)); [|done|].
  { intros s [HU Hv]. split; [exact HU|]. destruct Hv as (Hv & _). repeat split; intros; try lia. by apply Hv. }
  apply (sim_map v0 T W st Hsz 2 0x8010000); [done|].
  eapply (sim_modify _ (At 3)); [|done|].
  { intros s [HU Hv]. split; [exact HU|]. destruct Hv as (H1 & H2 & _). repeat split; intros; try lia; [by apply H1; lia|by apply H2]. }
  unfold gic_enable, gic_on.
  eapply sim_gets; [intros s Hs; apply Hs; lia|]. eapply sim_bind.
  { apply (sim_write v0 T W st 3 2 0x8010000 4); [done|lia|lia|at_off]. }
  intros [] []. cbv beta. eapply sim_gets; [intros s Hs; apply Hs; lia|]. eapply sim_bind.
  { apply (sim_write v0 T W st 3 1 0x8000000 0); [done|lia|lia|at_off]. }
  intros [] []. cbv beta. eapply sim_gets; [intros s Hs; apply Hs; lia|].
  apply (sim_write v0 T W st 3 2 0x8010000 0); [done|lia|lia|at_off].
Qed.

Lemma sim_init_rx : sim (At 3) init_rx uart_rx_on (λ _ _, At 3).
Proof.
  clear Hsz.
  unfold init_rx, enable_rx, uart_rx_on. eapply sim_gets; [intros s Hs; apply Hs; lia|].
  eapply sim_bind; [apply (sim_or v0 T W st 3 0 0x9000000 0x30); [done|lia|lia|at_off]|]. intros [] []. cbv beta.
  eapply sim_bind; [apply (sim_or v0 T W st 3 0 0x9000000 0x2c); [done|lia|lia|at_off]|]. intros [] []. cbv beta.
  eapply sim_bind; [apply (sim_or v0 T W st 3 0 0x9000000 0x38); [done|lia|lia|at_off]|]. intros [] []. cbv beta.
  by apply sim_intr; lia.
Qed.

Lemma sim_mach n (m : AM unit) : sim (At n) (on_mach m) (hmach m) (λ _ _, At n).
Proof.
  intros s Hs. unfold hmach, on_mach. simpl. destruct (m (d_m s)) as [[[] x]|f]; simpl; [|done]. by exists tt, (set_mach x s).
Qed.

Lemma sim_timer_init : sim (At 3) timer_init timer_on (λ _ _, At 3).
Proof. clear Hsz. eapply sim_bind; [by apply sim_intr; lia|]. intros [] []. cbv beta. apply sim_mach. Qed.

Lemma rtc_init_run s : At 3 s → ∃ s', rtc_init s = Done (tt, s') ∧ hw_of s' = hw_of s ∧ At 4 s'.
Proof using Hsz.
  intros [HU Hv]. destruct (map_page_run v0 T W st s 3 0x9010000 Hsz HU eq_refl) as (v' & E & HU').
  eexists. split; [unfold rtc_init, bind; rewrite E; reflexivity|]. split; [done|]. split; [exact HU'|].
  destruct Hv as (H1 & H2 & H3 & _). split_and!; intros _; [apply H1; lia|apply H2; lia|apply H3; lia|done].
Qed.

Context (device : RegsAt B → list Z → nat → RegsAt B * list Z) (v2p9 : Z → option Z) (buf_ptr used_pa avail_pa desc_pa : Z).

Lemma sim_p9_start n i p off reg irq :
  dev_pages !! i = Some p → (i < n)%nat → 0 ≤ off < 4096 → (∀ v, Up v0 T W st n v → reg = kp st (Z.of_nat i) + off) →
  (2 ≤ n)%nat → 0 ≤ irq < 1020 →
  sim (At n) (p9_start device v2p9 buf_ptr used_pa avail_pa desc_pa reg irq)
    (p9_on device v2p9 buf_ptr used_pa avail_pa desc_pa (p + off) irq) (λ _ _, At n).
Proof.
  clear Hsz. intros Hp Hi Ho Hreg Hn Hirq s Hs. pose proof Hs as [HU _]. unfold p9_start, p9_on.
  rewrite (bind_Done _ _ _ _ _ (eq_trans (f_equal (λ a, mmu true a s) (Hreg _ HU)) (mmu_run v0 T W st s n i p off true HU Hp Hi Ho))).
  unfold bind, get. cbv beta iota zeta. change (h_p9 (hw_of s)) with (d_p9 s). change (h_bus (hw_of s)) with (d_bus s).
  set (p1 := mkPSt _ _ _ _ _ _ _ _). destruct (has_regs p1); [by exists tt, s|].
  destruct (p9_init _ _ _ _ _ _ p1) as [[[] p2]|f]; cbv beta iota delta [obind]; [|done].
  apply (sim_intr n irq Hn Hirq (set_p9 p2 s)). destruct Hs as [H1 H2]. by split.
Qed.

Notation probe := (probe device v2p9 buf_ptr used_pa avail_pa desc_pa).
Notation slot_on := (slot_on device v2p9 buf_ptr used_pa avail_pa desc_pa).

Lemma sim_probe m i : 0 ≤ m < 4 → 0 ≤ i < 8 →
  sim (At 8) (probe (kp st (4 + m) + 512 * i) (48 + 8 * m + i)) (slot_on (8 * m + i)) (λ _ _, At 8).
Proof.
  clear Hsz. intros Hm Hi. set (p := 0xa000000 + 4096 * m).
  assert (dev_pages !! Z.to_nat (4 + m) = Some p) as Hp.
  { assert (m = 0 ∨ m = 1 ∨ m = 2 ∨ m = 3) as [-> |[-> |[-> | ->]]] by lia; done. }
  assert (∀ off v, 0 ≤ off < 512 → Up v0 T W st 8 v → kp st (4 + m) + 512 * i +! off = kp st (Z.of_nat (Z.to_nat (4 + m))) + (512 * i + off)) as Hva.
  { intros off v Ho HU. destruct (Up_klow v0 T W st 8 v (4 + m) HU ltac:(lia)) as [Hk _]. unfold klow, VOFFT in Hk.
    rewrite Z2Nat.id by lia. rewrite wadd_small by lia. lia. }
  assert (∀ off, 0xa000000 + 512 * (8 * m + i) + off = p + (512 * i + off)) as Hpa by (intros; unfold p; lia).
  unfold Dev.probe, DevSpec.slot_on.
  replace (0xa000000 + 512 * (8 * m + i)) with (0xa000000 + 512 * (8 * m + i) + 0) at 1 by lia. rewrite !Hpa.
  assert (∀ off, 0 ≤ off < 512 → sim (At 8) (vread (kp st (4 + m) + 512 * i +! off)) (pread (p + (512 * i + off))) (λ a a' s, a = a' ∧ At 8 s)) as Hrd.
  { intros off Ho. apply (sim_read v0 T W st 8 (Z.to_nat (4 + m))); [done|lia|lia|]. intros v HU. by apply (Hva off v). }
  eapply sim_bind; [by apply Hrd|]. intros a ?. cbv beta. apply sim_pure. intros <-. apply sim_assert. intros _.
  eapply sim_bind; [by apply Hrd|]. intros b ?. cbv beta. apply sim_pure. intros <-. apply sim_assert. intros _.
  eapply sim_bind; [by apply Hrd|]. intros c ?. cbv beta. apply sim_pure. intros <-.
  destruct (c =? 9); [|by eapply sim_conseq; [apply sim_ret|done|intros ? ? ? [_ ?]]].
  replace (0xa000000 + 512 * (8 * m + i)) with (p + (512 * i + 0)) by (unfold p; lia).
  replace (48 + 8 * m + i) with (48 + (8 * m + i)) by lia.
  apply (sim_p9_start 8 (Z.to_nat (4 + m))); [done|lia|lia| |lia|lia].
  intros v HU. rewrite Z2Nat.id by lia. lia.
Qed.

Lemma sim_probes m : 0 ≤ m < 4 →
  sim (At 8) (forM (range 0 8) (λ i, probe (kp st (4 + m) + 512 * i) (48 + 8 * m + i))) (forM (range (8 * m) (8 * m + 8)) slot_on) (λ _ _, At 8).
Proof.
  clear Hsz. intros Hm. apply sim_forM.
  assert (range (8 * m) (8 * m + 8) = (λ i, 8 * m + i) <$> range 0 8) as ->.
  { assert (m = 0 ∨ m = 1 ∨ m = 2 ∨ m = 3) as [-> |[-> |[-> | ->]]] by lia; done. }
  apply Forall2_fmap_r, Forall_Forall2_diag, Forall_forall. intros i Hi%elem_of_range. by apply sim_probe.
Qed.

Lemma sim_virtio_init {C C'} (k : DM C) (k' : HM C') R :
  sim (At 8) k k' R →
  sim (At 4) (bind (virtio_init device v2p9 buf_ptr used_pa avail_pa desc_pa) (λ _, k)) (bind (forM (range 0 32) slot_on) (λ _, k')) R.
Proof using Hsz.
  intros Hk. unfold virtio_init. apply sim_assoc,  (sim_map_at v0 T W st Hsz 4); [done|lia|].
  apply sim_assoc,  (sim_map_at v0 T W st Hsz 5); [done|lia|].
  apply sim_assoc,  (sim_map_at v0 T W st Hsz 6); [done|lia|].
  apply sim_assoc,  (sim_map_at v0 T W st Hsz 7); [done|lia|].
  change (range 0 32) with (range (8 * 0) (8 * 0 + 8) ++ (range (8 * 1) (8 * 1 + 8) ++ (range (8 * 2) (8 * 2 + 8) ++ (range (8 * 3) (8 * 3 + 8) ++ [])))).
  cbn [forM].
  apply sim_assoc, (sim_forM_app (At 8) (At 8)); [exact (sim_probes 0 ltac:(lia))|].
  apply sim_assoc, (sim_forM_app (At 8) (At 8)); [exact (sim_probes 1 ltac:(lia))|].
  apply sim_assoc, (sim_forM_app (At 8) (At 8)); [exact (sim_probes 2 ltac:(lia))|].
  apply sim_assoc, (sim_forM_app (At 8) (At 8)); [exact (sim_probes 3 ltac:(lia))|].
  exact Hk.
Qed.
End drivers.

(** ** The theorem *)
Section theorem.
Context {im : Image} {F : Type} {fo : FrameOps F} {fl : FrameLaws F} {B : Type} {mm : Mmio B}.
Context (device : RegsAt B → list Z → nat → RegsAt B * list Z) (v2p9 : Z → option Z) (buf_ptr used_pa avail_pa desc_pa : Z).

(** C24: Finding the devices.  After [vm::init], the drivers' start-up in [main]
    does to the hardware exactly what [phys_devices] does with physical
    addresses: it enables the serial port for output and then for input, the
    interrupt controller, the interrupts 33 of the port and 30 of the timer
    and the timer itself, asks each of the 32 virtio slots for its magic number
    and its version, starts the 9p client in the first slot that has one and
    enables the interrupt of that slot; and it stops with a panic exactly where
    that does.  The pages it maps for this are the first eight of the kernel's
    region, in this order; the variables of the drivers hold their addresses;
    no other address is translated differently. *)
Theorem devices_found (s : DSt F B) T W G :
  KInv (d_v s) T W G → (base.size W + 3 ≤ 128)%nat → room (frames (d_v s)) 24 → (∀ i, 0 ≤ i < 128 → kbit (d_v s) i = false) →
  match phys_devices device v2p9 buf_ptr used_pa avail_pa desc_pa (hw_of s) with
  | Done (_, h) => ∃ s' T' G',
      main_devices device v2p9 buf_ptr used_pa avail_pa desc_pa s = Done (tt, s') ∧ hw_of s' = h ∧
      KInv (d_v s') T' W G' ∧ T ⊆ T' ∧
      (uart_map s', d_dist s', d_cpu s', rtc_map s') = (kpage (d_v s) 0, kpage (d_v s) 1, kpage (d_v s) 2, kpage (d_v s) 3) ∧
      (∀ i p off b, dev_pages !! i = Some p → 0 ≤ off < 4096 → mmu b (kpage (d_v s) (Z.of_nat i) + off) s' = Done (p + off, s')) ∧
      (∀ r v, T !! r = Some (r, []) → ¬ win_page r v → ¬ (r = im_pt ∧ ∃ i, 0 ≤ i < 8 ∧ vpn v = vpn (kpage (d_v s) i)) →
         translate (d_v s') r v = translate (d_v s) r v)
  | Fault f => main_devices device v2p9 buf_ptr used_pa avail_pa desc_pa s = Fault f
  end.
Proof.
  intros HK Hsz Hroom Hb. set (st := r_start (regions (d_v s))).
  assert (At (d_v s) T W st 0 s) as H0.
  { split; [|by split_and!; intros; lia]. split; [by exists T, G|done|done| |by intros; lia|done].
    intros i Hi. rewrite Hb by done. symmetry. apply bool_decide_eq_false_2. lia. }
  assert (sim (At (d_v s) T W st 0) (main_devices device v2p9 buf_ptr used_pa avail_pa desc_pa)
    (phys_devices device v2p9 buf_ptr used_pa avail_pa desc_pa) (λ _ _, At (d_v s) T W st 8)) as Hsim.
  { unfold main_devices, phys_devices. clear H0.
    eapply sim_bind; [by apply sim_init_tx|]. intros [] []. cbv beta. eapply sim_bind; [by apply sim_trap_init|]. intros [] []. cbv beta.
    eapply sim_bind; [by apply sim_init_rx|]. intros [] []. cbv beta. eapply sim_bind; [by apply sim_timer_init|]. intros [] []. cbv beta.
    apply (sim_skip _ _ (λ _, At (d_v s) T W st 4)).
    { intros s1 H1. destruct (rtc_init_run _ _ _ _ Hsz s1 H1) as (s2 & E & Eh & H2). by exists tt, s2. }
    intros _. apply sim_virtio_init; [done|]. apply sim_mach. }
  specialize (Hsim s H0). destruct (phys_devices _ _ _ _ _ _ (hw_of s)) as [[[] h]|f]; [|done].
  destruct Hsim as ([] & s' & E & Eh & HU & V1 & V2 & V3 & V4). pose proof HU as [(T' & G' & HK' & HT) _ _ _ _ Hs].
  exists s', T', G'. split_and!; [done..| | |].
  - by rewrite V1, V2, V3, V4 by lia.
  - intros i p off b Hp Ho. apply (mmu_run _ _ _ _ s' 8 i p off b HU Hp); [|done]. by apply lookup_lt_Some in Hp.
  - exact Hs.
Qed.
End theorem.
