(* ===== verification/DevWit.v ===== *)
(** * The devices of a small machine

    32 virtio slots, of which number 30 holds a 9p device whose server answers
    the two requests of the start-up. *)
From S2P Require Import Prelude Stuff Pm PmInv PmSpec Virtio P9Msg P9 P9Wire P9Ops P9Walk.
From S2P Require Import Vm VmInv VmTree VmPm VmSpec VmKern VmWit Arch Gic Dev DevSpec.

Local Open Scope Z_scope.

(** What was written last, and before that what the registers show after reset. *)
#[local] Instance small_bus : Mmio (gmap Z Z) := {|
  reg_read b a :=
    default (if (0xa000000 <=? a) && (a <? 0xa004000) then
               let k := (a - 0xa000000) / 512 in
               let off := a mod 512 in
               if off =? 0 then 0x74726976 else if off =? 4 then 2
               else if off =? 8 then (if k =? 30 then 9 else 0)
               else if off =? 0x34 then 1024 else 0
             else 0) (b !! a);
  reg_write b a v := <[a := v]> b;
|}.

Definition small_server (r : RegsAt (gmap Z Z)) (req : list Z) (room : nat) : RegsAt (gmap Z Z) * list Z :=
  match req !! 4%nat with
  | Some 100 => (r, u32 21 ++ [op_code RVERSION] ++ u16 0 ++ u32 U16_MAX ++ str VERSION_STR)
  | Some 104 => (r, u32 20 ++ [op_code RATTACH] ++ u16 0 ++ enc_qid (mkQID DIR 1 42))
  | _ => (r, [])
  end.

Definition small_mach : Machine := mkMach (replicate 31 0) 0 0 0 (λ _, 0) ∅.

Definition small_p9 : PSt (RegsAt (gmap Z Z)) :=
  match P9L (mkRegs ∅ 0) with
  | Done p => p
  | Fault _ => mkPSt (mkQ [] (avail_zeroed 0) (used_zeroed 0) (BitSet128.mk 0 0) [] 0) (BitSet128.mk 0 0) 0 qid_new true [] (mkRegs ∅ 0) 0
  end.

Definition small_dev {F} (v : VSt F) : DSt F (gmap Z Z) := mkD v ∅ small_mach 0 0 0 0 small_p9.

(** What the hardware is in the end: the control register of the serial port,
    the enabled interrupts, the status of the 9p device, and its client. *)
Definition small_view (h : Hw (gmap Z Z)) : list Z * bool * Z :=
  (reg_read (h_bus h) <$> [0x9000030; 0x8000100; 0x8000104; 0x8000108; 0xa000000 + 512 * 30 + 0x70],
   has_regs (h_p9 h), sysregs (h_m h) CNTP_CTL_EL0).

Lemma small_run :
  match phys_devices small_server Some 4096 8192 12288 16384 (mkHw ∅ small_mach small_p9) with
  | Done (_, h) => small_view h = ([0x301; 2 ^ 30; 2; 2 ^ 14; 14], true, 1)
  | Fault _ => False
  end.
Proof. vm_compute. reflexivity. Qed.

Lemma devices_found_witness :
  ∃ (im : Image) (s s' : DSt Pm.Allocator (gmap Z Z)),
    main_devices small_server Some 4096 8192 12288 16384 s = Done (tt, s') ∧
    small_view (hw_of s') = ([0x301; 2 ^ 30; 2; 2 ^ 14; 14], true, 1) ∧
    mmu true (uart_map s' + 0x30) s' = Done (0x9000030, s').
Proof.
  exists tiny_image. destruct tiny_kernel as (v & T & G & HK & Hr & Hb).
  pose proof (devices_found small_server Some 4096 8192 12288 16384 (small_dev v) T ∅ G HK) as Hd.
  change (hw_of (small_dev v)) with (mkHw (∅ : gmap Z Z) small_mach small_p9) in Hd. pose proof small_run as Hv.
  destruct (phys_devices _ _ _ _ _ _ _) as [[u h]|f]; [|done].
  destruct Hd as (s' & T' & G' & E & Eh & _ & _ & [= Eu _ _ _] & Hm & _).
  - rewrite map_size_empty. lia.
  - by apply (room_drop _ 64 24).
  - exact Hb.
  - exists (small_dev v), s'. split; [exact E|]. split; [rewrite Eh; exact Hv|].
    rewrite Eu. exact (Hm 0%nat 0x9000000 0x30 true eq_refl ltac:(lia)).
Defined.
