(* ===== verification/Vio.v ===== *)
(** * [blk.rs] and [rng.rs]: the block and the random device, as code

    Two drivers of the same shape: a queue, the registers, and a device that
    reads and writes physical memory through the descriptors it is handed.
    The device is not part of the program: each time the driver looks at the
    used ring in [wait_use], the device may have moved on ([vio_turn]). *)
From S2P Require Import Prelude Stuff Virtio VirtioInv.

Local Open Scope Z_scope.

(** [VirtioBlk] and [VirtioRng], with the memory they share with the device.
    [v_regs] is whether [regs] has been set. *)
Record VioSt (D : Type) := mkVio {
  v_q : Q;
  v_regs : bool;
  v_mem : Z → Z;
  v_dev : D;
  v_pos : Z;
}.
Arguments mkVio {D}.
Arguments v_q {D}.
Arguments v_regs {D}.
Arguments v_mem {D}.
Arguments v_dev {D}.
Arguments v_pos {D}.

(** [bs] at address [a] of a memory of bytes. *)
Definition mem_set (a : Z) (bs : list Z) (w : Z → Z) : Z → Z :=
  λ b, if decide (a ≤ b < a + Z.of_nat (length bs)) then bs !!! Z.to_nat (b - a) else w b.
Definition mem_get (a : Z) (n : nat) (w : Z → Z) : list Z := (λ i, w (a + Z.of_nat i)) <$> seq 0 n.

(** The descriptors a device follows from a head. *)
Fixpoint chain_of (fuel : nat) (q : Q) (h : Z) : option (list VqDesc) :=
  match fuel with
  | O => None
  | S fuel' =>
      d ← desc q !! Z.to_nat h;
      match get_next d with
      | None => Some [d]
      | Some n => (λ l, d :: l) <$> chain_of fuel' q n
      end
  end.

Class VioDev (D : Type) `{Mmio D} := {
  (** [Some d]: still at work *)
  vio_busy : D → option D;
  (** serving a chain: it may write to memory *)
  vio_serve : D → list VqDesc → (Z → Z) → D * (Z → Z);
}.

Section vio.
Context {D : Type} `{VioDev D} (N : Z).
Context (v2p : Z → option Z).

Definition VioM := M (VioSt D).

Definition on_vq {A} (m : QM A) : VioM A := λ s,
  let? (a, q) := m (v_q s) in Done (a, mkVio q (v_regs s) (v_mem s) (v_dev s) (v_pos s)).
Definition on_vregs {A} (m : M D A) : VioM A := λ s,
  let? (a, d) := m (v_dev s) in Done (a, mkVio (v_q s) (v_regs s) (v_mem s) d (v_pos s)).
Definition set_vmem (f : (Z → Z) → Z → Z) : VioM unit :=
  modify (λ s, mkVio (v_q s) (v_regs s) (f (v_mem s)) (v_dev s) (v_pos s)).

(** The device's turn: it goes on with its work, or takes the next head of the
    available ring, serves the chain and puts it on the used ring. *)
Definition vio_turn : VioM unit := λ s,
  match vio_busy (v_dev s) with
  | Some d => Done (tt, mkVio (v_q s) (v_regs s) (v_mem s) d (v_pos s))
  | None =>
      if v_pos s =? av_idx (avail (v_q s)) then Done (tt, s)
      else
        let? h := idx_get (av_ring (avail (v_q s))) (v_pos s mod N) in
        match chain_of (Z.to_nat N) (v_q s) h with
        | None => Fault FUB
        | Some ds =>
            let '(d, w) := vio_serve (v_dev s) ds (v_mem s) in
            Done (tt, mkVio (dev_complete N h 0 (v_q s)) (v_regs s) w d (wadd 16 (v_pos s) 1))
        end
  end.

(** [Q::wait_use]: [while self.used.idx.read() == old_use { spin_loop() }] *)
Fixpoint wait_use (fuel : nat) (old_use : Z) : VioM unit :=
  let! s := get in
  if negb (us_idx (used (v_q s)) =? old_use) then ret tt
  else match fuel with
       | O => fail FFuel
       | S fuel' => vio_turn ;;; wait_use fuel' old_use
       end.

(** [d.set_data(a)]: the address goes through [vm::v2p] here. *)
Definition v2p_data (a : Z) : VioM Z := unwrap (v2p a).

(** [init(reg)], the same in both drivers. *)
Definition vio_init (used_pa avail_pa desc_pa : Z) : VioM unit :=
  let! s := get in
  if v_regs s then ret tt
  else
    modify (λ s, mkVio (v_q s) true (v_mem s) (v_dev s) (v_pos s)) ;;;
    on_vregs (init_dev_common 0) ;;;
    let! status := on_vregs (rd STATUS) in
    on_vregs (wr STATUS (Z.lor status DRIVER_OK)) ;;;
    on_vregs (set_q_len 0 (q_len N)) ;;;
    on_vregs (set_used_area (area_paddr used_pa)) ;;;
    on_vregs (set_avail_area (area_paddr avail_pa)) ;;;
    on_vregs (set_desc_area (area_paddr desc_pa)).

(** [irq_handle()], the same in both drivers: nobody is woken. *)
Definition vio_irq_handle : VioM unit :=
  let! s := get in
  assert_ (v_regs s) ;;;
  let! irq_status := on_vregs get_irq_status in
  if 0 <? Z.land irq_status 2 then panic
  else
    let! _ := on_vq (irq_drain N (Z.to_nat N)) in
    on_vregs (irq_ack irq_status).

Definition vio_irq_pending : VioM bool :=
  let! st := on_vregs get_irq_status in ret (negb (st =? 0)).

(** Handing a chain to the device, and in the synchronous case waiting for it. *)
Definition vio_kick (fuel : nat) (head : Z) (sync : bool) : VioM unit :=
  let! old := on_vq (add_avail N head) in
  on_vregs (set_ready 0) ;;;
  on_vregs (notify_q 0) ;;;
  if sync then wait_use fuel old ;;; vio_irq_handle else ret tt.
End vio.

(** ** [blk.rs] *)
Module Blk.
Definition QSIZE : Z := 4.

(** [ReqKind] and [ReqStatus] *)
Definition IN : Z := 0.
Definition OUT : Z := 1.
Definition OK : Z := 0.

(** [Req], packed: 17 bytes. *)
Record Req := mkReq { kind : Z; reserved : Z; sector : Z; status : Z }.
Definition req_new (kind sector : Z) : Req := mkReq kind 0 sector 0.
Definition req_bytes (r : Req) : list Z := le_bytes 4 (kind r) ++ le_bytes 4 (reserved r) ++ le_bytes 8 (sector r) ++ [status r].

Section blk.
Context {D : Type} `{VioDev D} (v2p : Z → option Z).
(** The address of the local variable [req]; how often to look at the ring. *)
Context (req_ptr : Z) (fuel : nat).

Definition pending_irq : VioM bool :=
  let! s := get in assert_ (v_regs s) ;;; vio_irq_pending.

Definition irq_handle : VioM unit := vio_irq_handle QSIZE.

Definition rw (sect buf len : Z) (r sync : bool) : VioM (option unit) :=
  if negb (len mod 512 =? 0) then ret None
  else if 2 ^ 32 - 1 <? len then ret None
  else
    let! s := get in
    assert_ (v_regs s) ;;;
    let! p := unwrap (v2p req_ptr) in
    set_vmem (mem_set p (req_bytes (req_new (if r then IN else OUT) sect))) ;;;
    let! d1 := on_vq alloc_desc in let! d1_idx := unwrap d1 in
    let! d2 := on_vq alloc_desc in let! d2_idx := unwrap d2 in
    let! d3 := on_vq alloc_desc in let! d3_idx := unwrap d3 in
    let! a1 := unwrap (v2p req_ptr) in let! a1 := v2p_data v2p a1 in
    on_vq (upd_desc d1_idx (λ d, set_addr a1 (set_len 16 (set_next d2_idx d)))) ;;;
    let! a2 := unwrap (v2p buf) in let! a2 := v2p_data v2p a2 in
    on_vq (upd_desc d2_idx (λ d, set_addr a2 (set_len (wrap 32 len) (set_next d3_idx d)))) ;;;
    (if r then on_vq (upd_desc d2_idx set_writable) else ret tt) ;;;
    let! a3 := unwrap (v2p req_ptr) in let! a3 := v2p_data v2p (a3 +! 16) in
    on_vq (upd_desc d3_idx (λ d, set_addr a3 (set_len 1 (set_writable d)))) ;;;
    on_vq (set_desc_data d1_idx (if sync then 0 else req_ptr)) ;;;
    vio_kick QSIZE fuel d1_idx sync ;;;
    let! s := get in
    ret (if v_mem s (p + 16) =? OK then Some tt else None).

Definition read (sect buf len : Z) : VioM (option unit) := assert_ (0 <? len) ;;; rw sect buf len true false.
Definition write (sect buf len : Z) : VioM (option unit) := assert_ (0 <? len) ;;; rw sect buf len false false.
Definition read_sync (sect buf len : Z) : VioM (option unit) := assert_ (0 <? len) ;;; rw sect buf len true true.
Definition write_sync (sect buf len : Z) : VioM (option unit) := assert_ (0 <? len) ;;; rw sect buf len false true.

Definition init : Z → Z → Z → VioM unit := vio_init QSIZE.
End blk.
End Blk.

(** ** [rng.rs] *)
Module Rng.
Definition QSIZE : Z := 2.

Section rng.
Context {D : Type} `{VioDev D} (v2p : Z → option Z) (fuel : nat).

Definition irq_pending : VioM bool := vio_irq_pending.
Definition irq_handle : VioM unit := vio_irq_handle QSIZE.

Definition read_inner (buf len : Z) (sync : bool) : VioM (option Z) :=
  let! d := on_vq alloc_desc in let! d := unwrap d in
  assert_ (0 <? len) ;;;
  let! a := v2p_data v2p buf in
  on_vq (upd_desc d (λ x, set_len (wrap 32 len) (set_addr a (set_writable x)))) ;;;
  on_vq (set_desc_data d (if sync then 0 else buf)) ;;;
  vio_kick QSIZE fuel d sync ;;;
  ret (Some len).

Definition read (buf len : Z) : VioM (option Z) := read_inner buf len false.
Definition read_sync (buf len : Z) : VioM (option Z) := read_inner buf len true.
Definition init : Z → Z → Z → VioM unit := vio_init QSIZE.
End rng.
End Rng.
