(* ===== verification/BlkSpec.v ===== *)
(** * What the block driver promises

    With a disk that follows the protocol, what [write_sync] was given is what
    [read_sync] finds; but only as long as the disk has not been read before. *)
From S2P Require Import Prelude Stuff Virtio VirtioInv Vio.

Local Open Scope Z_scope.

(** ** Memory *)
Section mem.
Implicit Types (w : Z → Z) (bs : list Z).

Lemma mem_get_lookup a n w i : (i < n)%nat → mem_get a n w !! i = Some (w (a + Z.of_nat i)).
Proof. intros Hi. unfold mem_get. rewrite list_lookup_fmap, lookup_seq_lt by done. done. Qed.

Lemma length_mem_get a n w : length (mem_get a n w) = n.
Proof. unfold mem_get. by rewrite length_fmap, length_seq. Qed.

Lemma mem_get_set a bs w : mem_get a (length bs) (mem_set a bs w) = bs.
Proof.
  apply list_eq_same_length with (n := length bs); [done|by rewrite length_mem_get|]. intros i x y Hi Hx Hy.
  rewrite mem_get_lookup in Hx by done. injection Hx as <-. unfold mem_set. rewrite decide_True by lia.
  replace (a + Z.of_nat i - a) with (Z.of_nat i) by lia. rewrite Nat2Z.id. by apply list_lookup_total_correct.
Qed.

Lemma mem_get_set_take a n bs w : (n ≤ length bs)%nat → mem_get a n (mem_set a bs w) = take n bs.
Proof.
  intros Hn. rewrite <- (mem_get_set a bs w) at 2. unfold mem_get. rewrite <- fmap_take. f_equal.
  rewrite take_seq. f_equal. lia.
Qed.

Lemma mem_get_ext a n w w' : (∀ b, a ≤ b < a + Z.of_nat n → w b = w' b) → mem_get a n w = mem_get a n w'.
Proof.
  intros Hw. apply list_eq_same_length with (n := n); [by rewrite length_mem_get..|]. intros i x y Hi Hx Hy.
  rewrite mem_get_lookup in Hx, Hy by done. injection Hx as <-. injection Hy as <-. apply Hw. lia.
Qed.

Lemma mem_set_out a bs w b : ¬ (a ≤ b < a + Z.of_nat (length bs)) → mem_set a bs w b = w b.
Proof. intros Hb. unfold mem_set. by rewrite decide_False. Qed.

Lemma mem_set_ext a bs w w' b : (a ≤ b < a + Z.of_nat (length bs) ∨ w b = w' b) → mem_set a bs w b = mem_set a bs w' b.
Proof. intros Hb. unfold mem_set. case_decide; [done|]. by destruct Hb. Qed.
End mem.

(** ** The disk *)

(** [n] more turns, then the disk can serve. *)
Inductive busy_for {D} `{VioDev D} : D → nat → D → Prop :=
  | busy_0 d : vio_busy d = None → busy_for d 0 d
  | busy_S d d' n d'' : vio_busy d = Some d' → busy_for d' n d'' → busy_for d (S n) d''.

Definition readable (a l : Z) (d : VqDesc) : Prop := d_addr d = a ∧ d_len d = l ∧ Z.testbit (d_flags d) 1 = false.
Definition writable (a l : Z) (d : VqDesc) : Prop := d_addr d = a ∧ d_len d = l ∧ Z.testbit (d_flags d) 1 = true.

Definition header (kind sect : Z) : list Z := take 16 (Blk.req_bytes (Blk.req_new kind sect)).

(** What the protocol says of a disk of [disk_size] bytes whose contents are
    [disk d]: a request of kind 0 (1) with a header and a data buffer inside of
    the disk copies from (to) it and reports 0; nothing else touches the
    contents; work ends after [latency] turns; the configuration does not change. *)
Class DiskLaws (D : Type) `{VioDev D} := {
  disk : D → Z → Z;
  disk_size : Z;
  latency : nat;
  disk_reg : ∀ d off v, disk (reg_write d off v) = disk d;
  disk_cfg : ∀ d, Z.land (reg_read d INTERRUPTSTATUS) 2 = 0;
  disk_busy : ∀ d, ∃ n d', (n ≤ latency)%nat ∧ busy_for d n d' ∧ disk d' = disk d;
  disk_in : ∀ d w h b t a1 a2 a3 len sect, readable a1 16 h → writable a2 len b → writable a3 1 t →
    mem_get a1 16 w = header 0 sect → 0 ≤ sect → 0 ≤ len → 512 * sect + len ≤ disk_size →
    ∃ d', vio_serve d [h; b; t] w = (d', mem_set a3 [0] (mem_set a2 (mem_get (512 * sect) (Z.to_nat len) (disk d)) w)) ∧
      disk d' = disk d;
  disk_out : ∀ d w h b t a1 a2 a3 len sect, readable a1 16 h → readable a2 len b → writable a3 1 t →
    mem_get a1 16 w = header 1 sect → 0 ≤ sect → 0 ≤ len → 512 * sect + len ≤ disk_size →
    ∃ d', vio_serve d [h; b; t] w = (d', mem_set a3 [0] w) ∧
      ∀ i, disk d' i = mem_set (512 * sect) (mem_get a2 (Z.to_nat len) w) (disk d) i;
}.

(** ** The queue between requests *)
Definition bs_taken (n : nat) : BitSet128.t := BitSet128.mk (Z.lor (2 ^ 128 - 16) (Z.ones (Z.of_nat n))) 4.

(** Nothing in flight after [k] requests; a request takes the descriptors 0, 1
    and 2, so their flags tell what they were used for: [rd] is whether 1 was
    ever made writable. *)
Record idle_q (q : Q) (k : Z) (rd : bool) : Prop := {
  iq_desc : ∃ e0 e1 e2 e3, desc q = [e0; e1; e2; e3] ∧ (d_flags e0 = 0 ∨ d_flags e0 = 1) ∧
    (if rd then d_flags e1 = 3 else d_flags e1 = 0 ∨ d_flags e1 = 1) ∧ (d_flags e2 = 0 ∨ d_flags e2 = 2);
  iq_bs : desc_bs q = bs_taken 0;
  iq_data : length (desc_data q) = 4%nat;
  iq_av : length (av_ring (avail q)) = 4%nat ∧ av_idx (avail q) = k;
  iq_us : length (us_ring (used q)) = 4%nat ∧ us_idx (used q) = k ∧ used_pos q = k;
  iq_k : 0 ≤ k < 65536;
}.

Lemma new_idle q : q_new 4 = Done q → idle_q q 0 false.
Proof.
  intros [= <-]. split; try done. exists desc_zeroed, desc_zeroed, desc_zeroed, desc_zeroed. simpl. auto.
Qed.

(** The three descriptors of a request. *)
Definition req_descs (a1 a2 a3 len : Z) (r : bool) (e0 e1 e2 : VqDesc) : list VqDesc :=
  [mkDesc a1 16 (Z.lor (d_flags e0) 1) 1;
   mkDesc a2 len (Z.lor (Z.lor (d_flags e1) 1) (if r then 2 else 0)) 2;
   mkDesc a3 1 (Z.lor (d_flags e2) 2) (d_next e2)].

Section queue.
Implicit Types (ds : list VqDesc) (av : VqAvail) (us : VqUsed).

Lemma alloc_idle (n : nat) ds av us dd up : (n < 3)%nat → length dd = 4%nat →
  alloc_desc (mkQ ds av us (bs_taken n) dd up) = Done (Some (Z.of_nat n), mkQ ds av us (bs_taken (S n)) (<[n := 0]> dd) up).
Proof.
  intros Hn Hd. do 4 (destruct dd as [|? dd]; [discriminate Hd|]). destruct dd; [|discriminate Hd].
  do 3 (destruct n as [|n]; [reflexivity|]). lia.
Qed.

(** What the driver builds before it rings. *)
Definition built (q : Q) (e3 : VqDesc) (x3 w : Z) ds : Q :=
  mkQ (ds ++ [e3]) (avail q) (used q) (bs_taken 3) [w; 0; 0; x3] (used_pos q).

(** The chain is on its way. *)
Definition rung (q : Q) : Q :=
  let av := avail q in
  mkQ (desc q) (mkAvail (av_flags av) (wadd 16 (av_idx av) 1) (<[Z.to_nat (av_idx av mod 4) := 0]> (av_ring av)) (used_event av))
    (used q) (desc_bs q) (desc_data q) (used_pos q).

Lemma add_avail_run q : length (av_ring (avail q)) = 4%nat → 0 ≤ av_idx (avail q) →
  add_avail 4 0 q = Done (us_idx (used q), rung q).
Proof.
  intros Hl Hk. unfold add_avail, idx_set. destruct (lookup_lt_is_Some_2 (av_ring (avail q)) (Z.to_nat (av_idx (avail q) mod 4))) as [x Hx]; [rewrite Hl; zdiv|].
  unfold obind. by rewrite Hx.
Qed.

Lemma chain_run q e3 x3 w a1 a2 a3 len r e0 e1 e2 :
  (d_flags e0 = 0 ∨ d_flags e0 = 1) → (d_flags e1 = 0 ∨ d_flags e1 = 1 ∨ d_flags e1 = 3) → (d_flags e2 = 0 ∨ d_flags e2 = 2) →
  chain_of 4 (rung (built q e3 x3 w (req_descs a1 a2 a3 len r e0 e1 e2))) 0 = Some (req_descs a1 a2 a3 len r e0 e1 e2).
Proof.
  intros F0 F1 F2. unfold rung, built, req_descs. cbn [chain_of desc]. unfold get_next.
  destruct F0 as [-> | ->], F1 as [-> |[-> | ->]], F2 as [-> | ->], r; reflexivity.
Qed.

(** Completing the chain and taking it off the used ring frees the three. *)
Lemma drain_run q e3 x3 a1 a2 a3 len r e0 e1 e2 k :
  (d_flags e0 = 0 ∨ d_flags e0 = 1) → (d_flags e1 = 0 ∨ d_flags e1 = 1 ∨ d_flags e1 = 3) → (d_flags e2 = 0 ∨ d_flags e2 = 2) →
  length (us_ring (used q)) = 4%nat → us_idx (used q) = k → used_pos q = k → 0 ≤ k < 65536 →
  let q1 := dev_complete 4 0 0 (rung (built q e3 x3 0 (req_descs a1 a2 a3 len r e0 e1 e2))) in
  irq_drain 4 4 q1 = Done ([], mkQ (desc q1) (avail q1) (used q1) (bs_taken 0) (desc_data q1) (wadd 16 k 1)).
Proof.
  intros F0 F1 F2 Hl Hu Hp Hk q1.
  assert (us_idx (used q1) = wadd 16 k 1) as U1 by (simpl; by rewrite Hu).
  assert (wadd 16 k 1 ≠ k) as Hne.
  { unfold wadd, wrap. change (2 ^ 16) with 65536. intros E. zdiv. }
  assert (idx_get (us_ring (used q1)) (used_pos q1 mod 4) = Done (mkElem 0 0)) as Hel.
  { simpl. rewrite Hu, Hp. unfold idx_get. rewrite list_lookup_insert_eq by (rewrite Hl; zdiv). done. }
  assert (peek_used 4 q1 = Done (Some (mkDesc a1 16 (Z.lor (d_flags e0) 1) 1, 0), q1)) as E1.
  { unfold peek_used. mstep. rewrite U1. change (used_pos q1) with (used_pos q) at 1. rewrite Hp, (proj2 (Z.eqb_neq _ _)) by done.
    unfold lift at 1, bind at 1. rewrite Hel. reflexivity. }
  assert (pop_used 4 q1 = Done (tt, mkQ (desc q1) (avail q1) (used q1) (bs_taken 0) (desc_data q1) (wadd 16 k 1))) as E2.
  { unfold pop_used. mstep. unfold lift at 1, bind at 1. rewrite Hel. cbn [ue_id].
    assert (free_desc 4 0 q1 = Done (tt, mkQ (desc q1) (avail q1) (used q1) (bs_taken 0) (desc_data q1) (used_pos q1))) as Ef.
    { unfold q1, dev_complete, rung, built, req_descs. unfold free_desc.
      destruct F0 as [-> | ->], F1 as [-> |[-> | ->]], F2 as [-> | ->], r; reflexivity. }
    rewrite (bind_Done _ _ _ _ _ Ef). unfold modify. simpl used_pos. by rewrite Hp. }
  cbn [irq_drain]. rewrite (bind_Done _ _ _ _ _ E1). cbv iota beta. rewrite (bind_Done _ _ _ _ _ E2).
  set (q2 := mkQ _ _ _ _ _ _).
  assert (peek_used 4 q2 = Done (None, q2)) as E3.
  { assert (used_pos q2 = us_idx (used q2)) as E by (symmetry; exact U1). unfold peek_used. mstep. rewrite E, Z.eqb_refl. done. }
  rewrite bind_assoc. rewrite (bind_Done _ _ _ _ _ E3). done.
Qed.
End queue.

Section driver.
Context {D : Type} `{DL : DiskLaws D} (v2p : Z → option Z) (req_ptr p : Z) (fuel : nat).

(** [req] and its status, found by the device where the driver keeps them. *)
Record req_dma : Prop := {
  rd_req : v2p req_ptr = Some p;
  rd_hdr : v2p p = Some p;
  rd_status : v2p (p + 16) = Some (p + 16);
  rd_range : 0 ≤ p ∧ p + 17 < 2 ^ 64;
}.

Context (Hreq : req_dma).

Definition buf_dma (buf b : Z) : Prop := v2p buf = Some b ∧ v2p b = Some b.

Lemma on_vq_run {A} (m : QM A) q q' (a : A) vr w (d : D) k :
  m q = Done (a, q') → on_vq m (mkVio q vr w d k) = Done (a, mkVio q' vr w d k).
Proof. intros E. unfold on_vq. simpl. by rewrite E. Qed.

(** Between requests. *)
Definition idle (s : VioSt D) (k : Z) (rd : bool) : Prop := idle_q (v_q s) k rd ∧ v_regs s = true ∧ v_pos s = k.

Lemma rw_submit s k (rd : bool) sect buf b len (r sync : bool) :
  idle s k rd → buf_dma buf b → len mod 512 = 0 → 0 < len < 2 ^ 32 →
  ∃ e0 e1 e2 e3 x3, desc (v_q s) = [e0; e1; e2; e3] ∧
    (d_flags e0 = 0 ∨ d_flags e0 = 1) ∧ (if rd then d_flags e1 = 3 else d_flags e1 = 0 ∨ d_flags e1 = 1) ∧ (d_flags e2 = 0 ∨ d_flags e2 = 2) ∧
    let w := mem_set p (Blk.req_bytes (Blk.req_new (if r then 0 else 1) sect)) (v_mem s) in
    let s1 := mkVio (built (v_q s) e3 x3 (if sync then 0 else req_ptr) (req_descs p b (p + 16) len r e0 e1 e2)) true w (v_dev s) k in
    Blk.rw v2p req_ptr fuel sect buf len r sync s =
      bind (vio_kick 4 fuel 0 sync) (λ (_ : unit) (s' : VioSt D), Done (if v_mem s' (p + 16) =? 0 then Some tt else None, s')) s1.
Proof using Hreq.
  intros [[(e0 & e1 & e2 & e3 & Ed & F0 & F1 & F2) Hbs Hdd Hav Hus Hk] [Hr Hp]] [Hb1 Hb2] Hm Hl.
  destruct s as [[ds av us bs dd up] vr mem dv vp]. simpl in *. subst ds bs vr vp.
  destruct dd as [|x0 [|x1 [|x2 [|x3 [|]]]]]; try discriminate Hdd.
  exists e0, e1, e2, e3, x3. do 4 (split; [done|]).
  set (w := mem_set p _ mem). destruct Hreq as [R1 R2 R3 R4].
  unfold Blk.rw. rewrite Hm. rewrite (proj2 (Z.ltb_ge _ _)) by lia. cbn [negb Z.eqb]. cbv iota.
  mstep. cbn [v_regs]. mstep. rewrite R1. mstep. unfold set_vmem at 1. unfold bind at 1, modify. cbv beta iota.
  fold w. cbn [v_q v_regs v_mem v_dev v_pos].
  change (if r then Blk.IN else Blk.OUT) with (if r then 0 else 1). fold w.
  erewrite bind_Done by (apply on_vq_run, (alloc_idle 0); [lia|done]). mstep.
  erewrite bind_Done by (apply on_vq_run, (alloc_idle 1); [lia|done]). mstep.
  erewrite bind_Done by (apply on_vq_run, (alloc_idle 2); [lia|done]). mstep.
  mstep. unfold v2p_data. rewrite R2. mstep.
  erewrite bind_Done by (apply on_vq_run; reflexivity). rewrite Hb1. mstep. rewrite Hb2. mstep.
  erewrite bind_Done by (apply on_vq_run; reflexivity).
  assert (wrap 32 len = len) as -> by (apply wrap_small; lia). unfold built, req_descs.
  destruct r.
  - erewrite bind_Done by (apply on_vq_run; reflexivity). mstep. rewrite wadd_small, R3 by lia. mstep.
    erewrite bind_Done by (apply on_vq_run; reflexivity). by erewrite bind_Done by (apply on_vq_run; reflexivity).
  - rewrite Z.lor_0_r. mstep. mstep. rewrite wadd_small, R3 by lia. mstep.
    erewrite bind_Done by (apply on_vq_run; reflexivity). by erewrite bind_Done by (apply on_vq_run; reflexivity).
Qed.

Lemma wadd_ne k : 0 ≤ k < 65536 → wadd 16 k 1 ≠ k.
Proof. intros Hk. unfold wadd, wrap. change (2 ^ 16) with 65536. intros E. zdiv. Qed.

Lemma wait_run ds k q w d' w' d'' : ∀ d n, busy_for d n d' → ∀ f, (n < f)%nat → 0 ≤ k < 65536 →
  us_idx (used q) = k → av_idx (avail q) = wadd 16 k 1 → idx_get (av_ring (avail q)) (k mod 4) = Done 0 →
  chain_of 4 q 0 = Some ds → vio_serve d' ds w = (d'', w') →
  wait_use 4 f k (mkVio q true w d k) = Done (tt, mkVio (dev_complete 4 0 0 q) true w' d'' (wadd 16 k 1)).
Proof.
  induction 1 as [d Hb|d d1 n d2 Hb _ IH]; intros f Hf Hk Hu Ha Hi Hc Hs; (destruct f as [|f]; [lia|]); cbn [wait_use]; mstep; cbn [v_q];
    rewrite Hu, Z.eqb_refl; cbn [negb]; cbv iota.
  - assert (vio_turn 4 (mkVio q true w d k) = Done (tt, mkVio (dev_complete 4 0 0 q) true w' d'' (wadd 16 k 1))) as E.
    { unfold vio_turn. cbn [v_dev v_pos v_q v_regs v_mem]. rewrite Hb, Ha, (proj2 (Z.eqb_neq _ _)) by (by apply not_eq_sym, wadd_ne).
      change (Z.to_nat 4) with 4%nat. rewrite Hi. cbn [obind]. rewrite Hc, Hs. done. }
    rewrite (bind_Done _ _ _ _ _ E). destruct f; cbn [wait_use]; mstep; cbn [v_q dev_complete used us_idx]; rewrite Hu;
      rewrite (proj2 (Z.eqb_neq _ _)) by (by apply wadd_ne); done.
  - assert (vio_turn 4 (mkVio q true w d k) = Done (tt, mkVio q true w d1 k)) as E.
    { unfold vio_turn. cbn [v_dev]. by rewrite Hb. }
    rewrite (bind_Done _ _ _ _ _ E). apply IH; try done. lia.
Qed.

Context (Hfuel : (latency < fuel)%nat).

(** A request that the disk serves as [serve] says: the driver returns the
    status it finds, and the queue is idle again. *)
Lemma rw_sync_run s k (rd : bool) sect buf b len (r : bool) :
  idle s k rd → buf_dma buf b → len mod 512 = 0 → 0 < len < 2 ^ 32 →
  let w := mem_set p (Blk.req_bytes (Blk.req_new (if r then 0 else 1) sect)) (v_mem s) in
  ∀ (serve : D → (Z → Z) → Prop),
    (∀ d e0 e1 e2, disk d = disk (v_dev s) → (d_flags e0 = 0 ∨ d_flags e0 = 1) → (if rd then d_flags e1 = 3 else d_flags e1 = 0 ∨ d_flags e1 = 1) →
       (d_flags e2 = 0 ∨ d_flags e2 = 2) →
       ∃ d' w', vio_serve d (req_descs p b (p + 16) len r e0 e1 e2) w = (d', w') ∧ serve d' w') →
  ∃ s' d' w', Blk.rw v2p req_ptr fuel sect buf len r true s = Done (if w' (p + 16) =? 0 then Some tt else None, s') ∧
    idle s' (wadd 16 k 1) (r || rd) ∧ v_mem s' = w' ∧ serve d' w' ∧ disk (v_dev s') = disk d'.
Proof using Hreq Hfuel.
  intros Hi Hb Hm Hl w serve Hsv. pose proof Hi as [[_ _ Hdd [Ha1 Ha2] [Hu1 [Hu2 Hu3]] Hk] _].
  destruct (rw_submit s k rd sect buf b len r true Hi Hb Hm Hl) as (e0 & e1 & e2 & e3 & x3 & Ed & F0 & F1 & F2 & E). fold w in E. cbv zeta in E.
  assert (d_flags e1 = 0 ∨ d_flags e1 = 1 ∨ d_flags e1 = 3) as F1' by (destruct rd; tauto).
  set (ds := req_descs p b (p + 16) len r e0 e1 e2) in *. set (q1 := rung (built (v_q s) e3 x3 0 ds)).
  set (d0 := reg_write (reg_write (reg_write (reg_write (v_dev s) QUEUESEL 0) QUEUEREADY 1) QUEUESEL 0) QUEUENOTIFY 0).
  destruct (disk_busy d0) as (n & d1 & Hn & Hbusy & Hd1).
  assert (disk d1 = disk (v_dev s)) as Hd1' by (rewrite Hd1; unfold d0; by rewrite !disk_reg).
  destruct (Hsv d1 e0 e1 e2 Hd1' F0 F1 F2) as (d2 & w2 & Es & Hserve).
  assert (vio_kick 4 fuel 0 true (mkVio (built (v_q s) e3 x3 0 ds) true w (v_dev s) k)
    = Done (tt, mkVio (mkQ (desc q1) (avail q1) (used (dev_complete 4 0 0 q1)) (bs_taken 0) (desc_data q1) (wadd 16 k 1)) true w2
        (reg_write d2 INTERRUPTACK (reg_read d2 INTERRUPTSTATUS)) (wadd 16 k 1))) as Ek.
  { unfold vio_kick. erewrite bind_Done by (apply on_vq_run, add_avail_run; [exact Ha1|simpl; lia]). fold q1.
    cbn [built used]. rewrite Hu2.
    erewrite bind_Done by reflexivity. erewrite bind_Done by reflexivity. cbv iota. fold d0.
    erewrite bind_Done.
    2:{ eapply (wait_run ds k q1 w d1 w2 d2 d0 n Hbusy); try done; try lia.
        - cbn [q1 rung built avail av_idx]. by rewrite Ha2.
        - cbn [q1 rung built avail av_ring]. unfold idx_get. rewrite Ha2, list_lookup_insert_eq by (rewrite Ha1; zdiv). done.
        - by apply chain_run. }
    unfold vio_irq_handle. mstep. cbn [v_regs]. mstep. erewrite bind_Done by reflexivity. cbn [v_dev].
    rewrite (disk_cfg d2). cbn [Z.ltb Z.compare]. cbv iota.
    erewrite bind_Done by (apply on_vq_run; apply (drain_run (v_q s) e3 x3 p b (p + 16) len r e0 e1 e2 k); try done; tauto).
    reflexivity. }
  rewrite (bind_Done _ _ _ _ _ Ek) in E. eexists _, d2, w2. split; [exact E|]. cbn [v_mem]. split_and!; [|done|done|by cbn [v_dev]; rewrite disk_reg].
  split; [|done]. cbn [v_q]. split; cbn [desc desc_bs desc_data avail used q1 rung built av_ring av_idx dev_complete us_ring us_idx used_pos];
    try done.
  - unfold ds, req_descs. simpl app. eexists _, _, _, _. split; [reflexivity|]. cbn [d_flags].
    destruct F0 as [-> | ->], F2 as [-> | ->], rd, r; (rewrite F1 || destruct F1 as [-> | ->]); simpl; auto.
  - rewrite length_insert, Ha2. done.
  - rewrite length_insert, Hu2. done.
  - unfold wadd. by apply wrap_range.
Qed.
End driver.

Lemma length_req r : length (Blk.req_bytes r) = 17%nat.
Proof. unfold Blk.req_bytes. rewrite !length_app, !length_le_bytes. done. Qed.

(** Two ranges of addresses that do not meet. *)
Definition apart (a n b m : Z) : Prop := a + n ≤ b ∨ b + m ≤ a.

Section theorems.
Context {D : Type} `{DL : DiskLaws D} (v2p : Z → option Z) (req_ptr p : Z) (fuel : nat).

(** C36: The disk keeps what is written.  As long as the driver has not read yet,
    and with its buffers where [vm::v2p] applied twice finds them,
    [write_sync] of some sectors returns Ok and [read_sync] of the same sectors
    returns Ok with the same bytes, however long the disk takes; memory outside
    of the request and the second buffer is left alone, and the queue is idle
    with all descriptors free. *)
Theorem disk_write_read (s : VioSt D) k sect len wbuf rbuf pw pr :
  (latency < fuel)%nat → req_dma v2p req_ptr p → idle s k false → buf_dma v2p wbuf pw → buf_dma v2p rbuf pr →
  0 ≤ sect → 0 < len < 2 ^ 32 → len mod 512 = 0 → 512 * sect + len ≤ disk_size → apart p 17 pw len → apart p 17 pr len →
  ∃ s1 s2, Blk.write_sync v2p req_ptr fuel sect wbuf len s = Done (Some tt, s1) ∧
    Blk.read_sync v2p req_ptr fuel sect rbuf len s1 = Done (Some tt, s2) ∧ idle s2 (wadd 16 (wadd 16 k 1) 1) true ∧
    mem_get pr (Z.to_nat len) (v_mem s2) = mem_get pw (Z.to_nat len) (v_mem s) ∧
    ∀ b, ¬ (p ≤ b < p + 17) → ¬ (pr ≤ b < pr + len) → v_mem s2 b = v_mem s b.
Proof.
  intros Hf Hrq Hi Hw Hr Hs Hl Hm Hc Ha1 Ha2. set (data := mem_get pw (Z.to_nat len) (v_mem s)).
  assert (length data = Z.to_nat len) as Hdl by apply length_mem_get.
  destruct (rw_sync_run v2p req_ptr p fuel Hrq Hf s k false sect wbuf pw len false Hi Hw Hm Hl
    (λ d' w', w' = mem_set (p + 16) [0] (mem_set p (Blk.req_bytes (Blk.req_new 1 sect)) (v_mem s)) ∧
       ∀ i, disk d' i = mem_set (512 * sect) data (disk (v_dev s)) i)) as (s1 & d1 & w1 & E1 & I1 & M1 & [Hw1 Hd1] & D1).
  { intros d e0 e1 e2 Hd F0 F1 F2.
    set (w := mem_set p _ _). destruct (disk_out d w (mkDesc p 16 (Z.lor (d_flags e0) 1) 1) (mkDesc pw len (Z.lor (Z.lor (d_flags e1) 1) 0) 2)
      (mkDesc (p + 16) 1 (Z.lor (d_flags e2) 2) (d_next e2)) p pw (p + 16) len sect) as (d' & Es & Hd'); try done; try lia.
    - split_and!; try done. by destruct F0 as [-> | ->].
    - split_and!; try done. by destruct F1 as [-> | ->].
    - split_and!; try done. by destruct F2 as [-> | ->].
    - unfold w, header. apply mem_get_set_take. rewrite length_req. lia.
    - exists d', (mem_set (p + 16) [0] w). split; [exact Es|]. split; [done|]. intros i. rewrite Hd', Hd. unfold data. f_equal.
      apply mem_get_ext. intros b Hb. unfold w. apply mem_set_out. rewrite length_req. unfold apart in Ha1. lia. }
  destruct (rw_sync_run v2p req_ptr p fuel Hrq Hf s1 (wadd 16 k 1) false sect rbuf pr len true I1 Hr Hm Hl
    (λ d' w', w' = mem_set (p + 16) [0] (mem_set pr data (mem_set p (Blk.req_bytes (Blk.req_new 0 sect)) (v_mem s1)))))
    as (s2 & d2 & w2 & E2 & I2 & M2 & Hw2 & D2).
  { intros d e0 e1 e2 Hd F0 F1 F2.
    set (w := mem_set p _ _). destruct (disk_in d w (mkDesc p 16 (Z.lor (d_flags e0) 1) 1) (mkDesc pr len (Z.lor (Z.lor (d_flags e1) 1) 2) 2)
      (mkDesc (p + 16) 1 (Z.lor (d_flags e2) 2) (d_next e2)) p pr (p + 16) len sect) as (d' & Es & Hd'); try done; try lia.
    - split_and!; try done. by destruct F0 as [-> | ->].
    - split_and!; try done. by destruct F1 as [-> | ->].
    - split_and!; try done. by destruct F2 as [-> | ->].
    - unfold w, header. apply mem_get_set_take. rewrite length_req. lia.
    - exists d', (mem_set (p + 16) [0] (mem_set pr data w)). split; [|done]. rewrite Hd, D1 in Es.
      rewrite (mem_get_ext _ _ _ _ (λ b _, Hd1 b)), <- Hdl, mem_get_set in Es. exact Es. }
  assert (∀ a, mem_set (p + 16) [0] a (p + 16) =? 0 = true) as Hz.
  { intros a. unfold mem_set. rewrite decide_True by (simpl; lia). by rewrite Z.sub_diag. }
  rewrite Hw1, Hz in E1. rewrite Hw2, Hz in E2. exists s1, s2.
  assert (0 <? len = true) as Hlt by (apply Z.ltb_lt; lia).
  split; [unfold Blk.write_sync; rewrite Hlt; exact E1|]. split; [unfold Blk.read_sync; rewrite Hlt; exact E2|]. split; [exact I2|].
  rewrite M2, Hw2. split.
  - transitivity (mem_get pr (Z.to_nat len) (mem_set pr data (mem_set p (Blk.req_bytes (Blk.req_new 0 sect)) (v_mem s1)))).
    + apply mem_get_ext. intros b Hb. apply mem_set_out. simpl. unfold apart in Ha2. lia.
    + rewrite <- Hdl. apply mem_get_set.
  - intros b Hb1 Hb2. rewrite !mem_set_out by (rewrite ?length_req, ?Hdl; simpl; lia). rewrite M1, Hw1.
    by rewrite !mem_set_out by (rewrite ?length_req; simpl; lia).
Qed.

(** A read spoils later writes.  After the driver has once read from the
    disk, a write hands the disk a chain whose data buffer is marked as one the
    disk writes to, so there is nothing in it for the disk to read.  And without
    waiting, the driver reports success before the disk has even looked. *)
Theorem read_spoils_write (s : VioSt D) k sect len wbuf pw :
  req_dma v2p req_ptr p → idle s k true → buf_dma v2p wbuf pw → 0 < len < 2 ^ 32 → len mod 512 = 0 →
  ∃ s' h b t, Blk.write v2p req_ptr fuel sect wbuf len s = Done (Some tt, s') ∧
    chain_of 4 (v_q s') 0 = Some [h; b; t] ∧ writable pw len b ∧
    disk (v_dev s') = disk (v_dev s) ∧ v_pos s' = k ∧ us_idx (used (v_q s')) = k.
Proof.
  intros Hrq Hi Hw Hl Hm. pose proof Hi as [[_ _ Hdd [Ha1 Ha2] [Hu1 [Hu2 Hu3]] Hk] _].
  destruct (rw_submit v2p req_ptr p fuel Hrq s k true sect wbuf pw len false false Hi Hw Hm Hl)
    as (e0 & e1 & e2 & e3 & x3 & Ed & F0 & F1 & F2 & E). cbv zeta in E.
  set (ds := req_descs p pw (p + 16) len false e0 e1 e2) in *. set (q0 := built (v_q s) e3 x3 req_ptr ds) in *.
  set (w := mem_set p (Blk.req_bytes (Blk.req_new 1 sect)) (v_mem s)).
  set (d0 := reg_write (reg_write (reg_write (reg_write (v_dev s) QUEUESEL 0) QUEUEREADY 1) QUEUESEL 0) QUEUENOTIFY 0).
  assert (vio_kick 4 fuel 0 false (mkVio q0 true w (v_dev s) k) = Done (tt, mkVio (rung q0) true w d0 k)) as Ek.
  { unfold vio_kick. erewrite bind_Done by (apply on_vq_run, add_avail_run; [exact Ha1|simpl; lia]). reflexivity. }
  rewrite (bind_Done _ _ _ _ _ Ek) in E. cbv beta in E. cbn [v_mem] in E.
  assert (w (p + 16) = 0) as Hw0.
  { unfold w, mem_set. rewrite length_req, decide_True by lia. replace (p + 16 - p) with 16 by lia. reflexivity. }
  rewrite Hw0 in E. cbn [Z.eqb] in E. cbv iota in E.
  eexists _, _, _, _. split; [unfold Blk.write; rewrite (proj2 (Z.ltb_lt _ _)) by lia; exact E|].
  cbn [v_q v_dev v_pos]. split; [apply chain_run; tauto|]. split; [|split_and!; [unfold d0; by rewrite !disk_reg|done|done]].
  split_and!; try done. simpl. by rewrite F1.
Qed.
End theorems.

(** ** A small disk: two sectors, always ready *)
#[local] Instance small_regs : Mmio (Z → Z) := {| reg_read _ _ := 0; reg_write d _ _ := d |}.

Definition small_serve (d : Z → Z) (ds : list VqDesc) (w : Z → Z) : (Z → Z) * (Z → Z) :=
  match ds with
  | [h; b; t] =>
      let hd := mem_get (d_addr h) 16 w in
      let n := Z.to_nat (d_len b) in
      let pos := 512 * of_le_bytes (drop 8 hd) in
      if of_le_bytes (take 4 hd) =? 0 then (d, mem_set (d_addr t) [0] (mem_set (d_addr b) (mem_get pos n d) w))
      else (mem_set pos (mem_get (d_addr b) n w) d, mem_set (d_addr t) [0] w)
  | _ => (d, w)
  end.

#[local] Instance small_vio : VioDev (Z → Z) := {| vio_busy _ := None; vio_serve := small_serve |}.

Lemma header_fields kind sect : 0 ≤ kind < 2 ^ 32 → 0 ≤ sect < 2 ^ 64 →
  of_le_bytes (take 4 (header kind sect)) = kind ∧ of_le_bytes (drop 8 (header kind sect)) = sect.
Proof.
  intros Hk Hs. unfold header, Blk.req_bytes. cbn [Blk.kind Blk.reserved Blk.sector Blk.status Blk.req_new].
  change 16%nat with (4 + (4 + 8))%nat. rewrite (take_app_add' _ _ 4), (take_app_add' _ _ 4), take_app_length' by (by rewrite length_le_bytes).
  split.
  - rewrite of_le_bytes_le_bytes. by apply wrap_small.
  - rewrite (take_app_length' (le_bytes 8 sect)) by (by rewrite length_le_bytes).
    change 8%nat with (4 + (4 + 0))%nat at 1. rewrite (drop_app_add' _ _ 4), (drop_app_add' _ _ 4) by (by rewrite length_le_bytes).
    rewrite drop_0, of_le_bytes_le_bytes. by apply wrap_small.
Qed.

#[local] Program Instance small_disk : DiskLaws (Z → Z) := {| disk d := d; disk_size := 1024; latency := 0 |}.
Next Obligation. done. Qed.
Next Obligation. done. Qed.
Next Obligation. intros d. exists 0%nat, d. split_and!; [lia|by constructor|done]. Qed.
Next Obligation.
  intros d w h b t a1 a2 a3 len sect (<- & _) (<- & <- & _) (<- & _) Hh Hs Hl Hc. exists d. split; [|done].
  destruct (header_fields 0 sect) as [E1 E2]; [lia..|]. cbn [vio_serve small_vio small_serve]. by rewrite Hh, E1, E2.
Qed.
Next Obligation.
  intros d w h b t a1 a2 a3 len sect (<- & _) (<- & <- & _) (<- & _) Hh Hs Hl Hc. eexists. split; [|intros i; reflexivity].
  destruct (header_fields 1 sect) as [E1 E2]; [lia..|]. cbn [vio_serve small_vio small_serve]. by rewrite Hh, E1, E2.
Qed.

Definition q4 : Q :=
  match q_new 4 with Done q => q | Fault _ => mkQ [] (avail_zeroed 0) (used_zeroed 0) (BitSet128.mk 0 0) [] 0 end.

(** Memory whose bytes tell their addresses. *)
Definition small_mem : VioSt (Z → Z) := mkVio q4 true (λ a, a mod 256) (λ _, 0) 0.

Lemma small_idle : idle small_mem 0 false.
Proof. split; [by apply new_idle|done]. Qed.

Lemma disk_write_read_witness :
  ∃ s1 s2, Blk.write_sync Some 0 1 1 1025 512 small_mem = Done (Some tt, s1) ∧
    Blk.read_sync Some 0 1 1 4096 512 s1 = Done (Some tt, s2) ∧ v_mem s2 4096 = 1.
Proof.
  destruct (disk_write_read Some 0 0 1 small_mem 0 1 512 1025 4096 1025 4096) as (s1 & s2 & E1 & E2 & _ & Hm & _);
    [apply le_n|split; [reflexivity..|lia]|exact small_idle|split; reflexivity|split; reflexivity|lia|lia|reflexivity|
     change (512 * 1 + 512 ≤ 1024); lia|unfold apart; lia|unfold apart; lia|].
  exists s1, s2. split; [exact E1|]. split; [exact E2|].
  apply (f_equal (λ l, l !! 0%nat)) in Hm. rewrite !mem_get_lookup in Hm by (change (0 < 512)%nat; lia).
  injection Hm as Hm. exact Hm.
Defined.

(** The queue as a read leaves it. *)
Definition q4_read : Q :=
  mkQ [mkDesc 0 16 1 1; mkDesc 4096 512 3 2; mkDesc 16 1 2 0; desc_zeroed] (mkAvail 0 1 [0; 0; 0; 0] 0)
    (mkUsed 0 1 (replicate 4 (mkElem 0 0)) 0) (bs_taken 0) [0; 0; 0; 0] 1.

Lemma q4_read_idle : idle (mkVio q4_read true (λ _, 0) (λ _ : Z, 0) 1) 1 true.
Proof. split; [|done]. split; try done. eexists _, _, _, _. split; [reflexivity|]. simpl. auto. Qed.

Lemma read_spoils_write_witness :
  ∃ s s' h b t, Blk.write Some 0 1 1 1025 512 s = Done (Some tt, s') ∧ chain_of 4 (v_q s') 0 = Some [h; b; t] ∧ writable 1025 512 b.
Proof.
  destruct (read_spoils_write Some 0 0 1 (mkVio q4_read true (λ _, 0) (λ _ : Z, 0) 1) 1 1 512 1025 1025) as (s' & h & b & t & E & Hc & Hb & _);
    [split; [done..|lia]|exact q4_read_idle|done|lia|done|].
  eexists _, s', h, b, t. split; [exact E|]. split; [exact Hc|exact Hb].
Defined.
