(* ===== verification/UmemFree.v ===== *)
(** * Giving the regions of a task back

    [free_region] drops a reference to each frame before it takes the page out
    of the tables.  Taking a page out does not look at the allocator, so the
    two steps commute, and in the other order the invariant holds between. *)
From S2P Require Import Prelude Stuff Pm Vm VmInv VmTree VmRun VmSpec Umem UmemInv UmemRun UmemSafe UmemOps UmemSpec UmemFork.

Local Open Scope Z_scope.

(** ** Steps that leave the allocator alone *)
Section indep.
Context {im : Image} {F : Type} {fo : FrameOps F} {so : ShareOps F}.
Implicit Types (s : VSt F).

Definition indep {A} (m : VM F A) : Prop :=
  ∀ f s, m (set_frames f s) = match m s with Done (a, s') => Done (a, set_frames f s') | Fault e => Fault e end.

Lemma indep_ret {A} (a : A) : indep (ret a).
Proof. done. Qed.

Lemma indep_bind {A B} (m : VM F A) (k : A → VM F B) : indep m → (∀ a, indep (k a)) → indep (bind m k).
Proof. intros Hm Hk f s. unfold bind. rewrite Hm. destruct (m s) as [[a s']|]; [apply Hk|done]. Qed.

Lemma indep_pt_get sl i : indep (pt_get sl i).
Proof. apply indep_bind; [by unfold assert_; destruct (i <? 512)|]. intros _ f s. by destruct sl. Qed.

Lemma indep_pt_set sl i x : indep (pt_set sl i x).
Proof. apply indep_bind; [by unfold assert_; destruct (i <? 512)|]. intros _ f s. by destruct sl. Qed.

Lemma indep_wrap_new p perms : indep (pm_wrap_new p perms false).
Proof.
  intros f s. unfold pm_wrap_new. destruct (_ <? _); [done|]. unfold bind, get, lift. simpl.
  destruct (region_alloc (fixed s) 1) as [[[v|] r]|]; done.
Qed.

Lemma indep_tlbi v : indep (tlbi_vaee1 v).
Proof. done. Qed.

Lemma indep_wrap_drop v : indep (pm_wrap_drop v).
Proof.
  intros f s. unfold pm_wrap_drop, bind, get, lift. simpl. by destruct (region_free_1 (fixed s) v).
Qed.

Hint Resolve indep_ret indep_bind indep_pt_get indep_pt_set indep_wrap_new indep_tlbi indep_wrap_drop : krn.

Ltac indep :=
  repeat first [ apply indep_ret | apply indep_pt_get | apply indep_pt_set | apply indep_wrap_new | apply indep_tlbi | apply indep_wrap_drop
               | apply indep_bind; [|intros] | match goal with |- indep (match ?x with _ => _ end) => destruct x end ].

Lemma indep_walk sl v : indep (walk_to_l3 sl v).
Proof. unfold walk_to_l3. indep. Qed.

Lemma indep_unmap sl v : indep (unmap_4k_inner sl v).
Proof. unfold unmap_4k_inner. apply indep_bind; [apply indep_walk|]. intros. indep. Qed.

Lemma indep_uunmap sl v n : indep (uunmap sl v n).
Proof.
  unfold uunmap. induction (range 0 n) as [|i l IH]; simpl; [apply indep_ret|].
  apply indep_bind; [apply indep_unmap|]. intros []; [apply indep_ret|exact IH].
Qed.
End indep.

Section free.
Context {im : Image} {F : Type} {fo : FrameOps F} {so : ShareOps F} {fl : FrameLaws F} {shl : ShareLaws F}.
Implicit Types (s : VSt F) (W : gmap Z Z) (T : gmap Z (Z * list Z)) (B : gmap Z blk) (R : gmap (Z * Z) Z).

Lemma cnt_delete R k e p : R !! k = Some e → cnt (delete k R) p = cnt R p - hit (Some e) p.
Proof.
  intros Hk. rewrite <- (insert_delete_id R k e Hk) at 2. rewrite cnt_insert, lookup_delete_eq. simpl. lia.
Qed.

(** One reference less to the block at [h]. *)
Definition unref (h : Z) (b : blk) B : gmap Z blk := partial_alter (λ _, drop_blk b) h B.

Lemma unref_ne h b B p : p ≠ h → unref h b B !! p = B !! p.
Proof. intros. unfold unref. by rewrite lookup_partial_alter_ne. Qed.

Lemma unref_in_blk f B h b p h' b' :
  blocks f B → B !! h = Some b → bk_pages b = 1 → in_blk B p h' b' → p ≠ h ∨ 1 < bk_ref b →
  ∃ b1, in_blk (unref h b B) p h' b1 ∧ bk_cow b1 = bk_cow b' ∧ bk_ref b1 = bk_ref b' - (if decide (p = h) then 1 else 0).
Proof.
  intros HB Hh Hb1 [Hb' (i & Hi & ->)] Hor. destruct (decide (h' = h)) as [->|Hne].
  - rewrite Hh in Hb'. injection Hb' as <-. assert (i = 0) as -> by lia.
    destruct Hor as [Hn|Hr]; [lia|]. exists (mkBlk (bk_pages b) (bk_ref b - 1) (bk_cow b)). split_and!; [split|done|].
    + unfold unref, drop_blk. rewrite lookup_partial_alter_eq. by rewrite (proj2 (Z.ltb_lt _ _) Hr).
    + exists 0. simpl. split; [lia|done].
    + simpl. rewrite decide_True by lia. lia.
  - exists b'. split_and!; [split; [by rewrite unref_ne|by exists i]|done|].
    destruct (decide (h' + 4096 * i = h)) as [E|]; [|lia]. exfalso. apply Hne.
    eapply (blocks_apart f B (h' + 4096 * i)); [done|split; [done|by exists i]|]. rewrite E. split; [done|]. exists 0. lia.
Qed.

(** Dropping the reference of a page that is no longer mapped. *)
Lemma drop_mapped s T W B R k e b f :
  UInv s T W B (delete k R) → Safe B R → R !! k = Some e → T !! fr e = None → B !! fr e = Some b → bk_pages b = 1 →
  blocks f (unref (fr e) b B) →
  UInv (set_frames f s) T W (unref (fr e) b B) (delete k R) ∧ Safe (unref (fr e) b B) (delete k R).
Proof.
  intros HU HS Hk HTe Hb Hb1 Hf. pose proof (ui_blocks _ _ _ _ _ HU) as HB.
  assert (in_blk B (fr e) (fr e) b) as Hin by (by apply in_blk_head; [|lia]).
  assert (∀ k' e', delete k R !! k' = Some e' → fr e' = fr e → 1 < bk_ref b) as Hmany.
  { intros k' e' Hk' E. apply lookup_delete_Some in Hk' as [Hne Hk'].
    destruct (HS _ _ _ _ Hk Hin) as [Hc _].
    destruct (Z.le_gt_cases (bk_ref b) 1) as [Hle|]; [|done]. exfalso. apply Hne. symmetry.
    apply (cnt_unique R k e k' e'); [done|done|done|lia]. }
  split.
  - apply (UInv_frames _ _ _ B); [exact HU|exact Hf| |].
    + intros p x Hp. destruct (inv_live _ _ _ _ (ui_inv _ _ _ _ _ HU) _ _ Hp) as [n Hn]. exists n.
      unfold single in *. rewrite lookup_omap_Some in Hn |- *. destruct Hn as (b0 & E0 & Hb0). exists b0. split; [done|].
      rewrite unref_ne; [done|]. intros ->. congruence.
    + intros k' e' Hk'. destruct (ui_data _ _ _ _ _ HU _ _ Hk') as [_ (h' & b' & Hin')].
      destruct (unref_in_blk _ B (fr e) b (fr e') h' b' HB Hb Hb1 Hin') as (b1' & H1 & _); [|by exists h', b1'].
      destruct (decide (fr e' = fr e)); [right; by eapply Hmany|by left].
  - intros k' e' h' b1' Hk' Hin1. pose proof Hk' as [Hne Hk0]%lookup_delete_Some.
    destruct (ui_data _ _ _ _ _ HU _ _ Hk') as [_ (h0 & b0 & Hin0)].
    destruct (unref_in_blk _ B (fr e) b (fr e') h0 b0 HB Hb Hb1 Hin0) as (b2 & H2 & Ec & Er).
    { destruct (decide (fr e' = fr e)); [right; by eapply Hmany|by left]. }
    destruct (in_blk_fun f _ _ _ _ _ _ Hf H2 Hin1) as [-> ->]. destruct (HS _ _ _ _ Hk0 Hin0) as (Hc & Hr1 & Hw).
    rewrite (cnt_delete R k e) by done. rewrite Ec, Er. simpl. destruct (decide (fr e' = fr e)) as [E|E].
    + rewrite decide_True by done. split_and!; [lia| |done]. intros Hcow. exfalso. rewrite E in Hin0.
      destruct (in_blk_fun _ _ _ _ _ _ _ HB Hin Hin0) as [_ ->]. pose proof (Hmany _ _ Hk' E). specialize (Hr1 Hcow). lia.
    + rewrite decide_False by done. split_and!; [lia| |done]. intros Hcow. specialize (Hr1 Hcow). lia.
Qed.

(** What is left of a task's pages, and of everybody's words. *)
Definition kept_words s T s' : Prop := ∀ p j, busy (frames s) p → T !! p = None → word s' p j = word s p j.

Lemma free_block_run s T W B R sl r region i v e b :
  UInv s T W B R → Safe B R → shows W sl r → uroot T r → (base.size W + 3 ≤ 128)%nat →
  granule region = 0 → u_vaddr region +! i *! 4096 = v → 0 ≤ v < 2 ^ 64 → v mod 4096 = 0 →
  R !! (r, vpn v) = Some e → B !! fr e = Some b → bk_pages b = 1 →
  ∃ s', free_block region sl false i s = Done (tt, s') ∧
    UInv s' T W (unref (fr e) b B) (delete (r, vpn v) R) ∧ Safe (unref (fr e) b B) (delete (r, vpn v) R) ∧
    kept_words s T s' ∧ ∀ m, room (frames s) m → room (frames s') m.
Proof.
  intros HU HS Hs Hr Hsz Hg Ev Hv Hal HR Hb Hb1.
  destruct (v2p_run s T W B R sl r v e HU Hs Hr Hsz HR) as (s1 & E1 & HU1 & Ef1 & K1).
  rewrite (offset_aligned v Hal), Z.lor_0_r in E1.
  destruct (ui_data _ _ _ _ _ HU _ _ HR) as [HTe _].
  destruct (sh_free_law (frames s1) B (fr e) b (ui_blocks _ _ _ _ _ HU1) Hb) as (f & E2 & Hf & Hroom).
  rewrite Hb1 in E2. change (4096 * 1) with 4096 in E2.
  destruct (unmap_page_run s1 T W B R sl r v e HU1 Hs Hr Hsz HR) as (s2 & E3 & HU2 & Ef2 & K2).
  destruct (drop_mapped s2 T W B R (r, vpn v) e b f HU2 HS HR HTe Hb Hb1 Hf) as [HU3 HS3].
  exists (set_frames f s2). split_and!; [|done|done| |].
  - unfold free_block, blksize. rewrite Hg. change (blksize2 0) with 4096. rewrite Ev. mrun E1. simpl unwrap_r. mstep.
    assert (on_frames (sh_free (fr e) 4096) s1 = Done (tt, set_frames f s1)) as E2' by (unfold on_frames; by rewrite E2).
    mrun E2'. change (4096 / 4096) with 1.
    assert (uunmap sl v 1 (set_frames f s1) = Done (inr tt, set_frames f s2)) as E3'.
    { rewrite indep_uunmap. unfold uunmap. rewrite range_cons, range_nil by lia. cbn [uunmap_loop].
      rewrite page_0 by done. unfold bind. by rewrite E3. }
    by mrun E3'.
  - intros p j Hbp HTp. destruct K1 as [K1 _], K2 as [K2 _]. destruct (K1 p Hbp HTp) as (Hb2 & _ & W1).
    destruct (K2 p Hb2 HTp) as (_ & _ & W2). change (word (set_frames f s2) p j) with (word s2 p j). by rewrite W2.
  - intros m Hm. simpl. apply Hroom. by rewrite Ef1.
Qed.

(** The frames behind the pages of a region are blocks of one. *)
Definition own_pages B R (r : Z) (P : Z → Prop) : Prop :=
  ∀ k, P k → ∃ e b, R !! (r, k) = Some e ∧ B !! fr e = Some b ∧ bk_pages b = 1.

(** [s'] is [s] without the pages [P] of the task [r]. *)
Record freed s T W B R (r : Z) (P : Z → Prop) s' B' R' : Prop := {
  fd_inv : UInv s' T W B' R';
  fd_safe : Safe B' R';
  fd_out r' k : ¬ (r' = r ∧ P k) → R' !! (r', k) = R !! (r', k);
  fd_in k : P k → R' !! (r, k) = None;
  fd_words : ∀ k e j, R' !! k = Some e → word s' (fr e) j = word s (fr e) j;
  fd_room m : room (frames s) m → room (frames s') m;
  fd_blocks : ∀ k e b, R' !! k = Some e → B !! fr e = Some b → ∃ b', B' !! fr e = Some b' ∧ bk_pages b' = bk_pages b;
}.

Lemma freed_refl s T W B R r P : UInv s T W B R → Safe B R → (∀ k, ¬ P k) → freed s T W B R r P s B R.
Proof. intros HU HS HP. split; try done; [intros k Hk; by destruct (HP k)|]. intros k e b _ Hb. by exists b. Qed.

Lemma freed_sub s T W B R r P s' B' R' k e :
  freed s T W B R r P s' B' R' → R' !! k = Some e → R !! k = Some e.
Proof.
  intros HF Hk. destruct k as [r' k]. rewrite <- (fd_out _ _ _ _ _ _ _ _ _ _ HF r' k); [done|].
  intros [-> Hp]. rewrite (fd_in _ _ _ _ _ _ _ _ _ _ HF k Hp) in Hk. done.
Qed.

Lemma freed_trans s T W B R r P s1 B1 R1 P' s2 B2 R2 :
  freed s T W B R r P s1 B1 R1 → freed s1 T W B1 R1 r P' s2 B2 R2 →
  freed s T W B R r (λ k, P k ∨ P' k) s2 B2 R2.
Proof.
  intros H1 H2. split.
  - apply H2.
  - apply H2.
  - intros r' k Hn. rewrite (fd_out _ _ _ _ _ _ _ _ _ _ H2), (fd_out _ _ _ _ _ _ _ _ _ _ H1); [done|tauto|tauto].
  - intros k Hk. destruct (R2 !! (r, k)) as [e|] eqn:E; [|done]. destruct Hk as [Hk|Hk].
    + pose proof (freed_sub _ _ _ _ _ _ _ _ _ _ _ _ H2 E) as E1. by rewrite (fd_in _ _ _ _ _ _ _ _ _ _ H1 k Hk) in E1.
    + by rewrite (fd_in _ _ _ _ _ _ _ _ _ _ H2 k Hk) in E.
  - intros k e j Hk. rewrite (fd_words _ _ _ _ _ _ _ _ _ _ H2 k e j Hk).
    apply (fd_words _ _ _ _ _ _ _ _ _ _ H1 k). by eapply freed_sub.
  - intros m Hm. by apply H2, H1.
  - intros k e b Hk Hb. destruct (fd_blocks _ _ _ _ _ _ _ _ _ _ H1 k e b (freed_sub _ _ _ _ _ _ _ _ _ _ _ _ H2 Hk) Hb) as (b1 & Hb1 & <-).
    by apply (fd_blocks _ _ _ _ _ _ _ _ _ _ H2 k).
Qed.

Lemma freed_iff s T W B R r P P' s' B' R' : (∀ k, P k ↔ P' k) → freed s T W B R r P s' B' R' → freed s T W B R r P' s' B' R'.
Proof.
  intros Hi [H1 H2 H3 H4 H5 H6 H7]. split; [exact H1|exact H2| | |exact H5|exact H6|exact H7].
  - intros r' k Hn. apply H3. intros [-> Hp]. apply Hn. split; [done|by apply Hi].
  - intros k Hk. apply H4. by apply Hi.
Qed.

Lemma freed_own s T W B R r P s' B' R' Q :
  freed s T W B R r P s' B' R' → own_pages B R r Q → (∀ k, Q k → ¬ P k) → own_pages B' R' r Q.
Proof.
  intros HF HO Hd k Hk. destruct (HO k Hk) as (e & b & HR & Hb & Hb1).
  assert (R' !! (r, k) = Some e) as HR' by (rewrite (fd_out _ _ _ _ _ _ _ _ _ _ HF); [done|]; intros [_ H]; by eapply Hd).
  destruct (fd_blocks _ _ _ _ _ _ _ _ _ _ HF _ _ _ HR' Hb) as (b' & Hb' & E). exists e, b'. split_and!; [done|done|congruence].
Qed.

Lemma free_page s T W B R sl r region i v :
  UInv s T W B R → Safe B R → shows W sl r → uroot T r → (base.size W + 3 ≤ 128)%nat →
  granule region = 0 → u_vaddr region +! i *! 4096 = v → 0 ≤ v < 2 ^ 64 → v mod 4096 = 0 → own_pages B R r (λ k, k = vpn v) →
  ∃ s' B' R', free_block region sl false i s = Done (tt, s') ∧ freed s T W B R r (λ k, k = vpn v) s' B' R'.
Proof.
  intros HU HS Hs Hr Hsz Hg Ev Hv Hal HO. destruct (HO _ eq_refl) as (e & b & HR & Hb & Hb1).
  destruct (free_block_run s T W B R sl r region i v e b) as (s' & E & HU' & HS' & HW & Hroom); [done..|].
  eexists s', _, _. split; [exact E|]. split.
  - exact HU'.
  - exact HS'.
  - intros r' k Hn. apply lookup_delete_ne. intros [=]. subst. by apply Hn.
  - intros k ->. apply lookup_delete_eq.
  - intros k e' j [_ Hk]%lookup_delete_Some. destruct (ui_data _ _ _ _ _ HU _ _ Hk) as [HT (h & b' & Hin)]. apply HW; [|done].
    apply (blocks_busy _ _ _ (ui_blocks _ _ _ _ _ HU)). by exists h, b'.
  - exact Hroom.
  - intros k e' b' Hk Hb'. destruct (ui_data _ _ _ _ _ HU' _ _ Hk) as [_ (h & b1 & Hin)].
    destruct (decide (fr e' = fr e)) as [E'|E'].
    + rewrite E' in *. rewrite Hb in Hb'. injection Hb' as <-. destruct Hin as [Hh (i' & Hi' & Eq)].
      destruct (decide (h = fr e)) as [->|Hne].
      * unfold unref in Hh. rewrite lookup_partial_alter_eq in Hh. unfold drop_blk in Hh. destruct (1 <? bk_ref b) eqn:Er; [|done].
        injection Hh as <-. eexists. unfold unref. rewrite lookup_partial_alter_eq. unfold drop_blk. rewrite Er. by split.
      * exfalso. apply Hne. rewrite unref_ne in Hh by done.
        eapply (blocks_apart (frames s) B (fr e)); [apply HU|split; [done|by exists i']|]. split; [done|]. exists 0. lia.
    + exists b'. by rewrite unref_ne.
Qed.

Lemma free_loop_run sl r region n W T :
  region_ok region n → shows W sl r → uroot T r → (base.size W + 3 ≤ 128)%nat →
  let v0 := vpn (u_vaddr region) in
  ∀ k lo s B R, 0 ≤ lo → n - lo = Z.of_nat k → UInv s T W B R → Safe B R →
  own_pages B R r (λ j, v0 + lo ≤ j < v0 + n) →
  ∃ s' B' R', forM (range lo n) (free_block region sl false) s = Done (tt, s') ∧
    freed s T W B R r (λ j, v0 + lo ≤ j < v0 + n) s' B' R'.
Proof.
  intros Hok Hs Hr Hsz v0 k. induction k as [|k IH]; intros lo s B R Hlo Hk HU HS HO.
  - rewrite range_nil by lia. exists s, B, R. split; [done|]. apply freed_refl; [done..|]. intros j Hj. lia.
  - destruct (region_page region n lo Hok ltac:(lia)) as (Ev & Hv & Hal & Evp). rewrite range_cons by lia.
    destruct (free_page s T W B R sl r region lo (u_vaddr region + 4096 * lo)) as (s1 & B1 & R1 & E1 & HF1); try done.
    { apply Hok. } { intros j ->. apply HO. unfold v0 in *. lia. }
    destruct (IH (lo + 1) s1 B1 R1) as (s2 & B2 & R2 & E2 & HF2); [lia|lia|apply HF1|apply HF1| |].
    { eapply freed_own; [exact HF1| |].
      - intros j Hj. apply HO. lia.
      - intros j Hj ->. unfold v0 in *. lia. }
    exists s2, B2, R2. split; [by rewrite (forM_cons _ _ _ _ _ E1)|].
    eapply freed_iff; [|eapply freed_trans; [exact HF1|exact HF2]]. intros j. cbv beta. unfold v0 in *. lia.
Qed.

Lemma free_region_run s T W B R sl r region :
  UInv s T W B R → Safe B R → shows W sl r → uroot T r → (base.size W + 3 ≤ 128)%nat →
  region_ok region (npages region) → own_pages B R r (λ j, in_region region j = true) →
  ∃ s' B' R', free_region region sl false s = Done (tt, s') ∧ freed s T W B R r (λ j, in_region region j = true) s' B' R'.
Proof.
  intros HU HS Hs Hr Hsz Hok HO. pose proof Hok as (Hg & _ & _ & El & Hn & _).
  assert (∀ j, in_region region j = true ↔ vpn (u_vaddr region) + 0 ≤ j < vpn (u_vaddr region) + npages region) as Hi.
  { intros j. unfold in_region. rewrite andb_true_iff, Z.leb_le, Z.ltb_lt. lia. }
  destruct (free_loop_run sl r region (npages region) W T Hok Hs Hr Hsz (Z.to_nat (npages region)) 0 s B R)
    as (s' & B' & R' & E & HF); [done|lia|done|done| |].
  { intros j Hj. by apply HO, Hi. }
  exists s', B', R'. split; [|eapply freed_iff; [|exact HF]; intros j; symmetry; apply Hi].
  unfold free_region, blksize. rewrite Hg. change (blksize2 0) with 4096. rewrite El at 1.
  rewrite Z.mul_comm, Z.mod_mul by lia. change (0 =? 0) with true. mstep. exact E.
Qed.

Lemma free_regions_run sl r W T :
  shows W sl r → uroot T r → (base.size W + 3 ≤ 128)%nat →
  ∀ rs s B R, UInv s T W B R → Safe B R → Forall (λ g, region_ok g (npages g)) rs → apart rs →
  own_pages B R r (λ j, in_regions rs j = true) →
  ∃ s' B' R', free_regions rs sl false s = Done (tt, s') ∧ freed s T W B R r (λ j, in_regions rs j = true) s' B' R'.
Proof.
  intros Hs Hr Hsz. induction rs as [|g rs IH]; intros s B R HU HS HF Hap HO.
  - exists s, B, R. split; [done|]. by apply freed_refl.
  - apply Forall_cons in HF as [Hg HF]. destruct Hap as [Hd Hap].
    destruct (free_region_run s T W B R sl r g HU HS Hs Hr Hsz Hg) as (s1 & B1 & R1 & E1 & HF1).
    { intros j Hj. apply HO. unfold in_regions. cbn [existsb]. by rewrite Hj. }
    destruct (IH s1 B1 R1) as (s2 & B2 & R2 & E2 & HF2); [apply HF1|apply HF1|done|done| |].
    { eapply freed_own; [exact HF1| |].
      - intros j Hj. apply HO. unfold in_regions. cbn [existsb]. by apply orb_true_intro; right.
      - intros j Hj Hj'. rewrite (Hd j Hj') in Hj. done. }
    exists s2, B2, R2. split; [unfold free_regions; cbn [forM]; by mrun E1|].
    eapply freed_iff; [|eapply freed_trans; [exact HF1|exact HF2]]. intros j. cbn [in_regions existsb]. by rewrite orb_true_iff.
Qed.
End free.
