(* ===== verification/Elf.v ===== *)
(** * [elf.rs]: reading the headers of a program, as code

    A program file starts with [Elf64Hdr]; [phnum] records [Elf64Phdr] follow
    at [phoff].  Both are read over the bytes of the structure ([repr(C)], so
    the fields are at fixed offsets, little-endian).  [Elf] owns the open file:
    its [Drop] closes it. *)
From S2P Require Import Prelude Pipe Kst Cons Fs.

Local Open Scope Z_scope.

(** ** Headers *)
Record Elf64Hdr := mkHdr {
  ident : list Z;
  h_kind : Z;
  machine : Z;
  version : Z;
  entry : Z;
  phoff : Z;
  shoff : Z;
  h_flags : Z;
  ehsize : Z;
  phentsize : Z;
  phnum : Z;
  shentsize : Z;
  shnum : Z;
  shstrndx : Z;
}.

Definition EI_NIDENT : nat := 16.
Definition EI_CLASS : nat := 4.
Definition EI_VERSION : nat := 6.
Definition ELFCLASS64 : Z := 2.
Definition ET_EXEC : Z := 2.
Definition PT_LOAD : Z := 1.

Definition hdr_zeroed : Elf64Hdr := mkHdr (replicate EI_NIDENT 0) 0 0 0 0 0 0 0 0 0 0 0 0 0.
Definition HDR_SIZE : nat := 64.

(** The field of [n] bytes at offset [o]. *)
Definition field (bs : list Z) (o n : nat) : Z := of_le_bytes (take n (drop o bs)).

Definition hdr_of (bs : list Z) : Elf64Hdr :=
  mkHdr (take EI_NIDENT bs) (field bs 16 2) (field bs 18 2) (field bs 20 4) (field bs 24 8) (field bs 32 8)
    (field bs 40 8) (field bs 48 4) (field bs 52 2) (field bs 54 2) (field bs 56 2) (field bs 58 2)
    (field bs 60 2) (field bs 62 2).

Record Elf64Phdr := mkPh {
  p_kind : Z;
  p_flags : Z;
  p_offset : Z;
  p_vaddr : Z;
  p_paddr : Z;
  p_filesz : Z;
  p_memsz : Z;
  p_align : Z;
}.

Definition phdr_zeroed : Elf64Phdr := mkPh 0 0 0 0 0 0 0 0.
Definition PHDR_SIZE : nat := 56.

Definition phdr_of (bs : list Z) : Elf64Phdr :=
  mkPh (field bs 0 4) (field bs 4 4) (field bs 8 8) (field bs 16 8) (field bs 24 8) (field bs 32 8) (field bs 40 8)
    (field bs 48 8).

(** The checks of [Elf::new], in their order. *)
Definition MAGIC4 : list Z := [0x7f; 0x45; 0x4c; 0x46].

Definition hdr_ok (h : Elf64Hdr) : bool :=
  if negb (bool_decide (take 4 (ident h) = MAGIC4)) then false
  else if negb (nth EI_VERSION (ident h) 0 =? 1) then false
  else if negb (nth EI_CLASS (ident h) 0 =? ELFCLASS64) then false
  else if negb (machine h =? 183) then false
  else if negb (h_kind h =? ET_EXEC) then false
  else true.

Record Elf := mkElf { header : Elf64Hdr; e_file : nat }.

Section elf.
Context {X : Type} {api : P9Api X}.
Notation KM := (KM X).
Context (others : option chan → KM unit) (naps : nat).

(** [Drop for Elf]: the result of the close is ignored. *)
Definition elf_drop (file : nat) : KM unit := let! _ := file_close file true false in ret tt.

(** [Elf::new]: an error of the read leaves the zeroed header, and is no error. *)
Definition elf_new (path : list Z) : KM (option Elf) :=
  let! o := fs_open path 0 in
  match o with
  | Some file =>
      let! r := read others naps file HDR_SIZE in
      match r with
      | Some buf =>
          if negb (length buf =? HDR_SIZE)%nat then elf_drop file ;;; ret None
          else if hdr_ok (hdr_of buf) then ret (Some (mkElf (hdr_of buf) file))
          else elf_drop file ;;; ret None
      | None => ret (Some (mkElf hdr_zeroed file))
      end
  | None => ret None
  end.

(** [PhIter::next] for the iterator at [idx], which the caller advances by one
    when there was a header. *)
Definition ph_next (e : Elf) (idx : Z) : KM (option Elf64Phdr) :=
  if phnum (header e) <=? idx then ret None
  else
    seek_to (e_file e) (phoff (header e) +! Z.of_nat PHDR_SIZE *! idx) ;;;
    let! r := read others naps (e_file e) PHDR_SIZE in
    match r with
    | Some buf => if (length buf =? PHDR_SIZE)%nat then ret (Some (phdr_of buf)) else ret None
    | None => ret None
    end.
End elf.
