(* ===== verification/Exec.v ===== *)
(** * [sched.rs]: starting a program, as code

    [execv_inner] opens the file, drops the regions of the old program, maps
    and fills the loadable segments of the new one, lays out the arguments on
    the stack and rewrites the trap frame, so that the return from the trap
    starts the program.

    The state puts together the file layer ([Kst]), the page tables and frames
    ([Vm], [Umem]), the memory of the current task ([Mm]), the processor with
    the kernel's own memory, where the trap frame is ([Arch]), and [FIRST].
    The kernel reaches user memory through the tables, byte by byte. *)
From S2P Require Import Prelude Stuff Pm Vm VmInv VmTree Umem P9Msg Pipe Kst Cons Fs Elf Arch Trap.

Local Open Scope Z_scope.

(** ** Bytes of user memory *)

(** Byte [k] of the word [w]. *)
Definition get_byte (w k : Z) : Z := Z.land (Z.shiftr w (8 * k)) 255.
Definition put_byte (w k b : Z) : Z :=
  Z.lor (Z.ldiff w (Z.shiftl 255 (8 * k))) (Z.shiftl (Z.land b 255) (8 * k)).

Section bytes.
Context {im : Image} {F : Type} {fo : FrameOps F} {so : ShareOps F}.
Notation VM := (VM F).

(** A store and a load of the kernel at a user address; [None] is an abort. *)
Definition try_store8 (pt v b : Z) : VM bool :=
  let! s := get in
  match translate s (Z.land pt PHY_MASK) v with
  | Some e =>
      if kwritable e then
        let p := Z.land e PHY_MASK in
        let i := Z.land v 0xfff / 8 in
        modify (set_word p i (put_byte (word s p i) (v mod 8) b)) ;;; ret true
      else ret false
  | None => ret false
  end.

Definition try_load8 (pt v : Z) : VM (option Z) :=
  let! s := get in
  match translate s (Z.land pt PHY_MASK) v with
  | Some e => ret (Some (get_byte (word s (Z.land e PHY_MASK) (Z.land v 0xfff / 8)) (v mod 8)))
  | None => ret None
  end.

(** An abort in the kernel goes to [dabt_handler] like one of the task. *)
Definition store8 (m : Mm) (v b : Z) : VM unit :=
  let! pt := unwrap (user_pt m) in
  let! ok := try_store8 pt v b in
  if ok then ret tt
  else
    dabt_handler m v ;;;
    let! ok := try_store8 pt v b in
    if ok then ret tt else fail FFuel.

Definition load8 (m : Mm) (v : Z) : VM Z :=
  let! pt := unwrap (user_pt m) in
  let! o := try_load8 pt v in
  match o with
  | Some b => ret b
  | None =>
      dabt_handler m v ;;;
      let! o := try_load8 pt v in
      match o with Some b => ret b | None => fail FFuel end
  end.

Fixpoint store_bytes (m : Mm) (v : Z) (bs : list Z) : VM unit :=
  match bs with
  | [] => ret tt
  | b :: bs' => store8 m v b ;;; store_bytes m (v +! 1) bs'
  end.

Fixpoint load_bytes (m : Mm) (v : Z) (n : nat) : VM (list Z) :=
  match n with
  | O => ret []
  | S n' => let! b := load8 m v in let! bs := load_bytes m (v +! 1) n' in ret (b :: bs)
  end.

(** [cstr_as_slice] and [cstr64_as_slice]; [fuel] bounds the length. *)
Fixpoint load_cstr (fuel : nat) (m : Mm) (v : Z) : VM (list Z) :=
  match fuel with
  | O => fail FFuel
  | S fuel' =>
      let! b := load8 m v in
      if b =? 0 then ret [] else let! bs := load_cstr fuel' m (v +! 1) in ret (b :: bs)
  end.

Fixpoint load_cstr64 (fuel : nat) (m : Mm) (v : Z) : VM (list Z) :=
  match fuel with
  | O => fail FFuel
  | S fuel' =>
      let! bs := load_bytes m v 8 in
      let x := of_le_bytes bs in
      if x =? 0 then ret [] else let! xs := load_cstr64 fuel' m (v +! 8) in ret (x :: xs)
  end.

Fixpoint load_cstrs (fuel : nat) (m : Mm) (l : list Z) : VM (list (list Z)) :=
  match l with
  | [] => ret []
  | v :: l' => let! s := load_cstr fuel m v in let! ss := load_cstrs fuel m l' in ret (s :: ss)
  end.
End bytes.

(** ** The stack of a new program

    [sp_el0], the slice of the stack pages, with the write position [w_idx] and
    the vector [s] of pointers; [base] is the address of the slice.  [None] is
    the error the function returns. *)
Record Stk := mkStk { sp_el0 : list Z; w_idx : Z; ptrs : list Z }.
Definition SM := M Stk.

Definition set_w (w : Z) (st : Stk) : Stk := mkStk (sp_el0 st) w (ptrs st).
Definition add_ptr (p : Z) (st : Stk) : Stk := mkStk (sp_el0 st) (w_idx st) (ptrs st ++ [p]).

(** [sp_el0[w..w + bs.len()].copy_from_slice(bs)] *)
Definition stk_put (w : Z) (bs : list Z) : SM unit :=
  let! st := get in
  if (0 <=? w) && (w + Z.of_nat (length bs) <=? Z.of_nat (length (sp_el0 st)))
  then modify (λ st, mkStk (splice (Z.to_nat w) bs (sp_el0 st)) (w_idx st) (ptrs st))
  else panic.

(** The loops over [envp] and [argv], from the last string to the first. *)
Fixpoint push_strs (base : Z) (l : list (list Z)) : SM (option unit) :=
  match l with
  | [] => ret (Some tt)
  | slice :: l' =>
      if (length slice =? 0)%nat then ret (Some tt)
      else
        let! st := get in
        let n := Z.of_nat (length slice) in
        if w_idx st <? n + 1 then ret None
        else
          stk_put (w_idx st - 1) [0] ;;;
          stk_put (w_idx st - 1 - n) slice ;;;
          modify (set_w (w_idx st - 1 - n)) ;;;
          modify (add_ptr (base + (w_idx st - 1 - n))) ;;;
          push_strs base l'
  end.

Definition auxv (k v : Z) : SM (option unit) :=
  let! st := get in
  if w_idx st <? 16 then ret None
  else
    stk_put (w_idx st - 16) (le_bytes 8 k ++ le_bytes 8 v) ;;;
    modify (set_w (w_idx st - 16)) ;;;
    ret (Some tt).

Notation "'let*' x := m 'in' k" := (bind m (λ o, match o with Some x => k | None => ret None end))
  (at level 10, x pattern, m at level 100, k at level 200, only parsing) : krn_scope.

(** The new stack pointer. *)
Definition push_args (base : Z) (argv envp : list (list Z)) : SM (option Z) :=
  modify (set_w (SPEL0_SIZE - 16)) ;;;
  let at_random := base + (SPEL0_SIZE - 16) in
  modify (add_ptr 0) ;;;
  let* _ := push_strs base (reverse envp) in
  modify (add_ptr 0) ;;;
  let* _ := push_strs base (reverse argv) in
  modify (λ st, set_w (align_b (w_idx st) 8) st) ;;;
  let* _ := auxv 0 0 in
  let* _ := auxv 25 at_random in
  let! st := get in
  let ptrs_len := 8 * (Z.of_nat (length (ptrs st)) + 1) in
  if w_idx st <? ptrs_len then ret None
  else
    let w := w_idx st - ptrs_len in
    stk_put w (le_bytes 8 (Z.of_nat (length argv)) ++ concat (le_bytes 8 <$> reverse (ptrs st))) ;;;
    ret (Some (base + w)).

(** ** The whole of it *)
Record ESt (X F : Type) := mkE {
  e_k : KSt X;
  e_v : VSt F;
  e_mm : Mm;
  e_m : Machine;
  trapframe : Z;
  FIRST : bool;
}.
Arguments mkE {X F}.
Arguments e_k {X F}.
Arguments e_v {X F}.
Arguments e_mm {X F}.
Arguments e_m {X F}.
Arguments trapframe {X F}.
Arguments FIRST {X F}.

Section exec.
Context {X : Type} {api : P9Api X}.
Context (others : option chan → KM X unit) (naps : nat).
Context {im : Image} {F : Type} {fo : FrameOps F} {so : ShareOps F}.

Definition EM := M (ESt X F).

Definition with_k (k : KSt X) (e : ESt X F) : ESt X F := mkE k (e_v e) (e_mm e) (e_m e) (trapframe e) (FIRST e).
Definition with_v (v : VSt F) (e : ESt X F) : ESt X F := mkE (e_k e) v (e_mm e) (e_m e) (trapframe e) (FIRST e).
Definition with_mm (mm : Mm) (e : ESt X F) : ESt X F := mkE (e_k e) (e_v e) mm (e_m e) (trapframe e) (FIRST e).
Definition with_m (m : Machine) (e : ESt X F) : ESt X F := mkE (e_k e) (e_v e) (e_mm e) m (trapframe e) (FIRST e).
Definition with_first (b : bool) (e : ESt X F) : ESt X F := mkE (e_k e) (e_v e) (e_mm e) (e_m e) (trapframe e) b.

(** A step of one part. *)
Definition zoom {S A} (g : ESt X F → S) (p : S → ESt X F → ESt X F) (m : M S A) : EM A := λ e,
  match m (g e) with Done (a, x) => Done (a, p x e) | Fault f => Fault f end.
Definition on_k {A} (m : KM X A) : EM A := zoom e_k with_k m.
Definition on_v {A} (m : VM F A) : EM A := zoom e_v with_v m.
Definition on_m {A} (m : AM A) : EM A := zoom e_m with_m m.

Definition unwrap_e {A E} (r : E + A) : EM A := match r with inr a => ret a | inl _ => panic end.

(** The old program goes, but for its stack. *)
Definition free_old (l0_pt : Slice) : EM unit :=
  let! mm := gets e_mm in
  on_v (free_region (mmap_r mm) l0_pt false) ;;;
  let mm := with_mmap (set_len 0 (mmap_r mm)) mm in
  modify (with_mm mm) ;;;
  on_v (free_region (brk_r mm) l0_pt false) ;;;
  let mm := with_brk (set_len 0 (brk_r mm)) mm in
  modify (with_mm mm) ;;;
  on_v (free_regions (program mm) l0_pt false) ;;;
  modify (with_mm (with_program [] mm)).

Definition seg_perms (flags : Z) : EM Z :=
  if flags =? Z.lor PF_R PF_X then ret PR_UR_UX
  else if flags =? Z.lor PF_R PF_W then ret PR_PW_UR_UW1
  else if flags =? PF_R then ret PR_UR
  else panic.

(** The body of the loop over the program headers. *)
Definition load_segment (l0_pt : Slice) (file : nat) (p : Elf64Phdr) : EM unit :=
  if negb (p_kind p =? PT_LOAD) then ret tt
  else
    let len := align_f (p_vaddr p mod 4096 +! p_memsz p) 4096 in
    let vfrom := align_b (p_vaddr p) 4096 in
    let pages := len / 4096 in
    on_v (add_pages l0_pt vfrom pages PR_PW) ;;;
    let! t := on_k cur_task in
    on_v (tlbi_aside1 (pid t)) ;;;
    on_k (seek_to file (p_offset p)) ;;;
    assert_ (p_filesz p <=? p_memsz p) ;;;
    let! r := on_k (read_all others naps file (Z.to_nat (p_filesz p))) in
    let! bs := unwrap r in
    let! mm := gets e_mm in
    on_v (store_bytes mm (p_vaddr p) bs) ;;;
    on_v (store_bytes mm (p_vaddr p +! p_filesz p) (replicate (Z.to_nat (p_memsz p - p_filesz p)) 0)) ;;;
    modify (with_mm (with_program (program mm ++ [mkUR RProgram vfrom len len (p_flags p) 0]) mm)) ;;;
    let! perms := seg_perms (p_flags p) in
    let! r := on_v (map_chg_perms l0_pt vfrom pages perms) in
    let! _ := unwrap_e r in ret tt.

(** [while let Some(p) = phit.next(..)]: at most [phnum] headers. *)
Fixpoint load_segments (fuel : nat) (l0_pt : Slice) (elf : Elf) (idx : Z) : EM unit :=
  match fuel with
  | O => fail FFuel
  | S fuel' =>
      let! o := on_k (ph_next others naps elf idx) in
      match o with
      | None => ret tt
      | Some p => load_segment l0_pt (e_file elf) p ;;; load_segments fuel' l0_pt elf (idx + 1)
      end
  end.

(** The stack is cleared and written; what was written stays after an error. *)
Definition exec_stack (argv envp : list (list Z)) : EM (option Z) :=
  let! mm := gets e_mm in
  let base := u_vaddr (spel0 mm) in
  let! (r, st) := lift (push_args base argv envp (mkStk (replicate (Z.to_nat (u_len (spel0 mm))) 0) SPEL0_SIZE [])) in
  on_v (store_bytes mm base (sp_el0 st)) ;;;
  ret r.

(** The tables of a task become those of the lower half. *)
Definition restore_ttbr0 (task_idx pt : Z) : EM unit :=
  on_m (w_ttbr0_el1 (Z.lor (wshl 64 task_idx 48) pt)) ;;;
  on_v (tlbi_aside1 task_idx) ;;;
  on_v tlbi_vmalle1.

(** [tf.zero(); tf.pc = ..; tf.pstate = 0; tf.sp_el0 = ..], then the registers of the processor. *)
Definition exec_frame (elf : Elf) (pt sp_pos : Z) : EM unit :=
  let! tf := gets trapframe in
  on_m (forM (range 0 34) (λ i, store (tf +! 8 *! i) 0)) ;;;
  on_m (store tf (entry (header elf))) ;;;
  on_m (store (tf +! 16) 0) ;;;
  on_m (store (tf +! 8) sp_pos) ;;;
  let! t := on_k cur_task in
  restore_ttbr0 (pid t) pt ;;;
  on_m (w_tpidr_el0 0).

Definition exec_image (l0_pt : Slice) (pt : Z) (elf : Elf) (argv envp : list (list Z)) : EM (option unit) :=
  free_old l0_pt ;;;
  load_segments (S (Z.to_nat (phnum (header elf)))) l0_pt elf 0 ;;;
  let* sp_pos := exec_stack argv envp in
  exec_frame elf pt sp_pos ;;;
  ret (Some tt).

(** [l0_pt] is dropped before [elf], whose drop closes the file. *)
Definition execv_inner (path : list Z) (argv envp : list (list Z)) : EM (option unit) :=
  let* elf := on_k (elf_new others naps path) in
  let! mm := gets e_mm in
  let! pt := unwrap (user_pt mm) in
  let! r := on_v (pm_wrap_new pt PR_PW false) in
  let! l0_pt := unwrap_e r in
  let! r := exec_image (Win l0_pt) pt elf argv envp in
  on_v (pm_wrap_drop l0_pt) ;;;
  on_k (elf_drop (e_file elf)) ;;;
  ret r.

(** [tf.regs[i]] *)
Definition tf_reg (i : Z) : EM Z := let! tf := gets trapframe in on_m (load (tf +! 24 +! 8 *! i)).
Definition set_tf_reg (i v : Z) : EM unit := let! tf := gets trapframe in on_m (store (tf +! 24 +! 8 *! i) v).

Definition execve (fuel : nat) : EM Z :=
  let FAIL := wnot 64 0 in
  let! mm := gets e_mm in
  let! x0 := tf_reg 0 in
  let! path := on_v (load_cstr fuel mm x0) in
  if negb (utf8_valid path) then ret FAIL
  else
    let! x1 := tf_reg 1 in
    let! argv_ptr := on_v (load_cstr64 fuel mm x1) in
    let! x2 := tf_reg 2 in
    let! envp_ptr := on_v (load_cstr64 fuel mm x2) in
    let! argv := on_v (load_cstrs fuel mm argv_ptr) in
    let! envp := on_v (load_cstrs fuel mm envp_ptr) in
    let! r := execv_inner path argv envp in
    ret (match r with Some _ => 0 | None => FAIL end).

(** [svc::handle]: [tf.regs[0] = match tf.regs[8] { 221 => sched::execve(), .. }] *)
Definition svc_execve (fuel : nat) : EM unit := let! r := execve fuel in set_tf_reg 0 r.

(** [forkret]: where a new task starts; the first one becomes the shell. *)
Definition BUSYBOX : list Z := [47; 98; 105; 110; 47; 98; 117; 115; 121; 98; 111; 120].
Definition INIT_ARGV : list (list Z) := [[115; 104]; [45; 105]].

(** "PATH=/bin", "PWD=/", "LC_ALL=C" and the prompt. *)
Definition TEST_ENV : list (list Z) :=
  [[80; 65; 84; 72; 61; 47; 98; 105; 110]; [80; 87; 68; 61; 47]; [76; 67; 95; 65; 76; 76; 61; 67];
   [80; 83; 49; 61; 92; 119; 32; 92; 36; 32]].

(** The lock the scheduler took is given back first ([Spin]). *)
Definition forkret (call : sym → AM unit) : EM unit :=
  let! t := on_k cur_task in
  let! mm := gets e_mm in
  let! pt := unwrap (user_pt mm) in
  restore_ttbr0 (pid t) pt ;;;
  let! first := gets FIRST in
  modify (with_first false) ;;;
  (if first then
     let! r := execv_inner BUSYBOX INIT_ARGV TEST_ENV in
     let! _ := unwrap r in
     on_k (upd_cur (set_cwd (Some [47])))
   else ret tt) ;;;
  let! tf := gets trapframe in
  on_m (forkret_exit call tf).
End exec.
