(* ===== verification/Tick.v ===== *)
(** * [timer.rs]: the tick, and sleeping on it

    [handle_tik] is what the interrupt of the timer runs.  The rest of
    [timer.rs] is in [Cons], next to the wait queues it uses. *)
From S2P Require Import Prelude Hoare Kst Cons Fs FsSys FsSpec FsData Sched Vm Umem Arch Trap Elf Exec.

Local Open Scope Z_scope.

Section tick.
Context {X : Type} {api : P9Api X} {im : Image} {F : Type} {fo : FrameOps F} {so : ShareOps F}.
Context (others : option chan → KM X unit).

(** The processor is number 0 of one ([cpuid]). *)
Definition handle_tik (el : Z) : M (ESt X F) unit :=
  let! freq := on_m r_freq in
  on_k ticks_wake_all ;;;
  on_m (w_ptval_el0 (freq / 100)) ;;;
  let! e := get in
  if ((el =? 1) && bool_decide (is_Some (task_idx (e_k e)))) || (el =? 0) then on_k (yild others) else ret tt.
End tick.

(** ** Sleeping for a time *)
Section sleep.
Context {X : Type} {api : P9Api X} (others : option chan → KM X unit).
Implicit Types (s : KSt X).

(** A task of the table is running, and there is a place for it in the queue. *)
Definition awake (i : nat) s : Prop :=
  task_idx s = Some i ∧ (i < length (k_tasks s))%nat ∧ (wq_count (t_wq (k_ticks s)) < length (wq_tasks (t_wq (k_ticks s))))%nat.

(** While the task sleeps the clock ticks once, and [handle_tik] empties the
    queue; whatever else happens. *)
Definition one_tick : Prop := ∀ c s, (0 < length (wq_tasks (t_wq (k_ticks s))))%nat →
  ∃ s', others c s = Done (tt, s') ∧ t_now (k_ticks s') = t_now (k_ticks s) +! 1 ∧ length (k_tasks s') = length (k_tasks s) ∧
    (wq_count (t_wq (k_ticks s')) < length (wq_tasks (t_wq (k_ticks s'))))%nat.

Lemma add2wait_run i s : awake i s →
  ∃ s', add2wait s = Done (tt, s') ∧ t_now (k_ticks s') = t_now (k_ticks s) ∧ task_idx s' = Some i ∧ k_tasks s' = k_tasks s ∧
    (0 < length (wq_tasks (t_wq (k_ticks s'))))%nat.
Proof.
  intros (Hi & Hl & Hq). unfold add2wait, cur, bind, get, lift. rewrite Hi. cbn [unwrap ret]. unfold ret, wq_add.
  case_decide; [|rewrite (proj2 (Nat.ltb_lt _ _) Hq)]; eexists; (split; [reflexivity|]); simpl; rewrite ?length_insert; split_and!; try done; lia.
Qed.

Lemma nap_run i s : one_tick → awake i s →
  ∃ s', (add2wait ;;; sched_away others None) s = Done (tt, s') ∧ awake i s' ∧ t_now (k_ticks s') = t_now (k_ticks s) +! 1.
Proof.
  intros Ho Ha. destruct (add2wait_run i s Ha) as (s1 & E1 & N1 & I1 & T1 & W1). destruct Ha as (_ & Hl & _).
  set (s2 := with_tasks (alter (λ t, set_chan None (set_state Sleeping t)) i) s1).
  destruct (Ho None s2 W1) as (s3 & E3 & N3 & L3 & W3).
  assert (length (k_tasks s3) = length (k_tasks s)) as Hl3 by (rewrite L3; simpl; by rewrite length_alter, T1).
  exists (with_tasks (alter (set_state Running) i) (with_idx (Some i) s3)). split_and!.
  - rewrite (bind_Done _ _ _ _ _ E1). unfold sched_away, cur, bind, get. rewrite I1. cbn [unwrap ret]. unfold ret, upd_tsk, modify.
    cbv beta iota.
    match goal with |- context [others None ?z] => change z with s2 end. rewrite E3. done.
  - split_and!; simpl; [done|rewrite length_alter; lia|exact W3].
  - simpl. rewrite N3. simpl. by rewrite N1.
Qed.

Lemma tick_loop_run (start n : Z) : 0 ≤ n < 2 ^ 64 → one_tick → ∀ (m naps : nat) i s,
  (m ≤ naps)%nat → Z.of_nat m ≤ n → awake i s → t_now (k_ticks s) = start +! (n - Z.of_nat m) →
  ∃ s', tick_loop others naps start n s = Done (tt, s') ∧ awake i s' ∧ t_now (k_ticks s') = start +! n.
Proof.
  intros Hn Ho. induction m as [|m IH]; intros naps i s Hm Hmn Ha Hs.
  - exists s. split; [|by rewrite Hs, Z.sub_0_r]. assert (t_now (k_ticks s) -! start = n) as E by (rewrite Hs, Z.sub_0_r; by apply wadd_wsub).
    destruct naps; cbn [tick_loop]; unfold read_tick; mstep; by rewrite E, Z.ltb_irrefl.
  - destruct naps as [|naps]; [lia|]. cbn [tick_loop]. unfold read_tick. mstep.
    rewrite Hs, wadd_wsub, (proj2 (Z.ltb_lt _ _)) by lia. destruct (nap_run i s Ho Ha) as (s1 & E1 & Ha1 & N1).
    rewrite <- (bind_assoc add2wait (λ _, sched_away others None)). rewrite (bind_Done _ _ _ _ _ E1).
    apply (IH naps i s1); [lia|lia|done|]. rewrite N1, Hs, wadd_wadd. f_equal. lia.
Qed.

(** Nothing wakes it for good before the time is over. *)
Lemma tick_loop_late (start n : Z) naps : ∀ s u s', tick_loop others naps start n s = Done (u, s') → n ≤ t_now (k_ticks s') -! start.
Proof.
  induction naps as [|naps IH]; intros s u s'; cbn [tick_loop]; unfold read_tick; mstep; destruct (Z.ltb_spec (t_now (k_ticks s) -! start) n) as [Hlt|Hge];
    try discriminate; try (intros [= _ <-]; exact Hge).
  unfold bind. destruct (add2wait s) as [[[] s1]|]; [|discriminate]. destruct (sched_away others None s1) as [[[] s2]|]; [|discriminate]. apply IH.
Qed.
End sleep.

(** C37: How long [clock_nanosleep] sleeps.  [sec] and [nsec] are the two
    words of the time; [ts_millis] makes a number of ticks of a hundredth of a
    second of them.  Whatever the other tasks and the interrupts do, the call
    does not return before that many ticks have passed, also when the counter
    wraps; and if the clock ticks while the task sleeps, it returns 0 after
    exactly that many.  The number is the requested time rounded down to ticks
    as long as it fits an [i64]; beyond that the product wraps around, and a
    request of [2 ^ 62] seconds does not sleep at all. *)
Theorem nanosleep_bounds {X} {api : P9Api X} (others : option chan → KM X unit) (naps : nat) (s : KSt X) (i : nat) (p sec nsec : Z) :
  awake i s → reg 2 s = Done (p, s) → p ≠ 0 → user_read p 16 s = Done (le_bytes 8 sec ++ le_bytes 8 nsec, s) →
  0 ≤ sec < 2 ^ 64 → 0 ≤ nsec < 2 ^ 64 →
  let n := ts_millis sec nsec in
  (∀ r s', clock_nanosleep others naps s = Done (r, s') → r = 0 ∧ n ≤ t_now (k_ticks s') -! t_now (k_ticks s)) ∧
  (one_tick others → n ≤ Z.of_nat naps → 0 ≤ t_now (k_ticks s) < 2 ^ 64 →
   ∃ s', clock_nanosleep others naps s = Done (0, s') ∧ awake i s' ∧ t_now (k_ticks s') = t_now (k_ticks s) +! n) ∧
  (nsec < 10 ^ 9 → 100 * sec + nsec / 10 ^ 7 < 2 ^ 63 →
   n = 100 * sec + nsec / 10 ^ 7 ∧ n * 10 ^ 7 ≤ sec * 10 ^ 9 + nsec < (n + 1) * 10 ^ 7) ∧
  (sec = 2 ^ 62 → nsec < 10 ^ 7 → n = 0).
Proof.
  intros Ha Hr Hp Hu Hsec Hns n.
  assert (0 ≤ n < 2 ^ 64) as Hn by (by apply wrap_range).
  assert (clock_nanosleep others naps s = (timer_sleep others naps n ;;; ret 0) s) as E.
  { unfold clock_nanosleep. rewrite (bind_Done _ _ _ _ _ Hr). rewrite (proj2 (Z.eqb_neq _ _) Hp). cbn [negb]. mstep.
    rewrite (bind_Done _ _ _ _ _ Hu). rewrite take_app_length', drop_app_length' by (by rewrite length_le_bytes).
    rewrite !of_le_bytes_le_bytes. change (2 ^ (8 * Z.of_nat 8)) with (2 ^ 64). by rewrite !Z.mod_small by lia. }
  split_and!.
  - intros r s'. rewrite E. unfold timer_sleep, bind, read_tick, gets. cbv beta iota.
    destruct (tick_loop others naps _ n s) as [[[] s1]|] eqn:El; [|discriminate]. intros [= <- <-]. split; [done|].
    by eapply tick_loop_late.
  - intros Ho Hnaps Ht. destruct (tick_loop_run others (t_now (k_ticks s)) n Hn Ho (Z.to_nat n) naps i s) as (s' & El & Ha' & Hs');
      [lia|lia|done|rewrite Z2Nat.id, Z.sub_diag by lia; by rewrite wadd_small, Z.add_0_r by lia|].
    exists s'. split; [|done]. rewrite E. unfold timer_sleep, bind, read_tick, gets. cbv beta iota. by rewrite El.
  - intros Hn9 Hfit. assert (0 ≤ nsec / 10 ^ 7) by (apply Z.div_pos; lia). assert (n = 100 * sec + nsec / 10 ^ 7) as En.
    { unfold n, ts_millis. rewrite !signed_small by lia. rewrite wmul_small by lia. change 10000000 with (10 ^ 7).
      rewrite Z.quot_div_nonneg by lia. rewrite (Z.mul_comm sec). apply wrap_small. lia. }
    split; [done|]. rewrite En. zdiv.
  - intros -> Hn7. unfold n, ts_millis. rewrite !signed_small by lia. rewrite Z.quot_small by lia. reflexivity.
Qed.

Lemma length_wake_listed q ts : length (wake_listed q ts) = length ts.
Proof.
  unfold wake_listed. generalize (take (wq_count q) (wq_tasks q)) as l. intros l. revert ts.
  induction l as [|[i|] l IH]; intros ts; simpl; [done| |apply IH]. by rewrite IH, length_alter.
Qed.

(** Twenty-five milliseconds are two ticks. *)
Definition napping : KSt Toy.X :=
  let m := list_to_map (zip (seqZ 4096 16) (le_bytes 8 0 ++ le_bytes 8 25000000)) ∪ Toy.mem in
  with_tasks (alter (λ t, mkTask (parent t) (exit_code t) (tid t) (state t) (t_chan t) (pid t) (t_files t) (umask t) (cwd t)
                            [0; 0; 4096] m) 0%nat) (Toy.start []).

Lemma nanosleep_bounds_witness :
  ∃ s', clock_nanosleep ticking 2 napping = Done (0, s') ∧ t_now (k_ticks s') = 2.
Proof.
  destruct (nanosleep_bounds ticking 2 napping 0 4096 0 25000000) as (_ & H & _).
  - split_and!; [reflexivity|vm_compute; lia|vm_compute; lia].
  - vm_compute. reflexivity.
  - discriminate.
  - vm_compute. reflexivity.
  - lia.
  - lia.
  - destruct H as (s' & E & _ & Hn).
    + intros c s Hw. eexists. split; [reflexivity|]. simpl. split_and!; [done| |lia]. apply length_wake_listed.
    + vm_compute. discriminate.
    + vm_compute. split; [discriminate|reflexivity].
    + exists s'. split; [exact E|]. rewrite Hn. reflexivity.
Defined.
