(* ===== verification/ExecStack.v ===== *)
(** * The stack a new program finds

    [parse_stack] is what the start-up code of a C program does: it reads the
    number of arguments at the stack pointer, the pointers to them, those to
    the environment and the auxiliary vector above it, and follows the
    pointers.  What [push_args] leaves is read back as the strings it was
    given. *)
From S2P Require Import Prelude Stuff Pm Vm Umem Kst Exec.

Local Open Scope Z_scope.

(** ** The reader *)
Section reader.
Context (buf : list Z) (base : Z).

Definition rd64 (a : Z) : Z := of_le_bytes (take 8 (drop (Z.to_nat (a - base)) buf)).

(** Words up to a zero one, and the address after it. *)
Fixpoint rd_ptrs (fuel : nat) (a : Z) : option (list Z * Z) :=
  match fuel with
  | O => None
  | S fuel' =>
      let x := rd64 a in
      if x =? 0 then Some ([], a + 8)
      else r ← rd_ptrs fuel' (a + 8); Some (x :: r.1, r.2)
  end.

Fixpoint rd_aux (fuel : nat) (a : Z) : option (list (Z * Z)) :=
  match fuel with
  | O => None
  | S fuel' =>
      let k := rd64 a in
      if k =? 0 then Some []
      else l ← rd_aux fuel' (a + 16); Some ((k, rd64 (a + 8)) :: l)
  end.

Fixpoint cstr (bs : list Z) : option (list Z) :=
  match bs with
  | [] => None
  | b :: bs' => if b =? 0 then Some [] else cons b <$> cstr bs'
  end.

Definition rd_cstr (a : Z) : option (list Z) := cstr (drop (Z.to_nat (a - base)) buf).

Definition parse_stack (sp : Z) : option (Z * list (list Z) * list (list Z) * list (Z * Z)) :=
  '(argv, a) ← rd_ptrs (length buf) (sp + 8);
  '(envp, a') ← rd_ptrs (length buf) a;
  aux ← rd_aux (length buf) a';
  argv ← mapM rd_cstr argv;
  envp ← mapM rd_cstr envp;
  Some (rd64 sp, argv, envp, aux).
End reader.

(** ** Bytes at a place *)
Definition bytes_at (buf : list Z) (o : nat) (bs : list Z) : Prop := ∀ i b, bs !! i = Some b → buf !! (o + i)%nat = Some b.

Section bytes.
Implicit Types (buf bs : list Z).

Lemma bytes_at_app buf o b1 b2 : bytes_at buf o (b1 ++ b2) ↔ bytes_at buf o b1 ∧ bytes_at buf (o + length b1) b2.
Proof.
  split.
  - intros H. split; intros i b Hi.
    + apply H. by apply lookup_app_l_Some.
    + rewrite <- Nat.add_assoc. apply H. rewrite lookup_app_r by lia. by rewrite Nat.add_comm, Nat.add_sub.
  - intros [H1 H2] i b [Hi|[Hl Hi]]%lookup_app_Some; [by apply H1|].
    replace (o + i)%nat with (o + length b1 + (i - length b1))%nat by lia. by apply H2.
Qed.

Lemma bytes_at_take buf o bs : bytes_at buf o bs → take (length bs) (drop o buf) = bs.
Proof.
  intros H. apply list_eq_same_length with (length bs); [done| |].
  - rewrite length_take, length_drop. destruct (decide (length bs = 0%nat)) as [->|]; [done|].
    destruct (lookup_lt_is_Some_2 bs (length bs - 1)) as [b Hb]; [lia|]. apply H, lookup_lt_Some in Hb. lia.
  - intros i x y Hi Hx Hy. rewrite lookup_take_lt in Hx by done. rewrite lookup_drop in Hx. apply H in Hy. congruence.
Qed.

Lemma bytes_at_splice buf o bs : (o + length bs ≤ length buf)%nat → bytes_at (splice o bs buf) o bs.
Proof.
  intros Hl i b Hi. pose proof (lookup_lt_Some _ _ _ Hi). rewrite splice_lookup_in by lia. by rewrite Nat.add_comm, Nat.add_sub.
Qed.

Lemma bytes_at_splice_ne buf o bs o' bs' :
  bytes_at buf o bs → (o' + length bs' ≤ length buf)%nat → (o + length bs ≤ o' ∨ o' + length bs' ≤ o)%nat →
  bytes_at (splice o' bs' buf) o bs.
Proof. intros H Hl Ho i b Hi. pose proof (lookup_lt_Some _ _ _ Hi). rewrite splice_lookup_out by lia. by apply H. Qed.

Lemma bytes_at_drop buf o bs : bytes_at buf o bs → ∃ rest, drop o buf = bs ++ rest.
Proof. intros H. exists (drop (length bs) (drop o buf)). rewrite <- (bytes_at_take buf o bs H) at 1. by rewrite take_drop. Qed.
End bytes.

(** ** Reading back *)
Section read_back.
Context (buf : list Z) (base : Z).

Definition words (ws : list Z) : list Z := concat (le_bytes 8 <$> ws).

Lemma length_words ws : length (words ws) = (8 * length ws)%nat.
Proof.
  unfold words. induction ws as [|x ws IH]; [done|]. rewrite fmap_cons. cbn [concat length]. rewrite length_app, length_le_bytes, IH. lia.
Qed.

Lemma words_cons x ws : words (x :: ws) = le_bytes 8 x ++ words ws.
Proof. done. Qed.

Lemma words_app u v : words (u ++ v) = words u ++ words v.
Proof. unfold words. by rewrite fmap_app, concat_app. Qed.

Definition w_at (a : Z) (ws : list Z) : Prop := base ≤ a ∧ bytes_at buf (Z.to_nat (a - base)) (words ws).

Lemma w_at_app a u v : w_at a (u ++ v) → w_at a u ∧ w_at (a + 8 * Z.of_nat (length u)) v.
Proof.
  intros [Ha H]. rewrite words_app, bytes_at_app, length_words in H. destruct H as [H1 H2]. split; [done|]. split; [lia|].
  by replace (Z.to_nat (a + 8 * Z.of_nat (length u) - base)) with (Z.to_nat (a - base) + 8 * length u)%nat by lia.
Qed.

Lemma w_at_cons a x ws : w_at a (x :: ws) → 0 ≤ x < 2 ^ 64 → rd64 buf base a = x ∧ w_at (a + 8) ws.
Proof.
  intros H Hx. destruct (w_at_app a [x] ws H) as [[Ha H1] H2]. split; [|exact H2].
  rewrite words_cons, app_nil_r in H1. apply bytes_at_take in H1. rewrite length_le_bytes in H1. unfold rd64. rewrite H1.
  rewrite of_le_bytes_le_bytes. by apply Z.mod_small.
Qed.

Lemma rd_ptrs_eq ps : ∀ fuel a rest, Forall (λ p, 0 < p < 2 ^ 64) ps → w_at a (ps ++ 0 :: rest) → (length ps < fuel)%nat →
  rd_ptrs buf base fuel a = Some (ps, a + 8 * (Z.of_nat (length ps) + 1)).
Proof.
  induction ps as [|p ps IH]; intros [|fuel] a rest HF Hw Hl; cbn [length] in *; try lia.
  - destruct (w_at_cons a 0 rest Hw) as [E _]; [lia|]. cbn [rd_ptrs]. by rewrite E.
  - apply Forall_cons in HF as [Hp HF]. destruct (w_at_cons a p _ Hw) as [E Hw']; [lia|]. cbn [rd_ptrs]. rewrite E.
    rewrite (proj2 (Z.eqb_neq p 0)) by lia. rewrite (IH fuel (a + 8) rest HF Hw') by lia. simpl. do 2 f_equal. lia.
Qed.

Lemma cstr_app s rest : Forall (λ b, b ≠ 0) s → cstr (s ++ 0 :: rest) = Some s.
Proof.
  induction 1 as [|b s Hb _ IH]; [done|]. simpl. rewrite (proj2 (Z.eqb_neq b 0)) by done. by rewrite IH.
Qed.

(** String [s], with its terminator, at address [p]. *)
Definition str_at (p : Z) (s : list Z) : Prop := base ≤ p ∧ bytes_at buf (Z.to_nat (p - base)) (s ++ [0]).

Lemma rd_cstr_eq p s : str_at p s → Forall (λ b, b ≠ 0) s → rd_cstr buf base p = Some s.
Proof.
  intros [_ H] Hs. destruct (bytes_at_drop _ _ _ H) as [rest E]. unfold rd_cstr. rewrite E, <- app_assoc. by apply cstr_app.
Qed.

Lemma rd_cstrs_eq ps ss : Forall2 str_at ps ss → Forall (Forall (λ b, b ≠ 0)) ss → mapM (rd_cstr buf base) ps = Some ss.
Proof.
  induction 1 as [|p s ps ss Hp _ IH]; intros HF; [done|]. apply Forall_cons in HF as [Hs HF].
  simpl. rewrite (rd_cstr_eq p s Hp Hs). simpl. by rewrite IH.
Qed.
End read_back.

(** ** What is written *)

(** Bytes the strings take, with their terminators. *)
Definition strs_len (l : list (list Z)) : Z := foldr (λ s n, Z.of_nat (length s) + 1 + n) 0 l.

(** The position under the strings, and whether everything fits. *)
Definition strs_end (argv envp : list (list Z)) : Z := SPEL0_SIZE - 16 - strs_len argv - strs_len envp.
Definition stack_fits (argv envp : list (list Z)) : bool :=
  (0 <=? strs_end argv envp) &&
  (32 + 8 * (Z.of_nat (length argv) + Z.of_nat (length envp) + 3) <=? align_b (strs_end argv envp) 8).

Lemma strs_len_nonneg l : 0 ≤ strs_len l.
Proof. induction l as [|s l IH]; simpl; lia. Qed.

Lemma strs_len_app l1 l2 : strs_len (l1 ++ l2) = strs_len l1 + strs_len l2.
Proof. induction l1 as [|s l IH]; simpl; [done|]. rewrite IH. lia. Qed.

Lemma strs_len_reverse l : strs_len (reverse l) = strs_len l.
Proof. induction l as [|s l IH]; [done|]. rewrite reverse_cons, strs_len_app, IH. simpl. lia. Qed.

Lemma stk_put_run w bs st :
  0 ≤ w → w + Z.of_nat (length bs) ≤ Z.of_nat (length (sp_el0 st)) →
  stk_put w bs st = Done (tt, mkStk (splice (Z.to_nat w) bs (sp_el0 st)) (w_idx st) (ptrs st)).
Proof.
  intros Hw Hl. unfold stk_put. mstep. by rewrite (proj2 (Z.leb_le 0 w) Hw), (proj2 (Z.leb_le _ _) Hl).
Qed.

(** Nothing at or above [w] has changed from [st] to [st']. *)
Definition above (w : Z) (st st' : Stk) : Prop :=
  length (sp_el0 st') = length (sp_el0 st) ∧
  ∀ i, w ≤ Z.of_nat i → sp_el0 st' !! i = sp_el0 st !! i.

Lemma above_refl w st : above w st st.
Proof. done. Qed.

Lemma above_trans w w' st1 st2 st3 : w' ≤ w → above w st1 st2 → above w' st2 st3 → above w st1 st3.
Proof. intros Hw [E1 H1] [E2 H2]. split; [congruence|]. intros i Hi. rewrite H2 by lia. by apply H1. Qed.

Lemma above_splice w st o bs w' ps :
  0 ≤ o → o + Z.of_nat (length bs) ≤ w → w ≤ Z.of_nat (length (sp_el0 st)) →
  above w st (mkStk (splice (Z.to_nat o) bs (sp_el0 st)) w' ps).
Proof.
  intros Ho Hw Hl. split; simpl; [by rewrite length_splice by lia|]. intros i Hi. apply splice_lookup_out; lia.
Qed.

Lemma above_bytes w st st' o bs : above w st st' → w ≤ Z.of_nat o → bytes_at (sp_el0 st) o bs → bytes_at (sp_el0 st') o bs.
Proof. intros [_ H] Ho Hb i b Hi. rewrite H by lia. by apply Hb. Qed.

Lemma above_str w st st' base p s :
  above w st st' → base + w ≤ p → 0 ≤ w → str_at (sp_el0 st) base p s → str_at (sp_el0 st') base p s.
Proof. intros Ha Hp Hw [H1 H2]. split; [done|]. eapply above_bytes; [done| |done]. lia. Qed.

(** One loop: the strings that fit are there, their addresses are on the vector. *)
Lemma push_strs_run base l : ∀ st,
  Forall (λ s, s ≠ []) l → 0 ≤ w_idx st ≤ Z.of_nat (length (sp_el0 st)) →
  if strs_len l <=? w_idx st then
    ∃ st' ps, push_strs base l st = Done (Some tt, st') ∧ w_idx st' = w_idx st - strs_len l ∧
      ptrs st' = ptrs st ++ ps ∧ above (w_idx st) st st' ∧ Forall2 (str_at (sp_el0 st') base) ps l ∧
      Forall (λ p, base + w_idx st' ≤ p < base + w_idx st) ps
  else ∃ st', push_strs base l st = Done (None, st').
Proof.
  induction l as [|s l IH]; intros st HF Hw.
  - simpl. rewrite (proj2 (Z.leb_le _ _)) by lia. exists st, []. rewrite app_nil_r. split_and!; try done. lia.
  - apply Forall_cons in HF as [Hs HF]. assert (0 < length s)%nat as Hpos by (destruct s; [done|simpl; lia]).
    set (n := Z.of_nat (length s)). cbn [push_strs strs_len foldr]. fold (strs_len l). fold n.
    rewrite (proj2 (Nat.eqb_neq _ _)) by lia. mstep. pose proof (strs_len_nonneg l) as Hl0. fold n.
    destruct (Z.ltb_spec (w_idx st) (n + 1)) as [Hlt|Hge].
    { rewrite (proj2 (Z.leb_gt _ _)) by lia. by exists st. }
    rewrite bind_Done with (a := tt) (s' := mkStk (splice (Z.to_nat (w_idx st - 1)) [0] (sp_el0 st)) (w_idx st) (ptrs st))
      by (apply stk_put_run; simpl; lia).
    set (st1 := mkStk _ _ _). assert (length (sp_el0 st1) = length (sp_el0 st)) as El by (apply length_splice; simpl; lia).
    rewrite bind_Done with (a := tt) (s' := mkStk (splice (Z.to_nat (w_idx st - 1 - n)) s (sp_el0 st1)) (w_idx st) (ptrs st))
      by (rewrite (stk_put_run (w_idx st - 1 - n) s st1) by (fold n; lia); done).
    set (st2 := mkStk _ _ _). assert (length (sp_el0 st2) = length (sp_el0 st)) as El2
      by (unfold st2; cbn [sp_el0]; rewrite length_splice by (fold n; lia); exact El).
    unfold bind at 1, modify at 1. unfold bind at 1, modify at 1. unfold set_w, add_ptr. cbn [sp_el0 w_idx ptrs].
    set (w1 := w_idx st - 1 - n). set (st3 := mkStk (sp_el0 st2) w1 (ptrs st ++ [base + w1])).
    assert (above (w_idx st) st st2) as Ha.
    { eapply above_trans; [reflexivity|apply (above_splice (w_idx st) st (w_idx st - 1) [0] (w_idx st) (ptrs st)); simpl; lia|].
      apply (above_splice (w_idx st) st1 w1 s (w_idx st) (ptrs st)); unfold w1; fold n; lia. }
    assert (str_at (sp_el0 st2) base (base + w1) s) as Hst.
    { split; [lia|]. replace (Z.to_nat (base + w1 - base)) with (Z.to_nat w1) by lia. apply bytes_at_app. split.
      - unfold st2. cbn [sp_el0]. apply bytes_at_splice. unfold w1. fold n. lia.
      - replace (Z.to_nat w1 + length s)%nat with (Z.to_nat (w_idx st - 1)) by (unfold w1; lia).
        unfold st2. cbn [sp_el0]. apply bytes_at_splice_ne; [|fold n; lia|right; fold n; lia].
        unfold st1. cbn [sp_el0]. apply bytes_at_splice. simpl. lia. }
    specialize (IH st3 HF). cbn [w_idx sp_el0 st3] in IH. rewrite El2 in IH. specialize (IH ltac:(unfold w1; lia)).
    destruct (Z.leb_spec (strs_len l) w1) as [Hf|Hf]; [|rewrite (proj2 (Z.leb_gt _ _)) by (unfold w1 in *; lia); done].
    rewrite (proj2 (Z.leb_le _ _)) by (unfold w1 in *; lia).
    destruct IH as (st' & ps & E & Ew & Ep & Ha' & HS & HP). exists st', (base + w1 :: ps). split_and!.
    + exact E.
    + rewrite Ew. unfold w1. lia.
    + rewrite Ep. unfold st3. cbn [ptrs]. by rewrite <- app_assoc.
    + eapply above_trans; [|exact Ha|exact Ha']. unfold w1. lia.
    + constructor; [|done]. eapply (above_str w1 st3 st'); [exact Ha'|lia|unfold w1; lia|exact Hst].
    + constructor; [unfold w1 in *; lia|]. eapply Forall_impl; [exact HP|]. intros p Hp. cbv beta in Hp. unfold w1 in *. lia.
Qed.

Lemma auxv_run k v st :
  0 ≤ w_idx st ≤ Z.of_nat (length (sp_el0 st)) →
  if 16 <=? w_idx st then
    ∃ st', auxv k v st = Done (Some tt, st') ∧ w_idx st' = w_idx st - 16 ∧ ptrs st' = ptrs st ∧ above (w_idx st) st st' ∧
      bytes_at (sp_el0 st') (Z.to_nat (w_idx st')) (words [k; v])
  else auxv k v st = Done (None, st).
Proof.
  intros Hw. unfold auxv. mstep. destruct (Z.leb_spec 16 (w_idx st)) as [H|H].
  - rewrite (proj2 (Z.ltb_ge _ _)) by lia.
    assert (length (le_bytes 8 k ++ le_bytes 8 v) = 16%nat) as El by by rewrite length_app, !length_le_bytes.
    rewrite bind_Done with (a := tt) (s' := mkStk (splice (Z.to_nat (w_idx st - 16)) (le_bytes 8 k ++ le_bytes 8 v) (sp_el0 st)) (w_idx st) (ptrs st))
      by (apply stk_put_run; rewrite ?El; lia).
    eexists. split; [reflexivity|]. cbn [set_w w_idx ptrs sp_el0]. split_and!; [done|done| |].
    + apply above_splice; rewrite ?El; lia.
    + unfold words. cbn [fmap list_fmap concat]. rewrite app_nil_r. apply bytes_at_splice. rewrite El. lia.
  - by rewrite (proj2 (Z.ltb_lt _ _)) by lia.
Qed.

Lemma align8 w : 0 ≤ w < 2 ^ 64 → align_b w 8 = w - w mod 8.
Proof. intros Hw. change 8 with (2 ^ 3). rewrite align_b_pow2 by lia. change (2 ^ 3) with 8. zdiv. Qed.

(** The words at the stack pointer. *)
Definition stack_words (argc at_random : Z) (aps eps : list Z) : list Z :=
  argc :: aps ++ 0 :: eps ++ 0 :: [25; at_random; 0; 0].

Lemma bind_modify {S A} (f : S → S) (k : unit → M S A) s : bind (modify f) k s = k tt (f s).
Proof. done. Qed.

(** [mrun], and on to the next step. *)
Ltac mgo E := erewrite bind_Done by (exact E); cbv beta iota.

(** The end of [push_args]: the auxiliary vector and the pointers. *)
Definition push_end (base argc : Z) : SM (option Z) :=
  modify (λ st, set_w (align_b (w_idx st) 8) st) ;;;
  let* _ := auxv 0 0 in
  let* _ := auxv 25 (base + (SPEL0_SIZE - 16)) in
  let! st := get in
  let ptrs_len := 8 * (Z.of_nat (length (ptrs st)) + 1) in
  if w_idx st <? ptrs_len then ret None
  else
    let w := w_idx st - ptrs_len in
    stk_put w (le_bytes 8 argc ++ concat (le_bytes 8 <$> reverse (ptrs st))) ;;;
    ret (Some (base + w)).

Lemma push_end_run base argc st :
  0 ≤ w_idx st ≤ Z.of_nat (length (sp_el0 st)) → w_idx st < 2 ^ 64 →
  let n := 32 + 8 * (Z.of_nat (length (ptrs st)) + 1) in
  let w := align_b (w_idx st) 8 - n in
  if 0 <=? w then
    ∃ st', push_end base argc st = Done (Some (base + w), st') ∧ above (w_idx st) st st' ∧
      bytes_at (sp_el0 st') (Z.to_nat w) (words (argc :: reverse (ptrs st) ++ [25; base + (SPEL0_SIZE - 16); 0; 0]))
  else ∃ st', push_end base argc st = Done (None, st').
Proof.
  intros Hw Hw64 n w. unfold push_end. rewrite bind_modify.
  set (a := align_b (w_idx st) 8) in *. assert (0 ≤ a ≤ w_idx st) as Ha by (unfold a; rewrite align8 by lia; zdiv).
  set (st1 := set_w a st). assert (w_idx st1 = a) as Ew by done. assert (ptrs st1 = ptrs st) as Ept by done. assert (sp_el0 st1 = sp_el0 st) as Esp by done.
  clearbody st1.
  pose proof (auxv_run 0 0 st1 ltac:(rewrite Esp; lia)) as H1. rewrite Ew in H1.
  destruct (Z.leb_spec 16 a) as [H16|H16].
  2:{ rewrite (proj2 (Z.leb_gt _ _)) by lia. mgo H1. by exists st1. }
  destruct H1 as (st2 & E1 & Ew1 & Ep1 & Ha1 & Hb1). mgo E1.
  assert (length (sp_el0 st2) = length (sp_el0 st)) as El2 by (rewrite <- Esp; apply Ha1).
  pose proof (auxv_run 25 (base + (SPEL0_SIZE - 16)) st2 ltac:(lia)) as H2. rewrite Ew1 in H2.
  destruct (Z.leb_spec 16 (a - 16)) as [H32|H32].
  2:{ rewrite (proj2 (Z.leb_gt _ _)) by lia. mgo H2. by exists st2. }
  destruct H2 as (st3 & E2 & Ew2 & Ep2 & Ha2 & Hb2). mgo E2. mstep.
  assert (length (sp_el0 st3) = length (sp_el0 st)) as El3 by (rewrite <- El2; apply Ha2).
  assert (ptrs st3 = ptrs st) as Ep by (rewrite Ep2, Ep1; done). rewrite Ep, Ew2.
  destruct (Z.leb_spec 0 w) as [H0|H0].
  2:{ rewrite (proj2 (Z.ltb_lt _ _)) by lia. by exists st3. }
  rewrite (proj2 (Z.ltb_ge _ _)) by lia.
  set (bs := le_bytes 8 argc ++ concat (le_bytes 8 <$> reverse (ptrs st))).
  assert (bs = words (argc :: reverse (ptrs st))) as Ebs by done.
  assert (Z.of_nat (length bs) = n - 32) as Elb by (rewrite Ebs, length_words; cbn [length]; rewrite length_reverse; lia).
  replace (a - 16 - 16 - 8 * (Z.of_nat (length (ptrs st)) + 1)) with w by lia.
  rewrite bind_Done with (a := tt) (s' := mkStk (splice (Z.to_nat w) bs (sp_el0 st3)) (w_idx st3) (ptrs st3))
    by (apply stk_put_run; lia).
  eexists. split; [reflexivity|]. set (st4 := mkStk _ _ _).
  assert (above (a - 32) st3 st4) as Ha3 by (apply above_splice; lia).
  split.
  - eapply above_trans; [|split; [exact (eq_refl (length (sp_el0 st)))|done]|]; [reflexivity|].
    destruct Ha1 as [L1 A1], Ha2 as [L2 A2], Ha3 as [L3 A3]. split; [congruence|]. intros i Hi.
    rewrite A3, A2, A1, Esp by lia. done.
  - rewrite app_comm_cons, words_app, <- Ebs. apply bytes_at_app. split; [apply bytes_at_splice; lia|].
    replace (Z.to_nat w + length bs)%nat with (Z.to_nat (a - 32)) by lia.
    change [25; base + (SPEL0_SIZE - 16); 0; 0] with ([25; base + (SPEL0_SIZE - 16)] ++ [0; 0]). rewrite words_app. apply bytes_at_app. split.
    + eapply above_bytes; [exact Ha3|lia|]. rewrite Ew2 in Hb2. by replace (a - 16 - 16) with (a - 32) in Hb2 by lia.
    + rewrite length_words. cbn [length]. replace (Z.to_nat (a - 32) + 8 * 2)%nat with (Z.to_nat (a - 16)) by lia.
      eapply above_bytes; [exact Ha3|lia|]. eapply above_bytes; [exact Ha2|lia|]. by rewrite Ew1 in Hb1.
Qed.

Lemma Forall2_Forall_l_impl {A B} (P Q : A → B → Prop) (R : A → Prop) l k :
  Forall2 P l k → Forall R l → (∀ x y, P x y → R x → Q x y) → Forall2 Q l k.
Proof. induction 1; intros HR Himp; constructor; inversion HR; eauto. Qed.

(** Where [push_args] leaves everything. *)
Record laid_out (buf : list Z) (base sp argc : Z) (argv envp : list (list Z)) : Prop := {
  lo_len : length buf = Z.to_nat SPEL0_SIZE;
  lo_sp : base ≤ sp < base + SPEL0_SIZE ∧ (base mod 8 = 0 → sp mod 8 = 0);
  lo_words : ∃ aps eps, w_at buf base sp (stack_words argc (base + (SPEL0_SIZE - 16)) aps eps) ∧
    Forall2 (str_at buf base) aps argv ∧ Forall2 (str_at buf base) eps envp ∧
    Forall (λ p, base < p < base + SPEL0_SIZE) (aps ++ eps);
  lo_random : bytes_at buf (Z.to_nat (SPEL0_SIZE - 16)) (replicate 16 0);
}.

Definition stk0 : Stk := mkStk (replicate (Z.to_nat SPEL0_SIZE) 0) SPEL0_SIZE [].

Lemma bytes_at_zero n o k : (o + k ≤ n)%nat → bytes_at (replicate n 0) o (replicate k 0).
Proof. intros H i b [-> Hi]%lookup_replicate. apply lookup_replicate_2. lia. Qed.

(** The strings that are pushed: those after the last empty one. *)
Fixpoint upto (l : list (list Z)) : list (list Z) :=
  match l with
  | [] => []
  | s :: l' => if (length s =? 0)%nat then [] else s :: upto l'
  end.
Definition kept (l : list (list Z)) : list (list Z) := reverse (upto (reverse l)).

Lemma upto_nonempty l : Forall (λ s, s ≠ []) (upto l).
Proof.
  induction l as [|s l IH]; simpl; [done|]. destruct (length s =? 0)%nat eqn:E; [done|]. constructor; [|done].
  by intros ->.
Qed.

Lemma kept_nonempty l : Forall (λ s, s ≠ []) (kept l).
Proof. apply Forall_reverse, upto_nonempty. Qed.

Lemma upto_all l : Forall (λ s, s ≠ []) l → upto l = l.
Proof. induction 1 as [|s l Hs _ IH]; [done|]. simpl. rewrite IH. by destruct s. Qed.

Lemma kept_all l : Forall (λ s, s ≠ []) l → kept l = l.
Proof. intros H. unfold kept. rewrite upto_all by by apply Forall_reverse. apply reverse_involutive. Qed.

Lemma upto_app l1 l2 : Forall (λ s, s ≠ []) l1 → upto (l1 ++ [] :: l2) = l1.
Proof. induction 1 as [|s l Hs _ IH]; [done|]. simpl. rewrite IH. by destruct s. Qed.

Lemma kept_cut l1 l2 : Forall (λ s, s ≠ []) l2 → kept (l1 ++ [] :: l2) = l2.
Proof.
  intros H. unfold kept. rewrite reverse_app, reverse_cons, <- app_assoc. cbn [app]. rewrite upto_app by by apply Forall_reverse.
  apply reverse_involutive.
Qed.

Lemma push_strs_upto base l : push_strs base l = push_strs base (upto l).
Proof.
  induction l as [|s l IH]; [done|]. cbn [push_strs upto]. destruct (length s =? 0)%nat eqn:E; [done|]. cbn [push_strs]. by rewrite E, IH.
Qed.

Lemma push_args_run base argv envp :
  0 ≤ base →
  if stack_fits (kept argv) (kept envp) then
    ∃ sp st, push_args base argv envp stk0 = Done (Some sp, st) ∧
      laid_out (sp_el0 st) base sp (Z.of_nat (length argv)) (kept argv) (kept envp)
  else ∃ st, push_args base argv envp stk0 = Done (None, st).
Proof.
  intros Hbase. unfold push_args. set (argc := Z.of_nat (length argv)). clearbody argc.
  rewrite (push_strs_upto base (reverse envp)), (push_strs_upto base (reverse argv)).
  rewrite <- (reverse_involutive (upto (reverse argv))), <- (reverse_involutive (upto (reverse envp))).
  fold (kept argv) (kept envp). pose proof (kept_nonempty argv) as HFa. pose proof (kept_nonempty envp) as HFe.
  generalize dependent (kept argv). generalize dependent (kept envp). clear argv envp. intros envp HFe argv HFa.
  set (N := SPEL0_SIZE). assert (N = 8192) as EN by done. set (buf0 := replicate (Z.to_nat N) 0).
  assert (length buf0 = Z.to_nat N) as El0 by apply length_replicate.
  pose proof (strs_len_nonneg argv) as Hla. pose proof (strs_len_nonneg envp) as Hle.
  unfold stack_fits, strs_end. fold N. rewrite !bind_modify. fold N.
  set (st1 := add_ptr 0 (set_w (N - 16) stk0)).
  assert (w_idx st1 = N - 16) as Ew1 by done. assert (ptrs st1 = [0]) as Ep1 by done. assert (sp_el0 st1 = buf0) as Eb1 by done.
  clearbody st1.
  pose proof (push_strs_run base (reverse envp) st1 ltac:(by apply Forall_reverse) ltac:(rewrite Eb1; lia)) as H.
  rewrite strs_len_reverse, Ew1 in H. destruct (Z.leb_spec (strs_len envp) (N - 16)) as [Hf|Hf].
  2:{ rewrite (proj2 (Z.leb_gt 0 _)) by lia. destruct H as [st E]. mgo E. by exists st. }
  destruct H as (st2 & eps & E2 & Ew2 & Ep2 & Ha2 & HS2 & HP2). mgo E2.
  rewrite bind_modify. set (st3 := add_ptr 0 st2).
  assert (length (sp_el0 st2) = Z.to_nat N) as El2 by (rewrite <- El0, <- Eb1; apply Ha2).
  assert (w_idx st3 = w_idx st2) as Ew3 by done. assert (ptrs st3 = ptrs st2 ++ [0]) as Ep3 by done.
  assert (sp_el0 st3 = sp_el0 st2) as Eb3 by done. clearbody st3.
  pose proof (push_strs_run base (reverse argv) st3 ltac:(by apply Forall_reverse) ltac:(rewrite Eb3; lia)) as H.
  rewrite strs_len_reverse, Ew3, Ew2 in H. destruct (Z.leb_spec (strs_len argv) (N - 16 - strs_len envp)) as [Hg|Hg].
  2:{ rewrite (proj2 (Z.leb_gt 0 _)) by lia. destruct H as [st E]. mgo E. by exists st. }
  destruct H as (st4 & aps & E4 & Ew4 & Ep4 & Ha4 & HS4 & HP4). mgo E4.
  assert (length (sp_el0 st4) = Z.to_nat N) as El4 by (rewrite <- El2, <- Eb3; apply Ha4).
  replace (N - 16 - strs_len argv - strs_len envp) with (w_idx st4) by lia.
  rewrite (proj2 (Z.leb_le 0 (w_idx st4))) by lia. cbn [andb].
  pose proof (push_end_run base argc st4 ltac:(lia) ltac:(lia)) as H. cbv zeta in H.
  assert (Z.of_nat (length (ptrs st4)) = Z.of_nat (length argv) + Z.of_nat (length envp) + 2) as Ept.
  { rewrite Ep4, Ep3, Ep2, Ep1, !length_app. apply Forall2_length in HS2, HS4. rewrite length_reverse in HS2, HS4. cbn [length]. lia. }
  rewrite Ept in H.
  replace (Z.of_nat (length argv) + Z.of_nat (length envp) + 2 + 1) with (Z.of_nat (length argv) + Z.of_nat (length envp) + 3) in H by lia.
  set (n := 32 + 8 * _) in *. set (a := align_b (w_idx st4) 8) in *.
  destruct (Z.leb_spec n a) as [Hn|Hn].
  2:{ rewrite (proj2 (Z.leb_gt 0 _)) in H by lia. exact H. }
  rewrite (proj2 (Z.leb_le 0 _)) in H by lia. destruct H as (st5 & E5 & Ha5 & Hb5).
  exists (base + (a - n)), st5. split; [exact E5|].
  assert (a = w_idx st4 - w_idx st4 mod 8) as Ea by (apply align8; lia).
  assert (length (sp_el0 st5) = Z.to_nat N) as El5 by (rewrite <- El4; apply Ha5).
  assert (reverse (ptrs st4) = reverse aps ++ 0 :: reverse eps ++ [0]) as Er.
  { rewrite Ep4, Ep3, Ep2, Ep1, !reverse_app. done. }
  split.
  - exact El5.
  - split; [unfold n in *; zdiv|]. intros Hb. unfold n in *. zdiv.
  - exists (reverse aps), (reverse eps). rewrite Er in Hb5. split_and!.
    + split; [lia|]. replace (Z.to_nat (base + (a - n) - base)) with (Z.to_nat (a - n)) by lia.
      unfold stack_words. rewrite <- !app_assoc in Hb5. cbn [app] in Hb5. rewrite <- !app_assoc in Hb5. exact Hb5.
    + rewrite <- (reverse_involutive argv). apply Forall2_reverse.
      eapply Forall2_Forall_l_impl; [exact HS4|exact HP4|]. intros p s Hp Hr. cbv beta in Hr.
      eapply (above_str (w_idx st4)); [exact Ha5|lia|lia|exact Hp].
    + rewrite <- (reverse_involutive envp). apply Forall2_reverse.
      eapply Forall2_Forall_l_impl; [exact HS2|exact HP2|]. intros p s Hp Hr. cbv beta in Hr.
      eapply (above_str (w_idx st4)); [exact Ha5|lia|lia|].
      eapply (above_str _ st3 st4); [exact Ha4|lia|lia|]. rewrite Eb3. exact Hp.
    + apply Forall_app. split; apply Forall_reverse.
      * eapply Forall_impl; [exact HP4|]. intros p Hp. cbv beta in Hp. unfold n in *. zdiv.
      * eapply Forall_impl; [exact HP2|]. intros p Hp. cbv beta in Hp. unfold n in *. zdiv.
  - eapply (above_bytes (w_idx st4)); [exact Ha5|lia|]. eapply (above_bytes _ st3 st4); [exact Ha4|lia|].
    rewrite Eb3. eapply (above_bytes _ st1 st2); [exact Ha2|lia|]. rewrite Eb1. apply bytes_at_zero. lia.
Qed.

Lemma kept_Forall (P : list Z → Prop) l : Forall P l → Forall P (kept l).
Proof.
  intros H. apply Forall_reverse. assert (Forall P (reverse l)) as Hr by by apply Forall_reverse. clear H. revert Hr.
  generalize (reverse l). intros k H. induction H as [|s k Hs _ IH]; simpl; [done|]. by destruct (length s =? 0)%nat; [|constructor].
Qed.

Lemma laid_out_parse buf base sp argc argv envp :
  laid_out buf base sp argc argv envp → 0 ≤ base → base + SPEL0_SIZE ≤ 2 ^ 64 → 0 ≤ argc < 2 ^ 64 →
  Forall (Forall (λ b, b ≠ 0)) argv → Forall (Forall (λ b, b ≠ 0)) envp →
  parse_stack buf base sp = Some (argc, argv, envp, [(25, base + (SPEL0_SIZE - 16))]).
Proof.
  set (N := SPEL0_SIZE). assert (N = 8192) as EN by done.
  intros [Hl [Hsp _] (aps & eps & Hw & HSa & HSe & HP) _] Hb Hb64 Hargc HFa HFe. fold N in Hl, Hsp, Hw, HP, Hb64.
  assert (Forall (λ p, 0 < p < 2 ^ 64) (aps ++ eps)) as HP'
    by (eapply Forall_impl; [exact HP|]; intros p Hp; cbv beta in Hp; lia).
  apply Forall_app in HP' as [HPa HPe]. unfold stack_words in Hw.
  assert (8 * Z.of_nat (length (argc :: aps ++ 0 :: eps ++ [0; 25; base + (N - 16); 0; 0])) ≤ N) as Hlen.
  { destruct Hw as [Hs Hw]. pose proof (bytes_at_take _ _ _ Hw) as Ht. apply (f_equal length) in Ht.
    rewrite length_take, length_drop, length_words in Ht. unfold N in *. lia. }
  cbn [length] in Hlen. rewrite length_app in Hlen. cbn [length] in Hlen. rewrite length_app in Hlen. cbn [length] in Hlen.
  destruct (w_at_cons _ _ _ _ _ Hw Hargc) as [Eargc Hw1]. unfold parse_stack.
  rewrite (rd_ptrs_eq buf base aps (length buf) (sp + 8) _ HPa Hw1) by lia. cbn [mbind option_bind].
  destruct (w_at_app _ _ _ _ _ Hw1) as [_ Hw2]. destruct (w_at_cons _ _ _ _ _ Hw2) as [_ Hw3]; [lia|].
  replace (sp + 8 + 8 * (Z.of_nat (length aps) + 1)) with (sp + 8 + 8 * Z.of_nat (length aps) + 8) by lia.
  rewrite (rd_ptrs_eq buf base eps (length buf) _ _ HPe Hw3) by lia.
  destruct (w_at_app _ _ _ _ _ Hw3) as [_ Hw4]. destruct (w_at_cons _ _ _ _ _ Hw4) as [_ Hw5]; [lia|].
  set (a' := sp + 8 + 8 * Z.of_nat (length aps) + 8) in *.
  replace (a' + 8 * (Z.of_nat (length eps) + 1)) with (a' + 8 * Z.of_nat (length eps) + 8) by lia.
  set (a := a' + 8 * Z.of_nat (length eps) + 8) in *.
  destruct (w_at_cons _ _ _ _ _ Hw5) as [E1 Hw6]; [lia|]. destruct (w_at_cons _ _ _ _ _ Hw6) as [E2 Hw7]; [lia|].
  destruct (w_at_cons _ _ _ _ _ Hw7) as [E3 _]; [lia|].
  assert (rd_aux buf base (length buf) a = Some [(25, base + (N - 16))]) as Eaux.
  { destruct (length buf) as [|[|n]] eqn:El; [lia..|]. cbn [rd_aux]. rewrite E1, E2.
    replace (a + 16) with (a + 8 + 8) by lia. rewrite E3. done. }
  cbn [mbind option_bind]. cbv iota beta. rewrite Eaux. cbn [mbind option_bind].
  rewrite (rd_cstrs_eq buf base aps argv HSa HFa), (rd_cstrs_eq buf base eps envp HSe HFe). cbn [mbind option_bind]. by rewrite Eargc.
Qed.

(** C32: The arguments on the stack.  If they fit, the start-up code of the
    program reads back, from the stack pointer [exec] sets, the number of
    arguments, the arguments, the environment and the auxiliary vector with
    the address of the sixteen bytes for [AT_RANDOM], which are zero; the
    stack pointer is aligned to eight bytes.  An empty string cuts the list:
    of the arguments before it nothing is left but the count (without empty
    strings [kept l] is [l]).  If they do not fit, [exec] reports it. *)
Theorem stack_abi (base : Z) (argv envp : list (list Z)) :
  0 ≤ base → base + SPEL0_SIZE ≤ 2 ^ 64 → Z.of_nat (length argv) < 2 ^ 64 →
  Forall (Forall (λ b, b ≠ 0)) (argv ++ envp) →
  if stack_fits (kept argv) (kept envp) then
    ∃ sp st, push_args base argv envp stk0 = Done (Some sp, st) ∧
      parse_stack (sp_el0 st) base sp =
        Some (Z.of_nat (length argv), kept argv, kept envp, [(25, base + (SPEL0_SIZE - 16))]) ∧
      (base ≤ sp < base + SPEL0_SIZE ∧ (base mod 8 = 0 → sp mod 8 = 0)) ∧
      bytes_at (sp_el0 st) (Z.to_nat (SPEL0_SIZE - 16)) (replicate 16 0)
  else ∃ st, push_args base argv envp stk0 = Done (None, st).
Proof.
  intros Hb Hb64 Hargc [HFa HFe]%Forall_app. pose proof (push_args_run base argv envp Hb) as H.
  destruct (stack_fits (kept argv) (kept envp)); [|done]. destruct H as (sp & st & E & HL). exists sp, st.
  split; [exact E|]. split; [|split; [apply HL|apply HL]].
  apply laid_out_parse; [done..|lia| |]; by apply kept_Forall.
Qed.

(** "sh -i" with one variable; and the same with an empty argument between. *)
Lemma stack_abi_witness :
  let base := 8 * GB in
  let sh := [115; 104] in
  let i := [45; 105] in
  let env := [80; 61; 47] in
  (∃ sp st, push_args base [sh; i] [env] stk0 = Done (Some sp, st) ∧
     parse_stack (sp_el0 st) base sp = Some (2, [sh; i], [env], [(25, base + 8176)])) ∧
  ∃ sp st, push_args base [sh; []; i] [env] stk0 = Done (Some sp, st) ∧
     parse_stack (sp_el0 st) base sp = Some (3, [i], [env], [(25, base + 8176)]).
Proof.
  assert (stack_fits (kept [[115; 104]; [45; 105]]) (kept [[80; 61; 47]]) = true) as F1 by (vm_compute; reflexivity).
  assert (stack_fits (kept [[115; 104]; []; [45; 105]]) (kept [[80; 61; 47]]) = true) as F2 by (vm_compute; reflexivity).
  split.
  - pose proof (stack_abi (8 * GB) [[115; 104]; [45; 105]] [[80; 61; 47]] ltac:(vm_compute; discriminate) ltac:(vm_compute; discriminate)
      ltac:(vm_compute; reflexivity) ltac:(repeat constructor; discriminate)) as H.
    rewrite F1 in H. destruct H as (sp & st & E & H & _). exists sp, st. split; [exact E|exact H].
  - pose proof (stack_abi (8 * GB) [[115; 104]; []; [45; 105]] [[80; 61; 47]] ltac:(vm_compute; discriminate) ltac:(vm_compute; discriminate)
      ltac:(vm_compute; reflexivity) ltac:(repeat constructor; discriminate)) as H.
    rewrite F2 in H. destruct H as (sp & st & E & H & _). exists sp, st. split; [exact E|exact H].
Defined.
