(* ===== verification/ExecMem.v ===== *)
(** * Loading a program into memory

    What a task reads byte by byte ([ubyte]), how stores of the kernel change
    it, and how one segment is mapped, filled and protected. *)
From S2P Require Import Prelude Stuff Pm Vm VmInv VmTree VmRun VmSpec Umem UmemInv UmemRun UmemSafe UmemOps UmemSpec UmemFork UmemFree.
From S2P Require Import Kst Elf Exec.

Local Open Scope Z_scope.

(** ** Bytes in words *)
Section in_word.
Lemma get_put w k k' b : 0 ≤ k < 8 → 0 ≤ k' < 8 → 0 ≤ b < 256 → get_byte (put_byte w k b) k' = if k' =? k then b else get_byte w k'.
Proof.
  intros Hk Hk' Hb. unfold get_byte, put_byte. apply Z.bits_inj_iff'. intros i Hi.
  change 255 with (Z.ones 8). rewrite Z.land_spec, Z.shiftr_spec, Z.lor_spec, Z.ldiff_spec, !Z.shiftl_spec, Z.land_spec by lia.
  rewrite !Z.testbit_ones by lia. destruct (Z.ltb_spec i 8) as [Hi8|Hi8].
  - rewrite (proj2 (Z.leb_le 0 i)) by lia. cbn [andb]. rewrite andb_true_r. destruct (Z.eqb_spec k' k) as [->|Hne].
    + replace (i + 8 * k - 8 * k) with i by lia. rewrite (proj2 (Z.leb_le 0 i)), (proj2 (Z.ltb_lt i 8)) by lia. cbn [andb negb].
      by rewrite andb_false_r, andb_true_r.
    + assert (((0 <=? i + 8 * k' - 8 * k) && (i + 8 * k' - 8 * k <? 8)) = false) as ->.
      { apply andb_false_iff. rewrite Z.leb_gt, Z.ltb_ge. lia. }
      cbn [negb]. rewrite andb_true_r, andb_false_r, orb_false_r.
      rewrite Z.land_spec, Z.shiftr_spec, Z.testbit_ones by lia.
      by rewrite (proj2 (Z.leb_le 0 i)), (proj2 (Z.ltb_lt i 8)), andb_true_r by lia.
  - rewrite !andb_false_r. destruct (k' =? k).
    + symmetry. apply (testbit_high 8); [exact Hb|lia].
    + rewrite Z.land_spec, Z.testbit_ones by lia. by rewrite (proj2 (Z.ltb_ge i 8)), !andb_false_r by lia.
Qed.
End in_word.

Section bytes.
Context {im : Image} {F : Type} {fo : FrameOps F} {so : ShareOps F} {fl : FrameLaws F} {shl : ShareLaws F}.
Implicit Types (s : VSt F) (W : gmap Z Z) (T : gmap Z (Z * list Z)) (B : gmap Z blk) (R : gmap (Z * Z) Z).

(** The byte a task with root [r] reads at [v]. *)
Definition ubyte s (r v : Z) : option Z := (λ w, get_byte w (v mod 8)) <$> uload s r v.

Lemma same_byte v v' :
  0 ≤ v < 2 ^ 48 → 0 ≤ v' < 2 ^ 48 → vpn v' = vpn v → Z.land v' 0xfff / 8 = Z.land v 0xfff / 8 → v' mod 8 = v mod 8 → v' = v.
Proof.
  intros Hv Hv' Hp Ho Hm. change 0xfff with (Z.ones 12) in Ho. rewrite !Z.land_ones in Ho by lia. change (2 ^ 12) with 4096 in Ho.
  unfold vpn in Hp. change (2 ^ 48) with 281474976710656 in *. change (2 ^ 36) with 68719476736 in Hp.
  rewrite !Z.mod_small in Hp by zdiv. zdiv.
Qed.

Lemma store8_run s T W B R m r v b e :
  UInv s T W B R → Safe B R → user_pt m = Some r → uroot T r → R !! (r, vpn v) = Some e → kwritable e = true →
  0 ≤ v < 2 ^ 48 → 0 ≤ b < 256 →
  ∃ s', store8 m v b s = Done (tt, s') ∧ UInv s' T W B R ∧ frames s' = frames s ∧
    ∀ r' v', uroot T r' → 0 ≤ v' < 2 ^ 48 → ubyte s' r' v' = if decide (r' = r ∧ v' = v) then Some b else ubyte s r' v'.
Proof.
  intros HU HS Hm Hr HR Hw Hv Hb. pose proof (uroot_frame _ _ _ _ _ _ HU Hr) as [_ Hrm].
  set (i := Z.land v 0xfff / 8). set (x := put_byte (word s (fr e) i) (v mod 8) b).
  assert (ustore s r v x = Some (set_word (fr e) i x s)) as Est.
  { unfold ustore. rewrite (ui_map _ _ _ _ _ HU r v Hr), HR. simpl. by rewrite Hw. }
  destruct (store_isolated s T W B R r v x _ HU HS Hr Est) as (HU' & H1 & H2).
  exists (set_word (fr e) i x s). split_and!; [|done|done|].
  - unfold store8. rewrite Hm. mstep. unfold try_store8. rewrite bind_assoc. mstep.
    rewrite Hrm, (ui_map _ _ _ _ _ HU r v Hr), HR, Hw. done.
  - intros r' v' Hr' Hv'. pose proof (Z.mod_pos_bound v 8 ltac:(lia)). pose proof (Z.mod_pos_bound v' 8 ltac:(lia)). unfold ubyte.
    destruct (decide (r' = r ∧ vpn v' = vpn v ∧ Z.land v' 0xfff / 8 = Z.land v 0xfff / 8)) as [(-> & Ep & Eo)|Hn].
    + rewrite (uload_map s T W B R r v' HU Hr). rewrite (uload_map _ T W B R r v' HU' Hr), Ep, HR. cbn [fmap option_fmap option_map].
      rewrite Eo. fold i. rewrite word_set, decide_True by done. unfold x. rewrite get_put by lia. case_decide as Hd.
      * destruct Hd as [_ ->]. by rewrite Z.eqb_refl.
      * rewrite (proj2 (Z.eqb_neq _ _)); [done|]. intros Em. apply Hd. split; [done|]. by apply same_byte.
    + rewrite (H2 r' v' Hr') by done. rewrite decide_False; [done|]. intros [-> ->]. by apply Hn.
Qed.

(** Every byte from [v] on, [n] of them, is in a page the kernel may write. *)
Definition writable R (r v n : Z) : Prop := ∀ a, v ≤ a < v + n → ∃ e, R !! (r, vpn a) = Some e ∧ kwritable e = true.

(** [bs] is what the task [r] reads from [v] on, and nothing else changes. *)
Definition stored s T (r v : Z) (bs : list Z) s' : Prop :=
  ∀ r' a, uroot T r' → 0 ≤ a < 2 ^ 48 →
    ubyte s' r' a = if decide (r' = r ∧ v ≤ a < v + Z.of_nat (length bs)) then bs !! Z.to_nat (a - v) else ubyte s r' a.

Lemma store_bytes_run T W B R m r bs : ∀ s v,
  UInv s T W B R → Safe B R → user_pt m = Some r → uroot T r → writable R r v (Z.of_nat (length bs)) → Forall is_byte bs →
  0 ≤ v → v + Z.of_nat (length bs) < 2 ^ 48 →
  ∃ s', store_bytes m v bs s = Done (tt, s') ∧ UInv s' T W B R ∧ frames s' = frames s ∧ stored s T r v bs s'.
Proof.
  induction bs as [|b bs IH]; intros s v HU HS Hm Hr Hw Hbs Hv Hmax.
  - exists s. split_and!; [done..|]. intros r' a _ _. rewrite decide_False; [done|]. simpl. lia.
  - apply Forall_cons in Hbs as [Hb Hbs]. cbn [length] in *. destruct (Hw v ltac:(lia)) as (e & HR & He).
    destruct (store8_run s T W B R m r v b e HU HS Hm Hr HR He ltac:(lia) Hb) as (s1 & E1 & HU1 & Ef1 & H1).
    destruct (IH s1 (v + 1) HU1 HS Hm Hr) as (s2 & E2 & HU2 & Ef2 & H2); [intros a Ha; apply Hw; lia|done|lia|lia|].
    exists s2. split_and!; [|done|congruence|].
    + cbn [store_bytes]. mrun E1. rewrite wadd_small by lia. exact E2.
    + intros r' a Hr' Ha. rewrite (H2 r' a Hr' Ha), (H1 r' a Hr' Ha). cbn [length].
      destruct (decide (r' = r ∧ v + 1 ≤ a < v + 1 + Z.of_nat (length bs))) as [[-> Hd]|Hd].
      * rewrite decide_True by lia. replace (Z.to_nat (a - v)) with (S (Z.to_nat (a - (v + 1)))) by lia. done.
      * destruct (decide (r' = r ∧ a = v)) as [[-> ->]|Hn].
        -- rewrite decide_True by lia. by rewrite Z.sub_diag.
        -- rewrite decide_False; [done|]. intros [-> Hd']. lia.
Qed.

(** ** Protection *)
Lemma cnt_fr R R' p : (∀ k, fr <$> R' !! k = fr <$> R !! k) → cnt R' p = cnt R p.
Proof.
  intros H. assert (∀ Q : gmap (Z * Z) Z, cnt Q p = Z.of_nat (base.size (filter (λ x, x.2 = p) (fr <$> Q)))) as Hc.
  { intros Q. unfold cnt. rewrite map_filter_fmap, map_size_fmap. done. }
  rewrite !Hc. assert (fr <$> R' = fr <$> R) as -> by (apply map_eq; intros k; rewrite !lookup_fmap; apply H). done.
Qed.

Lemma Safe_perms B R R' :
  Safe B R → (∀ k, fr <$> R' !! k = fr <$> R !! k) →
  (∀ k e e', R !! k = Some e → R' !! k = Some e' → kwritable e' = true → kwritable e = true) → Safe B R'.
Proof.
  intros HS Hf Hw k e' h b Hk Hin. pose proof (Hf k) as E. rewrite Hk in E. destruct (R !! k) as [e|] eqn:Ek; [|done].
  simpl in E. injection E as E. rewrite E in Hin. destruct (HS k e h b Ek Hin) as (H1 & H2 & H3).
  rewrite (cnt_fr R R' _ Hf), E. split_and!; [done..|]. intros He. apply H3. by eapply Hw.
Qed.

Definition chg (perms e : Z) : Z := Z.lor (Z.lor (fr e) perms) 0x403.

Lemma chg_loop_run sl r a n W T B perms :
  0 ≤ a → a mod 4096 = 0 → a + 4096 * n ≤ 2 ^ 47 → shows W sl r → uroot T r → perms_ok perms → (base.size W + 3 ≤ 128)%nat →
  let v0 := vpn a in
  ∀ k lo s R, 0 ≤ lo → n - lo = Z.of_nat k → UInv s T W B R →
  (∀ i, lo ≤ i < n → is_Some (R !! (r, v0 + i))) →
  ∃ s' R', forM (range lo n) (λ i, let! x := v2p_pt sl (a +! 4096 *! i) (Some (set_perms perms)) in
                                    let! _ := unwrap_r x in ret tt) s = Done (tt, s') ∧
    UInv s' T W B R' ∧ frames s' = frames s ∧ keeps s T s' T ∧
    ∀ r' j, R' !! (r', j) = if decide (r' = r ∧ v0 + lo ≤ j < v0 + n) then chg perms <$> R !! (r', j) else R !! (r', j).
Proof.
  intros Ha Hal Hmax Hs Hr Hp Hsz v0 k. induction k as [|k IH]; intros lo s R Hlo Hk HU HR.
  - rewrite range_nil by lia. exists s, R. split_and!; [done|done|done|apply keeps_refl|]. intros r' j. rewrite decide_False; [done|lia].
  - rewrite range_cons by lia. destruct (HR lo ltac:(lia)) as [e He].
    assert (vpn (a + 4096 * lo) = v0 + lo) as Ev by (apply vpn_add; lia). rewrite <- Ev in He.
    destruct (v2p_perms_run s T W B R sl r (a + 4096 * lo) e perms HU Hs Hr Hsz He Hp) as (s1 & E1 & HU1 & Ef1 & K1).
    fold (chg perms e) in HU1. rewrite Ev in *.
    destruct (IH (lo + 1) s1 _ ltac:(lia) ltac:(lia) HU1) as (s2 & R2 & E2 & HU2 & Ef2 & K2 & H2).
    { intros i Hi. rewrite lookup_insert_ne by (intros [=]; lia). apply HR. lia. }
    exists s2, R2. split_and!; [|done|congruence|by eapply keeps_trans|].
    + cbn [forM]. rewrite bind_assoc. rewrite (page_i a lo) by lia. mrun E1. exact E2.
    + intros r' j. rewrite H2. destruct (decide (r' = r ∧ v0 + (lo + 1) ≤ j < v0 + n)) as [[-> Hd]|Hd].
      * rewrite decide_True by lia. by rewrite lookup_insert_ne by (intros [=]; lia).
      * destruct (decide ((r', j) = (r, v0 + lo))) as [[= -> ->]|Hne].
        -- rewrite decide_True by lia. by rewrite lookup_insert_eq, He.
        -- rewrite lookup_insert_ne by done. rewrite decide_False; [done|]. intros [-> Hd']. apply Hne. f_equal. lia.
Qed.

Lemma fr_chg perms e : perms_ok perms → fr (chg perms e) = fr e.
Proof. apply fr_leaf. Qed.

Lemma chg_perms_run s T W B R sl r a n perms :
  UInv s T W B R → Safe B R → 0 ≤ a → a mod 4096 = 0 → a + 4096 * n ≤ 2 ^ 47 → 0 ≤ n →
  shows W sl r → uroot T r → perms_ok perms → (base.size W + 3 ≤ 128)%nat →
  (∀ i, 0 ≤ i < n → ∃ e, R !! (r, vpn a + i) = Some e ∧ kwritable e = true) →
  ∃ s' R', map_chg_perms sl a n perms s = Done (inr a, s') ∧ UInv s' T W B R' ∧ Safe B R' ∧ frames s' = frames s ∧
    (∀ r' v, uroot T r' → ubyte s' r' v = ubyte s r' v) ∧
    ∀ r' j, R' !! (r', j) = if decide (r' = r ∧ vpn a ≤ j < vpn a + n) then chg perms <$> R !! (r', j) else R !! (r', j).
Proof.
  intros HU HS Ha Hal Hmax Hn Hs Hr Hp Hsz HR.
  destruct (chg_loop_run sl r a n W T B perms Ha Hal Hmax Hs Hr Hp Hsz (Z.to_nat n) 0 s R) as (s' & R' & E & HU' & Ef & K & H);
    [done|lia|done|intros i Hi; destruct (HR i Hi) as (e & -> & _); eauto|]. rewrite Z.add_0_r in H.
  assert (∀ k, fr <$> R' !! k = fr <$> R !! k) as Hfr.
  { intros [r' j]. rewrite H. case_decide; [|done]. destruct (R !! (r', j)); [|done]. simpl. by rewrite fr_chg. }
  exists s', R'. split_and!; [|done| |done| |done].
  - unfold map_chg_perms. by mrun E.
  - eapply Safe_perms; [exact HS|exact Hfr|]. intros [r' j] e e' He He' Hw. rewrite H in He'. case_decide as Hd; [|congruence].
    destruct Hd as [-> Hd]. destruct (HR (j - vpn a) ltac:(lia)) as (e0 & He0 & Hw0).
    replace (vpn a + (j - vpn a)) with j in He0 by lia. congruence.
  - intros r' v Hr'. unfold ubyte. f_equal. by apply (uload_agree s T W B R s' T W B R').
Qed.
End bytes.
