(* ===== verification/ExecSeg.v ===== *)
(** * One segment of a program

    The pages of a segment are mapped writable for the kernel, filled with the
    bytes of the file and with zeroes, and given the permissions of the segment. *)
From S2P Require Import Prelude Stuff Pm Vm VmInv VmTree VmRun VmSpec Umem UmemInv UmemRun UmemSafe UmemOps UmemSpec UmemFork UmemFree.
From S2P Require Import Kst Elf Exec ExecMem.

Local Open Scope Z_scope.

(** ** Pages *)
Definition seg_from (p : Elf64Phdr) : Z := align_b (p_vaddr p) 4096.
Definition seg_len (p : Elf64Phdr) : Z := align_f (p_vaddr p mod 4096 +! p_memsz p) 4096.
Definition seg_region (p : Elf64Phdr) : URegion := mkUR RProgram (seg_from p) (seg_len p) (seg_len p) (p_flags p) 0.
Definition seg_pages (p : Elf64Phdr) : Z := seg_len p / 4096.

(** What the permissions of a segment become. *)
Definition perms_of (flags : Z) : Z := if flags =? 5 then PR_UR_UX else if flags =? 6 then PR_PW_UR_UW1 else PR_UR.

(** A segment that can be loaded, from a file of [n] bytes. *)
Record seg_ok (n : Z) (p : Elf64Phdr) : Prop := {
  sg_vaddr : 0 ≤ p_vaddr p;
  sg_end : p_vaddr p + p_memsz p ≤ 2 ^ 46;
  sg_filesz : 0 ≤ p_filesz p ≤ p_memsz p;
  sg_memsz : 0 < p_memsz p;
  sg_file : 0 ≤ p_offset p ∧ p_offset p + p_filesz p ≤ n;
  sg_flags : p_flags p = 4 ∨ p_flags p = 5 ∨ p_flags p = 6;
}.

(** The contents of the segment. *)
Definition seg_data (content : list Z) (p : Elf64Phdr) : list Z :=
  take (Z.to_nat (p_filesz p)) (drop (Z.to_nat (p_offset p)) content).
Definition seg_bytes (content : list Z) (p : Elf64Phdr) : list Z :=
  seg_data content p ++ replicate (Z.to_nat (p_memsz p - p_filesz p)) 0.

Section pages.
Implicit Types (p : Elf64Phdr).

Lemma seg_layout n p : seg_ok n p →
  seg_from p = p_vaddr p - p_vaddr p mod 4096 ∧ seg_from p mod 4096 = 0 ∧ 0 ≤ seg_from p ∧
  seg_len p = 4096 * seg_pages p ∧ 0 < seg_pages p ∧
  p_vaddr p + p_memsz p ≤ seg_from p + seg_len p < p_vaddr p + p_memsz p + 4096.
Proof.
  intros [H1 H2 H3 H4 _ _]. pose proof (Z.mod_pos_bound (p_vaddr p) 4096 ltac:(lia)) as Hm.
  assert (seg_from p = p_vaddr p - p_vaddr p mod 4096) as Ef by (apply align_b_page; lia).
  unfold seg_pages. unfold seg_len. rewrite wadd_small by lia. set (x := p_vaddr p mod 4096 + p_memsz p).
  destruct (align_f_bounds x 12) as [Hb [q Hq]]; [unfold x; lia|lia|unfold x; lia|]. change (2 ^ 12) with 4096 in *.
  rewrite Hq in *. rewrite Z.div_mul by lia. split_and!; [exact Ef|rewrite Ef; zdiv|rewrite Ef; zdiv|lia|unfold x in Hb; nia|unfold x in *; lia|unfold x in *; lia].
Qed.

Lemma seg_region_ok n p : seg_ok n p → region_ok (seg_region p) (seg_pages p).
Proof.
  intros H. destruct (seg_layout n p H) as (Ef & Hal & H0 & El & Hp & Hb). destruct H as [H1 H2 H3 H4 _ _].
  split_and!; [done|done|done|exact El|lia|]. cbn [u_vaddr u_len seg_region]. lia.
Qed.

Lemma seg_page n p a : seg_ok n p → seg_from p ≤ a < seg_from p + seg_len p →
  vpn (seg_from p) ≤ vpn a < vpn (seg_from p) + seg_pages p.
Proof.
  intros H Ha. destruct (seg_layout n p H) as (Ef & Hal & H0 & El & Hp & Hb). destruct H as [H1 H2 H3 H4 _ _].
  unfold vpn. rewrite !Z.mod_small by zdiv. zdiv.
Qed.

Lemma in_seg p j : in_region (seg_region p) j = true ↔ vpn (seg_from p) ≤ j < vpn (seg_from p) + seg_pages p.
Proof. unfold in_region, npages. cbn [u_vaddr u_len seg_region]. fold (seg_pages p). rewrite andb_true_iff, Z.leb_le, Z.ltb_lt. lia. Qed.

Lemma perms_of_ok f : perms_ok (perms_of f).
Proof. unfold perms_of. by repeat case_match. Qed.

Lemma seg_data_length content p : seg_ok (Z.of_nat (length content)) p → length (seg_data content p) = Z.to_nat (p_filesz p).
Proof. intros [_ _ H3 _ H5 _]. unfold seg_data. rewrite length_take, length_drop. lia. Qed.

Lemma seg_bytes_length content p : seg_ok (Z.of_nat (length content)) p → Z.of_nat (length (seg_bytes content p)) = p_memsz p.
Proof. intros H. unfold seg_bytes. rewrite length_app, (seg_data_length content p H), length_replicate. destruct H as [_ _ H3 _ _ _]. lia. Qed.
End pages.

Section segment.
Context {im : Image} {F : Type} {fo : FrameOps F} {so : ShareOps F} {fl : FrameLaws F} {shl : ShareLaws F}.
Implicit Types (s : VSt F) (W : gmap Z Z) (T : gmap Z (Z * list Z)) (B : gmap Z blk) (R : gmap (Z * Z) Z).

Lemma PW_writable p : frame_ok p → kwritable (Z.lor (Z.lor p PR_PW) 0x403) = true.
Proof.
  intros Hp. unfold kwritable. rewrite !Z.lor_spec. apply frame_ok_range in Hp as [_ Hp].
  replace (Z.testbit p 7) with false; [done|]. symmetry.
  apply Z.mod_divide in Hp as [q ->]; [|lia]. change 4096 with (2 ^ 12). by rewrite Z.mul_pow2_bits_low by lia.
Qed.

(** The segment [p] with the bytes [bs] is in the memory of [r]; no other page has changed. *)
Record loaded s T W B R (r : Z) (p : Elf64Phdr) (bs : list Z) s' T' B' R' : Prop := {
  ld_inv : UInv s' T' W B' R';
  ld_safe : Safe B' R';
  ld_tables : T ⊆ T';
  ld_pages k : in_region (seg_region p) k = true →
    ∃ f, R' !! (r, k) = Some (Z.lor (Z.lor f (perms_of (p_flags p))) 0x403) ∧ frame_ok f;
  ld_other r' k : ¬ (r' = r ∧ in_region (seg_region p) k = true) → R' !! (r', k) = R !! (r', k);
  ld_bytes a : p_vaddr p ≤ a < p_vaddr p + p_memsz p → ubyte s' r a = bs !! Z.to_nat (a - p_vaddr p);
  ld_same r' v : uroot T r' → 0 ≤ v < 2 ^ 48 → ¬ (r' = r ∧ in_region (seg_region p) (vpn v) = true) → ubyte s' r' v = ubyte s r' v;
}.

Lemma segment_run s T W B R sl r mm p content asid m :
  UInv s T W B R → Safe B R → shows W sl r → uroot T r → user_pt mm = Some r → (base.size W + 3 ≤ 128)%nat →
  seg_ok (Z.of_nat (length content)) p → Forall is_byte content → room (frames s) (4 * Z.to_nat (seg_pages p) + m) →
  (∀ k, in_region (seg_region p) k = true → R !! (r, k) = None) →
  ∃ s0 s1 s2 s3 s4 T' B' R',
    add_pages sl (seg_from p) (seg_pages p) PR_PW s = Done (tt, s0) ∧
    tlbi_aside1 asid s0 = Done (tt, s1) ∧
    store_bytes mm (p_vaddr p) (seg_data content p) s1 = Done (tt, s2) ∧
    store_bytes mm (p_vaddr p +! p_filesz p) (replicate (Z.to_nat (p_memsz p - p_filesz p)) 0) s2 = Done (tt, s3) ∧
    map_chg_perms sl (seg_from p) (seg_pages p) (perms_of (p_flags p)) s3 = Done (inr (seg_from p), s4) ∧
    loaded s T W B R r p (seg_bytes content p) s4 T' B' R' ∧ room (frames s4) m.
Proof.
  intros HU HS Hsl Hr Hm Hsz Hseg Hby Hroom HR.
  destruct (seg_layout _ _ Hseg) as (Ef & Hal & H0 & El & Hpg & Hb). pose proof Hseg as [G1 G2 G3 G4 G5 G6].
  pose proof (seg_data_length content p Hseg) as Edl.
  destruct (add_pages_run sl r (seg_from p) (seg_pages p) W PR_PW H0 Hal ltac:(lia) Hsl PR_PW_ok Hsz (Z.to_nat (seg_pages p)) 0 s T B R m
    ltac:(lia) ltac:(lia) HU Hr Hroom) as (s0 & T' & B' & R1 & E1 & HU0 & HT & HB & Rm & K0 & HS1 & Hnew & Hold).
  { intros i Hi. apply HR, in_seg. lia. }
  destruct (tlbi_aside1 asid s0) as [[[] s1]|] eqn:E0; [|done]. assert (UInv s1 T' W B' R1) as HU1 by (injection E0 as <-; by apply UInv_tlb).
  assert (frames s1 = frames s0) as Ef1 by by injection E0 as <-.
  assert (keeps s T s1 T') as K1 by by injection E0 as <-.
  specialize (HS1 HS). pose proof (uroot_mono _ _ _ HT Hr) as Hr1.
  assert (∀ a, seg_from p ≤ a < seg_from p + seg_len p → ∃ e, R1 !! (r, vpn a) = Some e ∧ kwritable e = true) as Hwr.
  { intros a Ha. pose proof (seg_page _ p a Hseg Ha) as Hva. destruct (Hnew (vpn a - vpn (seg_from p)) ltac:(lia)) as (q & Hq & Hok & _).
    replace (vpn (seg_from p) + (vpn a - vpn (seg_from p))) with (vpn a) in Hq by lia. eexists. split; [exact Hq|by apply PW_writable]. }
  assert (p_vaddr p - p_vaddr p mod 4096 ≤ p_vaddr p) as Hlow by zdiv.
  destruct (store_bytes_run T' W B' R1 mm r (seg_data content p) s1 (p_vaddr p) HU1 HS1 Hm Hr1) as (s2 & E2 & HU2 & Ef2 & St2).
  { intros a Ha. apply Hwr. lia. } { by apply Forall_take, Forall_drop. } { lia. } { lia. }
  destruct (store_bytes_run T' W B' R1 mm r (replicate (Z.to_nat (p_memsz p - p_filesz p)) 0) s2 (p_vaddr p + p_filesz p) HU2 HS1 Hm Hr1)
    as (s3 & E3 & HU3 & Ef3 & St3).
  { rewrite length_replicate. intros a Ha. apply Hwr. lia. } { by apply Forall_replicate. } { lia. } { rewrite length_replicate. lia. }
  destruct (chg_perms_run s3 T' W B' R1 sl r (seg_from p) (seg_pages p) (perms_of (p_flags p)) HU3 HS1 H0 Hal ltac:(lia) ltac:(lia) Hsl Hr1
    (perms_of_ok _) Hsz) as (s4 & R4 & E4 & HU4 & HS4 & Ef4 & By4 & H4).
  { intros i Hi. destruct (Hnew i Hi) as (q & Hq & Hok & _). eexists. split; [exact Hq|by apply PW_writable]. }
  exists s0, s1, s2, s3, s4, T', B', R4. split_and!; [exact E1|done|exact E2|rewrite wadd_small by lia; exact E3|exact E4| |by rewrite Ef4, Ef3, Ef2, Ef1].
  assert (∀ k, vpn (seg_from p) ≤ k < vpn (seg_from p) + seg_pages p → ∃ q, R1 !! (r, k) = Some (Z.lor (Z.lor q PR_PW) 0x403) ∧ frame_ok q) as Hpg1.
  { intros k Hk. destruct (Hnew (k - vpn (seg_from p)) ltac:(lia)) as (q & Hq & Hok & _).
    replace (vpn (seg_from p) + (k - vpn (seg_from p))) with k in Hq by lia. eauto. }
  split.
  - exact HU4.
  - exact HS4.
  - exact HT.
  - intros k Hk%in_seg. destruct (Hpg1 k Hk) as (q & Hq & Hok). exists q. split; [|exact Hok].
    rewrite H4, decide_True by lia. rewrite Hq. simpl. unfold chg. by rewrite (lor_perms_fr q _ PR_PW_ok Hok).
  - intros r' k Hn. rewrite H4. rewrite in_seg in Hn. rewrite decide_False by exact Hn. apply Hold. by rewrite Z.add_0_r.
  - intros a Ha. rewrite By4, (St3 r a Hr1) by (done || lia). rewrite length_replicate. unfold seg_bytes.
    destruct (decide _) as [[_ Hd]|Hd].
    + rewrite lookup_app_r by lia. f_equal. rewrite Edl. lia.
    + rewrite (St2 r a Hr1) by lia. rewrite decide_True by lia. rewrite lookup_app_l by lia. done.
  - intros r' v Hr' Hv Hn. pose proof (uroot_mono _ _ _ HT Hr') as Hr1'. rewrite in_seg in Hn.
    assert (¬ (r' = r ∧ seg_from p ≤ v < seg_from p + seg_len p)) as Hn'.
    { intros [-> Hd]. apply Hn. split; [done|]. by eapply seg_page. }
    rewrite By4 by done. rewrite (St3 r' v Hr1' Hv), decide_False by (rewrite length_replicate; lia).
    rewrite (St2 r' v Hr1' Hv), decide_False by lia.
    unfold ubyte. f_equal. eapply (uload_agree s T W B R s1 T' W B' R1); [done..|]. rewrite Hold; [done|]. by rewrite Z.add_0_r.
Qed.
End segment.
