(* ===== verification/ElfSpec.v ===== *)
(** * Reading the headers of a program *)
From S2P Require Import Prelude P9Msg Pipe Kst Hoare Cons Fs FsSys FsInv FsAcct FsSpec FsData Elf.

Local Open Scope Z_scope.

(** ** The layout of the headers *)
Definition hdr_bytes (h : Elf64Hdr) : list Z :=
  ident h ++ le_bytes 2 (h_kind h) ++ le_bytes 2 (machine h) ++ le_bytes 4 (version h) ++ le_bytes 8 (entry h) ++
  le_bytes 8 (phoff h) ++ le_bytes 8 (shoff h) ++ le_bytes 4 (h_flags h) ++ le_bytes 2 (ehsize h) ++
  le_bytes 2 (phentsize h) ++ le_bytes 2 (phnum h) ++ le_bytes 2 (shentsize h) ++ le_bytes 2 (shnum h) ++ le_bytes 2 (shstrndx h).

Definition phdr_bytes (p : Elf64Phdr) : list Z :=
  le_bytes 4 (p_kind p) ++ le_bytes 4 (p_flags p) ++ le_bytes 8 (p_offset p) ++ le_bytes 8 (p_vaddr p) ++
  le_bytes 8 (p_paddr p) ++ le_bytes 8 (p_filesz p) ++ le_bytes 8 (p_memsz p) ++ le_bytes 8 (p_align p).

(** The fields have their widths. *)
Definition hdr_wf (h : Elf64Hdr) : Prop :=
  length (ident h) = 16%nat ∧
  Forall (λ x, 0 ≤ x < 2 ^ 16) [h_kind h; machine h; ehsize h; phentsize h; phnum h; shentsize h; shnum h; shstrndx h] ∧
  Forall (λ x, 0 ≤ x < 2 ^ 32) [version h; h_flags h] ∧ Forall (λ x, 0 ≤ x < 2 ^ 64) [entry h; phoff h; shoff h].

Definition phdr_wf (p : Elf64Phdr) : Prop :=
  Forall (λ x, 0 ≤ x < 2 ^ 32) [p_kind p; p_flags p] ∧
  Forall (λ x, 0 ≤ x < 2 ^ 64) [p_offset p; p_vaddr p; p_paddr p; p_filesz p; p_memsz p; p_align p].

Lemma field_at pre post o n x :
  length pre = o → 0 ≤ x < 2 ^ (8 * Z.of_nat n) → field (pre ++ le_bytes n x ++ post) o n = x.
Proof.
  intros <- Hx. unfold field. rewrite drop_app_length, take_app_length' by by rewrite length_le_bytes.
  rewrite of_le_bytes_le_bytes. by apply Z.mod_small.
Qed.

Lemma length_hdr_bytes h : length (ident h) = 16%nat → length (hdr_bytes h) = HDR_SIZE.
Proof. intros E. unfold hdr_bytes. rewrite !length_app, !length_le_bytes, E. done. Qed.

Lemma length_phdr_bytes p : length (phdr_bytes p) = PHDR_SIZE.
Proof. unfold phdr_bytes. by rewrite !length_app, !length_le_bytes. Qed.

Lemma field_skip pre bs o n : field (pre ++ bs) (length pre + o) n = field bs o n.
Proof. unfold field. by rewrite <- drop_drop, drop_app_length. Qed.

Lemma field_head n x post : 0 ≤ x < 2 ^ (8 * Z.of_nat n) → field (le_bytes n x ++ post) 0 n = x.
Proof. intros Hx. apply (field_at [] post 0 n x); done. Qed.

Lemma field_next m y bs o o' n : o = (m + o')%nat → field (le_bytes m y ++ bs) o n = field bs o' n.
Proof. intros ->. rewrite <- (length_le_bytes m y) at 2. apply field_skip. Qed.

Ltac forall_split := repeat match goal with H : Forall _ (_ :: _) |- _ => apply Forall_cons in H as [? H] end.

(** Walk over the fields before the one that is asked for. *)
Ltac walk_field :=
  lazymatch goal with
  | |- field (le_bytes ?n ?x ++ _) 0 ?n = ?x => apply field_head; assumption
  | |- field (le_bytes ?m _ ++ _) ?o _ = _ =>
      let o' := eval vm_compute in (o - m)%nat in rewrite (field_next m _ _ o o') by reflexivity; walk_field
  end.

Lemma phdr_roundtrip p : phdr_wf p → phdr_of (phdr_bytes p) = p.
Proof.
  intros [H4 H8]. destruct p as [k f o v pa fs ms al]. unfold phdr_bytes, phdr_of. cbn [p_kind p_flags p_offset p_vaddr p_paddr p_filesz p_memsz p_align] in *.
  forall_split. rewrite <- (app_nil_r (le_bytes 8 al)). f_equal; walk_field.
Qed.

Lemma hdr_roundtrip h : hdr_wf h → hdr_of (hdr_bytes h) = h.
Proof.
  intros (H16 & H2 & H4 & H8). destruct h as [id k ma ve en po so fl eh pe pn se sn sx]. unfold hdr_bytes, hdr_of.
  cbn [ident h_kind machine version entry phoff shoff h_flags ehsize phentsize phnum shentsize shnum shstrndx] in *.
  forall_split. rewrite <- (app_nil_r (le_bytes 2 sx)).
  assert (∀ bs o n, field (id ++ bs) (16 + o) n = field bs o n) as Hs by (intros; rewrite <- H16; apply field_skip).
  f_equal; [by apply take_app_length'|..];
    (lazymatch goal with |- field _ ?o _ = _ => let o' := eval vm_compute in (o - 16)%nat in change o with (16 + o')%nat end;
     rewrite Hs; walk_field).
Qed.

(** ** One slot at a time *)
Section slots.
Context {X : Type}.
Implicit Types (s : KSt X).

(** Only the file in slot [j] and what the client keeps may differ. *)
Record only_slot (j : nat) s s' : Prop := {
  os_tasks : k_tasks s' = k_tasks s;
  os_idx : task_idx s' = task_idx s;
  os_files i : i ≠ j → k_files s' !! i = k_files s !! i;
}.

Lemma only_slot_refl j s : only_slot j s s.
Proof. done. Qed.

Lemma only_slot_trans j s1 s2 s3 : only_slot j s1 s2 → only_slot j s2 s3 → only_slot j s1 s3.
Proof. intros [A1 A2 A3] [B1 B2 B3]. split; [congruence|congruence|]. intros i Hi. rewrite B3, A3 by done. done. Qed.

Lemma upd_slot_run j f g s : slot_is j f s → upd_slot j g s = Done (tt, with_files <[j := g f]> s).
Proof. intros Hf. unfold slot_is in Hf. unfold upd_slot, get_slot, set_slot, bind, get. by rewrite Hf. Qed.

Lemma slot_set j f g s x : slot_is j f s → slot_is j g (with_x x (with_files <[j := g]> s)) ∧ slot_is j g (with_files <[j := g]> s).
Proof. intros Hf. split; apply list_lookup_insert_eq; by eapply lookup_lt_Some. Qed.

Lemma only_slot_set j f s : only_slot j s (with_files <[j := f]> s).
Proof. split; [done|done|]. intros i Hi. simpl. by rewrite list_lookup_insert_ne. Qed.

Lemma only_slot_x j x s : only_slot j s (with_x x s).
Proof. done. Qed.
End slots.

(** What starting a program relies on of the client and the server: what [open]
    returns is open, a file that is open can be read, requests of at most a page
    are answered in full unless the file ends, and its close comes back. *)
Class P9Files (X : Type) {api : P9Api X} {rd : P9Reads X} := {
  opens : ∀ p flags x h x', p9_open p flags x = Done (Some h, x') → p9_live x' h;
  read_some : ∀ h len off x, p9_live x h → 0 ≤ off →
    ∃ bs x', p9_read h len off x = Done (Some bs, x') ∧
      ((len ≤ 4096)%nat → bs = take len (drop (Z.to_nat off) (content x h)));
  closes : ∀ h x, p9_live x h → ∃ r x', p9_close h x = Done (r, x');
}.

Section files.
Context {X : Type} {api : P9Api X} {rd : P9Reads X} {pf : P9Files X}.
Context (others : option chan → KM X unit) (naps : nat).
Implicit Types (s : KSt X).

(** Slot [j] is the file [h], with the only reference to it, at position [o]. *)
Definition opened (j : nat) (h o : Z) s : Prop := ∃ f, slot_is j f s ∧ kind f = KP9 h ∧ rc f = 1 ∧ offt f = o.

(** The client has it open. *)
Definition live_file (j : nat) (h o : Z) s : Prop := opened j h o s ∧ p9_live (k_x s) h.

Lemma read_run j h o len s :
  live_file j h o s → 0 ≤ o → o + Z.of_nat len < 2 ^ 64 →
  ∃ bs s', read others naps j len s = Done (Some bs, s') ∧ content (k_x s') = content (k_x s) ∧ only_slot j s s' ∧
    live_file j h (o + Z.of_nat (length bs)) s' ∧ (length bs ≤ len)%nat ∧
    bs `prefix_of` drop (Z.to_nat o) (content (k_x s) h) ∧
    (bs = [] → len = 0%nat ∨ drop (Z.to_nat o) (content (k_x s) h) = []) ∧
    ((len ≤ 4096)%nat → bs = take len (drop (Z.to_nat o) (content (k_x s) h))).
Proof using pf.
  intros [(f & Hf & Hk & Hrc & <-) Hlive] Ho Hlen. pose proof (reads h len (offt f) (k_x s) Hlive Ho) as Hr.
  destruct (read_some h len (offt f) (k_x s) Hlive Ho) as (bs & x' & E & Hfull). rewrite E in Hr.
  destruct Hr as (Hc & Hl & H1 & H2 & H3).
  exists bs, (with_files <[j := set_offt (offt f +! Z.of_nat (length bs)) f]> (with_x x' s)). split_and!; try done.
  - unfold read, get_slot, bind, get. unfold slot_is in Hf. rewrite Hf. cbn. rewrite (proj2 (Z.eqb_neq _ _)) by lia. rewrite Hk.
    unfold bind, on_x. rewrite E. unfold upd_slot, get_slot, set_slot, bind, get, modify. cbn [k_files with_x]. rewrite Hf. done.
  - split; [done|done|]. intros i Hi. simpl. by rewrite list_lookup_insert_ne.
  - split; [|exact Hl]. eexists. split_and!; [apply list_lookup_insert_eq; by eapply lookup_lt_Some|done|done|]. simpl. by rewrite wadd_small by lia.
Qed.

Lemma seek_run j h o o' s :
  live_file j h o s → ∃ s', seek_to j o' s = Done (tt, s') ∧ k_x s' = k_x s ∧ only_slot j s s' ∧ live_file j h o' s'.
Proof.
  intros [(f & Hf & Hk & Hrc & _) Hlive]. unfold seek_to. rewrite (upd_slot_run j f _ s Hf). eexists. split_and!; [done|done|apply only_slot_set|].
  split; [|exact Hlive]. exists (set_offt o' f). split_and!; try done. by apply (slot_set j f _ s (k_x s)).
Qed.

Lemma read_all_run fuel : ∀ len got o j h s,
  (len ≤ fuel)%nat → live_file j h o s → 0 ≤ o → o + Z.of_nat len < 2 ^ 64 →
  ∃ s' o', read_all_loop others naps fuel j len got s =
      Done (Some (got ++ take len (drop (Z.to_nat o) (content (k_x s) h))), s') ∧
    content (k_x s') = content (k_x s) ∧ only_slot j s s' ∧ live_file j h o' s'.
Proof using pf.
  induction fuel as [|fuel IH]; intros [|len'] got o j h s Hfuel Hs Ho Hlen; cbn [read_all_loop]; try lia.
  1,2: exists s, o; split_and!; [by rewrite take_0, app_nil_r|done|done|done].
  set (len := S len') in *. destruct (read_run j h o len s Hs Ho Hlen) as (bs & s1 & E & Hc & HO & Hs1 & Hlb & Hp & He & _).
  unfold bind at 1. rewrite E. destruct bs as [|b bs].
  - destruct (He eq_refl) as [|He']; [unfold len in *; lia|]. exists s1, (o + 0). split_and!; [by rewrite He', take_nil, app_nil_r|done..].
  - set (c := b :: bs) in *. assert (0 < length c)%nat as Hpos by (unfold c; simpl; lia).
    unfold assert_. rewrite (proj2 (Nat.leb_le _ _) Hlb). mstep.
    destruct (IH (len - length c)%nat (got ++ c) (o + Z.of_nat (length c)) j h s1) as (s2 & o2 & E2 & Hc2 & HO2 & Hs2); [lia|done|lia|lia|].
    exists s2, o2. rewrite E2. split_and!; [|congruence|by eapply only_slot_trans|done]. do 2 f_equal. rewrite Hc.
    destruct Hp as [rest Hp]. replace (Z.to_nat (o + Z.of_nat (length c))) with (Z.to_nat o + length c)%nat by lia.
    rewrite <- drop_drop, Hp, drop_app_length, <- app_assoc. do 2 f_equal. by rewrite take_app_ge.
Qed.

Lemma get_slot_run j f s : slot_is j f s → get_slot j s = Done (f, s).
Proof. intros Hf. unfold slot_is in Hf. unfold get_slot, bind, get. by rewrite Hf. Qed.

Lemma close_run j h o s : live_file j h o s → ∃ r s', file_close j true false s = Done (r, s') ∧ only_slot j s s'.
Proof using pf.
  intros [(f & Hf & Hk & Hrc & _) Hlive]. unfold file_close. mrun (get_slot_run j f s Hf). rewrite Hrc, Hk.
  change (1 =? 0) with false. change (1 =? 1) with true. cbv iota. mstep. mrun (upd_slot_run j f (set_rc 0) s Hf).
  set (s1 := with_files _ s). assert (slot_is j (set_rc 0 f) s1) as Hf1 by (by apply (slot_set j f _ s (k_x s))).
  unfold close_last. mrun (get_slot_run j (set_rc 0 f) s1 Hf1). cbn [kind set_rc]. rewrite Hk.
  destruct (closes h (k_x s1) Hlive) as (r & x' & Ec). unfold bind at 1, on_x. rewrite Ec.
  assert (slot_is j (set_rc 0 f) (with_x x' s1)) as Hf2 by exact Hf1.
  assert (only_slot j s s1) as HO by apply only_slot_set.
  destruct r; (erewrite bind_Done by (apply upd_slot_run; exact Hf2)); eexists _, _; (split; [reflexivity|]);
    (eapply only_slot_trans; [exact HO|]; split; [done|done|]; intros i Hi; simpl; by rewrite list_lookup_insert_ne).
Qed.

Lemma drop_run j h o s : live_file j h o s → ∃ s', elf_drop j s = Done (tt, s') ∧ only_slot j s s'.
Proof using pf.
  intros H. destruct (close_run j h o s H) as (r & s' & E & HO). exists s'. split; [|done]. unfold elf_drop. by mrun E.
Qed.

(** ** [Elf::new] and [PhIter::next] *)

(** [open] of a file the server has. *)
Lemma fs_open_run p j h x1 s f0 :
  first_none (k_files s) 0 = Some j → k_files s !! j = Some f0 → p9_open p 0 (k_x s) = Done (Some h, x1) →
  ∃ s', fs_open p 0 s = Done (Some j, s') ∧ k_x s' = x1 ∧ only_slot j s s' ∧ opened j h 0 s'.
Proof.
  intros Hn Hj Ho. unfold fs_open, fs_alloc_file. rewrite bind_assoc. mstep. rewrite Hn.
  assert (slot_is j f0 s) as Hs by done. rewrite bind_assoc. mrun (upd_slot_run j f0 (set_kind KUsed) s Hs). mstep.
  set (s1 := with_files _ s). unfold bind at 1, on_x. change (k_x s1) with (k_x s). rewrite Ho.
  assert (slot_is j (set_kind KUsed f0) s1) as Hs1 by (by apply (slot_set j f0 _ s (k_x s))).
  unfold set_slot, bind, modify, ret. eexists. split_and!; [reflexivity|done| |].
  - eapply only_slot_trans; [apply only_slot_set|]. fold s1. split; [done|done|]. intros i Hi. simpl. by rewrite list_lookup_insert_ne.
  - eexists. split_and!; [apply list_lookup_insert_eq; by eapply lookup_lt_Some|done|done|done].
Qed.

Lemma fs_open_refused p j x1 s f0 :
  first_none (k_files s) 0 = Some j → k_files s !! j = Some f0 → p9_open p 0 (k_x s) = Done (None, x1) →
  ∃ s' f, fs_open p 0 s = Done (None, s') ∧ k_x s' = x1 ∧ slot_is j f s' ∧ kind f = KNone ∧ only_slot j s s'.
Proof.
  intros Hn Hj Ho. unfold fs_open, fs_alloc_file. rewrite bind_assoc. mstep. rewrite Hn.
  assert (slot_is j f0 s) as Hs by done. rewrite bind_assoc. mrun (upd_slot_run j f0 (set_kind KUsed) s Hs). mstep.
  set (s1 := with_files _ s). unfold bind at 1, on_x. change (k_x s1) with (k_x s). rewrite Ho.
  assert (slot_is j (set_kind KUsed f0) (with_x x1 s1)) as Hs1 by (by apply (slot_set j f0 _ s (k_x s))).
  unfold free_file. mrun (upd_slot_run j _ (set_kind KNone) _ Hs1). eexists _, (set_kind KNone (set_kind KUsed f0)). split_and!; [reflexivity|done| |done|].
  - by apply (slot_set j _ _ _ x1 Hs1).
  - split; [done|done|]. intros i Hi. simpl. by rewrite !list_lookup_insert_ne.
Qed.

Lemma elf_new_run p j h x1 s f0 :
  first_none (k_files s) 0 = Some j → k_files s !! j = Some f0 → p9_open p 0 (k_x s) = Done (Some h, x1) →
  let bs := take HDR_SIZE (content x1 h) in
  if (length bs =? HDR_SIZE)%nat && hdr_ok (hdr_of bs) then
    ∃ s', elf_new others naps p s = Done (Some (mkElf (hdr_of bs) j), s') ∧ content (k_x s') = content x1 ∧ only_slot j s s' ∧
      live_file j h 64 s'
  else ∃ s', elf_new others naps p s = Done (None, s') ∧ only_slot j s s'.
Proof using pf.
  intros Hn Hj Ho bs. destruct (fs_open_run p j h x1 s f0 Hn Hj Ho) as (s1 & E1 & <- & HO1 & Hop).
  assert (live_file j h 0 s1) as Hs1 by (split; [done|by eapply opens]).
  destruct (read_run j h 0 HDR_SIZE s1 Hs1) as (bs' & s2 & E2 & Hc & HO2 & Hs2 & _ & _ & _ & Hfull); [lia|unfold HDR_SIZE; lia|].
  assert (bs' = bs) as -> by (apply Hfull; unfold HDR_SIZE; lia). unfold elf_new. mrun E1. cbv iota beta. mrun E2. cbv iota beta.
  destruct (drop_run _ _ _ _ Hs2) as (s3 & E3 & HO3).
  assert (∃ s', (elf_drop j ;;; ret (@None Elf)) s2 = Done (None, s') ∧ only_slot j s s') as Hdrop.
  { exists s3. split; [by mrun E3|]. eapply only_slot_trans; [|exact HO3]. by eapply only_slot_trans. }
  destruct (length bs =? HDR_SIZE)%nat eqn:El; cbn [negb andb]; [|exact Hdrop].
  destruct (hdr_ok (hdr_of bs)); [|exact Hdrop]. exists s2. split_and!; [done|done|by eapply only_slot_trans|].
  apply Nat.eqb_eq in El. rewrite El in Hs2. exact Hs2.
Qed.

(** The [i]th program header of a file. *)
Definition phdr_at (content : list Z) (h : Elf64Hdr) (i : nat) : Elf64Phdr :=
  phdr_of (take PHDR_SIZE (drop (Z.to_nat (phoff h) + PHDR_SIZE * i) content)).

Lemma ph_next_run e h o s i :
  live_file (e_file e) h o s → 0 ≤ phoff (header e) →
  phoff (header e) + 56 * (Z.of_nat i + 1) ≤ Z.of_nat (length (content (k_x s) h)) → phoff (header e) + 56 * (Z.of_nat i + 1) < 2 ^ 64 →
  Z.of_nat i < phnum (header e) →
  ∃ s' o', ph_next others naps e (Z.of_nat i) s = Done (Some (phdr_at (content (k_x s) h) (header e) i), s') ∧
    content (k_x s') = content (k_x s) ∧ only_slot (e_file e) s s' ∧ live_file (e_file e) h o' s'.
Proof using pf.
  intros Hs Hp Hlen H64 Hi. unfold ph_next. rewrite (proj2 (Z.leb_gt _ _)) by lia.
  assert (phoff (header e) +! Z.of_nat PHDR_SIZE *! Z.of_nat i = phoff (header e) + 56 * Z.of_nat i) as Eo.
  { unfold PHDR_SIZE. rewrite wmul_small by lia. rewrite wadd_small by lia. lia. }
  rewrite Eo. destruct (seek_run (e_file e) h o (phoff (header e) + 56 * Z.of_nat i) s Hs) as (s1 & E1 & Ex & HO1 & Hs1). mrun E1.
  destruct (read_run (e_file e) h _ PHDR_SIZE s1 Hs1) as (bs & s2 & E2 & Hc & HO2 & Hs2 & _ & _ & _ & Hfull);
    [lia|unfold PHDR_SIZE; lia|]. rewrite Ex in *. rewrite Hfull in * by (unfold PHDR_SIZE; lia). mrun E2. cbv iota beta.
  replace (Z.to_nat (phoff (header e) + 56 * Z.of_nat i)) with (Z.to_nat (phoff (header e)) + PHDR_SIZE * i)%nat in * by (unfold PHDR_SIZE; lia).
  rewrite length_take, length_drop. rewrite (proj2 (Nat.eqb_eq _ _)) by (unfold PHDR_SIZE in *; lia).
  eexists s2, _. split_and!; [done|done|by eapply only_slot_trans|exact Hs2].
Qed.
End files.

(** ** [Elf::new] on every answer of the server *)

(** When the server has opened the file. *)
Lemma elf_new_opened {X} {api : P9Api X} (others : option chan → KM X unit) (naps : nat) (s : KSt X) (p : list Z)
    (j : nat) (f0 : File) (h : Z) (x1 x2 x3 : X) (r : option (list Z)) (c : option unit) :
  first_none (k_files s) 0 = Some j → k_files s !! j = Some f0 → p9_open p 0 (k_x s) = Done (Some h, x1) →
  p9_read h HDR_SIZE 0 x1 = Done (r, x2) → p9_close h x2 = Done (c, x3) →
  match r with
  | None => ∃ s', elf_new others naps p s = Done (Some (mkElf hdr_zeroed j), s') ∧ opened j h 0 s'
  | Some bs =>
      if (length bs =? HDR_SIZE)%nat && hdr_ok (hdr_of bs) then
        ∃ s', elf_new others naps p s = Done (Some (mkElf (hdr_of bs) j), s') ∧ opened j h 64 s'
      else
        ∃ s' f, elf_new others naps p s = Done (None, s') ∧ slot_is j f s' ∧ k_x s' = x3 ∧
          (kind f, rc f) = match c with Some _ => (KNone, 0) | None => (KP9 h, 1) end
  end.
Proof.
  intros Hn Hj Ho Hrd Hcl. destruct (fs_open_run p j h x1 s f0 Hn Hj Ho) as (s1 & E1 & Ex & _ & (f & Hf & Hk & Hrc & Hoff)).
  assert (Er : read others naps j HDR_SIZE s1 =
    match r with
    | Some bs => Done (Some bs, with_files <[j := set_offt (0 +! Z.of_nat (length bs)) f]> (with_x x2 s1))
    | None => Done (None, with_x x2 s1)
    end).
  { unfold read. mrun (get_slot_run j f s1 Hf). rewrite Hrc, Hk, Hoff. change (1 =? 0) with false. cbv iota.
    unfold bind at 1, on_x. rewrite Ex, Hrd. destruct r as [bs|]; [|done]. by mrun (upd_slot_run j f (set_offt (0 +! Z.of_nat (length bs))) (with_x x2 s1) Hf). }
  unfold elf_new. mrun E1. cbv iota beta. destruct r as [bs|].
  2:{ mrun Er. eexists. split; [done|]. exists f. by split_and!. }
  mrun Er. cbv iota beta. set (s2 := with_files _ _).
  assert (slot_is j (set_offt (0 +! Z.of_nat (length bs)) f) s2) as Hf2 by (apply list_lookup_insert_eq; by eapply lookup_lt_Some).
  set (g := set_offt _ f) in *.
  assert (∃ s' f', (elf_drop j ;;; ret (@None Elf)) s2 = Done (None, s') ∧ slot_is j f' s' ∧ k_x s' = x3 ∧
    (kind f', rc f') = match c with Some _ => (KNone, 0) | None => (KP9 h, 1) end) as Hdrop.
  { unfold elf_drop, file_close. rewrite !bind_assoc. mrun (get_slot_run j g s2 Hf2). cbn [rc g set_offt]. rewrite Hrc.
    change (1 =? 0) with false. change (1 =? 1) with true. cbn [kind g set_offt]. rewrite Hk. cbv iota. rewrite !bind_assoc. mstep.
    rewrite !bind_assoc. mrun (upd_slot_run j g (set_rc 0) s2 Hf2). set (s3 := with_files _ s2).
    assert (slot_is j (set_rc 0 g) s3) as Hf3 by (by apply (slot_set j g _ s2 (k_x s2))).
    unfold close_last. rewrite !bind_assoc. mrun (get_slot_run j _ s3 Hf3). cbn [kind set_rc g set_offt]. rewrite Hk.
    rewrite bind_assoc. unfold bind at 1, on_x. change (k_x s3) with x2. rewrite Hcl.
    assert (slot_is j (set_rc 0 g) (with_x x3 s3)) as Hf4 by exact Hf3.
    destruct c as [[]|]; rewrite bind_assoc; (erewrite bind_Done by (apply upd_slot_run; exact Hf4)); eexists _, _;
      (split; [reflexivity|]); (split_and!; [apply (slot_set j _ _ _ x3 Hf4)|done|]); cbn; [done|by rewrite Hk]. }
  destruct (length bs =? HDR_SIZE)%nat eqn:El; cbn [negb andb]; [|exact Hdrop].
  destruct (hdr_ok (hdr_of bs)); [|exact Hdrop]. exists s2. split; [done|]. exists g. split_and!; [done|done|done|].
  apply Nat.eqb_eq in El. change (offt g) with (0 +! Z.of_nat (length bs)). by rewrite El.
Qed.

(** An executable for this processor, byte by byte: ["\x7fELF"], 64 bits (2 at
    offset 4), version 1 (at 6), type 2 (two bytes at 16) and machine 183 (two
    bytes at 18), in a header of 64 bytes. *)
Definition aarch64_exec (bs : list Z) : Prop :=
  length bs = 64%nat ∧
  Forall (λ '(o, x), bs !! o = Some x)
    [(0%nat, 0x7f); (1%nat, 69); (2%nat, 76); (3%nat, 70); (4%nat, 2); (6%nat, 1); (16%nat, 2); (17%nat, 0); (18%nat, 183); (19%nat, 0)].

Lemma le2 a b x : is_byte a → is_byte b → 0 ≤ x < 256 → a + 256 * (b + 256 * 0) = x → a = x ∧ b = 0.
Proof. unfold is_byte. lia. Qed.

Lemma hdr_ok_exec bs : Forall is_byte bs → (length bs =? HDR_SIZE)%nat && hdr_ok (hdr_of bs) = true ↔ aarch64_exec bs.
Proof.
  intros Hb. unfold aarch64_exec. rewrite andb_true_iff, Nat.eqb_eq. change HDR_SIZE with 64%nat.
  split; intros [Hl H]; (split; [done|]); do 20 (destruct bs as [|? bs]; [discriminate Hl|]); clear Hl;
    repeat match goal with H : Forall is_byte (_ :: _) |- _ => apply Forall_cons in H as [? H] end.
  - unfold hdr_ok, hdr_of, field in H. cbn [ident h_kind machine take drop EI_NIDENT EI_VERSION EI_CLASS nth] in H.
    repeat match type of H with (if negb ?b then _ else _) = true => destruct b eqn:?; [simpl negb in H; cbv iota in H|done] end.
    repeat match goal with
    | H : bool_decide _ = true |- _ => apply bool_decide_eq_true in H; injection H as -> -> -> ->
    | H : (_ =? _) = true |- _ => apply Z.eqb_eq in H
    | H : _ + 256 * (_ + 256 * 0) = _ |- _ => apply le2 in H as [-> ->]; [|done|done|unfold ET_EXEC; lia]
    end. subst. repeat constructor.
  - repeat match goal with H : Forall _ (_ :: _) |- _ => apply Forall_cons in H as [? H] end. cbn in *. simplify_eq. reflexivity.
Qed.

(** C39: [Elf::new], whatever the server answers.  Without a free slot in the
    file table, or when the server does not open the file, there is an error and
    nothing stays open.  An opened file is accepted when 64 bytes were read that
    are, byte by byte, the start of an executable for this processor; entry
    point, place and number of the program headers are then the fields at
    offsets 24, 32 and 56.  Anything else that was read is an error, and the
    file is closed again, or stays open when the server refuses to close it.  An
    error of the read itself is no error: the program is accepted with a header
    of zeroes, that is with entry point 0 and no segments. *)
Theorem elf_new_spec {X} {api : P9Api X} (others : option chan → KM X unit) (naps : nat) (s : KSt X) (p : list Z) :
  match first_none (k_files s) 0 with
  | None => elf_new others naps p s = Done (None, s)
  | Some j => ∀ o x1, p9_open p 0 (k_x s) = Done (o, x1) →
    match o with
    | None => ∃ s' f, elf_new others naps p s = Done (None, s') ∧ k_x s' = x1 ∧ slot_is j f s' ∧ kind f = KNone ∧ only_slot j s s'
    | Some h => ∀ r x2 c x3, p9_read h HDR_SIZE 0 x1 = Done (r, x2) → p9_close h x2 = Done (c, x3) →
      match r with
      | None => ∃ e s', elf_new others naps p s = Done (Some e, s') ∧ opened j h 0 s' ∧ entry (header e) = 0 ∧ phnum (header e) = 0
      | Some bs => Forall is_byte bs →
        (aarch64_exec bs → ∃ e s', elf_new others naps p s = Done (Some e, s') ∧ e_file e = j ∧ opened j h 64 s' ∧
           entry (header e) = of_le_bytes (take 8 (drop 24 bs)) ∧ phoff (header e) = of_le_bytes (take 8 (drop 32 bs)) ∧
           phnum (header e) = of_le_bytes (take 2 (drop 56 bs))) ∧
        (¬ aarch64_exec bs → ∃ s' f, elf_new others naps p s = Done (None, s') ∧ slot_is j f s' ∧ k_x s' = x3 ∧
           (kind f, rc f) = match c with Some _ => (KNone, 0) | None => (KP9 h, 1) end)
      end
    end
  end.
Proof.
  pose proof (first_none_spec (k_files s) 0) as Hn. destruct (first_none (k_files s) 0) as [j|] eqn:Ej.
  2:{ unfold elf_new, fs_open, fs_alloc_file, bind, get. by rewrite Ej. }
  destruct Hn as (f0 & _ & Hj & _). rewrite Nat.sub_0_r in Hj. intros [h|] x1 Ho.
  - intros r x2 c x3 Hrd Hcl. pose proof (elf_new_opened others naps s p j f0 h x1 x2 x3 r c Ej Hj Ho Hrd Hcl) as H.
    destruct r as [bs|]; [|destruct H as (s' & E & Hs); by eexists _, s'].
    intros Hb. pose proof (hdr_ok_exec bs Hb) as Hex. destruct ((length bs =? HDR_SIZE)%nat && hdr_ok (hdr_of bs)).
    + split; [|intros Hno; by destruct Hno; apply Hex]. intros _. destruct H as (s' & E & Hs). by eexists _, s'.
    + split; [intros Hx; by apply Hex in Hx|]. intros _. exact H.
  - destruct (fs_open_refused p j x1 s f0 Ej Hj Ho) as (s' & f & E & H). exists s', f. split; [|done].
    unfold elf_new. by mrun E.
Qed.

(** ** A server with one program *)
Module Disk.
Record X := mkX { files : list (list Z) }.

Definition content (x : X) (h : Z) : list Z := default [] (files x !! Z.to_nat h).

(** Every path is file 0; with [ok] false the reads fail. *)
Definition read (ok : bool) (h : Z) (len : nat) (off : Z) : M X (option (list Z)) :=
  gets (λ x, if ok then Some (take len (drop (Z.to_nat off) (content x h))) else None).

Definition api_ (ok : bool) : P9Api X := {|
  p9_open p flags := ret (Some 0);
  p9_read := read ok;
  p9_write h bs off := ret None;
  p9_close h := ret (Some tt);
  p9_get_size h := gets (λ x, Z.of_nat (length (content x h)));
  p9_fstat h := ret None;
  p9_getdents64 h len off := ret None;
  p9_stat p follow := ret None;
  p9_truncate p n := ret None;
  p9_exists p := ret true;
  p9_remove p := ret None;
  p9_mkdir p mode := ret None;
  p9_symlink a b := ret None;
  p9_readlink p := ret None;
  p9_rename a b := ret None;
  p9_link a b follow := ret None;
|}.
#[global] Instance api : P9Api X := api_ true.

#[global] Instance reads_ok : P9Reads X.
Proof.
  refine {| FsData.content := content; p9_live x h := h = 0 |}. intros h len off x Hlive Hoff. split; [done|]. split; [done|]. split_and!.
  - rewrite length_take. lia.
  - apply prefix_take.
  - intros E. apply take_nil_inv in E as [E|E]; [left; lia|by right].
Defined.

#[global] Instance files_ok : P9Files X.
Proof.
  split; [by intros p flags x h x' [= <- _]| |by intros; eexists _, _]. intros h len off x Hlive Hoff. by eexists _, _.
Defined.

Definition start (x : X) : KSt X :=
  mkK (replicate NFILES file_zeroed) (Toy.task0 :: replicate 7 task_zeroed) (Some 0%nat) (mkCons [] wq_new) TERMIOS
      (mkTicks 0 wq_new) [] x.
Definition idle (c : option chan) : KM X unit := ret tt.

(** A program: two bytes of code of the four at 0x400078, entered there. *)
Definition hdr : Elf64Hdr :=
  mkHdr (MAGIC4 ++ [2; 1; 1] ++ replicate 9 0) 2 183 1 0x400078 64 0 0 64 56 1 0 0 0.
Definition ph : Elf64Phdr := mkPh 1 5 120 0x400078 0x400078 2 4 4096.
Definition prog : list Z := hdr_bytes hdr ++ phdr_bytes ph ++ [170; 187].
End Disk.

(** A program, a text, and a server that fails. *)
Lemma elf_new_spec_witness :
  (∃ e s', elf_new Disk.idle 0 [47] (Disk.start (Disk.mkX [Disk.prog])) = Done (Some e, s') ∧ opened 0 0 64 s' ∧
     entry (header e) = entry Disk.hdr) ∧
  (∃ s' f, elf_new Disk.idle 0 [47] (Disk.start (Disk.mkX [[1; 2; 3]])) = Done (None, s') ∧ slot_is 0 f s' ∧ kind f = KNone) ∧
  ∃ e s', elf_new (api := Disk.api_ false) Disk.idle 0 [47] (Disk.start (Disk.mkX [Disk.prog])) = Done (Some e, s') ∧ entry (header e) = 0.
Proof.
  split_and!.
  - pose proof (elf_new_spec Disk.idle 0 (Disk.start (Disk.mkX [Disk.prog])) [47]) as H.
    specialize (H (Some 0) (Disk.mkX [Disk.prog]) eq_refl (Some (take 64 Disk.prog)) (Disk.mkX [Disk.prog]) (Some tt) (Disk.mkX [Disk.prog]) eq_refl eq_refl).
    destruct H as [H _]; [apply (bool_decide_unpack _); vm_compute; exact I|].
    destruct H as (e & s' & E & _ & Ho & He & _); [split; [reflexivity|repeat constructor]|].
    exists e, s'. split_and!; [exact E|exact Ho|]. rewrite He. reflexivity.
  - pose proof (elf_new_spec Disk.idle 0 (Disk.start (Disk.mkX [[1; 2; 3]])) [47]) as H.
    specialize (H (Some 0) (Disk.mkX [[1; 2; 3]]) eq_refl (Some [1; 2; 3]) (Disk.mkX [[1; 2; 3]]) (Some tt) (Disk.mkX [[1; 2; 3]]) eq_refl eq_refl).
    destruct H as [_ H]; [apply (bool_decide_unpack _); vm_compute; exact I|].
    destruct H as (s' & f & E & Hf & _ & Hk); [intros [Hl _]; discriminate Hl|].
    exists s', f. split_and!; [exact E|exact Hf|by injection Hk].
  - pose proof (elf_new_spec (api := Disk.api_ false) Disk.idle 0 (Disk.start (Disk.mkX [Disk.prog])) [47]) as H.
    specialize (H (Some 0) (Disk.mkX [Disk.prog]) eq_refl None (Disk.mkX [Disk.prog]) (Some tt) (Disk.mkX [Disk.prog]) eq_refl eq_refl).
    destruct H as (e & s' & E & _ & He & _). exists e, s'. split; [exact E|exact He].
Defined.
