(* ===== verification/ExecRun.v ===== *)
(** * The steps of [exec], one after the other *)
From S2P Require Import Prelude Stuff Pm Vm VmInv VmTree VmRun VmSpec Umem UmemInv UmemRun UmemSafe UmemOps UmemSpec UmemFork UmemFree.
From S2P Require Import Arch Trap Kst Fs FsInv FsData Elf ElfSpec Exec ExecStack ExecMem ExecSeg.

Local Open Scope Z_scope.

Section run.
Context {X : Type} {api : P9Api X} {rd : P9Reads X} {pf : P9Files X}.
Context (others : option chan → KM X unit) (naps : nat).
Context {im : Image} {F : Type} {fo : FrameOps F} {so : ShareOps F} {fl : FrameLaws F} {shl : ShareLaws F}.
Implicit Types (e : ESt X F) (s : VSt F) (W : gmap Z Z) (T : gmap Z (Z * list Z)) (B : gmap Z blk) (R : gmap (Z * Z) Z).

Lemma on_v_run {A} (m : VM F A) e a s : m (e_v e) = Done (a, s) → on_v m e = Done (a, with_v s e).
Proof. intros E. unfold on_v, zoom. by rewrite E. Qed.

Lemma on_k_run {A} (m : KM X A) e a k : m (e_k e) = Done (a, k) → on_k m e = Done (a, with_k k e).
Proof. intros E. unfold on_k, zoom. by rewrite E. Qed.

Lemma on_m_run {A} (m : AM A) e a k : m (e_m e) = Done (a, k) → on_m m e = Done (a, with_m k e).
Proof. intros E. unfold on_m, zoom. by rewrite E. Qed.

(** ** The old program goes *)
Definition old_regions (mm : Mm) : list URegion := mmap_r mm :: brk_r mm :: program mm.
Definition cleared (mm : Mm) : Mm :=
  with_program [] (with_brk (set_len 0 (brk_r mm)) (with_mmap (set_len 0 (mmap_r mm)) mm)).

Lemma free_old_run e T W B R sl r :
  UInv (e_v e) T W B R → Safe B R → shows W sl r → uroot T r → (base.size W + 3 ≤ 128)%nat →
  Forall (λ g, region_ok g (npages g)) (old_regions (e_mm e)) → apart (old_regions (e_mm e)) →
  own_pages B R r (λ j, in_regions (old_regions (e_mm e)) j = true) →
  ∃ s' B' R', free_old sl e = Done (tt, with_mm (cleared (e_mm e)) (with_v s' e)) ∧
    freed (e_v e) T W B R r (λ j, in_regions (old_regions (e_mm e)) j = true) s' B' R'.
Proof.
  intros HU HS Hs Hr Hsz HF Hap HO. set (mm := e_mm e) in *.
  assert (∀ g rs j, in_regions (g :: rs) j = true ↔ in_region g j = true ∨ in_regions rs j = true) as Hin
    by (intros; cbn [in_regions existsb]; apply orb_true_iff).
  apply Forall_cons in HF as [Hg1 HF]. apply Forall_cons in HF as [Hg2 HF]. destruct Hap as [Hd1 [Hd2 Hap]].
  destruct (free_region_run (e_v e) T W B R sl r (mmap_r mm) HU HS Hs Hr Hsz Hg1) as (s1 & B1 & R1 & E1 & F1).
  { intros j Hj. apply HO. apply Hin. by left. }
  assert (own_pages B1 R1 r (λ j, in_regions (brk_r mm :: program mm) j = true)) as HO1.
  { eapply freed_own; [exact F1| |].
    - intros j Hj. apply HO. apply Hin. by right.
    - intros j Hj Hj'. rewrite (Hd1 j Hj') in Hj. done. }
  destruct (free_region_run s1 T W B1 R1 sl r (brk_r mm) (fd_inv _ _ _ _ _ _ _ _ _ _ F1) (fd_safe _ _ _ _ _ _ _ _ _ _ F1) Hs Hr Hsz Hg2)
    as (s2 & B2 & R2 & E2 & F2).
  { intros j Hj. apply HO1. apply Hin. by left. }
  destruct (free_regions_run sl r W T Hs Hr Hsz (program mm) s2 B2 R2 (fd_inv _ _ _ _ _ _ _ _ _ _ F2) (fd_safe _ _ _ _ _ _ _ _ _ _ F2) HF Hap)
    as (s3 & B3 & R3 & E3 & F3).
  { eapply freed_own; [exact F2| |].
    - intros j Hj. apply HO1. apply Hin. by right.
    - intros j Hj Hj'. rewrite (Hd2 j Hj') in Hj. done. }
  exists s3, B3, R3. split.
  - unfold free_old. mstep. fold mm. mrun (on_v_run _ e tt s1 E1). rewrite bind_modify.
    mrun (on_v_run _ (with_mm _ (with_v s1 e)) tt s2 E2). rewrite bind_modify.
    mrun (on_v_run _ (with_mm _ (with_v s2 (with_mm _ (with_v s1 e)))) tt s3 E3). done.
  - eapply freed_iff; [|eapply freed_trans; [exact F1|eapply freed_trans; [exact F2|exact F3]]].
    intros j. cbv beta. unfold old_regions. rewrite !Hin. tauto.
Qed.

(** ** Segments *)
Definition loads (phs : list Elf64Phdr) : list Elf64Phdr := filter (λ p, p_kind p = PT_LOAD) phs.

(** The segments [L] are in the memory of [r]; everything else is as in [s0]. *)
Record image s0 T0 R0 (r : Z) (content : list Z) (L : list Elf64Phdr) s T W B R : Prop := {
  ig_inv : UInv s T W B R;
  ig_safe : Safe B R;
  ig_tables : T0 ⊆ T;
  ig_pages p k : p ∈ L → in_region (seg_region p) k = true →
    ∃ f, R !! (r, k) = Some (Z.lor (Z.lor f (perms_of (p_flags p))) 0x403) ∧ frame_ok f;
  ig_other r' k : ¬ (r' = r ∧ in_regions (seg_region <$> L) k = true) → R !! (r', k) = R0 !! (r', k);
  ig_bytes p a : p ∈ L → p_vaddr p ≤ a < p_vaddr p + p_memsz p → ubyte s r a = seg_bytes content p !! Z.to_nat (a - p_vaddr p);
  ig_same r' v : uroot T0 r' → 0 ≤ v < 2 ^ 48 → ¬ (r' = r ∧ in_regions (seg_region <$> L) (vpn v) = true) → ubyte s r' v = ubyte s0 r' v;
}.

Lemma in_regions_app rs1 rs2 k : in_regions (rs1 ++ rs2) k = in_regions rs1 k || in_regions rs2 k.
Proof. unfold in_regions. apply existsb_app. Qed.

Lemma in_regions_elem (L : list Elf64Phdr) p k : p ∈ L → in_region (seg_region p) k = true → in_regions (seg_region <$> L) k = true.
Proof.
  intros Hp Hk. unfold in_regions. apply existsb_exists. exists (seg_region p). split; [|done].
  apply list_elem_of_In, list_elem_of_fmap. eauto.
Qed.

Lemma image_nil s0 T0 R0 r content W B : UInv s0 T0 W B R0 → Safe B R0 → image s0 T0 R0 r content [] s0 T0 W B R0.
Proof. intros HU HS. split; try done; intros p ? Hp; by apply not_elem_of_nil in Hp. Qed.

Lemma image_snoc s0 T0 R0 r content L s T W B R p s' T' B' R' :
  image s0 T0 R0 r content L s T W B R → loaded s T W B R r p (seg_bytes content p) s' T' B' R' → uroot T0 r →
  Forall (seg_ok (Z.of_nat (length content))) L →
  (∀ k, in_regions (seg_region <$> L) k = true → in_region (seg_region p) k = false) →
  image s0 T0 R0 r content (L ++ [p]) s' T' W B' R'.
Proof.
  intros I Hl Hr Hok Hd. pose proof (ig_tables _ _ _ _ _ _ _ _ _ _ _ I) as HT. split.
  - apply Hl.
  - apply Hl.
  - etrans; [exact HT|apply Hl].
  - intros q k Hq Hk. apply elem_of_app in Hq as [Hq|Hq%list_elem_of_singleton].
    + rewrite (ld_other _ _ _ _ _ _ _ _ _ _ _ _ Hl); [by eapply ig_pages|]. intros [_ Hk'].
      rewrite (Hd k) in Hk'; [done|by eapply in_regions_elem].
    + subst q. by apply Hl.
  - intros r' k Hn. rewrite fmap_app, in_regions_app in Hn. cbn [fmap list_fmap in_regions existsb] in Hn. rewrite orb_false_r, orb_true_iff in Hn.
    rewrite (ld_other _ _ _ _ _ _ _ _ _ _ _ _ Hl) by tauto. apply (ig_other _ _ _ _ _ _ _ _ _ _ _ I). tauto.
  - intros q a Hq Ha. apply elem_of_app in Hq as [Hq|Hq%list_elem_of_singleton].
    + rewrite Forall_forall in Hok. specialize (Hok q Hq). destruct (seg_layout _ _ Hok) as (Ef & Hal & H0 & El & Hpg & Hb).
      pose proof Hok as [G1 G2 G3 G4 _ _]. assert (p_vaddr q - p_vaddr q mod 4096 ≤ p_vaddr q) by zdiv.
      rewrite (ld_same _ _ _ _ _ _ _ _ _ _ _ _ Hl); [by eapply ig_bytes|by eapply uroot_mono|lia|].
      intros [_ Hk']. rewrite (Hd (vpn a)) in Hk'; [done|]. eapply in_regions_elem; [exact Hq|]. apply in_seg.
      eapply seg_page; [exact Hok|]. lia.
    + subst q. by apply Hl.
  - intros r' v Hr' Hv Hn. rewrite fmap_app, in_regions_app in Hn. cbn [fmap list_fmap in_regions existsb] in Hn.
    rewrite orb_false_r, orb_true_iff in Hn.
    rewrite (ld_same _ _ _ _ _ _ _ _ _ _ _ _ Hl); [|by eapply uroot_mono|done|tauto].
    apply (ig_same _ _ _ _ _ _ _ _ _ _ _ I); [done|done|]. tauto.
Qed.

(** The file is open, with the bytes [content]. *)
Definition has_file (k : KSt X) (j : nat) (h : Z) (c : list Z) : Prop := content (k_x k) h = c ∧ ∃ o, live_file j h o k.

(** There is a current task. *)
Definition has_cur (k : KSt X) : Prop := ∃ t, cur_task k = Done (t, k).

Lemma has_cur_slot j k k' : only_slot j k k' → has_cur k → has_cur k'.
Proof.
  intros HO [t Ht]. exists t. revert Ht. unfold cur_task, cur, get_tsk, bind, get. rewrite (os_idx _ _ _ HO).
  destruct (task_idx k) as [i|]; simpl; [|done]. rewrite (os_tasks _ _ _ HO).
  destruct (k_tasks k !! i); simpl; [|done]. by intros [= ->].
Qed.

Lemma seg_perms_run e f : f = 4 ∨ f = 5 ∨ f = 6 → seg_perms f e = Done (perms_of f, e).
Proof. by intros [-> |[-> | ->]]. Qed.

Lemma load_segment_run e s0 T0 R0 r c L T W B R sl j h p m :
  image s0 T0 R0 r c L (e_v e) T W B R → uroot T0 r → shows W sl r → user_pt (e_mm e) = Some r → (base.size W + 3 ≤ 128)%nat →
  Forall (seg_ok (Z.of_nat (length c))) L → seg_ok (Z.of_nat (length c)) p → p_kind p = PT_LOAD →
  Forall is_byte c → Z.of_nat (length c) < 2 ^ 64 → has_file (e_k e) j h c →
  (∀ k, in_regions (seg_region <$> L) k = true → in_region (seg_region p) k = false) →
  (∀ k, in_region (seg_region p) k = true → R0 !! (r, k) = None) →
  room (frames (e_v e)) (4 * Z.to_nat (seg_pages p) + m) → has_cur (e_k e) →
  ∃ k' s' T' B' R', load_segment others naps sl j p e =
      Done (tt, with_mm (with_program (program (e_mm e) ++ [seg_region p]) (e_mm e)) (with_v s' (with_k k' e))) ∧
    image s0 T0 R0 r c (L ++ [p]) s' T' W B' R' ∧ room (frames s') m ∧ has_file k' j h c ∧ only_slot j (e_k e) k'.
Proof using pf shl.
  intros I Hr Hsl Hm Hsz HokL Hok Hk Hby H64 [Hc [o Hop]] Hd HR Hroom [t Ht].
  pose proof (ig_tables _ _ _ _ _ _ _ _ _ _ _ I) as HT. pose proof (uroot_mono _ _ _ HT Hr) as HrT.
  destruct (segment_run (e_v e) T W B R sl r (e_mm e) p c (pid t) m)
    as (s1' & s1 & s2 & s3 & s4 & T' & B' & R' & E0 & E1 & E2 & E3 & E4 & HL & Rm); try done.
  { apply I. } { apply I. }
  { intros k Hk'. rewrite (ig_other _ _ _ _ _ _ _ _ _ _ _ I); [by apply HR|]. intros [_ H]. rewrite (Hd k H) in Hk'. done. }
  pose proof Hok as [G1 G2 G3 G4 G5 G6].
  destruct (seek_run j h o (p_offset p) (e_k e) Hop) as (k1 & Ek1 & Ex1 & HO1 & Hop1).
  destruct (read_all_run others naps (Z.to_nat (p_filesz p)) (Z.to_nat (p_filesz p)) [] (p_offset p) j h k1)
    as (k2 & o2 & Ek2 & Hc2 & HO2 & Hop2); [done|done|lia|lia|].
  rewrite Ex1, Hc in Ek2. fold (seg_data c p) in Ek2. cbn [app] in Ek2. fold (read_all others naps j (Z.to_nat (p_filesz p)) k1) in Ek2.
  exists k2, s4, T', B', R'. split_and!.
  - unfold load_segment. rewrite Hk. change (negb (PT_LOAD =? PT_LOAD)) with false. cbv iota zeta.
    fold (seg_len p) (seg_from p). fold (seg_pages p).
    mrun (on_v_run _ e tt s1' E0). mrun (on_k_run _ (with_v s1' e) t _ Ht). mrun (on_v_run _ (with_k (e_k e) (with_v s1' e)) tt s1 E1).
    set (e1 := with_v s1 (with_k (e_k e) (with_v s1' e))). mrun (on_k_run _ e1 tt k1 Ek1).
    unfold assert_. rewrite (proj2 (Z.leb_le _ _)) by lia. mstep.
    mrun (on_k_run _ (with_k k1 e1) _ k2 Ek2). mstep. mstep.
    mrun (on_v_run _ (with_k k2 (with_k k1 e1)) tt s2 E2).
    mrun (on_v_run _ (with_v s2 (with_k k2 (with_k k1 e1))) tt s3 E3).
    rewrite bind_modify. mrun (seg_perms_run _ _ G6).
    mrun (on_v_run _ (with_mm _ (with_v s3 (with_v s2 (with_k k2 (with_k k1 e1))))) _ s4 E4). done.
  - eapply image_snoc; [exact I|exact HL|done|done|done].
  - exact Rm.
  - split; [by rewrite Hc2, Ex1|by exists o2].
  - by eapply only_slot_trans.
Qed.

Lemma apart_middle rs1 g rs2 k : apart (rs1 ++ g :: rs2) → in_regions rs1 k = true → in_region g k = false.
Proof.
  induction rs1 as [|g1 rs1 IH]; [done|]. intros [Hd Ha] Hk. cbn [in_regions existsb] in Hk. apply orb_true_iff in Hk as [Hk|Hk]; [|by apply IH].
  specialize (Hd k Hk). fold (app rs1 (g :: rs2)) in Hd. rewrite in_regions_app in Hd. cbn [in_regions existsb] in Hd.
  apply orb_false_iff in Hd as [_ Hd]. by apply orb_false_iff in Hd as [Hd _].
Qed.

(** Everything but the parts that were named is as before. *)
Definition rest_same (j : nat) e e' : Prop :=
  e_m e' = e_m e ∧ trapframe e' = trapframe e ∧ FIRST e' = FIRST e ∧ only_slot j (e_k e) (e_k e').

Lemma rest_same_trans j e1 e2 e3 : rest_same j e1 e2 → rest_same j e2 e3 → rest_same j e1 e3.
Proof.
  intros (A1 & A2 & A3 & A4) (B1 & B2 & B3 & B4). split_and!; [congruence..|by eapply only_slot_trans].
Qed.

Lemma with_program_id mm : with_program (program mm ++ []) mm = mm.
Proof. rewrite app_nil_r. by destruct mm. Qed.

Lemma load_segments_run elf h c sl r W s0 T0 R0 :
  uroot T0 r → shows W sl r → (base.size W + 3 ≤ 128)%nat → Forall is_byte c → Z.of_nat (length c) < 2 ^ 64 →
  0 ≤ phoff (header elf) → phoff (header elf) + 56 * phnum (header elf) ≤ Z.of_nat (length c) →
  ∀ n i e L T B R m, Z.of_nat i + Z.of_nat n = phnum (header elf) →
  let rem := loads (phdr_at c (header elf) <$> seq i n) in
  image s0 T0 R0 r c L (e_v e) T W B R → user_pt (e_mm e) = Some r → has_file (e_k e) (e_file elf) h c →
  Forall (seg_ok (Z.of_nat (length c))) (L ++ rem) → apart (seg_region <$> (L ++ rem)) →
  (∀ k, in_regions (seg_region <$> rem) k = true → R0 !! (r, k) = None) →
  room (frames (e_v e)) (4 * total (seg_region <$> rem) + m) → has_cur (e_k e) →
  ∃ e' T' B' R', load_segments others naps (S n) sl elf (Z.of_nat i) e = Done (tt, e') ∧
    image s0 T0 R0 r c (L ++ rem) (e_v e') T' W B' R' ∧ room (frames (e_v e')) m ∧ has_file (e_k e') (e_file elf) h c ∧
    e_mm e' = with_program (program (e_mm e) ++ (seg_region <$> rem)) (e_mm e) ∧ rest_same (e_file elf) e e'.
Proof using pf shl.
  intros Hr Hsl Hsz Hby H64 Hpo Hph. induction n as [|n IH]; intros i e L T B R m Hi rem I Hm [Hc [o Hop]] Hok Hap HR Hroom Hcur.
  - exists e, T, B, R. unfold rem in *. cbn [seq fmap list_fmap loads] in *. change (loads []) with (@nil Elf64Phdr) in *. split_and!.
    + cbn [load_segments]. assert (ph_next others naps elf (Z.of_nat i) (e_k e) = Done (None, e_k e)) as E
        by (unfold ph_next; by rewrite (proj2 (Z.leb_le _ _)) by lia).
      mrun (on_k_run _ e None (e_k e) E). cbv iota beta. unfold ret. do 2 f_equal. by destruct e.
    + by rewrite app_nil_r.
    + exact Hroom.
    + split; [done|by exists o].
    + by rewrite with_program_id.
    + done.
  - destruct (ph_next_run others naps elf h o (e_k e) i Hop Hpo) as (k1 & o1 & E1 & Hc1 & HO1 & Hop1); [rewrite Hc; lia|lia|lia|].
    rewrite Hc in E1. set (p := phdr_at c (header elf) i) in *. set (e1 := with_k k1 e).
    assert (has_file (e_k e1) (e_file elf) h c) as Hf1 by (split; [simpl; by rewrite Hc1|by exists o1]).
    assert (rest_same (e_file elf) e e1) as RS1 by by split_and!.
    assert (has_cur (e_k e1)) as Hcur1 by by eapply has_cur_slot.
    unfold rem in *. cbn [seq fmap list_fmap] in *. fold p in Hok, Hap, HR, Hroom |- *. set (ps := phdr_at c (header elf) <$> seq (S i) n) in *.
    destruct (decide (p_kind p = PT_LOAD)) as [Hk|Hk].
    + assert (loads (p :: ps) = p :: loads ps) as El by (unfold loads; by rewrite filter_cons_True). rewrite El in *.
      pose proof Hok as Hok'. apply Forall_app in Hok' as [HokL HokR]. apply Forall_cons in HokR as [Hokp HokR].
      rewrite fmap_app in Hap. cbn [fmap list_fmap] in Hap, HR, Hroom. cbn [total] in Hroom.
      change (npages (seg_region p)) with (seg_pages p) in Hroom.
      replace (4 * (Z.to_nat (seg_pages p) + total (seg_region <$> loads ps)) + m)%nat
        with (4 * Z.to_nat (seg_pages p) + (4 * total (seg_region <$> loads ps) + m))%nat in Hroom by lia.
      destruct (load_segment_run e1 s0 T0 R0 r c L T W B R sl (e_file elf) h p (4 * total (seg_region <$> loads ps) + m))
        as (k2 & s2 & T2 & B2 & R2 & E2 & I2 & Rm2 & Hf2 & HO2); try done.
      { intros k Hk'. by eapply apart_middle. }
      { intros k Hk'. apply HR. cbn [in_regions existsb]. by rewrite Hk'. }
      pose proof (has_cur_slot _ _ _ HO2 Hcur1) as Hcur2. set (e2 := with_mm _ _) in E2. destruct (IH (S i) e2 (L ++ [p]) T2 B2 R2 m) as (e' & T' & B' & R' & E3 & I3 & Rm3 & Hf3 & Em & RS3); try done.
      { lia. } { by rewrite <- app_assoc. } { rewrite <- app_assoc, fmap_app. exact Hap. }
      { intros k Hk'. apply HR. cbn [in_regions existsb]. apply orb_true_iff. by right. }
      exists e', T', B', R'. split_and!; [|by rewrite <- app_assoc in I3|done|done| |].
      * cbn [load_segments]. mrun (on_k_run _ e _ k1 E1). cbv iota beta. fold e1. mrun E2.
        replace (Z.of_nat i + 1) with (Z.of_nat (S i)) by lia. exact E3.
      * rewrite Em. simpl. by rewrite <- app_assoc.
      * eapply rest_same_trans; [exact RS1|]. eapply rest_same_trans; [|exact RS3]. by split_and!.
    + assert (loads (p :: ps) = loads ps) as El by (unfold loads; by rewrite filter_cons_False). rewrite El in *.
      destruct (IH (S i) e1 L T B R m) as (e' & T' & B' & R' & E3 & I3 & Rm3 & Hf3 & Em & RS3); try done; [lia|].
      exists e', T', B', R'. split_and!; [|done..|by eapply rest_same_trans].
      cbn [load_segments]. mrun (on_k_run _ e _ k1 E1). cbv iota beta. fold e1.
      assert (load_segment others naps sl (e_file elf) p e1 = Done (tt, e1)) as E2.
      { unfold load_segment. by rewrite (proj2 (Z.eqb_neq _ _)) by done. }
      mrun E2. replace (Z.of_nat i + 1) with (Z.of_nat (S i)) by lia. exact E3.
Qed.
End run.
