(* ===== verification/ExecSpec.v ===== *)
(** * [exec] starts the program that is in the file

    The whole of [execv_inner] on a file that is a program: what is in memory
    afterwards, what the trap frame says, and what nobody else notices. *)
From S2P Require Import Prelude Stuff Pm Vm VmInv VmTree VmRun VmSpec Umem UmemInv UmemRun UmemSafe UmemOps UmemSpec UmemFork UmemFree Tlb.
From S2P Require Import Hoare Arch Trap TrapSpec Kst Fs FsInv FsData Elf ElfSpec Exec ExecStack ExecMem ExecSeg ExecRun.

Local Open Scope Z_scope.

(** ** The stack is made of bytes *)
Section stack_bytes.
Definition good_stk (st : Stk) : Prop := length (sp_el0 st) = Z.to_nat SPEL0_SIZE ∧ Forall is_byte (sp_el0 st).

Lemma good_put w bs : Forall is_byte bs → pres good_stk (stk_put w bs).
Proof.
  intros Hb st a st' [Hl Hg]. unfold stk_put. mstep. destruct (_ && _) eqn:E; [|done]. apply andb_true_iff in E as [E1 E2].
  apply Z.leb_le in E1, E2. unfold modify. intros [= <-]. subst st'. split; simpl; [by rewrite length_splice by lia|].
  unfold splice. rewrite !Forall_app. split_and!; [by apply Forall_take|done|by apply Forall_drop].
Qed.

Lemma good_modify f : (∀ st, sp_el0 (f st) = sp_el0 st) → pres good_stk (modify f).
Proof. intros Hf st a st' Hg. unfold modify. intros [= <-]. subst st'. unfold good_stk. by rewrite Hf. Qed.

Lemma good_push base l : Forall (Forall is_byte) l → pres good_stk (push_strs base l).
Proof.
  induction 1 as [|s l Hs _ IH]; cbn [push_strs]; [apply pres_ret|]. destruct (length s =? 0)%nat; [apply pres_ret|].
  apply pres_bind; [apply pres_get|]. intros st. destruct (_ <? _); [apply pres_ret|].
  apply pres_bind; [apply good_put; by repeat constructor|]. intros _. apply pres_bind; [by apply good_put|]. intros _.
  do 2 (apply pres_bind; [by apply good_modify|intros _]). exact IH.
Qed.

Lemma good_aux k v : pres good_stk (auxv k v).
Proof.
  unfold auxv. apply pres_bind; [apply pres_get|]. intros st. destruct (_ <? _); [apply pres_ret|].
  apply pres_bind; [apply good_put, Forall_app; split; apply le_bytes_byte|]. intros _. apply pres_bind; [by apply good_modify|]. intros _. apply pres_ret.
Qed.

Lemma good_words ws : Forall is_byte (concat (le_bytes 8 <$> ws)).
Proof. induction ws as [|x ws IH]; [done|]. rewrite fmap_cons. cbn [concat]. apply Forall_app. split; [apply le_bytes_byte|done]. Qed.

Lemma good_args base argv envp :
  Forall (Forall is_byte) argv → Forall (Forall is_byte) envp → pres good_stk (push_args base argv envp).
Proof.
  intros Ha He. unfold push_args. do 2 (apply pres_bind; [by apply good_modify|intros _]).
  apply pres_bind; [apply good_push; by apply Forall_reverse|]. intros [[]|]; [|apply pres_ret].
  apply pres_bind; [by apply good_modify|]. intros _.
  apply pres_bind; [apply good_push; by apply Forall_reverse|]. intros [[]|]; [|apply pres_ret].
  apply pres_bind; [by apply good_modify|]. intros _.
  do 2 (apply pres_bind; [apply good_aux|intros [[]|]; [|apply pres_ret]]).
  apply pres_bind; [apply pres_get|]. intros st. destruct (_ <? _); [apply pres_ret|].
  apply pres_bind; [|intros _; apply pres_ret]. apply good_put, Forall_app. split; [apply le_bytes_byte|apply good_words].
Qed.

Lemma good_stk0 : good_stk stk0.
Proof. split; cbn [stk0 sp_el0]; [by rewrite length_replicate|by apply Forall_replicate]. Qed.
End stack_bytes.

(** ** The trap frame *)
Section frame.
Lemma zero_frame_run tf : ∀ k lo m, 0 ≤ lo → 34 - lo = Z.of_nat k → 0 ≤ tf → tf + 272 < 2 ^ 64 → mapped (kmem m) tf 34 →
  ∃ w, forM (range lo 34) (λ i, store (tf +! 8 *! i) 0) m = Done (tt, set_kmem w m) ∧
    (∀ i, lo ≤ i < 34 → w !! (tf + 8 * i) = Some 0) ∧
    ∀ a, (∀ i, lo ≤ i < 34 → a ≠ tf + 8 * i) → w !! a = kmem m !! a.
Proof.
  induction k as [|k IH]; intros lo m Hlo Hk Ht1 Ht2 HM.
  - rewrite range_nil by lia. exists (kmem m). split_and!; [by destruct m|lia|done].
  - rewrite range_cons by lia. assert (tf +! 8 *! lo = tf + 8 * lo) as Ea by (rewrite wmul_small by lia; rewrite wadd_small by lia; lia).
    assert (is_Some (kmem m !! (tf + 8 * lo))) as Hs by (replace lo with (Z.of_nat (Z.to_nat lo)) by lia; apply HM; lia).
    assert (store (tf +! 8 *! lo) 0 m = Done (tt, set_kmem (<[tf + 8 * lo := 0]> (kmem m)) m)) as E1 by (rewrite Ea; by apply store_run).
    destruct (IH (lo + 1) (set_kmem (<[tf + 8 * lo := 0]> (kmem m)) m)) as (w & E & Hw & Ho); [lia|lia|done|done|by apply mapped_insert|].
    exists w. split_and!.
    + cbn [forM]. mrun E1. exact E.
    + intros i Hi. destruct (decide (i = lo)) as [->|]; [|apply Hw; lia]. rewrite Ho by lia. apply lookup_insert_eq.
    + intros a Ha. rewrite Ho by (intros i Hi; apply Ha; lia). simpl. apply lookup_insert_ne. intros E'. by apply (Ha lo); [lia|].
Qed.

(** A frame that starts at [pc] with the stack pointer [sp] and all registers zero. *)
Definition fresh_frame (pc sp : Z) : Frame := mkFrame pc sp 0 (replicate 31 0).

Lemma fresh_frame_run m tf pc sp :
  0 ≤ tf → tf + 272 < 2 ^ 64 → mapped (kmem m) tf 34 →
  ∃ w, (forM (range 0 34) (λ i, store (tf +! 8 *! i) 0) ;;; store tf pc ;;; store (tf +! 16) 0 ;;; store (tf +! 8) sp) m =
      Done (tt, set_kmem w m) ∧ words_at w tf (frame_words (fresh_frame pc sp)) ∧
    ∀ a, a < tf ∨ tf + 272 ≤ a → w !! a = kmem m !! a.
Proof.
  intros H0 H1 HM. destruct (zero_frame_run tf 34 0 m ltac:(lia) ltac:(lia) H0 H1 HM) as (w & E & Hw & Ho).
  assert (words_at w tf (replicate 34 0)) as W0.
  { intros i v [-> Hi]%lookup_replicate. apply Hw. lia. }
  set (m1 := set_kmem w m).
  assert (store tf pc m1 = Done (tt, set_kmem (<[tf + 8 * Z.of_nat 0 := pc]> w) m1)) as E1.
  { rewrite (store_run m1 tf pc) by (eexists; replace tf with (tf + 8 * 0) at 1 by lia; by apply Hw). do 3 f_equal. simpl. f_equal. lia. }
  set (w1 := <[tf + 8 * Z.of_nat 0 := pc]> w) in *. assert (words_at w1 tf (<[0%nat := pc]> (replicate 34 0))) as W1
    by (apply words_at_update; [by rewrite length_replicate; lia|done]). set (m2 := set_kmem w1 m1) in *.
  assert (store (tf +! 16) 0 m2 = Done (tt, set_kmem (<[tf + 8 * Z.of_nat 2 := 0]> w1) m2)) as E2.
  { rewrite wadd_small by lia. apply store_run. apply (words_mapped _ _ _ W1 2%nat). rewrite length_insert, length_replicate. lia. }
  set (w2 := <[tf + 8 * Z.of_nat 2 := 0]> w1) in *. assert (words_at w2 tf (<[2%nat := 0]> (<[0%nat := pc]> (replicate 34 0)))) as W2
    by (apply words_at_update; [rewrite length_insert, length_replicate; lia|done]). set (m3 := set_kmem w2 m2) in *.
  assert (store (tf +! 8) sp m3 = Done (tt, set_kmem (<[tf + 8 * Z.of_nat 1 := sp]> w2) m3)) as E3.
  { rewrite wadd_small by lia. apply store_run. apply (words_mapped _ _ _ W2 1%nat). rewrite !length_insert, length_replicate. lia. }
  eexists. split_and!.
  - mrun E. fold m1. mrun E1. fold m2. mrun E2. fold m3. rewrite E3. reflexivity.
  - apply (words_at_update w2 tf _ 1 sp) in W2; [exact W2|]. rewrite !length_insert, length_replicate. lia.
  - intros a Ha. unfold w2, w1. rewrite !lookup_insert_ne by lia. apply Ho. intros i Hi. lia.
Qed.
End frame.

Section exec.
Context {X : Type} {api : P9Api X} {rd : P9Reads X} {pf : P9Files X}.
Context (others : option chan → KM X unit) (naps : nat).
Context {im : Image} {F : Type} {fo : FrameOps F} {so : ShareOps F} {fl : FrameLaws F} {shl : ShareLaws F}.
Implicit Types (e : ESt X F) (s : VSt F) (W : gmap Z Z) (T : gmap Z (Z * list Z)) (B : gmap Z blk) (R : gmap (Z * Z) Z).

Definition STACK : Z := 8 * GB.

Definition stack_mapped (mm : Mm) R (r : Z) : Prop :=
  u_vaddr (spel0 mm) = STACK ∧ u_len (spel0 mm) = SPEL0_SIZE ∧
  ∀ i, 0 ≤ i < 2 → ∃ x, R !! (r, vpn STACK + i) = Some x ∧ kwritable x = true.

Lemma stack_page a : STACK ≤ a < STACK + SPEL0_SIZE → vpn a = vpn STACK ∨ vpn a = vpn STACK + 1.
Proof.
  unfold STACK, SPEL0_SIZE, GB. intros Ha. unfold vpn. rewrite !Z.mod_small by zdiv. zdiv.
Qed.

Lemma exec_stack_run e T W B R r argv envp :
  UInv (e_v e) T W B R → Safe B R → user_pt (e_mm e) = Some r → uroot T r → stack_mapped (e_mm e) R r →
  Forall (Forall is_byte) argv → Forall (Forall is_byte) envp →
  ∃ o st s', push_args STACK argv envp stk0 = Done (o, st) ∧ exec_stack argv envp e = Done (o, with_v s' e) ∧
    UInv s' T W B R ∧ frames s' = frames (e_v e) ∧ stored (e_v e) T r STACK (sp_el0 st) s' ∧
    length (sp_el0 st) = Z.to_nat SPEL0_SIZE.
Proof.
  intros HU HS Hm Hr (Hv & Hl & Hst) Ha He.
  assert (∃ o st, push_args STACK argv envp stk0 = Done (o, st)) as (o & st & E).
  { pose proof (push_args_run STACK argv envp ltac:(done)) as H. destruct (stack_fits _ _).
    - destruct H as (sp & st & E & _). by exists (Some sp), st.
    - destruct H as (st & E). by exists None, st. }
  destruct (good_args STACK argv envp Ha He stk0 o st good_stk0 E) as [Hlen Hby].
  destruct (store_bytes_run T W B R (e_mm e) r (sp_el0 st) (e_v e) STACK HU HS Hm Hr) as (s' & Es & HU' & Ef & St).
  { intros a Hab. rewrite Hlen in Hab. change (Z.of_nat (Z.to_nat SPEL0_SIZE)) with SPEL0_SIZE in Hab.
    destruct (stack_page a Hab) as [-> | ->]; [destruct (Hst 0) as (x & Hx & Hw); [lia|]; rewrite Z.add_0_r in Hx; eauto|apply Hst; lia]. }
  { done. } { done. } { rewrite Hlen. done. }
  exists o, st, s'. split_and!; [done| |done|done|done|done].
  unfold exec_stack. mstep. rewrite Hv, Hl. fold stk0. unfold lift, bind at 1. cbv iota beta. rewrite E.
  mrun (on_v_run _ e tt s' Es). done.
Qed.

Lemma exec_frame_run e i t elf pt sp :
  task_idx (e_k e) = Some i → k_tasks (e_k e) !! i = Some t →
  0 ≤ trapframe e → trapframe e + 272 < 2 ^ 64 → mapped (kmem (e_m e)) (trapframe e) 34 →
  ∃ m', exec_frame elf pt sp e = Done (tt, with_m m' (with_v (set_tlb [] (e_v e)) e)) ∧
    frame_at m' (trapframe e) (fresh_frame (entry (header elf)) sp) ∧
    sysregs m' TTBR0_EL1 = Z.lor (wshl 64 (pid t) 48) pt ∧ sysregs m' TPIDR_EL0 = 0 ∧ xs m' = xs (e_m e) ∧ Arch.sp m' = Arch.sp (e_m e) ∧
    ∀ a, a < trapframe e ∨ trapframe e + 272 ≤ a → kmem m' !! a = kmem (e_m e) !! a.
Proof.
  intros Hi Ht H0 H1 HM. destruct (fresh_frame_run (e_m e) (trapframe e) (entry (header elf)) sp H0 H1 HM) as (w & E & Hw & Ho).
  set (m1 := set_kmem w (e_m e)) in *. set (m2 := set_sys TTBR0_EL1 (Z.lor (wshl 64 (pid t) 48) pt) m1). set (m3 := set_sys TPIDR_EL0 0 m2).
  exists m3. split_and!; [|exact Hw|done..|exact Ho].
  unfold exec_frame. mstep. unfold bind in E.
  destruct (forM (range 0 34) _ (e_m e)) as [[[] w1]|] eqn:E1; [|done].
  destruct (store (trapframe e) _ w1) as [[[] w2]|] eqn:E2; [|done].
  destruct (store (trapframe e +! 16) _ w2) as [[[] w3]|] eqn:E3; [|done].
  mrun (on_m_run _ e tt w1 E1). mrun (on_m_run _ (with_m w1 e) tt w2 E2). mrun (on_m_run _ (with_m w2 (with_m w1 e)) tt w3 E3).
  mrun (on_m_run _ (with_m w3 (with_m w2 (with_m w1 e))) tt m1 E).
  assert (cur_task (e_k e) = Done (t, e_k e)) as Ec by (unfold cur_task, cur, get_tsk, bind, get; rewrite Hi; simpl; by rewrite Ht).
  mrun (on_k_run _ (with_m m1 (with_m w3 (with_m w2 (with_m w1 e)))) t (e_k e) Ec).
  unfold bind, on_m, on_v, zoom, restore_ttbr0, tlbi_aside1, tlbi_vmalle1, w_ttbr0_el1, w_tpidr_el0, msr, modify. done.
Qed.

(** ** The theorem *)

(** The loadable segments of a program. *)
Definition prog_segs (c : list Z) (h : Elf64Hdr) : list Elf64Phdr := loads (phdr_at c h <$> seq 0 (Z.to_nat (phnum h))).

(** The task [r] may start the program [c], which is in the file [path]. *)
Record exec_ready e T W B R (r : Z) (path : list Z) (j : nat) (h : Z) (x1 : X) (c : list Z) (hd : Elf64Hdr) : Prop := {
  er_slot : first_none (k_files (e_k e)) 0 = Some j ∧ is_Some (k_files (e_k e) !! j);
  er_open : p9_open path 0 (k_x (e_k e)) = Done (Some h, x1);
  er_file : content x1 h = c ∧ Forall is_byte c ∧ Z.of_nat (length c) < 2 ^ 64;
  er_hdr : hd = hdr_of (take HDR_SIZE c) ∧ (HDR_SIZE ≤ length c)%nat ∧ hdr_ok hd = true;
  er_phs : 0 ≤ phoff hd ∧ 0 ≤ phnum hd ∧ phoff hd + 56 * phnum hd ≤ Z.of_nat (length c);
  er_inv : UInv (e_v e) T W B R ∧ Safe B R;
  er_mm : user_pt (e_mm e) = Some r ∧ uroot T r ∧ (base.size W + 4 ≤ 128)%nat;
  er_old : Forall (λ g, region_ok g (npages g)) (old_regions (e_mm e)) ∧ apart (old_regions (e_mm e)) ∧
    own_pages B R r (λ k, in_regions (old_regions (e_mm e)) k = true);
  er_new : Forall (seg_ok (Z.of_nat (length c))) (prog_segs c hd) ∧ apart (seg_region <$> prog_segs c hd) ∧
    ∀ k, in_regions (seg_region <$> prog_segs c hd) k = true → in_regions (old_regions (e_mm e)) k = true ∨ R !! (r, k) = None;
  er_stack : stack_mapped (e_mm e) R r ∧
    ∀ i, 0 ≤ i < 2 → in_regions (old_regions (e_mm e)) (vpn STACK + i) = false ∧
      in_regions (seg_region <$> prog_segs c hd) (vpn STACK + i) = false;
  er_room : room (frames (e_v e)) (4 * total (seg_region <$> prog_segs c hd));
  er_task : ∃ i, task_idx (e_k e) = Some i ∧ is_Some (k_tasks (e_k e) !! i);
  er_frame : 0 ≤ trapframe e ∧ trapframe e + 272 < 2 ^ 64 ∧ mapped (kmem (e_m e)) (trapframe e) 34;
}.

(** What is in memory afterwards. *)
Record replaced e T W (r : Z) (j : nat) (c : list Z) (hd : Elf64Hdr) e' : Prop := {
  rp_inv : ∃ T' B' R', UInv (e_v e') T' W B' R' ∧ Safe B' R' ∧ T ⊆ T';
  rp_bytes p a : p ∈ prog_segs c hd → p_vaddr p ≤ a < p_vaddr p + p_memsz p →
    ubyte (e_v e') r a = seg_bytes c p !! Z.to_nat (a - p_vaddr p);
  rp_perms p a : p ∈ prog_segs c hd → p_vaddr p ≤ a < p_vaddr p + p_memsz p →
    ∃ f, translate (e_v e') r a = Some (Z.lor (Z.lor f (perms_of (p_flags p))) 0x403) ∧ frame_ok f;
  rp_gone a : in_regions (old_regions (e_mm e)) (vpn a) = true → in_regions (seg_region <$> prog_segs c hd) (vpn a) = false →
    translate (e_v e') r a = None;
  rp_others r' a : r' ≠ r → uroot T r' → 0 ≤ a < 2 ^ 48 → ubyte (e_v e') r' a = ubyte (e_v e) r' a;
  rp_mm : e_mm e' = with_program (seg_region <$> prog_segs c hd) (cleared (e_mm e));
  rp_files : only_slot j (e_k e) (e_k e');
}.

(** The memory once the segments are loaded and the stack is written. *)
Lemma image_run e T W B R r path j h x1 c hd argv envp sl k0 W1 s1 elf :
  exec_ready e T W B R r path j h x1 c hd → Forall (Forall is_byte) (argv ++ envp) → elf = mkElf hd j →
  has_file k0 j h c → only_slot j (e_k e) k0 → UInv s1 T W1 B R → keeps (e_v e) T s1 T → frames s1 = frames (e_v e) →
  shows W1 sl r → (base.size W1 + 3 ≤ 128)%nat →
  let e1 := with_v s1 (with_k k0 e) in
  ∃ e2 e3 o st T' B' R',
    free_old sl e1 = Done (tt, e2) ∧
    load_segments others naps (S (Z.to_nat (phnum hd))) sl elf 0 e2 = Done (tt, e3) ∧
    push_args STACK argv envp stk0 = Done (o, st) ∧
    ∃ s4, exec_stack argv envp e3 = Done (o, with_v s4 e3) ∧
      UInv s4 T' W1 B' R' ∧ Safe B' R' ∧ has_file (e_k e3) j h c ∧
      rest_same j e1 (with_v s4 e3) ∧
      (∀ W' s5, UInv s5 T' W' B' R' → keeps s4 T' s5 T' → replaced e T W' r j c hd (with_v s5 e3)) ∧
      ∀ i b, sp_el0 st !! i = Some b → ∀ W' s5, UInv s5 T' W' B' R' → keeps s4 T' s5 T' → ubyte s5 r (STACK + Z.of_nat i) = Some b.
Proof using pf shl.
  intros Hrdy [Hba Hbe]%Forall_app -> Hfile HO0 HU1 K1 Ef1 Hsl Hsz e1.
  destruct Hrdy as [_ _ [Hc [Hby H64]] [Ehd _] [Hpo [Hpn Hph]] [HU HS] [Hm [Hr _]] [Ho1 [Ho2 Ho3]] [Hn1 [Hn2 Hn3]] [Hst Hst2] Hroom (ti & Hti & t & Ht) _].
  assert (has_cur k0) as Hcur0.
  { eapply has_cur_slot; [exact HO0|]. exists t. unfold cur_task, cur, get_tsk, bind, get. rewrite Hti. simpl. by rewrite Ht. }
  set (L := prog_segs c hd) in *. set (old := old_regions (e_mm e)) in *.
  destruct (free_old_run e1 T W1 B R sl r HU1 HS Hsl Hr Hsz Ho1 Ho2 Ho3) as (s2 & B2 & R2 & E2 & F2). change (old_regions (e_mm e1)) with old in F2.
  set (e2 := with_mm _ _) in E2. pose proof (fd_inv _ _ _ _ _ _ _ _ _ _ F2) as HU2. pose proof (fd_safe _ _ _ _ _ _ _ _ _ _ F2) as HS2.
  destruct (load_segments_run others naps (mkElf hd j) h c sl r W1 s2 T R2 Hr Hsl Hsz Hby H64 Hpo Hph (Z.to_nat (phnum hd)) 0 e2 [] T B2 R2 0%nat)
    as (e3 & T' & B' & R' & E3 & I3 & _ & Hf3 & Em3 & RS3).
  { simpl. lia. } { by apply image_nil. } { exact Hm. } { exact Hfile. } { exact Hn1. } { exact Hn2. }
  { intros k Hk. fold (prog_segs c hd) in Hk. fold L in Hk. destruct (decide (in_regions old k = true)) as [Hok|Hok].
    - by apply (fd_in _ _ _ _ _ _ _ _ _ _ F2).
    - rewrite (fd_out _ _ _ _ _ _ _ _ _ _ F2) by tauto. destruct (Hn3 k Hk) as [|]; [done|done]. }
  { fold (prog_segs c hd). fold L. rewrite Nat.add_0_r. apply (fd_room _ _ _ _ _ _ _ _ _ _ F2). simpl. by rewrite Ef1. }
  { exact Hcur0. }
  cbn [app header] in *. fold (prog_segs c hd) in I3, Em3. fold L in I3, Em3.
  pose proof (ig_tables _ _ _ _ _ _ _ _ _ _ _ I3) as HT. pose proof (uroot_mono _ _ _ HT Hr) as Hr'.
  pose proof (ig_inv _ _ _ _ _ _ _ _ _ _ _ I3) as HU3. pose proof (ig_safe _ _ _ _ _ _ _ _ _ _ _ I3) as HS3.
  assert (∀ i, 0 ≤ i < 2 → R' !! (r, vpn STACK + i) = R !! (r, vpn STACK + i)) as Hsr.
  { intros i Hi. destruct (Hst2 i Hi) as [H1 H2]. rewrite (ig_other _ _ _ _ _ _ _ _ _ _ _ I3) by (intros [_ H]; by rewrite H2 in H).
    apply (fd_out _ _ _ _ _ _ _ _ _ _ F2). intros [_ H]. by rewrite H1 in H. }
  destruct (exec_stack_run e3 T' W1 B' R' r argv envp HU3 HS3) as (o & st & s4 & Ep & E4 & HU4 & Ef4 & St4 & Hlen); [by rewrite Em3|done| |done|done|].
  { destruct Hst as (Hv & Hl & Hst). rewrite Em3. split_and!; [exact Hv|exact Hl|]. intros i Hi. rewrite Hsr by done. by apply Hst. }
  exists e2, e3, o, st, T', B', R'. split_and!; [exact E2|exact E3|exact Ep|]. exists s4.
  assert (∀ W' s5 r' a, UInv s5 T' W' B' R' → keeps s4 T' s5 T' → uroot T' r' → ubyte s5 r' a = ubyte s4 r' a) as Hkeep.
  { intros W' s5 r' a HU5 K5 Hr5. unfold ubyte. f_equal. by apply (uload_agree s4 T' W1 B' R' s5 T' W' B' R'). }
  split_and!; [exact E4|exact HU4|exact HS3|exact Hf3| | |].
  - destruct RS3 as (A1 & A2 & A3 & A4). by split_and!.
  - intros W' s5 HU5 K5. rewrite Forall_forall in Hn1.
    assert (∀ p a, p ∈ L → p_vaddr p ≤ a < p_vaddr p + p_memsz p →
      0 ≤ a < 2 ^ 48 ∧ in_region (seg_region p) (vpn a) = true ∧ ¬ (STACK ≤ a < STACK + SPEL0_SIZE)) as Hseg.
    { intros p a Hp Ha. pose proof (Hn1 p Hp) as Hok. destruct (seg_layout _ _ Hok) as (Efr & _ & H0 & _ & _ & Hb). pose proof Hok as [G1 G2 _ _ _ _].
      assert (p_vaddr p - p_vaddr p mod 4096 ≤ p_vaddr p) as Hlow by zdiv.
      assert (in_region (seg_region p) (vpn a) = true) as Hin by (apply in_seg; eapply seg_page; [exact Hok|lia]).
      split_and!; [lia|lia|done|]. intros Hsa. pose proof (in_regions_elem L p (vpn a) Hp Hin) as Hin'.
      destruct (stack_page a Hsa) as [E|E]; rewrite E in Hin'.
      - destruct (Hst2 0) as [_ H]; [lia|]. rewrite Z.add_0_r in H. by rewrite H in Hin'.
      - destruct (Hst2 1) as [_ H]; [lia|]. by rewrite H in Hin'. }
    split.
    + by exists T', B', R'.
    + intros p a Hp Ha. destruct (Hseg p a Hp Ha) as (Ha48 & _ & Hns). simpl. rewrite (Hkeep W' s5 r a HU5 K5 Hr'), (St4 r a Hr' Ha48), decide_False.
      * by apply (ig_bytes _ _ _ _ _ _ _ _ _ _ _ I3).
      * rewrite Hlen. intros [_ H]. by apply Hns.
    + intros p a Hp Ha. destruct (Hseg p a Hp Ha) as (_ & Hin & _).
      destruct (ig_pages _ _ _ _ _ _ _ _ _ _ _ I3 p (vpn a) Hp Hin) as (f & Hf & Hok). exists f. split; [|done].
      simpl. by rewrite (ui_map _ _ _ _ _ HU5 r a Hr').
    + intros a Hao Han. fold L in Han. simpl. rewrite (ui_map _ _ _ _ _ HU5 r a Hr'). rewrite (ig_other _ _ _ _ _ _ _ _ _ _ _ I3) by (intros [_ H]; by rewrite Han in H).
      by apply (fd_in _ _ _ _ _ _ _ _ _ _ F2).
    + intros r' a Hne Hr0 Ha. pose proof (uroot_mono _ _ _ HT Hr0) as Hr0'. simpl.
      rewrite (Hkeep W' s5 r' a HU5 K5 Hr0'), (St4 r' a Hr0' Ha), decide_False by (by intros [? _]).
      rewrite (ig_same _ _ _ _ _ _ _ _ _ _ _ I3 r' a Hr0 Ha) by (by intros [? _]).
      unfold ubyte. f_equal. rewrite (uload_map s2 T W1 B2 R2 r' a HU2 Hr0), (uload_map (e_v e) T W B R r' a HU Hr0).
      rewrite (fd_out _ _ _ _ _ _ _ _ _ _ F2) by (by intros [? _]). destruct (R !! (r', vpn a)) as [x|] eqn:Ex; [|done]. f_equal.
      assert (R2 !! (r', vpn a) = Some x) as Ex2 by (rewrite (fd_out _ _ _ _ _ _ _ _ _ _ F2) by (by intros [? _]); done).
      rewrite (fd_words _ _ _ _ _ _ _ _ _ _ F2 _ _ _ Ex2). simpl. by apply (keeps_word (e_v e) T W B R s1 T (r', vpn a)).
    + simpl. rewrite Em3. done.
    + simpl. eapply only_slot_trans; [exact HO0|]. apply RS3.
  - intros i b Hib W' s5 HU5 K5. pose proof (lookup_lt_Some _ _ _ Hib) as Hi. rewrite Hlen in Hi.
    assert (Z.of_nat i < 8192) as Hi2 by (change (Z.to_nat SPEL0_SIZE) with (Z.to_nat 8192) in Hi; lia).
    rewrite (Hkeep W' s5 r _ HU5 K5 Hr'). rewrite (St4 r (STACK + Z.of_nat i) Hr') by (unfold STACK, GB; lia).
    rewrite decide_True by (split; [done|]; rewrite Hlen; change (Z.of_nat (Z.to_nat SPEL0_SIZE)) with 8192; lia).
    by replace (Z.to_nat (STACK + Z.of_nat i - STACK)) with i by lia.
Qed.

Lemma replaced_files e T W r j c hd e1 e2 :
  replaced e T W r j c hd e1 → e_v e2 = e_v e1 → e_mm e2 = e_mm e1 → only_slot j (e_k e1) (e_k e2) → replaced e T W r j c hd e2.
Proof.
  intros [H1 H2 H3 H4 H5 H6 H7] Ev Em HO. split; rewrite ?Ev, ?Em; try assumption. by eapply only_slot_trans.
Qed.

(** [execv_inner], from the first step to the last. *)
Lemma exec_runs e T W B R r path argv envp j h x1 c hd :
  exec_ready e T W B R r path j h x1 c hd → Forall (Forall (λ b, 0 < b < 256)) (argv ++ envp) → Z.of_nat (length argv) < 2 ^ 64 →
  ∃ e', replaced e T W r j c hd e' ∧
    if stack_fits (kept argv) (kept envp) then
      ∃ sp buf, execv_inner others naps path argv envp e = Done (Some tt, e') ∧
        parse_stack buf STACK sp = Some (Z.of_nat (length argv), kept argv, kept envp, [(25, STACK + (SPEL0_SIZE - 16))]) ∧
        (∀ i b, buf !! i = Some b → ubyte (e_v e') r (STACK + Z.of_nat i) = Some b) ∧
        frame_at (e_m e') (trapframe e) (fresh_frame (entry hd) sp) ∧ Z.land (sysregs (e_m e') TTBR0_EL1) PHY_MASK = r ∧
        sysregs (e_m e') TPIDR_EL0 = 0 ∧ xs (e_m e') = xs (e_m e) ∧ trapframe e' = trapframe e ∧ FIRST e' = FIRST e ∧
        tlb (e_v e') = []
    else execv_inner others naps path argv envp e = Done (None, e') ∧ e_m e' = e_m e.
Proof using pf shl.
  intros Hrdy Hargs Hargc. pose proof Hrdy as [[Hs1 [f0 Hs2]] Hopen [Hc _] [Ehd [Hl64 Hok]] _ [HU HS] [Hm [Hr Hsz]] _ _ _ _ (ti & Hti & t & Ht) (Hf0 & Hf1 & Hf2)].
  assert (Forall (Forall is_byte) (argv ++ envp)) as Hby.
  { eapply Forall_impl; [exact Hargs|]. intros l Hl. eapply Forall_impl; [exact Hl|]. intros b Hb. unfold is_byte. cbv beta in Hb. lia. }
  assert (Forall (Forall (λ b, b ≠ 0)) (argv ++ envp)) as Hnz.
  { eapply Forall_impl; [exact Hargs|]. intros l Hl. eapply Forall_impl; [exact Hl|]. intros b Hb. cbv beta in Hb. lia. }
  pose proof (elf_new_run others naps path j h x1 (e_k e) f0 Hs1 Hs2 Hopen) as Hnew. cbv zeta in Hnew. rewrite Hc, <- Ehd in Hnew.
  rewrite length_take, (proj2 (Nat.eqb_eq _ _)), Hok in Hnew by lia. destruct Hnew as (k0 & Ek0 & Hc0 & HO0 & Hop0).
  assert (has_file k0 j h c) as Hfile by (split; [by rewrite Hc0|by exists 64]).
  destruct (UInv_window (e_v e) T W B R r PR_PW HU) as (i & s1 & E1 & Hi & HU1 & Q1 & K1); [by eapply uroot_frame|lia|apply PR_PW_ok|].
  assert (base.size (<[i := r]> W) = S (base.size W)) as Hsz1 by by rewrite map_size_insert_None.
  destruct (image_run e T W B R r path j h x1 c hd argv envp (Win (waddr i)) k0 (<[i := r]> W) s1 (mkElf hd j) Hrdy Hby eq_refl Hfile HO0 HU1 K1)
    as (e2 & e3 & o & st & T' & B' & R' & E2 & E3 & Ep & s4 & E4 & HU4 & HS4 & Hf3 & RS & Hrep & Hstk);
    [by destruct Q1 as (_ & -> & _)|apply shows_insert|lia|].
  destruct (UInv_drop _ _ _ _ _ _ _ HU4 Hi) as (s5 & E5 & HU5 & Q5 & K5).
  destruct Hf3 as [Hc3 [o3 Hop3]]. destruct (drop_run j h o3 (e_k e3) Hop3) as (k5 & E6 & HO6).
  destruct RS as (Rm & Rt & Rf & RO). simpl in Rm, Rt, Rf, RO.
  assert (∀ r0 l (e4 : ESt X F), exec_image others naps (Win (waddr i)) r (mkElf hd j) argv envp (with_v s1 (with_k k0 e)) = Done (r0, e4) →
    e_v e4 = set_tlb l s4 → e_k e4 = e_k e3 →
    execv_inner others naps path argv envp e = Done (r0, with_k k5 (with_v (set_tlb l s5) e4))) as Hrun.
  { intros r0 l e4 Ei Ev Ek. unfold execv_inner. erewrite bind_Done by (apply on_k_run; exact Ek0). cbv iota beta. mstep.
    change (e_mm (with_k k0 e)) with (e_mm e). rewrite Hm. mstep. mrun (on_v_run _ (with_k k0 e) _ s1 E1). simpl unwrap_e. mstep. mrun Ei.
    assert (pm_wrap_drop (waddr i) (e_v e4) = Done (tt, set_tlb l s5)) as E5' by (rewrite Ev; by apply wrap_drop_tlb).
    mrun (on_v_run _ e4 tt _ E5'). set (e5 := with_v (set_tlb l s5) e4).
    assert (elf_drop j (e_k e5) = Done (tt, k5)) as E6' by (simpl; by rewrite Ek). mrun (on_k_run _ e5 tt k5 E6'). done. }
  assert (∀ l, UInv (set_tlb l s5) T' W B' R' ∧ keeps s4 T' (set_tlb l s5) T') as Hfl by (intros l; split; [by apply UInv_tlb|exact K5]).
  assert (∀ k, exec_image others naps (Win (waddr i)) r (mkElf hd j) argv envp (with_v s1 (with_k k0 e)) = k →
    (let* sp := exec_stack argv envp in exec_frame (mkElf hd j) r sp ;;; ret (Some tt)) e3 = k) as Himg.
  { intros k <-. symmetry. unfold exec_image. mrun E2. by mrun E3. }
  pose proof (push_args_run STACK argv envp ltac:(done)) as Hp. rewrite Ep in Hp.
  destruct (stack_fits (kept argv) (kept envp)) eqn:Efit.
  - destruct Hp as (sp & st' & Heq & HL). injection Heq as -> <-.
    assert (∃ m', exec_frame (mkElf hd j) r sp (with_v s4 e3) = Done (tt, with_m m' (with_v (set_tlb [] s4) (with_v s4 e3))) ∧
      frame_at m' (trapframe (with_v s4 e3)) (fresh_frame (entry hd) sp) ∧
      sysregs m' TTBR0_EL1 = Z.lor (wshl 64 (pid t) 48) r ∧ sysregs m' TPIDR_EL0 = 0 ∧ xs m' = xs (e_m e)) as (m' & Ef & Hfr & Htt & Htp & Hxs).
    { destruct (exec_frame_run (with_v s4 e3) ti t (mkElf hd j) r sp) as (m' & Ef & H1 & H2 & H3 & H4 & _);
        [| |by simpl; rewrite Rt..| |exists m'; split_and!; [done..|]; rewrite H4; simpl; by rewrite Rm].
      - simpl. rewrite (os_idx _ _ _ RO), (os_idx _ _ _ HO0). exact Hti.
      - simpl. rewrite (os_tasks _ _ _ RO), (os_tasks _ _ _ HO0). exact Ht.
      - simpl. rewrite Rm, Rt. exact Hf2. }
    exists (with_k k5 (with_v (set_tlb [] s5) (with_m m' (with_v (set_tlb [] s4) (with_v s4 e3))))). split.
    { eapply replaced_files; [apply (Hrep W (set_tlb [] s5)); apply (Hfl [])|done|done|exact HO6]. }
    exists sp, (sp_el0 st). split_and!.
    + apply (Hrun _ []); [|done|done]. specialize (Himg _ eq_refl). rewrite <- Himg. erewrite bind_Done by exact E4. cbv iota beta. by mrun Ef.
    + apply Forall_app in Hnz as [Hnza Hnze]. apply laid_out_parse; [exact HL|done|done|lia|by apply kept_Forall|by apply kept_Forall].
    + intros k b Hb. simpl. by apply (Hstk k b Hb W (set_tlb [] s5)); apply (Hfl []).
    + simpl. rewrite <- Rt. exact Hfr.
    + simpl. rewrite Htt, Z.land_lor_distr_l, asid_masked, Z.lor_0_l. exact (proj2 (uroot_frame _ _ _ _ _ _ HU Hr)).
    + exact Htp.
    + exact Hxs.
    + exact Rt.
    + exact Rf.
    + done.
  - destruct Hp as (st' & Heq). injection Heq as -> <-. exists (with_k k5 (with_v (set_tlb (tlb s4) s5) (with_v s4 e3))). split.
    { eapply replaced_files; [apply (Hrep W (set_tlb (tlb s4) s5)); apply (Hfl (tlb s4))|done|done|exact HO6]. }
    split; [|exact Rm]. apply Hrun; [|by destruct s4|done]. specialize (Himg _ eq_refl). rewrite <- Himg. by erewrite bind_Done by exact E4.
Qed.

(** C13: Starting a program.  When the file is an executable whose segments can
    be loaded and do not overlap, [execv_inner] returns, and the task has
    exactly the new program: every segment holds its bytes of the file followed
    by zeroes, with the permissions of its flags; no page of the old program
    is left; the stack is read back as the arguments and the environment; the
    trap frame starts at the entry point with that stack and cleared registers,
    on the tables of the task, of which the TLB remembers nothing older; no other task reads anything else than before.
    When the arguments do not fit there is an error, but the old program is
    gone all the same while the trap frame still points into it. *)
Theorem exec_spec e T W B R r path argv envp j h x1 c hd :
  exec_ready e T W B R r path j h x1 c hd → Forall (Forall (λ b, 0 < b < 256)) (argv ++ envp) → Z.of_nat (length argv) < 2 ^ 64 →
  ∃ e', replaced e T W r j c hd e' ∧
    if stack_fits (kept argv) (kept envp) then
      ∃ sp buf, execv_inner others naps path argv envp e = Done (Some tt, e') ∧
        parse_stack buf STACK sp = Some (Z.of_nat (length argv), kept argv, kept envp, [(25, STACK + (SPEL0_SIZE - 16))]) ∧
        (∀ i b, buf !! i = Some b → ubyte (e_v e') r (STACK + Z.of_nat i) = Some b) ∧
        frame_at (e_m e') (trapframe e) (fresh_frame (entry hd) sp) ∧ Z.land (sysregs (e_m e') TTBR0_EL1) PHY_MASK = r ∧
        sysregs (e_m e') TPIDR_EL0 = 0 ∧ xs (e_m e') = xs (e_m e) ∧ trapframe e' = trapframe e ∧ FIRST e' = FIRST e ∧
        tlb (e_v e') = []
    else execv_inner others naps path argv envp e = Done (None, e') ∧ e_m e' = e_m e.
Proof using pf shl. apply exec_runs. Qed.

(** ** The first task *)
Lemma exec_ready_ttbr0 e T W B R r path j h x1 c hd v :
  exec_ready e T W B R r path j h x1 c hd →
  exec_ready (with_first false (with_v (set_tlb [] (e_v e)) (with_m (set_sys TTBR0_EL1 v (e_m e)) e))) T W B R r path j h x1 c hd.
Proof. intros [? ? ? ? ? [HU HS] ? ? ? ? ? ? ?]. split; try assumption. split; [by apply UInv_tlb|exact HS]. Qed.

(** C14: The first task becomes the shell.  When the scheduler switches to it
    for the first time, [forkret] starts the program found at "/bin/busybox"
    and leaves the kernel: the processor is in user mode at the entry point of
    the program, on a stack that holds "sh" and "-i" and the environment of the
    kernel, with all registers zero and the kernel stack empty; its directory
    is the root, and no other task will take this path. *)
Theorem first_task_starts (call : sym → AM unit) e T W B R r j h x1 c hd :
  FIRST e = true → exec_ready e T W B R r BUSYBOX j h x1 c hd → length (xs (e_m e)) = 31%nat →
  ∃ e' sp buf, forkret others naps call e = Done (tt, e') ∧ frame_of (e_m e') = fresh_frame (entry hd) sp ∧
    Arch.sp (e_m e') = trapframe e + FRAME_SIZE ∧ FIRST e' = false ∧
    parse_stack buf STACK sp = Some (2, INIT_ARGV, TEST_ENV, [(25, STACK + (SPEL0_SIZE - 16))]) ∧
    (∀ i b, buf !! i = Some b → ubyte (e_v e') r (STACK + Z.of_nat i) = Some b) ∧
    (∀ p a, p ∈ prog_segs c hd → p_vaddr p ≤ a < p_vaddr p + p_memsz p →
       ubyte (e_v e') r a = seg_bytes c p !! Z.to_nat (a - p_vaddr p)) ∧
    ∃ i t, task_idx (e_k e') = Some i ∧ k_tasks (e_k e') !! i = Some t ∧ cwd t = Some [47].
Proof using pf shl.
  intros Hfirst Hrdy Hx. pose proof Hrdy as [_ _ _ _ _ _ [Hm _] _ _ _ _ (ti & Hti & t & Ht) (Hf0 & Hf1 & Hf2)].
  set (m0 := set_sys TTBR0_EL1 (Z.lor (wshl 64 (pid t) 48) r) (e_m e)).
  set (e0 := with_first false (with_v (set_tlb [] (e_v e)) (with_m m0 e))).
  assert (cur_task (e_k e) = Done (t, e_k e)) as Ec by (unfold cur_task, cur, get_tsk, bind, get; rewrite Hti; simpl; by rewrite Ht).
  assert (Forall (Forall (λ b, 0 < b < 256)) (INIT_ARGV ++ TEST_ENV)) as Hargs by (repeat constructor).
  destruct (exec_runs e0 T W B R r BUSYBOX INIT_ARGV TEST_ENV j h x1 c hd (exec_ready_ttbr0 _ _ _ _ _ _ _ _ _ _ _ _ _ Hrdy) Hargs)
    as (e1 & Hrep & Hrest); [done|].
  assert (stack_fits (kept INIT_ARGV) (kept TEST_ENV) = true) as Hfit by (vm_compute; reflexivity). rewrite Hfit in Hrest.
  destruct Hrest as (sp & buf & E & Hp & Hb & Hfr & _ & _ & Hxs & Htf & Hff & _).
  assert (kept INIT_ARGV = INIT_ARGV ∧ kept TEST_ENV = TEST_ENV) as [K1 K2] by (split; vm_compute; reflexivity). rewrite K1, K2 in Hp.
  pose proof (rp_files _ _ _ _ _ _ _ _ Hrep) as HO. change (trapframe e0) with (trapframe e) in Hfr.
  assert (task_idx (e_k e1) = Some ti) as Hti1 by (rewrite (os_idx _ _ _ HO); exact Hti).
  assert (k_tasks (e_k e1) !! ti = Some t) as Ht1 by (rewrite (os_tasks _ _ _ HO); exact Ht).
  set (e2 := with_k (with_tasks (alter (set_cwd (Some [47])) ti) (e_k e1)) e1).
  assert (upd_cur (set_cwd (Some [47])) (e_k e1) = Done (tt, with_tasks (alter (set_cwd (Some [47])) ti) (e_k e1))) as Ecwd
    by (unfold upd_cur, cur, bind, get; by rewrite Hti1).
  destruct (restore_run call (set_sp (trapframe e) (e_m e1)) (fresh_frame (entry hd) sp)) as (m3 & E3 & R1 & R2 & R3 & R4 & _ & R6);
    [by simpl; rewrite Hxs|done|exact Hfr|exact Hf0|simpl Arch.sp; unfold FRAME_SIZE; lia|].
  exists (with_m m3 e2), sp, buf. split_and!.
  - unfold forkret. mrun (on_k_run _ e t (e_k e) Ec). mstep. change (e_mm (with_k (e_k e) e)) with (e_mm e). rewrite Hm. mstep.
    assert (restore_ttbr0 (pid t) r (with_k (e_k e) e) = Done (tt, with_v (set_tlb [] (e_v e)) (with_m m0 e))) as Et by by destruct e.
    mrun Et. mstep. change (FIRST (with_v _ _)) with (FIRST e). rewrite Hfirst. rewrite bind_modify. fold e0.
    rewrite bind_assoc. mrun E. rewrite bind_assoc. mstep. mrun (on_k_run _ e1 tt _ Ecwd). mstep. fold e2.
    change (trapframe e2) with (trapframe e1). rewrite Htf. change (trapframe e0) with (trapframe e).
    assert (forkret_exit call (trapframe e) (e_m e2) = Done (tt, m3)) as Ex by (unfold forkret_exit; rewrite bind_modify; exact E3).
    by apply on_m_run.
  - unfold frame_of. simpl. by rewrite R1, R3, R4, R6.
  - exact R2.
  - exact Hff.
  - exact Hp.
  - exact Hb.
  - apply Hrep.
  - exists ti, (set_cwd (Some [47]) t). split_and!; [exact Hti1| |done]. simpl. by rewrite list_lookup_alter_eq, Ht1.
Qed.
End exec.
