(* ===== verification/ExecWit.v ===== *)
(** * A program started

    The program of [Disk], with the arguments "sh -i", in a task that
    [init_user] has just made. *)
From S2P Require Import Prelude Stuff Pm PmInv PmRun PmSpec Vm VmInv VmTree VmRun VmFree VmPm VmSpec VmKern VmBoot VmWit.
From S2P Require Import Umem UmemInv UmemRun UmemSafe UmemOps UmemSpec UmemFork UmemPm UmemWit UmemFree.
From S2P Require Import Arch Trap TrapSpec Kst Fs FsData Elf ElfSpec Exec ExecStack ExecMem ExecSeg ExecRun ExecSpec.

Local Open Scope Z_scope.
#[local] Existing Instance tiny_image.
#[local] Opaque pm_gap.

Definition disk : Disk.X := Disk.mkX [Disk.prog].

(** The kernel stack of the task, with the trap frame at its end. *)
Definition exec_m : Machine := mkMach (replicate 31 5) 0x10000 0 EL1_MASKED (λ _, 0) (blank (0x10000 - 272) 34).

Definition exec_e (s : VSt Allocator) (r sp : Z) : ESt Disk.X Allocator :=
  mkE (Disk.start disk) s (task_mm r sp) exec_m (0x10000 - 272) true.

Lemma disk_segs : prog_segs Disk.prog Disk.hdr = [Disk.ph].
Proof. vm_compute. reflexivity. Qed.

Lemma disk_hdr : Disk.hdr = hdr_of (take HDR_SIZE Disk.prog).
Proof. vm_compute. reflexivity. Qed.

Lemma disk_seg_ok : seg_ok (Z.of_nat (length Disk.prog)) Disk.ph.
Proof. split; vm_compute; auto; try split; discriminate. Qed.

Lemma no_old_pages r sp k : in_regions (old_regions (task_mm r sp)) k = false.
Proof.
  apply not_true_is_false. unfold in_regions, old_regions, in_region, npages. simpl. change (0 / 4096) with 0.
  rewrite orb_false_r, !Z.add_0_r, orb_true_iff, !andb_true_iff, !Z.leb_le, !Z.ltb_lt. lia.
Qed.

Lemma seg_is_page k : in_regions (seg_region <$> [Disk.ph]) k = true ↔ k = 1024.
Proof.
  cbn [fmap list_fmap in_regions existsb]. rewrite orb_false_r, in_seg. change (vpn (seg_from Disk.ph)) with 1024.
  change (seg_pages Disk.ph) with 1. lia.
Qed.

(** Everything [exec] asks for. *)
Lemma disk_ready path :
  ∃ (s : VSt Allocator) T B R r sp, exec_ready (exec_e s r sp) T ∅ B R r path 0 0 disk Disk.prog Disk.hdr.
Proof.
  destruct two_tasks as (s & T & B & R & r1 & sp1 & r2 & sp2 & HU & HS & Hr1 & _ & _ & S1 & _ & Hno & Hroom).
  assert (vpn STACK = 2097152) as E8 by done.
  exists s, T, B, R, r1, sp1. split; rewrite ?disk_segs.
  - split; [reflexivity|]. by eexists.
  - reflexivity.
  - split_and!; [reflexivity| |done]. vm_compute. repeat constructor; discriminate.
  - split_and!; [apply disk_hdr|vm_compute; lia|reflexivity].
  - vm_compute. split_and!; discriminate.
  - by split.
  - split_and!; [reflexivity|done|]. rewrite map_size_empty. lia.
  - split_and!; [by repeat constructor| |].
    + split; [|by split]. intros k Hk. exfalso. pose proof (no_old_pages r1 sp1 k) as H. unfold old_regions, in_regions in H. cbn [existsb] in H.
      change (in_region (mmap_r (task_mm r1 sp1)) k = true) in Hk. by rewrite Hk in H.
    + intros k Hk. change (in_regions (old_regions (task_mm r1 sp1)) k = true) in Hk. by rewrite no_old_pages in Hk.
  - split_and!; [constructor; [apply disk_seg_ok|constructor]|by split|].
    intros k Hk%seg_is_page. right. apply Hno. change (vpn (8 * GB)) with 2097152. lia.
  - split.
    + split_and!; [reflexivity|reflexivity|]. intros i Hi. destruct (S1 i Hi) as (x & Hx & _ & Hw). by exists x.
    + intros i Hi. split; [apply no_old_pages|]. destruct (in_regions _ _) eqn:E; [|done]. apply seg_is_page in E. lia.
  - change (4 * total _)%nat with 4%nat. apply (room_drop _ (gap + 16) 4). by rewrite <- Nat.add_assoc.
  - exists 0%nat. split; [reflexivity|]. by eexists.
  - split_and!; [done|done|]. apply (blank_mapped _ _ _ (replicate 34 0)); [apply wr_words|done].
Qed.

Lemma exec_spec_witness :
  ∃ (e e' : ESt Disk.X Allocator) r sp, execv_inner Disk.idle 0 [47] [[115; 104]; [45; 105]] [] e = Done (Some tt, e') ∧
    user_pt (e_mm e) = Some r ∧ frame_at (e_m e') (trapframe e) (fresh_frame 0x400078 sp) ∧
    (λ i, ubyte (e_v e') r (0x400078 + i)) <$> seqZ 0 4 = [Some 170; Some 187; Some 0; Some 0].
Proof.
  destruct (disk_ready [47]) as (s & T & B & R & r1 & sp1 & Hrdy).
  destruct (exec_spec Disk.idle 0 (exec_e s r1 sp1) T ∅ B R r1 [47] [[115; 104]; [45; 105]] [] 0 0 disk Disk.prog Disk.hdr Hrdy)
    as (e' & Hrep & Hrest); [repeat constructor; lia|done|].
  assert (stack_fits (kept [[115; 104]; [45; 105]]) (kept []) = true) as Hfit by (vm_compute; reflexivity). rewrite Hfit in Hrest.
  destruct Hrest as (sp & buf & E & _ & _ & Hf & _). exists (exec_e s r1 sp1), e', r1, sp.
  split_and!; [exact E|reflexivity|exact Hf|].
  assert (∀ i, 0 ≤ i < 4 → ubyte (e_v e') r1 (0x400078 + i) = seg_bytes Disk.prog Disk.ph !! Z.to_nat i) as Hb.
  { intros i Hi. rewrite (rp_bytes _ _ _ _ _ _ _ _ Hrep Disk.ph).
    - f_equal. change (p_vaddr Disk.ph) with 0x400078. lia.
    - rewrite disk_segs. by left.
    - change (p_vaddr Disk.ph) with 0x400078. change (p_memsz Disk.ph) with 4. lia. }
  change (seqZ 0 4) with [0; 1; 2; 3]. cbn [fmap list_fmap]. rewrite !Hb by lia. reflexivity.
Defined.

Lemma first_task_starts_witness :
  ∃ (e e' : ESt Disk.X Allocator), forkret Disk.idle 0 (λ _, ret tt) e = Done (tt, e') ∧ FIRST e = true ∧ FIRST e' = false ∧
    pc (e_m e') = 0x400078 ∧ el (pstate (e_m e')) = 0 ∧ xs (e_m e') = replicate 31 0.
Proof.
  destruct (disk_ready BUSYBOX) as (s & T & B & R & r1 & sp1 & Hrdy).
  destruct (first_task_starts Disk.idle 0 (λ _, ret tt) (exec_e s r1 sp1) T ∅ B R r1 0 0 disk Disk.prog Disk.hdr eq_refl Hrdy eq_refl)
    as (e' & sp & buf & E & Hf & _ & Hff & _). injection Hf as H1 H2 H3 H4.
  exists (exec_e s r1 sp1), e'. split_and!; [exact E|reflexivity|exact Hff|exact H1| |exact H4]. by rewrite H3.
Defined.
